(* ===== verification/_CoqProject ===== *)
-Q . S2P
Prelude.v
Bits.v
Ram.v
Pmm.v
PmmSpec.v
PmmContig.v
PmmInit.v
PmmProps.v
Frames.v
Vmm.v
PageTable.v
VmmSpec.v
VmmMap.v
VmmSpace.v
VmmCow.v
VmmUser.v
VmmCopy.v
Uaccess.v
VmmProps.v
MemCalls.v
VmaSpec.v
MemAreas.v
MemMerge.v
MemPages.v
MemSystem.v
MemMaps.v
MemProps.v
VmmDestroy.v
VmmScope.v
VmmClone.v
VmmFork.v
VmmForkRun.v
VmmForkable.v
VmmLife.v
Links.v
SchedState.v
Sched.v
WaitQueue.v
Task.v
Signal.v
TaskLife.v
Timer.v
SchedSpec.v
SchedRun.v
WaitSpec.v
SchedInv.v
SchedSystem.v
SchedProps.v
Heap.v
HeapSpec.v
HeapRun.v
HeapBlocks.v
HeapUse.v
HeapClient.v
HeapPages.v
HeapProps.v
NetState.v
Net.v
SocketOps.v
NetRing.v
NetSpec.v
NetRecv.v
NetInput.v
NetStream.v
NetFrames.v
NetCalls.v
NetLife.v
NetQueue.v
NetSystem.v
NetProps.v
Spinlock.v
Tty.v
TtySpec.v
TtyProps.v
