(* ===== verification/Prelude.v ===== *)
(** * LiteNix kernel: a model and its correctness

    LiteNix is a small x86-64 kernel in C.  This development translates its
    memory management, the memory system calls, its scheduler, its spin locks,
    its terminal and its network stack into executable definitions and proves
    what makes them correct.  Paths below are relative to src/kernel.

    ** How the code is modelled

    A routine is a program over the state of its component: a function from a
    state to an outcome, which is a result with a new state, a panic, an
    undefined access (outside an array, through a null or stale pointer,
    outside a packet) or a loop that never ends.  [wp m Q s] says that [m],
    started in [s], finishes and establishes [Q]; it is false for the three
    other outcomes, so that every theorem stated with it or with [Done] also
    says that the routine returns.  C integers are [Z]; wherever a result can
    leave its width the truncation is written out ([u8], [u16], [u32], [u64],
    [i32]).  Pointers to records are addresses in finite maps, pointers into
    arrays are indices, and the null pointer is 0 or [None].

    ** Parts and files

    - Prelude.v (this file): integers, programs, [wp] and its tactics, loops.
      Bits.v: truncation, masks, alignment.  Ram.v: physical memory as 64-bit
      words, with byte accesses.
    - Page allocator, mm/pmm.c.  Pmm.v has the record [pmm] of its static
      variables and every operation, [pmm_init] over the boot loader's memory
      map included.  PmmSpec.v and PmmContig.v have the invariant and the
      effect of each operation, PmmInit.v the correctness of the boot, PmmProps.v
      the properties: no page is handed out twice, the lowest free page is
      taken, releases and shared references count correctly, the free count is
      exact, every panic has its exact condition.
    - Page tables, arch/x86_64/memory/vmm.c, and user copies, mm/uaccess.c.
      Frames.v is the class of frame allocators, with its laws, and the page
      allocator as an instance; Vmm.v and Uaccess.v are written over the class.
      PageTable.v says what a tree of tables in memory translates; VmmSpec.v,
      VmmMap.v, VmmSpace.v, VmmCow.v, VmmUser.v and VmmCopy.v prove each
      routine against it, VmmProps.v has the properties: mapping, unmapping
      and protection change one translation, spaces are isolated, copy-on-write
      faults are resolved, accepted user ranges are mapped for the user, what
      is copied to the user is read back.
    - Memory system calls, sys/sys_mem.c.  MemCalls.v has brk, mmap, munmap,
      mprotect, mremap and madvise over the page tables, the table of areas and
      the reference counts of files.  VmaSpec.v reads the table as a map from
      addresses to attributes; MemAreas.v, MemMerge.v and MemPages.v prove the
      loops over areas, the merging of areas, the search for room and the loops
      over pages; MemSystem.v and MemMaps.v have the invariant of an address
      space and the effect of each call.  MemProps.v: sequences of calls keep
      the address space well formed and implement operations on the map.
    - Copying and destroying address spaces, vmm_clone_address_space and
      vmm_destroy_address_space of vmm.c.  VmmDestroy.v lists the frames of an
      address space and proves that each is released once; VmmScope.v says which
      entries vmm_map writes; VmmClone.v treats the nested loops over the pages,
      VmmFork.v and VmmForkRun.v the invariant of the copy and its steps,
      VmmForkable.v which address spaces can be copied.  VmmLife.v: a copy shares
      every page copy-on-write, nothing is lost when it fails, and destroying it
      restores every reference count.
    - Heap, mm/heap.c.  Heap.v has the slabs, the large blocks and the public
      calls over the class [PageOps]; HeapSpec.v, HeapRun.v, HeapBlocks.v and
      HeapUse.v relate the words of memory to an abstract heap; HeapPages.v
      instantiates the class with the page allocator and the kernel's page
      tables; HeapClient.v is the view of a client, who knows its blocks and
      what it stored.  HeapProps.v: no call of a correct client fails, blocks
      are disjoint and keep their contents.
    - Scheduler, sched/scheduler.c, wait queues, sched/wait_queue.c, tasks,
      sched/task.c, and timer, drivers/pit.c.  Links.v treats linked lists in a
      heap of records; SchedState.v has the records of task.h; Sched.v,
      WaitQueue.v, Task.v, Signal.v, TaskLife.v and Timer.v have the operations.
      SchedSpec.v, SchedRun.v and WaitSpec.v prove that they implement an
      abstract scheduler of plain lists; SchedInv.v and SchedSystem.v
      interleave the kernel entries of all tasks.  SchedProps.v: the queues stay
      consistent, every entry finishes, the choice is round robin by priority,
      nobody oversleeps, wake-ups reach the waiters.
    - Network stack, net/.  NetState.v has the socket table, the ARP cache and
      the services used; Net.v the protocols; SocketOps.v the socket calls.
      NetRing.v treats the receive buffer as a queue of bytes, NetSpec.v has the
      invariant, NetRecv.v and NetInput.v the input path, NetStream.v, NetFrames.v
      and NetQueue.v streams, headers and datagrams, NetCalls.v and NetLife.v the
      calls, NetSystem.v sequences of frames, ticks and calls.  NetProps.v: the
      stack is safe, a connection delivers a prefix of its peer's stream, a
      datagram socket is a queue.
    - Spin locks, kernel/spinlock.c.  Spinlock.v interleaves the accesses of
      several processors and proves mutual exclusion.
    - Terminal, drivers/tty.c, and the sending half of drivers/serial.c.  Tty.v
      has the ring of characters, the line discipline, reading and the requests,
      over the wait queues and signals of the scheduler and the user copies of
      the page tables.  TtySpec.v relates the ring and its counters to a list of
      characters.  TtyProps.v: in canonical mode the terminal is a queue of
      lines.

    The parts meet in four places.  Page tables and heap call the page
    allocator through classes, and the instances discharge the laws, so that
    the properties of HeapProps.v and VmmProps.v hold of the real allocator.
    Tasks and sockets take the answers of the heap as arguments: every pattern
    of failing allocations is covered.  The network stack takes the table lock
    in the way Spinlock.v justifies: on one processor, with interrupts off, the
    holder of a lock is a caller up the stack, and a second attempt never ends.
    The memory calls and the terminal run the modelled routines of the page
    tables and of the scheduler on their part of a larger state, and their
    theorems use the invariants proved there.

    ** Properties that describe defects

    Where the code does not do what it means to, a theorem states what it does:
    [pmm_free_accepts_unusable_page], [pmm_ref_page_wraps],
    [vmm_validate_breaks_cow], [heap_double_free], [exit_group_use_after_free],
    [wake_one_lost], [fork_failure_leaks], [loopback_syn_deadlock],
    [reused_slot_refuses_writes], [munmap_reaches_kernel], [mprotect_breaks_cow]
    and [tty_lock_lost].  The hypotheses of the properties of the memory calls
    (ranges in the user half, no file mapping split, a free table entry for
    MAP_FIXED) are the cases the code handles; outside them it has the defects
    above.  [vmm_clone_correct] asks that no reference count is at its limit, at
    which [pmm_ref_page_wraps] shows what happens.

    ** Fuel and bounds

    - Loops over arrays recurse on the number of elements left.  A loop over a
      linked list gets the number of records as fuel: a list without a cycle ends
      within it, and a list that does not is one on which the C loop spins; the
      invariants show that the fuel is never used up.
    - [fold_carry] needs at most three rounds for a 32-bit sum.  [arp_wait]
      makes the five attempts of the code, [close_wait] its hundred.
    - A packet to the own address is received inside the call that sends it.
      [net_ipv4_send] takes fuel 2: datagrams and echo replies cause no answer,
      and a TCP segment that causes one meets the table lock, which is held.
    - [merge_loop] gets the number of table entries: each merge removes an area.
      [region_loop] gets two rounds per entry and three more: a round restarts
      the search once, or moves behind an area it does not meet again.
    - A call that sleeps for an event has a number of wake-ups as an argument,
      and the rest of the system runs at each; with none left the caller waits
      for ever.

    ** Not modelled

    - Assembly (entry, interrupt stubs, the processor part of the context
      switch) and device registers (drivers/): they have no C semantics to
      translate.  What the modelled code relies on of them, the tick of the
      timer, the interrupt flag and the frames given to the network card, is
      part of the state.
    - printk, the self tests and the dump functions: output only.
    - The virtual file system, the on-disk formats, the ELF loader and the
      system calls on files, processes and events.  They build on the modelled
      parts and are not covered.
    - The endless loop of [net_thread_entry]: its rounds are the frames and
      ticks of NetSystem.v, in any number and order.
    - Weak memory: the locks use locked instructions, and the accesses to a lock
      are taken to be sequentially consistent. *)

From stdpp Require Export base gmap strings numbers option list.

#[global] Set Default Goal Selector "!".

(** ** Machine integers

    A [w]-bit C integer is a [Z]; every operation that can leave the range
    writes its wrap-around out with one of these truncations. *)

Definition u8 (z : Z) : Z := z `mod` 2 ^ 8.
Definition u16 (z : Z) : Z := z `mod` 2 ^ 16.
Definition u32 (z : Z) : Z := z `mod` 2 ^ 32.
Definition u64 (z : Z) : Z := z `mod` 2 ^ 64.
(** Two's complement reinterpretation, [int8_t] and [int]. *)
Definition i8 (z : Z) : Z := (z + 2 ^ 7) `mod` 2 ^ 8 - 2 ^ 7.
Definition i32 (z : Z) : Z := (z + 2 ^ 31) `mod` 2 ^ 32 - 2 ^ 31.

(** Error numbers (include/sys/syscall.h). *)
Definition EPERM : Z := 1.
Definition EBADF : Z := 9.
Definition EAGAIN : Z := 11.
Definition ENOMEM : Z := 12.
Definition EFAULT : Z := 14.
Definition ENODEV : Z := 19.
Definition EINVAL : Z := 22.
Definition ENFILE : Z := 23.
Definition EMFILE : Z := 24.
Definition EPIPE : Z := 32.
Definition ENOSYS : Z := 38.
Definition ENOTSOCK : Z := 88.
Definition EDESTADDRREQ : Z := 89.
Definition ENOPROTOOPT : Z := 92.
Definition ENOTSUP : Z := 95.
Definition EOPNOTSUPP : Z := 95.
Definition EAFNOSUPPORT : Z := 97.
Definition EISCONN : Z := 106.
Definition ENOTCONN : Z := 107.

Declare Scope c_scope.
Delimit Scope c_scope with C.
Open Scope Z_scope.

(** [uint64_t] arithmetic and bit operations. *)
Notation "x +! y" := (u64 (x + y)) (at level 50, left associativity) : c_scope.
Notation "x -! y" := (u64 (x - y)) (at level 50, left associativity) : c_scope.
Notation "x *! y" := (u64 (x * y)) (at level 40, left associativity) : c_scope.
Notation "x <<! y" := (u64 (Z.shiftl x y)) (at level 50, left associativity) : c_scope.
Notation "x >>! y" := (Z.shiftr x y) (at level 50, left associativity) : c_scope.
Notation "x &! y" := (Z.land x y) (at level 50, left associativity) : c_scope.
Notation "x |! y" := (Z.lor x y) (at level 50, left associativity) : c_scope.
Notation "~! x" := (u64 (Z.lnot x)) (at level 35, right associativity) : c_scope.
Open Scope c_scope.

(** ** Effects

    A kernel routine runs on a state [S].  It either finishes, or it stops:
    [panic()] halts the machine, an access to memory the program does not own
    is undefined, and a loop over a cyclic list spins for ever. *)

Inductive stop :=
| Panicked (why : string)
| Undefined
| Spinning.

Inductive outcome (A : Type) :=
| Done (a : A)
| Stop (r : stop).
Arguments Done {_} _.
Arguments Stop {_} _.

Definition prog (S A : Type) : Type := S → outcome (A * S).

Section prog.
Context {S : Type}.

#[global] Instance prog_ret : MRet (prog S) := λ A a s, Done (a, s).
#[global] Instance prog_bind : MBind (prog S) := λ A B k m s,
  match m s with
  | Done (a, s') => k a s'
  | Stop r => Stop r
  end.

Definition get : prog S S := λ s, Done (s, s).
Definition gets {A} (f : S → A) : prog S A := λ s, Done (f s, s).
Definition modify (f : S → S) : prog S unit := λ s, Done ((), f s).
Definition panic {A} (why : string) : prog S A := λ _, Stop (Panicked why).
Definition undef {A} : prog S A := λ _, Stop Undefined.
Definition spin {A} : prog S A := λ _, Stop Spinning.

(** [if (b) return/execute m;] *)
Definition when (b : bool) (m : prog S unit) : prog S unit :=
  if b then m else mret ().

(** Pointer that must be valid at this point. *)
Definition deref {A} (o : option A) : prog S A :=
  match o with Some a => mret a | None => undef end.

(** [for (i = i0; n iterations; i += step) body]; the body returns
    [Some r] to leave the enclosing function with [r]. *)
Fixpoint for_until {R} (n : nat) (i step : Z) (body : Z → prog S (option R))
    : prog S (option R) :=
  match n with
  | O => mret None
  | Datatypes.S n =>
      r ← body i;
      match r with
      | Some x => mret (Some x)
      | None => for_until n (i + step) step body
      end
  end.

(** The same loop without an early exit. *)
Fixpoint for_each {A} (l : list A) (body : A → prog S unit) : prog S unit :=
  match l with
  | [] => mret ()
  | a :: l => body a;; for_each l body
  end.

(** A loop that carries local variables [v] besides the state. *)
Fixpoint for_fold {A V} (l : list A) (v : V) (body : V → A → prog S V)
    : prog S V :=
  match l with
  | [] => mret v
  | a :: l => v' ← body v a; for_fold l v' body
  end.
End prog.

(** Run a routine of one component inside the state of another. *)
Definition zoom {S T A} (proj : T → S) (inj : S → T → T) (m : prog S A)
    : prog T A :=
  λ t, match m (proj t) with
       | Done (a, s) => Done (a, inj s t)
       | Stop r => Stop r
       end.

(** ** Total weakest precondition: the routine finishes, and [Q] holds. *)

Definition wp {S A} (m : prog S A) (Q : A → S → Prop) (s : S) : Prop :=
  match m s with
  | Done (a, s') => Q a s'
  | Stop _ => False
  end.

Section wp.
Context {S : Type}.

Lemma wp_ret {A} (a : A) (Q : A → S → Prop) s :
  Q a s → wp (mret a) Q s.
Proof. done. Qed.

Lemma wp_bind {A B} (m : prog S A) (k : A → prog S B) Q s :
  wp m (λ a, wp (k a) Q) s → wp (m ≫= k) Q s.
Proof. unfold wp, mbind, prog_bind. by destruct (m s) as [[]|]. Qed.

Lemma wp_gets {A} (f : S → A) Q s : Q (f s) s → wp (gets f) Q s.
Proof. done. Qed.

Lemma wp_get (Q : S → S → Prop) s : Q s s → wp get Q s.
Proof. done. Qed.

Lemma wp_modify f (Q : unit → S → Prop) s :
  Q () (f s) → wp (modify f) Q s.
Proof. done. Qed.

Lemma wp_when (b : bool) m (Q : unit → S → Prop) s :
  (b = true → wp m Q s) → (b = false → Q () s) → wp (when b m) Q s.
Proof. destruct b; unfold when; intros H1 H2; [by apply H1 | by apply H2]. Qed.

Lemma wp_deref {A} (o : option A) a (Q : A → S → Prop) s :
  o = Some a → Q a s → wp (deref o) Q s.
Proof. by intros ->. Qed.

Lemma wp_mono {A} (m : prog S A) (Q Q' : A → S → Prop) s :
  wp m Q s → (∀ a s', Q a s' → Q' a s') → wp m Q' s.
Proof. unfold wp. destruct (m s) as [[]|]; eauto. Qed.

Lemma wp_and {A} (m : prog S A) (Q Q' : A → S → Prop) s :
  wp m Q s → wp m Q' s → wp m (λ a s', Q a s' ∧ Q' a s') s.
Proof. unfold wp. by destruct (m s) as [[]|]. Qed.

(** What [wp] says in plain terms. *)
Lemma wp_run {A} (m : prog S A) Q s :
  wp m Q s ↔ ∃ a s', m s = Done (a, s') ∧ Q a s'.
Proof.
  unfold wp. destruct (m s) as [[a s']|r]; split.
  - eauto.
  - by intros (?&?&[= -> ->]&?).
  - done.
  - by intros (?&?&?&?).
Qed.

Lemma wp_of_run {A} (m : prog S A) (Q : A → S → Prop) s a s' :
  m s = Done (a, s') → Q a s' → wp m Q s.
Proof. unfold wp. by intros ->. Qed.

(** Run the first part of a sequence. *)
Lemma run_bind {A B} (m : prog S A) (k : A → prog S B) s a s' :
  m s = Done (a, s') → (m ≫= k) s = k a s'.
Proof. unfold mbind, prog_bind. by intros ->. Qed.

(** A postcondition that fixes result and state is an equation. *)
Lemma wp_eq {A} (m : prog S A) s a s' :
  wp m (λ x t, x = a ∧ t = s') s ↔ m s = Done (a, s').
Proof.
  unfold wp. destruct (m s) as [[x t]|]; split; try done.
  - by intros [-> ->].
  - by intros [= -> ->].
Qed.

Lemma wp_for_until {R} (I : Z → S → Prop) n i step
    (body : Z → prog S (option R)) Q s :
  I i s →
  (∀ k s, (0 ≤ k < Z.of_nat n) → I (i + k * step) s →
    wp (body (i + k * step)) (λ r s',
      match r with
      | None => I (i + (k + 1) * step) s'
      | Some x => Q (Some x) s'
      end) s) →
  (∀ s, I (i + Z.of_nat n * step) s → Q None s) →
  wp (for_until n i step body) Q s.
Proof.
  revert i s. induction n as [|n IH]; intros i s HI Hb Hend; simpl.
  { apply wp_ret, Hend. by replace (i + Z.of_nat 0 * step) with i by lia. }
  apply wp_bind. eapply wp_mono.
  - specialize (Hb 0 s). rewrite Z.mul_0_l, Z.add_0_r in Hb.
    apply Hb; [lia|done].
  - intros [x|] s' HQ; [by apply wp_ret|].
    apply IH.
    + by replace (i + step) with (i + (0 + 1) * step) by lia.
    + intros k t Hk Hit. replace (i + step + k * step)
        with (i + (k + 1) * step) in * by lia.
      replace (i + step + (k + 1) * step) with (i + (k + 1 + 1) * step) by lia.
      apply Hb; [lia|done].
    + intros t Ht. apply Hend.
      by replace (i + Z.of_nat (Datatypes.S n) * step)
        with (i + step + Z.of_nat n * step) by lia.
Qed.

(** The invariant is indexed by the part of the list already done. *)
Lemma wp_for_fold {A V} (I : list A → V → S → Prop) l v
    (body : V → A → prog S V) Q s :
  I [] v s →
  (∀ done a rest v s, l = done ++ a :: rest → I done v s →
    wp (body v a) (I (done ++ [a])) s) →
  (∀ v s, I l v s → Q v s) →
  wp (for_fold l v body) Q s.
Proof.
  intros H0 Hb Hend.
  assert (Hgen : ∀ rest done v s, l = done ++ rest → I done v s →
      wp (for_fold rest v body) Q s).
  { induction rest as [|a rest IH]; intros done v' s' Hl HI; simpl.
    - apply wp_ret, Hend. by rewrite Hl, app_nil_r.
    - apply wp_bind. eapply wp_mono; [by eapply Hb|].
      intros v'' s'' HI'. eapply IH; [|done]. by rewrite Hl, <-app_assoc. }
  by apply (Hgen l []).
Qed.

Lemma wp_for_each {A} (I : list A → S → Prop) l (body : A → prog S unit) Q s :
  I [] s →
  (∀ done a rest s, l = done ++ a :: rest → I done s →
    wp (body a) (λ _, I (done ++ [a])) s) →
  (∀ s, I l s → Q () s) →
  wp (for_each l body) Q s.
Proof.
  intros H0 Hb Hend.
  assert (Hgen : ∀ rest done s, l = done ++ rest → I done s →
      wp (for_each rest body) Q s).
  { induction rest as [|a rest IH]; intros done s' Hl HI; simpl.
    - apply wp_ret, Hend. by rewrite Hl, app_nil_r.
    - apply wp_bind. eapply wp_mono; [by eapply Hb|].
      intros [] s'' HI'. eapply IH; [|done]. by rewrite Hl, <-app_assoc. }
  by apply (Hgen l []).
Qed.
End wp.

Lemma wp_zoom {S T A} (proj : T → S) inj (m : prog S A) Q t :
  wp m (λ a s, Q a (inj s t)) (proj t) → wp (zoom proj inj m) Q t.
Proof. unfold wp, zoom. by destruct (m (proj t)) as [[]|]. Qed.

Create HintDb kwp discriminated.
#[export] Hint Resolve wp_ret wp_gets wp_get wp_modify : kwp.

(** One symbolic execution step. *)
Ltac wp_step :=
  lazymatch goal with
  | |- wp (mbind _ _) _ _ => apply wp_bind
  | |- wp (mret _) _ _ => apply wp_ret
  | |- wp (gets _) _ _ => apply wp_gets
  | |- wp get _ _ => apply wp_get
  | |- wp (modify _) _ _ => apply wp_modify
  | |- wp (if ?b then _ else _) _ _ => destruct b eqn:?
  | |- wp (match ?x with _ => _ end) _ _ => destruct x eqn:?
  end.
Ltac wp_steps := repeat (wp_step; cbn beta).
