(* ===== verification/Bits.v ===== *)
(** * Bit-level lemmas: truncation, alignment masks, bits of a byte. *)

From S2P Require Import Prelude.

Create HintDb cint discriminated.

Lemma u64_small z : 0 ≤ z < 2 ^ 64 → u64 z = z.
Proof. apply Z.mod_small. Qed.
Lemma u8_small z : 0 ≤ z < 2 ^ 8 → u8 z = z.
Proof. apply Z.mod_small. Qed.
Lemma u16_small z : 0 ≤ z < 2 ^ 16 → u16 z = z.
Proof. apply Z.mod_small. Qed.
Lemma u32_small z : 0 ≤ z < 2 ^ 32 → u32 z = z.
Proof. apply Z.mod_small. Qed.
Lemma u64_bound z : 0 ≤ u64 z < 2 ^ 64.
Proof. by apply Z.mod_pos_bound. Qed.
Lemma u8_bound z : 0 ≤ u8 z < 2 ^ 8.
Proof. by apply Z.mod_pos_bound. Qed.
Lemma u16_bound z : 0 ≤ u16 z < 2 ^ 16.
Proof. by apply Z.mod_pos_bound. Qed.
Lemma u32_bound z : 0 ≤ u32 z < 2 ^ 32.
Proof. by apply Z.mod_pos_bound. Qed.
#[export] Hint Resolve u64_bound u8_bound u16_bound u32_bound : cint.

(** Bits of a truncation. *)
Lemma u64_testbit z k : 0 ≤ k → Z.testbit (u64 z) k = Z.testbit z k && (k <? 64).
Proof.
  intros. unfold u64. destruct (Z.ltb_spec k 64).
  - by rewrite Z.mod_pow2_bits_low, andb_true_r.
  - by rewrite Z.mod_pow2_bits_high, andb_false_r by lia.
Qed.
Lemma u8_testbit z k : 0 ≤ k → Z.testbit (u8 z) k = Z.testbit z k && (k <? 8).
Proof.
  intros. unfold u8. destruct (Z.ltb_spec k 8).
  - by rewrite Z.mod_pow2_bits_low, andb_true_r.
  - by rewrite Z.mod_pow2_bits_high, andb_false_r by lia.
Qed.

(** Bits above the width of a bounded number are clear. *)
Lemma testbit_above w z k : 0 ≤ z < 2 ^ w → w ≤ k → 0 ≤ w → Z.testbit z k = false.
Proof.
  intros Hz Hk Hw. rewrite <-(Z.mod_small z (2 ^ w)) by done.
  by apply Z.mod_pow2_bits_high.
Qed.

Lemma land_bound w z m : 0 ≤ z < 2 ^ w → 0 ≤ w → 0 ≤ Z.land z m < 2 ^ w.
Proof.
  intros Hz Hw. split; [apply Z.land_nonneg; lia|].
  destruct (decide (Z.land z m = 0)) as [->|Hne]; [lia|].
  apply Z.log2_lt_pow2; [pose proof (Z.land_nonneg z m); lia|].
  apply Z.lt_nge. intros Hge.
  assert (Z.testbit (Z.land z m) (Z.log2 (Z.land z m)) = true) as Hb.
  { apply Z.bit_log2. pose proof (Z.land_nonneg z m); lia. }
  rewrite Z.land_spec, (testbit_above w z) in Hb by done. done.
Qed.

Lemma lor_bound w a b :
  0 ≤ a < 2 ^ w → 0 ≤ b < 2 ^ w → 0 ≤ w → 0 ≤ Z.lor a b < 2 ^ w.
Proof.
  intros Ha Hb Hw. split; [apply Z.lor_nonneg; lia|].
  destruct (decide (Z.lor a b = 0)) as [->|Hne]; [lia|].
  assert (0 ≤ Z.lor a b) by (apply Z.lor_nonneg; lia).
  apply Z.log2_lt_pow2; [lia|]. apply Z.lt_nge. intros Hge.
  assert (Z.testbit (Z.lor a b) (Z.log2 (Z.lor a b)) = true) as Hbit
    by (apply Z.bit_log2; lia).
  by rewrite Z.lor_spec, !(testbit_above w) in Hbit.
Qed.

(** ** Alignment masks: [v & ~(2^k - 1)] *)

Lemma land_align_mask v k :
  0 ≤ v < 2 ^ 64 → 0 ≤ k ≤ 64 →
  v &! ~! (2 ^ k - 1) = v / 2 ^ k * 2 ^ k.
Proof.
  intros Hv Hk. replace (2 ^ k - 1) with (Z.ones k)
    by (rewrite Z.ones_equiv; lia).
  rewrite <-Z.shiftr_div_pow2, <-Z.shiftl_mul_pow2 by lia.
  apply Z.bits_inj'. intros i Hi.
  rewrite Z.land_spec, u64_testbit, Z.lnot_spec, Z.shiftl_spec by done.
  destruct (Z.ltb_spec i k).
  - rewrite Z.ones_spec_low by lia. rewrite (Z.testbit_neg_r _ (i - k)) by lia.
    by rewrite andb_false_r.
  - rewrite Z.ones_spec_high by lia. rewrite Z.shiftr_spec by lia.
    replace (i - k + k) with i by lia. destruct (Z.ltb_spec i 64); simpl.
    + by rewrite andb_true_r.
    + by rewrite (testbit_above 64 v).
Qed.

Lemma land_low_mask v k : 0 ≤ k → v &! (2 ^ k - 1) = v `mod` 2 ^ k.
Proof.
  intros. rewrite <-Z.land_ones by done. f_equal. rewrite Z.ones_equiv. lia.
Qed.

(** Two numbers without a common bit. *)
Lemma lor_disjoint a b k : 0 ≤ k → 0 ≤ b < 2 ^ k → Z.lor (a * 2 ^ k) b = a * 2 ^ k + b.
Proof.
  intros Hk Hb. assert (Hland : Z.land (a * 2 ^ k) b = 0).
  { apply Z.bits_inj'. intros n Hn. rewrite Z.land_spec, Z.bits_0, <-Z.shiftl_mul_pow2 by done.
    destruct (Z.ltb_spec n k).
    - by rewrite Z.shiftl_spec_low.
    - by rewrite (testbit_above k b n), andb_false_r. }
  by rewrite <-Z.lxor_lor, <-Z.add_nocarry_lxor.
Qed.

(** ** One bit of a byte *)

Lemma bit_mask_u8 k : 0 ≤ k < 8 → u8 (Z.shiftl 1 k) = Z.shiftl 1 k.
Proof.
  intros. rewrite Z.shiftl_1_l. apply u8_small. split; [lia|].
  apply Z.pow_lt_mono_r; lia.
Qed.

Lemma land_bit_nonzero b k : 0 ≤ k →
  bool_decide (Z.land b (Z.shiftl 1 k) ≠ 0) = Z.testbit b k.
Proof.
  intros Hk. rewrite Z.shiftl_1_l. destruct (Z.testbit b k) eqn:E.
  - apply bool_decide_eq_true. intros Hz.
    assert (Z.testbit (Z.land b (2 ^ k)) k = false) as Hf
      by (by rewrite Hz, Z.bits_0).
    by rewrite Z.land_spec, E, Z.pow2_bits_true in Hf.
  - apply bool_decide_eq_false. intros Hn. apply Hn. apply Z.bits_inj'.
    intros i Hi. rewrite Z.land_spec, Z.bits_0, Z.pow2_bits_eqb by done.
    destruct (Z.eqb_spec k i) as [->|]; [by rewrite E|by rewrite andb_false_r].
Qed.

Lemma byte_set_testbit b k j : 0 ≤ k → 0 ≤ j →
  Z.testbit (Z.lor b (Z.shiftl 1 k)) j = (k =? j) || Z.testbit b j.
Proof.
  intros. rewrite Z.shiftl_1_l, Z.lor_spec, Z.pow2_bits_eqb by done.
  apply orb_comm.
Qed.

Lemma byte_clear_testbit b k j : 0 ≤ k < 8 → 0 ≤ j < 8 →
  Z.testbit (Z.land b (u8 (Z.lnot (Z.shiftl 1 k)))) j =
    negb (k =? j) && Z.testbit b j.
Proof.
  intros. rewrite Z.land_spec, u8_testbit, Z.lnot_spec, Z.shiftl_1_l by lia.
  rewrite Z.pow2_bits_eqb by lia. replace (j <? 8) with true by lia.
  rewrite andb_true_r. apply andb_comm.
Qed.
