(* ===== verification/Ram.v ===== *)
(** * Physical memory.

    RAM is addressed through the higher-half direct map: the C expression
    [phys_to_virt(p)] is [hhdm_base + p], so a pointer obtained from it is
    identified with the physical address [p].  Memory is kept as 64-bit
    little-endian words indexed by [p / 8]; byte accesses go through the word
    that contains them. *)

From S2P Require Import Prelude Bits.

Definition PAGE_SIZE : Z := 4096.

(** RAM: word index to 64-bit word; an absent word reads as [0]. *)
Abbreviation ram := (gmap Z Z).

Definition rd64 (r : ram) (p : Z) : Z := default 0 (r !! (p / 8)).
Definition wr64 (p v : Z) (r : ram) : ram := <[p / 8 := v]> r.

(** The byte at [p], and the word at [p / 8] with that byte replaced. *)
Definition rd8 (r : ram) (p : Z) : Z :=
  (rd64 r p >>! 8 * (p `mod` 8)) &! 255.
Definition put_byte (w k v : Z) : Z :=
  Z.lor (Z.ldiff w (Z.shiftl 255 (8 * k))) (Z.shiftl (u8 v) (8 * k)).
Definition wr8 (p v : Z) (r : ram) : ram :=
  wr64 p (put_byte (rd64 r p) (p `mod` 8) v) r.

(** [memset(p, 0, PAGE_SIZE)] for a page-aligned [p]. *)
Definition page_words (p : Z) : list Z := (λ i, p + 8 * i) <$> seqZ 0 512.
Definition zero_page (p : Z) (r : ram) : ram :=
  foldr (λ a r, wr64 a 0 r) r (page_words p).
(** [memcpy(dst, src, PAGE_SIZE)] for distinct page-aligned addresses. *)
Definition copy_page (dst src : Z) (r : ram) : ram :=
  foldr (λ i r', wr64 (dst + 8 * i) (rd64 r (src + 8 * i)) r') r (seqZ 0 512).

(** [memcpy] from RAM into a kernel buffer and back, byte by byte. *)
Definition rd_bytes (r : ram) (p n : Z) : list Z :=
  (λ i, rd8 r (p + i)) <$> seqZ 0 n.
Fixpoint wr_bytes (p : Z) (bs : list Z) (r : ram) : ram :=
  match bs with
  | [] => r
  | b :: bs => wr_bytes (p + 1) bs (wr8 p b r)
  end.

#[global] Arguments rd64 : simpl never.
#[global] Arguments wr64 : simpl never.
#[global] Arguments zero_page : simpl never.
#[global] Arguments copy_page : simpl never.

(** ** Words *)

Lemma rd64_wr64_same r p v : rd64 (wr64 p v r) p = v.
Proof. unfold rd64, wr64. by rewrite lookup_insert_eq. Qed.

Lemma rd64_wr64_other r p q v : p / 8 ≠ q / 8 → rd64 (wr64 p v r) q = rd64 r q.
Proof. intros. unfold rd64, wr64. by rewrite lookup_insert_ne. Qed.

Lemma rd64_wr64 r p q v :
  rd64 (wr64 p v r) q = if decide (p / 8 = q / 8) then v else rd64 r q.
Proof.
  unfold rd64, wr64. rewrite lookup_insert. by destruct (decide _).
Qed.

Definition word_aligned (p : Z) : Prop := p `mod` 8 = 0.
Definition page_ok (p : Z) : Prop := p `mod` PAGE_SIZE = 0.

Lemma word_div_inj p q : word_aligned p → word_aligned q → p / 8 = q / 8 → p = q.
Proof.
  unfold word_aligned. intros.
  rewrite (Z.div_mod p 8), (Z.div_mod q 8) by done. lia.
Qed.

(** A word address lies in exactly one page. *)
Lemma page_word_div p i : page_ok p → 0 ≤ i < 512 → (p + 8 * i) / 8 = p / 8 + i.
Proof.
  intros _ _. rewrite Z.add_comm, Z.mul_comm, Z.div_add_l by done. lia.
Qed.

Lemma page_disjoint_words p q i j :
  page_ok p → page_ok q → 0 ≤ i < 512 → 0 ≤ j < 512 →
  (p + 8 * i) / 8 = (q + 8 * j) / 8 → p = q ∧ i = j.
Proof.
  intros Hp Hq Hi Hj. rewrite !page_word_div by done.
  unfold page_ok, PAGE_SIZE in *.
  rewrite (Z.div_mod p 4096), (Z.div_mod q 4096), Hp, Hq by done.
  replace ((4096 * (p / 4096) + 0) / 8) with (512 * (p / 4096))
    by (replace (4096 * (p / 4096) + 0) with (512 * (p / 4096) * 8) by lia;
        by rewrite Z.div_mul).
  replace ((4096 * (q / 4096) + 0) / 8) with (512 * (q / 4096))
    by (replace (4096 * (q / 4096) + 0) with (512 * (q / 4096) * 8) by lia;
        by rewrite Z.div_mul).
  lia.
Qed.

(** ** Pages *)

Lemma rd64_foldr_wr (l : list Z) (f g : Z → Z) r q :
  rd64 (foldr (λ i r', wr64 (f i) (g i) r') r l) q =
    match list_find (λ i, f i / 8 = q / 8) l with
    | Some (_, i) => g i
    | None => rd64 r q
    end.
Proof.
  induction l as [|i l IH]; [done|]. cbn [foldr list_find].
  rewrite rd64_wr64, IH. destruct (decide (f i / 8 = q / 8)); [done|].
  by destruct (list_find _ l) as [[]|].
Qed.

Lemma rd64_zero_page_in p r i :
  page_ok p → 0 ≤ i < 512 → rd64 (zero_page p r) (p + 8 * i) = 0.
Proof.
  intros Hp Hi. unfold zero_page, page_words.
  rewrite foldr_fmap, (rd64_foldr_wr _ (λ i, p + 8 * i) (λ _, 0)).
  destruct (list_find _ _) as [[]|] eqn:E; [done|].
  apply list_find_None in E. rewrite Forall_forall in E.
  exfalso. apply (E i); [apply elem_of_seqZ; lia|done].
Qed.

Lemma rd64_zero_page_out p r q :
  page_ok p → (∀ i, 0 ≤ i < 512 → (p + 8 * i) / 8 ≠ q / 8) →
  rd64 (zero_page p r) q = rd64 r q.
Proof.
  intros Hp Hq. unfold zero_page, page_words.
  rewrite foldr_fmap, (rd64_foldr_wr _ (λ i, p + 8 * i) (λ _, 0)).
  destruct (list_find _ _) as [[j x]|] eqn:E; [|done].
  apply list_find_Some in E as (Hx%list_elem_of_lookup_2&Hd&_).
  apply elem_of_seqZ in Hx. exfalso. by apply (Hq x); [lia|].
Qed.

Lemma rd64_zero_page_page p q r j :
  page_ok p → page_ok q → 0 ≤ j < 512 →
  rd64 (zero_page p r) (q + 8 * j) =
    if decide (p = q) then 0 else rd64 r (q + 8 * j).
Proof.
  intros Hp Hq Hj. destruct (decide (p = q)) as [->|Hne].
  - by apply rd64_zero_page_in.
  - apply rd64_zero_page_out; [done|]. intros i Hi Heq.
    by destruct (page_disjoint_words p q i j).
Qed.

Lemma rd64_copy_page dst src q r j :
  page_ok dst → page_ok q → 0 ≤ j < 512 →
  rd64 (copy_page dst src r) (q + 8 * j) =
    if decide (dst = q) then rd64 r (src + 8 * j) else rd64 r (q + 8 * j).
Proof.
  intros Hd Hq Hj. unfold copy_page.
  rewrite (rd64_foldr_wr _ (λ i, dst + 8 * i) (λ i, rd64 r (src + 8 * i))).
  destruct (list_find _ _) as [[k x]|] eqn:E.
  - apply list_find_Some in E as (Hx%list_elem_of_lookup_2&Hdiv&_).
    apply elem_of_seqZ in Hx.
    apply (page_disjoint_words dst q x j) in Hdiv as [-> ->]; [|done..|lia|done].
    by rewrite decide_True.
  - apply list_find_None in E. rewrite Forall_forall in E.
    destruct (decide (dst = q)) as [->|]; [|done].
    exfalso. apply (E j); [apply elem_of_seqZ; lia|done].
Qed.

(** Clearing a page twice is clearing it once. *)
Lemma lookup_zero_page p r k :
  zero_page p r !! k =
    if decide (k ∈ (λ a, a / 8) <$> page_words p) then Some 0 else r !! k.
Proof.
  unfold zero_page. induction (page_words p) as [|a l IH]; [done|].
  cbn [foldr fmap list_fmap]. unfold wr64 at 1. rewrite lookup_insert, IH.
  destruct (decide (a / 8 = k)) as [->|].
  - by rewrite decide_True by by left.
  - apply decide_ext. rewrite elem_of_cons. naive_solver.
Qed.

Lemma zero_page_idem p r : zero_page p (zero_page p r) = zero_page p r.
Proof. apply map_eq. intros k. rewrite !lookup_zero_page. by destruct (decide _). Qed.

(** ** Bytes *)

Lemma put_byte_bit w k v i : 0 ≤ k → 0 ≤ i →
  Z.testbit (put_byte w k v) i =
    if decide (8 * k ≤ i < 8 * k + 8) then Z.testbit v (i - 8 * k) else Z.testbit w i.
Proof.
  intros Hk Hi. unfold put_byte.
  rewrite Z.lor_spec, Z.ldiff_spec, !Z.shiftl_spec by lia.
  change 255 with (Z.ones 8). destruct (decide _) as [Hin|Hout].
  - rewrite Z.ones_spec_low, u8_testbit by lia. rewrite andb_false_r. simpl.
    by rewrite (proj2 (Z.ltb_lt (i - 8 * k) 8)), andb_true_r by lia.
  - destruct (decide (i < 8 * k)).
    + by rewrite !(Z.testbit_neg_r _ (i - 8 * k)), andb_true_r, orb_false_r by lia.
    + rewrite Z.ones_spec_high, u8_testbit by lia.
      by rewrite (proj2 (Z.ltb_ge (i - 8 * k) 8)), andb_false_r, andb_true_r, orb_false_r by lia.
Qed.

Definition byte_of (w k : Z) : Z := (w >>! 8 * k) &! 255.

Lemma byte_of_bit w k i : 0 ≤ k → 0 ≤ i →
  Z.testbit (byte_of w k) i = Z.testbit w (i + 8 * k) && (i <? 8).
Proof.
  intros. unfold byte_of. change 255 with (Z.ones 8).
  rewrite Z.land_spec, Z.shiftr_spec, Z.testbit_ones by lia.
  by rewrite (proj2 (Z.leb_le 0 i)) by done.
Qed.

Lemma byte_of_put w k v j : 0 ≤ k → 0 ≤ j →
  byte_of (put_byte w k v) j = if decide (k = j) then u8 v else byte_of w j.
Proof.
  intros Hk Hj. apply Z.bits_inj'. intros i Hi.
  rewrite byte_of_bit, put_byte_bit by lia. destruct (Z.ltb_spec i 8).
  - rewrite andb_true_r. destruct (decide (k = j)) as [->|].
    + rewrite decide_True by lia. rewrite u8_testbit by done.
      rewrite (proj2 (Z.ltb_lt i 8)), andb_true_r by done. f_equal. lia.
    + rewrite decide_False by lia. rewrite byte_of_bit by done.
      by rewrite (proj2 (Z.ltb_lt i 8)), andb_true_r.
  - rewrite andb_false_r. destruct (decide (k = j)).
    + rewrite u8_testbit, (proj2 (Z.ltb_ge i 8)), andb_false_r by done. done.
    + rewrite byte_of_bit, (proj2 (Z.ltb_ge i 8)), andb_false_r by done. done.
Qed.

Lemma rd8_wr8 p v r q :
  rd8 (wr8 p v r) q = if decide (p = q) then u8 v else rd8 r q.
Proof.
  unfold rd8, wr8. fold (byte_of (rd64 r q) (q `mod` 8)).
  pose proof (Z.mod_pos_bound p 8 ltac:(lia)). pose proof (Z.mod_pos_bound q 8 ltac:(lia)).
  rewrite rd64_wr64. destruct (decide (p / 8 = q / 8)) as [He|Hne].
  - fold (byte_of (put_byte (rd64 r p) (p `mod` 8) v) (q `mod` 8)).
    rewrite byte_of_put by lia. unfold rd64 at 1. rewrite He. fold (rd64 r q).
    apply decide_ext. split; [|by intros ->]. intros Hm.
    by rewrite (Z.div_mod p 8), (Z.div_mod q 8), He, Hm.
  - rewrite decide_False; [done|]. by intros ->.
Qed.

Lemma rd8_wr_bytes bs : ∀ p r q,
  rd8 (wr_bytes p bs r) q =
    if decide (p ≤ q < p + Z.of_nat (length bs))
    then u8 (bs !!! Z.to_nat (q - p)) else rd8 r q.
Proof.
  induction bs as [|b bs IH]; intros p r q; simpl.
  { by rewrite decide_False by lia. }
  rewrite IH, rd8_wr8. destruct (decide (p = q)) as [->|].
  - rewrite decide_False, decide_True by lia. by rewrite Z.sub_diag.
  - destruct (decide (p + 1 ≤ q < _)).
    + rewrite decide_True by lia.
      by replace (Z.to_nat (q - p)) with (S (Z.to_nat (q - (p + 1)))) by lia.
    + by rewrite decide_False by lia.
Qed.

(** Byte writes inside one page leave the words of the other pages alone. *)
Lemma rd64_wr_bytes_page bs : ∀ f o r q j,
  page_ok f → page_ok q → f ≠ q → 0 ≤ o → o + Z.of_nat (length bs) ≤ PAGE_SIZE →
  0 ≤ j < 512 →
  rd64 (wr_bytes (f + o) bs r) (q + 8 * j) = rd64 r (q + 8 * j).
Proof.
  induction bs as [|b bs IH]; intros f o r q j Hf Hq Hne Ho Hl Hj; simpl; [done|].
  simpl in Hl. replace (f + o + 1) with (f + (o + 1)) by lia.
  rewrite IH by (done || lia). unfold wr8. rewrite rd64_wr64, decide_False; [done|].
  intros He. unfold PAGE_SIZE in *.
  assert (Hw : (f + o) / 8 = (f + 8 * (o / 8)) / 8).
  { rewrite page_word_div by (done || (split; [by apply Z.div_pos; lia|apply Z.div_lt_upper_bound; lia])).
    unfold page_ok, PAGE_SIZE in Hf.
    replace f with (f / 8 * 8) at 1.
    - rewrite Z.div_add_l by done. done.
    - rewrite (Z.div_mod f 4096), Hf by done.
      replace (4096 * (f / 4096) + 0) with (512 * (f / 4096) * 8) by lia.
      by rewrite Z.div_mul. }
  rewrite Hw in He. apply page_disjoint_words in He as [? _]; [done|done|done| |done].
  split; [by apply Z.div_pos; lia|apply Z.div_lt_upper_bound; lia].
Qed.
