(* ===== verification/Pmm.v ===== *)
(** * Physical page allocator (src/kernel/mm/pmm.c).

    The static variables of pmm.c are the record [pmm]; the two bitmaps and
    the reference counts are the byte and [uint16_t] arrays the code indexes,
    and an index outside an array is [Undefined].  [phys_ram] is the memory
    that [pmm_alloc_page] zeroes. *)

From S2P Require Import Prelude Bits Ram.

Definition PMM_PAGE_SIZE : Z := 4096.
Definition BITS_PER_BYTE : Z := 8.
Definition PMM_MIN_MANAGED_PHYS : Z := 0.
Definition TRAMPOLINE_POOL_SIZE : Z := 16.

(** ** Boot information (src/kernel/include/arch/x86_64/limine.h) *)

Inductive memmap_type :=
| LIMINE_MEMMAP_USABLE
| LIMINE_MEMMAP_RESERVED
| LIMINE_MEMMAP_ACPI_RECLAIMABLE
| LIMINE_MEMMAP_ACPI_NVS
| LIMINE_MEMMAP_BAD_MEMORY
| LIMINE_MEMMAP_BOOTLOADER_RECLAIMABLE
| LIMINE_MEMMAP_KERNEL_AND_MODULES
| LIMINE_MEMMAP_FRAMEBUFFER.
#[export] Instance memmap_type_eq_dec : EqDecision memmap_type.
Proof. solve_decision. Defined.

Record memmap_entry := MemmapEntry {
  me_base : Z;
  me_length : Z;
  me_type : memmap_type;
}.

(** What the linker script and the boot loader provide: the kernel image
    bounds and the two request responses ([None] is a null response). *)
Record boot_info := BootInfo {
  kernel_phys_start : Z;
  kernel_phys_end : Z;
  memmap_response : option (list memmap_entry);
  hhdm_response : option Z;
}.

(** ** State *)

Record pmm := Pmm {
  page_bitmap : list Z;
  managed_bitmap : list Z;
  page_ref_counts : list Z;
  bitmap_bytes : Z;
  bitmap_storage_bytes : Z;
  total_pages : Z;
  usable_pages : Z;
  free_pages : Z;
  bitmap_phys : Z;
  initialized : bool;
  ap_trampoline_pool : list Z;
  ap_trampoline_pool_top : Z;
  ap_trampoline_pool_cur : Z;
  phys_ram : ram;
}.

Definition with_page_bitmap (b : list Z) (s : pmm) : pmm :=
  Pmm b (managed_bitmap s) (page_ref_counts s) (bitmap_bytes s)
    (bitmap_storage_bytes s) (total_pages s) (usable_pages s) (free_pages s)
    (bitmap_phys s) (initialized s) (ap_trampoline_pool s)
    (ap_trampoline_pool_top s) (ap_trampoline_pool_cur s) (phys_ram s).
Definition with_managed_bitmap (b : list Z) (s : pmm) : pmm :=
  Pmm (page_bitmap s) b (page_ref_counts s) (bitmap_bytes s)
    (bitmap_storage_bytes s) (total_pages s) (usable_pages s) (free_pages s)
    (bitmap_phys s) (initialized s) (ap_trampoline_pool s)
    (ap_trampoline_pool_top s) (ap_trampoline_pool_cur s) (phys_ram s).
Definition with_ref_counts (r : list Z) (s : pmm) : pmm :=
  Pmm (page_bitmap s) (managed_bitmap s) r (bitmap_bytes s)
    (bitmap_storage_bytes s) (total_pages s) (usable_pages s) (free_pages s)
    (bitmap_phys s) (initialized s) (ap_trampoline_pool s)
    (ap_trampoline_pool_top s) (ap_trampoline_pool_cur s) (phys_ram s).
Definition with_usable_pages (n : Z) (s : pmm) : pmm :=
  Pmm (page_bitmap s) (managed_bitmap s) (page_ref_counts s) (bitmap_bytes s)
    (bitmap_storage_bytes s) (total_pages s) n (free_pages s)
    (bitmap_phys s) (initialized s) (ap_trampoline_pool s)
    (ap_trampoline_pool_top s) (ap_trampoline_pool_cur s) (phys_ram s).
Definition with_free_pages (n : Z) (s : pmm) : pmm :=
  Pmm (page_bitmap s) (managed_bitmap s) (page_ref_counts s) (bitmap_bytes s)
    (bitmap_storage_bytes s) (total_pages s) (usable_pages s) n
    (bitmap_phys s) (initialized s) (ap_trampoline_pool s)
    (ap_trampoline_pool_top s) (ap_trampoline_pool_cur s) (phys_ram s).
Definition with_initialized (b : bool) (s : pmm) : pmm :=
  Pmm (page_bitmap s) (managed_bitmap s) (page_ref_counts s) (bitmap_bytes s)
    (bitmap_storage_bytes s) (total_pages s) (usable_pages s) (free_pages s)
    (bitmap_phys s) b (ap_trampoline_pool s)
    (ap_trampoline_pool_top s) (ap_trampoline_pool_cur s) (phys_ram s).
Definition with_pool (p : list Z) (top cur : Z) (s : pmm) : pmm :=
  Pmm (page_bitmap s) (managed_bitmap s) (page_ref_counts s) (bitmap_bytes s)
    (bitmap_storage_bytes s) (total_pages s) (usable_pages s) (free_pages s)
    (bitmap_phys s) (initialized s) p top cur (phys_ram s).
Definition with_ram (r : ram) (s : pmm) : pmm :=
  Pmm (page_bitmap s) (managed_bitmap s) (page_ref_counts s) (bitmap_bytes s)
    (bitmap_storage_bytes s) (total_pages s) (usable_pages s) (free_pages s)
    (bitmap_phys s) (initialized s) (ap_trampoline_pool s)
    (ap_trampoline_pool_top s) (ap_trampoline_pool_cur s) r.

(** ** Address arithmetic and bitmaps *)

Definition align_up (value alignment : Z) : Z :=
  (value +! alignment -! 1) &! ~! (alignment - 1).
Definition align_down (value alignment : Z) : Z :=
  value &! ~! (alignment - 1).
Definition page_index (page : Z) : Z := page / PMM_PAGE_SIZE.
Definition page_addr (index : Z) : Z := index *! PMM_PAGE_SIZE.

Definition bitmap_set (bitmap : list Z) (index : Z) : option (list Z) :=
  let k := Z.to_nat (index / BITS_PER_BYTE) in
  b ← bitmap !! k;
  Some (<[k := b |! u8 (Z.shiftl 1 (index `mod` BITS_PER_BYTE))]> bitmap).
Definition bitmap_clear (bitmap : list Z) (index : Z) : option (list Z) :=
  let k := Z.to_nat (index / BITS_PER_BYTE) in
  b ← bitmap !! k;
  Some (<[k := b &! u8 (Z.lnot (Z.shiftl 1 (index `mod` BITS_PER_BYTE)))]> bitmap).
Definition bitmap_test (bitmap : list Z) (index : Z) : option bool :=
  b ← bitmap !! Z.to_nat (index / BITS_PER_BYTE);
  Some (bool_decide (b &! u8 (Z.shiftl 1 (index `mod` BITS_PER_BYTE)) ≠ 0)).

(** The same on the two bitmaps of the state. *)
Definition page_bitmap_set (i : Z) : prog pmm unit :=
  s ← get; b ← deref (bitmap_set (page_bitmap s) i); modify (with_page_bitmap b).
Definition page_bitmap_clear (i : Z) : prog pmm unit :=
  s ← get; b ← deref (bitmap_clear (page_bitmap s) i); modify (with_page_bitmap b).
Definition page_bitmap_test (i : Z) : prog pmm bool :=
  s ← get; deref (bitmap_test (page_bitmap s) i).
Definition managed_bitmap_set (i : Z) : prog pmm unit :=
  s ← get; b ← deref (bitmap_set (managed_bitmap s) i); modify (with_managed_bitmap b).
Definition managed_bitmap_clear (i : Z) : prog pmm unit :=
  s ← get; b ← deref (bitmap_clear (managed_bitmap s) i); modify (with_managed_bitmap b).
Definition managed_bitmap_test (i : Z) : prog pmm bool :=
  s ← get; deref (bitmap_test (managed_bitmap s) i).
Definition ref_count_get (i : Z) : prog pmm Z :=
  s ← get; deref (page_ref_counts s !! Z.to_nat i).
Definition ref_count_put (i v : Z) : prog pmm unit :=
  s ← get; _ ← deref (page_ref_counts s !! Z.to_nat i);
  modify (with_ref_counts (<[Z.to_nat i := v]> (page_ref_counts s))).
Definition add_free_pages (d : Z) : prog pmm unit :=
  modify (λ s, with_free_pages (free_pages s +! d) s).

Definition range_is_valid (s : pmm) (base count : Z) : bool :=
  if bool_decide (base `mod` PMM_PAGE_SIZE ≠ 0) || (count =? 0) then false
  else let start := page_index base in
       (start <? total_pages s) && (count <=? total_pages s - start).

Definition mark_page_free (index : Z) : prog pmm unit :=
  s ← get;
  if total_pages s <=? index then mret () else
  used ← page_bitmap_test index;
  if negb used then mret () else
  managed_bitmap_set index;;
  page_bitmap_clear index;;
  add_free_pages 1.

Definition mark_page_reserved (index : Z) : prog pmm unit :=
  s ← get;
  if total_pages s <=? index then mret () else
  used ← page_bitmap_test index;
  when (negb used) (add_free_pages (-1));;
  managed_bitmap_clear index;;
  page_bitmap_set index.

(** Number of iterations of [for (a = start; a < end; a += PMM_PAGE_SIZE)]. *)
Definition page_steps (start end_ : Z) : nat :=
  Z.to_nat ((end_ - start + PMM_PAGE_SIZE - 1) / PMM_PAGE_SIZE).
(** The addresses it visits. *)
Definition page_range (start end_ : Z) : list Z :=
  (λ k, start + PMM_PAGE_SIZE * k) <$> seqZ 0 (Z.of_nat (page_steps start end_)).

Definition reserve_range (base length : Z) : prog pmm unit :=
  let start := align_down base PMM_PAGE_SIZE in
  let end_ := align_up (base +! length) PMM_PAGE_SIZE in
  for_each (page_range start end_) (λ addr, mark_page_reserved (page_index addr)).

Definition is_usable (e : memmap_entry) : bool :=
  bool_decide (me_type e = LIMINE_MEMMAP_USABLE).

Definition find_max_usable_physical_address (memmap : list memmap_entry) : Z :=
  foldl (λ max_addr entry,
    if negb (is_usable entry) then max_addr else
    let end_ := me_base entry +! me_length entry in
    if max_addr <? end_ then end_ else max_addr) 0 memmap.

Fixpoint find_bitmap_storage (b : boot_info) (needed : Z)
    (memmap : list memmap_entry) : option Z :=
  match memmap with
  | [] => None
  | entry :: rest =>
      if negb (is_usable entry) then find_bitmap_storage b needed rest else
      let start := align_up (me_base entry) PMM_PAGE_SIZE in
      let end_ := align_down (me_base entry +! me_length entry) PMM_PAGE_SIZE in
      let start := if start <? PMM_MIN_MANAGED_PHYS then PMM_MIN_MANAGED_PHYS else start in
      let start := if (start <? kernel_phys_end b) && (kernel_phys_start b <? end_)
                   then align_up (kernel_phys_end b) PMM_PAGE_SIZE else start in
      if (start <? end_) && (needed <=? end_ - start) then Some start
      else find_bitmap_storage b needed rest
  end.

(** The byte range [start, end) of an entry that [release_usable_ranges] and
    the trampoline reservation walk. *)
Definition entry_start (e : memmap_entry) : Z :=
  let start := align_up (me_base e) PMM_PAGE_SIZE in
  if start <? PMM_MIN_MANAGED_PHYS then PMM_MIN_MANAGED_PHYS else start.
Definition entry_end (e : memmap_entry) : Z :=
  align_down (me_base e +! me_length e) PMM_PAGE_SIZE.

Definition release_usable_ranges (memmap : list memmap_entry) : prog pmm unit :=
  for_each memmap (λ entry,
    if negb (is_usable entry) then mret () else
    for_each (page_range (entry_start entry) (entry_end entry)) (λ addr,
      mark_page_free (page_index addr);;
      modify (λ s, with_usable_pages (usable_pages s +! 1) s))).

(** src/kernel/arch/x86_64/smp.c *)
Definition MAX_CPUS : Z := 64.
Definition smp_max_trampoline_pages : Z :=
  let n := 4 in if MAX_CPUS - 1 <? n then MAX_CPUS - 1 else n.

(** ** Trampoline pool *)

Definition pool_push (a : Z) : prog pmm unit :=
  s ← get;
  _ ← deref (ap_trampoline_pool s !! Z.to_nat (ap_trampoline_pool_top s));
  modify (λ s, with_pool
    (<[Z.to_nat (ap_trampoline_pool_top s) := a]> (ap_trampoline_pool s))
    (ap_trampoline_pool_top s + 1) (ap_trampoline_pool_cur s) s).

(** The body of the inner loop; [Some ()] leaves that loop. *)
Definition reserve_trampoline_at (count a : Z) : prog pmm (option unit) :=
  s ← get;
  if count <=? ap_trampoline_pool_top s then mret (Some ()) else
  let idx := a / PMM_PAGE_SIZE in
  if total_pages s <=? idx then mret (Some ()) else
  used ← page_bitmap_test idx;
  if used : bool then mret None else
  page_bitmap_set idx;;
  managed_bitmap_set idx;;
  ref_count_put idx 1;;
  pool_push a;;
  mret None.

Definition reserve_trampoline_entry (count : Z) (e : memmap_entry) : prog pmm unit :=
  s ← get;
  if count <=? ap_trampoline_pool_top s then mret () else
  if negb (is_usable e) then mret () else
  let base := align_up (me_base e) PMM_PAGE_SIZE in
  let end_ := align_down (me_base e +! me_length e) PMM_PAGE_SIZE in
  let end_ := if 0x100000 <? end_ then 0x100000 else end_ in
  if end_ <=? base then mret () else
  _ ← for_until (page_steps base end_) base PMM_PAGE_SIZE
        (reserve_trampoline_at count);
  mret ().

Definition pmm_reserve_trampoline_pages (b : boot_info) (count : Z) : prog pmm unit :=
  modify (λ s, with_pool (ap_trampoline_pool s) 0 0 s);;
  let count := if TRAMPOLINE_POOL_SIZE <? count then TRAMPOLINE_POOL_SIZE else count in
  match memmap_response b with
  | None => mret ()
  | Some mm => for_each mm (reserve_trampoline_entry count)
  end.

Definition pmm_alloc_trampoline_page (max_addr : Z) : prog pmm Z :=
  s ← get;
  if ap_trampoline_pool_top s <=? ap_trampoline_pool_cur s then mret 0 else
  p ← deref (ap_trampoline_pool s !! Z.to_nat (ap_trampoline_pool_cur s));
  modify (λ s, with_pool (ap_trampoline_pool s) (ap_trampoline_pool_top s)
                 (ap_trampoline_pool_cur s + 1) s);;
  mret p.

(** ** Initialisation *)

(** The two [memset]s: both bitmaps to [0xFF], the counts to [0]. *)
Definition pmm_reset (total bytes storage phys : Z) (s : pmm) : pmm :=
  Pmm (replicate (Z.to_nat bytes) 255) (replicate (Z.to_nat bytes) 255)
    (replicate (Z.to_nat total) 0) bytes storage total 0 0 phys
    (initialized s) (ap_trampoline_pool s) (ap_trampoline_pool_top s)
    (ap_trampoline_pool_cur s) (phys_ram s).

Definition pmm_init (b : boot_info) (memmap : option (list memmap_entry))
    (hhdm_offset : Z) : prog pmm unit :=
  match memmap with
  | None => panic "PMM: missing memory map"
  | Some mm =>
      if hhdm_offset =? 0 then panic "PMM: missing HHDM offset" else
      let total := align_up (find_max_usable_physical_address mm) PMM_PAGE_SIZE
                     / PMM_PAGE_SIZE in
      let bytes := align_up total BITS_PER_BYTE / BITS_PER_BYTE in
      let ref_counts_bytes := total *! 2 in
      let storage := (bytes *! 2) +! ref_counts_bytes in
      match find_bitmap_storage b (align_up storage PMM_PAGE_SIZE) mm with
      | None => panic "PMM: no usable range can hold bitmap"
      | Some phys =>
          modify (pmm_reset total bytes storage phys);;
          release_usable_ranges mm;;
          reserve_range 0 PMM_PAGE_SIZE;;
          reserve_range phys (align_up storage PMM_PAGE_SIZE);;
          reserve_range (kernel_phys_start b)
            (kernel_phys_end b -! kernel_phys_start b);;
          pmm_reserve_trampoline_pages b (u32 smp_max_trampoline_pages);;
          modify (with_initialized true)
      end
  end.

(** ** Allocation *)

(** [memset(pm_phys_to_virt(pa), 0, PMM_PAGE_SIZE)] *)
Definition zero_phys_page (b : boot_info) (pa : Z) : prog pmm unit :=
  match hhdm_response b with
  | None => undef
  | Some _ => modify (λ s, with_ram (zero_page pa (phys_ram s)) s)
  end.

(** [bitmap_test(managed_bitmap, i) && !bitmap_test(page_bitmap, i)] *)
Definition page_available (i : Z) : prog pmm bool :=
  m ← managed_bitmap_test i;
  if m : bool then (u ← page_bitmap_test i; mret (negb u)) else mret false.

Definition take_page (i : Z) : prog pmm unit :=
  page_bitmap_set i;;
  add_free_pages (-1);;
  ref_count_put i 1.

Definition pmm_alloc_page (b : boot_info) : prog pmm Z :=
  s ← get;
  if negb (initialized s) then panic "PMM: allocation before initialization" else
  r ← for_until (Z.to_nat (total_pages s)) 0 1 (λ i,
    avail ← page_available i;
    if avail : bool then
      take_page i;;
      let pa := page_addr i in
      zero_phys_page b pa;;
      mret (Some pa)
    else mret None);
  mret (default 0 r).

Definition pmm_alloc_page_below (max_addr : Z) : prog pmm Z :=
  s ← get;
  if negb (initialized s) then panic "PMM: allocation before initialization" else
  if max_addr =? 0 then mret 0 else
  let max_index := (max_addr +! PMM_PAGE_SIZE -! 1) / PMM_PAGE_SIZE in
  let max_index := if total_pages s <? max_index then total_pages s else max_index in
  r ← for_until (Z.to_nat max_index) 0 1 (λ i,
    avail ← page_available i;
    if avail : bool then take_page i;; mret (Some (page_addr i))
    else mret None);
  mret (default 0 r).

(** Local variables of the contiguous search: [(run_start, run_length)]. *)
Fixpoint contiguous_scan (n : nat) (count i run_start run_length : Z) : prog pmm Z :=
  match n with
  | O => mret 0
  | S n =>
      avail ← page_available i;
      if negb avail then contiguous_scan n count (i + 1) run_start 0 else
      let run_start := if run_length =? 0 then i else run_start in
      let run_length := run_length + 1 in
      if run_length =? count then
        for_each (seqZ 0 count) (λ j,
          page_bitmap_set (run_start + j);;
          ref_count_put (run_start + j) 1);;
        add_free_pages (- count);;
        mret (page_addr run_start)
      else contiguous_scan n count (i + 1) run_start run_length
  end.

Definition pmm_alloc_pages_contiguous (count : Z) : prog pmm Z :=
  s ← get;
  if negb (initialized s) then panic "PMM: allocation before initialization" else
  if (count =? 0) || (total_pages s <? count) then mret 0 else
  contiguous_scan (Z.to_nat (total_pages s)) count 0 0 0.

(** ** Release and sharing *)

(** Drop one reference; the page is free when none is left. *)
Definition drop_ref (index : Z) : prog pmm unit :=
  c ← ref_count_get index;
  when (0 <? c) (ref_count_put index (c - 1));;
  c ← ref_count_get index;
  when (c =? 0) (page_bitmap_clear index;; add_free_pages 1).

Definition pmm_free_page (page : Z) : prog pmm unit :=
  s ← get;
  if negb (initialized s) then panic "PMM: free before initialization" else
  if negb (range_is_valid s page 1) then panic "PMM: invalid free" else
  let index := page_index page in
  m ← managed_bitmap_test index;
  if negb m then panic "PMM: free of unmanaged page" else
  u ← page_bitmap_test index;
  if negb u then panic "PMM: double free" else
  drop_ref index.

Definition pmm_free_pages_contiguous (base count : Z) : prog pmm unit :=
  s ← get;
  if negb (range_is_valid s base count) then panic "PMM: invalid contiguous free" else
  let start := page_index base in
  for_each (seqZ 0 count) (λ i,
    m ← managed_bitmap_test (start + i);
    if negb m then panic "PMM: free of unmanaged page in range" else
    u ← page_bitmap_test (start + i);
    if negb u then panic "PMM: double free in range" else mret ());;
  for_each (seqZ 0 count) (λ i, drop_ref (start + i)).

Definition pmm_ref_page (page : Z) : prog pmm unit :=
  s ← get;
  if negb (initialized s) then mret () else
  let index := page_index page in
  if negb (index <? total_pages s) then mret () else
  m ← managed_bitmap_test index;
  when m (c ← ref_count_get index; ref_count_put index (u16 (c + 1))).

Definition pmm_get_page_ref (page : Z) : prog pmm Z :=
  s ← get;
  if negb (initialized s) then mret 0 else
  let index := page_index page in
  if negb (index <? total_pages s) then mret 0 else
  m ← managed_bitmap_test index;
  if m : bool then ref_count_get index else mret 0.

Record pmm_stats := PmmStats {
  st_total_pages : Z;
  st_usable_pages : Z;
  st_reserved_pages : Z;
  st_free_pages : Z;
  st_allocated_pages : Z;
  st_bitmap_bytes : Z;
  st_bitmap_phys : Z;
}.
Definition pmm_get_stats (s : pmm) : pmm_stats :=
  PmmStats (total_pages s) (usable_pages s) (total_pages s -! free_pages s)
    (free_pages s) (usable_pages s -! free_pages s) (bitmap_storage_bytes s)
    (bitmap_phys s).

(** The static storage before [pmm_init]. *)
Definition pmm_bss (r : ram) : pmm :=
  Pmm [] [] [] 0 0 0 0 0 0 false (replicate 16 0) 0 0 r.
