(* ===== verification/PmmSpec.v ===== *)
(** * Correctness of the page allocator: views, invariant, operations.

    A page is seen through three views of the state: [used] and [managed] are
    its bits in the two bitmaps and [refc] its reference count.  [pmm_inv]
    relates them to the counters; its index [d] is the constant difference
    between [free_pages] and the number of free pages, which
    [pmm_reserve_trampoline_pages] introduces. *)

From S2P Require Import Prelude Bits Ram Pmm.

(** ** Bits of a bitmap *)

Definition bit (bm : list Z) (i : Z) : bool :=
  Z.testbit (bm !!! Z.to_nat (i / BITS_PER_BYTE)) (i `mod` BITS_PER_BYTE).
Definition upd_bit (bm : list Z) (i : Z) (v : bool) : list Z :=
  let k := Z.to_nat (i / BITS_PER_BYTE) in
  let m := Z.shiftl 1 (i `mod` BITS_PER_BYTE) in
  <[k := if v then Z.lor (bm !!! k) m
         else Z.land (bm !!! k) (u8 (Z.lnot m))]> bm.

Definition in_bitmap (bm : list Z) (i : Z) : Prop :=
  0 ≤ i < BITS_PER_BYTE * Z.of_nat (length bm).
Definition is_byte (b : Z) : Prop := 0 ≤ b < 2 ^ 8.

Lemma in_bitmap_byte bm i : in_bitmap bm i →
  (Z.to_nat (i / BITS_PER_BYTE) < length bm)%nat ∧ 0 ≤ i `mod` BITS_PER_BYTE < 8.
Proof.
  unfold in_bitmap, BITS_PER_BYTE. intros Hi.
  pose proof (Z.div_lt_upper_bound i 8 (Z.of_nat (length bm))).
  pose proof (Z.div_pos i 8). pose proof (Z.mod_pos_bound i 8). lia.
Qed.

Lemma in_bitmap_lookup bm i : in_bitmap bm i →
  bm !! Z.to_nat (i / BITS_PER_BYTE) = Some (bm !!! Z.to_nat (i / BITS_PER_BYTE)).
Proof.
  intros [Hk _]%in_bitmap_byte. by apply list_lookup_lookup_total_lt.
Qed.

Lemma bitmap_test_run bm i : in_bitmap bm i → bitmap_test bm i = Some (bit bm i).
Proof.
  intros Hi. unfold bitmap_test. rewrite in_bitmap_lookup by done.
  simpl. f_equal. apply in_bitmap_byte in Hi as [_ Hm].
  rewrite bit_mask_u8 by done. apply land_bit_nonzero. lia.
Qed.

Lemma bitmap_set_run bm i : in_bitmap bm i →
  bitmap_set bm i = Some (upd_bit bm i true).
Proof.
  intros Hi. unfold bitmap_set. rewrite in_bitmap_lookup by done. simpl.
  apply in_bitmap_byte in Hi as [_ Hm]. by rewrite bit_mask_u8.
Qed.

Lemma bitmap_clear_run bm i : in_bitmap bm i →
  bitmap_clear bm i = Some (upd_bit bm i false).
Proof. intros Hi. unfold bitmap_clear. by rewrite in_bitmap_lookup. Qed.

Lemma length_upd_bit bm i v : length (upd_bit bm i v) = length bm.
Proof. apply length_insert. Qed.

Lemma div_mod_ne i j : i ≠ j → i / BITS_PER_BYTE = j / BITS_PER_BYTE →
  i `mod` BITS_PER_BYTE ≠ j `mod` BITS_PER_BYTE.
Proof.
  unfold BITS_PER_BYTE. intros Hne Hd Hm. apply Hne.
  by rewrite (Z.div_mod i 8), (Z.div_mod j 8), Hd, Hm.
Qed.

Lemma bit_upd_bit bm i j v : in_bitmap bm i → 0 ≤ j →
  bit (upd_bit bm i v) j = if decide (i = j) then v else bit bm j.
Proof.
  intros Hi Hj. pose proof (in_bitmap_byte bm i Hi) as [Hk Hm].
  unfold bit, upd_bit.
  assert (Hmj : 0 ≤ j `mod` BITS_PER_BYTE < 8) by by apply Z.mod_pos_bound.
  destruct (decide (i / BITS_PER_BYTE = j / BITS_PER_BYTE)) as [Hd|Hd].
  - rewrite <-Hd, list_lookup_total_insert_eq by done.
    destruct v.
    + rewrite byte_set_testbit by lia. destruct (decide (i = j)) as [->|Hne].
      * by rewrite Z.eqb_refl.
      * pose proof (div_mod_ne i j Hne Hd).
        by replace (_ =? _) with false by lia.
    + rewrite byte_clear_testbit by lia. destruct (decide (i = j)) as [->|Hne].
      * by rewrite Z.eqb_refl.
      * pose proof (div_mod_ne i j Hne Hd).
        by replace (_ =? _) with false by lia.
  - rewrite decide_False by congruence. rewrite list_lookup_total_insert_ne; [done|].
    unfold in_bitmap, BITS_PER_BYTE in *.
    pose proof (Z.div_pos i 8). pose proof (Z.div_pos j 8). lia.
Qed.

Lemma upd_bit_bytes bm i v : in_bitmap bm i →
  Forall is_byte bm → Forall is_byte (upd_bit bm i v).
Proof.
  intros Hi Hb. pose proof (in_bitmap_byte bm i Hi) as [Hk Hm].
  apply Forall_insert; [done|].
  assert (is_byte (bm !!! Z.to_nat (i / BITS_PER_BYTE))).
  { rewrite Forall_lookup in Hb. by eapply Hb, in_bitmap_lookup. }
  unfold is_byte in *. destruct v.
  - apply lor_bound; [done| |lia]. rewrite Z.shiftl_1_l. split; [lia|].
    apply Z.pow_lt_mono_r; lia.
  - apply land_bound; [done|lia].
Qed.

(** ** Counting *)

(** Number of indices below [n] where [f] is false. *)
Definition count_clear (f : Z → bool) (n : Z) : Z :=
  Z.of_nat (length (filter (λ i, f i = false) (seqZ 0 n))).

Lemma filter_length_ext {A} (P Q : A → Prop) `{∀ x, Decision (P x)}
    `{∀ x, Decision (Q x)} (l : list A) :
  (∀ x, x ∈ l → P x ↔ Q x) → length (filter P l) = length (filter Q l).
Proof.
  induction l as [|x l IH]; intros Heq; [done|].
  rewrite !filter_cons.
  pose proof (Heq x (list_elem_of_here _ _)) as Hx.
  rewrite (decide_ext (P x) (Q x)) by done.
  destruct (decide (Q x)); simpl; rewrite IH; try done;
    intros; apply Heq; by right.
Qed.

Lemma count_clear_ext f g n :
  (∀ i, 0 ≤ i < n → f i = g i) → count_clear f n = count_clear g n.
Proof.
  intros Heq. unfold count_clear. f_equal. apply filter_length_ext.
  intros i Hi%elem_of_seqZ. rewrite Heq; [done|lia].
Qed.

Lemma count_clear_upd f g n i :
  0 ≤ i < n → f i = false → g i = true →
  (∀ j, 0 ≤ j < n → j ≠ i → g j = f j) →
  count_clear f n = count_clear g n + 1.
Proof.
  intros Hi Hf Hg Hne. unfold count_clear.
  assert (Hs : seqZ 0 n = seqZ 0 i ++ i :: seqZ (i + 1) (n - i - 1)).
  { replace n with (i + (n - i)) at 1 by lia.
    rewrite (seqZ_app 0 i (n - i)) by lia. f_equal.
    replace (n - i) with (Z.succ (n - i - 1)) at 1 by lia.
    rewrite seqZ_cons by lia. f_equal; f_equal; lia. }
  rewrite Hs, !filter_app, !filter_cons, !length_app.
  rewrite decide_True, decide_False by congruence. simpl.
  assert (Hext : ∀ l, (∀ j, j ∈ l → 0 ≤ j < n ∧ j ≠ i) →
    length (filter (λ i, f i = false) l) = length (filter (λ i, g i = false) l)).
  { intros l Hl. apply filter_length_ext. intros j [??]%Hl. by rewrite Hne. }
  rewrite (Hext (seqZ 0 i)), (Hext (seqZ (i + 1) (n - i - 1))).
  - lia.
  - intros j Hj%elem_of_seqZ; lia.
  - intros j Hj%elem_of_seqZ; lia.
Qed.

Lemma count_clear_bounds f n : 0 ≤ count_clear f n ≤ Z.max 0 n.
Proof.
  unfold count_clear. split; [lia|].
  pose proof (length_filter (λ i, f i = false) (seqZ 0 n)).
  rewrite length_seqZ in *. lia.
Qed.

(** ** Views and elementary updates of the state *)

Definition used (s : pmm) (i : Z) : bool := bit (page_bitmap s) i.
Definition managed (s : pmm) (i : Z) : bool := bit (managed_bitmap s) i.
Definition refc (s : pmm) (i : Z) : Z := page_ref_counts s !!! Z.to_nat i.
Definition is_page (s : pmm) (i : Z) : Prop := 0 ≤ i < total_pages s.
Definition n_free (s : pmm) : Z := count_clear (used s) (total_pages s).

Definition set_used (i : Z) (v : bool) (s : pmm) : pmm :=
  with_page_bitmap (upd_bit (page_bitmap s) i v) s.
Definition set_managed (i : Z) (v : bool) (s : pmm) : pmm :=
  with_managed_bitmap (upd_bit (managed_bitmap s) i v) s.
Definition set_ref (i c : Z) (s : pmm) : pmm :=
  with_ref_counts (<[Z.to_nat i := c]> (page_ref_counts s)) s.

(** Array sizes: what makes the indexing of the code safe. *)
Record pmm_sized (s : pmm) : Prop := {
  sized_total : 0 ≤ total_pages s ≤ 2 ^ 40;
  sized_used : total_pages s ≤ BITS_PER_BYTE * Z.of_nat (length (page_bitmap s));
  sized_managed : total_pages s ≤ BITS_PER_BYTE * Z.of_nat (length (managed_bitmap s));
  sized_refs : Z.of_nat (length (page_ref_counts s)) = total_pages s;
  sized_used_bytes : Forall is_byte (page_bitmap s);
  sized_managed_bytes : Forall is_byte (managed_bitmap s);
  sized_ref_range : Forall (λ c, 0 ≤ c < 2 ^ 16) (page_ref_counts s);
}.

Lemma sized_in_used s i : pmm_sized s → is_page s i → in_bitmap (page_bitmap s) i.
Proof. intros [] []. unfold in_bitmap. lia. Qed.
Lemma sized_in_managed s i :
  pmm_sized s → is_page s i → in_bitmap (managed_bitmap s) i.
Proof. intros [] []. unfold in_bitmap. lia. Qed.
Lemma sized_ref_lookup s i : pmm_sized s → is_page s i →
  page_ref_counts s !! Z.to_nat i = Some (refc s i).
Proof.
  intros [] []. apply list_lookup_lookup_total_lt. lia.
Qed.
Lemma refc_range s i : pmm_sized s → is_page s i → 0 ≤ refc s i < 2 ^ 16.
Proof.
  intros Hs Hi. pose proof (sized_ref_lookup s i Hs Hi) as Hl.
  pose proof (sized_ref_range s Hs) as Hr. rewrite Forall_lookup in Hr. by eapply Hr.
Qed.

Lemma sized_set_used s i v : pmm_sized s → is_page s i → pmm_sized (set_used i v s).
Proof.
  intros Hs Hi. pose proof (sized_in_used s i Hs Hi). destruct Hs.
  split; simpl; rewrite ?length_upd_bit; auto using upd_bit_bytes.
Qed.
Lemma sized_set_managed s i v :
  pmm_sized s → is_page s i → pmm_sized (set_managed i v s).
Proof.
  intros Hs Hi. pose proof (sized_in_managed s i Hs Hi). destruct Hs.
  split; simpl; rewrite ?length_upd_bit; auto using upd_bit_bytes.
Qed.
Lemma sized_set_ref s i c : pmm_sized s → 0 ≤ c < 2 ^ 16 → pmm_sized (set_ref i c s).
Proof.
  intros [] Hc. split; simpl; rewrite ?length_insert; auto using Forall_insert.
Qed.
Lemma sized_free_pages s n : pmm_sized s → pmm_sized (with_free_pages n s).
Proof. by intros []. Qed.
Lemma sized_usable_pages s n : pmm_sized s → pmm_sized (with_usable_pages n s).
Proof. by intros []. Qed.
Lemma sized_ram s r : pmm_sized s → pmm_sized (with_ram r s).
Proof. by intros []. Qed.
Lemma sized_pool s p t c : pmm_sized s → pmm_sized (with_pool p t c s).
Proof. by intros []. Qed.
Lemma sized_initialized s b : pmm_sized s → pmm_sized (with_initialized b s).
Proof. by intros []. Qed.

Create HintDb pmm discriminated.
#[export] Hint Resolve sized_set_used sized_set_managed sized_set_ref
  sized_free_pages sized_usable_pages sized_ram sized_pool sized_initialized
  sized_in_used sized_in_managed refc_range : pmm.

(** Views of updated states. *)
Lemma used_set_used s i j v : pmm_sized s → is_page s i → 0 ≤ j →
  used (set_used i v s) j = if decide (i = j) then v else used s j.
Proof. intros. by apply bit_upd_bit; eauto with pmm. Qed.
Lemma managed_set_managed s i j v : pmm_sized s → is_page s i → 0 ≤ j →
  managed (set_managed i v s) j = if decide (i = j) then v else managed s j.
Proof. intros. by apply bit_upd_bit; eauto with pmm. Qed.
Lemma refc_set_ref s i j c : pmm_sized s → is_page s i → is_page s j →
  refc (set_ref i c s) j = if decide (i = j) then c else refc s j.
Proof.
  intros [] [] []. unfold refc, set_ref. simpl.
  destruct (decide (i = j)) as [->|].
  - rewrite list_lookup_total_insert_eq; [done|lia].
  - rewrite list_lookup_total_insert_ne; [done|lia].
Qed.

(** ** Running the elementary operations *)

Section runs.
Context (s : pmm) (i : Z) (Hs : pmm_sized s) (Hi : is_page s i).

Lemma page_bitmap_test_run : page_bitmap_test i s = Done (used s i, s).
Proof.
  unfold page_bitmap_test, mbind, prog_bind, get.
  by rewrite bitmap_test_run by eauto with pmm.
Qed.
Lemma managed_bitmap_test_run : managed_bitmap_test i s = Done (managed s i, s).
Proof.
  unfold managed_bitmap_test, mbind, prog_bind, get.
  by rewrite bitmap_test_run by eauto with pmm.
Qed.
Lemma page_bitmap_set_run : page_bitmap_set i s = Done ((), set_used i true s).
Proof.
  unfold page_bitmap_set, mbind, prog_bind, get.
  by rewrite bitmap_set_run by eauto with pmm.
Qed.
Lemma page_bitmap_clear_run : page_bitmap_clear i s = Done ((), set_used i false s).
Proof.
  unfold page_bitmap_clear, mbind, prog_bind, get.
  by rewrite bitmap_clear_run by eauto with pmm.
Qed.
Lemma managed_bitmap_set_run :
  managed_bitmap_set i s = Done ((), set_managed i true s).
Proof.
  unfold managed_bitmap_set, mbind, prog_bind, get.
  by rewrite bitmap_set_run by eauto with pmm.
Qed.
Lemma managed_bitmap_clear_run :
  managed_bitmap_clear i s = Done ((), set_managed i false s).
Proof.
  unfold managed_bitmap_clear, mbind, prog_bind, get.
  by rewrite bitmap_clear_run by eauto with pmm.
Qed.
Lemma ref_count_get_run : ref_count_get i s = Done (refc s i, s).
Proof.
  unfold ref_count_get, mbind, prog_bind, get. by rewrite sized_ref_lookup.
Qed.
Lemma ref_count_put_run c : ref_count_put i c s = Done ((), set_ref i c s).
Proof.
  unfold ref_count_put, mbind, prog_bind, get. by rewrite sized_ref_lookup.
Qed.
Lemma page_available_run :
  page_available i s = Done (managed s i && negb (used s i), s).
Proof.
  unfold page_available, mbind, prog_bind. rewrite managed_bitmap_test_run.
  destruct (managed s i); [|done]. by rewrite page_bitmap_test_run.
Qed.
End runs.

(** Execute the elementary operations of a routine that indexes in range. *)
Ltac pmm_side := solve [eauto 8 with pmm | unfold is_page in *; simpl; lia].
Ltac pmm_exec :=
  unfold mbind, prog_bind, when, add_free_pages, gets, modify, get, mret, prog_ret;
  repeat first
    [ rewrite page_bitmap_test_run by pmm_side
    | rewrite managed_bitmap_test_run by pmm_side
    | rewrite page_bitmap_set_run by pmm_side
    | rewrite page_bitmap_clear_run by pmm_side
    | rewrite managed_bitmap_set_run by pmm_side
    | rewrite managed_bitmap_clear_run by pmm_side
    | rewrite ref_count_get_run by pmm_side
    | rewrite ref_count_put_run by pmm_side
    | rewrite page_available_run by pmm_side ].

(** ** The invariant *)

Record pmm_shape (d : Z) (s : pmm) : Prop := {
  shape_sized : pmm_sized s;
  shape_free_managed : ∀ i, is_page s i → used s i = false → managed s i = true;
  shape_count : free_pages s = n_free s + d;
  shape_drift : 0 ≤ d ≤ TRAMPOLINE_POOL_SIZE;
}.
#[export] Hint Resolve shape_sized : pmm.

(** Page 0 is never handed out, so a result of [0] means failure. *)
Definition reserved (s : pmm) (i : Z) : Prop :=
  used s i = true ∧ managed s i = false.
Record pmm_inv (d : Z) (s : pmm) : Prop := {
  inv_shape : pmm_shape d s;
  inv_page0 : is_page s 0 → reserved s 0;
  inv_init : initialized s = true;
}.
#[export] Hint Resolve inv_shape : pmm.

(** What taking page [i] and dropping one reference to it do to the state. *)
Definition taken (i : Z) (s : pmm) : pmm :=
  set_ref i 1 (with_free_pages (free_pages s - 1) (set_used i true s)).
Definition released (i : Z) (s : pmm) : pmm :=
  with_free_pages (free_pages s + 1) (set_used i false (set_ref i 0 s)).
Definition dropped (i : Z) (s : pmm) : pmm :=
  if 1 <? refc s i then set_ref i (refc s i - 1) s else released i s.

Lemma n_free_bounds s : pmm_sized s → 0 ≤ n_free s ≤ 2 ^ 40.
Proof.
  intros [? _ _ _ _ _ _].
  pose proof (count_clear_bounds (used s) (total_pages s)). unfold n_free. lia.
Qed.

Lemma n_free_set_used s i : pmm_sized s → is_page s i → used s i = false →
  n_free s = n_free (set_used i true s) + 1.
Proof.
  intros Hs Hi Hu. apply (count_clear_upd _ _ _ i); [done|done| |].
  - rewrite used_set_used by (done || apply Hi). by rewrite decide_True.
  - intros j Hj Hne. rewrite used_set_used by (done || lia).
    by rewrite decide_False by congruence.
Qed.

Lemma n_free_set_clear s i : pmm_sized s → is_page s i → used s i = true →
  n_free (set_used i false s) = n_free s + 1.
Proof.
  intros Hs Hi Hu. apply (count_clear_upd _ _ _ i); [done| |done|].
  - rewrite used_set_used by (done || apply Hi). by rewrite decide_True.
  - intros j Hj Hne. rewrite used_set_used by (done || lia).
    by rewrite decide_False by congruence.
Qed.

(** A page that is not [used] makes [free_pages] positive, so the [uint64_t]
    decrement does not wrap; and the increment cannot wrap either. *)
Lemma free_pages_pos d s i : pmm_shape d s → is_page s i → used s i = false →
  0 < free_pages s < 2 ^ 41.
Proof.
  intros Hd Hi Hu. pose proof (n_free_set_used s i (shape_sized _ _ Hd) Hi Hu).
  assert (pmm_sized (set_used i true s)) as Hs' by eauto with pmm.
  pose proof (n_free_bounds _ Hs').
  pose proof (n_free_bounds s (shape_sized _ _ Hd)).
  destruct Hd as [? ? -> Hd]. unfold TRAMPOLINE_POOL_SIZE in Hd. lia.
Qed.

Lemma free_pages_range d s : pmm_shape d s → 0 ≤ free_pages s < 2 ^ 41.
Proof.
  intros [Hs _ -> Hd]. pose proof (n_free_bounds s Hs).
  unfold TRAMPOLINE_POOL_SIZE in Hd. lia.
Qed.

Lemma shape_taken d s i :
  pmm_shape d s → is_page s i → used s i = false → pmm_shape d (taken i s).
Proof.
  intros Hd Hi Hu. pose proof (n_free_set_used s i (shape_sized _ _ Hd) Hi Hu).
  destruct Hd as [Hs Hm Hc Hdr]. split; [|..|done].
  - apply sized_set_ref; [|lia]. eauto with pmm.
  - intros j Hj Hju. apply Hm; [done|]. revert Hju.
    change (used (taken i s) j) with (used (set_used i true s) j).
    rewrite used_set_used by (done || apply Hj). by destruct (decide (i = j)).
  - change (n_free (taken i s)) with (n_free (set_used i true s)). simpl. lia.
Qed.

Lemma shape_released d s i :
  pmm_shape d s → is_page s i → used s i = true → managed s i = true →
  pmm_shape d (released i s).
Proof.
  intros Hd Hi Hu Hmi.
  pose proof (n_free_set_clear s i (shape_sized _ _ Hd) Hi Hu).
  destruct Hd as [Hs Hm Hc Hdr]. split; [|..|done].
  - apply sized_free_pages, sized_set_used; [|done]. apply sized_set_ref; [done|lia].
  - intros j Hj Hju. revert Hju.
    change (used (released i s) j) with (used (set_used i false s) j).
    change (managed (released i s) j) with (managed s j).
    rewrite used_set_used by (done || apply Hj).
    destruct (decide (i = j)) as [<-|]; [done|]. by apply Hm.
  - change (n_free (released i s)) with (n_free (set_used i false s)). simpl. lia.
Qed.

Lemma shape_set_ref d s i c :
  pmm_shape d s → 0 ≤ c < 2 ^ 16 → pmm_shape d (set_ref i c s).
Proof. intros [] ?. split; [|done..]. by apply sized_set_ref. Qed.

Lemma shape_ram d s r : pmm_shape d s → pmm_shape d (with_ram r s).
Proof. intros []. split; [|done..]. by apply sized_ram. Qed.

Lemma shape_dropped d s i :
  pmm_shape d s → is_page s i → used s i = true → managed s i = true →
  pmm_shape d (dropped i s).
Proof.
  intros Hd Hi Hu Hm. unfold dropped.
  pose proof (refc_range s i (shape_sized _ _ Hd) Hi).
  destruct (Z.ltb_spec 1 (refc s i)).
  - apply shape_set_ref; [done|lia].
  - by apply shape_released.
Qed.
#[export] Hint Resolve shape_taken shape_released shape_set_ref shape_ram
  shape_dropped : pmm.

(** ** The operations as state transformers *)

Lemma take_page_run d s i : pmm_shape d s → is_page s i → used s i = false →
  take_page i s = Done ((), taken i s).
Proof.
  intros Hd Hi Hu. pose proof (free_pages_pos d s i Hd Hi Hu).
  unfold take_page. pmm_exec. simpl. rewrite u64_small by lia. done.
Qed.

Lemma set_ref_same s i : pmm_sized s → is_page s i → set_ref i (refc s i) s = s.
Proof.
  intros Hs Hi. unfold set_ref. rewrite list_insert_id.
  - by destruct s.
  - by apply sized_ref_lookup.
Qed.

Lemma drop_ref_run d s i : pmm_shape d s → is_page s i →
  drop_ref i s = Done ((), dropped i s).
Proof.
  intros Hd Hi. pose proof (refc_range s i (shape_sized _ _ Hd) Hi) as Hr.
  pose proof (free_pages_range d s Hd) as Hf.
  unfold drop_ref, dropped. pmm_exec. destruct (Z.ltb_spec 0 (refc s i)).
  - assert (pmm_sized (set_ref i (refc s i - 1) s))
      by (apply sized_set_ref; [eauto with pmm|lia]).
    pmm_exec. rewrite refc_set_ref by eauto with pmm.
    rewrite decide_True by done.
    destruct (Z.ltb_spec 1 (refc s i)).
    + by replace (refc s i - 1 =? 0) with false by lia.
    + replace (refc s i - 1) with 0 in * by lia. simpl. pmm_exec. simpl.
      by rewrite u64_small by lia.
  - pmm_exec. replace (refc s i) with 0 by lia. simpl. pmm_exec. simpl.
    rewrite u64_small by lia. unfold released.
    replace (set_ref i 0 s) with s; [done|].
    rewrite <-(set_ref_same s i) at 1 by eauto with pmm. f_equal. lia.
Qed.

(** ** Searching *)

(** The lowest free page below [n]. *)
Definition first_free (s : pmm) (n : Z) : option Z :=
  snd <$> list_find (λ i, used s i = false) (seqZ 0 n).

Lemma first_free_Some s n i : first_free s n = Some i ↔
  0 ≤ i < n ∧ used s i = false ∧ ∀ j, 0 ≤ j < i → used s j = true.
Proof.
  unfold first_free. rewrite fmap_Some. split.
  - intros ([k x]&Hf&->). apply list_find_Some in Hf as (Hk&Hu&Hlt).
    apply lookup_seqZ in Hk as [-> Hk]. simpl. split_and!; [lia|lia|done|].
    intros j Hj. apply not_false_is_true. apply (Hlt (Z.to_nat j)).
    + apply lookup_seqZ. lia.
    + lia.
  - intros (Hi&Hu&Hlt). exists (Z.to_nat i, i). split; [|done].
    apply list_find_Some. split_and!; [|done|].
    + apply lookup_seqZ. lia.
    + intros j y [-> Hj]%lookup_seqZ Hlt'. rewrite Hlt by lia. done.
Qed.

Lemma first_free_None s n : first_free s n = None ↔
  ∀ j, 0 ≤ j < n → used s j = true.
Proof.
  unfold first_free. rewrite fmap_None, list_find_None, Forall_forall.
  setoid_rewrite elem_of_seqZ. split; intros H j Hj.
  - apply not_false_is_true, H. lia.
  - rewrite H; [done|lia].
Qed.

Lemma available_free d s i : pmm_shape d s → is_page s i →
  managed s i && negb (used s i) = negb (used s i).
Proof.
  intros Hd Hi. destruct (used s i) eqn:Hu; simpl; [apply andb_false_r|].
  by rewrite (shape_free_managed _ _ Hd i).
Qed.

Lemma page_addr_eq d s i : pmm_shape d s → is_page s i → page_addr i = i * PMM_PAGE_SIZE.
Proof.
  intros [[] _ _ _] []. unfold page_addr, PMM_PAGE_SIZE. apply u64_small. lia.
Qed.

(** A loop that looks for a free page and acts on the first one. *)
Lemma wp_search d s n (act : Z → prog pmm (option Z)) Q :
  pmm_shape d s → 0 ≤ n ≤ total_pages s →
  match first_free s n with
  | Some i => wp (act i) (λ r s', is_Some r ∧ Q r s') s
  | None => Q None s
  end →
  wp (for_until (Z.to_nat n) 0 1 (λ i,
        avail ← page_available i; if avail : bool then act i else mret None)) Q s.
Proof.
  intros Hd Hn HQ.
  apply (wp_for_until (λ k s', s' = s ∧ ∀ j, 0 ≤ j < k → used s j = true)).
  { split; [done|lia]. }
  - intros k s' Hk [-> Hlow]. rewrite Z.mul_1_r, Z.add_0_l in *.
    assert (Hp : is_page s k) by (unfold is_page; lia).
    apply wp_bind. eapply wp_of_run; [apply page_available_run; eauto with pmm|].
    rewrite (available_free d) by done. destruct (used s k) eqn:Hu; simpl.
    + apply wp_ret. split; [done|]. intros j Hj.
      destruct (decide (j = k)) as [->|]; [done|apply Hlow; lia].
    + assert (first_free s n = Some k) as Hff
        by (apply first_free_Some; split_and!; auto; lia).
      rewrite Hff in HQ. eapply wp_mono; [done|]. by intros [x|] s' [[? [=]] ?].
  - intros s' [-> Hall]. assert (first_free s n = None) as Hff.
    { apply first_free_None. intros j Hj. apply Hall. lia. }
    by rewrite Hff in HQ.
Qed.

(** ** Allocation *)

(** The state after [pmm_alloc_page] has handed out page [i]. *)
Definition allocated (i : Z) (s : pmm) : pmm :=
  with_ram (zero_page (i * PMM_PAGE_SIZE) (phys_ram s)) (taken i s).

Lemma pmm_alloc_page_run d b off s :
  pmm_inv d s → hhdm_response b = Some off →
  pmm_alloc_page b s =
    match first_free s (total_pages s) with
    | None => Done (0, s)
    | Some i => Done (i * PMM_PAGE_SIZE, allocated i s)
    end.
Proof.
  intros Hinv Hoff. pose proof (inv_shape _ _ Hinv) as Hd.
  pose proof (sized_total _ (shape_sized _ _ Hd)) as Ht.
  assert (Hwp : wp (pmm_alloc_page b) (λ p s',
    match first_free s (total_pages s) with
    | None => p = 0 ∧ s' = s
    | Some i => p = i * PMM_PAGE_SIZE ∧ s' = allocated i s
    end) s).
  { unfold pmm_alloc_page. apply wp_bind, wp_get. rewrite inv_init with d s by done.
    simpl. apply wp_bind. eapply (wp_search d); [done|lia|].
    destruct (first_free s (total_pages s)) as [i|] eqn:Hf; [|by apply wp_ret].
    apply first_free_Some in Hf as (Hi&Hu&_).
    apply wp_bind. eapply wp_of_run; [by eapply take_page_run|].
    rewrite (page_addr_eq d s i) by done.
    apply wp_bind. unfold zero_phys_page. rewrite Hoff. apply wp_modify.
    apply wp_ret. split; [done|]. by apply wp_ret. }
  destruct (first_free s (total_pages s)); by apply wp_eq.
Qed.

(** The state after [pmm_alloc_page_below]: as above, without the zeroing. *)
Lemma pmm_alloc_page_below_run d s max_addr :
  pmm_inv d s → 0 ≤ max_addr < 2 ^ 64 - PMM_PAGE_SIZE →
  pmm_alloc_page_below max_addr s =
    match first_free s (((max_addr + PMM_PAGE_SIZE - 1) / PMM_PAGE_SIZE)
                        `min` total_pages s) with
    | None => Done (0, s)
    | Some i => Done (i * PMM_PAGE_SIZE, taken i s)
    end.
Proof.
  intros Hinv Hmax. pose proof (inv_shape _ _ Hinv) as Hd.
  pose proof (sized_total _ (shape_sized _ _ Hd)) as Ht.
  unfold PMM_PAGE_SIZE in *. set (n := _ `min` _).
  assert (Hn : 0 ≤ n ≤ total_pages s)
    by (pose proof (Z.div_pos (max_addr + 4096 - 1) 4096); lia).
  assert (Hwp : wp (pmm_alloc_page_below max_addr) (λ p s',
    match first_free s n with
    | None => p = 0 ∧ s' = s
    | Some i => p = i * PMM_PAGE_SIZE ∧ s' = taken i s
    end) s).
  { unfold pmm_alloc_page_below. apply wp_bind, wp_get.
    rewrite inv_init with d s by done. simpl.
    destruct (Z.eqb_spec max_addr 0) as [->|].
    { replace (first_free s n) with (@None Z); [by apply wp_ret|].
      symmetry. apply first_free_None. intros j Hj.
      unfold n in Hj. change ((0 + 4096 - 1) / 4096) with 0 in Hj. lia. }
    unfold PMM_PAGE_SIZE. rewrite (u64_small (max_addr + 4096)) by lia.
    rewrite u64_small by lia.
    replace (if total_pages s <? _ then _ else _) with n
      by (unfold n; destruct (Z.ltb_spec (total_pages s)
            ((max_addr + 4096 - 1) / 4096)); lia).
    apply wp_bind. eapply (wp_search d); [done..|].
    destruct (first_free s n) as [i|] eqn:Hf; [|by apply wp_ret].
    apply first_free_Some in Hf as (Hi&Hu&_).
    assert (is_page s i) by (unfold is_page; lia).
    apply wp_bind. eapply wp_of_run; [by eapply take_page_run|].
    rewrite (page_addr_eq d s i) by done.
    apply wp_ret. split; [done|]. by apply wp_ret. }
  destruct (first_free s n); by apply wp_eq.
Qed.

(** ** Views of the transformed states *)

Lemma used_taken s i j : pmm_sized s → is_page s i → 0 ≤ j →
  used (taken i s) j = if decide (i = j) then true else used s j.
Proof. intros. by apply (used_set_used s i j true). Qed.
Lemma refc_taken s i j : pmm_sized s → is_page s i → is_page s j →
  refc (taken i s) j = if decide (i = j) then 1 else refc s j.
Proof. intros. by apply (refc_set_ref s i j 1). Qed.

Lemma used_released s i j : pmm_sized s → is_page s i → 0 ≤ j →
  used (released i s) j = if decide (i = j) then false else used s j.
Proof. intros. by apply (used_set_used s i j false). Qed.

Lemma used_dropped s i j : pmm_sized s → is_page s i → 0 ≤ j →
  used (dropped i s) j =
    if decide (i = j) then (1 <? refc s i) && used s i else used s j.
Proof.
  intros. unfold dropped. destruct (1 <? refc s i); simpl.
  - by destruct (decide (i = j)) as [->|].
  - by apply used_released.
Qed.
Lemma refc_dropped s i j : pmm_sized s → is_page s i → is_page s j →
  refc (dropped i s) j = if decide (i = j) then Z.max 0 (refc s i - 1) else refc s j.
Proof.
  intros Hs Hi Hj. pose proof (refc_range s i Hs Hi). unfold dropped.
  destruct (Z.ltb_spec 1 (refc s i)).
  - rewrite refc_set_ref by done. by destruct (decide (i = j)); [lia|].
  - change (refc (released i s) j) with (refc (set_ref i 0 s) j).
    rewrite refc_set_ref by done. by destruct (decide (i = j)); [lia|].
Qed.
Lemma managed_dropped s i j : managed (dropped i s) j = managed s j.
Proof. unfold dropped. by destruct (1 <? refc s i). Qed.
Lemma total_dropped s i : total_pages (dropped i s) = total_pages s.
Proof. unfold dropped. by destruct (1 <? refc s i). Qed.
Lemma init_dropped s i : initialized (dropped i s) = initialized s.
Proof. unfold dropped. by destruct (1 <? refc s i). Qed.
Lemma ram_dropped s i : phys_ram (dropped i s) = phys_ram s.
Proof. unfold dropped. by destruct (1 <? refc s i). Qed.

(** ** The invariant is kept by every operation *)

Lemma inv_taken d s i :
  pmm_inv d s → is_page s i → used s i = false → pmm_inv d (taken i s).
Proof.
  intros [Hd H0 Hin] Hi Hu. split; [eauto with pmm| |done].
  intros Hp. destruct (H0 Hp) as [Hu0 Hm0]. split; [|done].
  rewrite used_taken by (eauto with pmm; lia). by destruct (decide (i = 0)).
Qed.

Lemma inv_ram d s r : pmm_inv d s → pmm_inv d (with_ram r s).
Proof. intros []. split; [|done..]. by apply shape_ram. Qed.

Lemma inv_set_ref d s i c : pmm_inv d s → 0 ≤ c < 2 ^ 16 → pmm_inv d (set_ref i c s).
Proof. intros [] ?. split; [|done..]. by apply shape_set_ref. Qed.

Lemma inv_allocated d s i :
  pmm_inv d s → is_page s i → used s i = false → pmm_inv d (allocated i s).
Proof. intros. by apply inv_ram, inv_taken. Qed.

Lemma inv_dropped d s i :
  pmm_inv d s → is_page s i → used s i = true → managed s i = true →
  pmm_inv d (dropped i s).
Proof.
  intros [Hd H0 Hin] Hi Hu Hm.
  split; [eauto with pmm| |by rewrite init_dropped].
  unfold is_page. rewrite total_dropped. intros Hp.
  destruct (H0 Hp) as [Hu0 Hm0]. split; [|by rewrite managed_dropped].
  rewrite used_dropped by (eauto with pmm; lia).
  destruct (decide (i = 0)) as [->|]; [congruence|done].
Qed.
#[export] Hint Resolve inv_taken inv_ram inv_set_ref inv_allocated inv_dropped : pmm.

(** ** Release *)

Lemma range_is_valid_true s base count :
  0 ≤ base → range_is_valid s base count = true ↔
  base `mod` PMM_PAGE_SIZE = 0 ∧ count ≠ 0 ∧
  is_page s (page_index base) ∧ count ≤ total_pages s - page_index base.
Proof.
  intros Hb. unfold range_is_valid, is_page, page_index, PMM_PAGE_SIZE.
  pose proof (Z.div_pos base 4096).
  destruct (decide (base `mod` 4096 = 0)) as [He|He].
  - rewrite bool_decide_eq_false_2 by (intros Hn; by apply Hn).
    destruct (Z.eqb_spec count 0); simpl; [naive_solver|].
    rewrite andb_true_iff, Z.ltb_lt, Z.leb_le. naive_solver lia.
  - rewrite bool_decide_eq_true_2 by done. simpl. naive_solver.
Qed.

Lemma pmm_free_page_run d s page :
  pmm_inv d s → 0 ≤ page →
  pmm_free_page page s =
    if negb (range_is_valid s page 1) then Stop (Panicked "PMM: invalid free")
    else let i := page_index page in
    if negb (managed s i) then Stop (Panicked "PMM: free of unmanaged page")
    else if negb (used s i) then Stop (Panicked "PMM: double free")
    else Done ((), dropped i s).
Proof.
  intros Hinv Hp. unfold pmm_free_page, mbind at 1, prog_bind at 1, get.
  rewrite (inv_init _ _ Hinv). simpl.
  destruct (range_is_valid s page 1) eqn:Hv; [|done]. simpl.
  apply range_is_valid_true in Hv as (_&_&Hi&_); [|done].
  pmm_exec. destruct (managed s (page_index page)); [|done]. simpl. pmm_exec.
  destruct (used s (page_index page)); [|done]. simpl.
  eapply drop_ref_run; eauto with pmm.
Qed.

(** ** Sharing *)

Lemma pmm_ref_page_run d s page : pmm_inv d s → 0 ≤ page →
  pmm_ref_page page s =
    let i := page_index page in
    if (i <? total_pages s) && managed s i
    then Done ((), set_ref i (u16 (refc s i + 1)) s) else Done ((), s).
Proof.
  intros Hinv Hp. unfold pmm_ref_page, mbind at 1, prog_bind at 1, get.
  rewrite (inv_init _ _ Hinv). simpl.
  destruct (Z.ltb_spec (page_index page) (total_pages s)) as [Hlt|]; [|done]. simpl.
  assert (Hi : is_page s (page_index page)).
  { split; [|done]. by apply Z.div_pos. }
  pmm_exec. destruct (managed s (page_index page)); [|done]. by pmm_exec.
Qed.

Lemma pmm_get_page_ref_run d s page : pmm_inv d s → 0 ≤ page →
  pmm_get_page_ref page s =
    let i := page_index page in
    Done (if (i <? total_pages s) && managed s i then refc s i else 0, s).
Proof.
  intros Hinv Hp. unfold pmm_get_page_ref, mbind at 1, prog_bind at 1, get.
  rewrite (inv_init _ _ Hinv). simpl.
  destruct (Z.ltb_spec (page_index page) (total_pages s)) as [Hlt|]; [|done]. simpl.
  assert (Hi : is_page s (page_index page)).
  { split; [|done]. by apply Z.div_pos. }
  pmm_exec. destruct (managed s (page_index page)); [|done]. by pmm_exec.
Qed.
