(* ===== verification/PmmContig.v ===== *)
(** * Contiguous allocation and release of the page allocator. *)

From S2P Require Import Prelude Bits Ram Pmm PmmSpec.

(** [count] free pages starting at page [i], inside the managed range. *)
Definition free_run (s : pmm) (i count : Z) : Prop :=
  0 ≤ i ∧ i + count ≤ total_pages s ∧
  ∀ j, i ≤ j < i + count → used s j = false.

Definition taken_run (start count : Z) (s : pmm) : pmm :=
  foldl (λ s j, taken (start + j) s) s (seqZ 0 count).
Definition dropped_run (start count : Z) (s : pmm) : pmm :=
  foldl (λ s j, dropped (start + j) s) s (seqZ 0 count).

(** ** Taking a run *)

(** The loop body of the code: bitmap and count, [free_pages] afterwards. *)
Definition marked (i : Z) (s : pmm) : pmm := set_ref i 1 (set_used i true s).

Lemma taken_all_marked (l : list Z) (f : Z → Z) (s : pmm) :
  foldl (λ s j, taken (f j) s) s l =
    with_free_pages (free_pages s - Z.of_nat (length l))
      (foldl (λ s j, marked (f j) s) s l).
Proof.
  assert (Hc : ∀ (m : list Z) n (t : pmm),
    foldl (λ s j, marked (f j) s) (with_free_pages n t) m =
    with_free_pages n (foldl (λ s j, marked (f j) s) t m)).
  { induction m as [|j m IH]; intros n t; [done|]. simpl.
    change (marked (f j) (with_free_pages n t))
      with (with_free_pages n (marked (f j) t)). apply IH. }
  revert s. induction l as [|j l IH]; intros s; simpl.
  { rewrite Z.sub_0_r. by destruct s. }
  rewrite IH. simpl.
  change (taken (f j) s)
    with (with_free_pages (free_pages s - 1) (marked (f j) s)).
  rewrite Hc. simpl. unfold with_free_pages. simpl. f_equal. lia.
Qed.

(** Properties of the pages [start + j], [j] in [l], taken one by one. *)
Lemma taken_all_spec d (f : Z → Z) (l : list Z) s :
  pmm_inv d s → NoDup (f <$> l) →
  (∀ j, j ∈ l → is_page s (f j) ∧ used s (f j) = false) →
  let s' := foldl (λ s j, taken (f j) s) s l in
  pmm_inv d s' ∧ total_pages s' = total_pages s ∧ phys_ram s' = phys_ram s ∧
  managed_bitmap s' = managed_bitmap s ∧
  (∀ k, 0 ≤ k → used s' k = bool_decide (k ∈ f <$> l) || used s k) ∧
  (∀ k, is_page s k → refc s' k = if decide (k ∈ f <$> l) then 1 else refc s k).
Proof.
  revert s. induction l as [|j l IH]; intros s Hinv Hnd Hl; simpl.
  { by split_and!. }
  simpl in Hnd. apply NoDup_cons in Hnd as [Hnj Hnd].
  destruct (Hl j) as [Hp Hu]; [by left|].
  destruct (IH (taken (f j) s)) as (IH1&IH2&IH3&IH4&IH5&IH6); [eauto with pmm|done| |].
  { intros k Hk. destruct (Hl k) as [Hpk Huk]; [by right|]. split; [done|].
    rewrite used_taken by (eauto with pmm; apply Hpk).
    rewrite decide_False; [done|]. intros Heq. apply Hnj. rewrite Heq.
    by apply list_elem_of_fmap_2. }
  split_and!; try done.
  - intros k Hk. rewrite IH5, used_taken by (eauto with pmm; done).
    destruct (decide (f j = k)) as [->|Hne].
    + rewrite orb_true_r, bool_decide_eq_true_2; [done|by left].
    + f_equal. apply bool_decide_ext. rewrite elem_of_cons. naive_solver.
  - intros k Hk. rewrite IH6, refc_taken by (eauto with pmm; done).
    destruct (decide (k ∈ f <$> l)).
    + rewrite decide_True; [done|by right].
    + destruct (decide (f j = k)) as [->|Hne].
      * rewrite decide_True; [done|by left].
      * rewrite decide_False; [done|]. by apply not_elem_of_cons.
Qed.

(** ** Dropping a run *)

Lemma dropped_all_spec d (f : Z → Z) (l : list Z) s :
  pmm_inv d s → NoDup (f <$> l) →
  (∀ j, j ∈ l → is_page s (f j) ∧ used s (f j) = true ∧ managed s (f j) = true) →
  let s' := foldl (λ s j, dropped (f j) s) s l in
  for_each l (λ j, drop_ref (f j)) s = Done ((), s') ∧
  pmm_inv d s' ∧ total_pages s' = total_pages s ∧ phys_ram s' = phys_ram s ∧
  (∀ k, managed s' k = managed s k) ∧
  (∀ k, 0 ≤ k → used s' k =
     if decide (k ∈ f <$> l) then 1 <? refc s k else used s k) ∧
  (∀ k, is_page s k → refc s' k =
     if decide (k ∈ f <$> l) then Z.max 0 (refc s k - 1) else refc s k).
Proof.
  revert s. induction l as [|j l IH]; intros s Hinv Hnd Hl; simpl.
  { by split_and!. }
  simpl in Hnd. apply NoDup_cons in Hnd as [Hnj Hnd].
  destruct (Hl j) as (Hp&Hu&Hm); [by left|].
  assert (Hne : ∀ k, k ∈ f <$> l → f j ≠ k) by (by intros k Hk <-).
  destruct (IH (dropped (f j) s)) as (IH0&IH1&IH2&IH3&IH4&IH5&IH6); [eauto with pmm|done| |].
  { intros k Hk. destruct (Hl k) as (Hpk&Huk&Hmk); [by right|].
    pose proof (list_elem_of_fmap_2 f l k Hk) as Hk'.
    split; [unfold is_page; by rewrite total_dropped|].
    rewrite managed_dropped, used_dropped by (eauto with pmm; apply Hpk).
    by rewrite decide_False by eauto. }
  rewrite total_dropped in IH2. rewrite ram_dropped in IH3.
  split_and!; try done.
  - unfold mbind, prog_bind. by rewrite (drop_ref_run d) by eauto with pmm.
  - intros k. by rewrite IH4, managed_dropped.
  - intros k Hk. rewrite IH5, used_dropped by (eauto with pmm; done).
    destruct (decide (k ∈ f <$> l)) as [Hin|Hin].
    + rewrite decide_True by (by right). destruct (decide (is_page s k)) as [Hpk|Hpk].
      * rewrite refc_dropped by eauto with pmm. by rewrite decide_False by eauto.
      * exfalso. apply Hpk. apply list_elem_of_fmap in Hin as (x&->&Hx).
        apply Hl. by right.
    + destruct (decide (f j = k)) as [<-|Hjk].
      * rewrite decide_True by (by left). by rewrite Hu, andb_true_r.
      * by rewrite decide_False by (by apply not_elem_of_cons).
  - intros k Hk. rewrite IH6 by (unfold is_page; by rewrite total_dropped).
    rewrite refc_dropped by eauto with pmm.
    destruct (decide (k ∈ f <$> l)) as [Hin|Hin].
    + rewrite decide_False by eauto. by rewrite decide_True by (by right).
    + destruct (decide (f j = k)) as [<-|Hjk].
      * by rewrite decide_True by (by left).
      * by rewrite decide_False by (by apply not_elem_of_cons).
Qed.

Lemma NoDup_offsets start l : NoDup l → NoDup ((λ j : Z, start + j) <$> l).
Proof. apply NoDup_fmap_2. intros x y. lia. Qed.

Lemma elem_of_offsets start count k :
  k ∈ (λ j : Z, start + j) <$> seqZ 0 count ↔ start ≤ k < start + count.
Proof.
  rewrite list_elem_of_fmap. setoid_rewrite elem_of_seqZ. split.
  - intros (x&->&?). lia.
  - intros ?. exists (k - start). lia.
Qed.

(** ** The search *)

Lemma marks_run d s start count :
  pmm_inv d s → is_page s start → start + count ≤ total_pages s → 0 ≤ count →
  for_each (seqZ 0 count) (λ j,
     page_bitmap_set (start + j);; ref_count_put (start + j) 1) s
  = Done ((), foldl (λ s j, marked (start + j) s) s (seqZ 0 count)).
Proof.
  intros Hinv Hs Hc H0.
  assert (Hgen : ∀ l t, pmm_sized t → total_pages t = total_pages s →
    (∀ j, j ∈ l → is_page s (start + j)) →
    for_each l (λ j, page_bitmap_set (start + j);; ref_count_put (start + j) 1) t
    = Done ((), foldl (λ s j, marked (start + j) s) t l)).
  { induction l as [|j l IH]; intros t Ht Htot Hl; [done|]. simpl.
    assert (is_page t (start + j)) by (unfold is_page; rewrite Htot; apply Hl; by left).
    pmm_exec. rewrite IH; [done| |done|].
    - apply sized_set_ref; [|lia]. eauto with pmm.
    - intros k Hk. apply Hl. by right. }
  apply Hgen; [eauto with pmm|done|].
  intros j Hj%elem_of_seqZ. destruct Hs. unfold is_page. lia.
Qed.

(** Loop invariant of the scan at index [i] with the current run length. *)
Record scan_inv (s : pmm) (count i run_start run_length : Z) : Prop := {
  scan_index : 0 ≤ i ≤ total_pages s;
  scan_length : 0 ≤ run_length < count;
  scan_fits : run_length ≤ i;
  scan_start : run_length ≠ 0 → run_start = i - run_length;
  scan_run : ∀ j, i - run_length ≤ j < i → used s j = false;
  scan_none : ∀ k, 0 ≤ k < i - run_length → ¬ free_run s k count;
}.

(** Claiming a run of free pages: the inner loop and the counter. *)
Lemma claim_run d s start count :
  pmm_inv d s → 0 < count → free_run s start count →
  (for_each (seqZ 0 count) (λ j,
     page_bitmap_set (start + j);; ref_count_put (start + j) 1);;
   add_free_pages (- count);;
   mret (page_addr start)) s
  = Done (start * PMM_PAGE_SIZE, taken_run start count s).
Proof.
  intros Hinv Hc (H0&Hfit&Hfree).
  assert (Hp : is_page s start) by (unfold is_page; lia).
  rewrite (run_bind _ _ _ _ _ (marks_run d s start count Hinv Hp Hfit ltac:(lia))).
  rewrite (page_addr_eq d s) by eauto with pmm.
  destruct (taken_all_spec d (λ j, start + j) (seqZ 0 count) s) as (Hinv'&_).
  { done. }
  { apply NoDup_offsets, NoDup_seqZ. }
  { intros j Hj%elem_of_seqZ. split; [unfold is_page; lia|]. apply Hfree. lia. }
  apply inv_shape, free_pages_range in Hinv'. revert Hinv'.
  unfold taken_run, add_free_pages, modify, mbind, prog_bind, mret, prog_ret.
  rewrite (taken_all_marked _ (λ j, start + j)), length_seqZ. simpl. intros Hr.
  assert (free_pages (foldl (λ s j, marked (start + j) s) s (seqZ 0 count))
          = free_pages s) as ->.
  { generalize (seqZ 0 count). intros l. clear.
    revert s. induction l as [|j l IH]; intros s; [done|]. simpl. by rewrite IH. }
  rewrite Z2Nat.id in * by lia.
  by rewrite Z.add_opp_r, u64_small by lia.
Qed.

Lemma contiguous_scan_step d s count n i rs rl :
  pmm_inv d s → is_page s i →
  contiguous_scan (S n) count i rs rl s =
    if used s i then contiguous_scan n count (i + 1) rs 0 s
    else let rs' := if rl =? 0 then i else rs in
    if rl + 1 =? count then
      (for_each (seqZ 0 count) (λ j,
         page_bitmap_set (rs' + j);; ref_count_put (rs' + j) 1);;
       add_free_pages (- count);;
       mret (page_addr rs')) s
    else contiguous_scan n count (i + 1) rs' (rl + 1) s.
Proof.
  intros Hinv Hi. cbn [contiguous_scan]. unfold mbind at 1, prog_bind at 1.
  rewrite page_available_run by eauto with pmm.
  rewrite (available_free d) by eauto with pmm.
  destruct (used s i); [done|]. simpl. by destruct (rl + 1 =? count).
Qed.

Lemma contiguous_scan_run d s count n i rs rl :
  pmm_inv d s → scan_inv s count i rs rl → i + Z.of_nat n = total_pages s →
  (∃ start, free_run s start count ∧ (∀ k, k < start → ¬ free_run s k count) ∧
     contiguous_scan n count i rs rl s
       = Done (start * PMM_PAGE_SIZE, taken_run start count s)) ∨
  ((∀ k, ¬ free_run s k count) ∧ contiguous_scan n count i rs rl s = Done (0, s)).
Proof.
  intros Hinv. revert i rs rl. induction n as [|n IH]; intros i rs rl Hsc Hn.
  { right. split; [|done]. intros k Hk. destruct Hsc as [????? Hno].
    destruct (decide (k < i - rl)).
    - apply (Hno k); [|done]. destruct Hk. lia.
    - destruct Hk as (?&?&_). lia. }
  assert (Hi : is_page s i) by (destruct Hsc; unfold is_page; lia).
  rewrite (contiguous_scan_step d) by done. destruct (used s i) eqn:Hu.
  - (* the run is broken *)
    apply IH; [|lia]. destruct Hsc as [Hx Hl Hf Hst Hr Hno]. split; try lia.
    intros k Hk Hfr. destruct (decide (k < i - rl)); [by apply (Hno k); [lia|]|].
    destruct Hfr as (_&_&Hfr). rewrite (Hfr i) in Hu by lia. done.
  - set (rs' := if rl =? 0 then i else rs). cbv zeta.
    destruct Hsc as [Hx Hl Hf Hst Hr Hno].
    assert (Hrs : rs' = i - rl).
    { unfold rs'. destruct (Z.eqb_spec rl 0); [lia|]. by apply Hst. }
    assert (Hr' : ∀ j, i - rl ≤ j ≤ i → used s j = false).
    { intros j Hj. destruct (decide (j = i)) as [->|]; [done|apply Hr; lia]. }
    destruct (Z.eqb_spec (rl + 1) count) as [Hc|Hc].
    + assert (free_run s rs' count).
      { split_and!; [lia|lia|]. intros j Hj. apply Hr'. lia. }
      left. exists rs'. split_and!; [done| |by apply (claim_run d); [|lia|]].
      intros k Hk Hfr. apply (Hno k); [|done]. destruct Hfr. lia.
    + apply IH; [|lia]. split; try lia.
      * intros j Hj. apply Hr'. lia.
      * intros k Hk. apply Hno. lia.
Qed.
