(* ===== verification/PmmInit.v ===== *)
(** * [pmm_init]: which pages are free when the allocator starts. *)

From S2P Require Import Prelude Bits Ram Pmm PmmSpec.

(** ** Alignment *)

Lemma align_down_eq v : 0 ≤ v < 2 ^ 64 →
  align_down v PMM_PAGE_SIZE = v / PMM_PAGE_SIZE * PMM_PAGE_SIZE.
Proof. intros. by apply (land_align_mask v 12). Qed.

Lemma align_up_pow2 v k : 0 ≤ k ≤ 52 → 0 ≤ v < 2 ^ 63 →
  align_up v (2 ^ k) = (v + 2 ^ k - 1) / 2 ^ k * 2 ^ k.
Proof.
  intros Hk Hv. unfold align_up.
  assert (1 ≤ 2 ^ k ≤ 2 ^ 52).
  { split; [pose proof (Z.pow_pos_nonneg 2 k); lia|by apply Z.pow_le_mono_r; lia]. }
  rewrite (u64_small (v + 2 ^ k)) by lia. rewrite u64_small by lia.
  apply land_align_mask; lia.
Qed.

Lemma align_up_page v : 0 ≤ v < 2 ^ 63 →
  align_up v PMM_PAGE_SIZE = (v + 4095) / PMM_PAGE_SIZE * PMM_PAGE_SIZE.
Proof.
  intros. change (align_up v PMM_PAGE_SIZE) with (align_up v (2 ^ 12)).
  rewrite align_up_pow2 by lia.
  change (2 ^ 12) with PMM_PAGE_SIZE. do 2 f_equal. unfold PMM_PAGE_SIZE. lia.
Qed.

Lemma align_up_bits v : 0 ≤ v < 2 ^ 63 →
  align_up v BITS_PER_BYTE / BITS_PER_BYTE = (v + 7) / BITS_PER_BYTE.
Proof.
  intros. change (align_up v BITS_PER_BYTE) with (align_up v (2 ^ 3)).
  rewrite align_up_pow2 by lia. change (2 ^ 3) with 8.
  unfold BITS_PER_BYTE. rewrite Z.div_mul by done. f_equal. lia.
Qed.

(** ** Page ranges *)

(** Page [i] lies in the page-aligned byte range [start, end). *)
Definition in_range (start end_ i : Z) : Prop :=
  start ≤ i * PMM_PAGE_SIZE < end_.
#[export] Instance in_range_dec start end_ i : Decision (in_range start end_ i).
Proof. apply _. Defined.

Lemma page_range_index start end_ a :
  page_ok start → a ∈ page_range start end_ →
  page_ok a ∧ start ≤ a < end_.
Proof.
  unfold page_ok, PAGE_SIZE, page_range, page_steps, PMM_PAGE_SIZE.
  rewrite list_elem_of_fmap. intros Hs (k&->&Hk%elem_of_seqZ).
  split; [by rewrite Z.mul_comm, Z.mod_add|].
  destruct (decide (0 ≤ end_ - start + 4096 - 1)).
  - rewrite Z2Nat.id in Hk by (apply Z.div_pos; lia).
    pose proof (Z.mul_div_le (end_ - start + 4096 - 1) 4096). lia.
  - assert ((end_ - start + 4096 - 1) / 4096 ≤ 0)
      by (apply Z.lt_le_incl, Z.div_lt_upper_bound; lia). lia.
Qed.

Lemma page_range_elem start end_ i :
  page_ok start → in_range start end_ i →
  i * PMM_PAGE_SIZE ∈ page_range start end_.
Proof.
  unfold page_ok, PAGE_SIZE, page_range, page_steps, in_range, PMM_PAGE_SIZE.
  intros Hs Hi. apply list_elem_of_fmap. exists (i - start / 4096).
  pose proof (Z.div_mod start 4096). split; [lia|].
  apply elem_of_seqZ.
  pose proof (Z.mul_succ_div_gt (end_ - start + 4096 - 1) 4096).
  rewrite Z2Nat.id by (apply Z.div_pos; lia). lia.
Qed.

Lemma page_ok_index a : page_ok a → a = page_index a * PMM_PAGE_SIZE.
Proof.
  unfold page_ok, page_index, PAGE_SIZE, PMM_PAGE_SIZE. intros.
  rewrite (Z.div_mod a 4096) at 1 by done. lia.
Qed.

Lemma page_ok_mul i : page_ok (i * PMM_PAGE_SIZE).
Proof. apply Z.mod_mul. done. Qed.
Lemma page_index_mul i : page_index (i * PMM_PAGE_SIZE) = i.
Proof. by apply Z.div_mul. Qed.

(** ** Marking single pages *)

Definition freed (i : Z) (s : pmm) : pmm :=
  if (i <? total_pages s) && used s i
  then with_free_pages (free_pages s + 1) (set_used i false (set_managed i true s))
  else s.
Definition resv (i : Z) (s : pmm) : pmm :=
  if i <? total_pages s
  then set_used i true (set_managed i false
         (if used s i then s else with_free_pages (free_pages s - 1) s))
  else s.

Lemma mark_page_free_run d s i : pmm_shape d s → 0 ≤ i →
  mark_page_free i s = Done ((), freed i s).
Proof.
  intros Hd H0. pose proof (free_pages_range d s Hd).
  unfold mark_page_free, freed, mbind at 1, prog_bind at 1, get.
  rewrite Z.leb_antisym. destruct (Z.ltb_spec i (total_pages s)); [|done].
  assert (is_page s i) by (by split). simpl. pmm_exec.
  destruct (used s i); simpl; [|done]. pmm_exec. simpl.
  by rewrite u64_small by lia.
Qed.

Lemma mark_page_reserved_run d s i : pmm_shape d s → 0 ≤ i →
  mark_page_reserved i s = Done ((), resv i s).
Proof.
  intros Hd H0. unfold mark_page_reserved, resv, mbind at 1, prog_bind at 1, get.
  rewrite Z.leb_antisym. destruct (Z.ltb_spec i (total_pages s)); [|done].
  assert (is_page s i) by (by split). simpl. pmm_exec.
  destruct (used s i) eqn:Hu; simpl; pmm_exec; [done|].
  pose proof (free_pages_pos d s i). rewrite u64_small by naive_solver lia. done.
Qed.

(** The parts of the state that marking does not touch. *)
Definition same_frame (s s' : pmm) : Prop :=
  total_pages s' = total_pages s ∧ phys_ram s' = phys_ram s ∧
  page_ref_counts s' = page_ref_counts s ∧
  initialized s' = initialized s ∧
  ap_trampoline_pool s' = ap_trampoline_pool s ∧
  bitmap_phys s' = bitmap_phys s ∧
  bitmap_storage_bytes s' = bitmap_storage_bytes s.
#[export] Instance same_frame_preorder : PreOrder same_frame.
Proof.
  split.
  - intros s. by split_and!.
  - intros s t u (?&?&?&?&?&?&?) (?&?&?&?&?&?&?). split_and!; congruence.
Qed.

Lemma same_frame_freed s i : same_frame s (freed i s).
Proof. unfold freed. by destruct (_ && _). Qed.
Lemma same_frame_resv s i : same_frame s (resv i s).
Proof. unfold resv. by destruct (_ <? _), (used s i). Qed.

Lemma same_frame_page s s' i : same_frame s s' → is_page s' i ↔ is_page s i.
Proof. unfold is_page. by intros (->&_). Qed.

Lemma used_freed s i j : pmm_sized s → 0 ≤ i → is_page s j →
  used (freed i s) j = used s j && negb (bool_decide (i = j)).
Proof.
  intros Hs Hi Hj. unfold freed.
  destruct (Z.ltb_spec i (total_pages s)); simpl.
  - assert (Hp : is_page s i) by by split.
    destruct (used s i) eqn:Hu; simpl.
    + change (used (with_free_pages _ (set_used i false (set_managed i true s))) j)
        with (used (set_used i false s) j).
      rewrite used_set_used by (done || apply Hj).
      destruct (decide (i = j)) as [->|].
      * by rewrite bool_decide_eq_true_2, andb_false_r.
      * by rewrite bool_decide_eq_false_2, andb_true_r.
    + destruct (decide (i = j)) as [->|].
      * by rewrite Hu.
      * by rewrite bool_decide_eq_false_2, andb_true_r.
  - rewrite bool_decide_eq_false_2, andb_true_r; [done|]. destruct Hj. lia.
Qed.

Lemma managed_freed s i j : pmm_sized s → 0 ≤ i → is_page s j →
  managed s j = true → managed (freed i s) j = true.
Proof.
  intros Hs Hi Hj Hm. unfold freed.
  destruct (Z.ltb_spec i (total_pages s)); simpl; [|done].
  destruct (used s i); [|done].
  change (managed (set_managed i true s) j = true).
  rewrite managed_set_managed; [by destruct (decide (i = j))|done|by split|apply Hj].
Qed.

Lemma shape_freed d s i : pmm_shape d s → 0 ≤ i → pmm_shape d (freed i s).
Proof.
  intros Hd Hi. unfold freed. destruct (Z.ltb_spec i (total_pages s)); [|done].
  destruct (used s i) eqn:Hu; [|done]. simpl.
  assert (Hp : is_page s i) by by split.
  pose proof (n_free_set_clear s i (shape_sized _ _ Hd) Hp Hu) as Hn.
  destruct Hd as [Hs Hm Hc Hdr]. split; [eauto with pmm|..|done].
  - intros j Hj. change (used (set_used i false s) j = false →
                         managed (set_managed i true s) j = true).
    rewrite used_set_used, managed_set_managed by (done || apply Hj).
    destruct (decide (i = j)); [done|]. by apply Hm.
  - change (free_pages s + 1 = n_free (set_used i false s) + d). lia.
Qed.

Lemma used_resv s i j : pmm_sized s → 0 ≤ i → is_page s j →
  used (resv i s) j = used s j || bool_decide (i = j).
Proof.
  intros Hs Hi Hj. unfold resv. destruct (Z.ltb_spec i (total_pages s)).
  - transitivity (used (set_used i true s) j); [by destruct (used s i)|].
    rewrite used_set_used; [|done|by split|apply Hj].
    destruct (decide (i = j)) as [->|].
    + by rewrite bool_decide_eq_true_2, orb_true_r.
    + by rewrite bool_decide_eq_false_2, orb_false_r.
  - rewrite bool_decide_eq_false_2, orb_false_r; [done|]. destruct Hj. lia.
Qed.

Lemma managed_resv s i j : pmm_sized s → 0 ≤ i → is_page s j →
  managed (resv i s) j = managed s j && negb (bool_decide (i = j)).
Proof.
  intros Hs Hi Hj. unfold resv. destruct (Z.ltb_spec i (total_pages s)).
  - transitivity (managed (set_managed i false s) j); [by destruct (used s i)|].
    rewrite managed_set_managed; [|done|by split|apply Hj].
    destruct (decide (i = j)) as [->|].
    + by rewrite bool_decide_eq_true_2, andb_false_r.
    + by rewrite bool_decide_eq_false_2, andb_true_r.
  - rewrite bool_decide_eq_false_2, andb_true_r; [done|]. destruct Hj. lia.
Qed.

Lemma shape_resv d s i : pmm_shape d s → 0 ≤ i → pmm_shape d (resv i s).
Proof.
  intros Hd Hi. destruct (decide (is_page s i)) as [Hp|Hp].
  2:{ unfold resv. destruct (Z.ltb_spec i (total_pages s)); [|done].
      exfalso. by apply Hp. }
  pose proof (shape_sized _ _ Hd) as Hs.
  assert (Hsz : pmm_sized (resv i s)).
  { unfold resv. destruct (Z.ltb_spec i (total_pages s)); [|done].
    destruct (used s i); eauto with pmm. }
  destruct Hd as [_ Hm Hc Hdr]. split; [done| | |done].
  - intros j Hj%(same_frame_page _ _ _ (same_frame_resv s i)).
    rewrite used_resv, managed_resv by done.
    destruct (bool_decide (i = j)); simpl; rewrite ?orb_true_r, ?orb_false_r; [done|].
    rewrite andb_true_r. by apply Hm.
  - destruct Hp as [_ Hp]. unfold resv in *. apply Z.ltb_lt in Hp. rewrite Hp in *.
    destruct (used s i) eqn:Hu.
    + change (free_pages s = n_free (set_used i true s) + d). rewrite Hc. f_equal.
      apply count_clear_ext. intros j Hj.
      rewrite used_set_used; [|done|unfold is_page; lia|lia].
      by destruct (decide (i = j)) as [->|].
    + change (free_pages s - 1 = n_free (set_used i true s) + d).
      assert (is_page s i) as Hpi by (unfold is_page; lia).
      pose proof (n_free_set_used s i Hs Hpi Hu). lia.
Qed.

(** ** Marking ranges *)

Definition page_addrs (l : list Z) : Prop := ∀ a, a ∈ l → page_ok a ∧ 0 ≤ a.

Lemma page_addrs_index l a j : page_addrs l → a ∈ l →
  page_index a = j ↔ a = j * PMM_PAGE_SIZE.
Proof.
  intros Hl [Ha _]%Hl. split.
  - intros <-. by apply page_ok_index.
  - intros ->. apply page_index_mul.
Qed.

(** Effect of the release loop on the pages [l]. *)
Definition released_by (d : Z) (l : list Z) (s s' : pmm) : Prop :=
  pmm_shape d s' ∧ same_frame s s' ∧
  (∀ j, is_page s j → used s' j = used s j && negb (bool_decide (j * PMM_PAGE_SIZE ∈ l))) ∧
  (∀ j, is_page s j → managed s j = true → managed s' j = true).

(** Effect of a reservation loop. *)
Definition reserved_by (d : Z) (l : list Z) (s s' : pmm) : Prop :=
  pmm_shape d s' ∧ same_frame s s' ∧
  (∀ j, is_page s j → used s' j = used s j || bool_decide (j * PMM_PAGE_SIZE ∈ l)) ∧
  (∀ j, is_page s j →
     managed s' j = managed s j && negb (bool_decide (j * PMM_PAGE_SIZE ∈ l))).

Lemma bool_decide_app_single (j a : Z) (done : list Z) :
  page_ok a → bool_decide (j * PMM_PAGE_SIZE ∈ done ++ [a]) =
  bool_decide (j * PMM_PAGE_SIZE ∈ done) || bool_decide (page_index a = j).
Proof.
  intros Ha. rewrite <-bool_decide_or. apply bool_decide_ext.
  rewrite elem_of_app, list_elem_of_singleton.
  pose proof (page_ok_index a Ha). unfold PMM_PAGE_SIZE in *.
  split; (intros [?|?]; [by left|right; lia]).
Qed.

Lemma free_loop d l s :
  pmm_shape d s → page_addrs l →
  wp (for_each l (λ addr,
        mark_page_free (page_index addr);;
        modify (λ s, with_usable_pages (usable_pages s +! 1) s)))
     (λ _ s', released_by d l s s') s.
Proof.
  intros Hd Hl. apply (wp_for_each (λ done s', released_by d done s s')); [..|done].
  { split_and!; [done|done| |done]. intros j Hj.
    by rewrite bool_decide_eq_false_2, andb_true_r by apply not_elem_of_nil. }
  intros done a rest t -> (Ht&Hf&Hu&Hm).
  destruct (Hl a) as [Ha Ha0]; [set_solver|].
  assert (0 ≤ page_index a) by by apply Z.div_pos.
  apply wp_bind. eapply wp_of_run; [by eapply mark_page_free_run|].
  apply wp_modify. pose proof (shape_freed d t _ Ht H).
  split_and!.
  - destruct H0 as [? ? ? ?]. split; [|done..]. by apply sized_usable_pages.
  - transitivity t; [done|]. apply same_frame_freed.
  - intros j Hj. pose proof (proj2 (same_frame_page _ _ j Hf) Hj).
    change (used (freed (page_index a) t) j = used s j &&
      negb (bool_decide (j * PMM_PAGE_SIZE ∈ done ++ [a]))).
    rewrite used_freed by eauto with pmm. rewrite Hu by done.
    by rewrite bool_decide_app_single, negb_orb, andb_assoc.
  - intros j Hj Hmj. pose proof (proj2 (same_frame_page _ _ j Hf) Hj).
    apply managed_freed; eauto with pmm.
Qed.

Lemma reserve_loop d l s :
  pmm_shape d s → page_addrs l →
  wp (for_each l (λ addr, mark_page_reserved (page_index addr)))
     (λ _ s', reserved_by d l s s') s.
Proof.
  intros Hd Hl. apply (wp_for_each (λ done s', reserved_by d done s s')); [..|done].
  { split_and!; [done|done|..]; intros j Hj;
      rewrite bool_decide_eq_false_2 by apply not_elem_of_nil.
    - by rewrite orb_false_r.
    - by rewrite andb_true_r. }
  intros done a rest t -> (Ht&Hf&Hu&Hm).
  destruct (Hl a) as [Ha Ha0]; [set_solver|].
  assert (0 ≤ page_index a) by by apply Z.div_pos.
  eapply wp_of_run; [by eapply mark_page_reserved_run|].
  split_and!.
  - by apply shape_resv.
  - transitivity t; [done|]. apply same_frame_resv.
  - intros j Hj. pose proof (proj2 (same_frame_page _ _ j Hf) Hj).
    rewrite used_resv by eauto with pmm. rewrite Hu by done.
    by rewrite bool_decide_app_single, orb_assoc.
  - intros j Hj. pose proof (proj2 (same_frame_page _ _ j Hf) Hj).
    rewrite managed_resv by eauto with pmm. rewrite Hm by done.
    by rewrite bool_decide_app_single, negb_orb, andb_assoc.
Qed.

(** ** Boot information the code relies on *)

(** Physical addresses fit 52 bits, the architectural limit. *)
Definition entry_ok (e : memmap_entry) : Prop :=
  0 ≤ me_base e ∧ 0 ≤ me_length e ∧ me_base e + me_length e ≤ 2 ^ 52.
Record boot_ok (b : boot_info) (mm : list memmap_entry) : Prop := {
  boot_entries : Forall entry_ok mm;
  boot_kernel : 0 ≤ kernel_phys_start b ≤ kernel_phys_end b;
  boot_kernel_end : kernel_phys_end b ≤ 2 ^ 52;
}.

(** Page [i] lies wholly inside a [LIMINE_MEMMAP_USABLE] region. *)
Definition usable_page (mm : list memmap_entry) (i : Z) : Prop :=
  ∃ e, e ∈ mm ∧ me_type e = LIMINE_MEMMAP_USABLE ∧
    me_base e ≤ i * PMM_PAGE_SIZE ∧ (i + 1) * PMM_PAGE_SIZE ≤ me_base e + me_length e.
(** Page [i] meets the byte range [base, base + length). *)
Definition overlaps (base length i : Z) : Prop :=
  base < (i + 1) * PMM_PAGE_SIZE ∧ i * PMM_PAGE_SIZE < base + length.
#[export] Instance overlaps_dec base length i : Decision (overlaps base length i).
Proof. apply _. Defined.

Lemma entry_bounds e : entry_ok e →
  page_ok (entry_start e) ∧ 0 ≤ entry_start e ∧
  (∀ i, in_range (entry_start e) (entry_end e) i ↔
    me_base e ≤ i * PMM_PAGE_SIZE ∧
    (i + 1) * PMM_PAGE_SIZE ≤ me_base e + me_length e).
Proof.
  intros (Hb&Hl&Hs). unfold entry_start, entry_end, in_range.
  rewrite align_up_page by lia. rewrite u64_small by lia.
  rewrite align_down_eq by lia. unfold PMM_MIN_MANAGED_PHYS, PMM_PAGE_SIZE.
  pose proof (Z.div_pos (me_base e + 4095) 4096).
  replace ((me_base e + 4095) / 4096 * 4096 <? 0) with false by lia.
  split_and!; [apply Z.mod_mul; done|lia|]. intros i.
  pose proof (Z.mul_div_le (me_base e + 4095) 4096).
  pose proof (Z.mul_succ_div_gt (me_base e + 4095) 4096).
  pose proof (Z.mul_div_le (me_base e + me_length e) 4096).
  pose proof (Z.mul_succ_div_gt (me_base e + me_length e) 4096). lia.
Qed.

Lemma reserve_range_bounds base length :
  0 ≤ base → 0 ≤ length → base + length ≤ 2 ^ 53 →
  page_ok (align_down base PMM_PAGE_SIZE) ∧
  0 ≤ align_down base PMM_PAGE_SIZE ∧
  (∀ i, in_range (align_down base PMM_PAGE_SIZE)
          (align_up (base +! length) PMM_PAGE_SIZE) i ↔ overlaps base length i).
Proof.
  intros Hb Hl Hs. unfold in_range, overlaps.
  rewrite align_down_eq by lia. rewrite u64_small by lia.
  rewrite align_up_page by lia. unfold PMM_PAGE_SIZE.
  pose proof (Z.div_pos base 4096).
  split_and!; [apply Z.mod_mul; done|lia|]. intros i.
  pose proof (Z.mul_div_le base 4096). pose proof (Z.mul_succ_div_gt base 4096).
  pose proof (Z.mul_div_le (base + length + 4095) 4096).
  pose proof (Z.mul_succ_div_gt (base + length + 4095) 4096). lia.
Qed.

(** ** The three stages of initialisation *)

Lemma release_stage d mm s :
  pmm_shape d s → Forall entry_ok mm →
  wp (release_usable_ranges mm) (λ _ s',
    pmm_shape d s' ∧ same_frame s s' ∧
    (∀ j, is_page s j → used s' j = false ↔ used s j = false ∨ usable_page mm j) ∧
    (∀ j, is_page s j → managed s j = true → managed s' j = true)) s.
Proof.
  intros Hd Hmm.
  apply (wp_for_each (λ done s', pmm_shape d s' ∧ same_frame s s' ∧
    (∀ j, is_page s j → used s' j = false ↔ used s j = false ∨ usable_page done j) ∧
    (∀ j, is_page s j → managed s j = true → managed s' j = true))); [..|done].
  { split_and!; [done..| |done]. intros j _.
    split; [by left|]. intros [?|(e&He&_)]; [done|by apply elem_of_nil in He]. }
  intros done e rest t -> (Ht&Hf&Hu&Hm).
  assert (Hstep : ∀ j, usable_page (done ++ [e]) j ↔
      usable_page done j ∨ usable_page [e] j).
  { intros j. unfold usable_page. setoid_rewrite elem_of_app. naive_solver. }
  destruct (is_usable e) eqn:Hus; unfold is_usable in Hus; simpl.
  2:{ apply bool_decide_eq_false in Hus. apply wp_ret. split_and!; [done..| |done].
      intros j Hj. rewrite Hstep, Hu by done. split; [naive_solver|].
      intros [?|[?|(e'&->%list_elem_of_singleton&?&_)]]; naive_solver. }
  apply bool_decide_eq_true in Hus.
  rewrite Forall_forall in Hmm.
  destruct (entry_bounds e) as (Hs1&Hs2&Hs3); [apply Hmm; set_solver|].
  eapply wp_mono.
  { apply (free_loop d); [done|]. intros a Ha.
    destruct (page_range_index _ _ _ Hs1 Ha). split; [done|lia]. }
  intros [] t' (Ht'&Hf'&Hu'&Hm'). split_and!; [done|by transitivity t|..].
  - intros j Hj. pose proof (proj2 (same_frame_page _ _ j Hf) Hj).
    rewrite Hu', andb_false_iff, negb_false_iff, bool_decide_eq_true, Hstep by done.
    rewrite Hu by done.
    assert (j * PMM_PAGE_SIZE ∈ page_range (entry_start e) (entry_end e) ↔
            usable_page [e] j) as ->; [|tauto].
    transitivity (in_range (entry_start e) (entry_end e) j).
    + split; [|by apply page_range_elem]. intros Hin.
      by destruct (page_range_index _ _ _ Hs1 Hin).
    + rewrite Hs3. unfold usable_page. split.
      * intros ?. exists e. split; [by left|done].
      * by intros (e'&->%list_elem_of_singleton&_&?).
  - intros j Hj Hmj. apply Hm'; [by apply (same_frame_page _ _ j Hf)|]. by apply Hm.
Qed.

Lemma reserve_stage d base length s :
  pmm_shape d s → 0 ≤ base → 0 ≤ length → base + length ≤ 2 ^ 53 →
  wp (reserve_range base length) (λ _ s',
    pmm_shape d s' ∧ same_frame s s' ∧
    (∀ j, is_page s j → used s' j = used s j || bool_decide (overlaps base length j)) ∧
    (∀ j, is_page s j →
       managed s' j = managed s j && negb (bool_decide (overlaps base length j)))) s.
Proof.
  intros Hd Hb Hl Hs. unfold reserve_range.
  destruct (reserve_range_bounds base length) as (H1&H2&H3); [done..|].
  eapply wp_mono.
  { apply (reserve_loop d); [done|]. intros a Ha.
    destruct (page_range_index _ _ _ H1 Ha). split; [done|lia]. }
  intros [] s' (Hs'&Hf&Hu&Hm). simpl in *.
  assert (Heq : ∀ j, bool_decide (j * PMM_PAGE_SIZE ∈ page_range
      (align_down base PMM_PAGE_SIZE) (align_up (base +! length) PMM_PAGE_SIZE))
      = bool_decide (overlaps base length j)).
  { intros j. apply bool_decide_ext. rewrite <-H3. split; [|by apply page_range_elem].
    intros Hin. by destruct (page_range_index _ _ _ H1 Hin). }
  setoid_rewrite Heq in Hu. setoid_rewrite Heq in Hm. by split_and!.
Qed.

(** ** The trampoline pool *)

Definition pool_entries (s : pmm) : list Z :=
  take (Z.to_nat (ap_trampoline_pool_top s)) (ap_trampoline_pool s).

(** State of the pool stage, started from [s0], with capacity [count]. *)
Record pool_inv (count : Z) (s0 s : pmm) : Prop := {
  pool_shape : pmm_shape (ap_trampoline_pool_top s) s;
  pool_top : 0 ≤ ap_trampoline_pool_top s ≤ count;
  pool_cur : ap_trampoline_pool_cur s = 0;
  pool_length : length (ap_trampoline_pool s) = 16%nat;
  pool_total : total_pages s = total_pages s0;
  pool_ram : phys_ram s = phys_ram s0;
  pool_phys : bitmap_phys s = bitmap_phys s0;
  pool_pages : Forall (λ a, page_ok a ∧ 0 ≤ a < 0x100000 ∧
    is_page s0 (page_index a) ∧ used s0 (page_index a) = false) (pool_entries s);
  pool_nodup : NoDup (pool_entries s);
  pool_used : ∀ j, is_page s0 j →
    used s j = used s0 j || bool_decide (j * PMM_PAGE_SIZE ∈ pool_entries s);
  pool_managed : ∀ j, is_page s0 j → managed s j = managed s0 j;
  pool_refs : ∀ j, is_page s0 j → refc s j ≤ Z.max 1 (refc s0 j);
}.

(** Reserving one page for the pool: the counter is not updated. *)
Definition pooled (a : Z) (s : pmm) : pmm :=
  with_pool
    (<[Z.to_nat (ap_trampoline_pool_top s) := a]> (ap_trampoline_pool s))
    (ap_trampoline_pool_top s + 1) (ap_trampoline_pool_cur s)
    (set_ref (page_index a) 1 (set_managed (page_index a) true
      (set_used (page_index a) true s))).

Lemma pool_entries_pooled a s :
  0 ≤ ap_trampoline_pool_top s → ap_trampoline_pool_top s < 16 →
  length (ap_trampoline_pool s) = 16%nat →
  pool_entries (pooled a s) = pool_entries s ++ [a].
Proof.
  intros H0 H16 Hlen. unfold pool_entries, pooled. simpl.
  replace (Z.to_nat (ap_trampoline_pool_top s + 1))
    with (S (Z.to_nat (ap_trampoline_pool_top s))) by lia.
  rewrite (take_S_r _ _ a) by (apply list_lookup_insert_eq; lia).
  by rewrite take_insert_ge by lia.
Qed.

Lemma pool_inv_pooled count s0 s a :
  pool_inv count s0 s → count ≤ TRAMPOLINE_POOL_SIZE →
  ap_trampoline_pool_top s < count →
  page_ok a → 0 ≤ a < 0x100000 → is_page s (page_index a) →
  used s (page_index a) = false → pool_inv count s0 (pooled a s).
Proof.
  intros [Hsh Htop Hcur Hlen Htot Hram Hph Hpg Hnd Hu Hm Hrf] Hcap Hlt Ha Hr Hp Huf.
  unfold TRAMPOLINE_POOL_SIZE in Hcap. set (i := page_index a) in *.
  assert (Hs : pmm_sized s) by eauto with pmm.
  assert (Hp0 : is_page s0 i) by (unfold is_page; by rewrite <-Htot).
  assert (Hent : pool_entries (pooled a s) = pool_entries s ++ [a])
    by (apply pool_entries_pooled; lia).
  assert (Hu0 : used s0 i = false ∧ i * PMM_PAGE_SIZE ∉ pool_entries s).
  { specialize (Hu i Hp0). rewrite Huf in Hu. symmetry in Hu.
    by apply orb_false_iff in Hu as [? ?%bool_decide_eq_false]. }
  assert (Hus : ∀ j, is_page s j → used (pooled a s) j =
      if decide (i = j) then true else used s j).
  { intros j Hj. apply (used_set_used s i j true); [done..|apply Hj]. }
  assert (Hms : ∀ j, is_page s j → managed (pooled a s) j = managed s j).
  { intros j Hj. transitivity (managed (set_managed i true s) j); [done|].
    rewrite managed_set_managed by (done || apply Hj).
    destruct (decide (i = j)) as [<-|]; [|done].
    symmetry. by apply (shape_free_managed _ _ Hsh). }
  assert (Hpi : a = i * PMM_PAGE_SIZE) by by apply page_ok_index.
  split; simpl; rewrite ?Hent; try done.
  - split.
    + apply sized_pool, sized_set_ref; [|lia]. eauto with pmm.
    + intros j Hj. rewrite Hus, Hms by done. destruct (decide (i = j)); [done|].
      by apply (shape_free_managed _ _ Hsh).
    + change (free_pages s = n_free (set_used i true s) + (ap_trampoline_pool_top s + 1)).
      pose proof (n_free_set_used s i Hs Hp Huf).
      pose proof (shape_count _ _ Hsh). lia.
    + pose proof (shape_drift _ _ Hsh). unfold TRAMPOLINE_POOL_SIZE in *. lia.
  - lia.
  - by rewrite length_insert.
  - apply Forall_app; split; [done|]. constructor; [|done].
    exact (conj Ha (conj Hr (conj Hp0 (proj1 Hu0)))).
  - apply NoDup_app. split_and!; [done| |apply NoDup_singleton].
    intros x Hx ->%list_elem_of_singleton. rewrite Hpi in Hx. naive_solver.
  - intros j Hj. assert (is_page s j) by (unfold is_page; by rewrite Htot).
    rewrite Hus, Hu by done. rewrite bool_decide_app_single by done.
    change (page_index a) with i. destruct (decide (i = j)) as [->|].
    + by rewrite (bool_decide_eq_true_2 (j = j)), !orb_true_r.
    + by rewrite (bool_decide_eq_false_2 (i = j)), orb_false_r.
  - intros j Hj. rewrite Hms; [by apply Hm|]. unfold is_page. by rewrite Htot.
  - intros j Hj. assert (is_page s j) by (unfold is_page; by rewrite Htot).
    change (refc (set_ref i 1 s) j ≤ Z.max 1 (refc s0 j)).
    rewrite refc_set_ref by done. specialize (Hrf j Hj).
    destruct (decide (i = j)); lia.
Qed.

Lemma reserve_trampoline_at_run count s0 s a :
  pool_inv count s0 s → count ≤ TRAMPOLINE_POOL_SIZE → page_ok a → 0 ≤ a →
  reserve_trampoline_at count a s =
    if count <=? ap_trampoline_pool_top s then Done (Some (), s)
    else if total_pages s <=? page_index a then Done (Some (), s)
    else if used s (page_index a) then Done (None, s)
    else Done (None, pooled a s).
Proof.
  intros Hp Hc Ha H0. unfold reserve_trampoline_at, mbind at 1, prog_bind at 1, get.
  destruct (count <=? _) eqn:Hcnt; [done|]. change (a / PMM_PAGE_SIZE) with (page_index a).
  destruct (Z.leb_spec (total_pages s) (page_index a)) as [|Hlt]; [done|].
  assert (is_page s (page_index a)) by (split; [by apply Z.div_pos|done]).
  pose proof (pool_shape _ _ _ Hp). pmm_exec.
  destruct (used s (page_index a)); [done|].
  assert (pmm_sized (set_managed (page_index a) true (set_used (page_index a) true s)))
    by eauto with pmm.
  pmm_exec. unfold pool_push, mbind, prog_bind, get. simpl.
  destruct (lookup_lt_is_Some_2 (ap_trampoline_pool s)
              (Z.to_nat (ap_trampoline_pool_top s))) as [x ->]; [|done].
  destruct Hp. unfold TRAMPOLINE_POOL_SIZE in Hc. lia.
Qed.

Lemma trampoline_stage b mm count s0 :
  pmm_shape 0 s0 → memmap_response b = Some mm → Forall entry_ok mm →
  length (ap_trampoline_pool s0) = 16%nat → 0 ≤ count ≤ TRAMPOLINE_POOL_SIZE →
  wp (pmm_reserve_trampoline_pages b count) (λ _ s, pool_inv count s0 s) s0.
Proof.
  intros Hs0 Hmm Hok Hlen Hc. unfold pmm_reserve_trampoline_pages.
  apply wp_bind, wp_modify. rewrite Hmm.
  replace (TRAMPOLINE_POOL_SIZE <? count) with false by lia.
  apply (wp_for_each (λ _ s, pool_inv count s0 s)); [..|done].
  { split; simpl; try done; [|lia|apply NoDup_nil_2| |].
    - destruct Hs0. split; [|done..]. by apply sized_pool.
    - intros j Hj. unfold pool_entries. simpl. by rewrite orb_false_r.
    - intros j Hj. apply Z.le_max_r. }
  intros done e rest s -> Hp. unfold reserve_trampoline_entry.
  apply wp_bind, wp_get. destruct (count <=? _); [by apply wp_ret|].
  destruct (is_usable e); simpl; [|by apply wp_ret].
  rewrite Forall_forall in Hok.
  destruct (Hok e) as (Hb&Hl&Hbl); [set_solver|].
  rewrite align_up_page by lia. unfold PMM_PAGE_SIZE.
  pose proof (Z.div_pos (me_base e + 4095) 4096).
  set (base := (me_base e + 4095) / 4096 * 4096).
  assert (Hbase : page_ok base) by by apply Z.mod_mul.
  set (end_ := if 0x100000 <? _ then _ else _).
  assert (Hend : end_ ≤ 0x100000)
    by (unfold end_; destruct (Z.ltb_spec 0x100000
          (align_down (me_base e +! me_length e) 4096)); lia).
  destruct (end_ <=? base); [by apply wp_ret|].
  apply wp_bind. apply (wp_for_until (λ _ s, pool_inv count s0 s)); [done|..].
  2:{ intros. by apply wp_ret. }
  intros k t Hk Ht.
  assert (Ha : base + k * 4096 ∈ page_range base end_).
  { unfold page_range. apply list_elem_of_fmap. exists k.
    split; [unfold PMM_PAGE_SIZE; lia|]. apply elem_of_seqZ. lia. }
  destruct (page_range_index _ _ _ Hbase Ha) as [Hak Hr].
  set (a := base + k * 4096) in *.
  assert (0 ≤ a) by lia.
  unfold wp at 1. rewrite (reserve_trampoline_at_run count s0) by (done || apply Hc).
  destruct (Z.leb_spec count (ap_trampoline_pool_top t)); [by apply wp_ret|].
  destruct (Z.leb_spec (total_pages t) (page_index a)); [by apply wp_ret|].
  destruct (used t (page_index a)) eqn:Hu; [done|].
  apply pool_inv_pooled; [done|apply Hc|done..|lia| |done].
  split; [by apply Z.div_pos|done].
Qed.

(** ** Sizes computed by [pmm_init] *)

Lemma find_max_bound mm : Forall entry_ok mm →
  0 ≤ find_max_usable_physical_address mm ≤ 2 ^ 52.
Proof.
  unfold find_max_usable_physical_address. intros Hmm.
  assert (Hgen : ∀ m, 0 ≤ m ≤ 2 ^ 52 → 0 ≤ foldl (λ max_addr entry,
    if negb (is_usable entry) then max_addr else
    let end_ := me_base entry +! me_length entry in
    if max_addr <? end_ then end_ else max_addr) m mm ≤ 2 ^ 52); [|by apply Hgen].
  induction Hmm as [|e mm (Hb&Hl&Hs) Hmm IH]; intros m Hm; [done|]. simpl.
  apply IH. destruct (is_usable e); simpl; [|done].
  rewrite u64_small by lia. destruct (Z.ltb_spec m (me_base e + me_length e)); lia.
Qed.

(** Every usable region ends at or below the maximum. *)
Lemma find_max_upper mm e : Forall entry_ok mm → e ∈ mm →
  me_type e = LIMINE_MEMMAP_USABLE →
  me_base e + me_length e ≤ find_max_usable_physical_address mm.
Proof.
  unfold find_max_usable_physical_address. intros Hmm He Hty.
  set (f := λ (max_addr : Z) (entry : memmap_entry), _).
  assert (Hmono : ∀ l m, Forall entry_ok l → m ≤ foldl f m l).
  { induction l as [|e' l IH]; intros m Hl; [done|]. simpl.
    apply Forall_cons in Hl as [(Hb&Hl'&Hs) Hl].
    transitivity (f m e'); [|by apply IH]. unfold f.
    destruct (is_usable e'); simpl; [|done]. rewrite u64_small by lia.
    destruct (Z.ltb_spec m (me_base e' + me_length e')); lia. }
  revert Hmm. generalize 0. induction mm as [|e' mm IH]; intros m Hmm.
  { by apply elem_of_nil in He. }
  apply Forall_cons in Hmm as [(Hb&Hl&Hs) Hmm]. simpl.
  apply elem_of_cons in He as [<-|He]; [|by apply IH].
  etransitivity; [|by apply Hmono]. unfold f, is_usable.
  rewrite bool_decide_eq_true_2 by done. simpl. rewrite u64_small by lia.
  destruct (Z.ltb_spec m (me_base e + me_length e)); lia.
Qed.

Record storage_ok (b : boot_info) (mm : list memmap_entry) (needed phys : Z) : Prop := {
  storage_aligned : page_ok phys;
  storage_usable : ∃ e, e ∈ mm ∧ me_type e = LIMINE_MEMMAP_USABLE ∧
    me_base e ≤ phys ∧ phys + needed ≤ me_base e + me_length e;
  storage_kernel : kernel_phys_end b ≤ phys ∨ phys + needed ≤ kernel_phys_start b;
}.

Lemma find_bitmap_storage_ok b mm needed phys :
  boot_ok b mm → 0 ≤ needed →
  find_bitmap_storage b needed mm = Some phys → storage_ok b mm needed phys.
Proof.
  intros [Hmm Hk Hke] Hn. induction Hmm as [|e mm (Hb&Hl&Hs) Hmm IH]; [done|]. simpl.
  assert (Hrec : find_bitmap_storage b needed mm = Some phys →
      storage_ok b (e :: mm) needed phys).
  { intros [? (e'&?&?) ?]%IH. split; [done| |done]. exists e'. split; [by right|done]. }
  destruct (is_usable e) eqn:Hus; simpl; [|done].
  apply bool_decide_eq_true in Hus.
  rewrite u64_small by lia. rewrite !align_up_page, align_down_eq by lia.
  unfold PMM_MIN_MANAGED_PHYS, PMM_PAGE_SIZE.
  pose proof (Z.div_pos (me_base e + 4095) 4096).
  replace (_ <? 0) with false by lia.
  pose proof (Z.mul_div_le (me_base e + me_length e) 4096).
  pose proof (Z.mul_succ_div_gt (me_base e + 4095) 4096).
  pose proof (Z.mul_succ_div_gt (kernel_phys_end b + 4095) 4096).
  set (en := (me_base e + me_length e) / 4096 * 4096) in *.
  destruct (Z.ltb_spec ((me_base e + 4095) / 4096 * 4096) (kernel_phys_end b)),
    (Z.ltb_spec (kernel_phys_start b) en); simpl;
  match goal with |- context [?s <? en] => set (st := s) in * end;
  (destruct (Z.ltb_spec st en); simpl; [|done]);
  (destruct (Z.leb_spec needed (en - st)); [|done]);
  intros [= <-]; (split; [by apply Z.mod_mul| |unfold st in *; lia]);
  exists e; (split; [by left|]); unfold st in *; split_and!; (done || lia).
Qed.

(** The state just after the two [memset]s has every page in use. *)
Lemma shape_reset total storage phys s :
  0 ≤ total ≤ 2 ^ 40 →
  let s' := pmm_reset total ((total + 7) / BITS_PER_BYTE) storage phys s in
  pmm_shape 0 s' ∧
  ∀ i, is_page s' i → used s' i = true ∧ managed s' i = true ∧ refc s' i = 0.
Proof.
  intros Ht. set (bytes := (total + 7) / BITS_PER_BYTE). intros s'.
  assert (Hbytes : total ≤ BITS_PER_BYTE * bytes ∧ 0 ≤ bytes).
  { unfold bytes, BITS_PER_BYTE. pose proof (Z.mul_succ_div_gt (total + 7) 8).
    pose proof (Z.div_pos (total + 7) 8). lia. }
  assert (Hsz : pmm_sized s').
  { unfold BITS_PER_BYTE in Hbytes.
    split; simpl; rewrite ?length_replicate; unfold BITS_PER_BYTE; try lia;
      by apply Forall_replicate. }
  assert (Hall : ∀ i, is_page s' i → used s' i = true ∧ managed s' i = true).
  { intros i Hi. unfold used, managed, bit. simpl.
    pose proof (in_bitmap_byte _ i (sized_in_used _ i Hsz Hi)) as [Hk Hm].
    simpl in Hk. rewrite length_replicate in Hk.
    rewrite lookup_total_replicate_2 by done.
    split; apply (Z.ones_spec_low 8); done. }
  split; [split|]; [done|..|done|].
  - intros i Hi Hu. by destruct (Hall i Hi) as [? _]; congruence.
  - simpl. unfold n_free. rewrite (count_clear_ext _ (λ _, true)).
    + unfold count_clear. generalize (seqZ 0 (total_pages s')) as l.
      induction l as [|x l IH]; [done|]. by rewrite filter_cons, decide_False.
    + intros i Hi. by apply Hall.
  - intros i Hi. destruct (Hall i Hi). split_and!; [done..|].
    unfold refc. simpl. apply lookup_total_replicate_2.
    destruct Hi. simpl in *. lia.
Qed.

(** ** The state after [pmm_init] *)

Definition mm_pages (mm : list memmap_entry) : Z :=
  (find_max_usable_physical_address mm + 4095) / PMM_PAGE_SIZE.
Definition mm_storage (mm : list memmap_entry) : Z :=
  2 * ((mm_pages mm + 7) / BITS_PER_BYTE) + 2 * mm_pages mm.

(** Page [i] holds page 0, the bitmaps or the kernel image. *)
Definition boot_reserved (b : boot_info) (storage phys i : Z) : Prop :=
  overlaps 0 PMM_PAGE_SIZE i ∨
  overlaps phys (align_up storage PMM_PAGE_SIZE) i ∨
  overlaps (kernel_phys_start b) (kernel_phys_end b - kernel_phys_start b) i.

Record booted (b : boot_info) (mm : list memmap_entry) (phys : Z) (r : ram)
    (s : pmm) : Prop := {
  booted_inv : pmm_inv (ap_trampoline_pool_top s) s;
  booted_total : total_pages s = mm_pages mm;
  booted_phys : bitmap_phys s = phys;
  booted_ram : phys_ram s = r;
  booted_free : ∀ i, is_page s i → used s i = false ↔
    usable_page mm i ∧ ¬ boot_reserved b (mm_storage mm) phys i ∧
    i * PMM_PAGE_SIZE ∉ pool_entries s;
  booted_reserved : ∀ i, is_page s i → boot_reserved b (mm_storage mm) phys i →
    reserved s i;
  booted_pool : Forall (λ a, page_ok a ∧ 0 < a < 0x100000 ∧
    is_page s (page_index a) ∧ used s (page_index a) = true ∧
    usable_page mm (page_index a)) (pool_entries s);
  booted_pool_nodup : NoDup (pool_entries s);
  booted_pool_cur : ap_trampoline_pool_cur s = 0;
  booted_managed : ∀ i, is_page s i →
    ¬ boot_reserved b (mm_storage mm) phys i → managed s i = true;
  booted_refs : ∀ i, is_page s i → refc s i ≤ 1;
}.

Lemma mm_pages_bound mm : Forall entry_ok mm → 0 ≤ mm_pages mm ≤ 2 ^ 40.
Proof.
  intros Hmm%find_max_bound. unfold mm_pages, PMM_PAGE_SIZE.
  pose proof (Z.div_pos (find_max_usable_physical_address mm + 4095) 4096).
  pose proof (Z.mul_div_le (find_max_usable_physical_address mm + 4095) 4096). lia.
Qed.

Lemma mm_storage_bound mm : Forall entry_ok mm → 0 ≤ mm_storage mm ≤ 2 ^ 43.
Proof.
  intros Hmm%mm_pages_bound. unfold mm_storage, BITS_PER_BYTE.
  pose proof (Z.div_pos (mm_pages mm + 7) 8).
  pose proof (Z.mul_div_le (mm_pages mm + 7) 8). lia.
Qed.

Lemma align_storage_bound mm : Forall entry_ok mm →
  0 ≤ align_up (mm_storage mm) PMM_PAGE_SIZE ≤ 2 ^ 44.
Proof.
  intros Hmm%mm_storage_bound. rewrite align_up_page by lia.
  unfold PMM_PAGE_SIZE. pose proof (Z.div_pos (mm_storage mm + 4095) 4096).
  pose proof (Z.mul_div_le (mm_storage mm + 4095) 4096). lia.
Qed.

(** [pmm_init] unfolded to its stages. *)
Lemma pmm_init_stages b mm off s phys :
  Forall entry_ok mm → off ≠ 0 →
  find_bitmap_storage b (align_up (mm_storage mm) PMM_PAGE_SIZE) mm = Some phys →
  pmm_init b (Some mm) off s =
   (release_usable_ranges mm;;
    reserve_range 0 PMM_PAGE_SIZE;;
    reserve_range phys (align_up (mm_storage mm) PMM_PAGE_SIZE);;
    reserve_range (kernel_phys_start b) (kernel_phys_end b -! kernel_phys_start b);;
    pmm_reserve_trampoline_pages b 4;;
    modify (with_initialized true))
   (pmm_reset (mm_pages mm) ((mm_pages mm + 7) / BITS_PER_BYTE)
      (mm_storage mm) phys s).
Proof.
  intros Hmm Hoff Hst. pose proof (mm_pages_bound mm Hmm) as Hp.
  pose proof (mm_storage_bound mm Hmm) as Hsb.
  pose proof (find_max_bound mm Hmm).
  unfold pmm_init. destruct (Z.eqb_spec off 0); [done|]. cbv zeta.
  assert (align_up (find_max_usable_physical_address mm) PMM_PAGE_SIZE
            / PMM_PAGE_SIZE = mm_pages mm) as ->.
  { rewrite align_up_page by lia. by apply Z.div_mul. }
  rewrite align_up_bits by lia.
  set (bytes := (mm_pages mm + 7) / BITS_PER_BYTE) in *.
  assert (0 ≤ bytes ≤ mm_storage mm).
  { unfold mm_storage. fold bytes.
    assert (0 ≤ bytes) by (apply Z.div_pos; [lia|done]). lia. }
  rewrite (u64_small (mm_pages mm * 2)) by lia.
  rewrite (u64_small (bytes * 2)) by lia.
  replace (bytes * 2 + mm_pages mm * 2) with (mm_storage mm)
    by (unfold mm_storage; fold bytes; lia).
  rewrite (u64_small (mm_storage mm)) by lia. rewrite Hst. done.
Qed.

(** The state [s4] after the usable regions were released and the three
    ranges reserved, started from the reset state [s0]. *)
Record staged (b : boot_info) (mm : list memmap_entry) (phys : Z)
    (s0 s4 : pmm) : Prop := {
  staged_shape : pmm_shape 0 s4;
  staged_frame : same_frame s0 s4;
  staged_free : ∀ i, is_page s0 i → used s4 i = false ↔
    usable_page mm i ∧ ¬ boot_reserved b (mm_storage mm) phys i;
  staged_reserved : ∀ i, is_page s0 i →
    boot_reserved b (mm_storage mm) phys i → reserved s4 i;
  staged_managed : ∀ i, is_page s0 i →
    ¬ boot_reserved b (mm_storage mm) phys i → managed s4 i = true;
  staged_refs : ∀ i, is_page s0 i → refc s4 i = 0;
}.

Lemma wp_boot_stages b mm phys s0 (k : prog pmm unit) Q :
  boot_ok b mm → 0 ≤ phys → phys + align_up (mm_storage mm) PMM_PAGE_SIZE ≤ 2 ^ 52 →
  pmm_shape 0 s0 →
  (∀ i, is_page s0 i → used s0 i = true ∧ managed s0 i = true ∧ refc s0 i = 0) →
  (∀ s4, staged b mm phys s0 s4 → wp k Q s4) →
  wp (release_usable_ranges mm;;
      reserve_range 0 PMM_PAGE_SIZE;;
      reserve_range phys (align_up (mm_storage mm) PMM_PAGE_SIZE);;
      reserve_range (kernel_phys_start b) (kernel_phys_end b -! kernel_phys_start b);;
      k) Q s0.
Proof.
  intros [Hmm Hk Hke] Hp0 Hpe Hs0 Hall Hcont.
  pose proof (align_storage_bound mm Hmm) as Hab.
  apply wp_bind. eapply wp_mono; [by apply release_stage|].
  intros [] s1 (Hs1&Hf1&Hu1&Hm1).
  apply wp_bind. eapply wp_mono; [by apply reserve_stage|].
  intros [] s2 (Hs2&Hf2&Hu2&Hm2).
  apply wp_bind. eapply wp_mono; [apply reserve_stage; [done|lia..]|].
  intros [] s3 (Hs3&Hf3&Hu3&Hm3).
  apply wp_bind. rewrite (u64_small (_ - kernel_phys_start b)) by lia.
  eapply wp_mono; [apply reserve_stage; [done|lia..]|].
  intros [] s4 (Hs4&Hf4&Hu4&Hm4). apply Hcont.
  enough (Hview : ∀ i, is_page s0 i →
    (used s4 i = false ↔ usable_page mm i ∧
       ¬ boot_reserved b (mm_storage mm) phys i) ∧
    (boot_reserved b (mm_storage mm) phys i → reserved s4 i) ∧
    (¬ boot_reserved b (mm_storage mm) phys i → managed s4 i = true)).
  { assert (Hf : same_frame s0 s4)
      by (transitivity s3; [transitivity s2; [transitivity s1|]|]; done).
    split; [done|done|apply Hview..|]. intros i Hi. unfold refc.
    destruct Hf as (_&_&->&_). by apply Hall. }
  intros i Hi. pose proof (proj2 (same_frame_page _ _ i Hf1) Hi) as Hi1.
  pose proof (proj2 (same_frame_page _ _ i Hf2) Hi1) as Hi2.
  pose proof (proj2 (same_frame_page _ _ i Hf3) Hi2) as Hi3.
  destruct (Hall i Hi) as (Hu0&Hm0&_). unfold reserved, boot_reserved.
  rewrite Hu4, Hu3, Hu2, Hm4, Hm3, Hm2, (Hm1 i Hi Hm0) by done.
  rewrite !orb_false_iff, !bool_decide_eq_false, Hu1, Hu0 by done.
  rewrite !orb_true_iff, !bool_decide_eq_true, !andb_false_iff, !andb_true_iff,
    !negb_false_iff, !negb_true_iff, !bool_decide_eq_true, !bool_decide_eq_false.
  naive_solver.
Qed.

(** The pool stage on top of [staged]. *)
Lemma booted_of_pool b mm phys s s4 s5 :
  let s0 := pmm_reset (mm_pages mm) ((mm_pages mm + 7) / BITS_PER_BYTE)
              (mm_storage mm) phys s in
  staged b mm phys s0 s4 → pool_inv 4 s4 s5 →
  booted b mm phys (phys_ram s) (with_initialized true s5).
Proof.
  intros s0 [_ Hf Hfree Hres Hman Href] Hp.
  assert (Hpg : ∀ i, is_page s5 i ↔ is_page s0 i).
  { intros i. unfold is_page. rewrite (pool_total _ _ _ Hp). by destruct Hf as (->&_). }
  assert (Hu5 : ∀ i, is_page s5 i → used s5 i =
      used s4 i || bool_decide (i * PMM_PAGE_SIZE ∈ pool_entries s5)).
  { intros i Hi. apply (pool_used _ _ _ Hp). by apply (same_frame_page s0 s4 i Hf), Hpg. }
  assert (Hm5 : ∀ i, is_page s5 i → managed s5 i = managed s4 i).
  { intros i Hi. apply (pool_managed _ _ _ Hp).
    by apply (same_frame_page s0 s4 i Hf), Hpg. }
  assert (Hres5 : ∀ i, is_page s5 i → boot_reserved b (mm_storage mm) phys i →
      reserved s5 i).
  { intros i Hi Hr. destruct (Hres i (proj1 (Hpg i) Hi) Hr) as [Hvu Hvm].
    split; [|by rewrite Hm5]. by rewrite Hu5, Hvu. }
  assert (H0res : boot_reserved b (mm_storage mm) phys 0)
    by (left; unfold overlaps, PMM_PAGE_SIZE; lia).
  split; simpl; try done.
  - split; [|by intros; apply Hres5|done].
    destruct (pool_shape _ _ _ Hp) as [? ? ? ?]. split; [by apply sized_initialized|done..].
  - rewrite (pool_total _ _ _ Hp). by destruct Hf as (->&_).
  - rewrite (pool_phys _ _ _ Hp). by destruct Hf as (_&_&_&_&_&->&_).
  - rewrite (pool_ram _ _ _ Hp). by destruct Hf as (_&->&_).
  - intros i Hi. change (used s5 i = false ↔ usable_page mm i ∧
      ¬ boot_reserved b (mm_storage mm) phys i ∧
      i * PMM_PAGE_SIZE ∉ pool_entries s5).
    rewrite Hu5, orb_false_iff, bool_decide_eq_false, Hfree by (done || by apply Hpg).
    tauto.
  - apply Forall_forall. intros a Ha.
    destruct (proj1 (Forall_forall _ _) (pool_pages _ _ _ Hp) a Ha)
      as (Hpa&Hra&Hia&Hua).
    apply (same_frame_page s0 s4 _ Hf) in Hia.
    apply Hfree in Hua as [Hus Hnr]; [|done].
    pose proof (page_ok_index a Hpa) as Haeq.
    assert (a ≠ 0) by (intros ->; by apply Hnr).
    split; [done|]. split; [lia|]. split; [by apply Hpg|]. split; [|done].
    change (used s5 (page_index a) = true). rewrite Hu5 by by apply Hpg.
    rewrite <-Haeq, bool_decide_eq_true_2 by done. by rewrite orb_true_r.
  - exact (pool_nodup _ _ _ Hp).
  - exact (pool_cur _ _ _ Hp).
  - intros i Hi Hnr. change (managed s5 i = true). rewrite Hm5 by done.
    by apply Hman; [apply Hpg|].
  - intros i Hi%Hpg. pose proof (pool_refs _ _ _ Hp i) as Hr.
    rewrite Href in Hr by done.
    apply Hr. by apply (same_frame_page s0 s4 i Hf).
Qed.

Lemma pmm_init_booted b mm off s phys :
  boot_ok b mm → memmap_response b = Some mm → off ≠ 0 →
  find_bitmap_storage b (align_up (mm_storage mm) PMM_PAGE_SIZE) mm = Some phys →
  length (ap_trampoline_pool s) = 16%nat →
  wp (pmm_init b (Some mm) off) (λ _ s', booted b mm phys (phys_ram s) s') s.
Proof.
  intros Hboot Hresp Hoff Hst Hpool. pose proof Hboot as [Hmm _ _].
  pose proof (align_storage_bound mm Hmm) as Hab.
  destruct (find_bitmap_storage_ok _ _ _ _ Hboot (proj1 Hab) Hst)
    as [_ (e&He&_&Hpe&Hpe') _].
  destruct (proj1 (Forall_forall _ _) Hmm e He) as (Hb&Hl&Hbl).
  unfold wp. rewrite (pmm_init_stages b mm off s phys) by done.
  match goal with |- match ?m ?t with _ => _ end => change (wp m (λ _ s',
    booted b mm phys (phys_ram s) s') t) end.
  destruct (shape_reset (mm_pages mm) (mm_storage mm) phys s
              (mm_pages_bound mm Hmm)) as [Hs0 Hall].
  apply wp_boot_stages; [done|lia|lia|done|done|].
  intros s4 Hst4. apply wp_bind. eapply wp_mono.
  { apply (trampoline_stage b mm 4 s4); [by eapply staged_shape|done..| |done].
    by destruct (staged_frame _ _ _ _ _ Hst4) as (_&_&_&_&->&_). }
  intros [] s5 Hp. apply wp_modify. by eapply booted_of_pool.
Qed.
