(* ===== verification/PmmProps.v ===== *)
(** * Properties of the page allocator. *)

From S2P Require Import Prelude Bits Ram Pmm PmmSpec PmmContig PmmInit.

(** ** Operation sequences *)

(** The calls the rest of the kernel makes after boot. *)
Inductive pmm_op :=
| OpAlloc
| OpAllocBelow (max_addr : Z)
| OpAllocContiguous (count : Z)
| OpTrampoline (max_addr : Z)
| OpFree (page : Z)
| OpFreeContiguous (base count : Z)
| OpRef (page : Z).

(** Arguments are [uint64_t]. *)
Definition op_ok (op : pmm_op) : Prop :=
  match op with
  | OpAlloc => True
  | OpAllocBelow a => 0 ≤ a < 2 ^ 64 - PMM_PAGE_SIZE
  | OpAllocContiguous n => 0 ≤ n < 2 ^ 64
  | OpTrampoline a => 0 ≤ a < 2 ^ 64
  | OpFree p | OpRef p => 0 ≤ p < 2 ^ 64
  | OpFreeContiguous p n => 0 ≤ p < 2 ^ 64 ∧ 0 ≤ n < 2 ^ 64
  end.

Definition run_op (b : boot_info) (op : pmm_op) : prog pmm Z :=
  match op with
  | OpAlloc => pmm_alloc_page b
  | OpAllocBelow a => pmm_alloc_page_below a
  | OpAllocContiguous n => pmm_alloc_pages_contiguous n
  | OpTrampoline a => pmm_alloc_trampoline_page a
  | OpFree p => pmm_free_page p;; mret 0
  | OpFreeContiguous p n => pmm_free_pages_contiguous p n;; mret 0
  | OpRef p => pmm_ref_page p;; mret 0
  end.


(** What every call keeps. *)
Definition keeps (d : Z) (s s' : pmm) : Prop :=
  pmm_inv d s' ∧ total_pages s' = total_pages s ∧
  ∀ i, is_page s i → reserved s i → reserved s' i.

Lemma keeps_refl d s : pmm_inv d s → keeps d s s.
Proof. by intros. Qed.

Lemma keeps_taken d s i : pmm_inv d s → is_page s i → used s i = false →
  keeps d s (taken i s).
Proof.
  intros Hi Hp Hu. split; [eauto with pmm|]. split; [done|].
  intros j Hj [Hju Hjm]. split; [|done].
  rewrite used_taken by (eauto with pmm; apply Hj). by destruct (decide (i = j)).
Qed.

Lemma keeps_allocated d s i : pmm_inv d s → is_page s i → used s i = false →
  keeps d s (allocated i s).
Proof.
  intros Hi Hp Hu. destruct (keeps_taken d s i Hi Hp Hu) as (_&_&Hk).
  split; [eauto with pmm|]. by split.
Qed.

Lemma keeps_dropped_all d s s' (l : list Z) :
  pmm_inv d s' → total_pages s' = total_pages s →
  (∀ k, managed s' k = managed s k) →
  (∀ k, k ∈ l → managed s k = true) →
  (∀ k, 0 ≤ k → used s' k = if decide (k ∈ l) then 1 <? refc s k else used s k) →
  keeps d s s'.
Proof.
  intros Hi Ht Hm Hl Hu. split; [done|]. split; [done|].
  intros i Hp [Hiu Him]. split; [|by rewrite Hm].
  rewrite Hu by apply Hp. rewrite decide_False; [done|].
  intros Hin%Hl. congruence.
Qed.

Lemma free_run_taken d s start count :
  pmm_inv d s → 0 ≤ count → free_run s start count →
  pmm_inv d (taken_run start count s) ∧
  total_pages (taken_run start count s) = total_pages s ∧
  phys_ram (taken_run start count s) = phys_ram s ∧
  (∀ k, managed (taken_run start count s) k = managed s k) ∧
  (∀ k, 0 ≤ k → used (taken_run start count s) k =
     bool_decide (start ≤ k < start + count) || used s k) ∧
  (∀ k, is_page s k → refc (taken_run start count s) k =
     if decide (start ≤ k < start + count) then 1 else refc s k).
Proof.
  intros Hi Hc (H0&H1&Hfr).
  destruct (taken_all_spec d (λ j, start + j) (seqZ 0 count) s)
    as (E1&E2&E3&E4&E5&E6).
  { done. }
  { apply NoDup_offsets, NoDup_seqZ. }
  { intros j Hj%elem_of_seqZ. split; [unfold is_page; lia|apply Hfr; lia]. }
  assert (Hin : ∀ k, k ∈ (λ j, start + j) <$> seqZ 0 count ↔ start ≤ k < start + count).
  { intros k. rewrite list_elem_of_fmap. setoid_rewrite elem_of_seqZ. split.
    - intros (j&->&?). lia.
    - intros ?. exists (k - start). lia. }
  unfold taken_run. split_and!; [done..| | |].
  - intros k. unfold managed. by rewrite E4.
  - intros k Hk. rewrite E5 by done. f_equal. by apply bool_decide_ext.
  - intros k Hk. rewrite E6 by done. by apply decide_ext.
Qed.

Lemma alloc_contiguous_run d s count :
  pmm_inv d s → 0 < count →
  (∃ start, free_run s start count ∧ (∀ k, k < start → ¬ free_run s k count) ∧
     pmm_alloc_pages_contiguous count s
       = Done (start * PMM_PAGE_SIZE, taken_run start count s)) ∨
  ((∀ k, ¬ free_run s k count) ∧ pmm_alloc_pages_contiguous count s = Done (0, s)).
Proof.
  intros Hi Hc. unfold pmm_alloc_pages_contiguous, mbind, prog_bind, get.
  rewrite (inv_init _ _ Hi). simpl.
  destruct (_ || _) eqn:E.
  { apply orb_true_iff in E as [E%Z.eqb_eq|E%Z.ltb_lt]; [lia|].
    right. split; [|done]. intros k (?&?&_). lia. }
  pose proof (sized_total s (shape_sized _ _ (inv_shape _ _ Hi))).
  apply (contiguous_scan_run d); [done| |lia]. by split; try lia.
Qed.

Lemma alloc_contiguous_cases d s count r s' :
  pmm_inv d s → 0 ≤ count → pmm_alloc_pages_contiguous count s = Done (r, s') →
  (r = 0 ∧ s' = s) ∨
  (∃ start, 0 < count ∧ free_run s start count ∧ r = start * PMM_PAGE_SIZE ∧
     s' = taken_run start count s).
Proof.
  intros Hi Hc Hrun. destruct (decide (count = 0)) as [->|Hn].
  - left. revert Hrun. unfold pmm_alloc_pages_contiguous, mbind, prog_bind, get.
    rewrite (inv_init _ _ Hi). by intros [= <- <-].
  - destruct (alloc_contiguous_run d s count Hi ltac:(lia)) as [(start&Hf&_&Hr)|[_ Hr]];
      rewrite Hr in Hrun; injection Hrun as <- <-; [right|by left].
    exists start. split; [lia|done].
Qed.

Lemma keeps_alloc_contiguous d s count r s' :
  pmm_inv d s → 0 ≤ count → pmm_alloc_pages_contiguous count s = Done (r, s') →
  keeps d s s'.
Proof.
  intros Hi H0 [[-> ->]|(start&_&Hf&->&->)]%(alloc_contiguous_cases d);
    [by apply keeps_refl| |done..].
  destruct (free_run_taken d s start count Hi H0 Hf) as (H1&H2&_&Hm&H4&_).
  split; [done|]. split; [done|]. intros i Hp [Hiu Him]. split; [|by rewrite Hm].
  by rewrite H4, Hiu, orb_true_r by apply Hp.
Qed.

(** The checking loop of the contiguous release. *)
Definition freeable (s : pmm) (i : Z) : Prop := managed s i = true ∧ used s i = true.

Lemma check_loop_run s start l :
  pmm_sized s → (∀ i, i ∈ l → is_page s (start + i)) →
  let check := for_each l (λ i,
    m ← managed_bitmap_test (start + i);
    if negb m then panic "PMM: free of unmanaged page in range" else
    u ← page_bitmap_test (start + i);
    if negb u then panic "PMM: double free in range" else mret ()) s in
  ((∀ i, i ∈ l → freeable s (start + i)) ∧ check = Done ((), s)) ∨
  (¬ (∀ i, i ∈ l → freeable s (start + i)) ∧ ∃ why, check = Stop (Panicked why)).
Proof.
  intros Hs. induction l as [|i l IH]; intros Hl check.
  { left. split; [|done]. by intros i ?%elem_of_nil. }
  assert (Hi : is_page s (start + i)) by (apply Hl; by left).
  subst check. simpl. unfold mbind, prog_bind.
  rewrite managed_bitmap_test_run by done.
  destruct (managed s (start + i)) eqn:Hm; simpl; [|right].
  2:{ split; [|by eexists]. intros H. destruct (H i); [by left|congruence]. }
  rewrite page_bitmap_test_run by done.
  destruct (used s (start + i)) eqn:Hu; simpl; [|right].
  2:{ split; [|by eexists]. intros H. destruct (H i); [by left|congruence]. }
  destruct IH as [[Hall Hrun]|[Hno Hrun]]; [intros; apply Hl; by right|left|right].
  - split; [|done]. intros k [->|Hk]%elem_of_cons; [done|auto].
  - split; [|done]. intros H. apply Hno. intros k Hk. apply H. by right.
Qed.

Definition freeable_range (s : pmm) (base count : Z) : Prop :=
  range_is_valid s base count = true ∧
  ∀ i, page_index base ≤ i < page_index base + count → freeable s i.

Definition check_range (start count : Z) : prog pmm unit :=
  for_each (seqZ 0 count) (λ i,
    m ← managed_bitmap_test (start + i);
    if negb m then panic "PMM: free of unmanaged page in range" else
    u ← page_bitmap_test (start + i);
    if negb u then panic "PMM: double free in range" else mret ()).

Lemma free_contiguous_eq base count s :
  pmm_free_pages_contiguous base count s =
    if range_is_valid s base count then
      match check_range (page_index base) count s with
      | Done (_, t) => for_each (seqZ 0 count) (λ i, drop_ref (page_index base + i)) t
      | Stop r => Stop r
      end
    else Stop (Panicked "PMM: invalid contiguous free").
Proof.
  unfold pmm_free_pages_contiguous, mbind at 1, prog_bind at 1, get.
  by destruct (range_is_valid s base count).
Qed.

Lemma pmm_free_pages_contiguous_run d s base count :
  pmm_inv d s → 0 ≤ base → 0 ≤ count →
  let start := page_index base in
  (freeable_range s base count ∧ ∃ s',
    pmm_free_pages_contiguous base count s = Done ((), s') ∧
    pmm_inv d s' ∧ total_pages s' = total_pages s ∧ phys_ram s' = phys_ram s ∧
    (∀ k, managed s' k = managed s k) ∧
    (∀ k, 0 ≤ k → used s' k =
       if decide (start ≤ k < start + count) then 1 <? refc s k else used s k) ∧
    (∀ k, is_page s k → refc s' k =
       if decide (start ≤ k < start + count)
       then Z.max 0 (refc s k - 1) else refc s k)) ∨
  (¬ freeable_range s base count ∧ ∃ why,
    pmm_free_pages_contiguous base count s = Stop (Panicked why)).
Proof.
  intros Hi Hb Hc start. pose proof (shape_sized _ _ (inv_shape _ _ Hi)) as Hs.
  unfold freeable_range. fold start.
  rewrite free_contiguous_eq. fold start.
  destruct (range_is_valid s base count) eqn:Hv; simpl; [|right].
  2:{ split; [by intros [? _]|by eexists]. }
  pose proof Hv as (_&_&[Hs0 Hs1]&Hfit)%range_is_valid_true; [|done].
  fold start in Hs0, Hs1, Hfit.
  assert (Hoff : (∀ i, i ∈ seqZ 0 count → freeable s (start + i)) ↔
    (∀ i, start ≤ i < start + count → freeable s i)).
  { setoid_rewrite elem_of_seqZ. split; intros H i Hir; [|apply H; lia].
    replace i with (start + (i - start)) by lia. apply H. lia. }
  destruct (check_loop_run s start (seqZ 0 count)) as [[Hall Hchk]|[Hno [why Hchk]]];
    [done|intros i ?%elem_of_seqZ; unfold is_page; lia|left|right]; unfold check_range; rewrite Hchk.
  2:{ split; [|by eexists]. intros [_ H]. by apply Hno, Hoff. }
  destruct (dropped_all_spec d (λ j, start + j) (seqZ 0 count) s)
    as (Hrun&H1&H2&H3&H4&H5&H6); [done|apply NoDup_offsets, NoDup_seqZ| |].
  { intros j Hj. destruct (Hall j Hj). apply elem_of_seqZ in Hj.
    split; [unfold is_page; lia|done]. }
  split; [by rewrite <-Hoff|]. rewrite Hrun. eexists. split; [done|].
  split_and!; try done.
  - intros k Hk. rewrite H5 by done. apply decide_ext, elem_of_offsets.
  - intros k Hk. rewrite H6 by done. apply decide_ext, elem_of_offsets.
Qed.

Lemma keeps_op d b off s op r s' :
  pmm_inv d s → hhdm_response b = Some off → op_ok op →
  run_op b op s = Done (r, s') → keeps d s s'.
Proof.
  intros Hi Hoff Hok. destruct op as [|a|n|a|p|p n|p]; simpl in *.
  - rewrite (pmm_alloc_page_run d b off) by done.
    destruct (first_free _ _) as [i|] eqn:Hf; intros [= <- <-]; [|by apply keeps_refl].
    apply first_free_Some in Hf as (?&?&_). by apply keeps_allocated.
  - rewrite (pmm_alloc_page_below_run d) by done.
    destruct (first_free _ _) as [i|] eqn:Hf; intros [= <- <-]; [|by apply keeps_refl].
    apply first_free_Some in Hf as (?&?&_). apply keeps_taken; [done| |done].
    unfold is_page. lia.
  - intros Hrun. eapply keeps_alloc_contiguous; [done|apply Hok|done].
  - unfold pmm_alloc_trampoline_page, mbind, prog_bind, get, deref.
    destruct (_ <=? _); [by intros [= <- <-]|].
    destruct (_ !! _); [|done]. intros [= <- <-]. split; [|done].
    destruct Hi as [[] ? ?]. split; [|done..]. split; [|done..]. by apply sized_pool.
  - unfold mbind, prog_bind. rewrite (pmm_free_page_run d) by (done || apply Hok).
    destruct (range_is_valid s p 1) eqn:Hv; simpl; [|done].
    apply range_is_valid_true in Hv as (_&_&Hp&_); [|apply Hok].
    destruct (managed s (page_index p)) eqn:Hm; simpl; [|done].
    destruct (used s (page_index p)) eqn:Hu; simpl; [|done]. intros [= <- <-].
    apply (keeps_dropped_all d _ _ [page_index p]).
    + eauto with pmm.
    + apply total_dropped.
    + intros k. apply managed_dropped.
    + by intros k ->%list_elem_of_singleton.
    + intros k Hk. rewrite used_dropped by eauto with pmm. rewrite Hu, andb_true_r.
      destruct (decide (page_index p = k)) as [->|].
      * by rewrite decide_True by by left.
      * by rewrite decide_False by (by intros ->%list_elem_of_singleton).
  - destruct Hok as [[? ?] [? ?]].
    destruct (pmm_free_pages_contiguous_run d s p n)
      as [[[_ Hall] (t&Hrun&?&?&_&?&Hu&_)]|[_ [why Hrun]]]; [done..| |];
      unfold mbind, prog_bind; rewrite Hrun; [|done]. intros [= <- <-].
    apply (keeps_dropped_all d _ _ ((λ j, page_index p + j) <$> seqZ 0 n)); [done..| |].
    + intros k Hk%elem_of_offsets. by apply Hall.
    + intros k Hk. rewrite Hu by done. symmetry. apply decide_ext, elem_of_offsets.
  - unfold mbind, prog_bind. rewrite (pmm_ref_page_run d) by (done || apply Hok).
    simpl. destruct (_ && _); intros [= <- <-]; [|by apply keeps_refl].
    pose proof (u16_bound (refc s (page_index p) + 1)). split; [eauto with pmm|done].
Qed.


(** Whether a call hands out page [i], and whether it gives [i] back. *)
Definition op_gets (op : pmm_op) (r i : Z) : bool :=
  match op with
  | OpAlloc | OpAllocBelow _ => negb (r =? 0) && (page_index r =? i)
  | OpAllocContiguous n =>
      negb (r =? 0) && (page_index r <=? i) && (i <? page_index r + n)
  | _ => false
  end.
Definition op_frees (op : pmm_op) (i : Z) : bool :=
  match op with
  | OpFree p => page_index p =? i
  | OpFreeContiguous p n => (page_index p <=? i) && (i <? page_index p + n)
  | _ => false
  end.

(** Call sequences that give no part of page [i] back. *)
Inductive holding (b : boot_info) (i : Z) (s0 : pmm) : pmm → Prop :=
| hold_here : holding b i s0 s0
| hold_step s op r s' :
    holding b i s0 s → op_ok op → op_frees op i = false →
    run_op b op s = Done (r, s') → holding b i s0 s'.

(** A page in use stays in use under calls that do not free it, and is not
    handed out. *)
Lemma op_holds d b off s op r s' i :
  pmm_inv d s → hhdm_response b = Some off → op_ok op → is_page s i →
  used s i = true → op_frees op i = false → run_op b op s = Done (r, s') →
  used s' i = true ∧ op_gets op r i = false.
Proof.
  intros Hi Hoff Hok Hp Hu Hnf. pose proof (proj1 Hp) as Hp0.
  destruct op as [|a|n|a|p|p n|p]; simpl in *.
  - rewrite (pmm_alloc_page_run d b off) by done.
    destruct (first_free _ _) as [k|] eqn:Hf; intros [= <- <-]; [|done].
    apply first_free_Some in Hf as (?&?&_).
    change (used (allocated k s) i) with (used (taken k s) i).
    rewrite used_taken by eauto with pmm. rewrite decide_False by congruence.
    split; [done|]. rewrite page_index_mul. apply andb_false_intro2, Z.eqb_neq. congruence.
  - rewrite (pmm_alloc_page_below_run d) by done.
    destruct (first_free _ _) as [k|] eqn:Hf; intros [= <- <-]; [|done].
    apply first_free_Some in Hf as (?&?&_).
    assert (is_page s k) by (unfold is_page; lia).
    rewrite used_taken by eauto with pmm. rewrite decide_False by congruence.
    split; [done|]. rewrite page_index_mul. apply andb_false_intro2, Z.eqb_neq. congruence.
  - intros Hrun. apply (alloc_contiguous_cases d) in Hrun
      as [[-> ->]|(start&Hc&Hf&->&->)]; [done| |done|lia].
    pose proof (free_run_taken d s start n Hi ltac:(lia) Hf) as (_&_&_&_&E&_).
    split; [by rewrite E, Hu, orb_true_r by done|].
    rewrite page_index_mul. destruct Hf as (_&_&Hf).
    destruct (Z.leb_spec start i), (Z.ltb_spec i (start + n)); rewrite ?andb_false_r; try done.
    specialize (Hf i). rewrite Hf in Hu by lia. done.
  - unfold pmm_alloc_trampoline_page, mbind, prog_bind, get, deref.
    destruct (_ <=? _); [by intros [= <- <-]|].
    destruct (_ !! _); [|done]. by intros [= <- <-].
  - unfold mbind, prog_bind. rewrite (pmm_free_page_run d) by (done || apply Hok).
    destruct (range_is_valid s p 1) eqn:Hv; simpl; [|done].
    apply range_is_valid_true in Hv as (_&_&Hpp&_); [|apply Hok].
    destruct (managed s (page_index p)) eqn:Hm; simpl; [|done].
    destruct (used s (page_index p)) eqn:Hup; simpl; [|done]. intros [= <- <-].
    apply Z.eqb_neq in Hnf.
    by rewrite used_dropped, decide_False by eauto with pmm.
  - destruct Hok as [[? ?] [? ?]].
    destruct (pmm_free_pages_contiguous_run d s p n)
      as [[_ (t&Hrun&_&_&_&_&E&_)]|[_ [why Hrun]]]; [done..| |];
      unfold mbind, prog_bind; rewrite Hrun; [|done]. intros [= <- <-].
    rewrite E, decide_False; [done| |done].
    apply andb_false_iff in Hnf as [?%Z.leb_gt|?%Z.ltb_ge]; lia.
  - unfold mbind, prog_bind. rewrite (pmm_ref_page_run d) by (done || apply Hok).
    simpl. by destruct (_ && _); intros [= <- <-].
Qed.

Lemma holding_used d b off s i s' :
  pmm_inv d s → hhdm_response b = Some off → is_page s i → used s i = true →
  holding b i s s' → pmm_inv d s' ∧ is_page s' i ∧ used s' i = true.
Proof.
  intros Hi Hoff Hp Hu. induction 1 as [|s1 op r s2 _ (I1&I2&I3) Hok Hnf Hrun]; [done|].
  destruct (keeps_op d b off s1 op r s2) as (K1&K2&_); [done..|].
  destruct (op_holds d b off s1 op r s2 i) as [K3 _]; [done..|].
  split; [done|]. split; [|done]. unfold is_page. by rewrite K2.
Qed.

(** ** A small machine *)

(** 2.5 MiB with the usual hole below 1 MiB and the kernel at 2 MiB. *)
Definition demo_map : list memmap_entry :=
  [ MemmapEntry 0 0x9f000 LIMINE_MEMMAP_USABLE;
    MemmapEntry 0x9f000 0x61000 LIMINE_MEMMAP_RESERVED;
    MemmapEntry 0x100000 0x100000 LIMINE_MEMMAP_USABLE;
    MemmapEntry 0x200000 0x40000 LIMINE_MEMMAP_KERNEL_AND_MODULES;
    MemmapEntry 0x240000 0x40000 LIMINE_MEMMAP_USABLE ].
Definition demo_boot : boot_info :=
  BootInfo 0x200000 0x240000 (Some demo_map) (Some 0xffff800000000000).
Definition demo : pmm :=
  match pmm_init demo_boot (Some demo_map) 0xffff800000000000 (pmm_bss ∅) with
  | Done (_, s) => s | Stop _ => (pmm_bss ∅)
  end.

Lemma demo_boot_ok : boot_ok demo_boot demo_map.
Proof.
  split; simpl; [|lia|lia].
  repeat constructor; simpl; lia.
Qed.

Lemma demo_storage :
  find_bitmap_storage demo_boot (align_up (mm_storage demo_map) PMM_PAGE_SIZE) demo_map
  = Some 0.
Proof. vm_compute. reflexivity. Qed.

Definition is_done {A} (o : outcome A) : bool :=
  match o with Done _ => true | Stop _ => false end.

Lemma stop_not_done {A} (o : outcome A) r : o = Stop r → is_done o = true → False.
Proof. by intros ->. Qed.

Lemma wp_final {S A} (m : prog S A) (Q : S → Prop) s s0 :
  wp m (λ _, Q) s → Q (match m s with Done (_, t) => t | Stop _ => s0 end).
Proof. intros (?&?&->&?)%wp_run. done. Qed.

Lemma demo_booted : booted demo_boot demo_map 0 ∅ demo.
Proof.
  apply (wp_final _ (booted demo_boot demo_map 0 ∅)).
  apply (pmm_init_booted demo_boot demo_map 0xffff800000000000 (pmm_bss ∅) 0);
    [exact demo_boot_ok|reflexivity|discriminate|exact demo_storage|reflexivity].
Qed.

Lemma demo_pool : ap_trampoline_pool_top demo = 4.
Proof. vm_compute. reflexivity. Qed.

Lemma demo_inv : pmm_inv 4 demo.
Proof. rewrite <-demo_pool. exact (booted_inv _ _ _ _ _ demo_booted). Qed.

#[global] Opaque demo.

(** ** Boot *)

(** C16. [pmm_init] on a well-formed memory map completes without a panic and
    leaves exactly these pages free: those that lie wholly in a usable region,
    are not page 0, the bitmap storage or the kernel image, and were not moved
    to the trampoline pool.  The bookkeeping invariant holds from then on, and
    page 0, the bitmaps and the kernel can never be freed. *)
Theorem pmm_init_correct b mm off s phys :
  boot_ok b mm → memmap_response b = Some mm → off ≠ 0 →
  find_bitmap_storage b (align_up (mm_storage mm) PMM_PAGE_SIZE) mm = Some phys →
  length (ap_trampoline_pool s) = 16%nat →
  ∃ s', pmm_init b (Some mm) off s = Done ((), s') ∧
    pmm_inv (ap_trampoline_pool_top s') s' ∧ total_pages s' = mm_pages mm ∧
    (∀ i, is_page s' i → used s' i = false ↔
       usable_page mm i ∧ ¬ boot_reserved b (mm_storage mm) phys i ∧
       i * PMM_PAGE_SIZE ∉ pool_entries s') ∧
    (∀ i, is_page s' i → boot_reserved b (mm_storage mm) phys i → reserved s' i) ∧
    NoDup (pool_entries s') ∧
    Forall (λ a, page_ok a ∧ 0 < a < 0x100000 ∧ usable_page mm (page_index a))
      (pool_entries s').
Proof.
  intros H1 H2 H3 H4 H5.
  destruct (proj1 (wp_run _ _ _) (pmm_init_booted b mm off s phys H1 H2 H3 H4 H5))
    as ([]&s'&Hrun&[]).
  exists s'. split_and!; try done. eapply Forall_impl; [done|].
  by intros a (?&?&_&_&?).
Qed.

Lemma pmm_init_correct_witness : ∃ s',
  pmm_init demo_boot (Some demo_map) 0xffff800000000000 (pmm_bss ∅) = Done ((), s') ∧
  pmm_inv (ap_trampoline_pool_top s') s' ∧ total_pages s' = mm_pages demo_map.
Proof.
  destruct (pmm_init_correct demo_boot demo_map 0xffff800000000000 (pmm_bss ∅) 0)
    as (s'&H1&H2&H3&_); [exact demo_boot_ok|reflexivity|discriminate
      |exact demo_storage|reflexivity|].
  exists s'. split_and!; assumption.
Defined.

Lemma free_nonzero d s i :
  pmm_inv d s → is_page s i → used s i = false → 0 < i.
Proof.
  intros Hi Hp Hu. destruct (decide (i = 0)) as [->|]; [|destruct Hp; lia].
  destruct (inv_page0 _ _ Hi Hp). congruence.
Qed.

(** ** Allocation *)

(** C18. [pmm_alloc_page] never panics on an initialised allocator.  When some
    page is free it returns the address of the lowest one, never page 0, with
    every word of the page zero and no other memory touched, marks it used
    with reference count 1, changes no other page and keeps the invariant; it
    returns 0 and changes nothing exactly when every page is used. *)
Theorem pmm_alloc_page_correct d b off s :
  pmm_inv d s → hhdm_response b = Some off →
  (∃ i s', pmm_alloc_page b s = Done (i * PMM_PAGE_SIZE, s') ∧
     0 < i < total_pages s ∧ used s i = false ∧ managed s i = true ∧
     (∀ j, 0 ≤ j < i → used s j = true) ∧
     pmm_inv d s' ∧ free_pages s' = free_pages s - 1 ∧ refc s' i = 1 ∧
     (∀ j, 0 ≤ j → used s' j = bool_decide (j = i) || used s j) ∧
     (∀ j, is_page s j → j ≠ i → refc s' j = refc s j) ∧
     (∀ q k, page_ok q → 0 ≤ k < 512 → rd64 (phys_ram s') (q + 8 * k) =
        if decide (q = i * PMM_PAGE_SIZE) then 0 else rd64 (phys_ram s) (q + 8 * k))) ∨
  ((∀ j, is_page s j → used s j = true) ∧ pmm_alloc_page b s = Done (0, s)).
Proof.
  intros Hi Hoff. rewrite (pmm_alloc_page_run d b off) by done.
  destruct (first_free _ _) as [i|] eqn:Hf; [left|].
  2:{ right. split; [|done]. by apply first_free_None. }
  apply first_free_Some in Hf as (Hp&Hu&Hlow).
  assert (Hpok : page_ok (i * PMM_PAGE_SIZE)) by apply page_ok_mul.
  pose proof (free_nonzero d s i Hi Hp Hu).
  exists i, (allocated i s). split_and!; try (done || lia).
  - by eapply shape_free_managed; [apply Hi|..].
  - by apply inv_allocated.
  - change (refc (taken i s) i = 1). rewrite refc_taken by eauto with pmm.
    by rewrite decide_True.
  - intros j Hj. change (used (taken i s) j = bool_decide (j = i) || used s j).
    rewrite used_taken by eauto with pmm. by destruct (decide (i = j)) as [->|];
      [rewrite bool_decide_true|rewrite bool_decide_false].
  - intros j Hj Hji. change (refc (taken i s) j = refc s j).
    by rewrite refc_taken, decide_False by eauto with pmm.
  - intros q k Hq Hk. change (rd64 (zero_page (i * PMM_PAGE_SIZE) (phys_ram s)) (q + 8 * k) =
      if decide (q = i * PMM_PAGE_SIZE) then 0 else rd64 (phys_ram s) (q + 8 * k)).
    rewrite rd64_zero_page_page by done. by apply decide_ext.
Qed.

Lemma pmm_alloc_page_correct_witness :
  (∃ i s', pmm_alloc_page demo_boot demo = Done (i * PMM_PAGE_SIZE, s') ∧
     0 < i < total_pages demo ∧ pmm_inv 4 s' ∧ refc s' i = 1) ∧
  fst <$> (match pmm_alloc_page demo_boot demo with
           | Done x => Some x | Stop _ => None end) = Some 20480.
Proof.
  split; [|vm_compute; reflexivity].
  destruct (pmm_alloc_page_correct 4 demo_boot 0xffff800000000000 demo)
    as [(i&s'&H)|[_ H]]; [exact demo_inv|reflexivity| |].
  - destruct H as (H1&H2&_&_&_&H3&_&H4&_). exists i, s'. exact (conj H1 (conj H2 (conj H3 H4))).
  - exfalso. vm_compute in H. discriminate.
Defined.

(** C32. [pmm_alloc_pages_contiguous] is a complete first fit: for a positive
    count it returns the lowest run of that many consecutive free pages, marks
    exactly those pages used with reference count 1 and keeps the invariant;
    it returns 0, changing nothing, only when no such run exists. *)
Theorem pmm_alloc_pages_contiguous_correct d s count :
  pmm_inv d s → 0 < count →
  (∃ start s', pmm_alloc_pages_contiguous count s = Done (start * PMM_PAGE_SIZE, s') ∧
     0 < start ∧ free_run s start count ∧ (∀ k, k < start → ¬ free_run s k count) ∧
     pmm_inv d s' ∧ total_pages s' = total_pages s ∧ phys_ram s' = phys_ram s ∧
     (∀ k, 0 ≤ k → used s' k = bool_decide (start ≤ k < start + count) || used s k) ∧
     (∀ k, is_page s k → refc s' k =
        if decide (start ≤ k < start + count) then 1 else refc s k)) ∨
  ((∀ k, ¬ free_run s k count) ∧ pmm_alloc_pages_contiguous count s = Done (0, s)).
Proof.
  intros Hi Hc.
  destruct (alloc_contiguous_run d s count Hi Hc) as [(start&Hf&Hlow&->)|[? ->]];
    [left|by right].
  destruct (free_run_taken d s start count Hi ltac:(lia) Hf) as (?&?&?&_&?&?).
  exists start, (taken_run start count s). split_and!; try done.
  destruct Hf as (Hf0&Hf1&Hf). apply (free_nonzero d s); [done|unfold is_page; lia|].
  apply Hf. lia.
Qed.

Lemma pmm_alloc_pages_contiguous_correct_witness :
  (∃ start s', pmm_alloc_pages_contiguous 200 demo = Done (start * PMM_PAGE_SIZE, s') ∧
     free_run demo start 200 ∧ pmm_inv 4 s') ∧
  pmm_alloc_pages_contiguous 400 demo = Done (0, demo).
Proof.
  split.
  - destruct (pmm_alloc_pages_contiguous_correct 4 demo 200)
      as [(i&s'&H)|[_ H]]; [exact demo_inv|lia| |].
    + destruct H as (H1&_&H2&_&H3&_). exists i, s'. exact (conj H1 (conj H2 H3)).
    + exfalso. vm_compute in H. discriminate.
  - vm_compute. reflexivity.
Defined.

(** ** Release and sharing *)

(** C31. [pmm_free_page] has four outcomes, decided by its guards in order: a
    misaligned or out-of-range address, an unmanaged page and a page that is
    already free each panic; otherwise one reference is dropped, the page
    becomes free exactly when that was the last one, no other page changes and
    the invariant is kept. *)
Theorem pmm_free_page_correct d s page :
  pmm_inv d s → 0 ≤ page →
  let i := page_index page in
  (range_is_valid s page 1 = false ∧
     pmm_free_page page s = Stop (Panicked "PMM: invalid free")) ∨
  (is_page s i ∧ managed s i = false ∧
     pmm_free_page page s = Stop (Panicked "PMM: free of unmanaged page")) ∨
  (is_page s i ∧ managed s i = true ∧ used s i = false ∧
     pmm_free_page page s = Stop (Panicked "PMM: double free")) ∨
  (∃ s', is_page s i ∧ managed s i = true ∧ used s i = true ∧
     pmm_free_page page s = Done ((), s') ∧ pmm_inv d s' ∧
     phys_ram s' = phys_ram s ∧
     (∀ j, 0 ≤ j → used s' j = if decide (i = j) then 1 <? refc s i else used s j) ∧
     (∀ j, is_page s j → refc s' j =
        if decide (i = j) then Z.max 0 (refc s i - 1) else refc s j)).
Proof.
  intros Hi Hp i. rewrite (pmm_free_page_run d) by done. fold i.
  destruct (range_is_valid s page 1) eqn:Hv; [|by left].
  apply range_is_valid_true in Hv as (_&_&Hpg&_); [|done]. fold i in Hpg. simpl.
  destruct (managed s i) eqn:Hm; [|by right; left].
  destruct (used s i) eqn:Hu; [|by right; right; left]. right; right; right.
  exists (dropped i s). split_and!; try done.
  - by apply inv_dropped.
  - apply ram_dropped.
  - intros j Hj. by rewrite used_dropped, Hu, andb_true_r by eauto with pmm.
  - intros j Hj. by rewrite refc_dropped by eauto with pmm.
Qed.

Lemma pmm_free_page_correct_witness :
  pmm_free_page 20480 demo = Stop (Panicked "PMM: double free") ∧
  pmm_free_page 0 demo = Stop (Panicked "PMM: free of unmanaged page") ∧
  pmm_free_page 20481 demo = Stop (Panicked "PMM: invalid free").
Proof.
  split; [|split; vm_compute; reflexivity].
  destruct (pmm_free_page_correct 4 demo 20480 demo_inv ltac:(lia))
    as [[H _]|[(_&H&_)|[(_&_&_&H)|(s'&_&_&H&_)]]].
  - exfalso. vm_compute in H. discriminate.
  - exfalso. vm_compute in H. discriminate.
  - exact H.
  - exfalso. vm_compute in H. discriminate.
Defined.

(** Repeated calls. *)
Fixpoint repeat_call (n : nat) (m : prog pmm unit) : prog pmm unit :=
  match n with O => mret () | S n => m;; repeat_call n m end.

Lemma dropped_shared s i : 1 < refc s i → dropped i s = set_ref i (refc s i - 1) s.
Proof. intros. unfold dropped. by rewrite (proj2 (Z.ltb_lt 1 (refc s i))). Qed.

Lemma set_ref_set_ref s i a b : set_ref i a (set_ref i b s) = set_ref i a s.
Proof.
  unfold set_ref, with_ref_counts. simpl. f_equal. apply list_insert_insert_eq.
Qed.

Lemma share_run d s page n :
  let i := page_index page in
  pmm_inv d s → 0 ≤ page → is_page s i → managed s i = true →
  refc s i + Z.of_nat n < 2 ^ 16 →
  repeat_call n (pmm_ref_page page) s = Done ((), set_ref i (refc s i + Z.of_nat n) s).
Proof.
  intros i Hi Hp Hpg Hm. revert s Hi Hpg Hm. induction n as [|n IH]; intros s Hi Hpg Hm Hn.
  { simpl. rewrite Z.add_0_r, set_ref_same; [done|eauto with pmm|done]. }
  pose proof (refc_range s i (shape_sized _ _ (inv_shape _ _ Hi)) Hpg).
  simpl. unfold mbind, prog_bind. rewrite (pmm_ref_page_run d) by done. fold i. simpl.
  rewrite Hm, (proj2 (Z.ltb_lt i (total_pages s))) by apply Hpg. simpl.
  assert (Hr : refc (set_ref i (u16 (refc s i + 1)) s) i = refc s i + 1).
  { rewrite refc_set_ref by eauto with pmm. rewrite decide_True by done.
    apply u16_small. lia. }
  rewrite IH; [|apply inv_set_ref, u16_bound; done|done|done|rewrite Hr; lia].
  rewrite Hr, set_ref_set_ref. do 3 f_equal. lia.
Qed.

Lemma unshare_run d s page n :
  let i := page_index page in
  pmm_inv d s → 0 ≤ page → range_is_valid s page 1 = true → managed s i = true →
  used s i = true → 1 ≤ refc s i - Z.of_nat n →
  repeat_call n (pmm_free_page page) s = Done ((), set_ref i (refc s i - Z.of_nat n) s).
Proof.
  intros i Hi Hp Hv. pose proof Hv as (_&_&Hpg&_)%range_is_valid_true; [|done].
  fold i in Hpg. revert s Hi Hv Hpg. induction n as [|n IH]; intros s Hi Hv Hpg Hm Hu Hn.
  { simpl. rewrite Z.sub_0_r, set_ref_same; [done|eauto with pmm|done]. }
  pose proof (refc_range s i (shape_sized _ _ (inv_shape _ _ Hi)) Hpg).
  simpl. unfold mbind, prog_bind. rewrite (pmm_free_page_run d) by done. fold i.
  simpl. rewrite Hv, Hm, Hu. simpl. rewrite dropped_shared by lia.
  assert (Hr : refc (set_ref i (refc s i - 1) s) i = refc s i - 1).
  { rewrite refc_set_ref by eauto with pmm. by rewrite decide_True. }
  rewrite IH; [|apply inv_set_ref; [done|lia]|done..|rewrite Hr; lia].
  rewrite Hr, set_ref_set_ref. do 3 f_equal. lia.
Qed.

(** Reference counting: an allocated page that has been shared [n] times by
    [pmm_ref_page] survives [n] calls of [pmm_free_page] in use and with its
    count back where it was, and the next [pmm_free_page] makes it allocatable
    again.  The bound on [n] is that the 16-bit count does not wrap. *)
Theorem pmm_share_free d s page n :
  let i := page_index page in
  pmm_inv d s → 0 ≤ page → range_is_valid s page 1 = true →
  managed s i = true → used s i = true → refc s i = 1 → Z.of_nat n < 65535 →
  repeat_call n (pmm_ref_page page) s = Done ((), set_ref i (1 + Z.of_nat n) s) ∧
  repeat_call n (pmm_free_page page) (set_ref i (1 + Z.of_nat n) s) = Done ((), s) ∧
  ∃ s', pmm_free_page page s = Done ((), s') ∧ used s' i = false ∧
    free_pages s' = free_pages s + 1.
Proof.
  intros i Hi Hp Hv Hm Hu Hr Hn.
  pose proof Hv as (_&_&Hpg&_)%range_is_valid_true; [|done]. fold i in Hpg.
  split; [|split].
  - rewrite (share_run d s page n) by (done || fold i; lia). fold i. by rewrite Hr.
  - set (t := set_ref i (1 + Z.of_nat n) s).
    assert (Ht : pmm_inv d t) by (apply inv_set_ref; [done|lia]).
    assert (Hrt : refc t i = 1 + Z.of_nat n).
    { unfold t. rewrite refc_set_ref by eauto with pmm. by rewrite decide_True. }
    rewrite (unshare_run d t page n) by (done || (fold i; lia)). fold i.
    rewrite Hrt. unfold t. rewrite set_ref_set_ref.
    replace (1 + Z.of_nat n - Z.of_nat n) with (refc s i) by lia.
    by rewrite set_ref_same by eauto with pmm.
  - exists (dropped i s). rewrite (pmm_free_page_run d) by done. fold i.
    simpl. rewrite Hv, Hm, Hu. split; [done|]. rewrite used_dropped by (eauto with pmm; apply Hpg).
    rewrite decide_True, Hr by done. split; [done|]. unfold dropped. by rewrite Hr.
Qed.

Definition demo1 : pmm :=
  match pmm_alloc_page demo_boot demo with Done (_, s) => s | Stop _ => demo end.

Lemma demo1_inv : pmm_inv 4 demo1.
Proof.
  refine (wp_final (pmm_alloc_page demo_boot) (pmm_inv 4) demo demo _).
  refine (proj2 (wp_run (pmm_alloc_page demo_boot) (λ _, pmm_inv 4) demo) _).
  pose proof (pmm_alloc_page_run 4 demo_boot 0xffff800000000000 demo demo_inv eq_refl) as H.
  destruct (first_free _ _) as [i|] eqn:Hf.
  - apply first_free_Some in Hf as (Hp&Hu&_).
    exists (i * PMM_PAGE_SIZE), (allocated i demo). split; [exact H|].
    apply inv_allocated; [exact demo_inv|done|done].
  - exists 0, demo. split; [exact H|exact demo_inv].
Qed.

Lemma demo1_eq : demo1 = allocated 5 demo.
Proof.
  pose proof (pmm_alloc_page_run 4 demo_boot 0xffff800000000000 demo demo_inv eq_refl) as H.
  assert (Hf : first_free demo (total_pages demo) = Some 5) by (vm_compute; reflexivity).
  rewrite Hf in H. unfold demo1. rewrite H. reflexivity.
Qed.

#[global] Opaque demo1.

Lemma pmm_share_free_witness :
  repeat_call 3 (pmm_ref_page 20480) demo1 = Done ((), set_ref 5 4 demo1) ∧
  repeat_call 3 (pmm_free_page 20480) (set_ref 5 4 demo1) = Done ((), demo1).
Proof.
  destruct (pmm_share_free 4 demo1 20480 3) as (H1&H2&_);
    [exact demo1_inv|lia|vm_compute; reflexivity..|exact (conj H1 H2)].
Defined.

(** [pmm_free_pages_contiguous] is all or nothing: if the range is aligned,
    in bounds and every page of it is managed and in use, each page loses one
    reference, exactly those whose last reference that was become free, and
    the invariant is kept; in every other case it panics before any page is
    touched. *)
Theorem pmm_free_pages_contiguous_correct d s base count :
  pmm_inv d s → 0 ≤ base → 0 ≤ count →
  let start := page_index base in
  (freeable_range s base count ∧ ∃ s',
    pmm_free_pages_contiguous base count s = Done ((), s') ∧ pmm_inv d s' ∧
    (∀ k, 0 ≤ k → used s' k =
       if decide (start ≤ k < start + count) then 1 <? refc s k else used s k) ∧
    (∀ k, is_page s k → refc s' k =
       if decide (start ≤ k < start + count)
       then Z.max 0 (refc s k - 1) else refc s k)) ∨
  (¬ freeable_range s base count ∧ ∃ why,
    pmm_free_pages_contiguous base count s = Stop (Panicked why)).
Proof.
  intros Hi Hb Hc start.
  destruct (pmm_free_pages_contiguous_run d s base count) as [[? (s'&H)]|]; [done..|left|by right].
  split; [done|]. exists s'. by destruct H as (?&?&_&_&_&?).
Qed.

Lemma pmm_free_pages_contiguous_correct_witness :
  (∃ s', pmm_free_pages_contiguous 20480 1 demo1 = Done ((), s') ∧ pmm_inv 4 s') ∧
  pmm_free_pages_contiguous 20480 2 demo1 = Stop (Panicked "PMM: double free in range").
Proof.
  split; [|vm_compute; reflexivity].
  destruct (pmm_free_pages_contiguous_correct 4 demo1 20480 1 demo1_inv ltac:(lia) ltac:(lia))
    as [(_&s'&H1&H2&_)|(_&why&H)].
  - exists s'. exact (conj H1 H2).
  - exfalso. apply (stop_not_done _ _ H). vm_compute. reflexivity.
Defined.

(** ** Every sequence of calls *)



(** Exclusive ownership: a page in use (in particular one an allocation has
    just returned) is not handed out again by any later allocating call until
    a release names it; a contiguous allocation does not overlap it either. *)
Theorem pmm_no_double_allocation d b off s i s1 op r s2 :
  pmm_inv d s → hhdm_response b = Some off → is_page s i → used s i = true →
  holding b i s s1 → op_ok op → op_frees op i = false →
  run_op b op s1 = Done (r, s2) → op_gets op r i = false ∧ used s2 i = true.
Proof.
  intros Hi Hoff Hp Hu Hh Hok Hnf Hrun.
  destruct (holding_used d b off s i s1) as (Hi1&Hp1&Hu1); [done..|].
  destruct (op_holds d b off s1 op r s2 i); done.
Qed.

Lemma pmm_no_double_allocation_witness :
  ∃ r s2, pmm_alloc_page demo_boot demo1 = Done (r, s2) ∧
    op_gets OpAlloc r 5 = false ∧ used s2 5 = true.
Proof.
  destruct (pmm_alloc_page demo_boot demo1) as [[r s2]|why] eqn:E.
  - exists r, s2. split; [reflexivity|].
    apply (pmm_no_double_allocation 4 demo_boot 0xffff800000000000 demo1 5 demo1 OpAlloc r s2);
      [exact demo1_inv|reflexivity|split; vm_compute; congruence|vm_compute; reflexivity
      |apply hold_here|exact I|reflexivity|exact E].
  - exfalso. apply (stop_not_done _ _ E). vm_compute. reflexivity.
Defined.

(** ** Where the bookkeeping is weaker than intended *)

Lemma range_valid_page s i :
  is_page s i → range_is_valid s (i * PMM_PAGE_SIZE) 1 = true.
Proof.
  intros Hp. apply range_is_valid_true; [destruct Hp; unfold PMM_PAGE_SIZE; lia|].
  rewrite page_index_mul. split; [apply page_ok_mul|]. split; [done|]. split; [done|].
  destruct Hp. lia.
Qed.

(** After boot every page below [total_pages] except page 0, the bitmaps and
    the kernel is marked managed, usable or not: the [memset] to 0xFF covers
    the managed bitmap too.  So [pmm_free_page] accepts a page that no usable
    region contains, such as a device window, and makes it allocatable. *)
Theorem pmm_free_accepts_unusable_page b mm phys r s i :
  booted b mm phys r s → is_page s i → ¬ usable_page mm i →
  ¬ boot_reserved b (mm_storage mm) phys i →
  ∃ s', pmm_free_page (i * PMM_PAGE_SIZE) s = Done ((), s') ∧ used s' i = false.
Proof.
  intros Hb Hp Hnu Hnr. pose proof (booted_inv _ _ _ _ _ Hb) as Hi.
  assert (Hu : used s i = true).
  { destruct (used s i) eqn:Hu; [done|]. by apply (booted_free _ _ _ _ _ Hb) in Hu as [? _]. }
  pose proof (booted_managed _ _ _ _ _ Hb i Hp Hnr) as Hm.
  pose proof (booted_refs _ _ _ _ _ Hb i Hp).
  rewrite (pmm_free_page_run _ _ _ Hi) by (destruct Hp; unfold PMM_PAGE_SIZE; lia).
  rewrite page_index_mul. simpl. rewrite Hm, Hu, (range_valid_page s i Hp). simpl.
  exists (dropped i s). split; [done|].
  rewrite used_dropped by (eauto with pmm; apply Hp). rewrite decide_True by done.
  by rewrite (proj2 (Z.ltb_ge 1 (refc s i))).
Qed.

Lemma pmm_free_accepts_unusable_page_witness :
  ∃ s', pmm_free_page (0xA0 * PMM_PAGE_SIZE) demo = Done ((), s') ∧ used s' 0xA0 = false.
Proof.
  apply (pmm_free_accepts_unusable_page demo_boot demo_map 0 ∅ demo 0xA0).
  - exact demo_booted.
  - split; vm_compute; congruence.
  - intros (e&He&Ht&Hr). unfold PMM_PAGE_SIZE in Hr.
    repeat (apply elem_of_cons in He as [->|He]; [simpl in *; (discriminate || lia)|]).
    by apply elem_of_nil in He.
  - unfold boot_reserved, overlaps. change (align_up (mm_storage demo_map) PMM_PAGE_SIZE)
      with (align_up 1440 4096). vm_compute. intuition congruence.
Defined.

(** The reference count is 16 bits wide and [pmm_ref_page] does not guard
    its increment: the reference that follows the 65535th wraps the count to
    0, and the next [pmm_free_page] releases the page although 65535
    references to it are still out. *)
Theorem pmm_ref_page_wraps d s page :
  let i := page_index page in
  pmm_inv d s → 0 ≤ page → range_is_valid s page 1 = true →
  managed s i = true → used s i = true → refc s i = 65535 →
  ∃ s1 s2, pmm_ref_page page s = Done ((), s1) ∧ refc s1 i = 0 ∧
    pmm_free_page page s1 = Done ((), s2) ∧ used s2 i = false.
Proof.
  intros i Hi Hp Hv Hm Hu Hr.
  pose proof Hv as (_&_&Hpg&_)%range_is_valid_true; [|done]. fold i in Hpg.
  set (s1 := set_ref i (u16 (refc s i + 1)) s).
  assert (Hr1 : refc s1 i = 0).
  { unfold s1. rewrite refc_set_ref by eauto with pmm. by rewrite decide_True, Hr. }
  assert (Hi1 : pmm_inv d s1) by (by apply inv_set_ref, u16_bound).
  exists s1, (dropped i s1). split_and!; try done.
  - rewrite (pmm_ref_page_run d) by done. fold i. simpl.
    by rewrite Hm, (proj2 (Z.ltb_lt i (total_pages s))) by apply Hpg.
  - rewrite (pmm_free_page_run d) by done. cbv zeta. fold i.
    change (range_is_valid s1 page 1) with (range_is_valid s page 1).
    change (managed s1 i) with (managed s i). change (used s1 i) with (used s i).
    by rewrite Hv, Hm, Hu.
  - rewrite used_dropped by (eauto with pmm; apply Hpg).
    by rewrite decide_True, Hr1 by done.
Qed.

Definition demo_shared : pmm := set_ref 5 65535 demo1.

Lemma pmm_ref_page_wraps_witness :
  ∃ s1 s2, pmm_ref_page 20480 demo_shared = Done ((), s1) ∧ refc s1 5 = 0 ∧
    pmm_free_page 20480 s1 = Done ((), s2) ∧ used s2 5 = false.
Proof.
  apply (pmm_ref_page_wraps 4 demo_shared 20480);
    [apply inv_set_ref; [exact demo1_inv|lia]|lia|vm_compute; reflexivity..].
Defined.
