(* ===== verification/Frames.v ===== *)
(** * The frame allocator as its clients see it.

    The page-table code and the heap call [pmm_alloc_page], [pmm_free_page],
    [pmm_ref_page] and [pmm_get_page_ref] and read and write RAM through the
    direct map.  [FrameAlloc] is that interface, [FrameAllocLaws] what its
    clients rely on; the page allocator of [Pmm] is an instance of both. *)

From S2P Require Import Prelude Bits Ram Pmm PmmSpec PmmInit.

Class FrameAlloc (S : Type) := {
  fa_alloc : prog S Z;
  fa_free : Z → prog S unit;
  fa_ref : Z → prog S unit;
  fa_get_ref : Z → prog S Z;
  fa_ram : S → ram;
  fa_set_ram : ram → S → S;
}.

Class FrameAllocLaws (S : Type) `{FrameAlloc S} := {
  (** allocator invariant; frames in use; their counts; free frames left *)
  fa_inv : S → Prop;
  fa_used : S → Z → Prop;
  fa_refs : S → Z → Z;
  fa_avail : S → Z;

  fa_ram_set r s : fa_ram (fa_set_ram r s) = r;
  fa_inv_set r s : fa_inv s → fa_inv (fa_set_ram r s);
  fa_used_set r s p : fa_used (fa_set_ram r s) p ↔ fa_used s p;
  fa_refs_set r s p : fa_refs (fa_set_ram r s) p = fa_refs s p;
  fa_avail_set r s : fa_avail (fa_set_ram r s) = fa_avail s;
  fa_avail_nonneg s : fa_inv s → 0 ≤ fa_avail s;
  fa_used_page s p : fa_inv s → fa_used s p → page_ok p ∧ 0 ≤ p < 2 ^ 52;

  fa_alloc_spec s : fa_inv s →
    wp fa_alloc (λ p s',
      (p = 0 ∧ s' = s ∧ fa_avail s = 0) ∨
      (p ≠ 0 ∧ fa_inv s' ∧ fa_avail s' = fa_avail s - 1 ∧ 0 ≤ fa_avail s' ∧
       ¬ fa_used s p ∧ (∀ q, fa_used s' q ↔ q = p ∨ fa_used s q) ∧
       fa_refs s' p = 1 ∧ (∀ q, q ≠ p → fa_used s q → fa_refs s' q = fa_refs s q) ∧
       fa_ram s' = zero_page p (fa_ram s))) s;
  fa_free_spec s p : fa_inv s → fa_used s p → 1 ≤ fa_refs s p →
    wp (fa_free p) (λ _ s',
      fa_inv s' ∧ fa_ram s' = fa_ram s ∧
      (∀ q, fa_used s' q ↔ fa_used s q ∧ (q = p → fa_refs s p ≠ 1)) ∧
      (∀ q, fa_used s q → fa_refs s' q =
         if decide (q = p) then fa_refs s p - 1 else fa_refs s q) ∧
      fa_avail s' = (if decide (fa_refs s p = 1) then fa_avail s + 1
                     else fa_avail s)) s;
  fa_ref_spec s p : fa_inv s → fa_used s p → fa_refs s p < 65535 →
    wp (fa_ref p) (λ _ s',
      fa_inv s' ∧ fa_ram s' = fa_ram s ∧ (∀ q, fa_used s' q ↔ fa_used s q) ∧
      fa_avail s' = fa_avail s ∧
      (∀ q, fa_used s q → fa_refs s' q =
         if decide (q = p) then fa_refs s p + 1 else fa_refs s q)) s;
  fa_get_ref_spec s p : fa_inv s → fa_used s p →
    wp (fa_get_ref p) (λ c s', c = fa_refs s p ∧ s' = s) s;
}.

(** ** The page allocator implements the interface *)

Definition pmm_frames (b : boot_info) : FrameAlloc pmm := {|
  fa_alloc := pmm_alloc_page b;
  fa_free := pmm_free_page;
  fa_ref := pmm_ref_page;
  fa_get_ref := pmm_get_page_ref;
  fa_ram := phys_ram;
  fa_set_ram := with_ram;
|}.

(** A frame in use is the address of a managed page whose bit is set. *)
Definition pmm_frame_used (s : pmm) (p : Z) : Prop :=
  page_ok p ∧ is_page s (page_index p) ∧ managed s (page_index p) = true ∧
  used s (page_index p) = true.

Section laws.
Context (b : boot_info) (off : Z) (Hoff : hhdm_response b = Some off).

Lemma used_addr s p : pmm_frame_used s p → p = page_index p * PMM_PAGE_SIZE.
Proof. intros (Hp&_). by apply page_ok_index. Qed.

Lemma used_range d s p : pmm_inv d s → pmm_frame_used s p → 0 ≤ p < 2 ^ 52.
Proof.
  intros Hi Hu. pose proof (used_addr s p Hu) as Hp.
  pose proof (sized_total s (shape_sized _ _ (inv_shape _ _ Hi))).
  destruct Hu as (_&[]&_). unfold PMM_PAGE_SIZE in Hp. lia.
Qed.

Lemma frame_eq p q : page_ok p → page_ok q → p = q ↔ page_index p = page_index q.
Proof.
  intros Hp Hq. split; [by intros ->|]. intros He.
  by rewrite (page_ok_index p Hp), (page_ok_index q Hq), He.
Qed.

Lemma frame_used_allocated d s i q :
  pmm_inv d s → is_page s i → used s i = false →
  pmm_frame_used (allocated i s) q ↔ q = i * PMM_PAGE_SIZE ∨ pmm_frame_used s q.
Proof.
  intros Hi Hp Hu. unfold pmm_frame_used.
  change (used (allocated i s)) with (used (taken i s)).
  change (managed (allocated i s)) with (managed s).
  change (is_page (allocated i s)) with (is_page s). split.
  - intros (Hq&Hpq&Hm&Huq). rewrite used_taken in Huq by (eauto with pmm; apply Hpq).
    destruct (decide (i = page_index q)) as [->|]; [left|by right].
    by apply page_ok_index.
  - intros [->|(Hq&Hpq&Hm&Huq)].
    + rewrite page_index_mul. split_and!; [apply page_ok_mul|apply Hp..| |].
      * by eapply shape_free_managed; [apply Hi|..].
      * rewrite used_taken by (eauto with pmm; apply Hp). by rewrite decide_True.
    + split_and!; try done. rewrite used_taken by (eauto with pmm; apply Hpq).
      by destruct (decide _).
Qed.

Lemma n_free_taken d s i : pmm_inv d s → is_page s i → used s i = false →
  n_free (allocated i s) = n_free s - 1 ∧ 0 ≤ n_free (allocated i s).
Proof.
  intros Hi Hp Hu. pose proof (inv_allocated d s i Hi Hp Hu) as Hi'.
  pose proof (shape_count _ _ (inv_shape _ _ Hi)).
  pose proof (shape_count _ _ (inv_shape _ _ Hi')) as Hc.
  change (free_pages (allocated i s)) with (free_pages s - 1) in Hc.
  pose proof (n_free_bounds _ (shape_sized _ _ (inv_shape _ _ Hi'))). lia.
Qed.

Lemma n_free_none s : (∀ j, is_page s j → used s j = true) → n_free s = 0.
Proof.
  intros Hall. unfold n_free. rewrite (count_clear_ext _ (λ _, true)) by auto.
  unfold count_clear. by induction (seqZ 0 (total_pages s)).
Qed.

Lemma alloc_law s : (∃ d, pmm_inv d s) →
  wp (pmm_alloc_page b) (λ p s',
    (p = 0 ∧ s' = s ∧ n_free s = 0) ∨
    (p ≠ 0 ∧ (∃ d, pmm_inv d s') ∧ n_free s' = n_free s - 1 ∧ 0 ≤ n_free s' ∧
     ¬ pmm_frame_used s p ∧
     (∀ q, pmm_frame_used s' q ↔ q = p ∨ pmm_frame_used s q) ∧
     refc s' (page_index p) = 1 ∧
     (∀ q, q ≠ p → pmm_frame_used s q →
        refc s' (page_index q) = refc s (page_index q)) ∧
     phys_ram s' = zero_page p (phys_ram s))) s.
Proof.
  intros [d Hi]. unfold wp. rewrite (pmm_alloc_page_run d b off) by done.
  destruct (first_free _ _) as [i|] eqn:Hf; [right|left].
  2:{ split_and!; try done. apply n_free_none. intros j. by apply first_free_None. }
  apply first_free_Some in Hf as (Hp&Hu&_).
  destruct (n_free_taken d s i Hi Hp Hu) as [Hn Hn0].
  rewrite page_index_mul. split_and!; try done.
  - destruct (decide (i = 0)) as [->|]; [|unfold PMM_PAGE_SIZE; lia].
    destruct (inv_page0 _ _ Hi Hp). congruence.
  - exists d. by apply inv_allocated.
  - intros (_&_&_&Hx). rewrite page_index_mul in Hx. congruence.
  - intros q. by apply (frame_used_allocated d).
  - change (refc (taken i s) i = 1). rewrite refc_taken by eauto with pmm.
    by rewrite decide_True.
  - intros q Hq (Hpq&Hiq&_). change (refc (taken i s) (page_index q) = refc s (page_index q)).
    rewrite refc_taken, decide_False; eauto with pmm.
    intros ->. apply Hq. by apply page_ok_index.
Qed.

Lemma free_law s p : (∃ d, pmm_inv d s) → pmm_frame_used s p →
  1 ≤ refc s (page_index p) →
  wp (pmm_free_page p) (λ _ s',
    (∃ d, pmm_inv d s') ∧ phys_ram s' = phys_ram s ∧
    (∀ q, pmm_frame_used s' q ↔
       pmm_frame_used s q ∧ (q = p → refc s (page_index p) ≠ 1)) ∧
    (∀ q, pmm_frame_used s q → refc s' (page_index q) =
       if decide (q = p) then refc s (page_index p) - 1 else refc s (page_index q)) ∧
    n_free s' = (if decide (refc s (page_index p) = 1) then n_free s + 1
                 else n_free s)) s.
Proof.
  intros [d Hi] Hused Hr. pose proof Hused as (Hp&Hpg&Hm&Hu).
  pose proof (used_range d s p Hi Hused).
  assert (Hs : pmm_sized s) by eauto with pmm.
  unfold wp. rewrite (pmm_free_page_run d) by (done || lia).
  rewrite (proj2 (range_is_valid_true s p 1 ltac:(lia))).
  2:{ split_and!; try done; destruct Hpg; lia. }
  simpl. rewrite Hm, Hu. simpl. set (i := page_index p) in *.
  split_and!.
  - exists d. by apply inv_dropped.
  - apply ram_dropped.
  - intros q. unfold pmm_frame_used, is_page. rewrite total_dropped, managed_dropped.
    split.
    + intros (Hq&Hpq&Hmq&Huq). rewrite used_dropped in Huq by (done || apply Hpq).
      fold i. destruct (decide (i = page_index q)) as [He|He].
      * rewrite <-He, Hu in *. apply andb_true_iff in Huq as [?%Z.ltb_lt _].
        split; [done|]. lia.
      * split; [done|]. intros ->. done.
    + intros [(Hq&Hpq&Hmq&Huq) Hne]. split_and!; try done; try apply Hpq.
      rewrite used_dropped by (done || apply Hpq).
      destruct (decide (i = page_index q)) as [He|He]; [|done].
      apply (frame_eq p q) in He; [|done..]. subst q. rewrite Hu, andb_true_r.
      apply Z.ltb_lt. specialize (Hne eq_refl). lia.
  - intros q (Hq&Hpq&_). rewrite refc_dropped by done.
    destruct (decide (i = page_index q)) as [He|He].
    + apply (frame_eq p q) in He; [|done..]. subst q. rewrite decide_True by done. lia.
    + rewrite decide_False; [done|]. by intros ->.
  - unfold dropped. destruct (Z.ltb_spec 1 (refc s i)).
    + by rewrite decide_False by lia.
    + rewrite decide_True by lia. apply (n_free_set_clear (set_ref i 0 s) i); [|done..].
      apply sized_set_ref; [done|lia].
Qed.

Lemma ref_law s p : (∃ d, pmm_inv d s) → pmm_frame_used s p →
  refc s (page_index p) < 65535 →
  wp (pmm_ref_page p) (λ _ s',
    (∃ d, pmm_inv d s') ∧ phys_ram s' = phys_ram s ∧
    (∀ q, pmm_frame_used s' q ↔ pmm_frame_used s q) ∧ n_free s' = n_free s ∧
    (∀ q, pmm_frame_used s q → refc s' (page_index q) =
       if decide (q = p) then refc s (page_index p) + 1 else refc s (page_index q))) s.
Proof.
  intros [d Hi] Hused Hr. pose proof Hused as (Hp&Hpg&Hm&Hu).
  pose proof (used_range d s p Hi Hused).
  assert (Hs : pmm_sized s) by eauto with pmm.
  pose proof (refc_range s _ Hs Hpg).
  unfold wp. rewrite (pmm_ref_page_run d) by (done || lia). simpl.
  rewrite Hm, (proj2 (Z.ltb_lt _ _) (proj2 Hpg)). simpl.
  rewrite u16_small by lia. split_and!; try done.
  - exists d. apply inv_set_ref; [done|lia].
  - intros q (Hq&Hpq&_). rewrite refc_set_ref by done.
    apply decide_ext. rewrite (frame_eq q p) by done. naive_solver.
Qed.

Definition pmm_frames_laws : @FrameAllocLaws pmm (pmm_frames b).
Proof.
  refine (@Build_FrameAllocLaws pmm (pmm_frames b) (λ s, ∃ d, pmm_inv d s)
    pmm_frame_used (λ s p, refc s (page_index p)) n_free
    _ _ _ _ _ _ _ alloc_law free_law ref_law _); try done.
  - intros r s [d Hi]. exists d. by apply inv_ram.
  - intros s [d Hi]. apply n_free_bounds. eauto with pmm.
  - intros s p [d Hi] Hu. split; [apply Hu|by eapply used_range].
  - intros s p [d Hi] Hu. unfold wp. simpl.
    pose proof (used_range d s p Hi Hu). destruct Hu as (_&Hpg&Hm&_).
    rewrite (pmm_get_page_ref_run d) by (done || lia). simpl.
    by rewrite Hm, (proj2 (Z.ltb_lt _ _) (proj2 Hpg)).
Defined.
End laws.
