(* ===== verification/Vmm.v ===== *)
(** * Page tables (src/kernel/arch/x86_64/memory/vmm.c).

    Four-level x86-64 page tables in RAM.  A pointer returned by
    [phys_to_virt] is identified with the physical address it came from; the
    null results of the table walk are [None].  [struct address_space] is
    either the static [kernel_space] or lives in the frame that
    [vmm_create_address_space] allocates for it.  The routines are written
    over the frame-allocator interface. *)

From S2P Require Import Prelude Bits Ram Frames.

Definition VMM_PAGE_SIZE : Z := 4096.
Definition PAGE_ENTRIES : Z := 512.
Definition PAGE_MASK : Z := 0x000ffffffffff000.
Definition PAGE_OFFSET_MASK : Z := 0xfff.
Definition PAGE_FLAGS_MASK : Z := 0xfff0000000000fff.

Definition VMM_USER_BASE : Z := 0x1000.
Definition VMM_USER_TOP : Z := 0x00007fffffffffff.
Definition VMM_KERNEL_BASE : Z := 0xffff800000000000.

Definition VMM_PRESENT : Z := 0x1.
Definition VMM_WRITABLE : Z := 0x2.
Definition VMM_USER : Z := 0x4.
Definition VMM_COW : Z := 0x200.
Definition VMM_NO_EXECUTE : Z := 0x8000000000000000.

(** [(x & flag) != 0] *)
Definition has (x flag : Z) : bool := negb ((x &! flag) =? 0).

(** ** State *)

Inductive address_space :=
| KernelSpace                 (** [&kernel_space] *)
| SpaceAt (self_phys : Z).    (** the structure in frame [self_phys] *)
#[export] Instance address_space_eq_dec : EqDecision address_space.
Proof. solve_decision. Defined.

(** TLB maintenance, in program order. *)
Inductive tlb_event :=
| Invlpg (virt : Z)
| Shootdown (virt : Z).

Record vmm (S : Type) := Vmm {
  frames : S;
  kernel_space_pml4 : Z;
  g_cpu_count : Z;
  tlb_log : list tlb_event;
}.
Arguments Vmm {_}.
Arguments frames {_}.
Arguments kernel_space_pml4 {_}.
Arguments g_cpu_count {_}.
Arguments tlb_log {_}.

(** [struct vma] (src/kernel/include/sched/task.h); the file is an address. *)
Record vma := Vma {
  vma_start : Z;
  vma_end : Z;
  vma_prot_flags : Z;
  vma_mmap_flags : Z;
  vma_is_anonymous : bool;
  vma_is_private : bool;
  vma_file : Z;
  vma_file_offset : Z;
  vma_flags : Z;
  vma_valid : bool;
}.
(** [current_task->process]: its address space and its VMA table. *)
Record cur_process := CurProcess {
  cp_space : option address_space;
  cp_vmas : list vma;
}.
Definition PROT_READ : Z := 1.
Definition PROT_WRITE : Z := 2.
Definition PROT_EXEC : Z := 4.

(** ** Pure helpers *)

Definition pml4_index (virt : Z) : Z := (virt >>! 39) &! 0x1ff.
Definition pdpt_index (virt : Z) : Z := (virt >>! 30) &! 0x1ff.
Definition pd_index (virt : Z) : Z := (virt >>! 21) &! 0x1ff.
Definition pt_index (virt : Z) : Z := (virt >>! 12) &! 0x1ff.

Definition page_aligned (value : Z) : bool := (value &! PAGE_OFFSET_MASK) =? 0.
Definition entry_phys (entry : Z) : Z := entry &! PAGE_MASK.
Definition make_entry (phys flags : Z) : Z :=
  (phys &! PAGE_MASK) |! (flags &! PAGE_FLAGS_MASK).
Definition table_flags_from_leaf (flags : Z) : Z :=
  let table_flags := VMM_PRESENT |! VMM_WRITABLE in
  if has flags VMM_USER then table_flags |! VMM_USER else table_flags.

Definition vmm_is_user_address (virt : Z) : bool := virt <? VMM_KERNEL_BASE.
Definition vmm_is_kernel_address (virt : Z) : bool := VMM_KERNEL_BASE <=? virt.

(** First valid VMA that covers [page]. *)
Definition find_vma (vmas : list vma) (page : Z) : option vma :=
  snd <$> list_find (λ v, vma_valid v ∧ vma_start v ≤ page < vma_end v) vmas.

#[global] Arguments has : simpl never.
#[global] Arguments pml4_index : simpl never.
#[global] Arguments pdpt_index : simpl never.
#[global] Arguments pd_index : simpl never.
#[global] Arguments pt_index : simpl never.
#[global] Arguments entry_phys : simpl never.
#[global] Arguments make_entry : simpl never.

Section vmm.
Context {S : Type} `{FrameAlloc S}.
Abbreviation M := (prog (vmm S)).

Definition in_frames {A} (m : prog S A) : M A :=
  zoom frames (λ f s, Vmm f (kernel_space_pml4 s) (g_cpu_count s) (tlb_log s)) m.
Definition read64 (p : Z) : M Z := gets (λ s, rd64 (fa_ram (frames s)) p).
Definition upd_ram (f : ram → ram) : M unit :=
  in_frames (modify (λ s, fa_set_ram (f (fa_ram s)) s)).
Definition write64 (p v : Z) : M unit := upd_ram (wr64 p v).
Definition invlpg (virt : Z) : M unit :=
  modify (λ s, Vmm (frames s) (kernel_space_pml4 s) (g_cpu_count s)
                 (tlb_log s ++ [Invlpg virt])).
Definition shootdown (virt : Z) : M unit :=
  modify (λ s, Vmm (frames s) (kernel_space_pml4 s) (g_cpu_count s)
                 (tlb_log s ++ [Shootdown virt])).

(** [space->pml4_phys], [space->self_phys] *)
Definition pml4_phys (space : address_space) : M Z :=
  match space with
  | KernelSpace => gets kernel_space_pml4
  | SpaceAt p => read64 p
  end.
Definition self_phys (space : address_space) : M Z :=
  match space with
  | KernelSpace => mret 0
  | SpaceAt p => read64 (p + 8)
  end.

(** [cr3] is the value [read_cr3] returns. *)
Definition vmm_init (hhdm_offset cr3 : Z) : M unit :=
  if hhdm_offset =? 0 then panic "VMM: missing HHDM offset" else
  modify (λ s, Vmm (frames s) (cr3 &! PAGE_MASK) (g_cpu_count s) (tlb_log s)).

(** ** Table walk *)

Definition ensure_next_table (table index leaf_flags : Z) : M (option Z) :=
  e ← read64 (table + 8 * index);
  if has e VMM_PRESENT then mret (Some (entry_phys e)) else
  new_table ← in_frames fa_alloc;
  if new_table =? 0 then mret None else
  upd_ram (zero_page new_table);;
  write64 (table + 8 * index)
    (make_entry new_table (table_flags_from_leaf leaf_flags));;
  mret (Some new_table).

Definition next_table (create : bool) (table index flags : Z) : M (option Z) :=
  if create then ensure_next_table table index flags else
  e ← read64 (table + 8 * index);
  if has e VMM_PRESENT then mret (Some (entry_phys e)) else mret None.

Definition walk_to_pte (space : address_space) (virt flags : Z) (create : bool)
    : M (option Z) :=
  pml4 ← pml4_phys space;
  pdpt ← next_table create pml4 (pml4_index virt) flags;
  match pdpt with None => mret None | Some pdpt =>
  pd ← next_table create pdpt (pdpt_index virt) flags;
  match pd with None => mret None | Some pd =>
  pt ← next_table create pd (pd_index virt) flags;
  match pt with None => mret None | Some pt =>
  mret (Some (pt + 8 * pt_index virt))
  end end end.

(** ** Mapping operations *)

Definition vmm_map (space : option address_space) (virt phys flags : Z) : M Z :=
  match space with None => mret (-1) | Some space =>
  if negb (page_aligned virt) || negb (page_aligned phys) then mret (-1) else
  if negb (has flags VMM_PRESENT) then mret (-1) else
  pte ← walk_to_pte space virt flags true;
  match pte with None => mret (-1) | Some pte =>
  e ← read64 pte;
  if has e VMM_PRESENT then mret (-1) else
  write64 pte (make_entry phys flags);;
  invlpg virt;;
  mret 0
  end end.

Definition vmm_unmap (space : option address_space) (virt : Z) : M Z :=
  match space with None => mret (-1) | Some space =>
  if negb (page_aligned virt) then mret (-1) else
  pte ← walk_to_pte space virt 0 false;
  match pte with None => mret (-1) | Some pte =>
  e ← read64 pte;
  if negb (has e VMM_PRESENT) then mret (-1) else
  write64 pte 0;;
  invlpg virt;;
  s ← get;
  when ((1 <? g_cpu_count s) && bool_decide (space = KernelSpace)) (shootdown virt);;
  mret 0
  end end.

Definition vmm_protect (space : option address_space) (virt flags : Z) : M Z :=
  match space with None => mret (-1) | Some space =>
  if negb (page_aligned virt) || negb (has flags VMM_PRESENT) then mret (-1) else
  pte ← walk_to_pte space virt 0 false;
  match pte with None => mret (-1) | Some pte =>
  e ← read64 pte;
  if negb (has e VMM_PRESENT) then mret (-1) else
  let phys := entry_phys e in
  write64 pte (make_entry phys flags);;
  invlpg virt;;
  mret 0
  end end.

(** [None] is a [false] result. *)
Definition vmm_virt_to_phys (space : option address_space) (virt : Z)
    : M (option Z) :=
  match space with None => mret None | Some space =>
  pte ← walk_to_pte space (virt &! ~! PAGE_OFFSET_MASK) 0 false;
  match pte with None => mret None | Some pte =>
  e ← read64 pte;
  if negb (has e VMM_PRESENT) then mret None else
  mret (Some (entry_phys e +! (virt &! PAGE_OFFSET_MASK)))
  end end.

(** ** Address spaces *)

Definition vmm_create_address_space : M (option address_space) :=
  pml4_phys ← in_frames fa_alloc;
  if pml4_phys =? 0 then mret None else
  s ← get;
  let kernel_pml4 := kernel_space_pml4 s in
  upd_ram (zero_page pml4_phys);;
  for_each (seqZ 256 256) (λ i,
    e ← read64 (kernel_pml4 + 8 * i);
    write64 (pml4_phys + 8 * i) e);;
  struct_phys ← in_frames fa_alloc;
  if struct_phys =? 0 then in_frames (fa_free pml4_phys);; mret None else
  write64 struct_phys pml4_phys;;
  write64 (struct_phys + 8) struct_phys;;
  write64 (struct_phys + 16) 1;;
  mret (Some (SpaceAt struct_phys)).

(** [for (i = 0; i < n; i++) if (table[i] & VMM_PRESENT) body(i, table[i])] *)
Definition for_present (table n : Z) (body : Z → Z → M unit) : M unit :=
  for_each (seqZ 0 n) (λ i,
    e ← read64 (table + 8 * i);
    if has e VMM_PRESENT then body i e else mret ()).

Definition vmm_destroy_address_space (space : option address_space) : M unit :=
  match space with
  | None | Some KernelSpace => mret ()
  | Some space =>
      pml4 ← pml4_phys space;
      for_present pml4 256 (λ pml4_i e4,
        let pdpt := entry_phys e4 in
        for_present pdpt PAGE_ENTRIES (λ pdpt_i e3,
          let pd := entry_phys e3 in
          for_present pd PAGE_ENTRIES (λ pd_i e2,
            let pt := entry_phys e2 in
            for_present pt PAGE_ENTRIES (λ pt_i e1,
              in_frames (fa_free (entry_phys e1)));;
            e ← read64 (pd + 8 * pd_i); in_frames (fa_free (entry_phys e)));;
          e ← read64 (pdpt + 8 * pdpt_i); in_frames (fa_free (entry_phys e)));;
        e ← read64 (pml4 + 8 * pml4_i); in_frames (fa_free (entry_phys e)));;
      p ← pml4_phys space; in_frames (fa_free p);;
      q ← self_phys space; in_frames (fa_free q)
  end.

(** The loop of [for_present] with an early [return]. *)
Definition for_present_until {R} (table n : Z) (body : Z → Z → M (option R))
    : M (option R) :=
  for_until (Z.to_nat n) 0 1 (λ i,
    e ← read64 (table + 8 * i);
    if has e VMM_PRESENT then body i e else mret None).

(** One leaf entry [e] of the parent, at [pte]; [Some ()] is the failure
    path of the clone. *)
Definition clone_entry (child : address_space) (virt pte e : Z) : M (option unit) :=
  let parent_phys := entry_phys e in
  let flags := e &! PAGE_FLAGS_MASK in
  flags ← (if has flags VMM_WRITABLE then
             let flags := (flags &! ~! VMM_WRITABLE) |! VMM_COW in
             write64 pte ((e &! ~! PAGE_FLAGS_MASK) |! flags);;
             invlpg virt;;
             mret flags
           else mret flags);
  rc ← vmm_map (Some child) virt parent_phys flags;
  if negb (rc =? 0) then
    vmm_destroy_address_space (Some child);; mret (Some ())
  else
    in_frames (fa_ref parent_phys);; mret None.

Definition vmm_clone_address_space (parent : option address_space)
    : M (option address_space) :=
  match parent with None => mret None | Some parent =>
  child ← vmm_create_address_space;
  match child with None => mret None | Some child =>
  parent_pml4 ← pml4_phys parent;
  failed ← for_present_until parent_pml4 256 (λ pml4_i e4,
    let pdpt := entry_phys e4 in
    for_present_until pdpt PAGE_ENTRIES (λ pdpt_i e3,
      let pd := entry_phys e3 in
      for_present_until pd PAGE_ENTRIES (λ pd_i e2,
        let pt := entry_phys e2 in
        for_present_until pt PAGE_ENTRIES (λ pt_i e1,
          let virt := (pml4_i <<! 39) |! (pdpt_i <<! 30)
                        |! (pd_i <<! 21) |! (pt_i <<! 12) in
          clone_entry child virt (pt + 8 * pt_i) e1))));
  match failed with Some _ => mret None | None => mret (Some child) end
  end end.

(** ** Copy on write *)

Definition vmm_handle_cow (space : option address_space) (virt : Z) : M Z :=
  match space with None => mret (-1) | Some space =>
  let fault_page := virt &! ~! PAGE_OFFSET_MASK in
  pte ← walk_to_pte space fault_page 0 false;
  match pte with None => mret (-1) | Some pte =>
  e ← read64 pte;
  if negb (has e VMM_PRESENT) then mret (-1) else
  if negb (has e VMM_COW) then mret (-1) else
  let old_phys := entry_phys e in
  ref ← in_frames (fa_get_ref old_phys);
  let flags := ((e &! PAGE_FLAGS_MASK) &! ~! VMM_COW) |! VMM_WRITABLE in
  if ref =? 1 then
    write64 pte ((e &! ~! PAGE_FLAGS_MASK) |! flags);;
    invlpg fault_page;;
    mret 0
  else if 1 <? ref then
    new_phys ← in_frames fa_alloc;
    if new_phys =? 0 then mret (-2) else
    upd_ram (copy_page new_phys old_phys);;
    write64 pte (new_phys |! flags);;
    invlpg fault_page;;
    in_frames (fa_free old_phys);;
    mret 0
  else mret (-1)
  end end.

(** ** User pointers *)

(** [pte != 0 && ( *pte & flag) != 0] *)
Definition pte_has (pte : option Z) (flag : Z) : M bool :=
  match pte with
  | None => mret false
  | Some p => e ← read64 p; mret (has e flag)
  end.

(** The VMA of the current process that covers [page], when [space] is the
    address space of the current process. *)
Definition current_vma (cur : option cur_process) (space : address_space) (page : Z)
    : option vma :=
  match cur with
  | Some proc =>
      if bool_decide (cp_space proc = Some space) then find_vma (cp_vmas proc) page
      else None
  | None => None
  end.

(** The page is not present: map it if a VMA allows the access.  [None] is
    the [return false] of the code. *)
Definition lazy_map (cur : option cur_process) (space : address_space)
    (page : Z) (require_write : bool) (pte : option Z) : M (option (option Z)) :=
  match current_vma cur space page with
  | None => mret (Some pte)
  | Some v =>
      if require_write && negb (has (vma_prot_flags v) PROT_WRITE) then mret None else
      if negb require_write && negb (has (vma_prot_flags v) PROT_READ) then mret None else
      phys ← in_frames fa_alloc;
      if phys =? 0 then mret None else
      upd_ram (zero_page phys);;
      rc ← vmm_map (Some space) page phys (vma_flags v);
      if negb (rc =? 0) then in_frames (fa_free phys);; mret None else
      pte ← walk_to_pte space page 0 false;
      mret (Some pte)
  end.

(** The page is present but not writable, and a write is required. *)
Definition make_writable (cur : option cur_process) (space : address_space)
    (page : Z) (pte : option Z) : M (option Z) :=
  cow ← pte_has pte VMM_COW;
  pte ← (if cow : bool then
           cow_rc ← vmm_handle_cow (Some space) page;
           if cow_rc =? 0 then walk_to_pte space page 0 false else mret pte
         else mret pte);
  writable ← pte_has pte VMM_WRITABLE;
  if writable : bool then mret pte else
  match current_vma cur space page with
  | Some v =>
      if has (vma_prot_flags v) PROT_WRITE then
        rc ← vmm_protect (Some space) page (vma_flags v);
        if rc =? 0 then walk_to_pte space page 0 false else mret pte
      else mret pte
  | None => mret pte
  end.

(** One iteration of the page loop; [Some ()] is [return false]. *)
Definition validate_page (cur : option cur_process) (space : address_space)
    (require_write : bool) (page : Z) : M (option unit) :=
  pte ← walk_to_pte space page 0 false;
  present ← pte_has pte VMM_PRESENT;
  r ← (if present : bool then mret (Some pte)
       else lazy_map cur space page require_write pte);
  match r with None => mret (Some ()) | Some pte =>
  present ← pte_has pte VMM_PRESENT;
  if negb present then mret (Some ()) else
  user ← pte_has pte VMM_USER;
  if negb user then mret (Some ()) else
  if negb require_write then mret None else
  writable ← pte_has pte VMM_WRITABLE;
  if writable : bool then mret None else
  pte ← make_writable cur space page pte;
  writable ← pte_has pte VMM_WRITABLE;
  if writable : bool then mret None else mret (Some ())
  end.

Definition vmm_validate_user_ptr_ex (cur : option cur_process)
    (space : option address_space) (ptr length : Z) (require_write : bool) : M bool :=
  match space with None => mret false | Some space =>
  if length =? 0 then mret true else
  if ptr =? 0 then mret false else
  let start := ptr in
  let last := (start +! length) -! 1 in
  if last <? start then mret false else
  if (start <? VMM_USER_BASE) || (VMM_USER_TOP <? last) then mret false else
  if negb (vmm_is_user_address start) || negb (vmm_is_user_address last)
  then mret false else
  let page := start &! ~! PAGE_OFFSET_MASK in
  let last_page := last &! ~! PAGE_OFFSET_MASK in
  failed ← for_until (Z.to_nat ((last_page - page) / VMM_PAGE_SIZE + 1))
             page VMM_PAGE_SIZE (validate_page cur space require_write);
  match failed with Some _ => mret false | None => mret true end
  end.

Definition vmm_validate_user_ptr cur space ptr length : M bool :=
  vmm_validate_user_ptr_ex cur space ptr length false.
Definition vmm_validate_user_ptr_writable cur space ptr length : M bool :=
  vmm_validate_user_ptr_ex cur space ptr length true.

(** Bytes of the chunk that starts at [addr]. *)
Definition chunk_size (addr remaining : Z) : Z :=
  let page_left := VMM_PAGE_SIZE - (addr &! PAGE_OFFSET_MASK) in
  if remaining <? page_left then remaining else page_left.

Fixpoint copy_in (fuel : nat) (space : option address_space) (src remaining : Z)
    (dst : list Z) : M (option (list Z)) :=
  if remaining <=? 0 then mret (Some dst) else
  match fuel with
  | O => spin
  | Datatypes.S fuel =>
      phys ← vmm_virt_to_phys space src;
      match phys with None => mret None | Some phys =>
      let chunk := chunk_size src remaining in
      bytes ← gets (λ s, rd_bytes (fa_ram (frames s)) phys chunk);
      copy_in fuel space (src +! chunk) (remaining - chunk) (dst ++ bytes)
      end
  end.

(** The bytes copied into the kernel buffer, or [None] for [-1].
    [kernel_dst] says whether the destination pointer is not null. *)
Definition vmm_copy_from_user (cur : option cur_process) (kernel_dst : bool)
    (space : option address_space) (user_src length : Z) : M (option (list Z)) :=
  if length =? 0 then mret (Some []) else
  if negb kernel_dst then mret None else
  ok ← vmm_validate_user_ptr cur space user_src length;
  if negb ok then mret None else
  copy_in (Z.to_nat length) space user_src length [].

Fixpoint copy_out (fuel : nat) (space : option address_space) (dst : Z)
    (src : list Z) : M Z :=
  let remaining := Z.of_nat (length src) in
  if remaining <=? 0 then mret 0 else
  match fuel with
  | O => spin
  | Datatypes.S fuel =>
      phys ← vmm_virt_to_phys space dst;
      match phys with None => mret (-1) | Some phys =>
      let chunk := chunk_size dst remaining in
      upd_ram (wr_bytes phys (take (Z.to_nat chunk) src));;
      copy_out fuel space (dst +! chunk) (drop (Z.to_nat chunk) src)
      end
  end.

(** [kernel_src] is the source buffer, [None] a null pointer. *)
Definition vmm_copy_to_user (cur : option cur_process) (space : option address_space)
    (user_dst : Z) (kernel_src : option (list Z)) : M Z :=
  match kernel_src with
  | Some [] => mret 0
  | None => mret (-1)
  | Some src =>
      ok ← vmm_validate_user_ptr_writable cur space user_dst (Z.of_nat (length src));
      if negb ok then mret (-1) else
      copy_out (length src) space user_dst src
  end.
End vmm.
