(* ===== verification/PageTable.v ===== *)
(** * Page tables in memory.

    What the hardware sees: the tree of tables rooted at a PML4 frame and the
    leaf entry that translates a virtual page.  The lemmas say how one write
    to a table changes the tree. *)

From S2P Require Import Prelude Bits Ram Vmm.

(** ** Entries *)

Lemma page_mask_bits k : 0 ≤ k → Z.testbit PAGE_MASK k = (12 <=? k) && (k <? 52).
Proof.
  intros Hk. change PAGE_MASK with (Z.shiftl (Z.ones 40) 12).
  rewrite Z.shiftl_spec by done. destruct (Z.leb_spec 12 k).
  - rewrite Z.testbit_ones by lia. apply eq_true_iff_eq.
    rewrite !andb_true_iff, Z.leb_le, !Z.ltb_lt. lia.
  - by rewrite Z.testbit_neg_r by lia.
Qed.

Lemma flags_mask_bits k : 0 ≤ k →
  Z.testbit PAGE_FLAGS_MASK k = negb (Z.testbit PAGE_MASK k) && (k <? 64).
Proof.
  intros Hk. change PAGE_FLAGS_MASK with (u64 (Z.lnot PAGE_MASK)).
  by rewrite u64_testbit, Z.lnot_spec.
Qed.

Lemma has_bit x k : 0 ≤ k → has x (2 ^ k) = Z.testbit x k.
Proof.
  intros Hk. unfold has. rewrite <-(land_bit_nonzero x k Hk), <-Z.shiftl_1_l.
  apply eq_true_iff_eq. rewrite negb_true_iff, Z.eqb_neq, bool_decide_eq_true. done.
Qed.
Lemma has_present x : has x VMM_PRESENT = Z.testbit x 0.
Proof. by apply (has_bit x 0). Qed.

Lemma page_ok_bits p k : page_ok p → 0 ≤ k < 12 → Z.testbit p k = false.
Proof.
  intros Hp Hk. unfold page_ok, PAGE_SIZE in Hp. change 4096 with (2 ^ 12) in Hp.
  rewrite <-(Z.mod_pow2_bits_low p 12 k) by lia. by rewrite Hp, Z.bits_0.
Qed.

Definition frame_ok (p : Z) : Prop := page_ok p ∧ 0 ≤ p < 2 ^ 52.

Lemma land_page_mask p : frame_ok p → p &! PAGE_MASK = p.
Proof.
  intros [Hp Hr]. apply Z.bits_inj'. intros k Hk. rewrite Z.land_spec, page_mask_bits by done.
  destruct (Z.leb_spec 12 k), (Z.ltb_spec k 52); simpl; rewrite ?andb_true_r; try done.
  - by rewrite (testbit_above 52 p) by (done || lia).
  - by rewrite page_ok_bits by (done || lia).
  - by rewrite page_ok_bits by (done || lia).
Qed.

Lemma land_page_mask_align x : (x &! PAGE_MASK) = (x `mod` 2 ^ 52) / 4096 * 4096.
Proof.
  change 4096 with (2 ^ 12). rewrite <-Z.shiftr_div_pow2, <-Z.shiftl_mul_pow2 by lia.
  apply Z.bits_inj'. intros k Hk. rewrite Z.land_spec, page_mask_bits, Z.shiftl_spec by done.
  destruct (Z.leb_spec 12 k); simpl.
  - rewrite Z.shiftr_spec by lia. replace (k - 12 + 12) with k by lia.
    destruct (Z.ltb_spec k 52); [by rewrite Z.mod_pow2_bits_low, andb_true_r|].
    by rewrite Z.mod_pow2_bits_high, andb_false_r by lia.
  - by rewrite (Z.testbit_neg_r _ (k - 12)), andb_false_r by lia.
Qed.

Lemma entry_phys_ok e : frame_ok (entry_phys e).
Proof.
  unfold entry_phys. rewrite land_page_mask_align.
  pose proof (Z.mod_pos_bound e (2 ^ 52) ltac:(lia)).
  pose proof (Z.mul_div_le (e `mod` 2 ^ 52) 4096).
  pose proof (Z.div_pos (e `mod` 2 ^ 52) 4096).
  split; [by apply Z.mod_mul|lia].
Qed.

Lemma entry_phys_make p f : frame_ok p → entry_phys (make_entry p f) = p.
Proof.
  intros Hp. unfold entry_phys, make_entry. rewrite (land_page_mask p Hp).
  rewrite Z.land_lor_distr_l, (land_page_mask p Hp).
  rewrite <-Z.land_assoc. change (PAGE_FLAGS_MASK &! PAGE_MASK) with 0.
  by rewrite Z.land_0_r, Z.lor_0_r.
Qed.

(** The flag bits of an entry are those it was made with. *)
Lemma has_make p f k : frame_ok p → 0 ≤ k < 12 ∨ 52 ≤ k < 64 →
  has (make_entry p f) (2 ^ k) = has f (2 ^ k).
Proof.
  intros [Hp Hr] Hk. rewrite !has_bit by lia. unfold make_entry.
  rewrite Z.lor_spec, !Z.land_spec, flags_mask_bits, page_mask_bits by lia.
  destruct Hk.
  - rewrite page_ok_bits by done. rewrite (proj2 (Z.leb_gt 12 k)) by lia.
    rewrite (proj2 (Z.ltb_lt k 64)) by lia. by rewrite andb_true_r.
  - rewrite (testbit_above 52 p) by (done || lia).
    rewrite (proj2 (Z.ltb_ge k 52)), (proj2 (Z.ltb_lt k 64)) by lia.
    by rewrite andb_false_r, andb_true_r.
Qed.

Lemma present_make p f : frame_ok p →
  has (make_entry p f) VMM_PRESENT = has f VMM_PRESENT.
Proof. intros Hp. apply (has_make p f 0); [done|lia]. Qed.

Lemma table_flags_present f : has (table_flags_from_leaf f) VMM_PRESENT = true.
Proof. unfold table_flags_from_leaf. by destruct (has f VMM_USER). Qed.

(** ** Virtual addresses *)

Definition va_path (va : Z) : list Z :=
  [pml4_index va; pdpt_index va; pd_index va; pt_index va].

Definition idx_ok (i : Z) : Prop := 0 ≤ i < 512.

Lemma index_ok x : idx_ok (x &! 0x1ff).
Proof.
  unfold idx_ok. change 0x1ff with (2 ^ 9 - 1). rewrite land_low_mask by lia.
  by apply Z.mod_pos_bound.
Qed.

Lemma va_path_ok va : Forall idx_ok (va_path va).
Proof. repeat constructor; apply index_ok. Qed.

(** Two 48-bit pages with the same path are the same page. *)
Lemma va_path_inj va vb :
  0 ≤ va < 2 ^ 48 → 0 ≤ vb < 2 ^ 48 → page_ok va → page_ok vb →
  va_path va = va_path vb → va = vb.
Proof.
  intros Ha Hb Hpa Hpb [= H4 H3 H2 H1]. apply Z.bits_inj'. intros k Hk.
  assert (Hfield : ∀ n, 0 ≤ n → (va >>! n) &! 0x1ff = (vb >>! n) &! 0x1ff →
    n ≤ k < n + 9 → Z.testbit va k = Z.testbit vb k).
  { intros n Hn He Hr. apply (f_equal (λ z, Z.testbit z (k - n))) in He.
    rewrite !Z.land_spec, !Z.shiftr_spec in He by lia.
    replace (k - n + n) with k in He by lia. change 0x1ff with (Z.ones 9) in He.
    rewrite Z.ones_spec_low, !andb_true_r in He by lia. done. }
  destruct (decide (k < 12)); [by rewrite !page_ok_bits by (done || lia)|].
  destruct (decide (k < 21)); [by apply (Hfield 12); [lia|exact H1|lia]|].
  destruct (decide (k < 30)); [by apply (Hfield 21); [lia|exact H2|lia]|].
  destruct (decide (k < 39)); [by apply (Hfield 30); [lia|exact H3|lia]|].
  destruct (decide (k < 48)); [by apply (Hfield 39); [lia|exact H4|lia]|].
  by rewrite !(testbit_above 48) by (done || lia).
Qed.

(** ** The tree of tables *)

Definition pt_entry (r : ram) (table i : Z) : Z := rd64 r (table + 8 * i).
Definition pt_child (r : ram) (table i : Z) : option Z :=
  let e := pt_entry r table i in
  if has e VMM_PRESENT then Some (entry_phys e) else None.

#[global] Arguments pt_entry : simpl never.
#[global] Arguments pt_child : simpl never.

(** The table reached from [root] by a path of indices. *)
Fixpoint table_at (r : ram) (root : Z) (path : list Z) : option Z :=
  match path with
  | [] => Some root
  | i :: path => t ← pt_child r root i; table_at r t path
  end.

Lemma table_at_app r root p q :
  table_at r root (p ++ q) = (t ← table_at r root p; table_at r t q).
Proof.
  revert root. induction p as [|i p IH]; intros root; [done|]. simpl.
  destruct (pt_child r root i); simpl; [apply IH|done].
Qed.

Lemma table_at_snoc r root p i :
  table_at r root (p ++ [i]) = (t ← table_at r root p; pt_child r t i).
Proof.
  rewrite table_at_app. destruct (table_at r root p) as [t|]; simpl; [|done].
  by destruct (pt_child r t i).
Qed.

Lemma table_at_frame r root p t :
  frame_ok root → table_at r root p = Some t → frame_ok t.
Proof.
  intros Hr. destruct p as [|i p _] using rev_ind; [by intros [= <-]|].
  rewrite table_at_snoc. destruct (table_at r root p) as [u|]; simpl; [|done].
  unfold pt_child. destruct (has _ _); [|done]. intros [= <-]. apply entry_phys_ok.
Qed.

(** The paths that lead to tables: three indices at most. *)
Definition path_ok (p : list Z) : Prop := (length p ≤ 3)%nat ∧ Forall idx_ok p.

Lemma path_ok_prefix p q : path_ok (p ++ q) → path_ok p.
Proof. intros [Hl Hf]. rewrite length_app in Hl. apply Forall_app in Hf as [? _]. split; [lia|done]. Qed.

(** A frame holds at most one table of the tree. *)
Definition tables_inj (r : ram) (root : Z) : Prop :=
  ∀ p q t, path_ok p → path_ok q →
    table_at r root p = Some t → table_at r root q = Some t → p = q.

(** The path of the table that holds the leaf entry of [va]. *)
Definition walk_path (va : Z) : list Z :=
  [pml4_index va; pdpt_index va; pd_index va].

(** The leaf entry that translates [va], when it is present. *)
Definition leaf (r : ram) (root va : Z) : option Z :=
  pt ← table_at r root (walk_path va);
  let e := pt_entry r pt (pt_index va) in
  if has e VMM_PRESENT then Some e else None.

(** What the MMU computes for [va]. *)
Definition translate (r : ram) (root va : Z) : option Z :=
  e ← leaf r root va; Some (entry_phys e + va `mod` 4096).

#[global] Arguments va_path : simpl never.
#[global] Arguments walk_path : simpl never.

Lemma walk_path_ok va : path_ok (walk_path va).
Proof. split; [simpl; lia|]. repeat constructor; apply index_ok. Qed.

Lemma va_path_walk va vb : va_path va = va_path vb ↔
  walk_path va = walk_path vb ∧ pt_index va = pt_index vb.
Proof.
  unfold va_path, walk_path. split.
  - intros [= -> -> -> ->]. done.
  - intros [[= -> -> ->] ->]. done.
Qed.

Definition page_of (va : Z) : Z := va &! ~! PAGE_OFFSET_MASK.

Lemma page_of_bits va k : 0 ≤ k → Z.testbit (page_of va) k =
  Z.testbit va k && (12 <=? k) && (k <? 64).
Proof.
  intros Hk. unfold page_of. change PAGE_OFFSET_MASK with (Z.ones 12).
  rewrite Z.land_spec, u64_testbit, Z.lnot_spec, Z.testbit_ones by lia.
  rewrite (proj2 (Z.leb_le 0 k)) by done. simpl.
  rewrite <-andb_assoc. do 2 f_equal. apply eq_true_iff_eq.
  rewrite negb_true_iff, Z.ltb_ge, Z.leb_le. done.
Qed.

Lemma page_of_index va n : 12 ≤ n ≤ 55 →
  (page_of va >>! n) &! 0x1ff = (va >>! n) &! 0x1ff.
Proof.
  intros Hn. apply Z.bits_inj'. intros k Hk.
  change 0x1ff with (Z.ones 9). rewrite !Z.land_spec, !Z.shiftr_spec by lia.
  rewrite Z.testbit_ones, page_of_bits by lia.
  destruct (Z.leb_spec 0 k), (Z.ltb_spec k 9); simpl; rewrite ?andb_false_r, ?andb_true_r;
    try done; try lia.
  rewrite (proj2 (Z.leb_le 12 (k + n))), (proj2 (Z.ltb_lt (k + n) 64)) by lia.
  by rewrite !andb_true_r.
Qed.

Lemma page_of_path va : va_path (page_of va) = va_path va.
Proof.
  unfold va_path, pml4_index, pdpt_index, pd_index, pt_index.
  by rewrite !page_of_index by lia.
Qed.

Lemma page_of_walk va : walk_path (page_of va) = walk_path va.
Proof. by destruct (proj1 (va_path_walk _ _) (page_of_path va)). Qed.
Lemma page_of_pt va : pt_index (page_of va) = pt_index va.
Proof. by destruct (proj1 (va_path_walk _ _) (page_of_path va)). Qed.

Lemma offset_mod va : va &! PAGE_OFFSET_MASK = va `mod` 4096.
Proof. change PAGE_OFFSET_MASK with (2 ^ 12 - 1). by rewrite land_low_mask. Qed.

Lemma page_aligned_ok va : page_aligned va = true ↔ page_ok va.
Proof. unfold page_aligned. rewrite Z.eqb_eq, offset_mod. done. Qed.

Lemma leaf_path r root va vb : va_path va = va_path vb → leaf r root va = leaf r root vb.
Proof. intros [Hw Hi]%va_path_walk. unfold leaf. by rewrite Hw, Hi. Qed.

(** ** Writes *)

Lemma pt_entry_write r t i v u j :
  page_ok t → page_ok u → idx_ok i → idx_ok j →
  pt_entry (wr64 (t + 8 * i) v r) u j =
    if decide (t = u ∧ i = j) then v else pt_entry r u j.
Proof.
  intros Ht Hu Hi Hj. unfold pt_entry. rewrite rd64_wr64.
  destruct (decide (_ / 8 = _ / 8)) as [He|He].
  - apply page_disjoint_words in He as [-> ->]; [|done..]. by rewrite decide_True.
  - rewrite decide_False; [done|]. by intros [-> ->].
Qed.

Lemma pt_entry_zero_page r f u j :
  page_ok f → page_ok u → idx_ok j →
  pt_entry (zero_page f r) u j = if decide (f = u) then 0 else pt_entry r u j.
Proof. intros. by apply rd64_zero_page_page. Qed.

(** Only the entries met on the way matter. *)
Lemma table_at_ext r r' root q :
  Forall idx_ok q →
  (∀ q1 j q2 t, q = q1 ++ j :: q2 → table_at r root q1 = Some t →
     pt_entry r' t j = pt_entry r t j) →
  table_at r' root q = table_at r root q.
Proof.
  induction q as [|j q IH] using rev_ind; intros Hq Hent; [done|].
  apply Forall_app in Hq as [Hq Hj%Forall_singleton].
  rewrite !table_at_snoc, IH; [|done|].
  - destruct (table_at r root q) as [t|] eqn:Ht; simpl; [|done].
    unfold pt_child. by rewrite (Hent q j [] t).
  - intros q1 k q2 t -> Ht. apply (Hent q1 k (q2 ++ [j])); [|done].
    by rewrite <-app_assoc.
Qed.

Section write.
Context (r : ram) (root : Z) (Hroot : frame_ok root) (Hinj : tables_inj r root).

(** A write to entry [i] of the table at [p] is seen only below [p ++ [i]]. *)
Lemma table_at_write p t i v q :
  path_ok p → idx_ok i → table_at r root p = Some t →
  path_ok q → ¬ (p ++ [i]) `prefix_of` q →
  table_at (wr64 (t + 8 * i) v r) root q = table_at r root q.
Proof.
  intros Hp Hi Ht Hq Hpre. apply table_at_ext; [apply Hq|].
  intros q1 j q2 u -> Hu.
  assert (Hj : idx_ok j).
  { destruct Hq as [_ Hf]. apply Forall_app in Hf as [_ Hf]. by apply Forall_cons in Hf as [? _]. }
  rewrite pt_entry_write; [|by eapply table_at_frame..|done|done].
  rewrite decide_False; [done|]. intros [-> ->]. apply Hpre.
  rewrite (Hinj p q1 u) by eauto using path_ok_prefix. exists q2. by rewrite <-app_assoc.
Qed.

(** Clearing a frame that holds no table changes no table. *)
Lemma table_at_zero f q :
  page_ok f → (∀ p, path_ok p → table_at r root p ≠ Some f) → path_ok q →
  table_at (zero_page f r) root q = table_at r root q.
Proof.
  intros Hf Hfresh Hq. apply table_at_ext; [apply Hq|].
  intros q1 j q2 u -> Hu.
  assert (Hj : idx_ok j).
  { destruct Hq as [_ Hb]. apply Forall_app in Hb as [_ Hb]. by apply Forall_cons in Hb as [? _]. }
  rewrite pt_entry_zero_page; [|done|by eapply table_at_frame|done].
  rewrite decide_False; [done|]. intros ->. by apply (Hfresh q1); [eapply path_ok_prefix|].
Qed.

Lemma not_prefix_longer {A} (p q : list A) : (length q < length p)%nat → ¬ p `prefix_of` q.
Proof. intros Hl Hp%prefix_length. lia. Qed.

(** *** Leaf entries *)

Lemma table_at_leaf_write p t i v q :
  path_ok p → length p = 3%nat → idx_ok i → table_at r root p = Some t → path_ok q →
  table_at (wr64 (t + 8 * i) v r) root q = table_at r root q.
Proof.
  intros Hp Hl Hi Ht Hq. apply (table_at_write p); try done.
  apply not_prefix_longer. rewrite length_app. simpl. destruct Hq. lia.
Qed.

Lemma leaf_write va t v vb :
  table_at r root (walk_path va) = Some t →
  leaf (wr64 (t + 8 * pt_index va) v r) root vb =
    if decide (va_path va = va_path vb) then
      if has v VMM_PRESENT then Some v else None
    else leaf r root vb.
Proof.
  intros Ht. unfold leaf.
  pose proof (walk_path_ok va) as Hpa. pose proof (walk_path_ok vb) as Hpb.
  rewrite (table_at_leaf_write _ t _ v _ Hpa) by (done || apply index_ok).
  destruct (table_at r root (walk_path vb)) as [u|] eqn:Hu; cbn [mbind option_bind].
  - rewrite pt_entry_write by (by eapply table_at_frame || apply index_ok).
    destruct (decide (t = u ∧ _)) as [[-> Hi]|Hne].
    + rewrite decide_True; [done|]. apply va_path_walk.
      split; [by eapply Hinj|done].
    + rewrite decide_False; [done|]. intros [Hw H1]%va_path_walk.
      apply Hne. split; [|done]. rewrite Hw in Ht. congruence.
  - rewrite decide_False; [done|]. intros [Hw H1]%va_path_walk.
    rewrite Hw in Ht. congruence.
Qed.

(** *** New tables *)

Section create.
Context (p : list Z) (t i f tf : Z).
Context (Hp : path_ok p) (Hlen : (length p ≤ 2)%nat) (Hi : idx_ok i).
Context (Ht : table_at r root p = Some t) (Hnone : pt_child r t i = None).
Context (Hf : frame_ok f) (Hfresh : ∀ p, path_ok p → table_at r root p ≠ Some f).
Context (Htf : has tf VMM_PRESENT = true).

Let r2 := wr64 (t + 8 * i) (make_entry f tf) (zero_page f r).

Lemma created_path : path_ok (p ++ [i]).
Proof.
  destruct Hp as [_ Hall]. split; [rewrite length_app; simpl; lia|].
  apply Forall_app. split; [done|]. by apply Forall_singleton.
Qed.

Lemma created_t_f : t ≠ f.
Proof. intros ->. by apply (Hfresh p). Qed.

Lemma created_entry u j : frame_ok u → idx_ok j →
  pt_entry r2 u j = if decide (t = u ∧ i = j) then make_entry f tf
                    else if decide (f = u) then 0 else pt_entry r u j.
Proof.
  intros Hu Hj. pose proof (table_at_frame _ _ _ _ Hroot Ht) as Htok.
  unfold r2. rewrite pt_entry_write by (done || apply Htok || apply Hu).
  destruct (decide _); [done|].
  by rewrite pt_entry_zero_page by (done || apply Hf || apply Hu).
Qed.

Lemma created_other q : path_ok q → ¬ (p ++ [i]) `prefix_of` q →
  table_at r2 root q = table_at r root q.
Proof.
  intros Hq Hpre. apply table_at_ext; [apply Hq|]. intros q1 j q2 u -> Hu.
  assert (Hj : idx_ok j).
  { destruct Hq as [_ Hb]. apply Forall_app in Hb as [_ Hb]. by apply Forall_cons in Hb as [? _]. }
  pose proof (table_at_frame _ _ _ _ Hroot Hu).
  rewrite created_entry by done. rewrite decide_False, decide_False; [done| |].
  - intros ->. by apply (Hfresh q1); [eapply path_ok_prefix|].
  - intros [-> ->]. apply Hpre. rewrite (Hinj p q1 u) by eauto using path_ok_prefix.
    exists q2. by rewrite <-app_assoc.
Qed.

Lemma created_here : table_at r2 root (p ++ [i]) = Some f.
Proof.
  rewrite table_at_snoc, created_other, Ht; [|done|].
  2:{ apply not_prefix_longer. rewrite length_app. simpl. lia. }
  simpl. unfold pt_child.
  rewrite created_entry by (done || exact (table_at_frame _ _ _ _ Hroot Ht)).
  rewrite decide_True by done. rewrite present_make by done.
  by rewrite Htf, entry_phys_make.
Qed.

Lemma created_table q : path_ok q →
  table_at r2 root q = if decide (q = p ++ [i]) then Some f else table_at r root q.
Proof.
  intros Hq. destruct (decide (q = p ++ [i])) as [->|Hne]; [apply created_here|].
  destruct (decide ((p ++ [i]) `prefix_of` q)) as [[q' ->]|Hpre]; [|by apply created_other].
  destruct q' as [|j q']; [by rewrite app_nil_r in Hne|].
  rewrite (table_at_app r2 root (p ++ [i])), (table_at_app r root (p ++ [i])), created_here.
  rewrite table_at_snoc, Ht. cbn [mbind option_bind table_at]. rewrite Hnone.
  assert (Hj : idx_ok j).
  { destruct Hq as [_ Hb]. apply Forall_app in Hb as [_ Hb]. by apply Forall_cons in Hb as [? _]. }
  cbn [mbind option_bind]. unfold pt_child. rewrite created_entry by done.
  rewrite decide_False by (intros [? _]; by apply created_t_f).
  by rewrite decide_True.
Qed.

Lemma created_inj : tables_inj r2 root.
Proof.
  intros p1 p2 u H1 H2. rewrite !created_table by done.
  destruct (decide (p1 = p ++ [i])), (decide (p2 = p ++ [i])); intros E1 E2.
  - congruence.
  - injection E1 as <-. by destruct (Hfresh p2).
  - injection E2 as <-. by destruct (Hfresh p1).
  - by eapply Hinj.
Qed.

Lemma created_leaf va : leaf r2 root va = leaf r root va.
Proof.
  unfold leaf. pose proof (walk_path_ok va) as Hva. rewrite created_table by done.
  destruct (decide (_ = p ++ [i])) as [He|Hne]; cbn [mbind option_bind].
  - rewrite created_entry by (done || apply index_ok).
    rewrite decide_False by (intros [? _]; by apply created_t_f).
    rewrite decide_True by done. rewrite He, table_at_snoc, Ht. cbn [mbind option_bind]. by rewrite Hnone.
  - destruct (table_at r root (walk_path va)) as [u|] eqn:Hu; cbn [mbind option_bind]; [|done].
    pose proof (table_at_frame _ _ _ _ Hroot Hu).
    rewrite created_entry by (done || apply index_ok). rewrite decide_False, decide_False; [done| |].
    + intros ->. by apply (Hfresh _ Hva).
    + intros [Heq _]. assert (Hpv : p = walk_path va).
      { apply (Hinj p (walk_path va) u); [done|done|by rewrite <-Heq|done]. }
      pose proof Hlen as Hl. rewrite Hpv in Hl. unfold walk_path in Hl. simpl in Hl. lia.
Qed.
End create.
End write.

(** ** Memory changes outside the tables *)

Definition is_table (r : ram) (root t : Z) : Prop :=
  ∃ p, path_ok p ∧ table_at r root p = Some t.

Lemma path_ok_at q1 j q2 : path_ok (q1 ++ j :: q2) → path_ok q1 ∧ idx_ok j.
Proof.
  intros Hq. split; [by eapply path_ok_prefix|]. destruct Hq as [_ Hf].
  apply Forall_app in Hf as [_ Hf]. by apply Forall_cons in Hf as [? _].
Qed.

Lemma table_at_same r r' root :
  (∀ t j, is_table r root t → idx_ok j → pt_entry r' t j = pt_entry r t j) →
  ∀ p, path_ok p → table_at r' root p = table_at r root p.
Proof.
  intros Hent p Hp. apply table_at_ext; [apply Hp|]. intros q1 j q2 t -> Ht.
  apply path_ok_at in Hp as [Hq1 Hj]. apply Hent; [by exists q1|done].
Qed.

Lemma leaf_same r r' root va :
  (∀ t j, is_table r root t → idx_ok j → pt_entry r' t j = pt_entry r t j) →
  leaf r' root va = leaf r root va.
Proof.
  intros Hent. unfold leaf. rewrite (table_at_same r r' root Hent) by apply walk_path_ok.
  destruct (table_at r root (walk_path va)) as [t|] eqn:Ht; cbn [mbind option_bind]; [|done].
  rewrite Hent; [done| |apply index_ok]. exists (walk_path va). split; [apply walk_path_ok|done].
Qed.
