(* ===== verification/VmmSpec.v ===== *)
(** * The page-table routines against the frame-allocator interface. *)

From S2P Require Import Prelude Bits Ram Frames Vmm PageTable.

Section vmm_spec.
Context {S : Type} `{FrameAllocLaws S}.
Implicit Types s : vmm S.

Definition ram_of s : ram := fa_ram (frames s).
Definition with_frames (f : S) s : vmm S :=
  Vmm f (kernel_space_pml4 s) (g_cpu_count s) (tlb_log s).
Definition ram_upd (f : ram → ram) s : vmm S :=
  with_frames (fa_set_ram (f (ram_of s)) (frames s)) s.
Definition logged (l : list tlb_event) s : vmm S :=
  Vmm (frames s) (kernel_space_pml4 s) (g_cpu_count s) (tlb_log s ++ l).

Lemma ram_of_upd f s : ram_of (ram_upd f s) = f (ram_of s).
Proof. apply fa_ram_set. Qed.

Lemma wp_read64 p (Q : Z → vmm S → Prop) s :
  Q (rd64 (ram_of s) p) s → wp (read64 p) Q s.
Proof. done. Qed.
Lemma wp_in_frames {A} (m : prog S A) (Q : A → vmm S → Prop) s :
  wp m (λ a f, Q a (with_frames f s)) (frames s) → wp (in_frames m) Q s.
Proof. intros. by apply wp_zoom. Qed.
Lemma wp_upd_ram f (Q : unit → vmm S → Prop) s :
  Q () (ram_upd f s) → wp (upd_ram f) Q s.
Proof. done. Qed.

Lemma wp_invlpg v (Q : unit → vmm S → Prop) s :
  Q () (logged [Invlpg v] s) → wp (invlpg v) Q s.
Proof. done. Qed.
Lemma wp_shootdown v (Q : unit → vmm S → Prop) s :
  Q () (logged [Shootdown v] s) → wp (shootdown v) Q s.
Proof. done. Qed.
Lemma logged_logged l l' s : logged l (logged l' s) = logged (l' ++ l) s.
Proof. unfold logged. cbn. by rewrite <-app_assoc. Qed.

Lemma read64_run p s : read64 p s = Done (rd64 (ram_of s) p, s).
Proof. done. Qed.
Lemma upd_ram_run f s : upd_ram f s = Done ((), ram_upd f s).
Proof. done. Qed.

(** ** Address spaces *)

(** The page tables under [root] are a tree of frames in use. *)
Record space_ok s (root : Z) : Prop := {
  so_root : frame_ok root;
  so_inj : tables_inj (ram_of s) root;
  so_used : ∀ p t, path_ok p → table_at (ram_of s) root p = Some t →
    fa_used (frames s) t;
}.

(** [q] is a frame in use that holds no table under [root]. *)
Definition other_frame s (root q : Z) : Prop :=
  fa_used (frames s) q ∧ page_ok q ∧
  ∀ p, path_ok p → table_at (ram_of s) root p ≠ Some q.

(** [space] is an address-space structure whose tables start at [root]. *)
Definition space_root s (space : address_space) (root : Z) : Prop :=
  match space with
  | KernelSpace => kernel_space_pml4 s = root
  | SpaceAt p => rd64 (ram_of s) p = root ∧ other_frame s root p
  end.

Lemma pml4_phys_run s space root :
  space_root s space root → pml4_phys space s = Done (root, s).
Proof.
  destruct space as [|p]; simpl.
  - by intros <-.
  - intros [<- _]. done.
Qed.

(** ** The walk without creation *)

Lemma next_table_run t i fl s :
  next_table false t i fl s = Done (pt_child (ram_of s) t i, s).
Proof.
  unfold next_table. erewrite run_bind by apply read64_run.
  unfold pt_child, pt_entry. by destruct (has _ _).
Qed.

Lemma walk_to_pte_run s space root va fl :
  space_root s space root →
  walk_to_pte space va fl false s =
    Done ((λ pt, pt + 8 * pt_index va) <$> table_at (ram_of s) root (walk_path va), s).
Proof.
  intros Hs. unfold walk_to_pte, walk_path.
  erewrite run_bind by by apply pml4_phys_run.
  erewrite run_bind by apply next_table_run. cbn [table_at].
  destruct (pt_child _ root _) as [pdpt|]; [|done].
  erewrite run_bind by apply next_table_run. cbn [mbind option_bind].
  destruct (pt_child _ pdpt _) as [pd|]; [|done].
  erewrite run_bind by apply next_table_run. cbn [mbind option_bind].
  by destruct (pt_child _ pd _) as [pt|].
Qed.

(** ** Growing the tree *)

(** From [s] to [s'] at most [n] empty tables were added under [root]. *)
Record grown (n : Z) (root : Z) s s' : Prop := {
  gr_inv : fa_inv (frames s');
  gr_ok : space_ok s' root;
  gr_avail : fa_avail (frames s) - n ≤ fa_avail (frames s') ≤ fa_avail (frames s);
  gr_leaf : ∀ va, leaf (ram_of s') root va = leaf (ram_of s) root va;
  gr_tables : ∀ p t, path_ok p →
    table_at (ram_of s) root p = Some t → table_at (ram_of s') root p = Some t;
  gr_new : ∀ p t, path_ok p → table_at (ram_of s') root p = Some t →
    table_at (ram_of s) root p = Some t ∨ ¬ fa_used (frames s) t;
  gr_used : ∀ q, fa_used (frames s) q → fa_used (frames s') q;
  gr_refs : ∀ q, fa_used (frames s) q →
    fa_refs (frames s') q = fa_refs (frames s) q;
  gr_other : ∀ q j, other_frame s root q → idx_ok j →
    pt_entry (ram_of s') q j = pt_entry (ram_of s) q j;
  gr_rest : kernel_space_pml4 s' = kernel_space_pml4 s ∧
    g_cpu_count s' = g_cpu_count s ∧ tlb_log s' = tlb_log s;
}.

Lemma grown_refl root s : fa_inv (frames s) → space_ok s root → grown 0 root s s.
Proof. intros. split; try done; try lia. by left. Qed.

Lemma grown_other n root s s' q :
  grown n root s s' → other_frame s root q → other_frame s' root q.
Proof.
  intros Hg (Hu&Hq&Hn). split; [by apply (gr_used _ _ _ _ Hg)|]. split; [done|].
  intros p Hp Ht. destruct (gr_new _ _ _ _ Hg p q Hp Ht); [|done]. by apply (Hn p).
Qed.

Lemma grown_trans n m root s s' s'' :
  grown n root s s' → grown m root s' s'' → grown (n + m) root s s''.
Proof.
  intros H1 H2. pose proof (gr_rest _ _ _ _ H1) as (R1&R2&R3).
  pose proof (gr_rest _ _ _ _ H2) as (R1'&R2'&R3').
  pose proof (gr_avail _ _ _ _ H1). pose proof (gr_avail _ _ _ _ H2). split.
  - apply (gr_inv _ _ _ _ H2).
  - apply (gr_ok _ _ _ _ H2).
  - lia.
  - intros va. by rewrite (gr_leaf _ _ _ _ H2), (gr_leaf _ _ _ _ H1).
  - intros p t Hp Ht. by apply (gr_tables _ _ _ _ H2), (gr_tables _ _ _ _ H1).
  - intros p t Hp Ht. destruct (gr_new _ _ _ _ H2 p t Hp Ht) as [Ht'|Hn].
    + by apply (gr_new _ _ _ _ H1).
    + right. intros Hu. by apply Hn, (gr_used _ _ _ _ H1).
  - intros q Hq. by apply (gr_used _ _ _ _ H2), (gr_used _ _ _ _ H1).
  - intros q Hq. rewrite (gr_refs _ _ _ _ H2), (gr_refs _ _ _ _ H1); try done.
    by apply (gr_used _ _ _ _ H1).
  - intros q j Hq Hj. rewrite (gr_other _ _ _ _ H2), (gr_other _ _ _ _ H1); try done.
    by eapply grown_other.
  - by rewrite R1', R2', R3'.
Qed.

Lemma rd64_entry0 r q : pt_entry r q 0 = rd64 r q.
Proof. unfold pt_entry. f_equal. lia. Qed.

Lemma grown_space n root s s' space :
  grown n root s s' → space_root s space root → space_root s' space root.
Proof.
  intros Hg. destruct space as [|p]; simpl.
  - intros <-. apply (gr_rest _ _ _ _ Hg).
  - intros [<- Ho]. split; [|by eapply grown_other].
    rewrite <-!rd64_entry0. apply (gr_other _ _ _ _ Hg); [done|]. unfold idx_ok. lia.
Qed.

Lemma used_frame_ok s q : fa_inv (frames s) → fa_used (frames s) q → frame_ok q.
Proof. intros. by apply (fa_used_page (frames s)). Qed.

(** A fresh frame [f], cleared and hung into entry [i] of the table at [p]. *)
Lemma grown_create s s' root p t i f tf :
  space_ok s root → fa_inv (frames s') → path_ok p → (length p ≤ 2)%nat → idx_ok i →
  table_at (ram_of s) root p = Some t → pt_child (ram_of s) t i = None →
  has tf VMM_PRESENT = true → ¬ fa_used (frames s) f →
  ram_of s' = wr64 (t + 8 * i) (make_entry f tf) (zero_page f (ram_of s)) →
  (∀ q, fa_used (frames s') q ↔ q = f ∨ fa_used (frames s) q) →
  (∀ q, q ≠ f → fa_used (frames s) q → fa_refs (frames s') q = fa_refs (frames s) q) →
  fa_avail (frames s') = fa_avail (frames s) - 1 →
  kernel_space_pml4 s' = kernel_space_pml4 s ∧
    g_cpu_count s' = g_cpu_count s ∧ tlb_log s' = tlb_log s →
  grown 1 root s s' ∧ table_at (ram_of s') root (p ++ [i]) = Some f.
Proof.
  intros [Hroot Hinj Huse] Hinv Hp Hl Hi Ht Hnone Htf Hnu Hram Hus Hrefs Hav Hrest.
  assert (Hf : frame_ok f) by (apply (used_frame_ok s'); [done|apply Hus; by left]).
  assert (Hfresh : ∀ q, path_ok q → table_at (ram_of s) root q ≠ Some f).
  { intros q Hq Hqf. by apply Hnu, (Huse q). }
  pose proof (created_table (ram_of s) root Hroot Hinj p t i f tf
    Hp Hl Hi Ht Hnone Hf Hfresh Htf) as Htab. rewrite <-Hram in Htab.
  split; [split|]; [done|..|done|].
  - split; [done| |].
    + rewrite Hram. by apply (created_inj _ _ Hroot Hinj p t i f tf).
    + intros q u Hq. rewrite Htab by done. rewrite Hus.
      destruct (decide (q = p ++ [i])); [intros [= <-]; by left|].
      intros Hu. right. by eapply Huse.
  - lia.
  - intros va. rewrite Hram. by apply (created_leaf _ _ Hroot Hinj p t i f tf).
  - intros q u Hq Hu. rewrite Htab, decide_False; [done| |done].
    intros ->. rewrite table_at_snoc, Ht in Hu. cbn [mbind option_bind] in Hu. congruence.
  - intros q u Hq. rewrite Htab by done.
    destruct (decide (q = p ++ [i])); [|by left]. intros [= <-]. by right.
  - intros q Hq. apply Hus. by right.
  - intros q Hq. apply Hrefs; [|done]. by intros ->.
  - intros q j (Hu&Hqp&Hq) Hj. rewrite Hram.
    assert (frame_ok q) by (apply (used_frame_ok s'); [done|apply Hus; by right]).
    rewrite (created_entry _ root Hroot p t i f tf) by done.
    rewrite decide_False, decide_False; [done|by intros ->|].
    intros [-> _]. by apply (Hq p).
  - rewrite Htab by by apply created_path. by rewrite decide_True.
Qed.

(** One level of the walk with creation: the table at [p ++ [i]] exists
    afterwards, unless no frame is left. *)
Lemma wp_ensure_next_table s root p t i fl :
  fa_inv (frames s) → space_ok s root → path_ok p → (length p ≤ 2)%nat → idx_ok i →
  table_at (ram_of s) root p = Some t →
  wp (ensure_next_table t i fl) (λ res s',
    (∃ f, res = Some f ∧ grown 1 root s s' ∧
       table_at (ram_of s') root (p ++ [i]) = Some f) ∨
    (res = None ∧ s' = s ∧ fa_avail (frames s) = 0)) s.
Proof.
  intros Hinv Hok Hp Hl Hi Ht. unfold ensure_next_table.
  apply wp_bind, wp_read64. change (rd64 (ram_of s) (t + 8 * i)) with (pt_entry (ram_of s) t i).
  destruct (has (pt_entry (ram_of s) t i) VMM_PRESENT) eqn:Hpres.
  { apply wp_ret. left. exists (entry_phys (pt_entry (ram_of s) t i)).
    split; [done|]. split.
    - destruct (grown_refl root s Hinv Hok). split; try done. lia.
    - rewrite table_at_snoc, Ht. cbn [mbind option_bind]. unfold pt_child. by rewrite Hpres. }
  apply wp_bind, wp_in_frames. eapply wp_mono; [by apply fa_alloc_spec|].
  intros f fs [(->&->&Hav)|(Hf0&Hinv'&Hav&Hav0&Hnu&Hused&Hr1&Hrefs&Hram)].
  { rewrite (proj2 (Z.eqb_eq 0 0)) by done. apply wp_ret. right. by destruct s. }
  rewrite (proj2 (Z.eqb_neq f 0)) by done.
  apply wp_bind, wp_upd_ram, wp_bind, wp_upd_ram, wp_ret. left. exists f.
  split; [done|]. eapply (grown_create s _ root p t i f (table_flags_from_leaf fl)); try done.
  - by apply fa_inv_set, fa_inv_set.
  - unfold pt_child. by rewrite Hpres.
  - apply table_flags_present.
  - rewrite !ram_of_upd. unfold ram_of at 1. simpl. by rewrite Hram, zero_page_idem.
  - intros q. unfold ram_upd. simpl. by rewrite !fa_used_set.
  - intros q Hq Hu. unfold ram_upd. simpl. rewrite !fa_refs_set. by apply Hrefs.
  - unfold ram_upd. simpl. by rewrite !fa_avail_set.
Qed.

(** The whole walk with creation. *)
Lemma wp_walk_create s space root va fl :
  fa_inv (frames s) → space_ok s root → space_root s space root →
  wp (walk_to_pte space va fl true) (λ res s',
    grown 3 root s s' ∧
    ((∃ pt, res = Some (pt + 8 * pt_index va) ∧
        table_at (ram_of s') root (walk_path va) = Some pt) ∨
     (res = None ∧ fa_avail (frames s') = 0 ∧ fa_avail (frames s) ≤ 2))) s.
Proof.
  intros Hinv Hok Hs. unfold walk_to_pte.
  apply wp_bind. eapply wp_of_run; [by apply pml4_phys_run|].
  apply wp_bind. eapply wp_mono.
  { apply (wp_ensure_next_table s root [] root);
      [done|done|by repeat constructor|simpl; lia|apply index_ok|done]. }
  assert (Hweak : ∀ n m t t', n ≤ m → grown n root t t' → grown m root t t').
  { intros n m t t' Hnm []. split; try done. lia. }
  intros ? s1 [(pdpt&->&Hg1&Ht1)|(->&->&Hav)].
  2:{ apply wp_ret. split; [|right; split_and!; [done|done|lia]].
      apply (Hweak 0); [lia|by apply grown_refl]. }
  apply wp_bind. eapply wp_mono.
  { apply (wp_ensure_next_table s1 root [pml4_index va] pdpt);
      [apply Hg1|apply Hg1|by repeat constructor; apply index_ok|simpl; lia|apply index_ok|done]. }
  intros ? s2 [(pd&->&Hg2&Ht2)|(->&->&Hav)].
  2:{ apply wp_ret. split; [|right].
      - by apply (Hweak 1); [lia|].
      - pose proof (gr_avail _ _ _ _ Hg1). split_and!; [done|lia|lia]. }
  apply wp_bind. eapply wp_mono.
  { apply (wp_ensure_next_table s2 root [pml4_index va; pdpt_index va] pd);
      [apply Hg2|apply Hg2|by repeat constructor; apply index_ok|simpl; lia|apply index_ok|done]. }
  pose proof (grown_trans _ _ _ _ _ _ Hg1 Hg2) as Hg12.
  intros ? s3 [(pt&->&Hg3&Ht3)|(->&->&Hav)]; apply wp_ret.
  - split; [|left; by exists pt]. by eapply (Hweak (1 + 1 + 1)); [lia|eapply grown_trans].
  - split; [by apply (Hweak (1 + 1)); [lia|]|right].
    pose proof (gr_avail _ _ _ _ Hg12). split_and!; [done|lia|lia].
Qed.

(** ** Writing a leaf entry *)

(** [s'] is [s] with the leaf entry of [va] set to [v]. *)
Record leaf_set (root va v : Z) s s' : Prop := {
  ls_inv : fa_inv (frames s');
  ls_ok : space_ok s' root;
  ls_tables : ∀ p, path_ok p → table_at (ram_of s') root p = table_at (ram_of s) root p;
  ls_leaf : ∀ vb, leaf (ram_of s') root vb =
    if decide (va_path va = va_path vb) then
      if has v VMM_PRESENT then Some v else None
    else leaf (ram_of s) root vb;
  ls_used : ∀ q, fa_used (frames s') q ↔ fa_used (frames s) q;
  ls_refs : ∀ q, fa_refs (frames s') q = fa_refs (frames s) q;
  ls_avail : fa_avail (frames s') = fa_avail (frames s);
  ls_other : ∀ q j, other_frame s root q → idx_ok j →
    pt_entry (ram_of s') q j = pt_entry (ram_of s) q j;
  ls_rest : kernel_space_pml4 s' = kernel_space_pml4 s ∧
    g_cpu_count s' = g_cpu_count s;
}.

Lemma leaf_set_write s root va v pt l :
  fa_inv (frames s) → space_ok s root →
  table_at (ram_of s) root (walk_path va) = Some pt →
  leaf_set root va v s (logged l (ram_upd (wr64 (pt + 8 * pt_index va) v) s)).
Proof.
  intros Hinv [Hroot Hinj Huse] Ht.
  set (s' := logged l _). assert (Hram : ram_of s' = wr64 (pt + 8 * pt_index va) v (ram_of s)).
  { unfold s'. change (ram_of (logged l ?x)) with (ram_of x). apply ram_of_upd. }
  assert (Htab : ∀ p, path_ok p →
    table_at (ram_of s') root p = table_at (ram_of s) root p).
  { intros p Hp. rewrite Hram. apply (table_at_leaf_write _ _ Hroot Hinj (walk_path va));
      [apply walk_path_ok|done|apply index_ok|done|done]. }
  assert (Hus : ∀ q, fa_used (frames s') q ↔ fa_used (frames s) q)
    by (intros q; apply fa_used_set).
  split; try done.
  - by apply fa_inv_set.
  - split; [done| |].
    + intros p q u Hp Hq. rewrite !Htab by done. by apply Hinj.
    + intros p u Hp. rewrite Htab by done. rewrite Hus. by apply Huse.
  - intros vb. rewrite Hram. by apply leaf_write.
  - intros q. apply fa_refs_set.
  - apply fa_avail_set.
  - intros q j (Hu&Hq&Hno) Hj. rewrite Hram.
    rewrite pt_entry_write; [|by eapply (table_at_frame _ root)|done|apply index_ok|done].
    rewrite decide_False; [done|]. intros [-> _]. by apply (Hno _ (walk_path_ok va)).
Qed.

Lemma leaf_set_other root va v s s' q :
  leaf_set root va v s s' → other_frame s root q → other_frame s' root q.
Proof.
  intros Hl (Hu&Hq&Hno). split; [by apply (ls_used _ _ _ _ _ Hl)|]. split; [done|].
  intros p Hp. rewrite (ls_tables _ _ _ _ _ Hl) by done. by apply Hno.
Qed.

Lemma leaf_set_space root va v s s' space :
  leaf_set root va v s s' → space_root s space root → space_root s' space root.
Proof.
  intros Hl. destruct space as [|p]; simpl.
  - intros <-. apply (ls_rest _ _ _ _ _ Hl).
  - intros [<- Ho]. split; [|by eapply leaf_set_other].
    rewrite <-!rd64_entry0. apply (ls_other _ _ _ _ _ Hl); [done|]. unfold idx_ok. lia.
Qed.

(** The leaf entry the walk finds. *)
Lemma leaf_present r root va pt :
  table_at r root (walk_path va) = Some pt →
  leaf r root va = if has (pt_entry r pt (pt_index va)) VMM_PRESENT
                   then Some (pt_entry r pt (pt_index va)) else None.
Proof. intros Ht. unfold leaf. by rewrite Ht. Qed.

(** What a mapping operation keeps, whatever it returns. *)
Record kept root s s' : Prop := {
  kp_inv : fa_inv (frames s');
  kp_ok : space_ok s' root;
  kp_used : ∀ q, fa_used (frames s) q → fa_used (frames s') q;
  kp_refs : ∀ q, fa_used (frames s) q → fa_refs (frames s') q = fa_refs (frames s) q;
  kp_other : ∀ q, other_frame s root q → other_frame s' root q ∧
    ∀ j, idx_ok j → pt_entry (ram_of s') q j = pt_entry (ram_of s) q j;
  kp_space : ∀ space, space_root s space root → space_root s' space root;
}.

Lemma grown_kept n root s s' : grown n root s s' → kept root s s'.
Proof.
  intros Hg. split; try apply Hg.
  - intros q Hq. split; [by eapply grown_other|]. intros j Hj. by apply (gr_other _ _ _ _ Hg).
  - intros space. by eapply grown_space.
Qed.

Lemma leaf_set_kept root va v s s' : leaf_set root va v s s' → kept root s s'.
Proof.
  intros Hl. split; try apply Hl.
  - intros q Hq. apply (ls_refs _ _ _ _ _ Hl).
  - intros q Hq. split; [by eapply leaf_set_other|]. intros j Hj. by apply (ls_other _ _ _ _ _ Hl).
  - intros space. by eapply leaf_set_space.
Qed.

Lemma kept_refl root s : fa_inv (frames s) → space_ok s root → kept root s s.
Proof. by split. Qed.

Lemma kept_trans root s s' s'' : kept root s s' → kept root s' s'' → kept root s s''.
Proof.
  intros H1 H2. split; try apply H2.
  - intros q Hq. by apply (kp_used _ _ _ H2), (kp_used _ _ _ H1).
  - intros q Hq. rewrite (kp_refs _ _ _ H2), (kp_refs _ _ _ H1); try done.
    by apply (kp_used _ _ _ H1).
  - intros q Hq. destruct (kp_other _ _ _ H1 q Hq) as [Hq' He].
    destruct (kp_other _ _ _ H2 q Hq') as [Hq'' He']. split; [done|].
    intros j Hj. by rewrite He', He.
  - intros space Hs. by apply (kp_space _ _ _ H2), (kp_space _ _ _ H1).
Qed.

(** ** Allocation and release as seen by the page-table code *)

Record allocd (f : Z) s s' : Prop := {
  al_inv : fa_inv (frames s');
  al_frame : frame_ok f;
  al_avail : fa_avail (frames s') = fa_avail (frames s) - 1;
  al_fresh : ¬ fa_used (frames s) f;
  al_used : ∀ q, fa_used (frames s') q ↔ q = f ∨ fa_used (frames s) q;
  al_ref : fa_refs (frames s') f = 1;
  al_refs : ∀ q, fa_used (frames s) q → fa_refs (frames s') q = fa_refs (frames s) q;
  al_ram : ram_of s' = zero_page f (ram_of s);
  al_rest : kernel_space_pml4 s' = kernel_space_pml4 s ∧
    g_cpu_count s' = g_cpu_count s ∧ tlb_log s' = tlb_log s;
}.

Lemma wp_alloc s : fa_inv (frames s) →
  wp (in_frames fa_alloc) (λ f s',
    (f = 0 ∧ s' = s ∧ fa_avail (frames s) = 0) ∨ (f ≠ 0 ∧ allocd f s s')) s.
Proof.
  intros Hinv. apply wp_in_frames. eapply wp_mono; [by apply fa_alloc_spec|].
  intros f fs [(->&->&Hav)|(Hf0&Hinv'&Hav&Hav0&Hnu&Hused&Hr1&Hrefs&Hram)].
  - left. by destruct s.
  - right. split; [done|]. split; try done.
    + apply (fa_used_page fs); [done|]. apply Hused. by left.
    + intros q Hq. apply Hrefs; [|done]. by intros ->.
Qed.

Lemma allocd_other f s s' q j : allocd f s s' →
  page_ok q → idx_ok j → q ≠ f → pt_entry (ram_of s') q j = pt_entry (ram_of s) q j.
Proof.
  intros Ha Hq Hj Hne. rewrite (al_ram _ _ _ Ha), pt_entry_zero_page by
    (done || apply (al_frame _ _ _ Ha)).
  by rewrite decide_False.
Qed.

Lemma wp_free s p : fa_inv (frames s) → fa_used (frames s) p →
  1 ≤ fa_refs (frames s) p →
  wp (in_frames (fa_free p)) (λ _ s',
    fa_inv (frames s') ∧ ram_of s' = ram_of s ∧
    (∀ q, fa_used (frames s') q ↔
       fa_used (frames s) q ∧ (q = p → fa_refs (frames s) p ≠ 1)) ∧
    (∀ q, fa_used (frames s) q → fa_refs (frames s') q =
       if decide (q = p) then fa_refs (frames s) p - 1 else fa_refs (frames s) q) ∧
    fa_avail (frames s') = (if decide (fa_refs (frames s) p = 1)
                            then fa_avail (frames s) + 1 else fa_avail (frames s)) ∧
    kernel_space_pml4 s' = kernel_space_pml4 s ∧
    g_cpu_count s' = g_cpu_count s ∧ tlb_log s' = tlb_log s) s.
Proof.
  intros Hinv Hu Hr. apply wp_in_frames. eapply wp_mono; [by apply fa_free_spec|].
  intros [] fs (?&?&?&?&?). done.
Qed.

(** ** Changes that leave the tables alone *)

(** The allocator's view is the same in [s'] as in [s]. *)
Record alloc_same s s' : Prop := {
  as_inv : fa_inv (frames s');
  as_used : ∀ q, fa_used (frames s') q ↔ fa_used (frames s) q;
  as_refs : ∀ q, fa_refs (frames s') q = fa_refs (frames s) q;
  as_avail : fa_avail (frames s') = fa_avail (frames s);
  as_rest : kernel_space_pml4 s' = kernel_space_pml4 s ∧
    g_cpu_count s' = g_cpu_count s ∧ tlb_log s' = tlb_log s;
}.

Lemma alloc_same_refl s : fa_inv (frames s) → alloc_same s s.
Proof. by split. Qed.
Lemma alloc_same_trans s s' s'' :
  alloc_same s s' → alloc_same s' s'' → alloc_same s s''.
Proof.
  intros [? U1 R1 A1 (K1&C1&T1)] [? U2 R2 A2 (K2&C2&T2)]. split; [done|..].
  - intros q. by rewrite U2.
  - intros q. by rewrite R2.
  - congruence.
  - split_and!; congruence.
Qed.
Lemma alloc_same_upd f s : fa_inv (frames s) → alloc_same s (ram_upd f s).
Proof.
  intros Hi. split.
  - by apply fa_inv_set.
  - intros q. apply fa_used_set.
  - intros q. apply fa_refs_set.
  - apply fa_avail_set.
  - done.
Qed.

Definition tables_same s s' (root : Z) : Prop :=
  ∀ t j, is_table (ram_of s) root t → idx_ok j →
    pt_entry (ram_of s') t j = pt_entry (ram_of s) t j.

(** A tree whose tables are untouched and still in use stays a tree. *)
Lemma space_ok_same s s' root :
  tables_same s s' root → (∀ q, fa_used (frames s) q → fa_used (frames s') q) →
  space_ok s root → space_ok s' root.
Proof.
  intros Ht Hu [Hr Hi Hus]. pose proof (table_at_same _ _ _ Ht) as Hat. split; [done|..].
  - intros p q t Hp Hq. rewrite !Hat by done. by apply Hi.
  - intros p t Hp. rewrite Hat by done. intros. by apply Hu, (Hus p).
Qed.

(** One more frame [f] in use, with any contents. *)
Lemma other_frame_same s s' root q :
  tables_same s s' root → (∀ q, fa_used (frames s) q → fa_used (frames s') q) →
  other_frame s root q → other_frame s' root q.
Proof.
  intros Ht Hu (Huq&Hq&Hno). split; [by apply Hu|]. split; [done|].
  intros p Hp. rewrite (table_at_same _ _ _ Ht) by done. by apply Hno.
Qed.

Lemma fresh_not_table s root f t :
  space_ok s root → ¬ fa_used (frames s) f → is_table (ram_of s) root t → t ≠ f.
Proof. intros Hok Hf (p&Hp&Ht) ->. by apply Hf, (so_used _ _ Hok p). Qed.

Lemma table_frame_ok s root t :
  space_ok s root → is_table (ram_of s) root t → frame_ok t.
Proof. intros Hok (p&_&Ht). eapply table_at_frame; [apply Hok|exact Ht]. Qed.
End vmm_spec.
