(* ===== verification/VmmMap.v ===== *)
(** * Mapping, unmapping, protecting and translating. *)

From S2P Require Import Prelude Bits Ram Frames Vmm PageTable VmmSpec.

Section vmm_map.
Context {S : Type} `{FrameAllocLaws S}.
Implicit Types s : vmm S.

(** What [vmm_map] does, for aligned arguments and present flags. *)
Definition map_post (root virt phys flags : Z) s (rc : Z) s' : Prop :=
  kept root s s' ∧
  match leaf (ram_of s) root virt with
  | Some _ => rc = -1 ∧ ∀ va, leaf (ram_of s') root va = leaf (ram_of s) root va
  | None =>
      (rc = 0 ∧ tlb_log s' = tlb_log s ++ [Invlpg virt] ∧
       ∀ va, leaf (ram_of s') root va =
         if decide (va_path virt = va_path va) then Some (make_entry phys flags)
         else leaf (ram_of s) root va) ∨
      (rc = -1 ∧ fa_avail (frames s) ≤ 2 ∧
       ∀ va, leaf (ram_of s') root va = leaf (ram_of s) root va)
  end.

Lemma wp_vmm_map s space root virt phys flags :
  fa_inv (frames s) → space_ok s root → space_root s space root →
  page_ok virt → frame_ok phys → has flags VMM_PRESENT = true →
  wp (vmm_map (Some space) virt phys flags) (map_post root virt phys flags s) s.
Proof.
  intros Hinv Hok Hs Hv Hp Hf. unfold vmm_map.
  rewrite (proj2 (page_aligned_ok virt) Hv), (proj2 (page_aligned_ok phys) (proj1 Hp)), Hf.
  simpl. apply wp_bind. eapply wp_mono; [by apply (wp_walk_create s space root)|].
  intros ? s1 [Hg [(pt&->&Ht)|(->&Hav&Hav')]].
  2:{ apply wp_ret. split; [by eapply grown_kept|].
      destruct (leaf (ram_of s) root virt); [|right]; split; try done.
      - apply (gr_leaf _ _ _ _ Hg).
      - split; [done|]. apply (gr_leaf _ _ _ _ Hg). }
  pose proof (leaf_present _ _ _ _ Ht) as Hleaf. rewrite (gr_leaf _ _ _ _ Hg) in Hleaf.
  apply wp_bind, wp_read64.
  change (rd64 (ram_of s1) (pt + 8 * pt_index virt)) with
    (pt_entry (ram_of s1) pt (pt_index virt)).
  destruct (has (pt_entry (ram_of s1) pt (pt_index virt)) VMM_PRESENT); rewrite ?Hleaf.
  { apply wp_ret. split; [by eapply grown_kept|]. rewrite Hleaf.
    split; [done|]. apply (gr_leaf _ _ _ _ Hg). }
  apply wp_bind, wp_upd_ram, wp_bind, wp_invlpg, wp_ret.
  pose proof (leaf_set_write s1 root virt (make_entry phys flags) pt [Invlpg virt]
    (gr_inv _ _ _ _ Hg) (gr_ok _ _ _ _ Hg) Ht) as Hls.
  split; [eapply kept_trans; [by eapply grown_kept|by eapply leaf_set_kept]|].
  rewrite Hleaf. left. split; [done|]. split.
  - simpl. f_equal. apply (gr_rest _ _ _ _ Hg).
  - intros va. rewrite (ls_leaf _ _ _ _ _ Hls), present_make, Hf by done.
    by rewrite (gr_leaf _ _ _ _ Hg).
Qed.

(** The operations that do not create tables rewrite one leaf entry. *)
Definition rewrite_post (root virt : Z) (new : Z → Z) (log : list tlb_event) s
    (rc : Z) s' : Prop :=
  match leaf (ram_of s) root virt with
  | None => rc = -1 ∧ s' = s
  | Some e =>
      rc = 0 ∧ kept root s s' ∧ tlb_log s' = tlb_log s ++ log ∧
      (fa_avail (frames s') = fa_avail (frames s) ∧ ∀ q, fa_used (frames s') q ↔ fa_used (frames s) q) ∧
      ∀ va, leaf (ram_of s') root va =
        if decide (va_path virt = va_path va) then
          if has (new e) VMM_PRESENT then Some (new e) else None
        else leaf (ram_of s) root va
  end.

Lemma wp_vmm_unmap s space root virt :
  fa_inv (frames s) → space_ok s root → space_root s space root → page_ok virt →
  wp (vmm_unmap (Some space) virt)
    (rewrite_post root virt (λ _, 0) (Invlpg virt ::
       if (1 <? g_cpu_count s) && bool_decide (space = KernelSpace)
       then [Shootdown virt] else []) s) s.
Proof.
  intros Hinv Hok Hs Hv. unfold vmm_unmap, rewrite_post.
  rewrite (proj2 (page_aligned_ok virt) Hv). cbn [negb orb].
  apply wp_bind. eapply wp_of_run; [by apply (walk_to_pte_run s space root)|].
  destruct (table_at (ram_of s) root (walk_path virt)) as [pt|] eqn:Ht; cbn [fmap option_fmap option_map].
  2:{ apply wp_ret. unfold leaf. by rewrite Ht. }
  rewrite (leaf_present _ _ _ _ Ht). apply wp_bind, wp_read64.
  change (rd64 (ram_of s) (pt + 8 * pt_index virt)) with
    (pt_entry (ram_of s) pt (pt_index virt)).
  destruct (has (pt_entry (ram_of s) pt (pt_index virt)) VMM_PRESENT); cbn [negb];
    [|by apply wp_ret].
  apply wp_bind, wp_upd_ram, wp_bind, wp_invlpg.
  apply wp_bind, wp_get, wp_bind. cbn [g_cpu_count logged ram_upd with_frames].
  set (b := (1 <? g_cpu_count s) && bool_decide (space = KernelSpace)).
  assert (Hfin : ∀ l, kept root s (logged l (ram_upd (wr64 (pt + 8 * pt_index virt) 0) s)) ∧
    (fa_avail (frames (logged l (ram_upd (wr64 (pt + 8 * pt_index virt) 0) s))) = fa_avail (frames s) ∧
     ∀ q, fa_used (frames (logged l (ram_upd (wr64 (pt + 8 * pt_index virt) 0) s))) q ↔ fa_used (frames s) q) ∧
    ∀ va, leaf (ram_of (logged l (ram_upd (wr64 (pt + 8 * pt_index virt) 0) s))) root va =
      if decide (va_path virt = va_path va) then None else leaf (ram_of s) root va).
  { intros l. pose proof (leaf_set_write s root virt 0 pt l Hinv Hok Ht) as Hls.
    split; [by eapply leaf_set_kept|]. split; [split; apply Hls|apply (ls_leaf _ _ _ _ _ Hls)]. }
  destruct b; cbn [when].
  - apply wp_shootdown, wp_ret. rewrite logged_logged.
    destruct (Hfin [Invlpg virt; Shootdown virt]) as (?&?&?). done.
  - apply wp_ret, wp_ret. by destruct (Hfin [Invlpg virt]) as (?&?&?).
Qed.

Lemma wp_vmm_protect s space root virt flags :
  fa_inv (frames s) → space_ok s root → space_root s space root → page_ok virt →
  has flags VMM_PRESENT = true →
  wp (vmm_protect (Some space) virt flags)
    (rewrite_post root virt (λ e, make_entry (entry_phys e) flags) [Invlpg virt] s) s.
Proof.
  intros Hinv Hok Hs Hv Hf. unfold vmm_protect, rewrite_post.
  rewrite (proj2 (page_aligned_ok virt) Hv), Hf. cbn [negb orb].
  apply wp_bind. eapply wp_of_run; [by apply (walk_to_pte_run s space root)|].
  destruct (table_at (ram_of s) root (walk_path virt)) as [pt|] eqn:Ht; cbn [fmap option_fmap option_map].
  2:{ apply wp_ret. unfold leaf. by rewrite Ht. }
  rewrite (leaf_present _ _ _ _ Ht). apply wp_bind, wp_read64.
  change (rd64 (ram_of s) (pt + 8 * pt_index virt)) with
    (pt_entry (ram_of s) pt (pt_index virt)).
  destruct (has (pt_entry (ram_of s) pt (pt_index virt)) VMM_PRESENT); cbn [negb];
    [|by apply wp_ret].
  apply wp_bind, wp_upd_ram, wp_bind, wp_invlpg, wp_ret.
  pose proof (leaf_set_write s root virt
    (make_entry (entry_phys (pt_entry (ram_of s) pt (pt_index virt))) flags) pt
    [Invlpg virt] Hinv Hok Ht) as Hls.
  split; [done|]. split; [by eapply leaf_set_kept|]. split; [done|].
  split; [split; apply Hls|apply (ls_leaf _ _ _ _ _ Hls)].
Qed.

Lemma vmm_virt_to_phys_run s space root va :
  space_root s space root →
  vmm_virt_to_phys (Some space) va s = Done (translate (ram_of s) root va, s).
Proof.
  intros Hs. unfold vmm_virt_to_phys, translate.
  change (va &! ~! PAGE_OFFSET_MASK) with (page_of va).
  erewrite run_bind by by apply (walk_to_pte_run s space root).
  rewrite page_of_walk, page_of_pt. unfold leaf.
  destruct (table_at (ram_of s) root (walk_path va)) as [pt|]; simpl; [|done].
  erewrite run_bind by apply read64_run. unfold pt_entry.
  destruct (has _ _); simpl; [|done].
  rewrite offset_mod, u64_small; [done|].
  pose proof (Z.mod_pos_bound va 4096 ltac:(lia)).
  destruct (entry_phys_ok (rd64 (ram_of s) (pt + 8 * pt_index va))). lia.
Qed.
End vmm_map.
