(* ===== verification/VmmSpace.v ===== *)
(** * Creating address spaces and resolving copy-on-write faults. *)

From S2P Require Import Prelude Bits Ram Frames Vmm PageTable VmmSpec.

Section vmm_space.
Context {S : Type} `{FrameAllocLaws S}.
Implicit Types s : vmm S.

(** ** Copying the kernel half *)

Lemma wp_copy_kernel_half s np kp :
  fa_inv (frames s) → page_ok np → page_ok kp → np ≠ kp →
  wp (for_each (seqZ 256 256) (λ i,
        e ← read64 (kp + 8 * i); write64 (np + 8 * i) e))
    (λ _ s', alloc_same s s' ∧
       ∀ q j, page_ok q → idx_ok j → pt_entry (ram_of s') q j =
         if decide (q = np ∧ 256 ≤ j) then pt_entry (ram_of s) kp j
         else pt_entry (ram_of s) q j) s.
Proof.
  intros Hinv Hnp Hkp Hne.
  apply (wp_for_each (λ done s', alloc_same s s' ∧
    ∀ q j, page_ok q → idx_ok j → pt_entry (ram_of s') q j =
      if decide (q = np ∧ j ∈ done) then pt_entry (ram_of s) kp j
      else pt_entry (ram_of s) q j)).
  - split; [by apply alloc_same_refl|]. intros q j _ _. rewrite decide_False; [done|].
    by intros [_ ?%elem_of_nil].
  - intros done_ i rest s1 Hl [Has Hent].
    assert (Hi : idx_ok i).
    { assert (i ∈ seqZ 256 256) as Hin by (rewrite Hl; apply elem_of_app; right; by left).
      apply elem_of_seqZ in Hin. unfold idx_ok. lia. }
    apply wp_bind, wp_read64, wp_upd_ram. split.
    { eapply alloc_same_trans; [done|]. by apply alloc_same_upd, Has. }
    intros q j Hq Hj. rewrite ram_of_upd, pt_entry_write by done.
    change (rd64 (ram_of s1) (kp + 8 * i)) with (pt_entry (ram_of s1) kp i).
    rewrite !Hent by done. rewrite (decide_False (P := kp = np ∧ _)) by naive_solver.
    destruct (decide (np = q ∧ i = j)) as [[-> ->]|Hn].
    + rewrite decide_True; [done|]. split; [done|]. apply elem_of_app. right. by left.
    + apply decide_ext. rewrite elem_of_app, list_elem_of_singleton. naive_solver.
  - intros s1 [Has Hent]. split; [done|]. intros q j Hq Hj. rewrite Hent by done.
    apply decide_ext. rewrite elem_of_seqZ. unfold idx_ok in Hj. naive_solver lia.
Qed.

(** ** A fresh address space *)

Definition user_half (va : Z) : Prop := pml4_index va < 256.

(** Tables of a PML4 whose lower half is empty and whose upper half is that
    of [kp]. *)
Lemma table_at_half r r' np kp p :
  frame_ok kp → path_ok p → p ≠ [] →
  (∀ j, idx_ok j → pt_entry r' np j = if decide (256 ≤ j) then pt_entry r kp j else 0) →
  (∀ t j, is_table r kp t → idx_ok j → pt_entry r' t j = pt_entry r t j) →
  table_at r' np p = if decide (256 ≤ hd 0 p) then table_at r kp p else None.
Proof.
  intros Hk Hp Hne Hnew Hold. destruct p as [|i p]; [done|]. cbn [hd table_at].
  destruct (path_ok_at [] i p Hp) as [_ Hi].
  unfold pt_child at 1. rewrite Hnew by done.
  destruct (decide (256 ≤ i)); [|done].
  unfold pt_child. destruct (has (pt_entry r kp i) VMM_PRESENT) eqn:Hpr; [|done].
  cbn [mbind option_bind]. apply table_at_ext.
  { destruct Hp as [_ Hf]. by apply Forall_cons in Hf as [_ ?]. }
  intros q1 j q2 t -> Ht. apply Hold.
  - exists (i :: q1). split; [|cbn [table_at]; unfold pt_child; by rewrite Hpr].
    apply (path_ok_prefix _ (j :: q2)), Hp.
  - by destruct (path_ok_at (i :: q1) j q2 Hp).
Qed.

(** [s'] is [s] with a new address space: the structure in [sp], its PML4 in
    [np]. *)
Record fresh_space s (sp np : Z) s' : Prop := {
  fs_root : space_root s' (SpaceAt sp) np;
  fs_ok : space_ok s' np;
  fs_avail : fa_avail (frames s') = fa_avail (frames s) - 2;
  fs_new : ¬ fa_used (frames s) sp ∧ ¬ fa_used (frames s) np;
  fs_used : ∀ q, fa_used (frames s') q ↔ q = sp ∨ q = np ∨ fa_used (frames s) q;
  fs_refs : ∀ q, fa_used (frames s') q → fa_refs (frames s') q =
    if decide (q = sp ∨ q = np) then 1 else fa_refs (frames s) q;
  fs_old : ∀ q j, fa_used (frames s) q → page_ok q → idx_ok j →
    pt_entry (ram_of s') q j = pt_entry (ram_of s) q j;
  fs_table : ∀ j, idx_ok j → pt_entry (ram_of s') np j =
    if decide (256 ≤ j) then pt_entry (ram_of s) (kernel_space_pml4 s) j else 0;
  fs_self : rd64 (ram_of s') (sp + 8) = sp;
  fs_leaf : ∀ va, leaf (ram_of s') np va =
    if decide (user_half va) then None else leaf (ram_of s) (kernel_space_pml4 s) va;
  fs_rest : kernel_space_pml4 s' = kernel_space_pml4 s;
}.

Definition created_post s (res : option address_space) s' : Prop :=
  match res with
  | None =>
      fa_avail (frames s) ≤ 1 ∧ fa_avail (frames s') = fa_avail (frames s) ∧
      (∀ q, fa_used (frames s') q ↔ fa_used (frames s) q) ∧
      (∀ q, fa_used (frames s) q → fa_refs (frames s') q = fa_refs (frames s) q) ∧
      (∀ q j, fa_used (frames s) q → page_ok q → idx_ok j → pt_entry (ram_of s') q j = pt_entry (ram_of s) q j) ∧
      kernel_space_pml4 s' = kernel_space_pml4 s
  | Some KernelSpace => False
  | Some (SpaceAt sp) => ∃ np, fresh_space s sp np s'
  end.

Lemma created_of_entries s s' sp np :
  let kp := kernel_space_pml4 s in
  space_ok s kp → frame_ok np → frame_ok sp → sp ≠ np →
  ¬ fa_used (frames s) sp → ¬ fa_used (frames s) np →
  (∀ q, fa_used (frames s') q ↔ q = sp ∨ q = np ∨ fa_used (frames s) q) →
  (∀ j, idx_ok j → pt_entry (ram_of s') np j =
     if decide (256 ≤ j) then pt_entry (ram_of s) kp j else 0) →
  (∀ q j, fa_used (frames s) q → page_ok q → idx_ok j →
     pt_entry (ram_of s') q j = pt_entry (ram_of s) q j) →
  rd64 (ram_of s') sp = np →
  space_root s' (SpaceAt sp) np ∧ space_ok s' np ∧
  (∀ va, leaf (ram_of s') np va =
     if decide (user_half va) then None else leaf (ram_of s) kp va).
Proof.
  intros kp [Hk Hinj Huse] Hnp Hsp Hne Hfs Hfn Hused Hnew Hold Hptr.
  assert (Hko : ∀ t j, is_table (ram_of s) kp t → idx_ok j →
    pt_entry (ram_of s') t j = pt_entry (ram_of s) t j).
  { intros t j (p&Hp&Ht) Hj. apply Hold; [by apply (Huse p)| |done].
    by eapply (table_at_frame _ kp). }
  assert (Htab : ∀ p, path_ok p → p ≠ [] → table_at (ram_of s') np p =
    if decide (256 ≤ hd 0 p) then table_at (ram_of s) kp p else None).
  { intros p Hp Hpn. by apply table_at_half. }
  assert (Hnot : ∀ p t, path_ok p → p ≠ [] → table_at (ram_of s') np p = Some t →
    fa_used (frames s) t).
  { intros p t Hp Hpn. rewrite Htab by done. destruct (decide _); [|done]. by apply Huse. }
  split; [|split].
  - split; [done|]. split; [apply Hused; by left|]. split; [apply Hsp|].
    intros p Hp Ht. destruct (decide (p = [])) as [->|]; [by injection Ht as ->|].
    by apply Hfs, (Hnot p).
  - split; [done|..].
    + intros p q t Hp Hq Htp Htq.
      destruct (decide (p = [])) as [->|], (decide (q = [])) as [->|]; try done.
      * injection Htp as <-. by destruct (Hfn (Hnot q np ltac:(done) ltac:(done) Htq)).
      * injection Htq as <-. by destruct (Hfn (Hnot p np ltac:(done) ltac:(done) Htp)).
      * rewrite Htab in Htp, Htq by done.
        destruct (decide (256 ≤ hd 0 p)), (decide (256 ≤ hd 0 q)); try done. by eapply Hinj.
    + intros p t Hp Ht. apply Hused. destruct (decide (p = [])) as [->|].
      * injection Ht as <-. auto.
      * right; right. by apply (Hnot p).
  - intros va. unfold leaf. rewrite Htab by (apply walk_path_ok || done).
    unfold user_half. change (hd 0 (walk_path va)) with (pml4_index va).
    destruct (decide (256 ≤ pml4_index va)), (decide (pml4_index va < 256)); try lia; try done.
    destruct (table_at (ram_of s) kp (walk_path va)) as [t|] eqn:Ht; cbn [mbind option_bind]; [|done].
    rewrite Hko; [done| |apply index_ok]. exists (walk_path va). split; [apply walk_path_ok|done].
Qed.

(** The three stores into the structure. *)
Lemma struct_stores r sp np :
  frame_ok sp →
  let r' := wr64 (sp + 16) 1 (wr64 (sp + 8) sp (wr64 sp np r)) in
  rd64 r' sp = np ∧ rd64 r' (sp + 8) = sp ∧
  ∀ q j, page_ok q → idx_ok j → q ≠ sp → pt_entry r' q j = pt_entry r q j.
Proof.
  intros [Hsp _] r'. subst r'.
  replace (sp + 16) with (sp + 8 * 2) by lia. replace (sp + 8) with (sp + 8 * 1) by lia.
  replace (wr64 sp np r) with (wr64 (sp + 8 * 0) np r) by (f_equal; lia). split_and!.
  - rewrite <-rd64_entry0, !pt_entry_write by (done || (unfold idx_ok; lia)).
    by rewrite decide_False, decide_False, decide_True by naive_solver.
  - change (rd64 ?r (sp + 8 * 1)) with (pt_entry r sp 1). rewrite !pt_entry_write by (done || (unfold idx_ok; lia)).
    by rewrite decide_False, decide_True by naive_solver.
  - intros q j Hq Hj Hne. rewrite !pt_entry_write by (done || (unfold idx_ok; lia)).
    by rewrite !decide_False by naive_solver.
Qed.

(** After the first half of the routine: [np] is a fresh PML4. *)
Record pml4_ready s np s2 : Prop := {
  pr_inv : fa_inv (frames s2);
  pr_frame : frame_ok np;
  pr_fresh : ¬ fa_used (frames s) np;
  pr_used : ∀ q, fa_used (frames s2) q ↔ q = np ∨ fa_used (frames s) q;
  pr_ref : fa_refs (frames s2) np = 1;
  pr_refs : ∀ q, fa_used (frames s) q → fa_refs (frames s2) q = fa_refs (frames s) q;
  pr_avail : fa_avail (frames s2) = fa_avail (frames s) - 1;
  pr_new : ∀ j, idx_ok j → pt_entry (ram_of s2) np j =
    if decide (256 ≤ j) then pt_entry (ram_of s) (kernel_space_pml4 s) j else 0;
  pr_old : ∀ q j, fa_used (frames s) q → page_ok q → idx_ok j →
    pt_entry (ram_of s2) q j = pt_entry (ram_of s) q j;
  pr_rest : kernel_space_pml4 s2 = kernel_space_pml4 s;
}.

Lemma pml4_ready_of s s1 s2 np :
  fa_used (frames s) (kernel_space_pml4 s) → frame_ok (kernel_space_pml4 s) →
  allocd np s s1 → alloc_same s1 s2 →
  (∀ q j, page_ok q → idx_ok j → pt_entry (ram_of s2) q j =
     if decide (q = np ∧ 256 ≤ j)
     then pt_entry (zero_page np (ram_of s)) (kernel_space_pml4 s) j
     else pt_entry (zero_page np (ram_of s)) q j) →
  pml4_ready s np s2.
Proof.
  intros Hku Hk Ha Has Hent.
  assert (Hz : ∀ q j, page_ok q → idx_ok j → pt_entry (zero_page np (ram_of s)) q j =
    if decide (np = q) then 0 else pt_entry (ram_of s) q j).
  { intros. by apply pt_entry_zero_page; [apply (al_frame _ _ _ Ha)|..]. }
  split.
  - apply Has.
  - apply Ha.
  - apply Ha.
  - intros q. rewrite (as_used _ _ Has). apply Ha.
  - rewrite (as_refs _ _ Has). apply Ha.
  - intros q Hq. rewrite (as_refs _ _ Has). by apply (al_refs _ _ _ Ha).
  - rewrite (as_avail _ _ Has). apply Ha.
  - intros j Hj. rewrite Hent by (done || apply (al_frame _ _ _ Ha)).
    rewrite !Hz by (done || apply Hk || apply (al_frame _ _ _ Ha)).
    rewrite (decide_True (P := np = np)) by done.
    rewrite (decide_False (P := np = kernel_space_pml4 s))
      by (intros ->; by apply (al_fresh _ _ _ Ha)).
    apply decide_ext. naive_solver.
  - intros q j Hq Hqp Hj. assert (np ≠ q) by (intros ->; by apply (al_fresh _ _ _ Ha)).
    rewrite Hent, decide_False, Hz, decide_False by naive_solver. done.
  - destruct (as_rest _ _ Has) as [-> _]. apply Ha.
Qed.

Lemma wp_create_struct s np s2 :
  space_ok s (kernel_space_pml4 s) → pml4_ready s np s2 →
  wp (struct_phys ← in_frames fa_alloc;
      if struct_phys =? 0 then in_frames (fa_free np);; mret None else
      write64 struct_phys np;;
      write64 (struct_phys + 8) struct_phys;;
      write64 (struct_phys + 16) 1;;
      mret (Some (SpaceAt struct_phys)))
    (λ res s', fa_inv (frames s') ∧ created_post s res s') s2.
Proof.
  intros Hok Hp. apply wp_bind. eapply wp_mono; [by apply wp_alloc, Hp|].
  intros sp s3 [(->&->&Hav)|[Hs0 Ha]].
  - apply wp_bind. eapply wp_mono.
    { apply wp_free; [apply Hp|apply (pr_used _ _ _ Hp); by left|].
      rewrite (pr_ref _ _ _ Hp). lia. }
    intros [] s4 (Hinv&Hram&Hu&Hr&Hv&Hker&_). apply wp_ret. split; [done|]. simpl.
    rewrite (pr_ref _ _ _ Hp) in *. rewrite (decide_True (P := 1 = 1)) in Hv by done.
    pose proof (pr_avail _ _ _ Hp). split_and!; [lia|lia|..].
    + intros q. rewrite Hu, (pr_used _ _ _ Hp).
      pose proof (pr_fresh _ _ _ Hp). naive_solver.
    + intros q Hq. assert (q ≠ np) by (intros ->; by apply (pr_fresh _ _ _ Hp)).
      rewrite Hr, decide_False by (done || apply (pr_used _ _ _ Hp); by right).
      by apply (pr_refs _ _ _ Hp).
    + rewrite Hram. apply (pr_old _ _ _ Hp).
    + rewrite Hker. apply Hp.
  - rewrite (proj2 (Z.eqb_neq sp 0)) by done.
    do 3 apply wp_bind, wp_upd_ram. apply wp_ret.
    set (s' := ram_upd _ _).
    assert (Has : alloc_same s3 s').
    { pose proof (al_inv _ _ _ Ha). unfold s'.
      repeat (eapply alloc_same_trans; [|apply alloc_same_upd]);
        repeat apply fa_inv_set; try done. }
    split; [apply Has|]. exists np.
    destruct (struct_stores (ram_of s3) sp np (al_frame _ _ _ Ha)) as (Hptr&Hself&Hoth).
    assert (Hram : ram_of s' = wr64 (sp + 16) 1 (wr64 (sp + 8) sp (wr64 sp np (ram_of s3))))
      by (unfold s'; by rewrite !ram_of_upd).
    rewrite <-Hram in Hptr, Hself, Hoth.
    assert (Hspn : sp ≠ np).
    { intros ->. apply (al_fresh _ _ _ Ha), (pr_used _ _ _ Hp). by left. }
    assert (Hfs : ¬ fa_used (frames s) sp).
    { intros Hu. apply (al_fresh _ _ _ Ha), (pr_used _ _ _ Hp). by right. }
    assert (Hused : ∀ q, fa_used (frames s') q ↔ q = sp ∨ q = np ∨ fa_used (frames s) q).
    { intros q. by rewrite (as_used _ _ Has), (al_used _ _ _ Ha), (pr_used _ _ _ Hp). }
    assert (Hold : ∀ q j, fa_used (frames s) q → page_ok q → idx_ok j →
      pt_entry (ram_of s') q j = pt_entry (ram_of s) q j).
    { intros q j Hq Hqp Hj. assert (q ≠ sp) by by intros ->.
      rewrite Hoth, (allocd_other _ _ _ _ _ Ha) by done. by apply (pr_old _ _ _ Hp). }
    assert (Hnew : ∀ j, idx_ok j → pt_entry (ram_of s') np j =
      if decide (256 ≤ j) then pt_entry (ram_of s) (kernel_space_pml4 s) j else 0).
    { intros j Hj. rewrite Hoth by (done || apply Hp).
      rewrite (allocd_other _ _ _ _ _ Ha) by (done || apply Hp). by apply (pr_new _ _ _ Hp). }
    destruct (created_of_entries s s' sp np) as (?&?&?); try done; [apply Hp|apply Ha|apply Hp|].
    split; try done.
    + rewrite (as_avail _ _ Has), (al_avail _ _ _ Ha), (pr_avail _ _ _ Hp). lia.
    + split; [done|apply Hp].
    + intros q Hq. rewrite (as_refs _ _ Has). destruct (decide (q = sp)) as [->|Hns].
      { rewrite decide_True by (by left). apply Ha. }
      destruct (decide (q = np)) as [->|Hnn].
      { rewrite decide_True by (by right). rewrite (al_refs _ _ _ Ha); [apply Hp|]. apply (pr_used _ _ _ Hp). by left. }
      apply Hused in Hq as [?|[?|Hq]]; [done|done|]. rewrite decide_False by (by intros [?|?]).
      rewrite (al_refs _ _ _ Ha); [by apply (pr_refs _ _ _ Hp)|]. apply (pr_used _ _ _ Hp). by right.
    + destruct (as_rest _ _ Has) as [-> _]. destruct (al_rest _ _ _ Ha) as [-> _]. apply Hp.
Qed.

Lemma wp_vmm_create_address_space s :
  fa_inv (frames s) → space_ok s (kernel_space_pml4 s) →
  wp vmm_create_address_space (λ res s', fa_inv (frames s') ∧ created_post s res s') s.
Proof.
  intros Hinv Hok. unfold vmm_create_address_space.
  pose proof (so_root _ _ Hok) as Hk.
  assert (Hku : fa_used (frames s) (kernel_space_pml4 s))
    by (apply (so_used _ _ Hok []); by repeat constructor).
  apply wp_bind. eapply wp_mono; [by apply wp_alloc|].
  intros np s1 [(->&->&Hav)|[Hn0 Ha1]].
  { apply wp_ret. split; [done|]. simpl. split_and!; try done. lia. }
  rewrite (proj2 (Z.eqb_neq np 0)) by done.
  apply wp_bind, wp_get, wp_bind, wp_upd_ram, wp_bind.
  destruct (al_rest _ _ _ Ha1) as (Hkeq&_&_). rewrite Hkeq.
  pose proof (alloc_same_upd (zero_page np) _ (al_inv _ _ _ Ha1)) as Has1.
  eapply wp_mono.
  { apply wp_copy_kernel_half; [apply Has1|apply (al_frame _ _ _ Ha1)|apply Hk|].
    intros ->. by apply (al_fresh _ _ _ Ha1). }
  intros [] s2 [Has2 Hent2]. rewrite ram_of_upd, (al_ram _ _ _ Ha1), zero_page_idem in Hent2.
  apply wp_create_struct; [done|]. eapply pml4_ready_of; try done.
  by eapply alloc_same_trans.
Qed.
End vmm_space.
