(* ===== verification/VmmCow.v ===== *)
(** * Resolving copy-on-write faults. *)

From S2P Require Import Prelude Bits Ram Frames Vmm PageTable VmmSpec.

(** The flags of a resolved entry: writable, no longer copy-on-write. *)
Definition cow_flags (e : Z) : Z :=
  ((e &! PAGE_FLAGS_MASK) &! ~! VMM_COW) |! VMM_WRITABLE.

Lemma pow2_bit n k : 0 ≤ n → 0 ≤ k → Z.testbit (2 ^ n) k = (n =? k).
Proof. intros. by apply Z.pow2_bits_eqb. Qed.

Lemma cow_flags_bit e k : 0 ≤ k →
  Z.testbit (cow_flags e) k =
    (k =? 1) || (Z.testbit e k && Z.testbit PAGE_FLAGS_MASK k && negb (k =? 9)).
Proof.
  intros Hk. unfold cow_flags.
  change VMM_COW with (2 ^ 9). change VMM_WRITABLE with (2 ^ 1).
  rewrite Z.lor_spec, !Z.land_spec, u64_testbit, Z.lnot_spec, !pow2_bit by lia.
  rewrite flags_mask_bits, (Z.eqb_sym 1), (Z.eqb_sym 9) by done.
  destruct (k =? 1), (k =? 9), (Z.testbit e k), (Z.testbit PAGE_MASK k), (k <? 64); done.
Qed.

Lemma flags_mask_bit k : 0 ≤ k < 12 → Z.testbit PAGE_FLAGS_MASK k = true.
Proof.
  intros. rewrite flags_mask_bits, page_mask_bits by lia.
  rewrite (proj2 (Z.leb_gt 12 k)), (proj2 (Z.ltb_lt k 64)) by lia. done.
Qed.

Lemma cow_flags_mask e : cow_flags e &! PAGE_FLAGS_MASK = cow_flags e.
Proof.
  apply Z.bits_inj'. intros k Hk. rewrite Z.land_spec, cow_flags_bit by done.
  destruct (Z.eqb_spec k 1) as [->|]; simpl; [done|].
  destruct (Z.testbit e k), (Z.testbit PAGE_FLAGS_MASK k), (k =? 9); done.
Qed.

Lemma cow_entry_in_place e :
  (e &! ~! PAGE_FLAGS_MASK) |! cow_flags e = make_entry (entry_phys e) (cow_flags e).
Proof.
  unfold make_entry. rewrite cow_flags_mask, (land_page_mask _ (entry_phys_ok e)). done.
Qed.

Lemma cow_entry_copy f e : frame_ok f → f |! cow_flags e = make_entry f (cow_flags e).
Proof. intros Hf. unfold make_entry. by rewrite cow_flags_mask, land_page_mask. Qed.

Lemma has_cow_flags e k : 0 ≤ k < 12 → k ≠ 1 → k ≠ 9 →
  has (cow_flags e) (2 ^ k) = has e (2 ^ k).
Proof.
  intros Hk H1 H9. rewrite !has_bit, cow_flags_bit, flags_mask_bit by lia.
  rewrite (proj2 (Z.eqb_neq k 1)), (proj2 (Z.eqb_neq k 9)) by done.
  by rewrite !andb_true_r.
Qed.

Lemma cow_flags_writable e : has (cow_flags e) VMM_WRITABLE = true.
Proof. change VMM_WRITABLE with (2 ^ 1). by rewrite has_bit, cow_flags_bit. Qed.
Lemma cow_flags_cow e : has (cow_flags e) VMM_COW = false.
Proof.
  change VMM_COW with (2 ^ 9). rewrite has_bit, cow_flags_bit by done. simpl.
  by rewrite andb_false_r.
Qed.
Lemma cow_flags_present e : has (cow_flags e) VMM_PRESENT = has e VMM_PRESENT.
Proof. by apply (has_cow_flags e 0). Qed.
Lemma cow_flags_user e : has (cow_flags e) VMM_USER = has e VMM_USER.
Proof. by apply (has_cow_flags e 2). Qed.

Lemma cow_entry_facts f e : frame_ok f → let e' := make_entry f (cow_flags e) in
  entry_phys e' = f ∧ has e' VMM_WRITABLE = true ∧ has e' VMM_COW = false ∧
  has e' VMM_USER = has e VMM_USER.
Proof.
  intros Hf e'. unfold e'. split; [by apply entry_phys_make|].
  change VMM_WRITABLE with (2 ^ 1). change VMM_COW with (2 ^ 9). change VMM_USER with (2 ^ 2).
  rewrite !has_make by (done || lia).
  split; [apply cow_flags_writable|]. split; [apply cow_flags_cow|apply cow_flags_user].
Qed.

Section cow.
Context {S : Type} `{FrameAllocLaws S}.
Implicit Types s : vmm S.

(** [s'] is [s] with the leaf of [va] set to [v] and only frame [f] new. *)
Record cow_copied (root va e f : Z) s s' : Prop := {
  cc_inv : fa_inv (frames s');
  cc_ok : space_ok s' root;
  cc_fresh : ¬ fa_used (frames s) f;
  cc_leaf : ∀ vb, leaf (ram_of s') root vb =
    if decide (va_path va = va_path vb) then Some (make_entry f (cow_flags e))
    else leaf (ram_of s) root vb;
  cc_copy : ∀ j, idx_ok j → pt_entry (ram_of s') f j = pt_entry (ram_of s) (entry_phys e) j;
  cc_other : ∀ q, other_frame s root q → other_frame s' root q ∧
    ∀ j, idx_ok j → pt_entry (ram_of s') q j = pt_entry (ram_of s) q j;
  cc_new : other_frame s' root f;
  cc_used : ∀ q, fa_used (frames s') q ↔ q = f ∨ fa_used (frames s) q;
  cc_ref_new : fa_refs (frames s') f = 1;
  cc_refs : ∀ q, fa_used (frames s) q → fa_refs (frames s') q =
    if decide (q = entry_phys e) then fa_refs (frames s) q - 1
    else fa_refs (frames s) q;
  cc_avail : fa_avail (frames s') = fa_avail (frames s) - 1;
  cc_rest : kernel_space_pml4 s' = kernel_space_pml4 s ∧
    g_cpu_count s' = g_cpu_count s ∧ tlb_log s' = tlb_log s ++ [Invlpg (page_of va)];
}.

Definition cow_post (root va : Z) s (rc : Z) s' : Prop :=
  match leaf (ram_of s) root va with
  | None => rc = -1 ∧ s' = s
  | Some e =>
      let old := entry_phys e in
      if negb (has e VMM_COW) then rc = -1 ∧ s' = s else
      if fa_refs (frames s) old =? 1 then
        rc = 0 ∧ kept root s s' ∧ fa_avail (frames s') = fa_avail (frames s) ∧
        tlb_log s' = tlb_log s ++ [Invlpg (page_of va)] ∧
        ∀ vb, leaf (ram_of s') root vb =
          if decide (va_path va = va_path vb) then Some (make_entry old (cow_flags e))
          else leaf (ram_of s) root vb
      else if 1 <? fa_refs (frames s) old then
        (rc = -2 ∧ s' = s ∧ fa_avail (frames s) = 0) ∨
        (rc = 0 ∧ ∃ f, cow_copied root va e f s s')
      else rc = -1 ∧ s' = s
  end.

Lemma leaf_Some_pte s root va e :
  leaf (ram_of s) root va = Some e →
  ∃ pt, table_at (ram_of s) root (walk_path va) = Some pt ∧
    e = pt_entry (ram_of s) pt (pt_index va) ∧ has e VMM_PRESENT = true.
Proof.
  unfold leaf. destruct (table_at _ _ _) as [pt|]; cbn [mbind option_bind]; [|done].
  destruct (has _ _) eqn:Hp; [|done]. intros [= <-]. by exists pt.
Qed.

Lemma copy_page_entry r f old q j : page_ok f → page_ok q → idx_ok j →
  pt_entry (copy_page f old r) q j =
    if decide (f = q) then pt_entry r old j else pt_entry r q j.
Proof. intros. by apply rd64_copy_page. Qed.

(** The state after the allocation of [f] and the copy of frame [old]. *)
Record copy_ready (root old f : Z) s s2 : Prop := {
  cr_inv : fa_inv (frames s2);
  cr_frame : frame_ok f;
  cr_fresh : ¬ fa_used (frames s) f;
  cr_entry : ∀ q j, page_ok q → idx_ok j → pt_entry (ram_of s2) q j =
    if decide (f = q) then pt_entry (ram_of s) old j else pt_entry (ram_of s) q j;
  cr_used : ∀ q, fa_used (frames s2) q ↔ q = f ∨ fa_used (frames s) q;
  cr_ref : fa_refs (frames s2) f = 1;
  cr_refs : ∀ q, fa_used (frames s) q → fa_refs (frames s2) q = fa_refs (frames s) q;
  cr_avail : fa_avail (frames s2) = fa_avail (frames s) - 1;
  cr_ok : space_ok s2 root;
  cr_same : tables_same s s2 root;
  cr_rest : kernel_space_pml4 s2 = kernel_space_pml4 s ∧
    g_cpu_count s2 = g_cpu_count s ∧ tlb_log s2 = tlb_log s;
}.

Lemma copy_ready_of s s1 root old f :
  space_ok s root → frame_ok old → f ≠ old → allocd f s s1 →
  copy_ready root old f s (ram_upd (copy_page f old) s1).
Proof.
  intros Hok Ho Hfo Ha. set (s2 := ram_upd _ s1).
  assert (Has : alloc_same s1 s2) by apply alloc_same_upd, Ha.
  assert (Hent : ∀ q j, page_ok q → idx_ok j → pt_entry (ram_of s2) q j =
    if decide (f = q) then pt_entry (ram_of s) old j else pt_entry (ram_of s) q j).
  { intros q j Hq Hj. unfold s2. rewrite ram_of_upd, copy_page_entry by (done || apply Ha).
    rewrite !(al_ram _ _ _ Ha), !pt_entry_zero_page by (done || apply Ha || apply Ho).
    rewrite (decide_False (P := f = old)) by done. by destruct (decide (f = q)). }
  assert (Hus : ∀ q, fa_used (frames s2) q ↔ q = f ∨ fa_used (frames s) q).
  { intros q. by rewrite (as_used _ _ Has), (al_used _ _ _ Ha). }
  assert (Hsame : tables_same s s2 root).
  { intros t j Htab Hj. rewrite Hent; [|by eapply table_frame_ok|done].
    rewrite decide_False; [done|]. intros <-.
    by apply (fresh_not_table s root f f Hok (al_fresh _ _ _ Ha)). }
  split; try done; try apply Ha; try apply Has.
  - rewrite (as_refs _ _ Has). apply Ha.
  - intros q Hq. rewrite (as_refs _ _ Has). by apply (al_refs _ _ _ Ha).
  - rewrite (as_avail _ _ Has). apply Ha.
  - eapply space_ok_same; [done| |done]. intros q Hq. apply Hus. by right.
Qed.

(** ... and the leaf write: everything but the reference to [old]. *)
Lemma cow_copied_of s s2 s3 s4 root va e f :
  let old := entry_phys e in
  fa_used (frames s) old → 1 < fa_refs (frames s) old →
  has e VMM_PRESENT = true → space_ok s root → copy_ready root old f s s2 →
  leaf_set root va (f |! cow_flags e) s2 s3 →
  tlb_log s3 = tlb_log s2 ++ [Invlpg (page_of va)] →
  fa_inv (frames s4) → ram_of s4 = ram_of s3 →
  (∀ q, fa_used (frames s4) q ↔ fa_used (frames s3) q) →
  (∀ q, fa_used (frames s3) q → fa_refs (frames s4) q =
     if decide (q = old) then fa_refs (frames s3) q - 1 else fa_refs (frames s3) q) →
  fa_avail (frames s4) = fa_avail (frames s3) →
  kernel_space_pml4 s4 = kernel_space_pml4 s3 ∧
    g_cpu_count s4 = g_cpu_count s3 ∧ tlb_log s4 = tlb_log s3 →
  cow_copied root va e f s s4.
Proof.
  intros old Hu Hr Hpres Hok Hc Hl Hlog Hi Hram Hu4 Hr4 Hv4 Hk4.
  destruct (cr_rest _ _ _ _ _ Hc) as (Hk2&Hc2&Hl2).
  destruct (ls_rest _ _ _ _ _ Hl) as (Hk3&Hc3). destruct Hk4 as (Hk4&Hc4&Hl4).
  assert (Hused : ∀ q, fa_used (frames s4) q ↔ q = f ∨ fa_used (frames s) q).
  { intros q. by rewrite Hu4, (ls_used _ _ _ _ _ Hl), (cr_used _ _ _ _ _ Hc). }
  assert (Hnt : ∀ p, path_ok p → table_at (ram_of s3) root p = table_at (ram_of s) root p).
  { intros p Hp. rewrite (ls_tables _ _ _ _ _ Hl) by done.
    by apply (table_at_same _ _ _ (cr_same _ _ _ _ _ Hc)). }
  assert (Hf2 : other_frame s2 root f).
  { split; [apply (cr_used _ _ _ _ _ Hc); by left|]. split; [apply Hc|].
    intros p Hp. rewrite (table_at_same _ _ _ (cr_same _ _ _ _ _ Hc)) by done.
    intros Ht. by apply (cr_fresh _ _ _ _ _ Hc), (so_used _ _ Hok p). }
  assert (Hmono : ∀ q, other_frame s root q → other_frame s2 root q).
  { intros q. apply other_frame_same; [apply Hc|]. intros x Hx.
    apply (cr_used _ _ _ _ _ Hc). by right. }
  assert (H34 : ∀ q, other_frame s2 root q → other_frame s4 root q).
  { intros q Hq. apply (leaf_set_other _ _ _ _ _ _ Hl) in Hq as (?&?&Hno).
    split; [by apply Hu4|]. split; [done|]. intros p. rewrite Hram. apply Hno. }
  split.
  - done.
  - destruct (ls_ok _ _ _ _ _ Hl) as [? Hinj Huse]. split; [done|..].
    + rewrite Hram. done.
    + intros p t Hp. rewrite Hram. intros Ht. apply Hu4. by eapply Huse.
  - apply Hc.
  - intros vb. rewrite Hram, (ls_leaf _ _ _ _ _ Hl).
    rewrite (cow_entry_copy f e) by apply Hc. rewrite present_make by apply Hc.
    rewrite cow_flags_present, Hpres.
    by rewrite (leaf_same (ram_of s)) by apply Hc.
  - intros j Hj. rewrite Hram, (ls_other _ _ _ _ _ Hl) by done.
    rewrite (cr_entry _ _ _ _ _ Hc) by (done || apply Hc). by rewrite decide_True.
  - intros q Hq. split; [by apply H34, Hmono|]. intros j Hj.
    rewrite Hram, (ls_other _ _ _ _ _ Hl) by (done || by apply Hmono).
    rewrite (cr_entry _ _ _ _ _ Hc) by (done || apply Hq).
    rewrite decide_False; [done|]. intros ->. by apply (cr_fresh _ _ _ _ _ Hc), Hq.
  - by apply H34.
  - done.
  - rewrite Hr4, decide_False.
    + rewrite (ls_refs _ _ _ _ _ Hl). apply Hc.
    + intros ->. by apply (cr_fresh _ _ _ _ _ Hc).
    + apply (ls_used _ _ _ _ _ Hl), (cr_used _ _ _ _ _ Hc). by left.
  - intros q Hq. rewrite Hr4.
    + by rewrite (ls_refs _ _ _ _ _ Hl), (cr_refs _ _ _ _ _ Hc).
    + apply (ls_used _ _ _ _ _ Hl), (cr_used _ _ _ _ _ Hc). by right.
  - rewrite Hv4, (ls_avail _ _ _ _ _ Hl). apply Hc.
  - rewrite Hk4, Hc4, Hl4, Hk3, Hc3, Hlog, Hl2. done.
Qed.

(** The copying branch, after the allocation of [f]. *)
Lemma wp_cow_copy s s1 root va pt e f :
  space_ok s root → table_at (ram_of s) root (walk_path va) = Some pt →
  has e VMM_PRESENT = true →
  fa_used (frames s) (entry_phys e) → 1 < fa_refs (frames s) (entry_phys e) →
  allocd f s s1 →
  wp (upd_ram (copy_page f (entry_phys e));;
      write64 (pt + 8 * pt_index va) (f |! cow_flags e);;
      invlpg (page_of va);;
      in_frames (fa_free (entry_phys e));;
      mret 0) (λ rc s', rc = 0 ∧ cow_copied root va e f s s') s1.
Proof.
  intros Hok Ht Hp Hu Hr Ha.
  assert (Hfo : f ≠ entry_phys e) by (intros ->; by apply (al_fresh _ _ _ Ha)).
  apply wp_bind, wp_upd_ram.
  pose proof (copy_ready_of s s1 root _ f Hok (entry_phys_ok e) Hfo Ha) as Hc.
  set (s2 := ram_upd _ s1) in *.
  apply wp_bind, wp_upd_ram, wp_bind, wp_invlpg.
  assert (Ht2 : table_at (ram_of s2) root (walk_path va) = Some pt).
  { rewrite (table_at_same _ _ _ (cr_same _ _ _ _ _ Hc)) by apply walk_path_ok. done. }
  pose proof (leaf_set_write s2 root va (f |! cow_flags e) pt [Invlpg (page_of va)]
    (cr_inv _ _ _ _ _ Hc) (cr_ok _ _ _ _ _ Hc) Ht2) as Hls.
  set (s3 := logged _ _) in *.
  assert (Hold : fa_used (frames s3) (entry_phys e))
    by (apply (ls_used _ _ _ _ _ Hls), (cr_used _ _ _ _ _ Hc); by right).
  assert (Hro : fa_refs (frames s3) (entry_phys e) = fa_refs (frames s) (entry_phys e))
    by (rewrite (ls_refs _ _ _ _ _ Hls); by apply (cr_refs _ _ _ _ _ Hc)).
  apply wp_bind. eapply wp_mono; [apply wp_free; [apply Hls|done|lia]|].
  intros [] s4 (Hi4&Hram4&Hu4&Hr4&Hv4&Hrest). apply wp_ret. split; [done|].
  eapply (cow_copied_of s s2 s3 s4); try done.
  - intros q. rewrite Hu4. split; [by intros [? _]|]. intros Hq. split; [done|]. intros ->. lia.
  - intros q Hq. rewrite Hr4 by done. destruct (decide (q = entry_phys e)) as [->|]; done.
  - rewrite Hv4, decide_False; [done|lia].
Qed.

Lemma wp_vmm_handle_cow s space root va :
  fa_inv (frames s) → space_ok s root → space_root s space root →
  (∀ e, leaf (ram_of s) root va = Some e → fa_used (frames s) (entry_phys e)) →
  wp (vmm_handle_cow (Some space) va) (cow_post root va s) s.
Proof.
  intros Hinv Hok Hs Hdata. unfold vmm_handle_cow, cow_post.
  change (va &! ~! PAGE_OFFSET_MASK) with (page_of va).
  apply wp_bind. eapply wp_of_run; [by apply (walk_to_pte_run s space root)|].
  rewrite page_of_walk, page_of_pt.
  destruct (table_at (ram_of s) root (walk_path va)) as [pt|] eqn:Ht;
    cbn [fmap option_fmap option_map].
  2:{ apply wp_ret. unfold leaf. by rewrite Ht. }
  rewrite (leaf_present _ _ _ _ Ht) in *. apply wp_bind, wp_read64.
  change (rd64 (ram_of s) (pt + 8 * pt_index va)) with (pt_entry (ram_of s) pt (pt_index va)).
  set (e := pt_entry (ram_of s) pt (pt_index va)) in *.
  destruct (has e VMM_PRESENT) eqn:Hp; cbn [negb]; [|by apply wp_ret].
  destruct (has e VMM_COW) eqn:Hcow; cbn [negb]; [|by apply wp_ret].
  assert (Hu : fa_used (frames s) (entry_phys e)) by by apply Hdata.
  apply wp_bind, wp_in_frames. eapply wp_mono; [by apply fa_get_ref_spec|].
  intros ref fs [-> ->]. replace (with_frames (frames s) s) with s by by destruct s.
  change (((e &! PAGE_FLAGS_MASK) &! ~! VMM_COW) |! VMM_WRITABLE) with (cow_flags e).
  destruct (Z.eqb_spec (fa_refs (frames s) (entry_phys e)) 1).
  { rewrite cow_entry_in_place. apply wp_bind, wp_upd_ram, wp_bind, wp_invlpg, wp_ret.
    pose proof (leaf_set_write s root va (make_entry (entry_phys e) (cow_flags e)) pt
      [Invlpg (page_of va)] Hinv Hok Ht) as Hls.
    split; [done|]. split; [by eapply leaf_set_kept|]. split; [apply Hls|]. split; [done|].
    intros vb. rewrite (ls_leaf _ _ _ _ _ Hls), present_make by apply entry_phys_ok.
    by rewrite cow_flags_present, Hp. }
  destruct (Z.ltb_spec 1 (fa_refs (frames s) (entry_phys e))); [|by apply wp_ret].
  apply wp_bind. eapply wp_mono; [by apply wp_alloc|].
  intros f s1 [(->&->&Hav)|[Hf0 Ha]]; [apply wp_ret; by left|].
  rewrite (proj2 (Z.eqb_neq f 0)) by done.
  eapply wp_mono; [by apply (wp_cow_copy s s1 root va pt e f)|].
  intros rc s' [-> Hcc]. right. split; [done|]. by exists f.
Qed.
End cow.
