(* ===== verification/VmmUser.v ===== *)
(** * Validating user pointers. *)

From S2P Require Import Prelude Bits Ram Frames Vmm PageTable VmmSpec VmmMap VmmCow.

Section user.
Context {S : Type} `{FrameAllocLaws S}.
Implicit Types s : vmm S.

(** A frame that may back a user page: in use, and neither a table nor the
    structure of the address space. *)
Definition user_frame s (space : address_space) (root q : Z) : Prop :=
  other_frame s root q ∧ 1 ≤ fa_refs (frames s) q ∧ space ≠ SpaceAt q.

Record user_space s (space : address_space) (root : Z) : Prop := {
  us_inv : fa_inv (frames s);
  us_ok : space_ok s root;
  us_root : space_root s space root;
  us_data : ∀ va e, leaf (ram_of s) root va = Some e → has e VMM_USER = true →
    user_frame s space root (entry_phys e);
}.

(** The page of [va] is mapped for user access, and writable if [w]. *)
Definition user_ok s (root : Z) (w : bool) (va : Z) : Prop :=
  ∃ e, leaf (ram_of s) root va = Some e ∧ has e VMM_USER = true ∧
    (w = true → has e VMM_WRITABLE = true).

(** The VMAs of the process grant user access. *)
Definition vmas_user (cur : option cur_process) : Prop :=
  ∀ proc v, cur = Some proc → v ∈ cp_vmas proc →
    has (vma_flags v) VMM_PRESENT = true ∧ has (vma_flags v) VMM_USER = true.

(** One step of the validation of [page]: other pages keep their entry. *)
Record page_step (space : address_space) (root page : Z) s s' : Prop := {
  ps_space : user_space s' space root;
  ps_leaf : ∀ va, va_path page ≠ va_path va →
    leaf (ram_of s') root va = leaf (ram_of s) root va;
  ps_other : ∀ q, other_frame s root q → other_frame s' root q ∧
    ∀ j, idx_ok j → pt_entry (ram_of s') q j = pt_entry (ram_of s) q j;
}.

Lemma page_step_refl space root page s :
  user_space s space root → page_step space root page s s.
Proof. by split. Qed.
Lemma page_step_trans space root page s s' s'' :
  page_step space root page s s' → page_step space root page s' s'' →
  page_step space root page s s''.
Proof.
  intros [_ L1 O1] [Hus L2 O2]. split; [done|intros va Hva; by rewrite L2, L1|].
  intros q Hq. destruct (O1 q Hq) as [Hq' E1]. destruct (O2 q Hq') as [Hq'' E2].
  split; [done|]. intros j Hj. by rewrite E2, E1.
Qed.

Lemma current_vma_user cur space page v :
  vmas_user cur → current_vma cur space page = Some v →
  has (vma_flags v) VMM_PRESENT = true ∧ has (vma_flags v) VMM_USER = true.
Proof.
  intros Hc. unfold current_vma, find_vma. destruct cur as [proc|]; [|done].
  destruct (bool_decide _); [|done].
  destruct (list_find _ _) as [[i x]|] eqn:Hf; [|done]. intros [= <-].
  apply list_find_Some in Hf as (Hl&_&_). by eapply Hc, list_elem_of_lookup_2.
Qed.

(** A rewritten leaf entry that keeps the frame. *)
Lemma user_space_kept s s' space root virt v :
  user_space s space root → kept root s s' →
  (∀ va, leaf (ram_of s') root va =
     if decide (va_path virt = va_path va) then Some v else leaf (ram_of s) root va) →
  (has v VMM_USER = true → user_frame s space root (entry_phys v)) →
  page_step space root virt s s'.
Proof.
  intros [Hi Hok Hr Hd] Hk Hl Hv. split.
  - split; [apply Hk|apply Hk|by apply (kp_space _ _ _ Hk)|].
    intros va e He Hu. assert (Ho : user_frame s space root (entry_phys e)).
    { rewrite Hl in He. destruct (decide _); [injection He as <-; by apply Hv|by eapply Hd]. }
    destruct Ho as (Ho&Href&Hsp). split; [by apply (kp_other _ _ _ Hk)|].
    rewrite (kp_refs _ _ _ Hk); [done|apply Ho].
  - intros va Hne. by rewrite Hl, decide_False.
  - apply (kp_other _ _ _ Hk).
Qed.

(** ** Lazy mapping *)

(** One more frame [f] is in use; other frames keep their contents. *)
Lemma user_space_more s s2 space root f :
  user_space s space root → fa_inv (frames s2) → frame_ok f → ¬ fa_used (frames s) f →
  (∀ q, fa_used (frames s2) q ↔ q = f ∨ fa_used (frames s) q) →
  (∀ q, fa_used (frames s) q → fa_refs (frames s2) q = fa_refs (frames s) q) →
  kernel_space_pml4 s2 = kernel_space_pml4 s →
  (∀ q j, page_ok q → idx_ok j → q ≠ f → pt_entry (ram_of s2) q j = pt_entry (ram_of s) q j) →
  user_space s2 space root ∧ other_frame s2 root f ∧
  (∀ q, other_frame s root q → other_frame s2 root q ∧
     ∀ j, idx_ok j → pt_entry (ram_of s2) q j = pt_entry (ram_of s) q j) ∧
  (∀ va, leaf (ram_of s2) root va = leaf (ram_of s) root va).
Proof.
  intros [Hi Hok Hr Hd] Hi2 Hf Hfresh Hus Hrefs Hk Hent.
  assert (Hmono : ∀ q, fa_used (frames s) q → fa_used (frames s2) q)
    by (intros q Hq; apply Hus; by right).
  assert (Hsame : tables_same s s2 root).
  { intros t j Ht Hj. apply Hent; [by eapply table_frame_ok|done|]. by eapply fresh_not_table. }
  assert (Hleaf : ∀ va, leaf (ram_of s2) root va = leaf (ram_of s) root va)
    by (intros va; by apply leaf_same).
  split; [split|split; [|split; [|done]]].
  - done.
  - by eapply space_ok_same.
  - destruct space as [|p]; simpl in *; [by rewrite Hk|].
    destruct Hr as [Hp Ho]. split; [|by eapply other_frame_same].
    rewrite <-Hp, <-!rd64_entry0. apply Hent; [apply Ho|unfold idx_ok; lia|].
    intros ->. by apply Hfresh, Ho.
  - intros va e He Hu. rewrite Hleaf in He. destruct (Hd va e He Hu) as (Ho&Href&Hsp).
    split; [by eapply other_frame_same|]. rewrite Hrefs; [done|apply Ho].
  - split; [apply Hus; by left|]. split; [apply Hf|]. intros p Hp.
    rewrite (table_at_same _ _ _ Hsame) by done. intros Ht. by apply Hfresh, (so_used _ _ Hok p).
  - intros q Hq. split; [by eapply other_frame_same|]. intros j Hj.
    apply Hent; [apply Hq|done|]. intros ->. by apply Hfresh, Hq.
Qed.

Lemma user_space_alloc s s1 space root f :
  user_space s space root → allocd f s s1 →
  user_space s1 space root ∧ other_frame s1 root f ∧
  (∀ q, other_frame s root q → other_frame s1 root q ∧
     ∀ j, idx_ok j → pt_entry (ram_of s1) q j = pt_entry (ram_of s) q j) ∧
  (∀ va, leaf (ram_of s1) root va = leaf (ram_of s) root va).
Proof.
  intros Hs Ha. apply user_space_more; try apply Ha; [done|].
  intros q j Hq Hj Hne. by eapply allocd_other.
Qed.

Lemma user_space_allocd s s1 space root f r :
  user_space s space root → allocd f s s1 →
  (∀ q j, page_ok q → idx_ok j → q ≠ f → pt_entry r q j = pt_entry (ram_of s) q j) →
  let s2 := ram_upd (λ _, r) s1 in
  user_space s2 space root ∧ other_frame s2 root f ∧
  (∀ q, other_frame s root q → other_frame s2 root q ∧
     ∀ j, idx_ok j → pt_entry (ram_of s2) q j = pt_entry (ram_of s) q j) ∧
  (∀ va, leaf (ram_of s2) root va = leaf (ram_of s) root va).
Proof.
  intros Hs Ha Hent s2. assert (Has : alloc_same s1 s2) by apply alloc_same_upd, Ha.
  apply user_space_more; try apply Ha; [done|apply Has|..].
  - intros q. by rewrite (as_used _ _ Has), (al_used _ _ _ Ha).
  - intros q Hq. rewrite (as_refs _ _ Has). by apply (al_refs _ _ _ Ha).
  - unfold s2. rewrite ram_of_upd. exact Hent.
Qed.

(** Giving a frame back that no user page maps. *)
Lemma wp_free_unmapped s space root f :
  user_space s space root → other_frame s root f → fa_refs (frames s) f = 1 →
  (∀ va e, leaf (ram_of s) root va = Some e → has e VMM_USER = true → entry_phys e ≠ f) →
  space ≠ SpaceAt f →
  wp (in_frames (fa_free f)) (λ _ s', user_space s' space root ∧
    ram_of s' = ram_of s ∧
    ∀ q, other_frame s root q → q ≠ f → other_frame s' root q) s.
Proof.
  intros [Hi Hok Hr Hd] (Hfu&Hfp&Hfn) Href Hnm Hsp.
  eapply wp_mono; [apply wp_free; [done|done|lia]|].
  intros [] s' (Hi'&Hram&Hu&Hrefs&_&Hk&_&_).
  assert (Hkeep : ∀ q, fa_used (frames s) q → q ≠ f → fa_used (frames s') q)
    by (intros q Hq Hne; by apply Hu).
  assert (Hoth : ∀ q, other_frame s root q → q ≠ f → other_frame s' root q).
  { intros q (?&?&Hno) Hne. split; [by apply Hkeep|]. split; [done|]. by rewrite Hram. }
  split; [split|by split].
  - done.
  - destruct Hok as [? Hinj Huse]. split; [done|by rewrite Hram|].
    intros p t Hp. rewrite Hram. intros Ht. apply Hkeep; [by eapply Huse|].
    intros ->. by apply (Hfn p).
  - destruct space as [|p]; simpl in *; [by rewrite Hk|].
    destruct Hr as [Hp Ho]. rewrite Hram. split; [done|]. apply Hoth; [done|congruence].
  - intros va e He Hus. rewrite Hram in He. destruct (Hd va e He Hus) as (Ho&Hge&Hne).
    pose proof (Hnm va e He Hus). split; [by apply Hoth|].
    rewrite Hrefs, decide_False; [done|done|apply Ho].
Qed.

Lemma wp_lazy_map s cur space root page w pte :
  user_space s space root → vmas_user cur → page_ok page →
  leaf (ram_of s) root page = None →
  wp (lazy_map cur space page w pte) (λ r s',
    page_step space root page s s' ∧
    match r with
    | None => leaf (ram_of s') root page = None
    | Some pte' =>
        (pte' = pte ∧ s' = s) ∨
        pte' = (λ pt, pt + 8 * pt_index page) <$>
                 table_at (ram_of s') root (walk_path page)
    end) s.
Proof.
  intros Hus Hvm Hpg Hnone. unfold lazy_map.
  destruct (current_vma cur space page) as [v|] eqn:Hv.
  2:{ apply wp_ret. split; [by apply page_step_refl|by left]. }
  destruct (current_vma_user _ _ _ _ Hvm Hv) as [Hvp Hvu].
  destruct (w && _); [apply wp_ret; split; [by apply page_step_refl|done]|].
  destruct (negb w && _); [apply wp_ret; split; [by apply page_step_refl|done]|].
  apply wp_bind. eapply wp_mono; [by apply wp_alloc, Hus|].
  intros f s1 [(->&->&_)|[Hf0 Ha]].
  { apply wp_ret. split; [by apply page_step_refl|done]. }
  rewrite (proj2 (Z.eqb_neq f 0)) by done. apply wp_bind, wp_upd_ram.
  assert (Hzero : ram_upd (zero_page f) s1 = ram_upd (λ _, zero_page f (ram_of s)) s1).
  { unfold ram_upd. by rewrite (al_ram _ _ _ Ha), zero_page_idem. }
  rewrite Hzero. clear Hzero.
  destruct (user_space_allocd s s1 space root f (zero_page f (ram_of s))) as (Hus2&Hf2&Ho2&Hl2);
    [done|done| |].
  { intros q j Hq Hj Hne. rewrite pt_entry_zero_page by (done || apply Ha).
    by rewrite decide_False. }
  set (s2 := ram_upd (λ _, zero_page f (ram_of s)) s1) in *.
  assert (Hsp : space ≠ SpaceAt f).
  { intros ->. destruct (us_root _ _ _ Hus) as [_ (Hu&_)]. by apply (al_fresh _ _ _ Ha). }
  assert (Href2 : fa_refs (frames s2) f = 1)
    by (rewrite (as_refs s1 s2) by apply alloc_same_upd, Ha; apply Ha).
  apply wp_bind. eapply wp_mono.
  { apply (wp_vmm_map s2 space root page f (vma_flags v));
      [apply Hus2|apply Hus2|apply Hus2|done|apply Ha|done]. }
  intros rc s3 [Hk Hpost]. rewrite Hl2, Hnone in Hpost.
  destruct Hpost as [(->&_&Hleaf)|(->&_&Hleaf)]; cbn [Z.eqb negb].
  - (* mapped *)
    assert (Hstep : page_step space root page s2 s3).
    { eapply user_space_kept; [done|done|done|]. rewrite entry_phys_make by apply Ha.
      intros _. split; [done|]. split; [lia|done]. }
    assert (Hstep' : page_step space root page s s3).
    { split; [apply Hstep|intros va Hne; by rewrite (ps_leaf _ _ _ _ _ Hstep), Hl2|].
      intros q Hq. destruct (Ho2 q Hq) as [Hq2 E2].
      destruct (ps_other _ _ _ _ _ Hstep q Hq2) as [Hq3 E3].
      split; [done|]. intros j Hj. by rewrite E3, E2. }
    apply wp_bind. eapply wp_of_run; [apply (walk_to_pte_run s3 space root), Hstep|].
    apply wp_ret. split; [done|by right].
  - (* out of memory: the frame is given back *)
    apply wp_bind. eapply wp_mono.
    { apply (wp_free_unmapped s3 space root f).
      - split; [apply Hk|apply Hk|apply (kp_space _ _ _ Hk), Hus2|].
        intros va e He Hu. rewrite Hleaf in He. destruct (us_data _ _ _ Hus2 va e He Hu) as (Ho&?&?).
        split; [by apply (kp_other _ _ _ Hk)|]. rewrite (kp_refs _ _ _ Hk); [done|apply Ho].
      - by apply (kp_other _ _ _ Hk).
      - rewrite (kp_refs _ _ _ Hk); [done|apply Hf2].
      - intros va e He Hu Heq. rewrite Hleaf, Hl2 in He.
        apply (al_fresh _ _ _ Ha). rewrite <-Heq. apply (us_data _ _ _ Hus va e He Hu).
      - done. }
    intros [] s4 (Hus4&Hram4&Hof4). apply wp_ret. split; [|by rewrite Hram4, Hleaf, Hl2].
    split; [done|intros va _; by rewrite Hram4, Hleaf, Hl2|].
    intros q Hq. destruct (Ho2 q Hq) as [Hq2 E2].
    destruct (kp_other _ _ _ Hk q Hq2) as [Hq3 E3]. split.
    + apply Hof4; [done|]. intros ->. by apply (al_fresh _ _ _ Ha), Hq.
    + intros j Hj. by rewrite Hram4, E3, E2.
Qed.

(** ** Making a present page writable *)

Definition pte_of s (root va : Z) : option Z :=
  (λ pt, pt + 8 * pt_index va) <$> table_at (ram_of s) root (walk_path va).

Lemma pte_has_leaf s root va e flag :
  leaf (ram_of s) root va = Some e →
  pte_has (pte_of s root va) flag s = Done (has e flag, s).
Proof.
  intros (pt&Ht&->&_)%leaf_Some_pte. unfold pte_of. rewrite Ht. simpl.
  by erewrite run_bind by apply read64_run.
Qed.

Lemma pte_has_present s root va :
  pte_has (pte_of s root va) VMM_PRESENT s =
    Done (bool_decide (is_Some (leaf (ram_of s) root va)), s).
Proof.
  unfold pte_of. destruct (table_at (ram_of s) root (walk_path va)) as [pt|] eqn:Ht.
  - simpl. erewrite run_bind by apply read64_run. rewrite (leaf_present _ _ _ _ Ht).
    unfold pt_entry. destruct (has _ _) eqn:Hp.
    + by rewrite bool_decide_true.
    + rewrite bool_decide_false; [done|]. by intros [? ?].
  - simpl. unfold leaf. rewrite Ht. rewrite bool_decide_false; [done|]. by intros [? ?].
Qed.

Lemma make_entry_user p f : frame_ok p → has (make_entry p f) VMM_USER = has f VMM_USER.
Proof. intros. by apply (has_make p f 2); [|lia]. Qed.
Lemma make_entry_writable p f :
  frame_ok p → has (make_entry p f) VMM_WRITABLE = has f VMM_WRITABLE.
Proof. intros. by apply (has_make p f 1); [|lia]. Qed.

Lemma cow_step s s' space root page e f :
  user_space s space root → leaf (ram_of s) root page = Some e →
  1 < fa_refs (frames s) (entry_phys e) → cow_copied root page e f s s' →
  page_step space root page s s'.
Proof.
  intros [Hi Hok Hr Hd] He Hrefs Hc.
  assert (Hfok : frame_ok f).
  { apply (used_frame_ok s'); [apply Hc|]. apply (cc_used _ _ _ _ _ _ Hc). by left. }
  split; [split|..].
  - apply Hc.
  - apply Hc.
  - destruct space as [|p]; simpl in *.
    + destruct (cc_rest _ _ _ _ _ _ Hc) as (->&_). done.
    + destruct Hr as [Hp Ho]. destruct (cc_other _ _ _ _ _ _ Hc p Ho) as [Ho' Hent].
      split; [|done]. rewrite <-Hp, <-!rd64_entry0. apply Hent. unfold idx_ok. lia.
  - intros va e' He' Hu. rewrite (cc_leaf _ _ _ _ _ _ Hc) in He'. destruct (decide _).
    + injection He' as <-. rewrite entry_phys_make by done.
      split; [apply (cc_new _ _ _ _ _ _ Hc)|]. rewrite (cc_ref_new _ _ _ _ _ _ Hc).
      split; [lia|]. intros ->. destruct Hr as [_ (Hsu&_)].
      by apply (cc_fresh _ _ _ _ _ _ Hc).
    + destruct (Hd va e' He' Hu) as (Ho&Hge&Hsp).
      split; [by apply (cc_other _ _ _ _ _ _ Hc)|].
      rewrite (cc_refs _ _ _ _ _ _ Hc) by apply Ho. split; [|done].
      destruct (decide (_ = _)) as [->|]; lia.
  - intros va Hne. by rewrite (cc_leaf _ _ _ _ _ _ Hc), decide_False.
  - apply (cc_other _ _ _ _ _ _ Hc).
Qed.

(** What [make_writable] establishes for a user page. *)
Definition writable_post space root page s (pte : option Z) s' : Prop :=
  page_step space root page s s' ∧ pte = pte_of s' root page ∧
  ∃ e, leaf (ram_of s') root page = Some e ∧ has e VMM_USER = true.

(** The copy-on-write attempt. *)
Lemma wp_try_cow s space root page e (cow : bool) :
  user_space s space root → leaf (ram_of s) root page = Some e →
  has e VMM_USER = true → page_ok page →
  wp (if cow then
        cow_rc ← vmm_handle_cow (Some space) page;
        if cow_rc =? 0 then walk_to_pte space page 0 false
        else mret (pte_of s root page)
      else mret (pte_of s root page)) (writable_post space root page s) s.
Proof.
  intros Hus He Hu Hpg. pose proof (us_data _ _ _ Hus page e He Hu) as Huf. pose proof Huf as (Ho&Hge&_).
  assert (Hsame : writable_post space root page s (pte_of s root page) s).
  { split; [by apply page_step_refl|]. split; [done|by exists e]. }
  assert (Hwalk : ∀ s', page_step space root page s s' →
    (∃ e, leaf (ram_of s') root page = Some e ∧ has e VMM_USER = true) →
    wp (walk_to_pte space page 0 false) (writable_post space root page s) s').
  { intros s' Hst He'. eapply wp_of_run.
    - apply (walk_to_pte_run s' space root), Hst.
    - by split. }
  destruct cow; [|by apply wp_ret].
  apply wp_bind. eapply wp_mono.
  { apply (wp_vmm_handle_cow s space root page); [apply Hus|apply Hus|apply Hus|].
    intros e'. rewrite He. intros [= <-]. apply Ho. }
  intros rc s' Hpost. unfold cow_post in Hpost. rewrite He in Hpost.
  destruct (negb (has e VMM_COW)); [destruct Hpost as [-> ->]; by apply wp_ret|].
  destruct (Z.eqb_spec (fa_refs (frames s) (entry_phys e)) 1).
  { destruct Hpost as (->&Hk&_&_&Hl). apply Hwalk.
    - eapply user_space_kept; [done|done|done|].
      rewrite entry_phys_make by apply entry_phys_ok. done.
    - exists (make_entry (entry_phys e) (cow_flags e)). rewrite Hl, decide_True by done.
      split; [done|]. by rewrite make_entry_user, cow_flags_user by apply entry_phys_ok. }
  destruct (Z.ltb_spec 1 (fa_refs (frames s) (entry_phys e)));
    [|destruct Hpost as [-> ->]; by apply wp_ret].
  destruct Hpost as [(->&->&_)|(->&f&Hc)]; [by apply wp_ret|].
  apply Hwalk; [by eapply cow_step|].
  assert (frame_ok f).
  { apply (used_frame_ok s'); [apply Hc|]. apply (cc_used _ _ _ _ _ _ Hc). by left. }
  exists (make_entry f (cow_flags e)). rewrite (cc_leaf _ _ _ _ _ _ Hc), decide_True by done.
  split; [done|]. by rewrite make_entry_user, cow_flags_user.
Qed.

Lemma writable_post_trans space root page s s1 pte pte' s2 :
  writable_post space root page s pte s1 → writable_post space root page s1 pte' s2 →
  writable_post space root page s pte' s2.
Proof.
  intros (H1&_&_) (H2&H3&H4). split; [by eapply page_step_trans|]. by split.
Qed.

Lemma wp_make_writable s cur space root page e :
  user_space s space root → vmas_user cur → leaf (ram_of s) root page = Some e →
  has e VMM_USER = true → page_ok page →
  wp (make_writable cur space page (pte_of s root page))
    (writable_post space root page s) s.
Proof.
  intros Hus Hvm He Hu Hpg. unfold make_writable.
  apply wp_bind. eapply wp_of_run; [by apply pte_has_leaf|].
  apply wp_bind. eapply wp_mono; [by apply (wp_try_cow s space root page e)|].
  intros pte s1 Hw. pose proof Hw as (Hst&->&e1&He1&Hu1).
  apply wp_bind. eapply wp_of_run; [by apply pte_has_leaf|].
  destruct (has e1 VMM_WRITABLE); [by apply wp_ret|].
  destruct (current_vma cur space page) as [v|] eqn:Hv; [|by apply wp_ret].
  destruct (current_vma_user _ _ _ _ Hvm Hv) as [Hvp Hvu].
  destruct (has (vma_prot_flags v) PROT_WRITE); [|by apply wp_ret].
  pose proof (ps_space _ _ _ _ _ Hst) as Hus1.
  apply wp_bind. eapply wp_mono.
  { apply (wp_vmm_protect s1 space root page (vma_flags v));
      [apply Hus1|apply Hus1|apply Hus1|done|done]. }
  intros rc s2 Hpost. unfold rewrite_post in Hpost. rewrite He1 in Hpost.
  destruct Hpost as (->&Hk&_&_&Hl). cbn [Z.eqb].
  rewrite present_make, Hvp in Hl by apply entry_phys_ok.
  assert (Hst2 : page_step space root page s1 s2).
  { eapply user_space_kept; [done|done|done|]. rewrite entry_phys_make by apply entry_phys_ok.
    intros _. by apply (us_data _ _ _ Hus1 page). }
  eapply wp_of_run; [apply (walk_to_pte_run s2 space root), Hst2|].
  eapply writable_post_trans; [done|]. split; [done|]. split; [done|].
  exists (make_entry (entry_phys e1) (vma_flags v)). rewrite Hl, decide_True by done.
  split; [done|]. by rewrite make_entry_user by apply entry_phys_ok.
Qed.

(** ** One page, and the whole range *)

Lemma wp_validate_page s cur space root w page :
  user_space s space root → vmas_user cur → page_ok page →
  wp (validate_page cur space w page) (λ r s',
    page_step space root page s s' ∧ (r = None → user_ok s' root w page)) s.
Proof.
  intros Hus Hvm Hpg. unfold validate_page.
  apply wp_bind. eapply wp_of_run; [apply (walk_to_pte_run s space root), Hus|].
  fold (pte_of s root page).
  apply wp_bind. eapply wp_of_run; [apply pte_has_present|].
  apply wp_bind. eapply (wp_mono _ (λ r s', page_step space root page s s' ∧
    ∀ pte, r = Some pte → pte = pte_of s' root page)).
  { destruct (leaf (ram_of s) root page) as [e|] eqn:He.
    - rewrite bool_decide_true by done. apply wp_ret. split; [by apply page_step_refl|].
      by intros ? [= <-].
    - rewrite bool_decide_false by by intros [? ?].
      eapply wp_mono; [by apply (wp_lazy_map s cur space root page w)|].
      intros [pte|] s' [Hst Hr]; (split; [done|]); [|done].
      intros ? [= <-]. destruct Hr as [[-> ->]|Hr]; done. }
  intros [pte|] s1 [Hst Hpte]; [|by apply wp_ret]. rewrite (Hpte pte eq_refl).
  pose proof (ps_space _ _ _ _ _ Hst) as Hus1.
  apply wp_bind. eapply wp_of_run; [apply pte_has_present|].
  destruct (leaf (ram_of s1) root page) as [e|] eqn:He.
  2:{ rewrite bool_decide_false by by intros [? ?]. by apply wp_ret. }
  rewrite bool_decide_true by done. cbn [negb].
  apply wp_bind. eapply wp_of_run; [by apply pte_has_leaf|].
  destruct (has e VMM_USER) eqn:Hu; cbn [negb]; [|by apply wp_ret].
  destruct w; cbn [negb]; [|apply wp_ret; split; [done|]; intros _; by exists e].
  apply wp_bind. eapply wp_of_run; [by apply pte_has_leaf|].
  destruct (has e VMM_WRITABLE) eqn:Hw; [apply wp_ret; split; [done|]; intros _; by exists e|].
  apply wp_bind. eapply wp_mono; [by apply (wp_make_writable s1 cur space root page e)|].
  intros pte2 s2 (Hst2&->&e2&He2&Hu2).
  assert (page_step space root page s s2) by by eapply page_step_trans.
  apply wp_bind. eapply wp_of_run; [by apply pte_has_leaf|].
  destruct (has e2 VMM_WRITABLE) eqn:Hw2; apply wp_ret; [|done].
  split; [done|]. intros _. by exists e2.
Qed.

Lemma page_of_eq va : 0 ≤ va < 2 ^ 64 → page_of va = va / 4096 * 4096.
Proof.
  intros Hva. unfold page_of. change PAGE_OFFSET_MASK with (2 ^ 12 - 1).
  by rewrite land_align_mask.
Qed.

Lemma page_mul_ok k : page_ok (k * 4096).
Proof. by apply Z.mod_mul. Qed.

Lemma user_ok_page s root w va vb :
  va_path va = va_path vb → user_ok s root w va → user_ok s root w vb.
Proof. intros Hp (e&He&H1). exists e. by rewrite <-(leaf_path _ _ _ _ Hp). Qed.

Lemma user_ok_step space root page s s' w va :
  page_step space root page s s' → va_path page ≠ va_path va →
  user_ok s root w va → user_ok s' root w va.
Proof. intros Hst Hne (e&He&H1). exists e. by rewrite (ps_leaf _ _ _ _ _ Hst). Qed.

(** What validation keeps: frames in use outside the tables keep their
    contents. *)
Record validated (space : address_space) (root : Z) s s' : Prop := {
  vd_space : user_space s' space root;
  vd_other : ∀ q, other_frame s root q → other_frame s' root q ∧
    ∀ j, idx_ok j → pt_entry (ram_of s') q j = pt_entry (ram_of s) q j;
}.

Lemma validated_refl space root s : user_space s space root → validated space root s s.
Proof. by split. Qed.
Lemma validated_step space root page s s' s'' :
  validated space root s s' → page_step space root page s' s'' →
  validated space root s s''.
Proof.
  intros [_ O1] Hst. split; [apply Hst|]. intros q Hq. destruct (O1 q Hq) as [Hq' E1].
  destruct (ps_other _ _ _ _ _ Hst q Hq') as [Hq'' E2]. split; [done|].
  intros j Hj. by rewrite E2, E1.
Qed.

(** The page loop over [n] consecutive pages from page number [k0]. *)
Lemma wp_validate_loop s cur space root w k0 n :
  user_space s space root → vmas_user cur →
  0 ≤ k0 → (k0 + Z.of_nat n) * 4096 ≤ 2 ^ 48 →
  wp (for_until n (k0 * 4096) VMM_PAGE_SIZE (validate_page cur space w)) (λ r s',
    validated space root s s' ∧
    (r = None → ∀ k, k0 ≤ k < k0 + Z.of_nat n → user_ok s' root w (k * 4096))) s.
Proof.
  intros Hus Hvm Hk0 Hn.
  apply (wp_for_until (λ i s', validated space root s s' ∧
    ∀ k, k0 ≤ k → k * 4096 < i → user_ok s' root w (k * 4096))).
  - split; [by apply validated_refl|]. intros k Hk Hlt. lia.
  - intros k s1 Hk [Hv1 Hall]. pose proof (vd_space _ _ _ _ Hv1) as Hus1. unfold VMM_PAGE_SIZE in *.
    replace (k0 * 4096 + k * 4096) with ((k0 + k) * 4096) in * by lia.
    eapply wp_mono.
    { apply (wp_validate_page s1 cur space root w); [done|done|apply page_mul_ok]. }
    intros [[]|] s2 [Hst Hok]; [split; [by eapply validated_step|done]|].
    split; [by eapply validated_step|]. intros j Hj Hlt.
    destruct (decide (j = k0 + k)) as [->|Hne]; [by apply Hok|].
    eapply user_ok_step; [done| |apply Hall; lia].
    intros Hp. apply va_path_inj in Hp; [lia|lia|lia|apply page_mul_ok..].
  - intros s1 [Hv1 Hall]. split; [done|]. intros _ k Hk. unfold VMM_PAGE_SIZE in *.
    apply Hall; lia.
Qed.

(** The guards on the range, and the pages it covers. *)
Definition user_range (ptr len : Z) : Prop :=
  VMM_USER_BASE ≤ ptr ∧ ptr + len - 1 ≤ VMM_USER_TOP.

Lemma range_guard ptr len :
  0 ≤ ptr < 2 ^ 64 → 0 < len < 2 ^ 64 →
  let last := (ptr +! len) -! 1 in
  negb (ptr =? 0) && negb (last <? ptr) &&
  negb ((ptr <? VMM_USER_BASE) || (VMM_USER_TOP <? last)) &&
  negb (negb (vmm_is_user_address ptr) || negb (vmm_is_user_address last)) = true ↔
  user_range ptr len.
Proof.
  intros Hp Hl last. unfold user_range, vmm_is_user_address,
    VMM_USER_BASE, VMM_USER_TOP, VMM_KERNEL_BASE.
  assert (Hlast : (ptr + len - 1 < 2 ^ 64 ∧ last = ptr + len - 1) ∨
                  (2 ^ 64 ≤ ptr + len - 1 ∧ last = ptr + len - 1 - 2 ^ 64)).
  { unfold last, u64. rewrite Zminus_mod_idemp_l.
    destruct (decide (ptr + len - 1 < 2 ^ 64)) as [Hlt|Hge]; [left|right].
    - by rewrite Z.mod_small by lia.
    - split; [lia|].
      rewrite <-(Z.mod_small (ptr + len - 1 - 2 ^ 64) (2 ^ 64)) by lia.
      rewrite <-(Z.mod_add (ptr + len - 1 - 2 ^ 64) 1 (2 ^ 64)) by lia. f_equal. lia. }
  destruct (Z.eqb_spec ptr 0), (Z.ltb_spec last ptr), (Z.ltb_spec ptr 0x1000),
    (Z.ltb_spec 0x00007fffffffffff last), (Z.ltb_spec ptr 0xffff800000000000),
    (Z.ltb_spec last 0xffff800000000000); simpl; split; try done; try lia.
Qed.

Lemma wp_validate s cur space root ptr len w :
  user_space s space root → vmas_user cur →
  0 ≤ ptr < 2 ^ 64 → 0 ≤ len < 2 ^ 64 →
  wp (vmm_validate_user_ptr_ex cur (Some space) ptr len w) (λ ok s',
    validated space root s s' ∧
    (ok = true → len = 0 ∨
       (user_range ptr len ∧ ∀ va, ptr ≤ va < ptr + len → user_ok s' root w va))) s.
Proof.
  intros Hus Hvm Hp Hl. unfold vmm_validate_user_ptr_ex.
  pose proof (validated_refl _ _ _ Hus).
  destruct (Z.eqb_spec len 0) as [->|Hl0]; [by apply wp_ret; auto|].
  pose proof (range_guard ptr len Hp ltac:(lia)) as Hg. cbv zeta in Hg.
  destruct (ptr =? 0); [by apply wp_ret|].
  destruct (_ <? ptr); [by apply wp_ret|].
  destruct ((ptr <? VMM_USER_BASE) || _); [by apply wp_ret|].
  destruct (negb (vmm_is_user_address ptr) || _); [by apply wp_ret|].
  destruct (proj1 Hg eq_refl) as [Hlo Hhi]. unfold VMM_USER_BASE, VMM_USER_TOP in *.
  replace ((ptr +! len) -! 1) with (ptr + len - 1) by (rewrite (u64_small (ptr + len)), u64_small by lia; lia).
  fold (page_of ptr) (page_of (ptr + len - 1)). rewrite !page_of_eq by lia.
  set (k0 := ptr / 4096). set (k1 := (ptr + len - 1) / 4096).
  assert (Hk : 0 ≤ k0 ≤ k1)
    by (split; [apply Z.div_pos; lia|apply Z.div_le_mono; lia]).
  assert (Hk1 : k1 * 4096 ≤ ptr + len - 1) by (pose proof (Z.mul_div_le (ptr + len - 1) 4096); lia).
  replace ((k1 * 4096 - k0 * 4096) / VMM_PAGE_SIZE + 1) with (k1 - k0 + 1).
  2:{ unfold VMM_PAGE_SIZE. rewrite <-Z.mul_sub_distr_r, Z.div_mul by done. lia. }
  apply wp_bind. eapply wp_mono; [apply (wp_validate_loop s cur space root w k0); try done; lia|].
  intros [[]|] s1 [Hus1 Hall]; apply wp_ret; (split; [done|]); [done|].
  intros _. right. split; [done|]. intros va Hva.
  apply (user_ok_page _ _ _ (va / 4096 * 4096)).
  { rewrite <-page_of_eq by lia. apply page_of_path. }
  apply Hall; [done|]. split; [by apply Z.div_le_mono; lia|].
  assert (va / 4096 ≤ k1) by (apply Z.div_le_mono; lia). lia.
Qed.

(** ** Pages that already allow the access *)

Lemma validate_page_run s cur space root w page :
  space_root s space root → user_ok s root w page →
  validate_page cur space w page s = Done (None, s).
Proof.
  intros Hs (e&He&Hu&Hw). unfold validate_page.
  erewrite run_bind by by apply (walk_to_pte_run s space root). fold (pte_of s root page).
  erewrite run_bind by apply pte_has_present. rewrite He, bool_decide_true by done.
  rewrite (run_bind _ _ s (Some (pte_of s root page)) s) by done. cbv beta iota.
  erewrite run_bind by apply pte_has_present. rewrite He, bool_decide_true by done. cbn [negb].
  erewrite run_bind by by apply pte_has_leaf. rewrite Hu. cbn [negb].
  destruct w; cbn [negb]; [|done].
  erewrite run_bind by by apply pte_has_leaf. by rewrite Hw.
Qed.

Lemma validate_run s cur space root ptr len w :
  space_root s space root → 0 ≤ ptr → 0 < len → user_range ptr len →
  (∀ va, ptr ≤ va < ptr + len → user_ok s root w va) →
  vmm_validate_user_ptr_ex cur (Some space) ptr len w s = Done (true, s).
Proof.
  intros Hs Hp Hl Hr Hall. pose proof Hr as [Hlo Hhi].
  unfold VMM_USER_BASE, VMM_USER_TOP in *. unfold vmm_validate_user_ptr_ex.
  pose proof (proj2 (range_guard ptr len ltac:(lia) ltac:(lia)) Hr) as Hg. cbv zeta in Hg.
  rewrite !andb_true_iff, !negb_true_iff in Hg. destruct Hg as [[[G1 G2] G3] G4].
  rewrite (proj2 (Z.eqb_neq len 0)), G1, G2, G3, G4 by lia.
  replace ((ptr +! len) -! 1) with (ptr + len - 1)
    by (rewrite (u64_small (ptr + len)), u64_small by lia; lia).
  fold (page_of ptr) (page_of (ptr + len - 1)). rewrite !page_of_eq by lia.
  match goal with |- context [for_until ?n ?i _ _] => set (cnt := n); set (base := i) end.
  assert (Hloop : for_until cnt base VMM_PAGE_SIZE (validate_page cur space w) s
    = Done (None, s)).
  { apply wp_eq. apply (wp_for_until (λ _ t, t = s)); [done| |by intros t ->].
    intros k t Hk ->. eapply wp_of_run; [apply (validate_page_run s cur space root w); [done|]|done].
    set (pg := base + k * VMM_PAGE_SIZE).
    assert (Hpg : pg = (ptr / 4096 + k) * 4096) by (unfold pg, base, VMM_PAGE_SIZE; lia).
    assert (Hin : ∃ va, ptr ≤ va < ptr + len ∧ va / 4096 = ptr / 4096 + k).
    { unfold cnt, VMM_PAGE_SIZE in Hk. rewrite <-Z.mul_sub_distr_r, Z.div_mul in Hk by done.
      pose proof (Z.div_mod ptr 4096 ltac:(lia)). pose proof (Z.mod_pos_bound ptr 4096 ltac:(lia)).
      pose proof (Z.mul_div_le (ptr + len - 1) 4096 ltac:(lia)).
      destruct (decide (k = 0)) as [->|]; [exists ptr; lia|].
      exists ((ptr / 4096 + k) * 4096). rewrite Z.div_mul by done. lia. }
    destruct Hin as (va&Hva&Hd). apply (user_ok_page _ _ _ va); [|by apply Hall].
    rewrite Hpg, <-Hd, <-page_of_eq by lia. symmetry. apply page_of_path. }
  by rewrite (run_bind _ _ s None s Hloop).
Qed.
End user.
