(* ===== verification/VmmCopy.v ===== *)
(** * Copies between kernel buffers and user memory. *)

From S2P Require Import Prelude Bits Ram Frames Vmm PageTable VmmSpec VmmUser.

(** The bytes a user-space program would read at [va], [va + 1], ... *)
Definition user_bytes (r : ram) (root va n : Z) : list Z :=
  (λ i, default 0 (rd8 r <$> translate r root (va + i))) <$> seqZ 0 n.

Lemma user_bytes_app r root va n m : 0 ≤ n → 0 ≤ m →
  user_bytes r root va (n + m) = user_bytes r root va n ++ user_bytes r root (va + n) m.
Proof.
  intros Hn Hm. unfold user_bytes. rewrite seqZ_app, fmap_app by done. f_equal.
  rewrite (Z.add_comm 0 n). change (n + 0) with (n + 0).
  rewrite <-(fmap_add_seqZ n 0 m), <-list_fmap_compose. apply list_fmap_ext.
  intros ? i _. simpl. by rewrite Z.add_assoc.
Qed.

(** Inside one page the translation is an offset. *)
Lemma translate_offset r root va i :
  0 ≤ va → va + i < 2 ^ 64 → 0 ≤ i → va `mod` 4096 + i < 4096 →
  translate r root (va + i) = (λ p, p + i) <$> translate r root va.
Proof.
  intros H0 H1 Hi Hm. unfold translate.
  pose proof (Z.mod_pos_bound va 4096 ltac:(lia)).
  assert (Hd : (va + i) / 4096 = va / 4096 ∧ (va + i) `mod` 4096 = va `mod` 4096 + i).
  { pose proof (Z.div_mod va 4096 ltac:(lia)).
    replace (va + i) with (va `mod` 4096 + i + va / 4096 * 4096) by lia.
    rewrite Z.div_add, Z.mod_add by done.
    by rewrite Z.div_small, Z.mod_small by lia. }
  destruct Hd as [Hd Hmod]. rewrite (leaf_path r root (va + i) va).
  - destruct (leaf r root va) as [e|]; simpl; [|done]. f_equal. lia.
  - rewrite <-(page_of_path (va + i)), <-(page_of_path va).
    by rewrite !page_of_eq, Hd by lia.
Qed.

Lemma chunk_bounds va n : 0 ≤ va → 0 < n →
  0 < chunk_size va n ≤ n ∧ va `mod` 4096 + chunk_size va n ≤ 4096.
Proof.
  intros Hva Hn. unfold chunk_size, VMM_PAGE_SIZE. rewrite offset_mod.
  pose proof (Z.mod_pos_bound va 4096 ltac:(lia)).
  destruct (Z.ltb_spec n (4096 - va `mod` 4096)); lia.
Qed.

Lemma user_bytes_chunk r root va n p :
  0 ≤ va → va + n < 2 ^ 64 → va `mod` 4096 + n ≤ 4096 →
  translate r root va = Some p → user_bytes r root va n = rd_bytes r p n.
Proof.
  intros H0 H1 Hm Ht. unfold user_bytes, rd_bytes. apply list_fmap_ext.
  intros ? i Hi%list_elem_of_lookup_2%elem_of_seqZ.
  rewrite translate_offset by lia. by rewrite Ht.
Qed.

Section copy.
Context {S : Type} `{FrameAllocLaws S}.
Implicit Types s : vmm S.

Definition mapped s (root va n : Z) : Prop :=
  ∀ i, va ≤ i < va + n → is_Some (leaf (ram_of s) root i).

Lemma mapped_translate s root va n : 0 < n → mapped s root va n →
  ∃ p, translate (ram_of s) root va = Some p.
Proof.
  intros Hn Hm. destruct (Hm va) as [e He]; [lia|]. unfold translate. rewrite He. by eexists.
Qed.

Lemma copy_in_run s space root : space_root s space root →
  ∀ fuel src n dst, 0 ≤ src → src + n < 2 ^ 64 → n ≤ Z.of_nat fuel → 0 ≤ n →
  mapped s root src n →
  copy_in fuel (Some space) src n dst s =
    Done (Some (dst ++ user_bytes (ram_of s) root src n), s).
Proof.
  intros Hs. induction fuel as [|fuel IH]; intros src n dst Hsrc Hlim Hn Hn0 Hm; simpl.
  { replace n with 0 by lia. simpl. unfold user_bytes. simpl. by rewrite app_nil_r. }
  destruct (Z.leb_spec n 0).
  { replace n with 0 by lia. unfold user_bytes. simpl. by rewrite app_nil_r. }
  destruct (mapped_translate s root src n) as [p Hp]; [lia|done|].
  erewrite run_bind by by apply (VmmMap.vmm_virt_to_phys_run s space root).
  rewrite Hp. destruct (chunk_bounds src n) as [Hc Hpage]; [lia..|].
  set (c := chunk_size src n) in *.
  erewrite run_bind by done. rewrite u64_small by lia.
  rewrite IH; [|lia|lia|lia|lia|intros i Hi; apply Hm; lia].
  rewrite <-app_assoc. do 4 f_equal.
  replace n with (c + (n - c)) at 2 by lia. rewrite user_bytes_app by lia. f_equal.
  symmetry. apply user_bytes_chunk; [lia|lia|lia|done].
Qed.

(** ** Writing *)

(** The user frame that holds the byte at [va]. *)
Definition frame_of s (root va : Z) : option Z := entry_phys <$> leaf (ram_of s) root va.

(** Byte writes into user frames: tables and other frames are untouched. *)
Record user_write (space : address_space) (root va n : Z) s s' : Prop := {
  uw_space : user_space s' space root;
  uw_leaf : ∀ vb, leaf (ram_of s') root vb = leaf (ram_of s) root vb;
  uw_alloc : alloc_same s s';
  uw_frames : ∀ q j, page_ok q → idx_ok j →
    (∀ i, va ≤ i < va + n → frame_of s root i ≠ Some q) →
    pt_entry (ram_of s') q j = pt_entry (ram_of s) q j;
  uw_bytes : ∀ p, (∀ i, va ≤ i < va + n → translate (ram_of s) root i ≠ Some p) →
    rd8 (ram_of s') p = rd8 (ram_of s) p;
}.

Lemma user_write_refl space root va s :
  user_space s space root → user_write space root va 0 s s.
Proof. intros Hus. split; try done. apply alloc_same_refl, Hus. Qed.

Lemma frame_of_step space root va n s s' i :
  user_write space root va n s s' → frame_of s' root i = frame_of s root i.
Proof. intros Hw. unfold frame_of. by rewrite (uw_leaf _ _ _ _ _ _ Hw). Qed.

Lemma translate_step space root va n s s' i :
  user_write space root va n s s' →
  translate (ram_of s') root i = translate (ram_of s) root i.
Proof. intros Hw. unfold translate. by rewrite (uw_leaf _ _ _ _ _ _ Hw). Qed.

Lemma user_write_trans space root va n m s s' s'' :
  0 ≤ n → 0 ≤ m →
  user_write space root va n s s' → user_write space root (va + n) m s' s'' →
  user_write space root va (n + m) s s''.
Proof.
  intros Hn Hm H1 H2. split.
  - apply H2.
  - intros vb. by rewrite (uw_leaf _ _ _ _ _ _ H2), (uw_leaf _ _ _ _ _ _ H1).
  - eapply alloc_same_trans; [apply H1|apply H2].
  - intros q j Hq Hj Hi. rewrite (uw_frames _ _ _ _ _ _ H2), (uw_frames _ _ _ _ _ _ H1);
      try done; intros i Hr; rewrite ?(frame_of_step _ _ _ _ _ _ _ H1); apply Hi; lia.
  - intros p Hi. rewrite (uw_bytes _ _ _ _ _ _ H2), (uw_bytes _ _ _ _ _ _ H1);
      try done; intros i Hr; rewrite ?(translate_step _ _ _ _ _ _ _ H1); apply Hi; lia.
Qed.

(** One chunk, inside the page that contains [va]. *)
Lemma user_write_chunk s space root va e (bs : list Z) :
  user_space s space root → 0 ≤ va → va + Z.of_nat (length bs) < 2 ^ 64 →
  leaf (ram_of s) root va = Some e → has e VMM_USER = true → (0 < length bs)%nat →
  va `mod` 4096 + Z.of_nat (length bs) ≤ 4096 →
  let p := entry_phys e + va `mod` 4096 in
  user_write space root va (Z.of_nat (length bs)) s (ram_upd (wr_bytes p bs) s).
Proof.
  intros Hus Hva Hlim He Hu Hlen Hpage p. destruct (us_data _ _ _ Hus va e He Hu) as (Ho&Href&Hnsp).
  set (s' := ram_upd _ s). pose proof (Z.mod_pos_bound va 4096 ltac:(lia)).
  assert (Hram : ram_of s' = wr_bytes p bs (ram_of s)) by apply ram_of_upd.
  assert (Has : alloc_same s s') by apply alloc_same_upd, Hus.
  assert (Hent : ∀ q j, page_ok q → idx_ok j → q ≠ entry_phys e →
    pt_entry (ram_of s') q j = pt_entry (ram_of s) q j).
  { intros q j Hq Hj Hne. rewrite Hram. unfold pt_entry, p.
    apply rd64_wr_bytes_page; [apply entry_phys_ok|done|done|lia|unfold PAGE_SIZE; lia|done]. }
  assert (Hmono : ∀ q, fa_used (frames s) q → fa_used (frames s') q)
    by (intros q; apply (as_used _ _ Has)).
  assert (Hsame : tables_same s s' root).
  { intros t j (pt&Hpt&Ht) Hj. apply Hent; [by eapply (table_at_frame _ root); [apply Hus|]|done|].
    intros ->. destruct Ho as (_&_&Hno). by apply (Hno pt). }
  assert (Hleaf : ∀ vb, leaf (ram_of s') root vb = leaf (ram_of s) root vb)
    by (intros vb; by apply leaf_same).
  assert (Hmod : ∀ i, 0 ≤ i < Z.of_nat (length bs) →
    translate (ram_of s) root (va + i) = Some (p + i)).
  { intros i Hi. rewrite translate_offset by lia. unfold translate. rewrite He. done. }
  split; [split|done|done|..].
  - apply Has.
  - eapply space_ok_same; [done|done|apply Hus].
  - destruct space as [|sp]; [apply (eq_trans (proj1 (as_rest _ _ Has))), (us_root _ _ _ Hus)|].
    destruct (us_root _ _ _ Hus) as [Hp Hso]. split; [|by eapply other_frame_same].
    rewrite <-Hp, <-!rd64_entry0. apply Hent; [apply Hso|unfold idx_ok; lia|congruence].
  - intros vb e' He' Hu'. rewrite Hleaf in He'.
    destruct (us_data _ _ _ Hus vb e' He' Hu') as (Ho'&?&?).
    split; [by eapply other_frame_same|]. by rewrite (as_refs _ _ Has).
  - intros q j Hq Hj Hi. apply Hent; [done|done|]. intros ->. apply (Hi va); [lia|].
    unfold frame_of. by rewrite He.
  - intros x Hx. rewrite Hram, rd8_wr_bytes, decide_False; [done|].
    intros Hr. apply (Hx (va + (x - p))); [lia|]. rewrite Hmod by lia. f_equal. lia.
Qed.

(** The bytes of a chunk are where the translation says. *)
Lemma chunk_bytes s root va p (bs : list Z) i :
  0 ≤ va → va + Z.of_nat (length bs) < 2 ^ 64 →
  translate (ram_of s) root va = Some p → Forall (λ b, 0 ≤ b < 256) bs →
  va `mod` 4096 + Z.of_nat (length bs) ≤ 4096 → 0 ≤ i < Z.of_nat (length bs) →
  ∃ x, translate (ram_of s) root (va + i) = Some x ∧
    rd8 (ram_of (ram_upd (wr_bytes p bs) s)) x = bs !!! Z.to_nat i.
Proof.
  intros Hva Hlim Ht Hb Hpage Hi. exists (p + i). rewrite translate_offset by lia.
  rewrite Ht. split; [done|]. rewrite ram_of_upd, rd8_wr_bytes, decide_True by lia.
  replace (p + i - p) with i by lia. apply u8_small.
  rewrite Forall_lookup_total in Hb. apply Hb. lia.
Qed.

Definition user_mapped s (root : Z) (w : bool) (va n : Z) : Prop :=
  ∀ i, va ≤ i < va + n → user_ok s root w i.

(** No two addresses of the range share a byte of memory. *)
Definition no_alias s (root va n : Z) : Prop :=
  ∀ i j p, va ≤ i < va + n → va ≤ j < va + n →
    translate (ram_of s) root i = Some p → translate (ram_of s) root j = Some p → i = j.

Lemma user_ok_uw space root va n s s' w i :
  user_write space root va n s s' → user_ok s root w i → user_ok s' root w i.
Proof. intros Hw (e&He&?). exists e. by rewrite (uw_leaf _ _ _ _ _ _ Hw). Qed.

(** Later chunks do not overwrite earlier ones. *)
Lemma copied_chunk space root va n m s p (bs : list Z) s' :
  0 ≤ va → 0 ≤ m → va + n + m < 2 ^ 64 →
  translate (ram_of s) root va = Some p → Forall (λ b, 0 ≤ b < 256) bs →
  Z.of_nat (length bs) = n → va `mod` 4096 + n ≤ 4096 →
  no_alias s root va (n + m) →
  user_write space root va n s (ram_upd (wr_bytes p bs) s) →
  user_write space root (va + n) m (ram_upd (wr_bytes p bs) s) s' →
  user_bytes (ram_of s') root va n = bs.
Proof.
  intros Hva Hm Hlim Ht Hb Hn Hpage Hna Hw Hw'. apply list_eq_same_length with (n := length bs).
  - done.
  - unfold user_bytes. rewrite length_fmap, length_seqZ. lia.
  - intros k b b' Hk Hlb Hlb'. unfold user_bytes in Hlb.
    rewrite list_lookup_fmap, lookup_seqZ_lt in Hlb by lia. simpl in Hlb.
    destruct (chunk_bytes s root va p bs (Z.of_nat k)) as (x&Hx&Hv); [lia..|done|done|lia|lia|].
    rewrite (translate_step _ _ _ _ _ _ _ Hw'), (translate_step _ _ _ _ _ _ _ Hw) in Hlb.
    replace (va + (0 + Z.of_nat k)) with (va + Z.of_nat k) in Hlb by lia.
    rewrite Hx in Hlb. simpl in Hlb. injection Hlb as <-.
    rewrite (uw_bytes _ _ _ _ _ _ Hw'), Hv.
    + rewrite Nat2Z.id. by apply list_lookup_total_correct.
    + intros i Hi. rewrite (translate_step _ _ _ _ _ _ _ Hw). intros Hi'.
      enough (va + Z.of_nat k = i) by lia. apply (Hna _ _ x); [lia|lia|done|done].
Qed.

Lemma wp_copy_out space root w : ∀ fuel dst src s,
  user_space s space root → 0 ≤ dst → dst + Z.of_nat (length src) < 2 ^ 64 →
  (length src ≤ fuel)%nat → Forall (λ b, 0 ≤ b < 256) src →
  user_mapped s root w dst (Z.of_nat (length src)) →
  wp (copy_out fuel (Some space) dst src) (λ rc s',
    rc = 0 ∧ user_write space root dst (Z.of_nat (length src)) s s' ∧
    (no_alias s root dst (Z.of_nat (length src)) →
       user_bytes (ram_of s') root dst (Z.of_nat (length src)) = src)) s.
Proof.
  induction fuel as [|fuel IH]; intros dst src s Hus Hdst Hlim Hfuel Hb Hm; simpl.
  { destruct src; simpl in *; [|lia]. apply wp_ret. split; [done|].
    split; [by apply user_write_refl|done]. }
  destruct (Z.leb_spec (Z.of_nat (length src)) 0).
  { destruct src; simpl in *; [|lia]. apply wp_ret. split; [done|].
    split; [by apply user_write_refl|done]. }
  destruct (Hm dst) as (e&He&Hu&_); [lia|].
  set (p := entry_phys e + dst `mod` 4096).
  assert (Ht : translate (ram_of s) root dst = Some p) by (unfold translate; by rewrite He).
  apply wp_bind. eapply wp_of_run; [apply (VmmMap.vmm_virt_to_phys_run s space root), Hus|].
  rewrite Ht. destruct (chunk_bounds dst (Z.of_nat (length src))) as [Hc Hpage]; [lia..|].
  set (c := chunk_size dst (Z.of_nat (length src))) in *.
  set (now := take (Z.to_nat c) src). set (rest := drop (Z.to_nat c) src).
  assert (Hnow : Z.of_nat (length now) = c) by (unfold now; rewrite length_take; lia).
  assert (Hrest : Z.of_nat (length rest) = Z.of_nat (length src) - c)
    by (unfold rest; rewrite length_drop; lia).
  assert (Hsplit : src = now ++ rest) by (unfold now, rest; by rewrite take_drop).
  apply wp_bind, wp_upd_ram. rewrite u64_small by lia.
  assert (Hw : user_write space root dst c s (ram_upd (wr_bytes p now) s)).
  { rewrite <-Hnow. apply user_write_chunk; [done|lia|lia|done|done|lia|lia]. }
  eapply wp_mono.
  { apply IH; [apply Hw|lia|lia|unfold rest; rewrite length_drop; lia| |].
    - by apply Forall_drop.
    - intros i Hi. eapply user_ok_uw; [done|]. apply Hm. lia. }
  intros rc s' (->&Hw'&Hbytes). split; [done|]. rewrite Hrest in *.
  split; [replace (Z.of_nat (length src)) with (c + (Z.of_nat (length src) - c)) at 1 by lia;
    eapply user_write_trans; [lia|lia|done|done]|].
  intros Hna. rewrite Hsplit at 2.
  replace (Z.of_nat (length src)) with (c + (Z.of_nat (length src) - c)) in Hna |- * by lia.
  rewrite user_bytes_app by lia. f_equal.
  - apply (copied_chunk space root dst c (Z.of_nat (length src) - c) s p now);
      [lia|lia|lia|done|by apply Forall_take|done|lia|done|done|done].
  - apply Hbytes. intros i j x Hi Hj. rewrite !(translate_step _ _ _ _ _ _ _ Hw).
    apply Hna; lia.
Qed.
End copy.
