(* ===== verification/Uaccess.v ===== *)
(** * User-memory access helpers (src/kernel/mm/uaccess.c). *)

From S2P Require Import Prelude Bits Ram Frames Vmm PageTable VmmSpec VmmUser VmmCopy.

Definition uaccess_ok (ptr len : Z) : bool :=
  if ptr =? 0 then false else
  if len =? 0 then true else
  let start := ptr in
  (* __builtin_add_overflow(start, len - 1, &end) *)
  if 2 ^ 64 <=? start + (len - 1) then false else
  let end_ := start + (len - 1) in
  if negb (vmm_is_user_address start) then false else
  if negb (vmm_is_user_address end_) then false else
  true.

(** [current_task->process->address_space], or the kernel's. *)
Definition current_space (cur : option cur_process) : address_space :=
  match cur with
  | Some proc => default KernelSpace (cp_space proc)
  | None => KernelSpace
  end.

Section uaccess.
Context {S : Type} `{FrameAlloc S}.
Abbreviation M := (prog (vmm S)).

Definition copy_from_user (cur : option cur_process) (kdst : bool) (usrc len : Z)
    : M (option (list Z)) :=
  if negb kdst then mret None else
  if len =? 0 then mret (Some []) else
  if negb (uaccess_ok usrc len) then mret None else
  vmm_copy_from_user cur kdst (Some (current_space cur)) usrc len.

(** [ksrc] is the source buffer, [None] a null pointer. *)
Definition copy_to_user (cur : option cur_process) (udst : Z)
    (ksrc : option (list Z)) : M Z :=
  match ksrc with
  | None => mret (-1)
  | Some [] => mret 0
  | Some src =>
      if negb (uaccess_ok udst (Z.of_nat (length src))) then mret (-1) else
      vmm_copy_to_user cur (Some (current_space cur)) udst (Some src)
  end.

(** The loop of [copy_string_from_user]: [n] bytes are left in the buffer,
    [acc] holds those already copied.  The result is the return value and
    the contents of the buffer. *)
Fixpoint copy_string_loop (cur : option cur_process) (n : nat) (usrc : Z)
    (acc : list Z) : M (Z * list Z) :=
  match n with
  | O => mret (-1, removelast acc ++ [0])
  | Datatypes.S n =>
      if negb (uaccess_ok usrc 1) then mret (-1, acc) else
      r ← vmm_copy_from_user cur true (Some (current_space cur)) usrc 1;
      match r with
      | Some [c] =>
          if c =? 0 then mret (0, acc ++ [c])
          else copy_string_loop cur n (usrc +! 1) (acc ++ [c])
      | _ => mret (-1, acc)
      end
  end.

Definition copy_string_from_user (cur : option cur_process) (kdst : bool)
    (usrc max_len : Z) : M (Z * list Z) :=
  if negb kdst || (usrc =? 0) || (max_len =? 0) then mret (-1, []) else
  copy_string_loop cur (Z.to_nat max_len) usrc [].
End uaccess.

(** [uaccess_ok] accepts exactly the non-null ranges that do not wrap and end
    below the kernel half. *)
Lemma uaccess_ok_iff ptr len : 0 ≤ ptr < 2 ^ 64 → 0 ≤ len < 2 ^ 64 →
  uaccess_ok ptr len = true ↔
  ptr ≠ 0 ∧ (len = 0 ∨ ptr + len ≤ VMM_KERNEL_BASE).
Proof.
  intros Hp Hl. unfold uaccess_ok, vmm_is_user_address, VMM_KERNEL_BASE.
  destruct (Z.eqb_spec ptr 0), (Z.eqb_spec len 0), (Z.leb_spec (2 ^ 64) (ptr + (len - 1))),
    (Z.ltb_spec ptr 0xffff800000000000),
    (Z.ltb_spec (ptr + (len - 1)) 0xffff800000000000); simpl; split; try done; try lia.
Qed.

Section uaccess_spec.
Context {S : Type} `{FrameAllocLaws S}.
Implicit Types s : vmm S.

(** ** The two copies *)

Definition copied_in s' root src len (r : option (list Z)) : Prop :=
  ∀ bytes, r = Some bytes → len ≠ 0 →
    user_range src len ∧ user_mapped s' root false src len ∧
    bytes = user_bytes (ram_of s') root src len.

Lemma user_mapped_mapped s root w va n : user_mapped s root w va n → mapped s root va n.
Proof. intros Hm i Hi. destruct (Hm i Hi) as (e&He&_). by exists e. Qed.

Lemma wp_vmm_copy_from_user s cur kdst space root src len :
  user_space s space root → vmas_user cur → 0 ≤ src < 2 ^ 64 → 0 ≤ len < 2 ^ 64 →
  wp (vmm_copy_from_user cur kdst (Some space) src len) (λ r s',
    validated space root s s' ∧ copied_in s' root src len r) s.
Proof.
  intros Hus Hvm Hsrc Hlen. unfold vmm_copy_from_user.
  pose proof (validated_refl _ _ _ Hus) as Hv0.
  destruct (Z.eqb_spec len 0) as [->|Hl0]; [apply wp_ret; split; [done|]; by intros ? _ ?|].
  destruct kdst; cbn [negb]; [|by apply wp_ret].
  apply wp_bind. eapply wp_mono; [by apply (wp_validate s cur space root)|].
  intros [] s' [Hv Hok]; cbn [negb]; [|by apply wp_ret].
  destruct (Hok eq_refl) as [|[Hr Hm]]; [done|]. pose proof Hr as [Hlo Hhi].
  unfold VMM_USER_BASE, VMM_USER_TOP in *.
  eapply wp_of_run.
  { apply (copy_in_run s' space root); [apply Hv|lia|lia|lia|lia|].
    by eapply user_mapped_mapped. }
  simpl. split; [done|]. intros bytes [= <-] _. done.
Qed.

Lemma wp_vmm_copy_to_user s cur space root dst src :
  user_space s space root → vmas_user cur → 0 ≤ dst < 2 ^ 64 →
  Z.of_nat (length src) < 2 ^ 64 → Forall (λ b, 0 ≤ b < 256) src →
  wp (vmm_copy_to_user cur (Some space) dst (Some src)) (λ rc s',
    (rc = -1 ∧ validated space root s s') ∨
    (rc = 0 ∧ (src = [] ∧ s' = s ∨ ∃ s1, validated space root s s1 ∧
       user_range dst (Z.of_nat (length src)) ∧
       user_mapped s1 root true dst (Z.of_nat (length src)) ∧
       user_write space root dst (Z.of_nat (length src)) s1 s' ∧
       (no_alias s1 root dst (Z.of_nat (length src)) →
          user_bytes (ram_of s') root dst (Z.of_nat (length src)) = src)))) s.
Proof.
  intros Hus Hvm Hdst Hlen Hb. unfold vmm_copy_to_user.
  destruct src as [|b src']; [apply wp_ret; right; auto|].
  set (src := b :: src') in *. assert (Hne : length src ≠ 0%nat) by done.
  apply wp_bind. eapply wp_mono; [apply (wp_validate s cur space root); try done; lia|].
  intros [] s1 [Hv Hok]; cbn [negb]; [|apply wp_ret; by left].
  destruct (Hok eq_refl) as [|[Hr Hm]]; [lia|]. pose proof Hr as [Hlo Hhi].
  unfold VMM_USER_BASE, VMM_USER_TOP in *.
  eapply wp_mono; [apply (wp_copy_out space root true); try done; [apply Hv|lia|lia]|].
  intros rc s' (->&Hw&Hby). right. split; [done|]. right. by exists s1.
Qed.

Lemma vmm_copy_from_user_run s cur space root src len :
  space_root s space root → 0 ≤ src → 0 < len → user_range src len →
  user_mapped s root false src len →
  vmm_copy_from_user cur true (Some space) src len s =
    Done (Some (user_bytes (ram_of s) root src len), s).
Proof.
  intros Hs Hp Hl Hr Hm. unfold vmm_copy_from_user.
  rewrite (proj2 (Z.eqb_neq len 0)) by lia. cbn [negb].
  erewrite run_bind by by apply (validate_run s cur space root). cbn [negb].
  pose proof Hr as [Hlo Hhi]. unfold VMM_USER_BASE, VMM_USER_TOP in *.
  rewrite (copy_in_run s space root) by (done || lia || by eapply user_mapped_mapped). done.
Qed.
End uaccess_spec.
