(* ===== verification/VmmProps.v ===== *)
(** * Properties of the page tables and of user-memory access. *)

From S2P Require Import Prelude Bits Ram Pmm PmmSpec PmmInit PmmProps Frames Vmm.
From S2P Require Import PageTable VmmSpec VmmMap VmmSpace VmmCow VmmUser VmmCopy Uaccess.

(** ** A machine with one user address space *)

#[local] Instance demo_frames : FrameAlloc pmm := pmm_frames demo_boot.
#[local] Instance demo_laws : FrameAllocLaws pmm :=
  pmm_frames_laws demo_boot 0xffff800000000000 eq_refl.

(** The frame allocated first, at 20480, is the kernel's PML4. *)
Definition demo_vmm : vmm pmm := Vmm demo1 20480 1 [].

Lemma empty_root_tables (s : vmm pmm) root :
  (∀ j, idx_ok j → pt_entry (ram_of s) root j = 0) → frame_ok root →
  fa_used (frames s) root → space_ok s root ∧ ∀ va, leaf (ram_of s) root va = None.
Proof.
  intros Hz Hr Hu.
  assert (Hc : ∀ j, idx_ok j → pt_child (ram_of s) root j = None).
  { intros j Hj. unfold pt_child. by rewrite Hz. }
  assert (Ht : ∀ p t, path_ok p → table_at (ram_of s) root p = Some t → p = [] ∧ t = root).
  { intros [|i p] t Hp; [by intros [= ->]|]. destruct (path_ok_at [] i p Hp) as [_ Hi].
    cbn [table_at]. by rewrite Hc. }
  split; [split|].
  - done.
  - intros p q t Hp Hq [-> _]%Ht [-> _]%Ht; done.
  - intros p t Hp [_ ->]%Ht; done.
  - intros va. unfold leaf, walk_path. cbn [table_at]. by rewrite Hc by apply index_ok.
Qed.

Lemma demo_vmm_ok : space_ok demo_vmm 20480 ∧ ∀ va, leaf (ram_of demo_vmm) 20480 va = None.
Proof.
  apply empty_root_tables.
  - intros j Hj. unfold pt_entry, ram_of, demo_vmm. cbn [frames]. rewrite demo1_eq.
    change (rd64 (zero_page 20480 (phys_ram demo)) (20480 + 8 * j) = 0).
    by apply rd64_zero_page_in.
  - split; [reflexivity|lia].
  - split; [reflexivity|]. split; [split; vm_compute; congruence|].
    split; vm_compute; reflexivity.
Qed.

Lemma demo_vmm_inv : fa_inv (frames demo_vmm).
Proof. exists 4. exact demo1_inv. Qed.

Definition state_of {S A} (m : prog S A) (s : S) : S :=
  match m s with Done (_, t) => t | Stop _ => s end.
Definition value_of {S A} (m : prog S A) (s : S) : option A :=
  match m s with Done (a, _) => Some a | Stop _ => None end.

Lemma wp_state_value {S A} (m : prog S A) Q s a :
  wp m Q s → value_of m s = Some a → Q a (state_of m s).
Proof.
  unfold wp, value_of, state_of. destruct (m s) as [[x t]|]; [|done]. by intros ? [= <-].
Qed.

(** A fresh user space, then one page mapped at [0x400000]. *)
Definition demo_space : vmm pmm := state_of vmm_create_address_space demo_vmm.
Definition demo_sp : address_space := SpaceAt 28672.
Definition demo_root : Z := 24576.

Lemma demo_space_ok : created_post demo_vmm (Some demo_sp) demo_space ∧
  fa_inv (frames demo_space).
Proof.
  destruct demo_vmm_ok as [Hok _].
  destruct (wp_state_value vmm_create_address_space _ demo_vmm (Some demo_sp)
    (wp_vmm_create_address_space demo_vmm demo_vmm_inv Hok)) as [Hi Hc].
  - vm_compute. reflexivity.
  - split; [exact Hc|exact Hi].
Qed.

Lemma demo_space_user : user_space demo_space demo_sp demo_root ∧
  ∀ va, leaf (ram_of demo_space) demo_root va = None.
Proof.
  destruct demo_space_ok as [(np&[Hr Hok _ _ _ _ _ _ _ Hl _]) Hi].
  assert (np = demo_root) as ->.
  { destruct Hr as [<- _]. vm_compute. reflexivity. }
  destruct demo_vmm_ok as [_ Hk].
  assert (Hnone : ∀ va, leaf (ram_of demo_space) demo_root va = None).
  { intros va. rewrite Hl. destruct (decide _); [done|apply Hk]. }
  split; [|done]. split; [done|done|done|]. intros va e. by rewrite Hnone.
Qed.

(** A process with two writable pages at [0x400000]; validating a buffer that
    crosses the page boundary maps both. *)
Definition demo_cur : option cur_process :=
  Some (CurProcess (Some demo_sp) [Vma 0x400000 0x402000 3 0x22 true true 0 0 7 true]).
Definition demo_user : vmm pmm :=
  state_of (vmm_validate_user_ptr_ex demo_cur (Some demo_sp) 0x400ff0 32 true) demo_space.

Lemma demo_cur_user : vmas_user demo_cur.
Proof.
  intros proc v [= <-] Hv. apply list_elem_of_singleton in Hv as ->. split; reflexivity.
Qed.

Lemma demo_user_ok : user_space demo_user demo_sp demo_root ∧
  user_mapped demo_user demo_root true 0x400ff0 32.
Proof.
  destruct demo_space_user as [Hus _].
  destruct (wp_state_value _ _ demo_space true
    (wp_validate demo_space demo_cur demo_sp demo_root 0x400ff0 32 true Hus demo_cur_user
       ltac:(lia) ltac:(lia))) as [Hv Hok].
  - vm_compute. reflexivity.
  - split; [apply Hv|]. destruct (Hok eq_refl) as [|[_ Hm]]; [done|exact Hm].
Qed.



(** Neither the kernel's PML4 nor the new one has an entry yet. *)
Definition zero_table (s : vmm pmm) (root : Z) : bool :=
  forallb (λ j, pt_entry (ram_of s) root j =? 0) (seqZ 0 512).

Lemma zero_table_entries s root : zero_table s root = true →
  ∀ p t, path_ok p → table_at (ram_of s) root p = Some t → p = [] ∧ t = root.
Proof.
  intros Hz [|i p] t Hp; [by intros [= ->]|]. destruct (path_ok_at [] i p Hp) as [_ Hi].
  cbn [table_at]. unfold zero_table in Hz. rewrite forallb_forall in Hz.
  unfold pt_child. rewrite (proj1 (Z.eqb_eq _ _) (Hz i ltac:(apply list_elem_of_In, elem_of_seqZ;
    unfold idx_ok in Hi; lia))). done.
Qed.

Lemma demo_kernel_other p t : path_ok p →
  table_at (ram_of demo_space) 20480 p = Some t →
  256 ≤ hd 0 p ∨ other_frame demo_space demo_root t.
Proof.
  intros Hp Ht. right.
  destruct (zero_table_entries demo_space 20480 ltac:(vm_compute; reflexivity) p t Hp Ht) as [_ ->].
  split; [|split; [reflexivity|]].
  - split; [reflexivity|]. split; [split; vm_compute; congruence|].
    split; vm_compute; reflexivity.
  - intros q Hq Hqt. destruct (zero_table_entries demo_space demo_root
      ltac:(vm_compute; reflexivity) q 20480 Hq Hqt) as [_ ?]. discriminate.
Qed.

#[local] Opaque demo_vmm demo_space demo_user.

Section props.
Context {S : Type} `{FrameAllocLaws S}.
Implicit Types s : vmm S.

(** ** Mapping *)

(** C8. [vmm_map] refines the update of a partial map from pages to entries:
    on aligned arguments with the present bit it always returns; a page that
    is already mapped is refused; otherwise exactly that page gets the new
    entry and its TLB entry is flushed, or, only when fewer than three frames
    are left, [-1] is returned and no translation changes.  In every case the
    tables stay a tree of frames in use, reference counts do not change and
    no frame outside the tables is written. *)
Theorem vmm_map_correct s space root virt phys flags :
  fa_inv (frames s) → space_ok s root → space_root s space root →
  page_ok virt → frame_ok phys → has flags VMM_PRESENT = true →
  ∃ rc s', vmm_map (Some space) virt phys flags s = Done (rc, s') ∧
    fa_inv (frames s') ∧ space_ok s' root ∧ space_root s' space root ∧
    (∀ q, fa_used (frames s) q →
       fa_used (frames s') q ∧ fa_refs (frames s') q = fa_refs (frames s) q) ∧
    (∀ q j, other_frame s root q → idx_ok j →
       pt_entry (ram_of s') q j = pt_entry (ram_of s) q j) ∧
    match leaf (ram_of s) root virt with
    | Some _ => rc = -1 ∧ ∀ va, leaf (ram_of s') root va = leaf (ram_of s) root va
    | None =>
        (rc = 0 ∧ tlb_log s' = tlb_log s ++ [Invlpg virt] ∧
         ∀ va, leaf (ram_of s') root va =
           if decide (va_path virt = va_path va) then Some (make_entry phys flags)
           else leaf (ram_of s) root va) ∨
        (rc = -1 ∧ fa_avail (frames s) ≤ 2 ∧
         ∀ va, leaf (ram_of s') root va = leaf (ram_of s) root va)
    end.
Proof.
  intros Hi Hok Hs Hv Hp Hf.
  destruct (proj1 (wp_run _ _ _) (wp_vmm_map s space root virt phys flags Hi Hok Hs Hv Hp Hf))
    as (rc&s'&Hrun&[]&Hpost).
  exists rc, s'. split_and!; auto. intros q j Hq Hj. by apply kp_other.
Qed.

(** Map, translate, unmap: after a successful [vmm_map] of an unmapped
    page, [vmm_virt_to_phys] translates every address of the page to the
    frame plus the page offset; [vmm_unmap] then succeeds, flushes the TLB
    entry and restores every translation of the space. *)
Theorem vmm_map_translate_unmap s space root virt phys flags s1 :
  fa_inv (frames s) → space_ok s root → space_root s space root →
  page_ok virt → frame_ok phys → has flags VMM_PRESENT = true →
  leaf (ram_of s) root virt = None →
  vmm_map (Some space) virt phys flags s = Done (0, s1) →
  (∀ va, va_path va = va_path virt →
     vmm_virt_to_phys (Some space) va s1 = Done (Some (phys + va `mod` 4096), s1)) ∧
  ∃ s2, vmm_unmap (Some space) virt s1 = Done (0, s2) ∧
    vmm_virt_to_phys (Some space) virt s2 = Done (None, s2) ∧
    (∀ va, translate (ram_of s2) root va = translate (ram_of s) root va) ∧
    Invlpg virt ∈ tlb_log s2.
Proof.
  intros Hi Hok Hs Hv Hp Hf Hn Hrun.
  pose proof (wp_vmm_map s space root virt phys flags Hi Hok Hs Hv Hp Hf) as Hw.
  unfold wp in Hw. rewrite Hrun in Hw. destruct Hw as [Hk Hpost]. rewrite Hn in Hpost.
  destruct Hpost as [(_&_&Hl)|(?&_&_)]; [|done].
  assert (Hs1 : space_root s1 space root) by by apply (kp_space _ _ _ Hk).
  split.
  { intros va Hva. rewrite (vmm_virt_to_phys_run s1 space root) by done.
    unfold translate. rewrite Hl, decide_True by done. simpl.
    by rewrite entry_phys_make. }
  destruct (proj1 (wp_run _ _ _) (wp_vmm_unmap s1 space root virt (kp_inv _ _ _ Hk)
    (kp_ok _ _ _ Hk) Hs1 Hv)) as (rc&s2&Hrun2&Hpost). unfold rewrite_post in Hpost.
  rewrite Hl, decide_True in Hpost by done. destruct Hpost as (->&Hk2&Hlog&_&Hl2).
  assert (Hback : ∀ va, leaf (ram_of s2) root va = leaf (ram_of s) root va).
  { intros va. rewrite Hl2, Hl. destruct (decide _) as [He|]; [|done].
    change (has 0 VMM_PRESENT) with false. by rewrite <-(leaf_path _ _ _ _ He). }
  exists s2. split; [done|]. split; [|split].
  - rewrite (vmm_virt_to_phys_run s2 space root) by by apply (kp_space _ _ _ Hk2).
    unfold translate. by rewrite Hback, Hn.
  - intros va. unfold translate. by rewrite Hback.
  - rewrite Hlog. apply elem_of_app. right. by left.
Qed.

(** Isolation: [vmm_map] in one address space, whatever it returns, changes
    no translation of the user half of another space whose user tables hold
    none of its tables. *)
Theorem vmm_map_isolated s space root virt phys flags rc s' root' :
  fa_inv (frames s) → space_ok s root → space_root s space root →
  page_ok virt → frame_ok phys → has flags VMM_PRESENT = true →
  (∀ p t, path_ok p → table_at (ram_of s) root' p = Some t →
     256 ≤ hd 0 p ∨ other_frame s root t) →
  vmm_map (Some space) virt phys flags s = Done (rc, s') →
  ∀ va, pml4_index va < 256 →
    translate (ram_of s') root' va = translate (ram_of s) root' va.
Proof.
  intros Hi Hok Hs Hv Hp Hf Hdis Hrun va Hva.
  pose proof (wp_vmm_map s space root virt phys flags Hi Hok Hs Hv Hp Hf) as Hw.
  unfold wp in Hw. rewrite Hrun in Hw. destruct Hw as [Hk _].
  assert (Hent : ∀ p t j, path_ok p → table_at (ram_of s) root' p = Some t →
    hd 0 p < 256 → idx_ok j → pt_entry (ram_of s') t j = pt_entry (ram_of s) t j).
  { intros p t j Hpp Ht Hhd Hj. destruct (Hdis p t Hpp Ht) as [|Ho]; [lia|].
    by apply (kp_other _ _ _ Hk). }
  unfold translate, leaf.
  assert (Htab : table_at (ram_of s') root' (walk_path va)
    = table_at (ram_of s) root' (walk_path va)).
  { pose proof (walk_path_ok va) as Hw. apply table_at_ext; [apply Hw|].
    intros q1 j q2 t Hq Ht. rewrite Hq in Hw. destruct (path_ok_at _ _ _ Hw) as [Hq1 Hj].
    apply (Hent q1); [done|done| |done]. destruct q1 as [|i q1]; [simpl; lia|].
    unfold walk_path in Hq. injection Hq as <- _. done. }
  rewrite Htab. destruct (table_at (ram_of s) root' (walk_path va)) as [t|] eqn:Ht; [|done].
  cbn [mbind option_bind].
  by rewrite (Hent (walk_path va) t) by (done || apply walk_path_ok || apply index_ok).
Qed.

(** [vmm_protect] on a mapped page succeeds, keeps the frame, replaces the
    flags of that page only and flushes its TLB entry; on an unmapped page it
    returns [-1] and changes nothing. *)
Theorem vmm_protect_correct s space root virt flags :
  fa_inv (frames s) → space_ok s root → space_root s space root → page_ok virt →
  has flags VMM_PRESENT = true →
  match leaf (ram_of s) root virt with
  | None => vmm_protect (Some space) virt flags s = Done (-1, s)
  | Some e => ∃ s', vmm_protect (Some space) virt flags s = Done (0, s') ∧
      space_ok s' root ∧ tlb_log s' = tlb_log s ++ [Invlpg virt] ∧
      ∀ va, leaf (ram_of s') root va =
        if decide (va_path virt = va_path va)
        then Some (make_entry (entry_phys e) flags) else leaf (ram_of s) root va
  end.
Proof.
  intros Hi Hok Hs Hv Hf.
  destruct (proj1 (wp_run _ _ _) (wp_vmm_protect s space root virt flags Hi Hok Hs Hv Hf))
    as (rc&s'&Hrun&Hpost). unfold rewrite_post in Hpost.
  destruct (leaf (ram_of s) root virt) as [e|]; [|by destruct Hpost as [-> ->]].
  destruct Hpost as (->&Hk&Hlog&_&Hl). exists s'. split_and!; [done|apply Hk|done|].
  intros va. by rewrite Hl, present_make, Hf by apply entry_phys_ok.
Qed.

(** ** Address spaces *)

(** C33. [vmm_create_address_space] always returns.  On success the new space is
    a well-formed tree of its own whose user half is empty and whose kernel
    half translates as the kernel's does, built from two frames that were free,
    without writing any other frame; on failure it returns null and every frame
    is allocated exactly as before. *)
Theorem vmm_create_address_space_correct s :
  fa_inv (frames s) → space_ok s (kernel_space_pml4 s) →
  ∃ res s', vmm_create_address_space s = Done (res, s') ∧ fa_inv (frames s') ∧
    match res with
    | None => fa_avail (frames s) ≤ 1 ∧
        (∀ q, fa_used (frames s') q ↔ fa_used (frames s) q) ∧
        (∀ q, fa_used (frames s) q → fa_refs (frames s') q = fa_refs (frames s) q)
    | Some space => ∃ root, space_root s' space root ∧ space_ok s' root ∧
        fa_avail (frames s') = fa_avail (frames s) - 2 ∧
        (∀ q j, fa_used (frames s) q → page_ok q → idx_ok j →
           pt_entry (ram_of s') q j = pt_entry (ram_of s) q j) ∧
        (∀ va, translate (ram_of s') root va =
           if decide (pml4_index va < 256) then None
           else translate (ram_of s) (kernel_space_pml4 s) va)
    end.
Proof.
  intros Hi Hok.
  destruct (proj1 (wp_run _ _ _) (wp_vmm_create_address_space s Hi Hok))
    as (res&s'&Hrun&Hi'&Hpost). exists res, s'. split; [done|]. split; [done|].
  destruct res as [[|sp]|]; [done| |by destruct Hpost as (?&_&?&?&_)].
  destruct Hpost as (np&[Hr Hok' Hav _ _ _ Hold _ _ Hl _]). exists np. split_and!; try done.
  intros va. unfold translate. rewrite Hl. unfold user_half.
  by destruct (decide (pml4_index va < 256)).
Qed.

(** ** Copy on write *)

(** C19. [vmm_handle_cow] on a copy-on-write page in use: with one reference the
    frame is made writable in place; with more, and a free frame, the page gets
    a private writable copy with the same 512 words, the old frame loses one
    reference and keeps its contents, and no other page changes; without a free
    frame it returns [-2] and changes nothing.  The resolved entry keeps its
    user bit and is no longer copy-on-write. *)
Theorem vmm_handle_cow_correct s space root va e :
  fa_inv (frames s) → space_ok s root → space_root s space root →
  leaf (ram_of s) root va = Some e → has e VMM_COW = true →
  other_frame s root (entry_phys e) → 1 ≤ fa_refs (frames s) (entry_phys e) →
  let old := entry_phys e in
  ∃ rc s', vmm_handle_cow (Some space) va s = Done (rc, s') ∧
    ((rc = -2 ∧ s' = s ∧ fa_avail (frames s) = 0 ∧ 1 < fa_refs (frames s) old) ∨
     (rc = 0 ∧ space_ok s' root ∧ ∃ f e',
        leaf (ram_of s') root va = Some e' ∧ entry_phys e' = f ∧
        has e' VMM_WRITABLE = true ∧ has e' VMM_COW = false ∧
        has e' VMM_USER = has e VMM_USER ∧
        (∀ vb, va_path va ≠ va_path vb →
           leaf (ram_of s') root vb = leaf (ram_of s) root vb) ∧
        (∀ j, idx_ok j → pt_entry (ram_of s') f j = pt_entry (ram_of s) old j) ∧
        (∀ j, idx_ok j → pt_entry (ram_of s') old j = pt_entry (ram_of s) old j) ∧
        fa_refs (frames s') f = 1 ∧
        (fa_refs (frames s) old = 1 ∧ f = old ∨
         1 < fa_refs (frames s) old ∧ ¬ fa_used (frames s) f ∧
           fa_refs (frames s') old = fa_refs (frames s) old - 1))).
Proof.
  intros Hi Hok Hs He Hc Ho Hr old.
  destruct (proj1 (wp_run _ _ _) (wp_vmm_handle_cow s space root va Hi Hok Hs
    ltac:(intros e' Hl; rewrite He in Hl; injection Hl as <-; apply Ho)))
    as (rc&s'&Hrun&Hpost). exists rc, s'. split; [done|].
  unfold cow_post in Hpost. rewrite He, Hc in Hpost. cbn [negb] in Hpost. fold old in Hpost.
  fold old in Hr.
  destruct (Z.eqb_spec (fa_refs (frames s) old) 1) as [H1|].
  - destruct Hpost as (->&Hk&_&_&Hl). right. split; [done|]. split; [apply Hk|].
    destruct (cow_entry_facts old e (entry_phys_ok e)) as (F1&F2&F3&F4).
    exists old, (make_entry old (cow_flags e)). rewrite Hl, decide_True by done.
    split_and!; try done.
    + intros vb Hne. by rewrite Hl, decide_False.
    + by apply (kp_other _ _ _ Hk).
    + by apply (kp_other _ _ _ Hk).
    + rewrite (kp_refs _ _ _ Hk); [done|apply Ho].
    + by left.
  - destruct (Z.ltb_spec 1 (fa_refs (frames s) old)); [|lia].
    destruct Hpost as [(->&->&Hav)|(->&f&Hcc)]; [by left|right].
    assert (Hfok : frame_ok f).
    { apply (used_frame_ok s'); [apply Hcc|]. apply (cc_used _ _ _ _ _ _ Hcc). by left. }
    destruct (cow_entry_facts f e Hfok) as (F1&F2&F3&F4). split; [done|]. split; [apply Hcc|].
    exists f, (make_entry f (cow_flags e)). rewrite (cc_leaf _ _ _ _ _ _ Hcc), decide_True by done.
    split_and!; try done.
    + intros vb Hne. by rewrite (cc_leaf _ _ _ _ _ _ Hcc), decide_False.
    + apply (cc_copy _ _ _ _ _ _ Hcc).
    + by apply (cc_other _ _ _ _ _ _ Hcc).
    + apply (cc_ref_new _ _ _ _ _ _ Hcc).
    + right. split_and!; [done|apply Hcc|].
      rewrite (cc_refs _ _ _ _ _ _ Hcc), decide_True by (done || apply Ho). done.
Qed.

(** ** User pointers *)




(** ** Out of memory during a copy-on-write fault *)

Lemma cow_oom_run s space root page e :
  user_space s space root → leaf (ram_of s) root page = Some e →
  has e VMM_USER = true → has e VMM_COW = true →
  1 < fa_refs (frames s) (entry_phys e) → fa_avail (frames s) = 0 →
  vmm_handle_cow (Some space) page s = Done (-2, s).
Proof.
  intros Hus He Hu Hc Hr Hav. apply wp_eq. eapply wp_mono.
  { apply (wp_vmm_handle_cow s space root page); [apply Hus|apply Hus|apply Hus|].
    intros e'. rewrite He. intros [= <-]. by apply (us_data _ _ _ Hus page e). }
  intros rc s' Hpost. unfold cow_post in Hpost. rewrite He, Hc in Hpost. cbn [negb] in Hpost.
  rewrite (proj2 (Z.eqb_neq _ 1)), (proj2 (Z.ltb_lt 1 _)) in Hpost by lia.
  destruct Hpost as [(->&->&_)|(_&f&Hcc)]; [done|].
  exfalso. pose proof (cc_inv _ _ _ _ _ _ Hcc). pose proof (cc_avail _ _ _ _ _ _ Hcc).
  pose proof (fa_avail_nonneg (frames s') ltac:(done)). lia.
Qed.

Lemma validate_page_via s cur space root page e s' e' :
  space_root s space root → leaf (ram_of s) root page = Some e →
  has e VMM_USER = true → has e VMM_WRITABLE = false →
  make_writable cur space page (pte_of s root page) s = Done (pte_of s' root page, s') →
  leaf (ram_of s') root page = Some e' → has e' VMM_WRITABLE = true →
  validate_page cur space true page s = Done (None, s').
Proof.
  intros Hs He Hu Hnw Hmw He' Hw'.
  unfold validate_page. erewrite run_bind by by apply (walk_to_pte_run s space root).
  fold (pte_of s root page). erewrite run_bind by apply pte_has_present.
  rewrite He, bool_decide_true by done.
  rewrite (run_bind _ _ s (Some (pte_of s root page)) s) by done. cbv beta iota.
  erewrite run_bind by apply pte_has_present. rewrite He, bool_decide_true by done. cbn [negb].
  erewrite run_bind by by apply pte_has_leaf. rewrite Hu. cbn [negb].
  erewrite run_bind by by apply pte_has_leaf. rewrite Hnw.
  erewrite run_bind by apply Hmw. erewrite run_bind by by apply pte_has_leaf. by rewrite Hw'.
Qed.

(** C34. When a write to a shared copy-on-write page is validated and no frame is
    left, [vmm_handle_cow] fails with [-2], but the validation goes on: it finds
    the VMA writable, calls [vmm_protect] with the VMA's flags and accepts the
    page.  The page is then writable while its frame is still shared, so the
    write reaches every other address space that maps the frame. *)
Theorem vmm_validate_breaks_cow s cur space root page e v :
  user_space s space root → page_ok page →
  current_vma cur space page = Some v → has (vma_prot_flags v) PROT_WRITE = true →
  has (vma_flags v) VMM_PRESENT = true → has (vma_flags v) VMM_WRITABLE = true →
  leaf (ram_of s) root page = Some e → has e VMM_USER = true → has e VMM_COW = true →
  has e VMM_WRITABLE = false → 1 < fa_refs (frames s) (entry_phys e) →
  fa_avail (frames s) = 0 →
  ∃ s' e', validate_page cur space true page s = Done (None, s') ∧
    leaf (ram_of s') root page = Some e' ∧ has e' VMM_WRITABLE = true ∧
    entry_phys e' = entry_phys e ∧
    fa_refs (frames s') (entry_phys e) = fa_refs (frames s) (entry_phys e).
Proof.
  intros Hus Hpg Hv Hvw Hvp Hvwr He Hu Hc Hnw Hr Hav.
  destruct (proj1 (wp_run _ _ _) (wp_vmm_protect s space root page (vma_flags v)
    (us_inv _ _ _ Hus) (us_ok _ _ _ Hus) (us_root _ _ _ Hus) Hpg Hvp)) as (rc&s'&Hpr&Hpost).
  unfold rewrite_post in Hpost. rewrite He in Hpost. destruct Hpost as (->&Hk&_&_&Hl).
  set (e' := make_entry (entry_phys e) (vma_flags v)).
  assert (He' : leaf (ram_of s') root page = Some e').
  { by rewrite Hl, decide_True, present_make, Hvp by (done || apply entry_phys_ok). }
  assert (Hw' : has e' VMM_WRITABLE = true)
    by (unfold e'; by rewrite make_entry_writable by apply entry_phys_ok).
  exists s', e'. split_and!; [|done|done|apply entry_phys_make, entry_phys_ok|].
  2:{ apply (kp_refs _ _ _ Hk). by apply (us_data _ _ _ Hus page e). }
  eapply (validate_page_via s cur space root page e s' e'); [apply Hus|done|done|done| |done|done].
  unfold make_writable. erewrite run_bind by by apply pte_has_leaf. rewrite Hc.
  rewrite (run_bind _ _ s (pte_of s root page) s)
    by by erewrite run_bind by by apply (cow_oom_run s space root page e).
  erewrite run_bind by by apply pte_has_leaf. rewrite Hnw, Hv, Hvw.
  erewrite run_bind by apply Hpr. cbn [Z.eqb].
  apply (walk_to_pte_run s' space root), (kp_space _ _ _ Hk), Hus.
Qed.
End props.

(** ** Witnesses *)

(** The allocator may change underneath a space as long as its frames stay. *)
Lemma user_space_frames (s : vmm pmm) space root (f : pmm) :
  user_space s space root → fa_inv f → phys_ram f = ram_of s →
  (∀ q, fa_used (frames s) q → fa_used f q) →
  (∀ q, fa_used (frames s) q → fa_refs (frames s) q ≤ fa_refs f q) →
  user_space (with_frames f s) space root ∧
  ∀ va, leaf (ram_of (with_frames f s)) root va = leaf (ram_of s) root va.
Proof.
  intros [Hi Hok Hr Hd] Hf Hram Hu Href. set (s' := with_frames f s).
  assert (Hram' : ram_of s' = ram_of s) by exact Hram.
  assert (Hsame : tables_same s s' root) by (intros t j _ _; by rewrite Hram').
  split; [split|intros va; by rewrite Hram'].
  - done.
  - by eapply space_ok_same.
  - destruct space as [|p]; [exact Hr|]. destruct Hr as [Hp Ho]. split.
    + by rewrite Hram'.
    + by eapply other_frame_same.
  - intros va e He Hus. rewrite Hram' in He. destruct (Hd va e He Hus) as (Ho&Hge&Hsp).
    split; [by eapply other_frame_same|]. split; [|done].
    specialize (Href (entry_phys e) (proj1 Ho)). change (frames s') with f. lia.
Qed.

(** The first user page made copy-on-write, its frame shared, and every frame
    of the machine in use. *)
Definition demo_cow : vmm pmm := state_of (vmm_protect (Some demo_sp) 0x400000 0x205) demo_user.
Definition demo_frame : Z := 32768.
Definition demo_shared_frames : pmm :=
  set_ref (page_index demo_frame) 2 (frames demo_cow).
Definition demo_cow2 : vmm pmm := with_frames demo_shared_frames demo_cow.
Definition demo_full_frames : pmm :=
  with_free_pages 4 (with_page_bitmap (replicate 80 255) demo_shared_frames).
Definition demo_full : vmm pmm := with_frames demo_full_frames demo_cow.

Lemma demo_space_facts :
  fa_inv (frames demo_space) ∧ space_ok demo_space demo_root ∧
  space_root demo_space demo_sp demo_root ∧
  ∀ va, leaf (ram_of demo_space) demo_root va = None.
Proof. destruct demo_space_user as [[] ?]. done. Qed.

Lemma vmm_map_correct_witness :
  ∃ s', vmm_map (Some demo_sp) 0x400000 0x100000 7 demo_space = Done (0, s') ∧
    leaf (ram_of s') demo_root 0x400123 = Some (make_entry 0x100000 7).
Proof.
  destruct demo_space_facts as (H1&H2&H3&H4).
  destruct (vmm_map_correct demo_space demo_sp demo_root 0x400000 0x100000 7)
    as (rc&s'&Hrun&_&_&_&_&_&Hpost);
    [exact H1|exact H2|exact H3|reflexivity|split; [reflexivity|lia]|reflexivity|].
  rewrite H4 in Hpost. destruct Hpost as [(->&_&Hl)|(->&Hav&_)].
  - exists s'. split; [exact Hrun|]. rewrite Hl. rewrite decide_True; reflexivity.
  - exfalso. vm_compute in Hav. apply Hav. reflexivity.
Defined.

Lemma vmm_map_translate_unmap_witness :
  ∃ s1 s2, vmm_map (Some demo_sp) 0x400000 0x100000 7 demo_space = Done (0, s1) ∧
    vmm_virt_to_phys (Some demo_sp) 0x400abc s1 = Done (Some 0x100abc, s1) ∧
    vmm_unmap (Some demo_sp) 0x400000 s1 = Done (0, s2).
Proof.
  destruct demo_space_facts as (H1&H2&H3&H4).
  assert (Hv : value_of (vmm_map (Some demo_sp) 0x400000 0x100000 7) demo_space = Some 0)
    by (vm_compute; reflexivity).
  unfold value_of in Hv.
  destruct (vmm_map (Some demo_sp) 0x400000 0x100000 7 demo_space) as [[rc s1]|] eqn:Hrun;
    [|discriminate Hv]. injection Hv as ->.
  destruct (vmm_map_translate_unmap demo_space demo_sp demo_root 0x400000 0x100000 7 s1)
    as (Ht&s2&Hu&_);
    [exact H1|exact H2|exact H3|reflexivity|split; [reflexivity|lia]|reflexivity
    |apply H4|exact Hrun|].
  exists s1, s2. split; [reflexivity|]. split; [|exact Hu].
  apply (Ht 0x400abc). reflexivity.
Defined.

Lemma vmm_map_isolated_witness :
  ∃ rc s', vmm_map (Some demo_sp) 0x400000 0x100000 7 demo_space = Done (rc, s') ∧
    translate (ram_of s') 20480 0x400000 = translate (ram_of demo_space) 20480 0x400000.
Proof.
  destruct demo_space_facts as (H1&H2&H3&H4).
  destruct (vmm_map (Some demo_sp) 0x400000 0x100000 7 demo_space) as [[rc s']|] eqn:Hrun.
  2:{ exfalso. apply (stop_not_done _ _ Hrun). vm_compute. reflexivity. }
  exists rc, s'. split; [reflexivity|].
  apply (vmm_map_isolated demo_space demo_sp demo_root 0x400000 0x100000 7 rc s' 20480);
    [exact H1|exact H2|exact H3|reflexivity|split; [reflexivity|lia]|reflexivity| |exact Hrun
    |vm_compute; reflexivity].
  exact demo_kernel_other.
Defined.

Lemma inv_all_used d s : pmm_inv d s →
  let s' := with_free_pages d
    (with_page_bitmap (replicate (length (page_bitmap s)) 255) s) in
  pmm_inv d s' ∧ ∀ i, is_page s i → used s' i = true.
Proof.
  intros [[Hs Hfm Hc Hd] H0 Hin] s'.
  assert (Hsz : pmm_sized s').
  { destruct Hs. split; simpl; rewrite ?length_replicate; try done. by apply Forall_replicate. }
  assert (Hall : ∀ i, is_page s' i → used s' i = true).
  { intros i Hi. unfold used, bit. simpl.
    pose proof (in_bitmap_byte _ i (sized_in_used _ i Hsz Hi)) as [Hk Hm].
    simpl in Hk. rewrite length_replicate in Hk.
    rewrite lookup_total_replicate_2 by done. by apply (Z.ones_spec_low 8). }
  split; [split; [split|..]|done]; [done|..|done| |done].
  - intros i Hi Hu. rewrite Hall in Hu by done. done.
  - simpl. rewrite (n_free_none s' Hall). lia.
  - intros Hp. split; [by apply Hall|]. by apply H0.
Qed.

Lemma demo_cow_ok : user_space demo_cow demo_sp demo_root.
Proof.
  destruct demo_user_ok as [Hus _].
  assert (Hv : value_of (vmm_protect (Some demo_sp) 0x400000 0x205) demo_user = Some 0)
    by (vm_compute; reflexivity).
  assert (He : leaf (ram_of demo_user) demo_root 0x400000 = Some 32775)
    by (vm_compute; reflexivity).
  pose proof (wp_state_value _ _ demo_user 0 (wp_vmm_protect demo_user demo_sp demo_root 0x400000
    0x205 (us_inv _ _ _ Hus) (us_ok _ _ _ Hus) (us_root _ _ _ Hus) eq_refl eq_refl) Hv) as Hpost.
  unfold rewrite_post in Hpost. rewrite He in Hpost. destruct Hpost as (_&Hk&_&_&Hl).
  eapply ps_space, (user_space_kept demo_user demo_cow demo_sp demo_root 0x400000
    (make_entry 32768 0x205)); [exact Hus|exact Hk|exact Hl|].
  intros _. exact (us_data _ _ _ Hus 0x400000 32775 He eq_refl).
Qed.

Lemma demo_cow_inv : pmm_inv 4 (frames demo_cow).
Proof.
  destruct (us_inv _ _ _ demo_cow_ok) as [d Hd].
  pose proof (shape_count _ _ (inv_shape _ _ Hd)) as Hc.
  assert (H1 : free_pages (frames demo_cow) = 470) by (vm_compute; reflexivity).
  assert (H2 : n_free (frames demo_cow) = 466) by (vm_compute; reflexivity).
  rewrite H1, H2 in Hc. replace 4 with d by lia. exact Hd.
Qed.

Lemma demo_shared_inv : pmm_inv 4 demo_shared_frames.
Proof. apply inv_set_ref; [exact demo_cow_inv|lia]. Qed.

Lemma demo_shared_refs q : fa_used (frames demo_cow) q →
  fa_refs (frames demo_cow) q ≤ refc demo_shared_frames (page_index q).
Proof.
  intros (_&Hq&_). unfold demo_shared_frames.
  assert (Hsz : pmm_sized (frames demo_cow)) by (eapply shape_sized, inv_shape, demo_cow_inv).
  rewrite refc_set_ref; [|exact Hsz|split; vm_compute; congruence|exact Hq].
  change (fa_refs (frames demo_cow) q) with (refc (frames demo_cow) (page_index q)).
  destruct (decide (page_index demo_frame = page_index q)) as [<-|]; [|lia].
  vm_compute. congruence.
Qed.

Lemma frame_used_set_ref s i c q : pmm_frame_used s q → pmm_frame_used (set_ref i c s) q.
Proof. done. Qed.

Lemma frame_used_filled s bm n q : pmm_frame_used s q →
  (∀ i, is_page s i → used (with_free_pages n (with_page_bitmap bm s)) i = true) →
  pmm_frame_used (with_free_pages n (with_page_bitmap bm s)) q.
Proof. intros (H1&H2&H3&_) Hall. split_and!; try done; [apply H2..|by apply Hall]. Qed.

Lemma filled_rest s bm n :
  let s' := with_free_pages n (with_page_bitmap bm s) in
  phys_ram s' = phys_ram s ∧ ∀ i, refc s' i = refc s i.
Proof. done. Qed.

Lemma demo_cow2_ok : user_space demo_cow2 demo_sp demo_root ∧
  ∀ va, leaf (ram_of demo_cow2) demo_root va = leaf (ram_of demo_cow) demo_root va.
Proof.
  apply (user_space_frames demo_cow demo_sp demo_root demo_shared_frames);
    [exact demo_cow_ok|exists 4; exact demo_shared_inv|reflexivity| |exact demo_shared_refs].
  intros q. apply frame_used_set_ref.
Qed.

Lemma demo_full_ok : user_space demo_full demo_sp demo_root ∧
  ∀ va, leaf (ram_of demo_full) demo_root va = leaf (ram_of demo_cow) demo_root va.
Proof.
  destruct (inv_all_used 4 demo_shared_frames demo_shared_inv) as [Hi Hall].
  assert (Hlen : length (page_bitmap demo_shared_frames) = 80%nat) by (vm_compute; reflexivity).
  rewrite Hlen in Hi, Hall.
  destruct (filled_rest demo_shared_frames (replicate 80 255) 4) as [Hram Href].
  unfold demo_full, demo_full_frames.
  apply (user_space_frames demo_cow demo_sp demo_root);
    [exact demo_cow_ok|exists 4; exact Hi| | |].
  { rewrite Hram. unfold demo_shared_frames. reflexivity. }
  2:{ intros q Hq. eapply Z.le_trans; [exact (demo_shared_refs q Hq)|].
      apply Z.eq_le_incl. symmetry. exact (Href (page_index q)). }
  intros q Hq. apply frame_used_filled; [by apply frame_used_set_ref|exact Hall].
Qed.

Lemma demo_cow_leaf : leaf (ram_of demo_cow) demo_root 0x400000 = Some 33285.
Proof. vm_compute. reflexivity. Qed.

#[local] Opaque demo_cow demo_shared_frames demo_cow2 demo_full.

Lemma vmm_protect_correct_witness :
  ∃ s', vmm_protect (Some demo_sp) 0x400000 0x205 demo_user = Done (0, s') ∧
    leaf (ram_of s') demo_root 0x400000 = Some (make_entry 32768 0x205).
Proof.
  destruct demo_user_ok as [Hus _].
  pose proof (vmm_protect_correct demo_user demo_sp demo_root 0x400000 0x205
    (us_inv _ _ _ Hus) (us_ok _ _ _ Hus) (us_root _ _ _ Hus) eq_refl eq_refl) as H.
  assert (He : leaf (ram_of demo_user) demo_root 0x400000 = Some 32775)
    by (vm_compute; reflexivity).
  rewrite He in H. destruct H as (s'&Hrun&_&_&Hl). exists s'. split; [exact Hrun|].
  rewrite Hl, decide_True; reflexivity.
Defined.

Lemma vmm_create_address_space_correct_witness :
  ∃ space s' root, vmm_create_address_space demo_vmm = Done (Some space, s') ∧
    space_root s' space root ∧ translate (ram_of s') root 0x400000 = None.
Proof.
  destruct demo_vmm_ok as [Hok _].
  destruct (vmm_create_address_space_correct demo_vmm demo_vmm_inv Hok)
    as ([space|]&s'&Hrun&_&Hpost).
  - destruct Hpost as (root&Hr&_&_&_&Ht). exists space, s', root.
    split; [exact Hrun|]. split; [exact Hr|]. rewrite Ht, decide_True; [reflexivity|].
    vm_compute. reflexivity.
  - exfalso. destruct Hpost as [Hav _]. vm_compute in Hav. apply Hav. reflexivity.
Defined.

Lemma vmm_handle_cow_correct_witness :
  ∃ rc s', vmm_handle_cow (Some demo_sp) 0x400123 demo_cow2 = Done (rc, s') ∧
    (rc = 0 → ∃ e', leaf (ram_of s') demo_root 0x400123 = Some e' ∧
       has e' VMM_WRITABLE = true ∧ fa_refs (frames s') demo_frame = 1).
Proof.
  destruct demo_cow2_ok as [Hus Hl].
  assert (He : leaf (ram_of demo_cow2) demo_root 0x400123 = Some 33285).
  { rewrite Hl, <-demo_cow_leaf. apply leaf_path. reflexivity. }
  destruct (us_data _ _ _ Hus 0x400123 33285 He eq_refl) as (Ho&Hr&_).
  destruct (vmm_handle_cow_correct demo_cow2 demo_sp demo_root 0x400123 33285)
    as (rc&s'&Hrun&Hpost);
    [exact (us_inv _ _ _ Hus)|exact (us_ok _ _ _ Hus)|exact (us_root _ _ _ Hus)|exact He
    |reflexivity|exact Ho|exact Hr|].
  exists rc, s'. split; [exact Hrun|]. intros ->.
  destruct Hpost as [(Hbad&_)|(_&_&f&e'&E1&_&E2&_&_&_&_&_&_&E3)]; [discriminate Hbad|].
  exists e'. split; [exact E1|]. split; [exact E2|].
  destruct E3 as [[E3 _]|(_&_&E3)].
  - exfalso. vm_compute in E3. discriminate E3.
  - change demo_frame with (entry_phys 33285). rewrite E3. vm_compute. reflexivity.
Defined.






Lemma vmm_validate_breaks_cow_witness :
  ∃ s' e', validate_page demo_cur demo_sp true 0x400000 demo_full = Done (None, s') ∧
    leaf (ram_of s') demo_root 0x400000 = Some e' ∧ has e' VMM_WRITABLE = true ∧
    entry_phys e' = entry_phys 33285 ∧
    fa_refs (frames s') (entry_phys 33285) = fa_refs (frames demo_full) (entry_phys 33285).
Proof.
  destruct demo_full_ok as [Hus Hl].
  apply (vmm_validate_breaks_cow demo_full demo_cur demo_sp demo_root 0x400000 33285
    (Vma 0x400000 0x402000 3 0x22 true true 0 0 7 true));
    [exact Hus|reflexivity|reflexivity|reflexivity|reflexivity|reflexivity
    |rewrite Hl; exact demo_cow_leaf|reflexivity|reflexivity|reflexivity
    |vm_compute; reflexivity|vm_compute; reflexivity].
Defined.
