(* ===== verification/MemCalls.v ===== *)
(** * Memory system calls: sys_mem.c

    [brk], [mmap], [munmap], [mprotect], [mremap] and [madvise] of the current
    process: its table of memory areas, its page tables, the break of its heap
    and the files its mappings hold.  The arguments are the 64-bit registers of
    the system call.  The calls first return [-EPERM] when no process is
    current; here there is one. *)

From S2P Require Import Prelude Bits Ram Frames Vmm.

Definition MAP_SHARED : Z := 0x01.
Definition MAP_PRIVATE : Z := 0x02.
Definition MAP_FIXED : Z := 0x10.
Definition MAP_ANONYMOUS : Z := 0x20.
Definition VMA_MAX : nat := 128.
Definition PROCESS_HEAP_MAX : Z := 256 * 1024 * 1024.
Definition MMAP_BASE : Z := 0x00007f0000000000.
Definition MMAP_TOP : Z := 0x00007fff00000000.
Definition MREMAP_MAYMOVE : Z := 1.
Definition MREMAP_FIXED : Z := 2.
Definition MADV_DONTNEED : Z := 4.
Definition VFS_TYPE_FILE : Z := 1.
Definition NFILES : Z := 256.

Definition i64 (z : Z) : Z := (z + 2 ^ 63) `mod` 2 ^ 64 - 2 ^ 63.
Definition page_align_up (addr : Z) : Z := (addr +! 0xfff) &! ~! 0xfff.
Definition page_align_down (addr : Z) : Z := addr &! ~! 0xfff.

(** ** Memory areas *)

Definition set_vma_start (x : Z) (v : vma) : vma :=
  Vma x (vma_end v) (vma_prot_flags v) (vma_mmap_flags v) (vma_is_anonymous v) (vma_is_private v)
    (vma_file v) (vma_file_offset v) (vma_flags v) (vma_valid v).
Definition set_vma_end (x : Z) (v : vma) : vma :=
  Vma (vma_start v) x (vma_prot_flags v) (vma_mmap_flags v) (vma_is_anonymous v) (vma_is_private v)
    (vma_file v) (vma_file_offset v) (vma_flags v) (vma_valid v).
Definition set_vma_offset (x : Z) (v : vma) : vma :=
  Vma (vma_start v) (vma_end v) (vma_prot_flags v) (vma_mmap_flags v) (vma_is_anonymous v) (vma_is_private v)
    (vma_file v) x (vma_flags v) (vma_valid v).
Definition set_vma_valid (x : bool) (v : vma) : vma :=
  Vma (vma_start v) (vma_end v) (vma_prot_flags v) (vma_mmap_flags v) (vma_is_anonymous v) (vma_is_private v)
    (vma_file v) (vma_file_offset v) (vma_flags v) x.
(** [prot_flags] and [flags] have 32 bits. *)
Definition set_vma_prot (prot vflags : Z) (v : vma) : vma :=
  Vma (vma_start v) (vma_end v) (u32 prot) (vma_mmap_flags v) (vma_is_anonymous v) (vma_is_private v)
    (vma_file v) (vma_file_offset v) (u32 vflags) (vma_valid v).

(** The part of [v] from [e] on. *)
Definition advance (e : Z) (v : vma) : vma :=
  set_vma_start e
    (if vma_is_anonymous v then v else set_vma_offset (vma_file_offset v +! (e -! vma_start v)) v).
#[global] Arguments advance : simpl never.

Definition holds_file (v : vma) : bool := negb (vma_is_anonymous v) && negb (vma_file v =? 0).

(** [start < vma->end && end > vma->start] *)
Definition vma_meets (start stop : Z) (v : vma) : bool :=
  vma_valid v && (start <? vma_end v) && (vma_start v <? stop).

Definition vma_find_exact_slot (vs : list vma) (start stop : Z) : option nat :=
  fst <$> list_find (λ v, vma_valid v && (vma_start v <=? start) && (stop <=? vma_end v)) vs.
Definition vma_overlaps (vs : list vma) (start stop : Z) : bool := existsb (vma_meets start stop) vs.
Definition free_slot (vs : list vma) : option nat := fst <$> list_find (λ v, negb (vma_valid v)) vs.

Definition can_merge (a b : vma) : bool :=
  (vma_end a =? vma_start b) && (vma_prot_flags a =? vma_prot_flags b)
  && (vma_mmap_flags a =? vma_mmap_flags b) && eqb (vma_is_anonymous a) (vma_is_anonymous b)
  && eqb (vma_is_private a) (vma_is_private b) && (vma_file a =? vma_file b) && (vma_flags a =? vma_flags b)
  && (vma_is_anonymous a
      || (vma_file_offset a +! (vma_end a -! vma_start a) =? vma_file_offset b)).

(** The first [j] that can be merged to the end of [v], which is at [i]. *)
Fixpoint merge_partner (i : nat) (v : vma) (j : nat) (vs : list vma) : option nat :=
  match vs with
  | [] => None
  | w :: vs =>
      if bool_decide (i = j) || negb (vma_valid w) || negb (can_merge v w)
      then merge_partner i v (S j) vs else Some j
  end.
Fixpoint merge_pair (all : list vma) (i : nat) (vs : list vma) : option (nat * nat) :=
  match vs with
  | [] => None
  | v :: vs =>
      if vma_valid v then
        match merge_partner i v 0 all with
        | Some j => Some (i, j)
        | None => merge_pair all (S i) vs
        end
      else merge_pair all (S i) vs
  end.

(** The page flags of a protection. *)
Definition prot_vflags (prot : Z) : Z :=
  let vflags := VMM_PRESENT |! VMM_USER in
  let vflags := if has prot PROT_WRITE then vflags |! VMM_WRITABLE else vflags in
  if has prot PROT_EXEC then vflags else vflags |! VMM_NO_EXECUTE.

(** ** State *)

(** [struct file]: the reference count, and the type of the node if there is
    one. *)
Record mfile := MFile {
  mf_refs : Z;
  mf_type : option Z;
}.

Record mem (S : Type) := Mem {
  m_vm : vmm S;
  m_space : option address_space;
  m_vmas : list vma;
  m_heap_start : Z;
  m_heap_end : Z;
  m_fds : list Z;  (** [files] of the process, 0 for a free entry *)
  m_files : gmap Z mfile;
  m_hint : Z;  (** [mmap_hint] *)
}.
Arguments Mem {_}.
Arguments m_vm {_}.
Arguments m_space {_}.
Arguments m_vmas {_}.
Arguments m_heap_start {_}.
Arguments m_heap_end {_}.
Arguments m_fds {_}.
Arguments m_files {_}.
Arguments m_hint {_}.

Section mem.
Context {S : Type} `{FrameAlloc S}.
Abbreviation MM := (prog (mem S)).

Definition set_vm (x : vmm S) (s : mem S) : mem S :=
  Mem x (m_space s) (m_vmas s) (m_heap_start s) (m_heap_end s) (m_fds s) (m_files s) (m_hint s).
Definition set_vmas (x : list vma) (s : mem S) : mem S :=
  Mem (m_vm s) (m_space s) x (m_heap_start s) (m_heap_end s) (m_fds s) (m_files s) (m_hint s).
Definition set_heap_end (x : Z) (s : mem S) : mem S :=
  Mem (m_vm s) (m_space s) (m_vmas s) (m_heap_start s) x (m_fds s) (m_files s) (m_hint s).
Definition set_files (x : gmap Z mfile) (s : mem S) : mem S :=
  Mem (m_vm s) (m_space s) (m_vmas s) (m_heap_start s) (m_heap_end s) (m_fds s) x (m_hint s).
Definition set_hint (x : Z) (s : mem S) : mem S :=
  Mem (m_vm s) (m_space s) (m_vmas s) (m_heap_start s) (m_heap_end s) (m_fds s) (m_files s) x.

Definition in_vm {A} (m : prog (vmm S) A) : MM A := zoom m_vm set_vm m.
Definition get_vma (i : nat) : MM vma := s ← get; deref (m_vmas s !! i).
Definition put_vma (i : nat) (v : vma) : MM unit := modify (λ s, set_vmas (<[i := v]> (m_vmas s)) s).

(** [file_close] of vfs.c; the close callback of the node is left out. *)
Definition close_file (f : Z) : MM unit :=
  if f =? 0 then mret () else
  s ← get; x ← deref (m_files s !! f);
  let n := i32 (mf_refs x - 1) in
  if n =? 0 then modify (λ s, set_files (delete f (m_files s)) s)
  else modify (λ s, set_files (<[f := MFile n (mf_type x)]> (m_files s)) s).

(** [if (vmm_virt_to_phys(..)) { vmm_unmap(..); pmm_free_page(phys); }] *)
Definition drop_user_page (vaddr : Z) : MM unit :=
  s ← get;
  phys ← in_vm (vmm_virt_to_phys (m_space s) vaddr);
  match phys with
  | None => mret ()
  | Some phys => _ ← in_vm (vmm_unmap (m_space s) vaddr); in_vm (in_frames (fa_free phys))
  end.
Definition drop_pages (vaddr : Z) (n : nat) : MM unit :=
  for_each (seq 0 n) (λ i, drop_user_page (vaddr + Z.of_nat i * VMM_PAGE_SIZE)).

Definition vma_drop_present_pages (start stop : Z) : MM unit :=
  let first := page_align_down start in
  drop_pages first (Z.to_nat ((page_align_up stop - first) / VMM_PAGE_SIZE)).

(** ** brk *)

Definition grow_heap (vaddr : Z) : MM (option Z) :=
  phys ← in_vm (in_frames fa_alloc);
  if phys =? 0 then modify (set_heap_end vaddr);; mret (Some (- ENOMEM)) else
  s ← get;
  rc ← in_vm (vmm_map (m_space s) vaddr phys (VMM_PRESENT |! VMM_WRITABLE |! VMM_USER |! VMM_NO_EXECUTE));
  if negb (rc =? 0) then
    in_vm (in_frames (fa_free phys));;
    modify (set_heap_end vaddr);; mret (Some (- ENOMEM))
  else mret None.

Definition sys_brk (new_brk : Z) : MM Z :=
  s ← get;
  if new_brk =? 0 then mret (i64 (m_heap_end s)) else
  if new_brk <? m_heap_start s then mret (- EINVAL) else
  if PROCESS_HEAP_MAX <? new_brk -! m_heap_start s then mret (- ENOMEM) else
  let old_end := page_align_up (m_heap_end s) in
  let new_end := page_align_up new_brk in
  failed ← (if old_end <? new_end then
              for_until (Z.to_nat ((new_end - old_end) / VMM_PAGE_SIZE)) old_end VMM_PAGE_SIZE grow_heap
            else if new_end <? old_end then
              drop_pages new_end (Z.to_nat ((old_end - new_end) / VMM_PAGE_SIZE));; mret None
            else mret None);
  match failed with
  | Some e => mret e
  | None => modify (set_heap_end new_brk);; mret (i64 new_brk)
  end.

(** ** Merging and searching areas *)

(** One merge removes one area, so that there are fewer merges than areas. *)
Fixpoint merge_loop (fuel : nat) : MM unit :=
  s ← get;
  match merge_pair (m_vmas s) 0 (m_vmas s) with
  | None => mret ()
  | Some (i, j) =>
      a ← get_vma i;
      b ← get_vma j;
      put_vma i (set_vma_end (vma_end b) a);;
      when (holds_file b) (close_file (vma_file b));;
      b ← get_vma j;
      put_vma j (set_vma_valid false b);;
      match fuel with
      | O => spin
      | Datatypes.S fuel => merge_loop fuel
      end
  end.
Definition vma_merge_adjacent : MM unit := s ← get; merge_loop (length (m_vmas s)).

(** Each round starts the search again or moves [addr] behind an area that it
    does not meet again, so that two rounds per area and one more are enough. *)
Fixpoint region_loop (fuel : nat) (len start_addr addr : Z) (wrapped : bool) : MM Z :=
  match fuel with
  | O => spin
  | Datatypes.S fuel =>
      if MMAP_TOP <? addr +! len then
        if wrapped then mret 0 else region_loop fuel len start_addr MMAP_BASE true
      else
        s ← get;
        match list_find (vma_meets addr (addr +! len)) (m_vmas s) with
        | Some (_, v) =>
            let addr := page_align_up (vma_end v) in
            if wrapped && (start_addr <=? addr) then mret 0
            else region_loop fuel len start_addr addr wrapped
        | None =>
            let hint := page_align_up ((addr +! len) +! VMM_PAGE_SIZE) in
            modify (set_hint (if MMAP_TOP <=? hint then MMAP_BASE else hint));;
            mret addr
        end
  end.
Definition vma_find_free_region (hint length : Z) : MM Z :=
  s ← get;
  let aligned_len := page_align_up length in
  let addr := if negb (hint =? 0) then page_align_down hint else m_hint s in
  let addr := if (addr <? MMAP_BASE) || (MMAP_TOP <? addr +! aligned_len) then MMAP_BASE else addr in
  region_loop (2 * List.length (m_vmas s) + 3) aligned_len addr addr false.

(** ** munmap *)

(** What [munmap] does to the area at [i]. *)
Definition unmap_vma (start stop : Z) (i : nat) : MM unit :=
  v ← get_vma i;
  if negb (vma_valid v) then mret () else
  if (start <=? vma_start v) && (vma_end v <=? stop) then
    when (holds_file v) (close_file (vma_file v));;
    put_vma i (set_vma_valid false v)
  else if (vma_start v <? start) && (stop <? vma_end v) then
    put_vma i (set_vma_end start v);;
    s ← get;
    match free_slot (m_vmas s) with
    | Some j => put_vma j (advance stop v)
    | None => mret ()
    end
  else if (vma_start v <? start) && (start <? vma_end v) && (vma_end v <=? stop) then
    put_vma i (set_vma_end start v)
  else if (start <=? vma_start v) && (vma_start v <? stop) && (stop <? vma_end v) then
    put_vma i (advance stop v)
  else mret ().

Definition sys_munmap (addr len : Z) : MM Z :=
  if len =? 0 then mret (- EINVAL) else
  if negb (addr &! 0xfff =? 0) then mret (- EINVAL) else
  let aligned_len := page_align_up len in
  if addr +! aligned_len <? addr then mret (- EINVAL) else
  let start := addr in
  let stop := addr +! aligned_len in
  s ← get;
  if existsb (λ v, vma_valid v && (vma_start v <? start) && (stop <? vma_end v)) (m_vmas s)
     && bool_decide (free_slot (m_vmas s) = None)
  then mret (- ENOMEM) else
  drop_pages addr (Z.to_nat (aligned_len / VMM_PAGE_SIZE));;
  for_each (seq 0 VMA_MAX) (unmap_vma start stop);;
  vma_merge_adjacent;;
  mret 0.

(** ** mmap *)

(** The address of a new mapping; [None] if there is no room. *)
Definition place_mapping (addr aligned_len flags : Z) : MM (option Z) :=
  if has flags MAP_FIXED then
    _ ← sys_munmap addr aligned_len;
    mret (Some addr)
  else
    map_addr ← vma_find_free_region addr aligned_len;
    mret (if map_addr =? 0 then None else Some map_addr).

(** [f] is the file, 0 for an anonymous mapping. *)
Definition add_mapping (map_addr aligned_len prot flags f offset vflags : Z) : MM Z :=
  s ← get;
  match free_slot (m_vmas s) with
  | None => mret (- ENOMEM)
  | Some i =>
      put_vma i (Vma map_addr (map_addr +! aligned_len) (u32 prot) (u32 flags) (f =? 0)
        (has flags MAP_PRIVATE) f offset (u32 vflags) true);;
      when (negb (f =? 0))
        (s ← get; x ← deref (m_files s !! f);
         modify (set_files (<[f := MFile (i32 (mf_refs x + 1)) (mf_type x)]> (m_files s))));;
      vma_merge_adjacent;;
      mret (i64 map_addr)
  end.

(** The file of a file-backed mapping. *)
Definition mapped_file (fd offset : Z) (shared : bool) : MM (Z + Z) :=
  s ← get;
  if (fd <? 0) || (NFILES <=? fd) then mret (inl (- EBADF)) else
  f ← deref (m_fds s !! Z.to_nat fd);
  if f =? 0 then mret (inl (- EBADF)) else
  x ← deref (m_files s !! f);
  match mf_type x with
  | None => mret (inl (- EBADF))
  | Some type =>
      if negb (type =? VFS_TYPE_FILE) then mret (inl (- ENODEV)) else
      if negb (offset &! 0xfff =? 0) then mret (inl (- EINVAL)) else
      if shared then mret (inl (- ENOSYS)) else mret (inr f)
  end.

Definition sys_mmap (addr length rdx r10 r8 offset : Z) : MM Z :=
  let prot := i32 rdx in
  let flags := i32 r10 in
  let fd := i32 r8 in
  let map_shared := has flags MAP_SHARED in
  let map_private := has flags MAP_PRIVATE in
  if eqb map_shared map_private then mret (- EINVAL) else
  if length =? 0 then mret (- EINVAL) else
  if 2 ^ 64 - 1 - 0xfff <? length then mret (- EINVAL) else
  let aligned_len := page_align_up length in
  if addr +! aligned_len <? addr then mret (- EINVAL) else
  if has flags MAP_FIXED && negb (addr &! 0xfff =? 0) then mret (- EINVAL) else
  if has flags MAP_FIXED && ((addr <? VMM_USER_BASE) || (VMM_USER_TOP <? addr +! aligned_len))
  then mret (- EINVAL) else
  if negb (has flags MAP_ANONYMOUS) then
    r ← mapped_file fd offset map_shared;
    match r with
    | inl e => mret e
    | inr f =>
        map_addr ← place_mapping addr aligned_len flags;
        match map_addr with
        | None => mret (- ENOMEM)
        | Some map_addr =>
            let vflags := prot_vflags prot in
            let vflags := if map_private && has prot PROT_WRITE then vflags &! ~! VMM_WRITABLE else vflags in
            add_mapping map_addr aligned_len prot flags f offset vflags
        end
    end
  else if map_shared then mret (- ENOSYS) else
  map_addr ← place_mapping addr aligned_len flags;
  match map_addr with
  | None => mret (- ENOMEM)
  | Some map_addr => add_mapping map_addr aligned_len prot flags 0 0 (prot_vflags prot)
  end.

(** ** mprotect *)

(** The table entries that [mprotect] needs for the area. *)
Definition slots_needed (start stop : Z) (v : vma) : nat :=
  if negb (vma_valid v) then 0%nat else
  if (vma_start v <? start) && (stop <? vma_end v) then 2%nat
  else if (vma_start v <? start) && (start <? vma_end v) && (vma_end v <=? stop) then 1%nat
  else if (start <=? vma_start v) && (vma_start v <? stop) && (stop <? vma_end v) then 1%nat
  else 0%nat.

(** The free entries, in order. *)
Fixpoint free_from (i : nat) (vs : list vma) : list nat :=
  match vs with
  | [] => []
  | v :: vs => if vma_valid v then free_from (Datatypes.S i) vs else i :: free_from (Datatypes.S i) vs
  end.

Definition protect_vma (start stop prot vflags : Z) (i : nat) : MM unit :=
  v ← get_vma i;
  s ← get;
  let slots := free_from 0 (m_vmas s) in
  if negb (vma_valid v) then mret () else
  if (start <=? vma_start v) && (vma_end v <=? stop) then
    put_vma i (set_vma_prot prot vflags v)
  else if (vma_start v <? start) && (stop <? vma_end v) then
    match slots with
    | slot1 :: slot2 :: _ =>
        put_vma i (set_vma_end start v);;
        put_vma slot1 (set_vma_prot prot vflags (set_vma_end stop (advance start v)));;
        put_vma slot2 (advance stop v)
    | _ => mret ()
    end
  else if (vma_start v <? start) && (start <? vma_end v) && (vma_end v <=? stop) then
    match slots with
    | slot :: _ =>
        put_vma i (set_vma_end start v);;
        put_vma slot (set_vma_prot prot vflags (advance start v))
    | _ => mret ()
    end
  else if (start <=? vma_start v) && (vma_start v <? stop) && (stop <? vma_end v) then
    match slots with
    | slot :: _ =>
        let w := advance stop v in
        put_vma i w;;
        put_vma slot (set_vma_prot prot vflags (set_vma_end stop (set_vma_start (vma_start v)
          (if vma_is_anonymous v then w else set_vma_offset (vma_file_offset w -! (stop -! vma_start v)) w))))
    | _ => mret ()
    end
  else mret ().

Definition protect_page (vflags vaddr : Z) : MM unit :=
  s ← get;
  phys ← in_vm (vmm_virt_to_phys (m_space s) vaddr);
  match phys with
  | None => mret ()
  | Some _ => _ ← in_vm (vmm_protect (m_space s) vaddr vflags); mret ()
  end.

Definition sys_mprotect (addr len rdx : Z) : MM Z :=
  let prot := i32 rdx in
  if negb (addr &! 0xfff =? 0) then mret (- EINVAL) else
  if len =? 0 then mret 0 else
  let aligned_len := page_align_up len in
  if addr +! aligned_len <? addr then mret (- EINVAL) else
  let start := addr in
  let stop := addr +! aligned_len in
  s ← get;
  let needed := sum_list (slots_needed start stop <$> m_vmas s) in
  let available := List.length (filter (λ v, negb (vma_valid v)) (m_vmas s)) in
  if bool_decide (available < needed)%nat then mret (- ENOMEM) else
  let vflags := prot_vflags prot in
  for_each (seq 0 (Z.to_nat (aligned_len / VMM_PAGE_SIZE)))
    (λ i, protect_page vflags (addr + Z.of_nat i * VMM_PAGE_SIZE));;
  for_each (seq 0 VMA_MAX) (protect_vma start stop prot vflags);;
  vma_merge_adjacent;;
  mret 0.

(** ** mremap and madvise *)

(** The pages of the area at [i] move from [src] to [dst]. *)
Definition move_page (i : nat) (old_addr dst_addr off : Z) : MM (option Z) :=
  let src := old_addr +! off in
  let dst := dst_addr +! off in
  s ← get;
  phys ← in_vm (vmm_virt_to_phys (m_space s) src);
  match phys with
  | None => mret None
  | Some phys =>
      _ ← in_vm (vmm_unmap (m_space s) src);
      v ← get_vma i;
      rc ← in_vm (vmm_map (m_space s) dst phys (vma_flags v));
      mret (if negb (rc =? 0) then Some (- ENOMEM) else None)
  end.

Definition sys_mremap (old_addr old_size new_size flags new_addr_hint : Z) : MM Z :=
  if negb (flags &! ~! (MREMAP_MAYMOVE |! MREMAP_FIXED) =? 0) then mret (- EINVAL) else
  if has flags MREMAP_FIXED && negb (has flags MREMAP_MAYMOVE) then mret (- EINVAL) else
  if (old_size =? 0) || (new_size =? 0) || negb (old_addr &! 0xfff =? 0) then mret (- EINVAL) else
  let old_len := page_align_up old_size in
  let new_len := page_align_up new_size in
  let old_end := old_addr +! old_len in
  if old_end <? old_addr then mret (- EINVAL) else
  s ← get;
  match vma_find_exact_slot (m_vmas s) old_addr old_end with
  | None => mret (- EFAULT)
  | Some i =>
      v ← get_vma i;
      if negb (vma_start v =? old_addr) then mret (- EFAULT) else
      if new_len =? old_len then mret (i64 old_addr) else
      if new_len <? old_len then
        ret ← sys_munmap (old_addr +! new_len) (old_len -! new_len);
        mret (if ret <? 0 then ret else i64 old_addr)
      else
      let grow_end := old_addr +! new_len in
      if grow_end <? old_addr then mret (- EINVAL) else
      if negb (vma_overlaps (m_vmas s) old_end grow_end) then
        put_vma i (set_vma_end grow_end v);; mret (i64 old_addr)
      else
      if negb (has flags MREMAP_MAYMOVE) then mret (- ENOMEM) else
      if has flags MREMAP_FIXED && negb (new_addr_hint &! 0xfff =? 0) then mret (- EINVAL) else
      dst_addr ← (if has flags MREMAP_FIXED then mret new_addr_hint
                  else vma_find_free_region new_addr_hint new_len);
      if dst_addr =? 0 then mret (- ENOMEM) else
      s ← get;
      when (has flags MREMAP_FIXED && vma_overlaps (m_vmas s) dst_addr (dst_addr +! new_len))
        (_ ← sys_munmap dst_addr new_len; mret ());;
      failed ← for_until (Z.to_nat (old_len / VMM_PAGE_SIZE)) 0 VMM_PAGE_SIZE (move_page i old_addr dst_addr);
      match failed with
      | Some e => mret e
      | None =>
          v ← get_vma i;
          put_vma i (set_vma_end (dst_addr +! new_len) (set_vma_start dst_addr v));;
          mret (i64 dst_addr)
      end
  end.

(** [MADV_DONTNEED] on the area at [i]. *)
Definition advise_vma (addr stop : Z) (i : nat) : MM unit :=
  v ← get_vma i;
  when (vma_meets addr stop v)
    (vma_drop_present_pages (if vma_start v <? addr then addr else vma_start v)
       (if stop <? vma_end v then stop else vma_end v)).

Definition sys_madvise (addr length rdx : Z) : MM Z :=
  let advice := i32 rdx in
  if length =? 0 then mret 0 else
  if negb (addr &! 0xfff =? 0) then mret (- EINVAL) else
  let stop := addr +! page_align_up length in
  if stop <? addr then mret (- EINVAL) else
  if (0 <=? advice) && (advice <? MADV_DONTNEED) then mret 0 else
  if negb (advice =? MADV_DONTNEED) then mret (- EINVAL) else
  for_each (seq 0 VMA_MAX) (advise_vma addr stop);;
  mret 0.
End mem.
