(* ===== verification/VmaSpec.v ===== *)
(** * What a table of memory areas means

    A table maps addresses to their attributes.  [maps vs a x] says that some
    area of [vs] covers [a] and gives it the attributes [x]; in a table without
    overlaps there is at most one. *)

From S2P Require Import Prelude Bits Ram Frames Vmm PageTable VmmUser MemCalls.

(** ** Sums over a table *)

Lemma sum_list_insert {A} (g : A → nat) (l : list A) i x y :
  l !! i = Some x →
  (sum_list (g <$> <[i := y]> l) + g x = sum_list (g <$> l) + g y)%nat.
Proof.
  revert i. induction l as [|z l IH]; intros [|i] Hi; csimpl in *; try done.
  - injection Hi as ->. lia.
  - specialize (IH i Hi). lia.
Qed.

Lemma sum_list_ge {A} (g : A → nat) (l : list A) i x :
  l !! i = Some x → (g x ≤ sum_list (g <$> l))%nat.
Proof.
  revert i. induction l as [|z l IH]; intros [|i] Hi; csimpl in *; try done.
  - injection Hi as ->. lia.
  - specialize (IH i Hi). lia.
Qed.

Lemma i32_small z : - 2 ^ 31 ≤ z < 2 ^ 31 → i32 z = z.
Proof. intros Hz. unfold i32. rewrite Z.mod_small; lia. Qed.

(** ** Areas *)

(** The attributes of an address. *)
Record area := Area {
  ar_prot : Z;
  ar_mmap : Z;
  ar_anonymous : bool;
  ar_private : bool;
  ar_file : Z;
  ar_offset : Z;
  ar_vflags : Z;
}.

Definition area_at (v : vma) (a : Z) : area :=
  Area (vma_prot_flags v) (vma_mmap_flags v) (vma_is_anonymous v) (vma_is_private v) (vma_file v)
    (if vma_is_anonymous v then 0 else u64 (vma_file_offset v + (a - vma_start v))) (vma_flags v).

Definition covers (v : vma) (a : Z) : Prop := vma_valid v = true ∧ vma_start v ≤ a < vma_end v.

#[global] Instance covers_dec v a : Decision (covers v a).
Proof. unfold covers. apply _. Defined.

Definition maps (vs : list vma) (a : Z) (x : area) : Prop :=
  ∃ i v, vs !! i = Some v ∧ covers v a ∧ x = area_at v a.

Definition USER_END : Z := 2 ^ 47.

Record vma_ok (v : vma) : Prop := {
  vo_range : 0 ≤ vma_start v < vma_end v ∧ vma_end v ≤ USER_END;
  vo_start : page_ok (vma_start v);
  vo_end : page_ok (vma_end v);
  vo_flags : has (vma_flags v) VMM_PRESENT = true ∧ has (vma_flags v) VMM_USER = true;
}.

Record vmas_ok (vs : list vma) : Prop := {
  vs_length : length vs = VMA_MAX;
  vs_each : ∀ i v, vs !! i = Some v → vma_valid v = true → vma_ok v;
  vs_disjoint : ∀ i j v w a, vs !! i = Some v → vs !! j = Some w → covers v a → covers w a → i = j;
}.

Lemma maps_fun vs a x y : vmas_ok vs → maps vs a x → maps vs a y → x = y.
Proof.
  intros Hok (i&v&Hi&Hv&->) (j&w&Hj&Hw&->).
  assert (i = j) as -> by by eapply (vs_disjoint _ Hok).
  by simplify_eq.
Qed.

(** An entry is replaced by one that covers nothing new, or nothing that
    others cover. *)
Lemma put_area_ok vs i v v' :
  vmas_ok vs → vs !! i = Some v → (vma_valid v' = true → vma_ok v') →
  (∀ a, covers v' a → covers v a ∨ ∀ x, ¬ maps vs a x) →
  vmas_ok (<[i := v']> vs) ∧
  ∀ a x, maps (<[i := v']> vs) a x ↔
    (covers v' a ∧ x = area_at v' a) ∨ (¬ covers v a ∧ maps vs a x).
Proof.
  intros Hok Hi Hv' Hsub. pose proof (lookup_lt_Some _ _ _ Hi) as Hlt.
  assert (Hlk : ∀ j w, <[i := v']> vs !! j = Some w →
    (j = i ∧ w = v') ∨ (j ≠ i ∧ vs !! j = Some w)).
  { intros j w. destruct (decide (j = i)) as [->|Hne].
    - rewrite list_lookup_insert_eq by done. intros [= <-]. by left.
    - rewrite list_lookup_insert_ne by done. by right. }
  assert (Hapart : ∀ j w a, j ≠ i → vs !! j = Some w → covers v' a → covers w a → False).
  { intros j w a Hne Hj Hc Hw. destruct (Hsub a Hc) as [Hv|Hn].
    - by apply Hne, (vs_disjoint _ Hok j i w v a).
    - apply (Hn (area_at w a)). by exists j, w. }
  split; [split|].
  - rewrite length_insert. apply Hok.
  - intros j w [[-> ->]|[_ Hj]]%Hlk; [done|by eapply (vs_each _ Hok)].
  - intros j1 j2 w1 w2 a [[-> ->]|[Hn1 H1]]%Hlk [[-> ->]|[Hn2 H2]]%Hlk C1 C2; [done|..].
    + by destruct (Hapart j2 w2 a).
    + by destruct (Hapart j1 w1 a).
    + by eapply (vs_disjoint _ Hok).
  - intros a x. split.
    + intros (j&w&[[-> ->]|[Hne Hj]]%Hlk&Hc&->); [by left|right].
      split; [|by exists j, w]. intros Hv. by apply Hne, (vs_disjoint _ Hok j i w v a).
    + intros [[Hc ->]|[Hnv (j&w&Hj&Hc&->)]].
      * exists i, v'. by rewrite list_lookup_insert_eq.
      * exists j, w. rewrite list_lookup_insert_ne; [done|]. intros ->. by simplify_eq.
Qed.

Lemma not_valid_covers v a : vma_valid v = false → ¬ covers v a.
Proof. intros Hv [Hv' _]. congruence. Qed.

(** Part of an entry is left. *)
Lemma narrow_ok vs i v v' :
  vmas_ok vs → vs !! i = Some v → (vma_valid v' = true → vma_ok v') →
  (∀ a, covers v' a → covers v a ∧ area_at v' a = area_at v a) →
  vmas_ok (<[i := v']> vs) ∧
  ∀ a x, maps (<[i := v']> vs) a x ↔ maps vs a x ∧ (covers v a → covers v' a).
Proof.
  intros Hok Hi Hv' Hsub. destruct (put_area_ok vs i v v') as [Hok' Hm]; [done|done|done| |].
  { intros a Hc. left. by apply Hsub. }
  split; [done|]. intros a x. rewrite Hm. split.
  - intros [[Hc ->]|[Hn Hx]]; [|tauto]. destruct (Hsub a Hc) as [Hc' ->].
    split; [by exists i, v|done].
  - intros [Hx Hc]. destruct (decide (covers v a)) as [Hv|Hv].
    + left. split; [by apply Hc|]. destruct (Hsub a (Hc Hv)) as [_ ->].
      apply (maps_fun vs a); [done|done|by exists i, v].
    + by right.
Qed.

(** A free entry is filled. *)
Lemma fill_ok vs i v v' :
  vmas_ok vs → vs !! i = Some v → vma_valid v = false → vma_ok v' →
  (∀ a x, covers v' a → ¬ maps vs a x) →
  vmas_ok (<[i := v']> vs) ∧
  ∀ a x, maps (<[i := v']> vs) a x ↔ (covers v' a ∧ x = area_at v' a) ∨ maps vs a x.
Proof.
  intros Hok Hi Hv Hv' Hfree. destruct (put_area_ok vs i v v') as [Hok' Hm]; [done|done|done| |].
  { intros a Hc. right. intros x. by apply Hfree. }
  split; [done|]. intros a x. rewrite Hm. pose proof (not_valid_covers v a Hv). tauto.
Qed.

Lemma advance_covers e v a : vma_start v ≤ e → covers (advance e v) a → covers v a ∧ e ≤ a.
Proof.
  intros He. unfold covers, advance. destruct (vma_is_anonymous v); cbn; intros (?&?&?); (split; [split|]); (done || lia).
Qed.
Lemma advance_fields e v : vma_valid (advance e v) = vma_valid v ∧ vma_start (advance e v) = e ∧
  vma_end (advance e v) = vma_end v ∧ vma_flags (advance e v) = vma_flags v ∧
  vma_is_anonymous (advance e v) = vma_is_anonymous v ∧ vma_file (advance e v) = vma_file v.
Proof. unfold advance. by destruct (vma_is_anonymous v) eqn:Ha; cbn; rewrite ?Ha. Qed.

Lemma u64_idem_add x y : u64 (u64 x + y) = u64 (x + y).
Proof. unfold u64. by rewrite Z.add_mod_idemp_l. Qed.

Lemma advance_area e v a : area_at (advance e v) a = area_at v a.
Proof.
  unfold area_at, advance. destruct (vma_is_anonymous v) eqn:Ha; cbn; rewrite Ha; [done|].
  f_equal. rewrite u64_idem_add. rewrite (Z.add_comm (vma_file_offset v)), <-Z.add_assoc, u64_idem_add.
  f_equal. lia.
Qed.
