(* ===== verification/MemAreas.v ===== *)
(** * The loops over the table of memory areas

    Unmapping, protecting, merging and searching: each finishes and does to the
    map from addresses to attributes what its name says. *)

From S2P Require Import Prelude Bits Ram Frames Vmm PageTable VmmUser MemCalls VmaSpec.

(** ** Files held by areas *)

Definition held (f : Z) (v : vma) : nat :=
  if vma_valid v && holds_file v && (vma_file v =? f) then 1%nat else 0%nat.
Definition holders (f : Z) (vs : list vma) : nat := sum_list (held f <$> vs).

(** A file has at least as many references as areas that hold it and [base]
    other holders, and fewer than [lim]. *)
Definition files_ok (base : Z → nat) (lim : Z) (vs : list vma) (fs : gmap Z mfile) : Prop :=
  ∀ f, (0 < base f + holders f vs)%nat →
    ∃ x, fs !! f = Some x ∧ Z.of_nat (base f + holders f vs) ≤ mf_refs x < lim.

Lemma holders_insert f vs i v v' : vs !! i = Some v →
  (holders f (<[i := v']> vs) + held f v = holders f vs + held f v')%nat.
Proof. apply (sum_list_insert (held f)). Qed.

Lemma files_ok_put base lim vs fs i v v' : vs !! i = Some v → (∀ f, (held f v' ≤ held f v)%nat) →
  files_ok base lim vs fs → files_ok base lim (<[i := v']> vs) fs.
Proof.
  intros Hi Hle Hok f Hf. pose proof (holders_insert f vs i v v' Hi) as He. pose proof (Hle f) as Hl.
  destruct (Hok f) as (x&Hx&Hr); [lia|]. exists x. split; [done|lia].
Qed.

Lemma held_invalid f v : vma_valid v = false → held f v = 0%nat.
Proof. unfold held. by intros ->. Qed.
Lemma held_no_file f v : holds_file v = false → held f v = 0%nat.
Proof. unfold held. intros ->. by rewrite andb_false_r. Qed.
Lemma held_same f v v' : vma_valid v' = vma_valid v → vma_is_anonymous v' = vma_is_anonymous v →
  vma_file v' = vma_file v → held f v' = held f v.
Proof. unfold held, holds_file. by intros -> -> ->. Qed.

Section areas.
Context {S : Type} `{FrameAlloc S} (base : Z → nat) (lim : Z) (Hlim : lim ≤ 2 ^ 31).
Implicit Types s : mem S.

(** Only areas and files change. *)
Definition areas_only s s' : Prop := s' = set_files (m_files s') (set_vmas (m_vmas s') s).

Lemma areas_only_refl s : areas_only s s.
Proof. by destruct s. Qed.
Lemma areas_only_trans s s' s'' : areas_only s s' → areas_only s' s'' → areas_only s s''.
Proof. unfold areas_only. intros -> ->. done. Qed.

Lemma wp_get_vma i v (Q : vma → mem S → Prop) s : m_vmas s !! i = Some v → Q v s → wp (get_vma i) Q s.
Proof. intros Hi HQ. unfold get_vma. apply wp_bind, wp_get. by eapply wp_deref. Qed.
Lemma wp_put_vma i v (Q : unit → mem S → Prop) s : Q () (set_vmas (<[i := v]> (m_vmas s)) s) → wp (put_vma i v) Q s.
Proof. apply wp_modify. Qed.

(** The file of an area that is about to go. *)
Lemma wp_close_held i v (Q : unit → mem S → Prop) s :
  m_vmas s !! i = Some v → vma_valid v = true → files_ok base lim (m_vmas s) (m_files s) →
  (∀ fs, files_ok base lim (<[i := set_vma_valid false v]> (m_vmas s)) fs → Q () (set_files fs s)) →
  wp (when (holds_file v) (close_file (vma_file v))) Q s.
Proof.
  intros Hi Hv Hok HQ. apply wp_when; intros Hh.
  2:{ replace s with (set_files (m_files s) s) by by destruct s. apply HQ.
      eapply files_ok_put; [done| |done]. intros f. rewrite held_invalid by done. lia. }
  set (f := vma_file v). assert (Hf1 : held f v = 1%nat) by (unfold held; by rewrite Hv, Hh, Z.eqb_refl).
  pose proof (sum_list_ge (held f) _ i v Hi) as Hge. fold (holders f (m_vmas s)) in Hge.
  destruct (Hok f) as (x&Hx&Hr); [lia|]. unfold close_file.
  destruct (f =? 0) eqn:Hf0; [unfold holds_file in Hh; fold f in Hh; by rewrite Hf0, andb_false_r in Hh|].
  apply wp_bind, wp_get, wp_bind. eapply wp_deref; [done|].
  rewrite i32_small by lia.
  assert (Hnew : ∀ fs, (∀ g, g ≠ f → fs !! g = m_files s !! g) →
    ((0 < base f + holders f (<[i := set_vma_valid false v]> (m_vmas s)))%nat → ∃ y, fs !! f = Some y ∧ mf_refs y = mf_refs x - 1) →
    files_ok base lim (<[i := set_vma_valid false v]> (m_vmas s)) fs).
  { intros fs Hne Heq g Hg. pose proof (holders_insert g _ i v (set_vma_valid false v) Hi) as Hc.
    rewrite (held_invalid g (set_vma_valid false v)) in Hc by done. destruct (decide (g = f)) as [->|Hgf].
    - destruct (Heq Hg) as (y&Hy&Hry). exists y. split; [done|]. lia.
    - rewrite Hne by done. destruct (Hok g) as (y&Hy&Hry); [lia|]. exists y. split; [done|lia]. }
  destruct (Z.eqb_spec (mf_refs x - 1) 0) as [Hz|Hz]; apply wp_modify, HQ, Hnew.
  - intros g Hg. by rewrite lookup_delete_ne.
  - pose proof (holders_insert f _ i v (set_vma_valid false v) Hi) as Hc.
    rewrite (held_invalid f (set_vma_valid false v)) in Hc by done. lia.
  - intros g Hg. by rewrite lookup_insert_ne.
  - intros _. eexists. split; [by rewrite lookup_insert_eq|done].
Qed.

(** ** Entries *)

Lemma insert_cases (vs : list vma) i v j w : <[i := v]> vs !! j = Some w →
  (j = i ∧ w = v) ∨ (j ≠ i ∧ vs !! j = Some w).
Proof.
  intros Hj. destruct (decide (j = i)) as [->|Hne]; [left|right].
  - pose proof (lookup_lt_Some _ _ _ Hj) as Hlt. rewrite length_insert in Hlt.
    rewrite list_lookup_insert_eq in Hj by done. by injection Hj as <-.
  - by rewrite list_lookup_insert_ne in Hj.
Qed.

Lemma seq_app_cons n (d rest : list nat) i : seq 0 n = d ++ i :: rest → i = length d ∧ (length d < n)%nat.
Proof.
  intros Hl. assert (Hi : seq 0 n !! length d = Some i) by (rewrite Hl; by apply list_lookup_middle).
  by apply lookup_seq in Hi.
Qed.

Lemma free_slot_Some vs j : free_slot vs = Some j → ∃ w, vs !! j = Some w ∧ vma_valid w = false.
Proof.
  unfold free_slot. intros ([k w]&Hf&->)%fmap_Some. apply list_find_Some in Hf as (Hl&Hn&_).
  exists w. split; [done|]. by destruct (vma_valid w).
Qed.
Lemma free_slot_exists vs j w : vs !! j = Some w → vma_valid w = false → ∃ k, free_slot vs = Some k.
Proof.
  intros Hj Hw. destruct (list_find_elem_of (λ v, negb (vma_valid v)) vs w) as [[k v] Hf].
  - by eapply list_elem_of_lookup_2.
  - by rewrite Hw.
  - exists k. unfold free_slot. by rewrite Hf.
Qed.

(** ** Unmapping *)

Lemma set_end_area e v a : area_at (set_vma_end e v) a = area_at v a.
Proof. done. Qed.

Section unmap.
Context (start stop : Z) (Hss : start < stop) (Hst : stop ≤ USER_END) (Hs0 : 0 ≤ start).
Context (Hps : page_ok start) (Hpe : page_ok stop).

Definition strictly_inside (v : vma) : Prop := vma_valid v = true ∧ vma_start v < start ∧ stop < vma_end v.

Record unmap_inv (s0 : mem S) (i : nat) s : Prop := {
  ui_rest : areas_only s0 s;
  ui_ok : vmas_ok (m_vmas s);
  ui_files : files_ok base lim (m_vmas s) (m_files s);
  ui_out : ∀ a x, ¬ (start ≤ a < stop) → maps (m_vmas s) a x ↔ maps (m_vmas s0) a x;
  ui_done : ∀ j v a, (j < i)%nat → m_vmas s !! j = Some v → covers v a → ¬ (start ≤ a < stop);
  ui_split : ∀ j v, (i ≤ j)%nat → m_vmas s !! j = Some v → strictly_inside v →
    holds_file v = false ∧ ∃ k w, m_vmas s !! k = Some w ∧ vma_valid w = false;
}.

(** The entry at [i] is cut down to what is outside the range. *)
Lemma unmap_narrow s0 i s v v' fs :
  unmap_inv s0 i s → m_vmas s !! i = Some v → (vma_valid v' = true → vma_ok v') →
  (∀ a, covers v' a ↔ covers v a ∧ ¬ (start ≤ a < stop)) → (∀ a, area_at v' a = area_at v a) →
  files_ok base lim (<[i := v']> (m_vmas s)) fs →
  unmap_inv s0 (Datatypes.S i) (set_files fs (set_vmas (<[i := v']> (m_vmas s)) s)).
Proof.
  intros [Hr Hok _ Hout Hdone Hsp] Hi Hv' Hc Ha Hfs.
  destruct (narrow_ok (m_vmas s) i v v') as [Hok' Hm]; [done..| |].
  { intros a Hca. split; [by apply Hc|done]. }
  pose proof (insert_cases (m_vmas s) i v') as Hlk.
  split; cbn.
  - by rewrite Hr.
  - done.
  - done.
  - intros a x Hn. rewrite Hm, <-Hout by done. split; [by intros []|]. intros Hx. split; [done|].
    intros Hca. by apply Hc.
  - intros j w a Hj [[-> ->]|[Hne Hw]]%Hlk Hca; [by apply Hc|]. eapply Hdone; [|done..]. lia.
  - intros j w Hj [[-> ->]|[Hne Hw]]%Hlk Hin; [lia|]. destruct (Hsp j w) as (Hh&k&u&Hk&Hu); [lia|done..|].
    split; [done|]. destruct (decide (k = i)) as [->|Hki].
    + exists i, v'. rewrite list_lookup_insert_eq by by eapply lookup_lt_Some. split; [done|].
      simplify_eq. destruct (vma_valid v') eqn:Hval; [|done].
      destruct (Hv' eq_refl) as [[? ?] _ _ _].
      destruct (proj1 (Hc (vma_start v'))) as [[? _] _]; [split; [done|lia]|congruence].
    + exists k, u. by rewrite list_lookup_insert_ne.
Qed.

(** The area at [i] contains the range and more on both sides. *)
Lemma unmap_split s0 i s v k w :
  unmap_inv s0 i s → m_vmas s !! i = Some v → strictly_inside v →
  m_vmas s !! k = Some w → vma_valid w = false →
  unmap_inv s0 (Datatypes.S i)
    (set_vmas (<[k := advance stop v]> (<[i := set_vma_end start v]> (m_vmas s))) s).
Proof.
  intros [Hr Hok Hfs Hout Hdone Hsp] Hi Hin Hk Hw. pose proof Hin as (Hv&Hlo&Hhi).
  destruct (vs_each _ Hok i v Hi Hv) as [[Hr0 Hr1] Hp0 Hp1 Hfl].
  assert (Hik : i ≠ k) by (intros ->; congruence).
  destruct (narrow_ok (m_vmas s) i v (set_vma_end start v)) as [Hok1 Hm1]; [done|done| | |].
  { intros _. split; cbn; try done. lia. }
  { intros a (_&Ha). cbn in Ha. split; [split; [done|lia]|done]. }
  set (vs1 := <[i := set_vma_end start v]> (m_vmas s)) in *.
  assert (Hk1 : vs1 !! k = Some w) by (unfold vs1; by rewrite list_lookup_insert_ne).
  destruct (advance_fields stop v) as (Hav&Has&Hae&Haf&_).
  assert (Hca : ∀ a, covers (advance stop v) a ↔ covers v a ∧ stop ≤ a).
  { intros a. unfold covers. rewrite Hav, Has, Hae. split; [intros (?&?&?)|intros ((?&?&?)&?)]; (split; [|lia]); [split; [done|lia]|done]. }
  destruct (fill_ok vs1 k w (advance stop v)) as [Hok2 Hm2]; [done|done|done| | |].
  { split; rewrite ?Has, ?Hae, ?Haf; try done. lia. }
  { intros a x [Hc Ha]%Hca Hx%Hm1. destruct (proj2 Hx Hc) as [_ Hb]. cbn in Hb. lia. }
  split; cbn.
  - by rewrite Hr.
  - done.
  - destruct (Hsp i v) as [Hh _]; [lia|done..|].
    apply files_ok_put with w; [done| |].
    + intros f. rewrite (held_no_file f (advance stop v)); [lia|].
      unfold holds_file in *. by destruct (advance_fields stop v) as (_&_&_&_&->&->).
    + by apply files_ok_put with v.
  - intros a x Hn. rewrite Hm2, Hm1, <-Hout, Hca by done. split.
    + intros [[[Hc _] ->]|[Hx _]]; [|done]. rewrite advance_area. by exists i, v.
    + intros Hx. destruct (decide (vma_valid v = true ∧ vma_start v ≤ a < vma_end v ∧ stop ≤ a)) as [(?&?&?)|Hc].
      * left. split; [by split|]. rewrite advance_area. apply (maps_fun (m_vmas s) a); [done|done|by exists i, v].
      * right. split; [done|]. intros [_ Hc']. split; [done|]. cbn.
        destruct (decide (stop ≤ a)); [by destruct Hc|lia].
  - intros j u a Hj [[-> ->]|[Hne [[-> ->]|[Hne' Hu]]%insert_cases]]%insert_cases Hc.
    + apply Hca in Hc as [_ Hc]. lia.
    + destruct Hc as [_ Hc]. cbn in Hc. lia.
    + eapply Hdone; [|done..]. lia.
  - intros j u Hj [[-> ->]|[Hne [[-> ->]|[Hne' Hu]]%insert_cases]]%insert_cases (Huv&Hul&Huh).
    + rewrite Has in Hul. lia.
    + cbn in *. lia.
    + destruct Hne'. apply (vs_disjoint _ Hok j i u v start); [done|done|split; [done|lia]..].
Qed.

Lemma wp_unmap_vma s0 i s : (i < VMA_MAX)%nat → unmap_inv s0 i s →
  wp (unmap_vma start stop i) (λ _, unmap_inv s0 (Datatypes.S i)) s.
Proof.
  intros Hi Hu. pose proof (ui_ok _ _ _ Hu) as Hok.
  destruct (lookup_lt_is_Some_2 (m_vmas s) i) as [v Hv]; [by rewrite (vs_length _ Hok)|].
  assert (Hfid : ∀ x : list vma, set_files (m_files s) (set_vmas x s) = set_vmas x s) by done.
  unfold unmap_vma. apply wp_bind. eapply wp_get_vma; [done|].
  assert (Hskip : (∀ a, covers v a → ¬ (start ≤ a < stop)) → unmap_inv s0 (Datatypes.S i) s).
  { intros Hn. destruct Hu as [? ? ? ? Hdone Hsp]. split; try done.
    - intros j w a Hj Hw Hc. destruct (decide (j = i)) as [->|]; [simplify_eq; by apply Hn|].
      eapply Hdone; [|done..]. lia.
    - intros j w Hj. apply Hsp. lia. }
  destruct (vma_valid v) eqn:Hval; cbn [negb]; [|apply wp_ret, Hskip; intros a [? _]; congruence].
  destruct (vs_each _ Hok i v Hv Hval) as [[Hr0 Hr1] Hp0 Hp1 Hfl].
  destruct (Z.leb_spec start (vma_start v)), (Z.leb_spec (vma_end v) stop); cbn [andb].
  - (* inside *)
    apply wp_bind. eapply wp_close_held; [done|done|apply Hu|]. intros fs Hfs. apply wp_put_vma. cbn.
    apply (unmap_narrow s0 i s v); try done. intros a. split; [by intros []|]. intros [[_ ?] []]. lia.
  - rewrite (proj2 (Z.ltb_ge (vma_start v) start)) by lia. cbn [andb].
    destruct (Z.ltb_spec (vma_start v) stop); cbn [andb]; [|apply wp_ret, Hskip; intros a [_ ?]; lia].
    rewrite (proj2 (Z.ltb_lt stop (vma_end v))) by lia. apply wp_put_vma. rewrite <-Hfid.
    destruct (advance_fields stop v) as (Hav&Has&Hae&Haf&Haa&Hafi).
    apply (unmap_narrow s0 i s v); [done|done| | | |].
    + intros _. split; rewrite ?Has, ?Hae, ?Haf; try done. lia.
    + intros a. unfold covers. rewrite Hav, Has, Hae. split; [intros (?&?&?)|intros ((?&?&?)&?)]; (split; [|lia]); [split; [done|lia]|done].
    + intros a. apply advance_area.
    + eapply files_ok_put; [done| |apply Hu]. intros f. by rewrite (held_same f v).
  - destruct (Z.ltb_spec (vma_start v) start); [|lia]. rewrite (proj2 (Z.ltb_ge stop (vma_end v))) by lia. cbn [andb].
    destruct (Z.ltb_spec start (vma_end v)); cbn [andb]; [|apply wp_ret, Hskip; intros a [_ ?]; lia].
    apply wp_put_vma. rewrite <-Hfid. apply (unmap_narrow s0 i s v); [done|done| | |done|].
    + intros _. split; cbn; try done. lia.
    + intros a. unfold covers. cbn. split; [intros (?&?&?)|intros ((?&?&?)&?)]; (split; [|lia]); [split; [done|lia]|done].
    + eapply files_ok_put; [done| |apply Hu]. intros f. by rewrite (held_same f v).
  - destruct (Z.ltb_spec (vma_start v) start); [|lia]. rewrite (proj2 (Z.ltb_lt stop (vma_end v))) by lia. cbn [andb].
    destruct (ui_split _ _ _ Hu i v) as (Hh&k0&w0&Hk0&Hw0); [lia|done|by split|].
    apply wp_bind, wp_put_vma, wp_bind, wp_get. cbn [m_vmas set_vmas].
    destruct (free_slot_exists (<[i := set_vma_end start v]> (m_vmas s)) k0 w0) as [k Hk];
      [by rewrite list_lookup_insert_ne by (intros ->; congruence)|done|].
    rewrite Hk. apply wp_put_vma. apply free_slot_Some in Hk as (w&Hk&Hw).
    assert (Hik : k ≠ i).
    { intros ->. rewrite list_lookup_insert_eq in Hk by by eapply lookup_lt_Some. injection Hk as <-. cbn in Hw. congruence. }
    rewrite list_lookup_insert_ne in Hk by done. by apply (unmap_split s0 i s v k w).
Qed.

(** The whole loop. *)
Lemma wp_unmap_vmas s :
  vmas_ok (m_vmas s) → files_ok base lim (m_vmas s) (m_files s) →
  (∀ j v, m_vmas s !! j = Some v → strictly_inside v →
    holds_file v = false ∧ ∃ k w, m_vmas s !! k = Some w ∧ vma_valid w = false) →
  wp (for_each (seq 0 VMA_MAX) (unmap_vma start stop)) (λ _ s',
    areas_only s s' ∧ vmas_ok (m_vmas s') ∧ files_ok base lim (m_vmas s') (m_files s') ∧
    ∀ a x, maps (m_vmas s') a x ↔ maps (m_vmas s) a x ∧ ¬ (start ≤ a < stop)) s.
Proof.
  intros Hok Hfs Hsp. apply (wp_for_each (λ d, unmap_inv s (length d))).
  - split; [apply areas_only_refl|done|done|done| |].
    + intros j v a Hj. cbn in Hj. lia.
    + intros j v _. apply Hsp.
  - intros d i rest s' Hl Hu. apply seq_app_cons in Hl as [-> Hlt]. rewrite length_app. cbn [length].
    rewrite Nat.add_1_r. by apply wp_unmap_vma.
  - intros s' [Hr Hok' Hfs' Hout Hdone _]. rewrite length_seq in Hdone. split_and!; [done..|].
    intros a x. split.
    + intros Hx. assert (Hn : ¬ (start ≤ a < stop)).
      { destruct Hx as (j&v&Hj&Hc&_). eapply Hdone; [|done..]. rewrite <-(vs_length _ Hok'). by eapply lookup_lt_Some. }
      split; [by apply Hout|done].
    + intros [Hx Hn]. by apply Hout.
Qed.
End unmap.

(** ** Protecting *)

Lemma free_from_length i vs : length (free_from i vs) = sum_list ((λ v, if vma_valid v then 0%nat else 1%nat) <$> vs).
Proof. revert i. induction vs as [|v vs IH]; intros i; csimpl; [done|]. destruct (vma_valid v); cbn; by rewrite IH. Qed.

Lemma free_from_elem i vs k : k ∈ free_from i vs → (i ≤ k)%nat ∧ ∃ w, vs !! (k - i)%nat = Some w ∧ vma_valid w = false.
Proof.
  revert i. induction vs as [|v vs IH]; intros i; cbn; [by intros ?%elem_of_nil|].
  assert (Hrec : k ∈ free_from (Datatypes.S i) vs → (i ≤ k)%nat ∧ ∃ w, (v :: vs) !! (k - i)%nat = Some w ∧ vma_valid w = false).
  { intros (Hle&w&Hw&Hv)%IH. split; [lia|]. exists w. split; [|done].
    by replace (k - i)%nat with (Datatypes.S (k - Datatypes.S i)) by lia. }
  destruct (vma_valid v) eqn:Hv; [done|]. intros [->|Hk]%elem_of_cons; [|by apply Hrec].
  split; [lia|]. exists v. by rewrite Nat.sub_diag.
Qed.

Lemma free_from_NoDup i vs : NoDup (free_from i vs).
Proof.
  revert i. induction vs as [|v vs IH]; intros i; cbn; [constructor|].
  destruct (vma_valid v); [done|]. constructor; [|done]. intros [Hle _]%free_from_elem. lia.
Qed.

Section protect.
Context (start stop prot vflags : Z) (Hss : start < stop) (Hst : stop ≤ USER_END) (Hs0 : 0 ≤ start).
Context (Hps : page_ok start) (Hpe : page_ok stop).
Context (Hfl : has (u32 vflags) VMM_PRESENT = true ∧ has (u32 vflags) VMM_USER = true).

Definition recolor (x : area) : area :=
  Area (u32 prot) (ar_mmap x) (ar_anonymous x) (ar_private x) (ar_file x) (ar_offset x) (u32 vflags).
(** The attributes of an address after the call. *)
Definition recolored (a : Z) (x : area) : area := if decide (start ≤ a < stop) then recolor x else x.

Abbreviation need := (slots_needed start stop).
Definition free_entries (vs : list vma) : nat := sum_list ((λ v, if vma_valid v then 0%nat else 1%nat) <$> vs).
Definition needed_entries (vs : list vma) : nat := sum_list (need <$> vs).

(** The area [v] at [i] has been recoloured, with [n] more entries. *)
Record recolored_at (i : nat) (v : vma) (n : nat) (vs vs' : list vma) : Prop := {
  ra_ok : vmas_ok vs';
  ra_maps : ∀ a x, maps vs' a x ↔
    (covers v a ∧ x = recolored a (area_at v a)) ∨ (¬ covers v a ∧ maps vs a x);
  ra_entries : ∀ j w, vs' !! j = Some w →
    (j ≠ i ∧ vs !! j = Some w) ∨ (need w = 0%nat ∧ ∀ a, covers w a → covers v a);
  ra_need : (needed_entries vs' + need v = needed_entries vs)%nat;
  ra_free : (free_entries vs' + n = free_entries vs)%nat;
}.

Lemma needed_entries_insert vs i v v' : vs !! i = Some v → (needed_entries (<[i := v']> vs) + need v = needed_entries vs + need v')%nat.
Proof. apply (sum_list_insert need). Qed.
Lemma free_entries_insert vs i v v' : vs !! i = Some v →
  (free_entries (<[i := v']> vs) + (if vma_valid v then 0 else 1) = free_entries vs + (if vma_valid v' then 0 else 1))%nat.
Proof. apply (sum_list_insert (λ v, if vma_valid v then 0%nat else 1%nat)). Qed.

(** A part of [v] stays in place. *)
Lemma recolor_keep i v vs v' :
  vmas_ok vs → vs !! i = Some v → vma_valid v' = vma_valid v → vma_ok v' → need v' = 0%nat →
  (∀ a, covers v' a → covers v a ∧ area_at v' a = recolored a (area_at v a)) →
  let vs' := <[i := v']> vs in
  vmas_ok vs' ∧ (needed_entries vs' + need v = needed_entries vs)%nat ∧ free_entries vs' = free_entries vs ∧
  ∀ a x, maps vs' a x ↔
    (covers v' a ∧ x = recolored a (area_at v a)) ∨ (¬ covers v a ∧ maps vs a x).
Proof.
  intros Hok Hi Hval Hv' Hn Hc vs'. destruct (put_area_ok vs i v v') as [Hok' Hm]; [done..| |].
  { intros a Ha. left. by apply Hc. }
  pose proof (needed_entries_insert vs i v v' Hi). pose proof (free_entries_insert vs i v v' Hi) as Hf.
  rewrite Hval in Hf. split_and!; [done|unfold vs'; lia|unfold vs'; lia|].
  intros a x. unfold vs'. rewrite Hm. split; (intros [[Ha ->]|?]; [left|by right]); (split; [done|]);
    destruct (Hc a Ha) as [_ ->]; done.
Qed.

(** Another part goes to the free entry [k]. *)
Lemma recolor_part k w vs vs1 v w' (P : Z → Prop) :
  vmas_ok vs1 → vs1 !! k = Some w → vma_valid w = false → vma_valid w' = true → vma_ok w' → need w' = 0%nat →
  (∀ a x, maps vs1 a x ↔ (P a ∧ x = recolored a (area_at v a)) ∨ (¬ covers v a ∧ maps vs a x)) →
  (∀ a, covers w' a → covers v a ∧ ¬ P a ∧ area_at w' a = recolored a (area_at v a)) →
  let vs2 := <[k := w']> vs1 in
  vmas_ok vs2 ∧ needed_entries vs2 = needed_entries vs1 ∧ (free_entries vs2 + 1 = free_entries vs1)%nat ∧
  ∀ a x, maps vs2 a x ↔
    ((P a ∨ covers w' a) ∧ x = recolored a (area_at v a)) ∨ (¬ covers v a ∧ maps vs a x).
Proof.
  intros Hok Hk Hw Hw1 Hw' Hn Hm1 Hc vs2. destruct (fill_ok vs1 k w w') as [Hok2 Hm2]; [done..| |].
  { intros a x Ha Hx%Hm1. destruct (Hc a Ha) as (?&?&_). tauto. }
  assert (Hneed : need w = 0%nat) by (unfold slots_needed; by rewrite Hw).
  pose proof (needed_entries_insert vs1 k w w' Hk). pose proof (free_entries_insert vs1 k w w' Hk) as Hf.
  rewrite Hw, Hw1 in Hf. split_and!; [done|unfold vs2; lia|unfold vs2; lia|].
  intros a x. unfold vs2. rewrite Hm2, Hm1. split.
  - intros [[Ha ->]|[[Ha ->]|?]]; [left|left|by right]; (split; [tauto|]); [|done]. by apply Hc.
  - intros [[[Ha|Ha] ->]|?]; [tauto| |tauto]. left. split; [done|]. symmetry. by apply Hc.
Qed.

Lemma recolor_idem x : recolor (recolor x) = recolor x.
Proof. done. Qed.

Record protect_inv (s0 : mem S) (i : nat) s : Prop := {
  pi_rest : areas_only s0 s;
  pi_ok : vmas_ok (m_vmas s);
  pi_files : files_ok base lim (m_vmas s) (m_files s);
  pi_out : ∀ a x, ¬ (start ≤ a < stop) → maps (m_vmas s) a x ↔ maps (m_vmas s0) a x;
  pi_in : ∀ a x, start ≤ a < stop →
    (∃ z, maps (m_vmas s) a z ∧ recolor z = x) ↔ (∃ y, maps (m_vmas s0) a y ∧ recolor y = x);
  pi_done : ∀ j v a, (j < i)%nat → m_vmas s !! j = Some v → covers v a → start ≤ a < stop →
    recolor (area_at v a) = area_at v a;
  pi_need : (needed_entries (m_vmas s) ≤ free_entries (m_vmas s))%nat;
  pi_nofile : ∀ j v, m_vmas s !! j = Some v → need v ≠ 0%nat → holds_file v = false;
}.

Lemma protect_step s0 i s v vs' :
  protect_inv s0 i s → m_vmas s !! i = Some v →
  recolored_at i v (need v) (m_vmas s) vs' → files_ok base lim vs' (m_files s) →
  protect_inv s0 (Datatypes.S i) (set_vmas vs' s).
Proof.
  intros [Hr Hok Hfs Hout Hin Hdone Hneed Hnf] Hi [Hok' Hm Hent Hn Hf] Hfs'.
  assert (Hv : ∀ a, covers v a → maps (m_vmas s) a (area_at v a)) by (intros a Ha; by exists i, v).
  split; cbn [m_vmas m_files set_vmas].
  - by rewrite Hr.
  - done.
  - done.
  - intros a x Ha. rewrite Hm, <-Hout by done. unfold recolored. rewrite decide_False by done. split.
    + intros [[Hc ->]|[_ Hx]]; [by apply Hv|done].
    + intros Hx. destruct (decide (vma_valid v = true ∧ vma_start v ≤ a < vma_end v)) as [Hc|Hc]; [left|by right].
      split; [done|]. by apply (maps_fun (m_vmas s) a); [|done|apply Hv].
  - intros a x Ha. rewrite <-Hin by done. split.
    + intros (z&[[Hc ->]|[_ Hz]]%Hm&<-); [|by exists z]. exists (area_at v a). split; [by apply Hv|].
      unfold recolored. by rewrite decide_True.
    + intros (z&Hz&<-). destruct (decide (vma_valid v = true ∧ vma_start v ≤ a < vma_end v)) as [Hc|Hc].
      * exists (recolor (area_at v a)). split.
        -- apply Hm. left. split; [done|]. unfold recolored. by rewrite decide_True.
        -- rewrite recolor_idem. f_equal. by apply (maps_fun (m_vmas s) a); [|apply Hv|].
      * exists z. split; [|done]. apply Hm. by right.
  - intros j w a Hj Hw Hc Ha. destruct (Hent j w Hw) as [[Hne Hw']|[_ Hsub]]; [apply (Hdone j); [lia|done..]|].
    assert (Hx : maps vs' a (area_at w a)) by by exists j, w.
    apply Hm in Hx as [[_ ->]|[Hn' _]]; [|by destruct Hn'; apply Hsub].
    unfold recolored. by rewrite decide_True.
  - lia.
  - intros j w Hw Hnw. destruct (Hent j w Hw) as [[_ Hw']|[? _]]; [by eapply Hnf|done].
Qed.

Ltac zcases := repeat match goal with
  | |- context [Z.leb ?x ?y] => destruct (Z.leb_spec x y)
  | |- context [Z.ltb ?x ?y] => destruct (Z.ltb_spec x y)
  end; cbn; try done; try lia.

Lemma need_apart v : vma_end v ≤ start ∨ stop ≤ vma_start v ∨ (start ≤ vma_start v ∧ vma_end v ≤ stop) → need v = 0%nat.
Proof. intros Hv. unfold slots_needed. destruct (vma_valid v); cbn; [|done]. zcases. Qed.

(** The four cases.  [v] is the area, [vs] the table. *)
Section cases.
Context (i : nat) (v : vma) (vs : list vma).
Context (Hok : vmas_ok vs) (Hi : vs !! i = Some v) (Hval : vma_valid v = true).

Lemma recolored_in a x : start ≤ a < stop → recolored a x = recolor x.
Proof. intros. unfold recolored. by rewrite decide_True. Qed.
Lemma recolored_out a x : ¬ (start ≤ a < stop) → recolored a x = x.
Proof. intros. unfold recolored. by rewrite decide_False. Qed.

Lemma protect_whole : start ≤ vma_start v → vma_end v ≤ stop →
  recolored_at i v (need v) vs (<[i := set_vma_prot prot vflags v]> vs).
Proof.
  intros Hlo Hhi. destruct (vs_each _ Hok i v Hi Hval) as [[Hr0 Hr1] Hp0 Hp1 _].
  assert (Hn : need v = 0%nat) by (apply need_apart; lia).
  assert (Hn' : need (set_vma_prot prot vflags v) = 0%nat) by (apply need_apart; cbn; lia).
  destruct (recolor_keep i v vs (set_vma_prot prot vflags v)) as (Hok'&Hne&Hfr&Hm); [done|done|done|by split|done| |].
  { intros a [_ Ha]. cbn in Ha. split; [by split|]. rewrite recolored_in by lia. done. }
  split; [done|exact Hm| |done|lia].
  intros j w [[-> ->]|?]%insert_cases; [right|by left]. by split.
Qed.

Lemma protect_left k w : vma_start v < start → start < vma_end v → vma_end v ≤ stop →
  vs !! k = Some w → vma_valid w = false →
  recolored_at i v (need v) vs
    (<[k := set_vma_prot prot vflags (advance start v)]> (<[i := set_vma_end start v]> vs)).
Proof.
  intros Hlo Hmid Hhi Hk Hw. destruct (vs_each _ Hok i v Hi Hval) as [[Hr0 Hr1] Hp0 Hp1 Hf].
  assert (Hik : i ≠ k) by (intros ->; congruence).
  destruct (advance_fields start v) as (Hav&Has&Hae&Haf&_).
  assert (Hn : need v = 1%nat) by (unfold slots_needed; rewrite Hval; cbn; zcases).
  destruct (recolor_keep i v vs (set_vma_end start v)) as (Hok1&Hne1&Hfr1&Hm1); [done|done|done| | | |].
  { split; cbn; try done. lia. }
  { apply need_apart. cbn. lia. }
  { intros a [_ Ha]. cbn in Ha. split; [split; [done|lia]|]. by rewrite recolored_out by lia. }
  destruct (recolor_part k w vs (<[i := set_vma_end start v]> vs) v (set_vma_prot prot vflags (advance start v))
    (covers (set_vma_end start v))) as (Hok2&Hne2&Hfr2&Hm2); [done| |done| | | |done| |].
  { by rewrite list_lookup_insert_ne. }
  { cbn. by rewrite Hav. }
  { split; cbn; rewrite ?Has, ?Hae; done || lia. }
  { apply need_apart. cbn. rewrite Has, Hae. lia. }
  { intros a [_ Ha]. cbn in Ha. rewrite Has, Hae in Ha. split_and!; [split; [done|lia]|intros [_ Hb]; cbn in Hb; lia|].
    rewrite recolored_in, <-(advance_area start v) by lia. done. }
  split; [done| | |lia|lia].
  - intros a x. rewrite Hm2. unfold covers. cbn. rewrite Hav, Has, Hae, Hval.
    assert (true = true ∧ vma_start v ≤ a < start ∨ true = true ∧ start ≤ a < vma_end v ↔
      true = true ∧ vma_start v ≤ a < vma_end v) as -> by (split; [intros [[? ?]|[? ?]]; (split; [done|lia])|];
        intros [_ ?]; destruct (decide (a < start)); [left|right]; (split; [done|lia])). done.
  - intros j u [[-> ->]|[_ [[-> ->]|[? Hu]]%insert_cases]]%insert_cases; [right|right|by left].
    + split; [apply need_apart; cbn; rewrite Has, Hae; lia|]. intros a [_ Ha]. cbn in Ha. rewrite Has, Hae in Ha. split; [done|lia].
    + split; [apply need_apart; cbn; lia|]. intros a [_ Ha]. cbn in Ha. split; [done|lia].
Qed.

(** The part before [stop], as [mprotect] computes it from the rest. *)
Definition front : vma :=
  let w := advance stop v in
  set_vma_prot prot vflags (set_vma_end stop (set_vma_start (vma_start v)
    (if vma_is_anonymous v then w else set_vma_offset (vma_file_offset w -! (stop -! vma_start v)) w))).

Lemma front_fields : vma_valid front = true ∧ vma_start front = vma_start v ∧ vma_end front = stop ∧
  vma_flags front = u32 vflags ∧ ∀ a, area_at front a = recolor (area_at v a).
Proof.
  unfold front, advance, area_at, recolor. destruct (vma_is_anonymous v) eqn:Ha; cbn; rewrite Ha; cbn; split_and!; try done.
  intros a. f_equal. set (d := u64 (stop - vma_start v)). rewrite u64_idem_add.
  replace (u64 (vma_file_offset v + d) - d + (a - vma_start v))
    with (u64 (vma_file_offset v + d) + (a - vma_start v - d)) by lia.
  rewrite u64_idem_add. f_equal. lia.
Qed.

Lemma protect_right k w : start ≤ vma_start v → vma_start v < stop → stop < vma_end v →
  vs !! k = Some w → vma_valid w = false →
  recolored_at i v (need v) vs (<[k := front]> (<[i := advance stop v]> vs)).
Proof.
  intros Hlo Hmid Hhi Hk Hw. destruct (vs_each _ Hok i v Hi Hval) as [[Hr0 Hr1] Hp0 Hp1 Hf].
  assert (Hik : i ≠ k) by (intros ->; congruence).
  destruct (advance_fields stop v) as (Hav&Has&Hae&Haf&_).
  destruct front_fields as (Hfv&Hfs&Hfe&Hff&Hfa).
  assert (Hn : need v = 1%nat) by (unfold slots_needed; rewrite Hval; cbn; zcases).
  assert (Hc1 : ∀ a, covers (advance stop v) a ↔ stop ≤ a < vma_end v)
    by (intros a; unfold covers; rewrite Hav, Has, Hae; tauto).
  assert (Hc2 : ∀ a, covers front a ↔ vma_start v ≤ a < stop)
    by (intros a; unfold covers; rewrite Hfv, Hfs, Hfe; tauto).
  assert (Hcv : ∀ a, covers v a ↔ vma_start v ≤ a < vma_end v) by (intros a; unfold covers; tauto).
  destruct (recolor_keep i v vs (advance stop v)) as (Hok1&Hne1&Hfr1&Hm1); [done|done|by rewrite Hav| | | |].
  { split; rewrite ?Has, ?Hae, ?Haf; done || lia. }
  { apply need_apart. lia. }
  { intros a Ha%Hc1. rewrite Hcv, recolored_out, advance_area by lia. split; [lia|done]. }
  destruct (recolor_part k w vs (<[i := advance stop v]> vs) v front (covers (advance stop v)))
    as (Hok2&Hne2&Hfr2&Hm2); [done| |done|done| | |done| |].
  { by rewrite list_lookup_insert_ne. }
  { split; rewrite ?Hfs, ?Hfe, ?Hff; done || lia. }
  { apply need_apart. lia. }
  { intros a Ha%Hc2. rewrite Hcv, Hc1, recolored_in, Hfa by lia. split; [lia|]. split; [lia|done]. }
  split; [done| | |lia|lia].
  - intros a x. rewrite Hm2, Hc1, Hc2, Hcv.
    assert (stop ≤ a < vma_end v ∨ vma_start v ≤ a < stop ↔ vma_start v ≤ a < vma_end v) as -> by lia. done.
  - intros j u [[-> ->]|[_ [[-> ->]|[? Hu]]%insert_cases]]%insert_cases; [right|right|by left].
    + split; [apply need_apart; lia|]. intros a Ha%Hc2. apply Hcv. lia.
    + split; [apply need_apart; lia|]. intros a Ha%Hc1. apply Hcv. lia.
Qed.

Lemma protect_middle k w k' w' : vma_start v < start → stop < vma_end v →
  vs !! k = Some w → vma_valid w = false → vs !! k' = Some w' → vma_valid w' = false → k ≠ k' →
  recolored_at i v (need v) vs
    (<[k' := advance stop v]> (<[k := set_vma_prot prot vflags (set_vma_end stop (advance start v))]>
      (<[i := set_vma_end start v]> vs))).
Proof.
  intros Hlo Hhi Hk Hw Hk' Hw' Hkk. destruct (vs_each _ Hok i v Hi Hval) as [[Hr0 Hr1] Hp0 Hp1 Hf].
  assert (Hik : i ≠ k) by (intros ->; congruence). assert (Hik' : i ≠ k') by (intros ->; congruence).
  destruct (advance_fields start v) as (Hav&Has&Hae&Haf&_).
  destruct (advance_fields stop v) as (Hav'&Has'&Hae'&Haf'&_).
  assert (Hn : need v = 2%nat) by (unfold slots_needed; rewrite Hval; cbn; zcases).
  set (v1 := set_vma_end start v). set (v2 := set_vma_prot prot vflags (set_vma_end stop (advance start v))).
  set (v3 := advance stop v).
  assert (Hc1 : ∀ a, covers v1 a ↔ vma_start v ≤ a < start) by (intros a; unfold covers, v1; cbn; tauto).
  assert (Hc2 : ∀ a, covers v2 a ↔ start ≤ a < stop)
    by (intros a; unfold covers, v2; cbn; rewrite Hav, Has; tauto).
  assert (Hc3 : ∀ a, covers v3 a ↔ stop ≤ a < vma_end v)
    by (intros a; unfold covers, v3; rewrite Hav', Has', Hae'; tauto).
  assert (Hcv : ∀ a, covers v a ↔ vma_start v ≤ a < vma_end v) by (intros a; unfold covers; tauto).
  destruct (recolor_keep i v vs v1) as (Hok1&Hne1&Hfr1&Hm1); [done|done|done| | | |].
  { split; cbn; done || lia. }
  { apply need_apart. cbn. lia. }
  { intros a Ha%Hc1. rewrite Hcv, recolored_out by lia. split; [lia|done]. }
  destruct (recolor_part k w vs (<[i := v1]> vs) v v2 (covers v1)) as (Hok2&Hne2&Hfr2&Hm2); [done| |done| | | |done| |].
  { by rewrite list_lookup_insert_ne. }
  { cbn. by rewrite Hav. }
  { split; cbn; rewrite ?Has; done || lia. }
  { apply need_apart. cbn. rewrite Has. lia. }
  { intros a Ha%Hc2. rewrite Hcv, Hc1, recolored_in, <-(advance_area start v) by lia. split; [lia|]. split; [lia|done]. }
  destruct (recolor_part k' w' vs (<[k := v2]> (<[i := v1]> vs)) v v3 (λ a, covers v1 a ∨ covers v2 a))
    as (Hok3&Hne3&Hfr3&Hm3); [done| |done| | | |done| |].
  { by rewrite !list_lookup_insert_ne. }
  { unfold v3. by rewrite Hav'. }
  { unfold v3. split; rewrite ?Has', ?Hae', ?Haf'; done || lia. }
  { apply need_apart. unfold v3. lia. }
  { intros a Ha%Hc3. unfold v3. rewrite Hcv, Hc1, Hc2, recolored_out, advance_area by lia. split; [lia|]. split; [lia|done]. }
  split; [done| | |lia|lia].
  - intros a x. rewrite Hm3, Hc1, Hc2, Hc3, Hcv.
    assert ((vma_start v ≤ a < start ∨ start ≤ a < stop) ∨ stop ≤ a < vma_end v ↔ vma_start v ≤ a < vma_end v) as -> by lia. done.
  - intros j u [[-> ->]|[_ [[-> ->]|[_ [[-> ->]|[? Hu]]%insert_cases]]%insert_cases]]%insert_cases; [right..|by left].
    + split; [apply need_apart; unfold v3; lia|]. intros a Ha%Hc3. apply Hcv. lia.
    + split; [apply need_apart; cbn; rewrite Has; lia|]. intros a Ha%Hc2. apply Hcv. lia.
    + split; [apply need_apart; cbn; lia|]. intros a Ha%Hc1. apply Hcv. lia.
Qed.
End cases.

Lemma need_cases v : vma_valid v = true → vma_start v < vma_end v →
  need v = (if decide (vma_start v < start ∧ stop < vma_end v) then 2%nat
    else if decide (vma_start v < start ∧ start < vma_end v ∧ vma_end v ≤ stop ∨
                    start ≤ vma_start v ∧ vma_start v < stop ∧ stop < vma_end v) then 1%nat else 0%nat).
Proof.
  intros Hv Hr. unfold slots_needed. rewrite Hv. cbn. zcases; repeat case_decide; done || lia.
Qed.

(** The entries [mprotect] takes are free. *)
Lemma free_from_take vs n : (n ≤ free_entries vs)%nat →
  match n with
  | 0%nat => True
  | 1%nat => ∃ k l w, free_from 0 vs = k :: l ∧ vs !! k = Some w ∧ vma_valid w = false
  | _ => ∃ k k' l w w', free_from 0 vs = k :: k' :: l ∧ k ≠ k' ∧
      vs !! k = Some w ∧ vma_valid w = false ∧ vs !! k' = Some w' ∧ vma_valid w' = false
  end.
Proof.
  intros Hn. unfold free_entries in Hn. rewrite <-(free_from_length 0) in Hn.
  pose proof (free_from_elem 0 vs) as He. pose proof (free_from_NoDup 0 vs) as Hd.
  assert (Hlk : ∀ k, k ∈ free_from 0 vs → ∃ w, vs !! k = Some w ∧ vma_valid w = false).
  { intros k (_&w&Hw&Hv)%He. rewrite Nat.sub_0_r in Hw. by exists w. }
  destruct n as [|[|n]]; [done|..].
  - destruct (free_from 0 vs) as [|k l]; cbn in Hn; [lia|].
    destruct (Hlk k) as (w&?&?); [left|]. by exists k, l, w.
  - destruct (free_from 0 vs) as [|k [|k' l]]; cbn in Hn; [lia..|].
    destruct (Hlk k) as (w&?&?); [left|]. destruct (Hlk k') as (w'&?&?); [right; left|].
    apply NoDup_cons in Hd as [Hd _]. exists k, k', l, w, w'. split_and!; try done.
    intros ->. apply Hd. left.
Qed.

Lemma wp_protect_vma s0 i s : (i < VMA_MAX)%nat → protect_inv s0 i s →
  wp (protect_vma start stop prot vflags i) (λ _, protect_inv s0 (Datatypes.S i)) s.
Proof.
  intros Hi Hu. pose proof (pi_ok _ _ _ Hu) as Hok.
  destruct (lookup_lt_is_Some_2 (m_vmas s) i) as [v Hv]; [by rewrite (vs_length _ Hok)|].
  unfold protect_vma. apply wp_bind. eapply wp_get_vma; [done|]. apply wp_bind, wp_get.
  assert (Hskip : (∀ a, covers v a → ¬ (start ≤ a < stop)) → protect_inv s0 (Datatypes.S i) s).
  { intros Hn. destruct Hu as [? ? ? ? ? Hdone ? ?]. split; try done.
    intros j w a Hj Hw Hc Ha. destruct (decide (j = i)) as [->|]; [simplify_eq; by destruct (Hn a)|].
    apply (Hdone j); [lia|done..]. }
  destruct (vma_valid v) eqn:Hval; cbn [negb]; [|apply wp_ret, Hskip; intros a [? _]; congruence].
  destruct (vs_each _ Hok i v Hv Hval) as [[Hr0 Hr1] Hp0 Hp1 Hf].
  pose proof (need_cases v Hval ltac:(lia)) as Hnc.
  assert (Hfree : (need v ≤ free_entries (m_vmas s))%nat).
  { pose proof (sum_list_ge need _ i v Hv). pose proof (pi_need _ _ _ Hu). unfold needed_entries in *. lia. }
  apply free_from_take in Hfree.
  assert (Hnofile : need v ≠ 0%nat → ∀ f w, vma_is_anonymous w = vma_is_anonymous v → vma_file w = vma_file v → held f w = 0%nat).
  { intros Hn f w Ha Hfi. apply held_no_file. pose proof (pi_nofile _ _ _ Hu i v Hv Hn) as Hh.
    unfold holds_file in *. by rewrite Ha, Hfi. }
  destruct (advance_fields start v) as (_&_&_&_&Haa&Hafi). destruct (advance_fields stop v) as (_&_&_&_&Haa'&Hafi').
  destruct (Z.leb_spec start (vma_start v)), (Z.leb_spec (vma_end v) stop); cbn [andb].
  - apply wp_put_vma. eapply protect_step; [done|done|by apply protect_whole|].
    eapply files_ok_put; [done| |apply Hu]. intros f. by rewrite (held_same f v).
  - rewrite (proj2 (Z.ltb_ge (vma_start v) start)) by lia. cbn [andb].
    destruct (Z.ltb_spec (vma_start v) stop); cbn [andb]; [|apply wp_ret, Hskip; intros a [_ ?]; lia].
    rewrite (proj2 (Z.ltb_lt stop (vma_end v))) by lia. rewrite decide_False, decide_True in Hnc by lia.
    rewrite Hnc in Hfree, Hnofile. destruct Hfree as (k&l&w&->&Hk&Hw). apply wp_bind, wp_put_vma, wp_put_vma.
    assert (i ≠ k) by (intros ->; congruence).
    eapply (protect_step s0 i s v); [done|done|by apply (protect_right i v (m_vmas s) Hok Hv Hval k w)|].
    cbn [m_vmas set_vmas]. apply (files_ok_put _ _ _ _ k w); [by rewrite list_lookup_insert_ne| |].
    + intros f. rewrite Hnofile; [lia|done|..]; by destruct (vma_is_anonymous v).
    + apply (files_ok_put _ _ _ _ i v); [done| |apply Hu]. intros f. by rewrite Hnofile; [lia|..].
  - destruct (Z.ltb_spec (vma_start v) start); [|lia]. rewrite (proj2 (Z.ltb_ge stop (vma_end v))) by lia. cbn [andb].
    destruct (Z.ltb_spec start (vma_end v)); cbn [andb]; [|apply wp_ret, Hskip; intros a [_ ?]; lia].
    rewrite decide_False, decide_True in Hnc by lia.
    rewrite Hnc in Hfree, Hnofile. destruct Hfree as (k&l&w&->&Hk&Hw). apply wp_bind, wp_put_vma, wp_put_vma.
    assert (i ≠ k) by (intros ->; congruence).
    eapply (protect_step s0 i s v); [done|done|by apply (protect_left i v (m_vmas s) Hok Hv Hval k w)|].
    cbn [m_vmas set_vmas]. apply (files_ok_put _ _ _ _ k w); [by rewrite list_lookup_insert_ne| |].
    + intros f. by rewrite Hnofile; [lia|..].
    + apply (files_ok_put _ _ _ _ i v); [done| |apply Hu]. intros f. by rewrite Hnofile; [lia|..].
  - destruct (Z.ltb_spec (vma_start v) start); [|lia]. rewrite (proj2 (Z.ltb_lt stop (vma_end v))) by lia. cbn [andb].
    rewrite decide_True in Hnc by lia. rewrite Hnc in Hfree, Hnofile.
    destruct Hfree as (k&k'&l&w&w'&->&Hkk&Hk&Hw&Hk'&Hw'). apply wp_bind, wp_put_vma, wp_bind, wp_put_vma, wp_put_vma.
    assert (i ≠ k) by (intros ->; congruence). assert (i ≠ k') by (intros ->; congruence).
    eapply (protect_step s0 i s v); [done|done|by apply (protect_middle i v (m_vmas s) Hok Hv Hval k w k' w')|].
    cbn [m_vmas set_vmas]. apply (files_ok_put _ _ _ _ k' w'); [by rewrite !list_lookup_insert_ne| |].
    + intros f. by rewrite Hnofile; [lia|..].
    + apply (files_ok_put _ _ _ _ k w); [by rewrite list_lookup_insert_ne| |].
      * intros f. by rewrite Hnofile; [lia|..].
      * apply (files_ok_put _ _ _ _ i v); [done| |apply Hu]. intros f. by rewrite Hnofile; [lia|..].
Qed.

(** The whole loop. *)
Lemma wp_protect_vmas s :
  vmas_ok (m_vmas s) → files_ok base lim (m_vmas s) (m_files s) → (needed_entries (m_vmas s) ≤ free_entries (m_vmas s))%nat →
  (∀ j v, m_vmas s !! j = Some v → need v ≠ 0%nat → holds_file v = false) →
  wp (for_each (seq 0 VMA_MAX) (protect_vma start stop prot vflags)) (λ _ s',
    areas_only s s' ∧ vmas_ok (m_vmas s') ∧ files_ok base lim (m_vmas s') (m_files s') ∧
    ∀ a x, maps (m_vmas s') a x ↔ ∃ y, maps (m_vmas s) a y ∧ x = recolored a y) s.
Proof.
  intros Hok Hfs Hn Hnf. apply (wp_for_each (λ d, protect_inv s (length d))).
  - split; [apply areas_only_refl|done|done|done|done| |done|done]. intros j v a Hj. cbn in Hj. lia.
  - intros d i rest s' Hl Hu. apply seq_app_cons in Hl as [-> Hlt]. rewrite length_app. cbn [length].
    rewrite Nat.add_1_r. by apply wp_protect_vma.
  - intros s' [Hr Hok' Hfs' Hout Hin Hdone _ _]. rewrite length_seq in Hdone. split_and!; [done..|].
    intros a x. unfold recolored. destruct (decide (start ≤ a < stop)) as [Ha|Ha].
    + split.
      * intros Hx. destruct (proj1 (Hin a (recolor x) Ha)) as (y&Hy&Hxy); [by exists x|].
        exists y. split; [done|]. rewrite Hxy. destruct Hx as (j&v&Hj&Hc&->). symmetry. eapply Hdone; [|done..].
        rewrite <-(vs_length _ Hok'). by eapply lookup_lt_Some.
      * intros (y&Hy&->). destruct (proj2 (Hin a (recolor y) Ha)) as (x&Hx&<-); [by exists y|].
        destruct Hx as (j&v&Hj&Hc&->). rewrite (Hdone j v a); [by exists j, v| |done..].
        rewrite <-(vs_length _ Hok'). by eapply lookup_lt_Some.
    + rewrite Hout by done. split; [intros; by exists x|]. by intros (y&Hy&->).
Qed.
End protect.
End areas.
