(* ===== verification/MemMerge.v ===== *)
(** * Merging areas, and searching for room

    Merging changes the table but not what it maps, and ends since every merge
    frees an entry.  The search for a free range ends since it moves behind an
    area each time. *)

From S2P Require Import Prelude Bits Ram Frames Vmm PageTable VmmUser MemCalls VmaSpec MemAreas.

(** ** Which areas are merged *)

Lemma merge_partner_Some i v j0 vs j : merge_partner i v j0 vs = Some j →
  (j0 ≤ j)%nat ∧ i ≠ j ∧ ∃ w, vs !! (j - j0)%nat = Some w ∧ vma_valid w = true ∧ can_merge v w = true.
Proof.
  revert j0. induction vs as [|w vs IH]; intros j0; cbn; [done|].
  destruct (bool_decide (i = j0) || negb (vma_valid w) || negb (can_merge v w)) eqn:Hb.
  - intros (Hle&Hne&u&Hu&?)%IH. split_and!; [lia|done|]. exists u. split; [|done].
    by replace (j - j0)%nat with (Datatypes.S (j - Datatypes.S j0)) by lia.
  - intros [= <-]. rewrite !orb_false_iff, !negb_false_iff, bool_decide_eq_false in Hb. destruct Hb as [[? ?] ?].
    split_and!; [lia|done|]. exists w. by rewrite Nat.sub_diag.
Qed.

Lemma merge_pair_Some all i0 vs i j : merge_pair all i0 vs = Some (i, j) →
  (i0 ≤ i)%nat ∧ ∃ v, vs !! (i - i0)%nat = Some v ∧ vma_valid v = true ∧ merge_partner i v 0 all = Some j.
Proof.
  revert i0. induction vs as [|v vs IH]; intros i0; cbn; [done|].
  assert (Hrec : merge_pair all (Datatypes.S i0) vs = Some (i, j) → (i0 ≤ i)%nat ∧
    ∃ u, (v :: vs) !! (i - i0)%nat = Some u ∧ vma_valid u = true ∧ merge_partner i u 0 all = Some j).
  { intros (Hle&u&Hu&?)%IH. split; [lia|]. exists u. split; [|done].
    by replace (i - i0)%nat with (Datatypes.S (i - Datatypes.S i0)) by lia. }
  destruct (vma_valid v) eqn:Hv; [|done]. destruct (merge_partner i0 v 0 all) as [k|] eqn:Hp; [|done].
  intros [= <- <-]. split; [lia|]. exists v. by rewrite Nat.sub_diag.
Qed.

Lemma merge_pair_spec vs i j : merge_pair vs 0 vs = Some (i, j) →
  i ≠ j ∧ ∃ v w, vs !! i = Some v ∧ vs !! j = Some w ∧
    vma_valid v = true ∧ vma_valid w = true ∧ can_merge v w = true.
Proof.
  intros (_&v&Hv&Hvv&Hp)%merge_pair_Some. apply merge_partner_Some in Hp as (_&Hne&w&Hw&Hvw&Hc).
  rewrite Nat.sub_0_r in *. split; [done|]. by exists v, w.
Qed.

Lemma can_merge_spec v w : can_merge v w = true →
  vma_end v = vma_start w ∧ (∀ a, area_at w a = area_at v a) ∧ vma_flags v = vma_flags w.
Proof.
  unfold can_merge. rewrite !andb_true_iff, !Z.eqb_eq, !eqb_true_iff. intros (((((((He&Hp)&Hm)&Ha)&Hpr)&Hf)&Hfl)&Ho).
  split_and!; [done| |done]. intros a. unfold area_at. rewrite Hp, Hm, Ha, Hpr, Hf, Hfl. f_equal.
  rewrite Ha in Ho. destruct (vma_is_anonymous w); [done|]. cbn in Ho. apply Z.eqb_eq in Ho. rewrite <-Ho, <-He.
  rewrite u64_idem_add, (Z.add_comm (vma_file_offset v)), <-Z.add_assoc, u64_idem_add. f_equal. lia.
Qed.

Definition n_valid (vs : list vma) : nat := sum_list ((λ v, if vma_valid v then 1%nat else 0%nat) <$> vs).

Lemma n_valid_insert vs i v v' : vs !! i = Some v →
  (n_valid (<[i := v']> vs) + (if vma_valid v then 1 else 0) = n_valid vs + (if vma_valid v' then 1 else 0))%nat.
Proof. apply (sum_list_insert (λ v, if vma_valid v then 1%nat else 0%nat)). Qed.

Lemma n_valid_length vs : (n_valid vs ≤ length vs)%nat.
Proof. unfold n_valid. induction vs as [|v vs IH]; csimpl; [lia|]. destruct (vma_valid v); lia. Qed.

(** Two adjacent areas become one. *)
Lemma merge_ok vs i j v w :
  vmas_ok vs → i ≠ j → vs !! i = Some v → vs !! j = Some w → vma_valid v = true → vma_valid w = true →
  can_merge v w = true →
  let vs' := <[j := set_vma_valid false w]> (<[i := set_vma_end (vma_end w) v]> vs) in
  vmas_ok vs' ∧ (n_valid vs' + 1 = n_valid vs)%nat ∧ ∀ a x, maps vs' a x ↔ maps vs a x.
Proof.
  intros Hok Hij Hi Hj Hv Hw (He&Ha&Hfl)%can_merge_spec vs'.
  destruct (vs_each _ Hok i v Hi Hv) as [[Hr0 Hr1] Hp0 Hp1 Hf].
  destruct (vs_each _ Hok j w Hj Hw) as [[Hs0 Hs1] Hq0 Hq1 _].
  destruct (narrow_ok vs j w (set_vma_valid false w)) as [Hok1 Hm1]; [done|done|done|by intros a []|].
  set (vs1 := <[j := set_vma_valid false w]> vs) in *.
  assert (Hi1 : vs1 !! i = Some v) by (unfold vs1; by rewrite list_lookup_insert_ne).
  assert (Hvs' : vs' = <[i := set_vma_end (vma_end w) v]> vs1) by (unfold vs', vs1; by apply list_insert_insert_ne).
  assert (Hc : ∀ a, covers (set_vma_end (vma_end w) v) a ↔ covers v a ∨ covers w a).
  { intros a. unfold covers. cbn. rewrite Hv, Hw. lia. }
  destruct (put_area_ok vs1 i v (set_vma_end (vma_end w) v)) as [Hok2 Hm2]; [done|done| | |].
  { intros _. split; cbn; done || lia. }
  { intros a [?|Hcw]%Hc; [by left|right]. intros x [_ Hn]%Hm1. by destruct (Hn Hcw). }
  rewrite <-Hvs' in Hok2, Hm2. split; [done|]. split.
  - pose proof (n_valid_insert (<[i := set_vma_end (vma_end w) v]> vs) j w (set_vma_valid false w)) as Hn1.
    rewrite list_lookup_insert_ne in Hn1 by done. specialize (Hn1 Hj).
    pose proof (n_valid_insert vs i v (set_vma_end (vma_end w) v) Hi) as Hn2.
    cbn [vma_valid set_vma_valid set_vma_end] in Hn1, Hn2. rewrite Hw in Hn1. rewrite Hv in Hn2. unfold vs'. lia.
  - intros a x. rewrite Hm2, Hc, Hm1. change (area_at (set_vma_end (vma_end w) v) a) with (area_at v a). split.
    + intros [[[Hcv|Hcw] ->]|[_ [Hx _]]]; [by exists i, v| |done]. rewrite <-Ha. by exists j, w.
    + intros Hx. destruct (decide (vma_start v ≤ a < vma_end w)) as [Hin|Hout].
      * left. assert (Hcase : covers v a ∨ covers w a) by (unfold covers; rewrite Hv, Hw; lia). split; [done|].
        destruct Hcase as [Hcv|Hcw]; apply (maps_fun vs a); [done|done|by exists i, v|done|done|].
        rewrite <-Ha. by exists j, w.
      * right. split; [unfold covers; lia|]. split; [done|]. intros [_ ?]. lia.
Qed.

(** ** Measures and alignment *)

Lemma sum_list_lt {A} (g h : A → nat) (l : list A) i x : l !! i = Some x →
  (∀ y, (g y ≤ h y)%nat) → (g x < h x)%nat → (sum_list (g <$> l) < sum_list (h <$> l))%nat.
Proof.
  intros Hi Hle Hx. assert (Hsum : ∀ k : list A, (sum_list (g <$> k) ≤ sum_list (h <$> k))%nat).
  { intros k. induction k as [|y k IH]; csimpl; [lia|]. specialize (Hle y). lia. }
  revert i Hi. induction l as [|y l IH]; intros [|i] Hi; csimpl in *; try done.
  - injection Hi as ->. specialize (Hsum l). lia.
  - specialize (IH i Hi). specialize (Hle y). lia.
Qed.

(** The areas that end behind [addr]. *)
Definition behind (addr : Z) (vs : list vma) : nat :=
  sum_list ((λ v, if vma_valid v && (addr <? vma_end v) then 1%nat else 0%nat) <$> vs).

Lemma behind_valid addr vs : (behind addr vs ≤ n_valid vs)%nat.
Proof.
  unfold behind, n_valid. induction vs as [|v vs IH]; csimpl; [lia|].
  destruct (vma_valid v), (addr <? vma_end v); cbn; lia.
Qed.
Lemma behind_lt addr addr' vs i v : vs !! i = Some v → vma_valid v = true → addr < vma_end v → vma_end v ≤ addr' →
  (behind addr' vs < behind addr vs)%nat.
Proof.
  intros Hi Hv He Ha. eapply sum_list_lt; [done|..].
  - intros w. destruct (vma_valid w); [|done]. destruct (Z.ltb_spec addr' (vma_end w)), (Z.ltb_spec addr (vma_end w)); cbn; lia.
  - rewrite Hv. destruct (Z.ltb_spec addr' (vma_end v)), (Z.ltb_spec addr (vma_end v)); cbn; lia.
Qed.

Lemma page_align_up_eq x : 0 ≤ x ≤ 2 ^ 64 - 4096 → page_align_up x = (x + 4095) / 4096 * 4096.
Proof.
  intros Hx. unfold page_align_up. change 0xfff with (2 ^ 12 - 1). rewrite u64_small by lia.
  by rewrite land_align_mask by lia.
Qed.
Lemma page_align_up_ok x : page_ok x → 0 ≤ x ≤ 2 ^ 64 - 4096 → page_align_up x = x.
Proof.
  intros Hp Hx. rewrite page_align_up_eq by done. unfold page_ok, PAGE_SIZE in Hp. pose proof (Z.div_mod x 4096 ltac:(lia)).
  rewrite <-(Z.div_unique (x + 4095) 4096 (x / 4096) 4095); lia.
Qed.
Lemma page_ok_add x y : page_ok x → page_ok y → page_ok (x + y).
Proof. unfold page_ok. intros Hx Hy. by rewrite Z.add_mod, Hx, Hy. Qed.

Section merge.
Context {S : Type} `{FrameAlloc S} (base : Z → nat) (lim : Z) (Hlim : lim ≤ 2 ^ 31).
Implicit Types s : mem S.

Lemma wp_merge_loop fuel s :
  vmas_ok (m_vmas s) → files_ok base lim (m_vmas s) (m_files s) → (n_valid (m_vmas s) ≤ fuel)%nat →
  wp (merge_loop fuel) (λ _ s', areas_only s s' ∧ vmas_ok (m_vmas s') ∧ files_ok base lim (m_vmas s') (m_files s') ∧
    ∀ a x, maps (m_vmas s') a x ↔ maps (m_vmas s) a x) s.
Proof.
  revert s. induction fuel as [|fuel IH]; intros s Hok Hfs Hn; cbn [merge_loop]; apply wp_bind, wp_get.
  all: destruct (merge_pair (m_vmas s) 0 (m_vmas s)) as [[i j]|] eqn:Hp;
    [|apply wp_ret; split; [apply areas_only_refl|done]].
  all: apply merge_pair_spec in Hp as (Hij&v&w&Hi&Hj&Hv&Hw&Hc).
  { pose proof (sum_list_ge (λ v, if vma_valid v then 1%nat else 0%nat) _ i v Hi) as Hge. cbn in Hge.
    rewrite Hv in Hge. unfold n_valid in Hn. lia. }
  destruct (merge_ok (m_vmas s) i j v w) as (Hok'&Hn'&Hm); [done..|].
  apply wp_bind. eapply wp_get_vma; [done|]. apply wp_bind. eapply wp_get_vma; [done|].
  apply wp_bind, wp_put_vma, wp_bind.
  set (s1 := set_vmas (<[i := set_vma_end (vma_end w) v]> (m_vmas s)) s).
  assert (Hj1 : m_vmas s1 !! j = Some w) by (cbn; by rewrite list_lookup_insert_ne).
  eapply wp_close_held; [done|done|done| |].
  { eapply files_ok_put; [done| |done]. intros f. by rewrite (held_same f v). }
  intros fs Hfs'. apply wp_bind. eapply wp_get_vma; [done|]. apply wp_bind, wp_put_vma.
  eapply wp_mono; [apply IH; [done|done|cbn [m_vmas set_vmas set_files s1]; lia]|].
  intros [] s' (Hr&Hok2&Hfs2&Hm2). split_and!; [|done..|].
  - by rewrite Hr.
  - intros a x. rewrite Hm2. apply Hm.
Qed.

Lemma wp_vma_merge_adjacent s :
  vmas_ok (m_vmas s) → files_ok base lim (m_vmas s) (m_files s) →
  wp vma_merge_adjacent (λ _ s', areas_only s s' ∧ vmas_ok (m_vmas s') ∧ files_ok base lim (m_vmas s') (m_files s') ∧
    ∀ a x, maps (m_vmas s') a x ↔ maps (m_vmas s) a x) s.
Proof. intros Hok Hfs. apply wp_bind, wp_get, wp_merge_loop; [done..|]. apply n_valid_length. Qed.

End merge.

(** ** Room for a mapping *)

Section region.
Context {S : Type} `{FrameAlloc S}.
Implicit Types s : mem S.

Ltac mlia := unfold MMAP_TOP, MMAP_BASE, USER_END in *; lia.

(** A range without areas inside the arena of [mmap]. *)
Definition region_free (vs : list vma) (len r : Z) : Prop :=
  MMAP_BASE ≤ r ∧ page_ok r ∧ r + len ≤ MMAP_TOP ∧ ∀ a x, r ≤ a < r + len → ¬ maps vs a x.

Definition hint_ok (h : Z) : Prop := page_ok h ∧ 0 ≤ h < USER_END.

Definition region_post (len : Z) s (r : Z) s' : Prop :=
  (r = 0 ∧ s' = s) ∨ (region_free (m_vmas s) len r ∧ ∃ h, hint_ok h ∧ s' = set_hint h s).

Lemma vma_meets_true len addr v : vma_meets addr (addr + len) v = true →
  vma_valid v = true ∧ addr < vma_end v ∧ vma_start v < addr + len.
Proof. unfold vma_meets. rewrite !andb_true_iff, !Z.ltb_lt. tauto. Qed.

Lemma region_loop_ok fuel len start_addr addr (wrapped : bool) s :
  vmas_ok (m_vmas s) → 0 < len < 2 ^ 63 → page_ok len → MMAP_BASE ≤ addr ≤ USER_END → page_ok addr →
  ((if wrapped then 0 else Datatypes.S (n_valid (m_vmas s))) + behind addr (m_vmas s) < fuel)%nat →
  wp (region_loop fuel len start_addr addr wrapped) (region_post len s) s.
Proof.
  intros Hok Hlen Hpl. revert addr wrapped. induction fuel as [|fuel IH]; intros addr wrapped Ha Hpa Hf; [lia|].
  assert (Haddr : addr +! len = addr + len) by (apply u64_small; unfold USER_END, MMAP_BASE in Ha; lia).
  cbn [region_loop]. rewrite Haddr. destruct (Z.ltb_spec MMAP_TOP (addr + len)) as [Htop|Htop].
  { destruct wrapped; [apply wp_ret; by left|]. apply IH; [done|done|].
    pose proof (behind_valid MMAP_BASE (m_vmas s)). lia. }
  apply wp_bind, wp_get. destruct (list_find _ _) as [[i v]|] eqn:Hfind.
  - apply list_find_Some in Hfind as (Hi&Hov&_). apply Is_true_true in Hov.
    apply vma_meets_true in Hov as (Hv&He&Hs).
    destruct (vs_each _ Hok i v Hi Hv) as [[Hr0 Hr1] Hp0 Hp1 _].
    rewrite page_align_up_ok by (done || mlia).
    destruct (wrapped && (start_addr <=? vma_end v)); [apply wp_ret; by left|].
    apply IH; [lia|done|]. pose proof (behind_lt addr (vma_end v) _ i v Hi Hv He ltac:(lia)). destruct wrapped; lia.
  - apply wp_bind, wp_modify, wp_ret. right. split.
    + split_and!; [lia|done|lia|]. intros a x Hin (i&v&Hi&[Hv Hc]&_).
      eapply list_find_None, Forall_lookup_1 in Hfind; [|exact Hi]. apply Hfind, Is_true_true. unfold vma_meets.
      rewrite Hv. cbn. rewrite (proj2 (Z.ltb_lt addr _)), (proj2 (Z.ltb_lt (vma_start v) _)) by lia. done.
    + eexists _. split; [|done]. assert (Hnext : page_align_up ((addr + len) +! VMM_PAGE_SIZE) = addr + len + 4096).
      { unfold VMM_PAGE_SIZE. rewrite u64_small by mlia.
        apply page_align_up_ok; [|mlia].
        apply page_ok_add; [by apply page_ok_add|done]. }
      rewrite Hnext. destruct (Z.leb_spec MMAP_TOP (addr + len + 4096)); [done|].
      split; [|mlia].
      apply page_ok_add; [by apply page_ok_add|done].
Qed.

Lemma wp_vma_find_free_region hint len s :
  vmas_ok (m_vmas s) → 0 < len < 2 ^ 63 → page_ok len → 0 ≤ hint → hint + len < 2 ^ 64 → hint_ok (m_hint s) →
  wp (vma_find_free_region hint len) (region_post len s) s.
Proof.
  intros Hok Hlen Hpl Hh Hhl [Hph Hrh]. unfold vma_find_free_region. apply wp_bind, wp_get.
  rewrite page_align_up_ok by (done || lia).
  set (addr0 := if negb (hint =? 0) then page_align_down hint else m_hint s).
  assert (Hp0 : page_ok addr0 ∧ 0 ≤ addr0 ∧ addr0 + len < 2 ^ 64).
  { unfold addr0. destruct (negb _); [|unfold USER_END in Hrh; split; [done|lia]].
    unfold page_align_down. change 0xfff with (2 ^ 12 - 1). rewrite land_align_mask by lia.
    change (2 ^ 12) with 4096. pose proof (Z.mul_div_le hint 4096 ltac:(lia)). pose proof (Z.div_pos hint 4096 ltac:(lia) ltac:(lia)).
    split; [apply page_mul_ok|lia]. }
  set (addr := if (addr0 <? MMAP_BASE) || (MMAP_TOP <? addr0 +! len) then MMAP_BASE else addr0).
  assert (Haddr : MMAP_BASE ≤ addr ≤ USER_END ∧ page_ok addr).
  { unfold addr. destruct (Z.ltb_spec addr0 MMAP_BASE); [done|]. destruct (Z.ltb_spec MMAP_TOP (addr0 +! len)) as [?|Hle]; [done|].
    cbn. split; [|apply Hp0]. split; [done|]. rewrite u64_small in Hle by lia.
    mlia. }
  apply region_loop_ok; [done..|apply Haddr|apply Haddr|].
  pose proof (behind_valid addr (m_vmas s)). pose proof (n_valid_length (m_vmas s)). lia.
Qed.
End region.
