(* ===== verification/MemPages.v ===== *)
(** * The page tables behind the memory calls

    The user half of an address space, each frame mapped at one page.  Dropping,
    protecting, adding and moving pages keep it, and change the translations of
    exactly the pages named. *)

From S2P Require Import Prelude Bits Ram Frames Vmm PageTable VmmSpec VmmMap VmmUser MemCalls VmaSpec MemAreas MemMerge.

Section pages.
Context {S : Type} `{FrameAllocLaws S}.
Implicit Types s : vmm S.

Record mem_space s (space : address_space) (root : Z) : Prop := {
  ms_user : user_space s space root;
  ms_flag : ∀ va e, 0 ≤ va < USER_END → leaf (ram_of s) root va = Some e → has e VMM_USER = true;
  ms_inj : ∀ va vb e f, leaf (ram_of s) root va = Some e → leaf (ram_of s) root vb = Some f →
    has e VMM_USER = true → has f VMM_USER = true → entry_phys e = entry_phys f → va_path va = va_path vb;
}.

(** An entry for a frame that no other page maps. *)
Lemma mem_space_set s s' space root virt v :
  mem_space s space root → kept root s s' →
  (∀ va, leaf (ram_of s') root va =
     if decide (va_path virt = va_path va) then Some v else leaf (ram_of s) root va) →
  has v VMM_USER = true → user_frame s space root (entry_phys v) →
  (∀ va e, va_path virt ≠ va_path va → leaf (ram_of s) root va = Some e → has e VMM_USER = true →
     entry_phys e ≠ entry_phys v) →
  mem_space s' space root.
Proof.
  intros [Hus Hfl Hinj] Hk Hl Hv Hf Hne.
  assert (Hstep : page_step space root virt s s') by (eapply user_space_kept; done).
  split; [apply Hstep|..].
  - intros va e Hva. rewrite Hl. destruct (decide _); [by intros [= <-]|by apply Hfl].
  - intros va vb e f. rewrite !Hl. destruct (decide _) as [Ea|Ea], (decide _) as [Eb|Eb].
    + intros _ _ _ _ _. congruence.
    + intros [= <-] Hb _ Huf Heq. by destruct (Hne vb f Eb Hb Huf).
    + intros Ha [= <-] Hue _ Heq. by destruct (Hne va e Ea Ha Hue).
    + apply Hinj.
Qed.

(** An entry is cleared. *)
Lemma mem_space_clear s s' space root virt :
  mem_space s space root → kept root s s' →
  (∀ va, leaf (ram_of s') root va =
     if decide (va_path virt = va_path va) then None else leaf (ram_of s) root va) →
  mem_space s' space root.
Proof.
  intros [[Hi Hok Hr Hd] Hfl Hinj] Hk Hl.
  assert (Hsub : ∀ va e, leaf (ram_of s') root va = Some e → leaf (ram_of s) root va = Some e)
    by (intros va e; rewrite Hl; by destruct (decide _)).
  split; [split|..].
  - apply Hk.
  - apply Hk.
  - by apply (kp_space _ _ _ Hk).
  - intros va e He%Hsub Hu. destruct (Hd va e He Hu) as (Ho&Href&Hsp).
    split; [by apply (kp_other _ _ _ Hk)|]. rewrite (kp_refs _ _ _ Hk); [done|apply Ho].
  - intros va e Hva He%Hsub. by eapply Hfl.
  - intros va vb e f He%Hsub Hf%Hsub. by apply Hinj.
Qed.

(** A frame that no user page maps loses a reference. *)
Lemma mem_space_free s space root f :
  mem_space s space root → user_frame s space root f →
  (∀ va e, leaf (ram_of s) root va = Some e → has e VMM_USER = true → entry_phys e ≠ f) →
  wp (in_frames (fa_free f)) (λ _ s', mem_space s' space root ∧ ram_of s' = ram_of s ∧
    (∀ q, fa_used (frames s') q ↔ fa_used (frames s) q ∧ (q = f → fa_refs (frames s) f ≠ 1)) ∧
    (∀ q, fa_used (frames s) q → q ≠ f → fa_refs (frames s') q = fa_refs (frames s) q)) s.
Proof.
  intros [[Hi Hok Hr Hd] Hfl Hinj] ((Hfu&Hfp&Hfn)&Href&Hsp) Hnm.
  eapply wp_mono; [by apply wp_free|]. intros [] s' (Hi'&Hram&Hu&Hrefs&_&Hk&_&_).
  assert (Hkeep : ∀ q, fa_used (frames s) q → q ≠ f → fa_used (frames s') q) by (intros q Hq Hne; by apply Hu).
  assert (Hoth : ∀ q, other_frame s root q → q ≠ f → other_frame s' root q).
  { intros q (?&?&Hno) Hne. split; [by apply Hkeep|]. split; [done|]. by rewrite Hram. }
  split_and!; [split; [split|..]|done|done|].
  - done.
  - destruct Hok as [? Hin Huse]. split; [done|by rewrite Hram|].
    intros p t Hp. rewrite Hram. intros Ht. apply Hkeep; [by eapply Huse|]. intros ->. by apply (Hfn p).
  - destruct space as [|p]; simpl in *; [by rewrite Hk|].
    destruct Hr as [Hp Ho]. rewrite Hram. split; [done|]. apply Hoth; [done|congruence].
  - intros va e He Hus. rewrite Hram in He. destruct (Hd va e He Hus) as (Ho&Hge&Hne).
    pose proof (Hnm va e He Hus). split; [by apply Hoth|]. rewrite Hrefs, decide_False; [done|done|apply Ho].
  - intros va e Hva He. rewrite Hram in He. by eapply Hfl.
  - intros va vb e g He Hg. rewrite Hram in He, Hg. by apply Hinj.
  - intros q Hq Hne. rewrite Hrefs by done. by rewrite decide_False.
Qed.

(** ** Dropping pages *)

Record dropped (space : address_space) (root : Z) (pages : list Z) s s' : Prop := {
  dr_space : mem_space s' space root;
  dr_leaf : ∀ va, leaf (ram_of s') root va =
    if decide (va_path va ∈ va_path <$> pages) then None else leaf (ram_of s) root va;
  dr_mono : ∀ q, fa_used (frames s') q → fa_used (frames s) q;
  dr_keep : ∀ q, fa_used (frames s) q →
    (∀ p e, p ∈ pages → leaf (ram_of s) root p = Some e → entry_phys e ≠ q) →
    fa_used (frames s') q ∧ fa_refs (frames s') q = fa_refs (frames s) q;
  dr_free : ∀ p e, p ∈ pages → leaf (ram_of s) root p = Some e →
    fa_used (frames s') (entry_phys e) ↔ fa_refs (frames s) (entry_phys e) ≠ 1;
}.

Lemma dropped_none space root pages s : mem_space s space root →
  (∀ p, p ∈ pages → leaf (ram_of s) root p = None) → dropped space root pages s s.
Proof.
  intros Hs Hn. split; [done| |done|done|].
  - intros va. case_decide as Hin; [|done]. apply list_elem_of_fmap in Hin as (p&Hp&Hin).
    rewrite (leaf_path _ _ _ _ Hp). by apply Hn.
  - intros p e Hp He. by rewrite Hn in He.
Qed.

Lemma dropped_snoc space root pages p s s1 s2 :
  mem_space s space root → (∀ q, q ∈ pages ++ [p] → 0 ≤ q < USER_END) →
  dropped space root pages s s1 → dropped space root [p] s1 s2 → dropped space root (pages ++ [p]) s s2.
Proof.
  intros Hs Hrange [S1 L1 M1 K1 F1] [S2 L2 M2 K2 F2].
  assert (Hp1 : ∀ e, leaf (ram_of s1) root p = Some e → leaf (ram_of s) root p = Some e ∧ va_path p ∉ va_path <$> pages).
  { intros e. rewrite L1. by destruct (decide _). }
  assert (Hflag : ∀ q e, q ∈ pages ++ [p] → leaf (ram_of s) root q = Some e → has e VMM_USER = true)
    by (intros q e Hq; apply (ms_flag _ _ _ Hs); by apply Hrange).
  assert (Hpin : p ∈ pages ++ [p]) by (apply elem_of_app; right; by left).
  assert (Hin : ∀ q, q ∈ pages → q ∈ pages ++ [p]) by (intros q Hq; apply elem_of_app; by left).
  split; [done|..].
  - intros va. rewrite L2, L1, fmap_app. cbn [fmap list_fmap].
    destruct (decide (va_path va ∈ [va_path p])) as [Hp|Hp]; [rewrite decide_True; [done|apply elem_of_app; by right]|].
    destruct (decide (va_path va ∈ va_path <$> pages)) as [Hq|Hq]; [rewrite decide_True; [done|apply elem_of_app; by left]|].
    rewrite decide_False; [done|]. by intros [?|?]%elem_of_app.
  - intros q Hq. by apply M1, M2.
  - intros q Hq Hne. destruct (K1 q Hq) as [Hu1 Hr1]; [intros p' e Hp'; apply Hne; by apply Hin|].
    destruct (K2 q Hu1) as [Hu2 Hr2].
    + intros p' e ->%list_elem_of_singleton [He _]%Hp1. by apply (Hne p).
    + split; [done|congruence].
  - intros q e Hq He. destruct (decide (va_path q ∈ va_path <$> pages)) as [Hqp|Hqp].
    + (* dropped before *)
      apply list_elem_of_fmap in Hqp as (q'&Hpath&Hq').
      assert (He' : leaf (ram_of s) root q' = Some e) by by rewrite <-(leaf_path _ _ _ _ Hpath).
      rewrite <-(F1 q' e Hq' He'). split; [apply M2|]. intros Hu. apply (K2 _ Hu).
      intros p' e2 ->%list_elem_of_singleton [He2 Hnp]%Hp1 Heq. apply Hnp.
      rewrite <-(ms_inj _ _ _ Hs q' p e e2); [by apply list_elem_of_fmap_2|done|done| | |done].
      * eapply Hflag; [by apply Hin|done].
      * exact (Hflag p e2 Hpin He2).
    + assert (q = p) as ->.
      { apply elem_of_app in Hq as [Hq|Hq]; [by destruct Hqp; apply list_elem_of_fmap_2|by apply list_elem_of_singleton]. }
      assert (He1 : leaf (ram_of s1) root p = Some e) by by rewrite L1, decide_False.
      destruct (us_data _ _ _ (ms_user _ _ _ Hs) p e He (Hflag p e Hpin He)) as ((Hu&_)&_).
      destruct (K1 (entry_phys e) Hu) as [_ Hr].
      { intros p' e2 Hp' He2 Heq. apply Hqp. rewrite <-(ms_inj _ _ _ Hs p' p e2 e); [by apply list_elem_of_fmap_2|done|done|..|done].
        - eapply Hflag; [by apply Hin|done].
        - exact (Hflag p e Hpin He). }
      rewrite <-Hr. apply (F2 p); [by left|done].
Qed.

Definition only_vm (s s' : mem S) : Prop := s' = set_vm (m_vm s') s.

Lemma only_vm_refl (s : mem S) : only_vm s s.
Proof. by destruct s. Qed.
Lemma only_vm_trans (s s' s'' : mem S) : only_vm s s' → only_vm s' s'' → only_vm s s''.
Proof. unfold only_vm. intros -> ->. done. Qed.

Lemma wp_in_vm {A} (m : prog (vmm S) A) (Q : A → mem S → Prop) (s : mem S) :
  wp m (λ a v, Q a (set_vm v s)) (m_vm s) → wp (in_vm m) Q s.
Proof. apply wp_zoom. Qed.

Lemma translate_page r root va : page_ok va → translate r root va = entry_phys <$> leaf r root va.
Proof.
  intros Hp. unfold translate. destruct (leaf r root va); cbn; [|done]. unfold page_ok, PAGE_SIZE in Hp.
  by rewrite Hp, Z.add_0_r.
Qed.

Section space.
Context (space : address_space) (root : Z).

Lemma wp_drop_page (s : mem S) vaddr :
  m_space s = Some space → mem_space (m_vm s) space root → page_ok vaddr → 0 ≤ vaddr < USER_END →
  wp (drop_user_page vaddr) (λ _ t, only_vm s t ∧ dropped space root [vaddr] (m_vm s) (m_vm t)) s.
Proof.
  intros Hsp Hs Hp Hr. unfold drop_user_page. apply wp_bind, wp_get, wp_bind, wp_in_vm. rewrite Hsp.
  eapply wp_of_run; [by apply (vmm_virt_to_phys_run _ _ root), Hs|]. rewrite translate_page by done.
  destruct (leaf (ram_of (m_vm s)) root vaddr) as [e|] eqn:He; cbn.
  2:{ apply wp_ret. split; [by destruct s|]. apply dropped_none; [done|].
      by intros p ->%list_elem_of_singleton. }
  apply wp_bind, wp_in_vm. cbn. eapply wp_mono.
  { apply (wp_vmm_unmap (m_vm s) space root vaddr); [apply Hs..|done]. }
  unfold rewrite_post. rewrite He. intros rc v1 (_&Hk&_&[_ Hmono]&Hl).
  change (has 0 VMM_PRESENT) with false in Hl. cbn in Hl.
  pose proof (ms_flag _ _ _ Hs vaddr e Hr He) as Hue.
  assert (Hs1 : mem_space v1 space root) by by eapply mem_space_clear.
  destruct (us_data _ _ _ (ms_user _ _ _ Hs) vaddr e He Hue) as (Ho&Href&Hne).
  apply wp_in_vm. cbn. eapply wp_mono.
  { apply (mem_space_free v1 space root (entry_phys e)); [done| |].
    - split; [by apply (kp_other _ _ _ Hk)|]. rewrite (kp_refs _ _ _ Hk); [done|apply Ho].
    - intros va e' He' Hu' Heq. rewrite Hl in He'. destruct (decide _) as [|Hn]; [done|].
      by apply Hn, (ms_inj _ _ _ Hs vaddr va e e'). }
  intros [] v2 (Hs2&Hram&Hused&Hrefs). split; [done|]. cbn.
  split; [done|..].
  - intros va. rewrite Hram, Hl. destruct (decide (va_path vaddr = va_path va)) as [E|E].
    + rewrite decide_True; [done|]. cbn. rewrite <-E. by left.
    + rewrite decide_False; [done|]. cbn. intros E'%list_elem_of_singleton. congruence.
  - intros q [Hq _]%Hused. by apply Hmono.
  - intros q Hq Hn. assert (q ≠ entry_phys e) by (intros ->; by apply (Hn vaddr e); [left|..]).
    pose proof (kp_used _ _ _ Hk q Hq). split; [by apply Hused|].
    rewrite Hrefs by done. by apply (kp_refs _ _ _ Hk).
  - intros p e' ->%list_elem_of_singleton He'. rewrite He in He'. injection He' as <-. rewrite Hused.
    rewrite (kp_refs _ _ _ Hk) by apply Ho. split; [intros [_ Hx]; by apply Hx|]. intros Hx. split; [|done].
    apply (kp_used _ _ _ Hk), Ho.
Qed.

(** [n] pages from [vaddr] on. *)
Definition pages_from (vaddr : Z) (n : nat) : list Z := (λ i, vaddr + Z.of_nat i * VMM_PAGE_SIZE) <$> seq 0 n.

Lemma pages_from_elem vaddr n p : p ∈ pages_from vaddr n ↔ ∃ i, (i < n)%nat ∧ p = vaddr + Z.of_nat i * 4096.
Proof.
  unfold pages_from. rewrite list_elem_of_fmap. split.
  - intros (i&->&Hi). apply elem_of_seq in Hi. exists i. split; [lia|done].
  - intros (i&Hi&->). exists i. split; [done|]. apply elem_of_seq. lia.
Qed.

(** A loop over pages that only changes the page tables. *)
Lemma wp_page_loop (R : list Z → vmm S → vmm S → Prop) (body : Z → prog (mem S) unit) vaddr n (s : mem S) :
  (∀ v, mem_space v space root → R [] v v) →
  (∀ k p v v1 v2, (k < n)%nat → p = vaddr + Z.of_nat k * VMM_PAGE_SIZE → mem_space v space root →
     R (pages_from vaddr k) v v1 → R [p] v1 v2 → R (pages_from vaddr k ++ [p]) v v2) →
  (∀ k v v1, R (pages_from vaddr k) v v1 → mem_space v1 space root) →
  (∀ k (t : mem S), (k < n)%nat → m_space t = Some space → mem_space (m_vm t) space root →
     wp (body (vaddr + Z.of_nat k * VMM_PAGE_SIZE))
       (λ _ t', only_vm t t' ∧ R [vaddr + Z.of_nat k * VMM_PAGE_SIZE] (m_vm t) (m_vm t')) t) →
  m_space s = Some space → mem_space (m_vm s) space root →
  wp (for_each (seq 0 n) (λ i, body (vaddr + Z.of_nat i * VMM_PAGE_SIZE)))
    (λ _ t, only_vm s t ∧ R (pages_from vaddr n) (m_vm s) (m_vm t)) s.
Proof.
  intros Hnil Hsnoc Hms Hbody Hsp Hs.
  apply (wp_for_each (λ d t, only_vm s t ∧ R (pages_from vaddr (length d)) (m_vm s) (m_vm t))).
  - split; [apply only_vm_refl|by apply Hnil].
  - intros d i rest t Hl [Hv HR]. apply seq_app_cons in Hl as [-> Hlt].
    eapply wp_mono; [apply Hbody; [done| |]|].
    + by rewrite Hv.
    + by eapply Hms.
    + intros [] t' [Hv' HR']. split; [by eapply only_vm_trans|].
      assert (Hpf : pages_from vaddr (length (d ++ [length d]))
        = pages_from vaddr (length d) ++ [vaddr + Z.of_nat (length d) * VMM_PAGE_SIZE]).
      { unfold pages_from. rewrite length_app. cbn [length]. by rewrite Nat.add_1_r, seq_S, fmap_app. }
      rewrite Hpf. by eapply Hsnoc.
  - intros t. by rewrite length_seq.
Qed.

Lemma wp_drop_pages (s : mem S) vaddr n :
  m_space s = Some space → mem_space (m_vm s) space root → page_ok vaddr → 0 ≤ vaddr →
  vaddr + Z.of_nat n * 4096 ≤ USER_END →
  wp (drop_pages vaddr n) (λ _ t, only_vm s t ∧ dropped space root (pages_from vaddr n) (m_vm s) (m_vm t)) s.
Proof.
  intros Hsp Hs Hp Hlo Hend. apply wp_page_loop; try done.
  - intros v Hv. apply dropped_none; [done|]. by intros p ?%elem_of_nil.
  - intros k p v v1 v2 Hk -> Hv. apply dropped_snoc; [done|].
    intros q [(i&Hi&->)%pages_from_elem| ->%list_elem_of_singleton]%elem_of_app; unfold VMM_PAGE_SIZE; lia.
  - intros k v v1 []. done.
  - intros k t Hk Ht Hms. apply wp_drop_page; [done|done| |unfold VMM_PAGE_SIZE; lia].
    apply page_ok_add; [done|apply page_mul_ok].
Qed.

(** ** Protecting pages *)

Record reprotected (flags : Z) (pages : list Z) s s' : Prop := {
  rp_space : mem_space s' space root;
  rp_leaf : ∀ va, leaf (ram_of s') root va =
    if decide (va_path va ∈ va_path <$> pages)
    then (λ e, make_entry (entry_phys e) flags) <$> leaf (ram_of s) root va else leaf (ram_of s) root va;
  rp_used : ∀ q, fa_used (frames s') q ↔ fa_used (frames s) q;
  rp_refs : ∀ q, fa_used (frames s) q → fa_refs (frames s') q = fa_refs (frames s) q;
}.

Lemma make_entry_idem e f g : make_entry (entry_phys (make_entry (entry_phys e) f)) g = make_entry (entry_phys e) g.
Proof. by rewrite entry_phys_make by apply entry_phys_ok. Qed.

Lemma wp_protect_page (s : mem S) flags vaddr :
  has flags VMM_PRESENT = true → has flags VMM_USER = true →
  m_space s = Some space → mem_space (m_vm s) space root → page_ok vaddr → 0 ≤ vaddr < USER_END →
  wp (protect_page flags vaddr) (λ _ t, only_vm s t ∧ reprotected flags [vaddr] (m_vm s) (m_vm t)) s.
Proof.
  intros Hfp Hfu Hsp Hs Hp Hr. unfold protect_page. apply wp_bind, wp_get, wp_bind, wp_in_vm. rewrite Hsp.
  eapply wp_of_run; [by apply (vmm_virt_to_phys_run _ _ root), Hs|]. rewrite translate_page by done.
  destruct (leaf (ram_of (m_vm s)) root vaddr) as [e|] eqn:He; cbn.
  2:{ apply wp_ret. split; [by destruct s|]. split; try done. intros va. case_decide as Hin; [|done].
      apply list_elem_of_singleton in Hin. rewrite (leaf_path _ _ _ _ Hin). by destruct s; rewrite He. }
  apply wp_bind, wp_in_vm. cbn. eapply wp_mono.
  { apply (wp_vmm_protect (m_vm s) space root vaddr flags); [apply Hs..|done|done]. }
  unfold rewrite_post. rewrite He. intros rc v1 (_&Hk&_&[_ Hused]&Hl). apply wp_ret. split; [done|]. cbn.
  assert (Hpm : has (make_entry (entry_phys e) flags) VMM_PRESENT = true) by (by rewrite present_make by apply entry_phys_ok).
  rewrite Hpm in Hl. pose proof (ms_flag _ _ _ Hs vaddr e Hr He) as Hue.
  split; [|..|done|apply Hk].
  - eapply mem_space_set; [done|done|done| | |]; rewrite ?make_entry_user, ?entry_phys_make by apply entry_phys_ok; [done|..].
    + by eapply (us_data _ _ _ (ms_user _ _ _ Hs)).
    + intros va e' Hn He' Hu' Heq. by apply Hn, (ms_inj _ _ _ Hs vaddr va e e').
  - intros va. rewrite Hl. destruct (decide (va_path vaddr = va_path va)) as [E|E].
    + rewrite decide_True by (cbn; rewrite E; by left). by rewrite <-(leaf_path _ _ _ _ E), He.
    + rewrite decide_False; [done|]. cbn. intros E'%list_elem_of_singleton. congruence.
Qed.

Lemma wp_protect_pages (s : mem S) flags vaddr n :
  has flags VMM_PRESENT = true → has flags VMM_USER = true →
  m_space s = Some space → mem_space (m_vm s) space root → page_ok vaddr → 0 ≤ vaddr →
  vaddr + Z.of_nat n * 4096 ≤ USER_END →
  wp (for_each (seq 0 n) (λ i, protect_page flags (vaddr + Z.of_nat i * VMM_PAGE_SIZE)))
    (λ _ t, only_vm s t ∧ reprotected flags (pages_from vaddr n) (m_vm s) (m_vm t)) s.
Proof.
  intros Hfp Hfu Hsp Hs Hp Hlo Hend. apply wp_page_loop; try done.
  - intros k p v v1 v2 Hk _ Hv [S1 L1 U1 R1] [S2 L2 U2 R2]. split; [done|..].
    + intros va. rewrite L2, L1, fmap_app. cbn [fmap list_fmap].
      destruct (decide (va_path va ∈ [va_path p])) as [Hp'|Hp'], (decide (va_path va ∈ va_path <$> pages_from vaddr k)) as [Hq|Hq].
      * rewrite decide_True by (apply elem_of_app; by left). destruct (leaf (ram_of v) root va); cbn; [|done].
        by rewrite make_entry_idem.
      * by rewrite decide_True by (apply elem_of_app; by right).
      * by rewrite decide_True by (apply elem_of_app; by left).
      * rewrite decide_False; [done|]. by intros [?|?]%elem_of_app.
    + intros q. by rewrite U2.
    + intros q Hq. rewrite R2 by by apply U1. by apply R1.
  - intros k v v1 []. done.
  - intros k t Hk Ht Hms. apply wp_protect_page; [done|done|done|done| |unfold VMM_PAGE_SIZE; lia].
    apply page_ok_add; [done|apply page_mul_ok].
Qed.

(** ** New pages, and pages that move *)

(** The tables translate as before. *)
Definition same_pages s s' : Prop :=
  mem_space s' space root ∧ ∀ va, leaf (ram_of s') root va = leaf (ram_of s) root va.

(** One more page is mapped. *)
Definition page_added (vaddr : Z) s s' : Prop :=
  mem_space s' space root ∧ leaf (ram_of s) root vaddr = None ∧
  ∃ e, has e VMM_USER = true ∧ ∀ va, leaf (ram_of s') root va =
    if decide (va_path vaddr = va_path va) then Some e else leaf (ram_of s) root va.

Lemma mem_space_alloc s s1 f : mem_space s space root → allocd f s s1 →
  mem_space s1 space root ∧ user_frame s1 space root f ∧
  (∀ va, leaf (ram_of s1) root va = leaf (ram_of s) root va) ∧
  (∀ va e, leaf (ram_of s1) root va = Some e → has e VMM_USER = true → entry_phys e ≠ f).
Proof.
  intros [Hus Hfl Hinj] Ha. destruct (user_space_alloc s s1 space root f) as (Hus1&Ho&_&Hl); [done..|].
  split_and!; [split; [done|..]| |done|].
  - intros va e Hva. rewrite Hl. by apply Hfl.
  - intros va vb e g. rewrite !Hl. apply Hinj.
  - split; [done|]. rewrite (al_ref _ _ _ Ha). split; [done|]. intros ->.
    destruct (us_root _ _ _ Hus) as [_ (Hu&_)]. by apply (al_fresh _ _ _ Ha).
  - intros va e. rewrite Hl. intros He Hu <-. apply (al_fresh _ _ _ Ha), (us_data _ _ _ Hus va e He Hu).
Qed.

(** A user frame that is not mapped goes to the page [virt], or nothing
    changes. *)
Lemma wp_map_frame s virt f flags :
  mem_space s space root → user_frame s space root f → page_ok virt →
  has flags VMM_PRESENT = true → has flags VMM_USER = true →
  (∀ va e, leaf (ram_of s) root va = Some e → has e VMM_USER = true → entry_phys e ≠ f) →
  wp (vmm_map (Some space) virt f flags) (λ rc s',
    (rc = 0 ∧ page_added virt s s') ∨
    (rc = -1 ∧ same_pages s s' ∧ user_frame s' space root f)) s.
Proof.
  intros Hs Hf Hp Hfp Hfu Hnm. pose proof Hf as ((Hfused&Hfpg&_)&_).
  assert (Hfok : frame_ok f) by (eapply used_frame_ok; [apply Hs|done]).
  eapply wp_mono; [by apply (wp_vmm_map s space root virt f flags); try apply Hs|].
  intros rc s' [Hk Hpost].
  assert (Hsame : (∀ va, leaf (ram_of s') root va = leaf (ram_of s) root va) →
    same_pages s s' ∧ user_frame s' space root f).
  { intros Hl. destruct Hs as [[Hi Hok Hr Hd] Hfl Hinj].
    assert (Huf : ∀ q, user_frame s space root q → user_frame s' space root q).
    { intros q (Ho&Href&Hne). split; [by apply (kp_other _ _ _ Hk)|]. rewrite (kp_refs _ _ _ Hk); [done|apply Ho]. }
    split; [|by apply Huf]. split; [|done]. split; [split; [apply Hk|apply Hk|by apply (kp_space _ _ _ Hk)|]|..].
    - intros va e. rewrite Hl. intros He Hu. by apply Huf, (Hd va).
    - intros va e Hva. rewrite Hl. by apply Hfl.
    - intros va vb e g. rewrite !Hl. apply Hinj. }
  destruct (leaf (ram_of s) root virt) as [e|] eqn:He.
  - destruct Hpost as [-> Hl]. right. split; [done|]. by apply Hsame.
  - destruct Hpost as [(->&_&Hl)|(->&_&Hl)]; [left|right; split; [done|by apply Hsame]]. split; [done|].
    split; [|split; [done|]].
    + eapply mem_space_set; [done|done|done|by rewrite make_entry_user|by rewrite entry_phys_make|].
      intros va e' _ He' Hu'. rewrite entry_phys_make by done. by apply (Hnm va).
    + exists (make_entry f flags). split; [by rewrite make_entry_user|done].
Qed.

Lemma wp_grow_heap (s : mem S) vaddr :
  m_space s = Some space → mem_space (m_vm s) space root → page_ok vaddr →
  wp (grow_heap vaddr) (λ r t,
    match r with
    | None => only_vm s t ∧ page_added vaddr (m_vm s) (m_vm t)
    | Some e => e = - ENOMEM ∧ (∃ v, t = set_heap_end vaddr (set_vm v s)) ∧ same_pages (m_vm s) (m_vm t)
    end) s.
Proof.
  intros Hsp Hs Hp. unfold grow_heap. apply wp_bind, wp_in_vm.
  eapply wp_mono; [apply wp_alloc, Hs|]. intros f v1 [(->&->&_)|[Hf0 Ha]].
  { cbn. apply wp_bind, wp_modify, wp_ret. split; [done|]. split; [by exists (m_vm s)|]. split; [|done].
    by destruct s. }
  rewrite (proj2 (Z.eqb_neq f 0)) by done. apply wp_bind, wp_get, wp_bind, wp_in_vm. cbn. rewrite Hsp.
  destruct (mem_space_alloc _ _ _ Hs Ha) as (Hs1&Huf&Hl1&Hnm).
  eapply wp_mono; [by apply wp_map_frame|].
  intros rc v2 [(->&Hs2&Hnone&e&He&Hl)|(->&[Hs2 Hl]&Huf2)]; cbn.
  - apply wp_ret. split; [done|]. split; [done|]. rewrite Hl1 in Hnone. split; [done|]. exists e. split; [done|].
    intros va. rewrite Hl. by rewrite Hl1.
  - apply wp_bind, wp_in_vm. cbn. eapply wp_mono; [apply (mem_space_free v2 space root f); [done|done|]|].
    { intros va e'. rewrite Hl. apply Hnm. }
    intros [] v3 (Hs3&Hram&_). apply wp_bind, wp_modify, wp_ret. split; [done|]. split; [by exists v3|].
    split; [done|]. intros va. cbn. by rewrite Hram, Hl, Hl1.
Qed.

(** The page at [src] moves, is lost, or was not there. *)
Lemma wp_move_page (s : mem S) i v old dst off :
  m_space s = Some space → mem_space (m_vm s) space root → m_vmas s !! i = Some v →
  has (vma_flags v) VMM_PRESENT = true → has (vma_flags v) VMM_USER = true →
  page_ok (old + off) → page_ok (dst + off) → 0 ≤ old + off < USER_END → 0 ≤ dst + off < 2 ^ 64 →
  wp (move_page i old dst off) (λ r t, only_vm s t ∧ mem_space (m_vm t) space root ∧ (r = None ∨ r = Some (- ENOMEM))) s.
Proof.
  intros Hsp Hs Hi Hvp Hvu Hp Hq Hr Hdr. unfold move_page.
  rewrite (u64_small (old + off)), (u64_small (dst + off)) by (unfold USER_END in Hr; lia).
  apply wp_bind, wp_get, wp_bind, wp_in_vm. rewrite Hsp.
  eapply wp_of_run; [by apply (vmm_virt_to_phys_run _ _ root), Hs|]. rewrite translate_page by done.
  destruct (leaf (ram_of (m_vm s)) root (old + off)) as [e|] eqn:He; cbn.
  2:{ apply wp_ret. split; [by destruct s|]. split; [by destruct s|by left]. }
  apply wp_bind, wp_in_vm. cbn. eapply wp_mono; [apply (wp_vmm_unmap (m_vm s) space root (old + off)); [apply Hs..|done]|].
  unfold rewrite_post. rewrite He. intros rc v1 (_&Hk&_&_&Hl).
  change (has 0 VMM_PRESENT) with false in Hl. cbn in Hl.
  pose proof (ms_flag _ _ _ Hs _ e Hr He) as Hue.
  assert (Hs1 : mem_space v1 space root) by by eapply mem_space_clear.
  destruct (us_data _ _ _ (ms_user _ _ _ Hs) _ e He Hue) as (Ho&Href&Hne).
  apply wp_bind. eapply wp_get_vma; [done|]. apply wp_bind, wp_in_vm. cbn.
  eapply wp_mono; [apply (wp_map_frame v1 (dst + off) (entry_phys e) (vma_flags v)); try done|].
  - split; [by apply (kp_other _ _ _ Hk)|]. rewrite (kp_refs _ _ _ Hk); [done|apply Ho].
  - intros va e' He' Hu' Heq. rewrite Hl in He'. destruct (decide _) as [|Hn]; [done|].
    by apply Hn, (ms_inj _ _ _ Hs (old + off) va e e').
  - intros rc' v2 [(->&Hs2&_)|(->&[Hs2 _]&_)]; cbn; apply wp_ret; (split; [done|]); (split; [done|]); [by left|by right].
Qed.
End space.
End pages.
