(* ===== verification/MemSystem.v ===== *)
(** * Memory system calls keep the address space

    The invariant of a process's address space, and what each call of sys_mem.c
    does to the areas, the page tables and the files. *)

From S2P Require Import Prelude Bits Ram Frames Vmm PageTable VmmSpec VmmMap VmmUser MemCalls VmaSpec MemAreas MemMerge MemPages.

(** The descriptors that refer to the file. *)
Definition fd_refs (fds : list Z) (f : Z) : nat := if f =? 0 then 0%nat else length (filter (λ g, g = f) fds).

(** A range of the user half. *)
Definition range_ok (addr len : Z) : Prop := 0 ≤ addr ∧ 0 ≤ len ∧ addr + len ≤ USER_END.

Definition no_file_split (start stop : Z) (vs : list vma) : Prop :=
  ∀ j v, vs !! j = Some v → strictly_inside start stop v → holds_file v = false.

(** ** Arithmetic of ranges *)

Lemma page_aligned_test addr : 0 ≤ addr → (addr &! 0xfff =? 0) = bool_decide (page_ok addr).
Proof.
  intros Ha. change 0xfff with (2 ^ 12 - 1). rewrite land_low_mask by lia. unfold page_ok, PAGE_SIZE.
  change (2 ^ 12) with 4096. case_bool_decide; lia.
Qed.

Lemma page_ok_times x : page_ok x → x = x / 4096 * 4096.
Proof. unfold page_ok, PAGE_SIZE. intros Hx. pose proof (Z.div_mod x 4096 ltac:(lia)). lia. Qed.

(** The pages from [x] to [y]. *)
Lemma page_count x y : page_ok x → page_ok y → x ≤ y → x + Z.of_nat (Z.to_nat ((y - x) / VMM_PAGE_SIZE)) * 4096 = y.
Proof.
  intros Hx%page_ok_times Hy%page_ok_times Hxy. unfold VMM_PAGE_SIZE.
  replace (y - x) with ((y / 4096 - x / 4096) * 4096) by lia. rewrite Z.div_mul by done. lia.
Qed.

(** The length of a range in pages. *)
Record span (addr len stop : Z) (n : nat) : Prop := {
  sp_len : page_align_up len = Z.of_nat n * 4096;
  sp_stop : stop = addr + Z.of_nat n * 4096;
  sp_end : stop ≤ USER_END;
  sp_pos : addr < stop;
  sp_pages : page_ok stop;
  sp_n : Z.to_nat (page_align_up len / VMM_PAGE_SIZE) = n;
}.

Lemma range_span addr len : range_ok addr len → page_ok addr → 0 < len →
  ∃ n, span addr len (addr + page_align_up len) n.
Proof.
  intros (Ha&_&He) Hp Hl. unfold USER_END in He. set (k := (len + 4095) / 4096).
  assert (Hk : 0 < k) by (apply Z.div_str_pos; lia).
  assert (Hal : page_align_up len = k * 4096) by (apply page_align_up_eq; lia).
  exists (Z.to_nat k). assert (Hn : Z.of_nat (Z.to_nat k) = k) by lia.
  assert (Hps : page_ok (addr + k * 4096)) by (apply page_ok_add; [done|apply page_mul_ok]).
  split; rewrite ?Hn, ?Hal; try done; [|lia|].
  - unfold page_ok, PAGE_SIZE in Hp. apply Z.div_exact in Hp; [|done].
    pose proof (Z.div_mod (len + 4095) 4096 ltac:(lia)) as Hd. fold k in Hd.
    pose proof (Z.mod_pos_bound (len + 4095) 4096 ltac:(lia)). unfold USER_END. lia.
  - unfold VMM_PAGE_SIZE. by rewrite Z.div_mul.
Qed.

Lemma span_u64 addr len stop n : span addr len stop n → 0 ≤ addr → addr +! page_align_up len = stop.
Proof. intros [Hl -> He Hp _ _] Ha. rewrite Hl. apply u64_small. unfold USER_END in He. lia. Qed.


Lemma prot_vflags_ok prot :
  (has (prot_vflags prot) VMM_PRESENT = true ∧ has (prot_vflags prot) VMM_USER = true) ∧
  (has (u32 (prot_vflags prot)) VMM_PRESENT = true ∧ has (u32 (prot_vflags prot)) VMM_USER = true).
Proof. unfold prot_vflags. by destruct (has prot PROT_WRITE), (has prot PROT_EXEC). Qed.

Lemma prot_vflags_private prot (b : bool) :
  let vflags := if b then prot_vflags prot &! ~! VMM_WRITABLE else prot_vflags prot in
  has (u32 vflags) VMM_PRESENT = true ∧ has (u32 vflags) VMM_USER = true.
Proof. cbv zeta. unfold prot_vflags. by destruct b, (has prot PROT_WRITE), (has prot PROT_EXEC). Qed.

Lemma i64_user a : 0 ≤ a ≤ USER_END → i64 a = a.
Proof. intros Ha. unfold USER_END in Ha. unfold i64. rewrite Z.mod_small; lia. Qed.

Lemma page_align_up_bounds x : 0 ≤ x ≤ USER_END →
  x ≤ page_align_up x < x + 4096 ∧ page_align_up x ≤ USER_END ∧ page_ok (page_align_up x).
Proof.
  intros Hx. assert (x ≤ 2 ^ 47) by apply Hx. rewrite page_align_up_eq by lia.
  pose proof (Z.div_mod (x + 4095) 4096 ltac:(lia)). pose proof (Z.mod_pos_bound (x + 4095) 4096 ltac:(lia)).
  split; [lia|]. split; [unfold USER_END; lia|apply page_mul_ok].
Qed.

Lemma length_free_entries vs : length (filter (λ v, negb (vma_valid v)) vs) = free_entries vs.
Proof.
  unfold free_entries. induction vs as [|v vs IH]; [done|]. rewrite filter_cons. cbn [fmap list_fmap sum_list].
  destruct (vma_valid v); cbn; rewrite <-IH; done.
Qed.

Lemma fd_refs_pos fds k f : fds !! k = Some f → f ≠ 0 → (0 < fd_refs fds f)%nat.
Proof.
  intros Hk Hf. unfold fd_refs. rewrite (proj2 (Z.eqb_neq f 0)) by done.
  apply list_elem_of_lookup_2 in Hk. assert (Hin : f ∈ filter (λ g, g = f) fds) by by apply list_elem_of_filter.
  destruct (filter _ fds); [by apply elem_of_nil in Hin|cbn; lia].
Qed.

(** ** The invariant *)

Section calls.
Context {S : Type} `{FrameAllocLaws S} (space : address_space) (root : Z).
Implicit Types s t u : mem S.

Record mem_ok (lim : Z) s : Prop := {
  mo_space : m_space s = Some space;
  mo_pages : mem_space (m_vm s) space root;
  mo_vmas : vmas_ok (m_vmas s);
  mo_fds : Z.of_nat (length (m_fds s)) = NFILES;
  mo_files : files_ok (fd_refs (m_fds s)) lim (m_vmas s) (m_files s);
  mo_hint : hint_ok (m_hint s);
  mo_heap : 0 ≤ m_heap_start s ∧ m_heap_start s + PROCESS_HEAP_MAX + 4096 ≤ USER_END ∧
    0 ≤ m_heap_end s ≤ m_heap_start s + PROCESS_HEAP_MAX + 4096;
}.

Lemma mem_ok_vm lim s t : mem_ok lim s → only_vm s t → mem_space (m_vm t) space root → mem_ok lim t.
Proof. intros [] -> Hs. by split. Qed.
Lemma mem_ok_areas lim s t : mem_ok lim s → areas_only s t → vmas_ok (m_vmas t) →
  files_ok (fd_refs (m_fds s)) lim (m_vmas t) (m_files t) → mem_ok lim t.
Proof. intros [] Hr. rewrite Hr. intros. by split. Qed.
Lemma mem_ok_hint lim s h : mem_ok lim s → hint_ok h → mem_ok lim (set_hint h s).
Proof. intros [] Hh. by split. Qed.

(** What the calls on areas leave alone. *)
Definition same_rest s t : Prop :=
  m_space t = m_space s ∧ m_heap_start t = m_heap_start s ∧ m_heap_end t = m_heap_end s ∧ m_fds t = m_fds s ∧
  m_hint t = m_hint s.
Lemma same_rest_vm s t : only_vm s t → same_rest s t.
Proof. by intros ->. Qed.
Lemma same_rest_areas s t : areas_only s t → same_rest s t.
Proof. intros Hr. by rewrite Hr. Qed.
Lemma same_rest_trans s t u : same_rest s t → same_rest t u → same_rest s u.
Proof. unfold same_rest. intuition congruence. Qed.

(** The addresses lose their areas and their pages. *)
Record unmapped (start stop : Z) (n : nat) s t : Prop := {
  um_maps : ∀ a x, maps (m_vmas t) a x ↔ maps (m_vmas s) a x ∧ ¬ (start ≤ a < stop);
  um_pages : dropped space root (pages_from start n) (m_vm s) (m_vm t);
  um_rest : same_rest s t;
}.

(** What [munmap] does, and when. *)
Inductive munmap_post (lim addr len : Z) s : Z → mem S → Prop :=
  | munmap_invalid : len = 0 ∨ ¬ page_ok addr → munmap_post lim addr len s (- EINVAL) s
  | munmap_no_entry : free_slot (m_vmas s) = None →
      (∃ i v, m_vmas s !! i = Some v ∧ strictly_inside addr (addr + page_align_up len) v) →
      munmap_post lim addr len s (- ENOMEM) s
  | munmap_done n t : span addr len (addr + page_align_up len) n →
      unmapped addr (addr + page_align_up len) n s t → mem_ok lim t → munmap_post lim addr len s 0 t.

Lemma existsb_strict start stop vs :
  existsb (λ v, vma_valid v && (vma_start v <? start) && (stop <? vma_end v)) vs = true ↔
  ∃ i v, vs !! i = Some v ∧ strictly_inside start stop v.
Proof.
  rewrite existsb_exists. unfold strictly_inside. split.
  - intros (v&Hin&Hv). apply list_elem_of_In, list_elem_of_lookup in Hin as [i Hi]. exists i, v. split; [done|].
    rewrite !andb_true_iff, !Z.ltb_lt in Hv. tauto.
  - intros (i&v&Hi&Hv). exists v. split; [by eapply list_elem_of_In, list_elem_of_lookup_2|].
    rewrite !andb_true_iff, !Z.ltb_lt. tauto.
Qed.

Lemma wp_sys_munmap lim addr len s :
  lim ≤ 2 ^ 31 → mem_ok lim s → range_ok addr len → no_file_split addr (addr + page_align_up len) (m_vmas s) →
  wp (sys_munmap addr len) (munmap_post lim addr len s) s.
Proof.
  intros Hlim Hs Hr Hns. unfold sys_munmap. destruct (Z.eqb_spec len 0) as [|Hl0]; [by apply wp_ret, munmap_invalid; left|].
  destruct Hr as (Ha&Hl&He). rewrite page_aligned_test by done. case_bool_decide as Hp; cbn; [|by apply wp_ret, munmap_invalid; right].
  destruct (range_span addr len) as [n Hsp]; [done|done|lia|]. pose proof (span_u64 _ _ _ _ Hsp Ha) as Hu. rewrite Hu.
  set (stop := addr + page_align_up len) in *. pose proof Hsp as [_ Hstop Hse Hpos Hpg Hn].
  rewrite (proj2 (Z.ltb_ge stop addr)) by lia. apply wp_bind, wp_get.
  destruct (existsb _ _ && _) eqn:Hc.
  { apply andb_true_iff in Hc as [Hc Hf]. apply bool_decide_eq_true in Hf. apply wp_ret, munmap_no_entry; [done|].
    by apply existsb_strict. }
  rewrite Hn. apply wp_bind. eapply wp_mono.
  { apply (wp_drop_pages space root); [apply Hs|apply Hs|done|done|lia]. }
  intros [] t1 [Hv1 Hd]. pose proof (mem_ok_vm _ _ _ Hs Hv1 (dr_space _ _ _ _ _ Hd)) as Hs1.
  assert (Hvm : m_vmas t1 = m_vmas s ∧ m_fds t1 = m_fds s) by by rewrite Hv1. destruct Hvm as [Hvm Hfd].
  apply wp_bind. eapply wp_mono.
  { eapply (wp_unmap_vmas _ lim Hlim addr stop); [done..|apply Hs1|apply Hs1|]. rewrite Hvm. intros j v Hj Hsi.
    split; [by eapply Hns|]. assert (Hex : ∃ i v, m_vmas s !! i = Some v ∧ strictly_inside addr stop v) by by exists j, v.
    apply existsb_strict in Hex. rewrite Hex in Hc. cbn in Hc. apply bool_decide_eq_false in Hc.
    destruct (free_slot (m_vmas s)) as [k|] eqn:Hk; [|done]. exists k. by apply free_slot_Some. }
  intros [] t2 (Hr2&Hok2&Hfs2&Hm2). pose proof (mem_ok_areas _ _ _ Hs1 Hr2 Hok2 Hfs2) as Hs2.
  assert (Hfd2 : m_fds t2 = m_fds t1) by by rewrite Hr2.
  apply wp_bind. eapply wp_mono; [by apply (wp_vma_merge_adjacent (fd_refs (m_fds t1)) lim Hlim)|].
  intros [] t (Hr3&Hok3&Hfs3&Hm3). apply wp_ret. apply (munmap_done _ _ _ _ n); [done| |].
  - split.
    + intros a x. by rewrite Hm3, Hm2, Hvm.
    + by rewrite Hr3, Hr2.
    + eapply same_rest_trans; [by apply same_rest_vm|]. eapply same_rest_trans; by apply same_rest_areas.
  - eapply mem_ok_areas; [exact Hs2|done|done|]. by rewrite Hfd2.
Qed.

(** ** mprotect *)

Record protected (start stop prot : Z) (n : nat) s t : Prop := {
  pr_maps : ∀ a x, maps (m_vmas t) a x ↔
    ∃ y, maps (m_vmas s) a y ∧ x = recolored start stop prot (prot_vflags prot) a y;
  pr_pages : reprotected space root (prot_vflags prot) (pages_from start n) (m_vm s) (m_vm t);
  pr_rest : same_rest s t;
}.

Inductive mprotect_post (lim addr len prot : Z) s : Z → mem S → Prop :=
  | mprotect_invalid : ¬ page_ok addr → mprotect_post lim addr len prot s (- EINVAL) s
  | mprotect_empty : len = 0 → mprotect_post lim addr len prot s 0 s
  | mprotect_no_entry : (free_entries (m_vmas s) < needed_entries addr (addr + page_align_up len) (m_vmas s))%nat →
      mprotect_post lim addr len prot s (- ENOMEM) s
  | mprotect_done n t : span addr len (addr + page_align_up len) n →
      protected addr (addr + page_align_up len) prot n s t → mem_ok lim t → mprotect_post lim addr len prot s 0 t.

(** No area that is partly in the range holds a file. *)
Definition no_file_part (start stop : Z) (vs : list vma) : Prop :=
  ∀ j v, vs !! j = Some v → slots_needed start stop v ≠ 0%nat → holds_file v = false.

Lemma wp_sys_mprotect lim addr len rdx s :
  lim ≤ 2 ^ 31 → mem_ok lim s → range_ok addr len → no_file_part addr (addr + page_align_up len) (m_vmas s) →
  wp (sys_mprotect addr len rdx) (mprotect_post lim addr len (i32 rdx) s) s.
Proof.
  intros Hlim Hs Hr Hns. unfold sys_mprotect. set (prot := i32 rdx). destruct Hr as (Ha&Hl&He).
  rewrite page_aligned_test by done. case_bool_decide as Hp; cbn [negb]; [|by apply wp_ret, mprotect_invalid].
  destruct (Z.eqb_spec len 0) as [|Hl0]; [by apply wp_ret, mprotect_empty|].
  destruct (range_span addr len) as [n Hsp]; [done|done|lia|]. pose proof (span_u64 _ _ _ _ Hsp Ha) as Hu. rewrite Hu.
  set (stop := addr + page_align_up len) in *. pose proof Hsp as [_ Hstop Hse Hpos Hpg Hn].
  rewrite (proj2 (Z.ltb_ge stop addr)) by lia. apply wp_bind, wp_get. rewrite length_free_entries.
  fold (needed_entries addr stop (m_vmas s)). case_bool_decide as Hav; [by apply wp_ret, mprotect_no_entry|].
  destruct (prot_vflags_ok prot) as [[Hfp Hfu] Hf32].
  rewrite Hn. apply wp_bind. eapply wp_mono.
  { apply (wp_protect_pages space root); [done|done|apply Hs|apply Hs|done|done|lia]. }
  intros [] t1 [Hv1 Hd]. pose proof (mem_ok_vm _ _ _ Hs Hv1 (rp_space _ _ _ _ _ _ Hd)) as Hs1.
  assert (Hvm : m_vmas t1 = m_vmas s) by by rewrite Hv1.
  apply wp_bind. eapply wp_mono.
  { eapply (wp_protect_vmas _ lim addr stop); try done; [apply Hs1|apply Hs1|rewrite Hvm; lia|by rewrite Hvm]. }
  intros [] t2 (Hr2&Hok2&Hfs2&Hm2). pose proof (mem_ok_areas _ _ _ Hs1 Hr2 Hok2 Hfs2) as Hs2.
  assert (Hfd2 : m_fds t2 = m_fds t1) by by rewrite Hr2.
  apply wp_bind. eapply wp_mono; [by apply (wp_vma_merge_adjacent (fd_refs (m_fds t1)) lim Hlim)|].
  intros [] t (Hr3&Hok3&Hfs3&Hm3). apply wp_ret. apply (mprotect_done _ _ _ _ _ n); [done| |].
  - split.
    + intros a x. by rewrite Hm3, Hm2, Hvm.
    + by rewrite Hr3, Hr2.
    + eapply same_rest_trans; [by apply same_rest_vm|]. eapply same_rest_trans; by apply same_rest_areas.
  - eapply mem_ok_areas; [exact Hs2|done|done|]. by rewrite Hfd2.
Qed.

(** ** brk *)

(** The pages of the heap between the old and the new break. *)
Definition heap_moved (old_end new_end : Z) (r : ram) : Prop :=
  ∀ p, page_ok p → (old_end ≤ p < new_end → leaf r root p ≠ None) ∧ (new_end ≤ p < old_end → leaf r root p = None).

Definition heap_only s t : Prop := t = set_heap_end (m_heap_end t) (set_vm (m_vm t) s).

Inductive brk_post (lim new_brk : Z) s : Z → mem S → Prop :=
  | brk_query : new_brk = 0 → brk_post lim new_brk s (m_heap_end s) s
  | brk_below : new_brk < m_heap_start s → brk_post lim new_brk s (- EINVAL) s
  | brk_above : PROCESS_HEAP_MAX < new_brk - m_heap_start s → brk_post lim new_brk s (- ENOMEM) s
  | brk_stopped t : m_heap_end s ≤ m_heap_end t < page_align_up new_brk →
      heap_moved (page_align_up (m_heap_end s)) (m_heap_end t) (ram_of (m_vm t)) →
      heap_only s t → mem_ok lim t → brk_post lim new_brk s (- ENOMEM) t
  | brk_done t : m_heap_end t = new_brk →
      heap_moved (page_align_up (m_heap_end s)) (page_align_up new_brk) (ram_of (m_vm t)) →
      heap_only s t → mem_ok lim t → brk_post lim new_brk s new_brk t.

Lemma mem_ok_heap lim s t e : mem_ok lim s → heap_only s t → mem_space (m_vm t) space root →
  m_heap_end t = e → 0 ≤ e ≤ m_heap_start s + PROCESS_HEAP_MAX + 4096 → mem_ok lim t.
Proof. intros [] Hh. rewrite Hh. cbn. intros Hm <- He. split; try done. cbn. tauto. Qed.

Lemma wp_heap_grow lim old_end n s :
  mem_ok lim s → page_ok old_end →
  wp (for_until n old_end VMM_PAGE_SIZE grow_heap) (λ r t, mem_space (m_vm t) space root ∧
    match r with
    | None => only_vm s t ∧ heap_moved old_end (old_end + Z.of_nat n * 4096) (ram_of (m_vm t))
    | Some e => e = - ENOMEM ∧ heap_only s t ∧ old_end ≤ m_heap_end t < old_end + Z.of_nat n * 4096 ∧
        heap_moved old_end (m_heap_end t) (ram_of (m_vm t))
    end) s.
Proof.
  intros Hs Hp. apply (wp_for_until (λ i t, only_vm s t ∧ mem_space (m_vm t) space root ∧ old_end ≤ i ∧
    heap_moved old_end i (ram_of (m_vm t)))).
  - split; [apply only_vm_refl|]. split; [apply Hs|]. split; [done|]. intros p _. lia.
  - unfold VMM_PAGE_SIZE. intros k t Hk (Hv&Hms&Hle&Hh).
    eapply wp_mono; [apply (wp_grow_heap space root); [by rewrite Hv; apply Hs|done|]|].
    { apply page_ok_add; [done|apply page_mul_ok]. }
    intros [e|] t'.
    + intros (->&[v ->]&Hms'&Hl). split; [done|]. split; [done|]. split; [by rewrite Hv|]. cbn [m_heap_end set_heap_end].
      split; [lia|]. intros p Hpp. cbn. rewrite Hl. by apply Hh.
    + intros (Hv'&Hms'&_&e&He&Hl). split; [by eapply only_vm_trans|]. split; [done|]. split; [lia|].
      intros p Hpp. split; [|lia]. intros Hr. rewrite Hl. destruct (decide _) as [|Hne]; [done|].
      apply Hh; [done|]. destruct (decide (p < old_end + k * 4096)); [lia|]. destruct Hne. f_equal.
      assert (Hpk : page_ok (old_end + k * 4096)) by (apply page_ok_add; [done|apply page_mul_ok]).
      apply page_ok_times in Hpp, Hpk. lia.
  - intros t (Hv&Hms&_&Hh). done.
Qed.

Lemma wp_sys_brk lim new_brk s : mem_ok lim s → 0 ≤ new_brk < 2 ^ 64 → wp (sys_brk new_brk) (brk_post lim new_brk s) s.
Proof.
  intros Hs Hn. destruct (mo_heap _ _ Hs) as (Hs0&Htop&Hend). unfold sys_brk. apply wp_bind, wp_get.
  destruct (Z.eqb_spec new_brk 0) as [|_]; [apply wp_ret; rewrite i64_user by lia; by apply brk_query|].
  destruct (Z.ltb_spec new_brk (m_heap_start s)) as [|Hlo]; [by apply wp_ret, brk_below|].
  rewrite u64_small by lia. destruct (Z.ltb_spec PROCESS_HEAP_MAX (new_brk - m_heap_start s)) as [|Hhi]; [by apply wp_ret, brk_above|].
  destruct (page_align_up_bounds (m_heap_end s)) as (Ho1&Ho2&Hpo); [lia|].
  destruct (page_align_up_bounds new_brk) as (Hn1&Hn2&Hpn); [lia|].
  set (old_end := page_align_up (m_heap_end s)) in *. set (new_end := page_align_up new_brk) in *.
  assert (Hdone : ∀ t, only_vm s t → mem_space (m_vm t) space root → heap_moved old_end new_end (ram_of (m_vm t)) →
    wp (modify (set_heap_end new_brk);; mret (i64 new_brk)) (brk_post lim new_brk s) t).
  { intros t Hv Hm Hh. apply wp_bind, wp_modify, wp_ret. rewrite i64_user by lia.
    assert (Hho : heap_only s (set_heap_end new_brk t)) by by rewrite Hv.
    apply brk_done; [done|done|done|]. apply (mem_ok_heap lim s _ new_brk); [done..|lia]. }
  apply wp_bind. destruct (Z.ltb_spec old_end new_end) as [Hg|Hg]; [|destruct (Z.ltb_spec new_end old_end) as [Hd|Hd]].
  - eapply wp_mono; [by apply (wp_heap_grow lim)|]. rewrite page_count by (done || lia).
    intros [e|] t [Hm Hq].
    + destruct Hq as (->&Hho&Hr&Hh). apply wp_ret. apply brk_stopped; [lia|done|done|].
      eapply mem_ok_heap; [done..|]. lia.
    + destruct Hq as [Hv Hh]. by apply Hdone.
  - apply wp_bind. eapply wp_mono; [apply (wp_drop_pages space root); [apply Hs|apply Hs|done|lia|rewrite page_count by (done || lia); lia]|].
    intros [] t [Hv Hdr]. apply wp_ret. apply Hdone; [done|apply Hdr|]. intros p Hp. split; [lia|].
    intros Hr. rewrite (dr_leaf _ _ _ _ _ Hdr), decide_True; [done|]. apply list_elem_of_fmap_2, pages_from_elem.
    exists (Z.to_nat ((p - new_end) / 4096)). pose proof (page_count new_end old_end Hpn Hpo). pose proof (page_count new_end p Hpn Hp). unfold VMM_PAGE_SIZE in *. lia.
  - apply wp_ret. apply Hdone; [apply only_vm_refl|apply Hs|]. intros p Hp. lia.
Qed.
End calls.
