(* ===== verification/MemMaps.v ===== *)
(** * mmap, mremap and madvise

    The calls that place, move and discard mappings keep the invariant, and
    change the areas as their descriptions say. *)

From S2P Require Import Prelude Bits Ram Frames Vmm PageTable VmmSpec VmmMap VmmUser MemCalls VmaSpec MemAreas MemMerge MemPages MemSystem.

(** The attributes that [mmap] gives to an address. *)
Definition new_area (start prot flags f offset vflags a : Z) : area :=
  Area (u32 prot) (u32 flags) (f =? 0) (has flags MAP_PRIVATE) f
    (if f =? 0 then 0 else u64 (offset + (a - start))) (u32 vflags).

Definition can_split (start stop : Z) (vs : list vma) : Prop :=
  no_file_split start stop vs ∧
  ((∃ i v, vs !! i = Some v ∧ strictly_inside start stop v) → free_slot vs ≠ None).

Section maps.
Context {S : Type} `{FrameAllocLaws S} (space : address_space) (root : Z).
Implicit Types s t u : mem S.
Abbreviation mem_ok := (mem_ok space root).

Lemma mem_ok_lim lim lim' s : lim ≤ lim' → mem_ok lim s → mem_ok lim' s.
Proof.
  intros Hl [? ? ? ? Hf ? ?]. split; try done. intros f Hp. destruct (Hf f Hp) as (x&Hx&Hr). exists x. split; [done|lia].
Qed.

(** ** A new area *)

Lemma files_ok_new base lim vs fs i w v x :
  files_ok base lim vs fs → vs !! i = Some w → vma_valid w = false → vma_valid v = true → holds_file v = true →
  fs !! vma_file v = Some x → Z.of_nat (base (vma_file v) + holders (vma_file v) vs) ≤ mf_refs x < lim →
  files_ok base (lim + 1) (<[i := v]> vs) (<[vma_file v := MFile (mf_refs x + 1) (mf_type x)]> fs).
Proof.
  intros Hok Hi Hw Hv Hh Hx Hr f Hf. pose proof (holders_insert f vs i w v Hi) as He. rewrite (held_invalid f w) in He by done.
  destruct (decide (f = vma_file v)) as [->|Hne].
  - rewrite lookup_insert_eq. eexists. split; [done|]. cbn [mf_refs].
    assert (held (vma_file v) v = 1%nat) by (unfold held; by rewrite Hv, Hh, Z.eqb_refl). lia.
  - rewrite lookup_insert_ne by done. assert (held f v = 0%nat).
    { unfold held. rewrite (proj2 (Z.eqb_neq (vma_file v) f)) by done. by rewrite andb_false_r. }
    destruct (Hok f) as (y&Hy&Hry); [lia|]. exists y. split; [done|lia].
Qed.

Lemma wp_add_mapping lim r len prot flags f offset vflags s :
  mem_ok lim s → lim + 1 ≤ 2 ^ 31 → page_ok r → page_ok len → 0 ≤ r → 0 < len → r + len ≤ USER_END →
  has (u32 vflags) VMM_PRESENT = true ∧ has (u32 vflags) VMM_USER = true →
  (∀ a x, r ≤ a < r + len → ¬ maps (m_vmas s) a x) → (f ≠ 0 → (0 < fd_refs (m_fds s) f)%nat) →
  wp (add_mapping r len prot flags f offset vflags) (λ rc t, mem_ok (lim + 1) t ∧ m_vm t = m_vm s ∧ same_rest s t ∧
    ((rc = - ENOMEM ∧ t = s) ∨
     (rc = r ∧ ∀ a x, maps (m_vmas t) a x ↔
        (r ≤ a < r + len ∧ x = new_area r prot flags f offset vflags a) ∨ maps (m_vmas s) a x))) s.
Proof.
  intros Hs Hlim Hpr Hpl Hr0 Hl0 Htop Hfl Hfree Hfd. unfold add_mapping. apply wp_bind, wp_get.
  destruct (free_slot (m_vmas s)) as [i|] eqn:Hi.
  2:{ apply wp_ret. split; [eapply mem_ok_lim; [|done]; lia|]. split; [done|]. split; [done|]. by left. }
  apply free_slot_Some in Hi as (w&Hi&Hw). rewrite u64_small by (unfold USER_END in Htop; lia).
  set (v := Vma r (r + len) (u32 prot) (u32 flags) (f =? 0) (has flags MAP_PRIVATE) f offset (u32 vflags) true).
  assert (Hcov : ∀ a, covers v a ↔ r ≤ a < r + len) by (intros a; unfold covers; cbn; tauto).
  destruct (fill_ok (m_vmas s) i w v) as [Hok Hm]; [apply Hs|done|done| |by intros a x Hc%Hcov; apply Hfree|].
  { split; cbn [vma_start vma_end vma_flags v]; [lia|done|by apply page_ok_add|done]. }
  set (s1 := set_vmas (<[i := v]> (m_vmas s)) s).
  apply wp_bind, wp_put_vma. fold s1.
  assert (Hfile : wp (when (negb (f =? 0)) (s ← get; x ← deref (m_files s !! f);
      modify (set_files (<[f := MFile (i32 (mf_refs x + 1)) (mf_type x)]> (m_files s)))))
    (λ _ t, areas_only s t ∧ m_vmas t = m_vmas s1 ∧ files_ok (fd_refs (m_fds s)) (lim + 1) (m_vmas t) (m_files t)) s1).
  { apply wp_when; intros Hf.
    - apply negb_true_iff, Z.eqb_neq in Hf. destruct (mo_files _ _ _ _ Hs f) as (x&Hx&Hrx); [pose proof (Hfd Hf); lia|].
      apply wp_bind, wp_get, wp_bind. eapply wp_deref; [done|]. apply wp_modify.
      split; [done|]. split; [done|]. cbn [m_vmas m_files set_files set_vmas s1]. rewrite i32_small by lia.
      apply (files_ok_new _ lim _ _ i w v x); [apply Hs|done|done|done| |done|done].
      unfold holds_file. cbn. by rewrite (proj2 (Z.eqb_neq f 0)).
    - split; [done|]. split; [done|]. apply (files_ok_put _ _ _ _ i w); [done| |].
      + intros g. rewrite (held_no_file g v); [lia|]. unfold holds_file. cbn. apply negb_false_iff in Hf. by rewrite Hf.
      + intros g Hg. destruct (mo_files _ _ _ _ Hs g Hg) as (x&Hx&Hrx). exists x. split; [done|lia]. }
  apply wp_bind. eapply wp_mono; [exact Hfile|]. intros [] t2 (Hr2&Hv2&Hfs2). apply wp_bind.
  eapply wp_mono; [apply (wp_vma_merge_adjacent (fd_refs (m_fds s)) (lim + 1) Hlim); [by rewrite Hv2|done]|].
  intros [] t (Hr3&Hok3&Hfs3&Hm3). apply wp_ret. rewrite i64_user by lia.
  assert (Hrt : areas_only s t) by by eapply areas_only_trans.
  split_and!; [|by rewrite Hrt|by apply same_rest_areas|].
  - eapply mem_ok_areas; [|done|done|done]. eapply mem_ok_lim; [|done]. lia.
  - right. split; [done|]. intros a x. rewrite Hm3, Hv2. cbn [m_vmas set_vmas s1]. rewrite Hm, Hcov. done.
Qed.

(** ** mmap *)

(** A place for [len] bytes, without areas. *)
Record placed (addr len flags r : Z) s t : Prop := {
  pl_page : page_ok r;
  pl_range : 0 ≤ r ∧ r + len ≤ USER_END;
  pl_fixed : has flags MAP_FIXED = true → r = addr;
  pl_free : has flags MAP_FIXED = false → MMAP_BASE ≤ r ∧ ∀ a x, r ≤ a < r + len → ¬ maps (m_vmas s) a x;
  pl_maps : ∀ a x, maps (m_vmas t) a x ↔ maps (m_vmas s) a x ∧ ¬ (r ≤ a < r + len);
}.

Lemma wp_place_mapping lim addr len flags s :
  mem_ok lim s → lim ≤ 2 ^ 31 → page_ok len → 0 < len < 2 ^ 63 → 0 ≤ addr → addr + len < 2 ^ 64 →
  (has flags MAP_FIXED = true → page_ok addr ∧ addr + len ≤ USER_END ∧ can_split addr (addr + len) (m_vmas s)) →
  wp (place_mapping addr len flags) (λ o t, mem_ok lim t ∧ m_fds t = m_fds s ∧
    match o with
    | None => m_vmas t = m_vmas s
    | Some r => placed addr len flags r s t
    end) s.
Proof.
  intros Hs Hlim Hpl Hlen Ha Hal Hfix. unfold place_mapping. destruct (has flags MAP_FIXED) eqn:Hf.
  - destruct (Hfix eq_refl) as (Hp&Hend&Hns&Hslot).
    assert (Hlen' : page_align_up len = len) by (apply page_align_up_ok; [done|lia]).
    apply wp_bind. eapply wp_mono; [apply (wp_sys_munmap space root lim); [done|done|split; lia|by rewrite Hlen']|].
    intros rc t Hpost. apply wp_ret. inversion Hpost as [Hbad|Hn Hex|n t' Hsp Hum Hok]; subst.
    + destruct Hbad; [lia|done].
    + rewrite Hlen' in Hex. by destruct Hslot.
    + destruct Hum as [Hm _ Hrest]. rewrite Hlen' in Hm. split_and!; [done|apply Hrest|].
      split; [done|lia|done|congruence|done].
  - apply wp_bind. eapply wp_mono; [apply wp_vma_find_free_region; [apply Hs|done|done|done|done|apply Hs]|].
    intros r t [[-> ->]|[Hfree (h&Hh&->)]]; apply wp_ret; [done|].
    destruct Hfree as (Hb&Hpr&Htop&Hno).
    rewrite (proj2 (Z.eqb_neq r 0)) by (unfold MMAP_BASE in Hb; lia). split; [by apply mem_ok_hint|]. split; [done|].
    split; [done| |congruence|done|].
    + unfold MMAP_BASE, MMAP_TOP, USER_END in *. lia.
    + intros a x. cbn. split; [|tauto]. intros Hx. split; [done|]. intros Hr. by apply (Hno a x).
Qed.

(** The page flags of a mapping; a private file mapping is not writable
    until a write copies the page. *)
Definition mmap_vflags (prot : Z) (anonymous : bool) : Z :=
  if negb anonymous && has prot PROT_WRITE then prot_vflags prot &! ~! VMM_WRITABLE else prot_vflags prot.

(** The map from addresses to attributes before and after [mmap]. *)
Definition mmap_spec (addr length prot flags fd offset : Z) (fds : list Z) (M : Z → area → Prop) (r : Z) (M' : Z → area → Prop) : Prop :=
  let len := page_align_up length in
  let anonymous := has flags MAP_ANONYMOUS in
  (r < 0 ∧ ((∀ a x, M' a x ↔ M a x) ∨
     (has flags MAP_FIXED = true ∧ ∀ a x, M' a x ↔ M a x ∧ ¬ (addr ≤ a < addr + len)))) ∨
  (page_ok r ∧ 0 ≤ r ∧ r + len ≤ USER_END ∧ (has flags MAP_FIXED = true → r = addr) ∧
   (has flags MAP_FIXED = false → MMAP_BASE ≤ r ∧ ∀ a x, r ≤ a < r + len → ¬ M a x) ∧
   ∃ f, (if anonymous then f = 0 else fds !! Z.to_nat fd = Some f ∧ f ≠ 0) ∧
   ∀ a x, M' a x ↔
     (r ≤ a < r + len ∧
        x = new_area r prot flags f (if anonymous then 0 else offset) (mmap_vflags prot anonymous) a) ∨
     (M a x ∧ ¬ (r ≤ a < r + len))).

Lemma wp_place_and_add lim addr len prot flags f offset vflags s :
  mem_ok lim s → lim + 1 ≤ 2 ^ 31 → page_ok len → 0 < len < 2 ^ 63 → 0 ≤ addr → addr + len < 2 ^ 64 →
  (has flags MAP_FIXED = true → page_ok addr ∧ addr + len ≤ USER_END ∧ can_split addr (addr + len) (m_vmas s)) →
  has (u32 vflags) VMM_PRESENT = true ∧ has (u32 vflags) VMM_USER = true →
  (f ≠ 0 → (0 < fd_refs (m_fds s) f)%nat) →
  wp (map_addr ← place_mapping addr len flags;
      match map_addr with
      | None => mret (- ENOMEM)
      | Some map_addr => add_mapping map_addr len prot flags f offset vflags
      end) (λ rc t, mem_ok (lim + 1) t ∧ m_fds t = m_fds s ∧
        ((rc = - ENOMEM ∧ ((∀ a x, maps (m_vmas t) a x ↔ maps (m_vmas s) a x) ∨
            (has flags MAP_FIXED = true ∧
             ∀ a x, maps (m_vmas t) a x ↔ maps (m_vmas s) a x ∧ ¬ (addr ≤ a < addr + len)))) ∨
         ∃ u, placed addr len flags rc s u ∧ ∀ a x, maps (m_vmas t) a x ↔
           (rc ≤ a < rc + len ∧ x = new_area rc prot flags f offset vflags a) ∨ maps (m_vmas u) a x)) s.
Proof.
  intros Hs Hlim Hpl Hlen Ha Hal Hfix Hfl Hfd. apply wp_bind. eapply wp_mono.
  { apply (wp_place_mapping lim addr len flags s); [done|lia|done..]. }
  intros [r|] u (Hu&Hufd&Hpost).
  - pose proof Hpost as [Hpr Hr Hfx Hfr Hm]. eapply wp_mono.
    { apply (wp_add_mapping lim r len prot flags f offset vflags u); try done; [apply Hr|apply Hlen|apply Hr| |by rewrite Hufd].
      intros a x Hax Hx. by apply Hm in Hx as [_ []]. }
    intros rc t (Ht&_&Hrest&Hc). split; [done|]. split; [by destruct Hrest as (_&_&_&->&_)|].
    destruct Hc as [[-> ->]|[-> Hmaps]]; [left|right; by exists u]. split; [done|].
    destruct (has flags MAP_FIXED) eqn:Hf.
    + right. split; [done|]. by rewrite <-(Hfx eq_refl).
    + left. intros a x. rewrite Hm. destruct (Hfr eq_refl) as [_ Hno]. split; [tauto|]. intros Hx. split; [done|].
      intros Hax. by apply (Hno a x).
  - apply wp_ret. split; [eapply mem_ok_lim; [|done]; lia|]. split; [done|]. left. split; [done|]. left. intros a x. by rewrite Hpost.
Qed.

Lemma wp_mapped_file lim fd offset (shared : bool) s (Q : Z + Z → mem S → Prop) :
  mem_ok lim s → (∀ e, e < 0 → Q (inl e) s) →
  (∀ f, m_fds s !! Z.to_nat fd = Some f → f ≠ 0 → shared = false → Q (inr f) s) →
  wp (mapped_file fd offset shared) Q s.
Proof.
  intros Hs He Hf. unfold mapped_file. apply wp_bind, wp_get.
  destruct (Z.ltb_spec fd 0) as [|Hfd0]; [by apply wp_ret, He|]. destruct (Z.leb_spec NFILES fd) as [|Hfd1]; [by apply wp_ret, He|]. cbn.
  destruct (lookup_lt_is_Some_2 (m_fds s) (Z.to_nat fd)) as [f Hfd]; [pose proof (mo_fds _ _ _ _ Hs); lia|].
  apply wp_bind. eapply wp_deref; [done|]. destruct (Z.eqb_spec f 0) as [|Hf0]; [by apply wp_ret, He|].
  pose proof (fd_refs_pos _ _ _ Hfd Hf0) as Hpos. destruct (mo_files _ _ _ _ Hs f) as (x&Hx&_); [lia|].
  apply wp_bind. eapply wp_deref; [done|]. destruct (mf_type x) as [ty|]; [|by apply wp_ret, He].
  destruct (negb _); [by apply wp_ret, He|]. destruct (negb _); [by apply wp_ret, He|].
  destruct shared; apply wp_ret; [by apply He|by apply Hf].
Qed.

Lemma align_len length : 0 < length ≤ 2 ^ 62 →
  page_ok (page_align_up length) ∧ 0 < page_align_up length < 2 ^ 63.
Proof.
  intros Hl. rewrite page_align_up_eq by lia. split; [apply page_mul_ok|].
  pose proof (Z.div_mod (length + 4095) 4096 ltac:(lia)). pose proof (Z.mod_pos_bound (length + 4095) 4096 ltac:(lia)). lia.
Qed.

Lemma wp_sys_mmap lim addr length rdx r10 r8 offset s :
  mem_ok lim s → lim + 1 ≤ 2 ^ 31 → 0 ≤ addr < 2 ^ 64 → 0 ≤ length ≤ 2 ^ 62 →
  (has (i32 r10) MAP_FIXED = true → can_split addr (addr + page_align_up length) (m_vmas s)) →
  wp (sys_mmap addr length rdx r10 r8 offset) (λ r t, mem_ok (lim + 1) t ∧ m_fds t = m_fds s ∧
    mmap_spec addr length (i32 rdx) (i32 r10) (i32 r8) offset (m_fds s) (maps (m_vmas s)) r (maps (m_vmas t))) s.
Proof.
  intros Hs Hlim Ha Hl Hsplit. unfold sys_mmap. set (prot := i32 rdx) in *. set (flags := i32 r10) in *. set (fd := i32 r8).
  assert (Hfail : ∀ e, e < 0 → mem_ok (lim + 1) s ∧ m_fds s = m_fds s ∧
    mmap_spec addr length prot flags fd offset (m_fds s) (maps (m_vmas s)) e (maps (m_vmas s))).
  { intros e He. split; [eapply mem_ok_lim; [|done]; lia|]. split; [done|]. left. split; [done|]. by left. }
  destruct (eqb _ _) eqn:Heq; [by apply wp_ret, Hfail|]. apply eqb_false_iff in Heq.
  destruct (Z.eqb_spec length 0) as [|Hl0]; [by apply wp_ret, Hfail|].
  destruct (Z.ltb_spec (2 ^ 64 - 1 - 0xfff) length); [lia|].
  destruct (align_len length) as [Hpl Hlen]; [lia|]. set (len := page_align_up length) in *.
  destruct (Z.ltb_spec (addr +! len) addr) as [|Hwrap]; [by apply wp_ret, Hfail|].
  assert (Hsum : addr + len < 2 ^ 64).
  { destruct (Z.lt_ge_cases (addr + len) (2 ^ 64)); [done|]. unfold u64 in Hwrap.
    rewrite <-(Z.mod_unique (addr + len) (2 ^ 64) 1 (addr + len - 2 ^ 64)) in Hwrap; lia. }
  rewrite u64_small by lia. rewrite page_aligned_test by lia.
  destruct (has flags MAP_FIXED && negb _) eqn:Hg1; [by apply wp_ret, Hfail|].
  destruct (has flags MAP_FIXED && (_ || _)) eqn:Hg2; [by apply wp_ret, Hfail|].
  assert (Hfix : has flags MAP_FIXED = true → page_ok addr ∧ addr + len ≤ USER_END ∧ can_split addr (addr + len) (m_vmas s)).
  { intros Hf. rewrite Hf in Hg1, Hg2. cbn in Hg1, Hg2. apply negb_false_iff, bool_decide_eq_true in Hg1.
    apply orb_false_iff in Hg2 as [_ Hg2%Z.ltb_ge]. split; [done|]. split; [unfold VMM_USER_TOP, USER_END in *; lia|].
    by apply Hsplit. }
  set (anonymous := has flags MAP_ANONYMOUS).
  assert (Hmain : ∀ f, (if anonymous then f = 0 else m_fds s !! Z.to_nat fd = Some f ∧ f ≠ 0) →
    wp (map_addr ← place_mapping addr len flags;
        match map_addr with
        | None => mret (- ENOMEM)
        | Some map_addr => add_mapping map_addr len prot flags f (if anonymous then 0 else offset) (mmap_vflags prot anonymous)
        end) (λ r t, mem_ok (lim + 1) t ∧ m_fds t = m_fds s ∧
          mmap_spec addr length prot flags fd offset (m_fds s) (maps (m_vmas s)) r (maps (m_vmas t))) s).
  { intros f Hf. eapply wp_mono; [apply (wp_place_and_add lim); [done|done|done|done|lia|done|done|apply prot_vflags_private|]|].
    - intros Hf0. destruct anonymous; [done|]. by eapply fd_refs_pos; [apply Hf|].
    - intros r t (Ht&Hfd&Hc). split; [done|]. split; [done|]. destruct Hc as [[-> Hc]|(u&[Hpr Hr Hfx Hfr Hm]&Hmaps)].
      + left. split; [done|]. done.
      + right. split; [done|]. split; [apply Hr|]. split; [apply Hr|]. split; [done|]. split; [done|]. exists f. split; [done|].
        intros a x. by rewrite Hmaps, Hm. }
  destruct anonymous eqn:Hanon; fold anonymous; rewrite ?Hanon; cbn [negb].
  - destruct (has flags MAP_SHARED); [by apply wp_ret, Hfail|]. by apply (Hmain 0).
  - apply wp_bind. eapply wp_mapped_file; [done|by intros e He; apply wp_ret, Hfail|].
    intros f Hf Hf0 Hsh. assert (Hpriv : has flags MAP_PRIVATE = true) by (by destruct (has flags MAP_PRIVATE); rewrite Hsh in Heq).
    rewrite Hpriv. by apply (Hmain f).
Qed.

(** ** mremap *)

Lemma vma_find_exact_slot_Some vs start stop i : vma_find_exact_slot vs start stop = Some i →
  ∃ v, vs !! i = Some v ∧ vma_valid v = true ∧ vma_start v ≤ start ∧ stop ≤ vma_end v.
Proof.
  unfold vma_find_exact_slot. destruct (list_find _ vs) as [[k v]|] eqn:Hf; cbn; [|done]. intros [= ->].
  apply list_find_Some in Hf as (Hi&Hv&_). apply Is_true_true in Hv. rewrite !andb_true_iff, !Z.leb_le in Hv.
  exists v. tauto.
Qed.

Lemma vma_overlaps_false vs start stop i v a : vma_overlaps vs start stop = false → start < stop → vs !! i = Some v →
  covers v a → vma_end v ≤ start ∨ stop ≤ vma_start v.
Proof.
  unfold vma_overlaps. intros Hf Hlt Hi [Hv Hr]. destruct (vma_meets start stop v) eqn:Ho.
  - assert (existsb (vma_meets start stop) vs = true); [|congruence]. apply existsb_exists. exists v. split; [|done].
    by eapply list_elem_of_In, list_elem_of_lookup_2.
  - unfold vma_meets in Ho. rewrite Hv in Ho. cbn in Ho. apply andb_false_iff in Ho as [Ho%Z.ltb_ge|Ho%Z.ltb_ge]; [by left|by right].
Qed.

(** The map from addresses to attributes before and after [mremap]; the area
    that grows or moves is [v]. *)
Definition mremap_spec (old_addr old_len new_len : Z) (M : Z → area → Prop) (r : Z) (M' : Z → area → Prop) : Prop :=
  (r < 0 ∧ ∀ a x, M' a x ↔ M a x) ∨
  (r = old_addr ∧ new_len ≤ old_len ∧
     ∀ a x, M' a x ↔ M a x ∧ ¬ (old_addr + new_len ≤ a < old_addr + old_len)) ∨
  (old_len < new_len ∧ page_ok r ∧ 0 ≤ r ∧ r + new_len ≤ USER_END ∧
   ∃ v, vma_start v = old_addr ∧ old_addr + old_len ≤ vma_end v ∧ (∀ a, covers v a → M a (area_at v a)) ∧
     (∀ a x, r ≤ a < r + new_len → M a x → r = old_addr ∧ covers v a) ∧
     ∀ a x, M' a x ↔ (r ≤ a < r + new_len ∧ x = area_at v (a - r + old_addr)) ∨ (¬ covers v a ∧ M a x)).

(** The area at [i] gets the range from [r] to [r + len]. *)
Lemma move_area lim s i v r len :
  mem_ok lim s → m_vmas s !! i = Some v → vma_valid v = true → page_ok r → page_ok len → 0 ≤ r → 0 < len → r + len ≤ USER_END →
  (∀ a x, r ≤ a < r + len → maps (m_vmas s) a x → r = vma_start v ∧ covers v a) →
  let t := set_vmas (<[i := set_vma_end (r + len) (set_vma_start r v)]> (m_vmas s)) s in
  mem_ok lim t ∧ ∀ a x, maps (m_vmas t) a x ↔
    (r ≤ a < r + len ∧ x = area_at v (a - r + vma_start v)) ∨ (¬ covers v a ∧ maps (m_vmas s) a x).
Proof.
  intros Hs Hi Hv Hpr Hpl Hr Hl Htop Hfree t. set (v' := set_vma_end (r + len) (set_vma_start r v)) in *.
  assert (Hcov : ∀ a, covers v' a ↔ r ≤ a < r + len) by (intros a; unfold covers; cbn; tauto).
  assert (Harea : ∀ a, area_at v' a = area_at v (a - r + vma_start v)).
  { intros a. unfold area_at. cbn. destruct (vma_is_anonymous v); [done|]. do 3 f_equal. lia. }
  destruct (put_area_ok (m_vmas s) i v v') as [Hok Hm]; [apply Hs|done|..].
  - intros _. split; cbn; [lia|done|by apply page_ok_add|]. by apply (vs_each _ (mo_vmas _ _ _ _ Hs) i v).
  - intros a Ha%Hcov. destruct (decide (covers v a)) as [|Hn]; [by left|]. right. intros x Hx.
    by destruct (Hfree a x Ha Hx).
  - split.
    + eapply mem_ok_areas; [done|by destruct s|done|]. apply (files_ok_put _ _ _ _ i v); [done| |apply Hs].
      intros f. by rewrite (held_same f v).
    + intros a x. cbn [m_vmas set_vmas t]. by rewrite Hm, Hcov, Harea.
Qed.

Lemma wp_move_pages lim s i v old dst n :
  mem_ok lim s → m_vmas s !! i = Some v → vma_valid v = true → page_ok old → page_ok dst → 0 ≤ old → 0 ≤ dst →
  old + Z.of_nat n * 4096 ≤ USER_END → dst + Z.of_nat n * 4096 ≤ USER_END →
  wp (for_until n 0 VMM_PAGE_SIZE (move_page i old dst)) (λ r t,
    only_vm s t ∧ mem_ok lim t ∧ (r = None ∨ r = Some (- ENOMEM))) s.
Proof.
  intros Hs Hi Hv Hpo Hpd Ho Hd Hot Hdt.
  apply (wp_for_until (λ _ t, only_vm s t ∧ mem_space (m_vm t) space root)).
  - split; [apply only_vm_refl|apply Hs].
  - unfold VMM_PAGE_SIZE, USER_END in *. intros k t Hk [Ht Hm]. rewrite Z.add_0_l.
    destruct (vs_each _ (mo_vmas _ _ _ _ Hs) i v Hi Hv) as [_ _ _ [Hfp Hfu]].
    eapply wp_mono; [apply (wp_move_page space root t i v old dst); try done|].
    + rewrite Ht. apply Hs.
    + by rewrite Ht.
    + apply page_ok_add; [done|apply page_mul_ok].
    + apply page_ok_add; [done|apply page_mul_ok].
    + unfold USER_END. lia.
    + lia.
    + intros [e|] t' (Ht'&Hm'&Hr).
      * split; [by eapply only_vm_trans|]. split; [|done]. eapply mem_ok_vm; [done| |done]. by eapply only_vm_trans.
      * split; [by eapply only_vm_trans|done].
  - intros t [Ht Hm]. split; [done|]. split; [by eapply mem_ok_vm|by left].
Qed.

(** The requests that stay inside the user half. *)
Record mremap_enabled (old_addr old_size new_size flags hint : Z) s : Prop := {
  me_addr : 0 ≤ old_addr < 2 ^ 64;
  me_old : 0 ≤ old_size ≤ 2 ^ 62;
  me_new : range_ok old_addr new_size;
  me_flags : has flags MREMAP_FIXED = false;
  me_hint : 0 ≤ hint ≤ 2 ^ 63;
  me_split : no_file_split (old_addr + page_align_up new_size) (old_addr + page_align_up old_size) (m_vmas s);
}.

(** The area [v] at [i] grows, in place or somewhere else. *)
Lemma wp_grow_area lim i v old_len new_len flags hint s :
  mem_ok lim s → m_vmas s !! i = Some v → vma_valid v = true →
  page_ok old_len → page_ok new_len → 0 < old_len < new_len → vma_start v + old_len ≤ vma_end v →
  vma_start v + new_len ≤ USER_END → 0 ≤ hint ≤ 2 ^ 63 → has flags MREMAP_FIXED = false →
  let old_addr := vma_start v in
  wp (if negb (vma_overlaps (m_vmas s) (old_addr + old_len) (old_addr + new_len)) then
        put_vma i (set_vma_end (old_addr + new_len) v);; mret (i64 old_addr)
      else
      if negb (has flags MREMAP_MAYMOVE) then mret (- ENOMEM) else
      dst_addr ← vma_find_free_region hint new_len;
      if dst_addr =? 0 then mret (- ENOMEM) else
      s ← get;
      failed ← for_until (Z.to_nat (old_len / VMM_PAGE_SIZE)) 0 VMM_PAGE_SIZE (move_page i old_addr dst_addr);
      match failed with
      | Some e => mret e
      | None =>
          v ← get_vma i;
          put_vma i (set_vma_end (dst_addr +! new_len) (set_vma_start dst_addr v));;
          mret (i64 dst_addr)
      end)
    (λ r t, mem_ok lim t ∧ m_fds t = m_fds s ∧
      mremap_spec old_addr old_len new_len (maps (m_vmas s)) r (maps (m_vmas t))) s.
Proof.
  intros Hs Hi Hv Hpo Hpn Hlen Hend Htop Hh Hfl old_addr.
  destruct (vs_each _ (mo_vmas _ _ _ _ Hs) i v Hi Hv) as [Hrv Hps _ _].
  assert (HM : ∀ a, covers v a → maps (m_vmas s) a (area_at v a)) by (intros a Ha; by exists i, v).
  destruct (vma_overlaps _ _ _) eqn:Hov; cbn [negb].
  2:{ apply wp_bind, wp_put_vma, wp_ret. rewrite i64_user by (unfold old_addr; lia).
    assert (Hfree : ∀ a x, old_addr ≤ a < old_addr + new_len → maps (m_vmas s) a x → old_addr = vma_start v ∧ covers v a).
    { intros a x Ha (j&w&Hj&Hw&_). split; [done|]. destruct (decide (a < vma_end v)); [by split; [|unfold old_addr in *; lia]|].
      destruct (vma_overlaps_false _ _ _ j w a Hov ltac:(lia) Hj Hw) as [Hc|Hc]; destruct Hw as [_ Hw].
      - unfold old_addr in *. lia.
      - unfold old_addr in *. lia. }
    destruct (move_area lim s i v old_addr new_len) as [Hok Hm]; [done..|lia|lia|done|done|].
    replace (set_vma_start old_addr v) with v in Hok, Hm by by destruct v.
    split; [done|]. split; [done|]. right. right. split_and!; [lia|done|lia|done|]. exists v. by split_and!. }
  destruct (negb _); [apply wp_ret; split; [done|]; split; [done|]; by left|].
  apply wp_bind. eapply wp_mono; [apply wp_vma_find_free_region; [apply Hs|unfold USER_END in *; lia|done|lia|unfold USER_END in *; lia|apply Hs]|].
  intros r t [[-> ->]|[(Hb&Hpr&Hrt&Hno) (h&Hho&->)]]; [apply wp_ret; split; [done|]; split; [done|]; by left|].
  rewrite (proj2 (Z.eqb_neq r 0)) by (unfold MMAP_BASE in Hb; lia). apply wp_bind, wp_get, wp_bind.
  assert (Hru : 0 ≤ r ∧ r + new_len ≤ USER_END) by (unfold MMAP_BASE, MMAP_TOP, USER_END in *; lia).
  assert (Hcnt : Z.of_nat (Z.to_nat (old_len / VMM_PAGE_SIZE)) * 4096 = old_len).
  { pose proof (page_count 0 old_len eq_refl Hpo ltac:(lia)) as Hc. rewrite Z.sub_0_r in Hc. lia. }
  eapply wp_mono; [eapply (wp_move_pages lim); [by apply mem_ok_hint|done|done|done|done|lia|lia|rewrite Hcnt; lia|rewrite Hcnt; lia]|].
  intros o t (Ht&Hok&[->| ->]).
  2:{ apply wp_ret. split; [done|]. split; [by rewrite Ht|]. left. split; [done|]. by rewrite Ht. }
  assert (Hvt : m_vmas t = m_vmas s ∧ m_fds t = m_fds s) by by rewrite Ht. destruct Hvt as [Hvt Hft].
  apply wp_bind. eapply wp_get_vma; [by rewrite Hvt|]. apply wp_bind, wp_put_vma, wp_ret.
  rewrite u64_small, i64_user by (unfold USER_END in *; lia).
  destruct (move_area lim t i v r new_len) as [Hok2 Hm]; [done|by rewrite Hvt|done|done|done|lia|lia|apply Hru| |].
  { intros a x Ha Hx. rewrite Hvt in Hx. by destruct (Hno a x). }
  split; [done|]. split; [done|]. right. right. split_and!; [lia|done|lia|apply Hru|]. exists v.
  split_and!; [done|done|done| |].
  - intros a x Ha Hx. by destruct (Hno a x).
  - rewrite <-Hvt. exact Hm.
Qed.

Lemma wp_sys_mremap lim old_addr old_size new_size flags hint s :
  mem_ok lim s → lim ≤ 2 ^ 31 → mremap_enabled old_addr old_size new_size flags hint s →
  wp (sys_mremap old_addr old_size new_size flags hint) (λ r t, mem_ok lim t ∧ m_fds t = m_fds s ∧
    mremap_spec old_addr (page_align_up old_size) (page_align_up new_size) (maps (m_vmas s)) r (maps (m_vmas t))) s.
Proof.
  intros Hs Hlim [Ha Ho Hn Hfl Hh Hsplit]. unfold sys_mremap. set (old_len := page_align_up old_size) in *.
  set (new_len := page_align_up new_size) in *.
  assert (Hfail : ∀ e, e < 0 → mem_ok lim s ∧ m_fds s = m_fds s ∧
    mremap_spec old_addr old_len new_len (maps (m_vmas s)) e (maps (m_vmas s))).
  { intros e He. split; [done|]. split; [done|]. by left. }
  destruct (negb _); [by apply wp_ret, Hfail|]. rewrite Hfl. cbn [andb].
  destruct (Z.eqb_spec old_size 0) as [|Ho0]; [by apply wp_ret, Hfail|].
  destruct (Z.eqb_spec new_size 0) as [|Hn0]; [by apply wp_ret, Hfail|]. cbn [orb].
  rewrite page_aligned_test by lia. case_bool_decide as Hp; cbn [negb]; [|by apply wp_ret, Hfail].
  destruct (align_len old_size) as [Hpo Hlo]; [lia|]. fold old_len in Hpo, Hlo.
  destruct (range_span old_addr new_size) as [n [Hnl _ Hne Hnp _ _]]; [done|done|destruct Hn; lia|]. fold new_len in Hnl, Hne, Hnp.
  assert (Hpn : page_ok new_len) by (rewrite Hnl; apply page_mul_ok).
  assert (Huser : USER_END = 2 ^ 47) by done.
  rewrite (u64_small (old_addr + old_len)) by lia. rewrite (u64_small (old_addr + new_len)) by lia.
  rewrite (proj2 (Z.ltb_ge (old_addr + old_len) old_addr)) by lia. apply wp_bind, wp_get.
  destruct (vma_find_exact_slot _ _ _) as [i|] eqn:Hslot; [|by apply wp_ret, Hfail].
  apply vma_find_exact_slot_Some in Hslot as (v&Hi&Hv&Hvs&Hve). apply wp_bind. eapply wp_get_vma; [done|].
  destruct (vs_each _ (mo_vmas _ _ _ _ Hs) i v Hi Hv) as [Hrv _ _ _].
  destruct (Z.eqb_spec (vma_start v) old_addr) as [Heq|]; cbn [negb]; [|by apply wp_ret, Hfail].
  destruct (Z.eqb_spec new_len old_len) as [Hll|Hll].
  { apply wp_ret. rewrite i64_user by lia. split; [done|]. split; [done|]. right; left. split; [done|]. split; [lia|].
    intros a x. split; [|tauto]. intros Hx. split; [done|lia]. }
  destruct (Z.ltb_spec new_len old_len) as [Hlt|Hge].
  - assert (Hdl : page_ok (old_len - new_len)).
    { apply page_ok_times in Hpo, Hpn. rewrite Hpo, Hpn, <-Z.mul_sub_distr_r. apply page_mul_ok. }
    rewrite (u64_small (old_len - new_len)) by lia.
    assert (Hal : page_align_up (old_len - new_len) = old_len - new_len) by (apply page_align_up_ok; [done|lia]).
    assert (Hstop : old_addr + new_len + (old_len - new_len) = old_addr + old_len) by lia.
    apply wp_bind. eapply wp_mono; [apply (wp_sys_munmap space root lim); [done|done|split; lia|by rewrite Hal, Hstop]|].
    intros r t Hpost. apply wp_ret. inversion Hpost as [Hbad|Hnone Hex|k t' Hsp Hum Hok]; subst r t.
    + by apply Hfail.
    + by apply Hfail.
    + cbn. rewrite i64_user by lia. destruct Hum as [Hm _ Hrest]. split; [done|]. split; [apply Hrest|].
      right; left. split; [done|]. split; [lia|]. intros a x. by rewrite Hm, Hal, Hstop.
  - rewrite (proj2 (Z.ltb_ge (old_addr + new_len) old_addr)) by lia. subst old_addr.
    exact (wp_grow_area lim i v old_len new_len flags hint s Hs Hi Hv Hpo Hpn ltac:(lia) Hve Hne Hh Hfl).
Qed.

(** ** madvise *)

(** The pages of areas in the range are dropped, the others stay. *)
Definition discarded (start stop : Z) s t : Prop :=
  ∀ p, page_ok p → 0 ≤ p < USER_END →
    ((∃ x, start ≤ p < stop ∧ maps (m_vmas s) p x) → leaf (ram_of (m_vm t)) root p = None) ∧
    ((∀ x, start ≤ p < stop → ¬ maps (m_vmas s) p x) →
       leaf (ram_of (m_vm t)) root p = leaf (ram_of (m_vm s)) root p).

Inductive madvise_post (lim addr length advice : Z) s : Z → mem S → Prop :=
  | madvise_invalid : ¬ page_ok addr ∨ 2 ^ 64 ≤ addr + page_align_up length ∨ advice < 0 ∨ MADV_DONTNEED < advice →
      madvise_post lim addr length advice s (- EINVAL) s
  | madvise_nothing : length = 0 ∨ 0 ≤ advice < MADV_DONTNEED → madvise_post lim addr length advice s 0 s
  | madvise_done t : advice = MADV_DONTNEED → only_vm s t → discarded addr (addr + page_align_up length) s t → mem_ok lim t →
      madvise_post lim addr length advice s 0 t.

Lemma dropped_pages vaddr n (v v' : vmm S) p :
  dropped space root (pages_from vaddr n) v v' → page_ok vaddr → 0 ≤ vaddr → vaddr + Z.of_nat n * 4096 ≤ USER_END →
  page_ok p → 0 ≤ p < USER_END →
  leaf (ram_of v') root p = if decide (vaddr ≤ p < vaddr + Z.of_nat n * 4096) then None else leaf (ram_of v) root p.
Proof.
  intros Hd Hpv Hv0 Hv1 Hp Hr. unfold USER_END in *. rewrite (dr_leaf _ _ _ _ _ Hd). case_decide as Hin; case_decide as Hrg; try done.
  - destruct Hrg. apply list_elem_of_fmap in Hin as (q&Hpath&Hq). pose proof Hq as (i&Hi&Hqi)%pages_from_elem.
    apply va_path_inj in Hpath as ->; [lia|lia|lia|done|]. rewrite Hqi. apply page_ok_add; [done|apply page_mul_ok].
  - destruct Hin. apply list_elem_of_fmap_2, pages_from_elem. exists (Z.to_nat ((p - vaddr) / VMM_PAGE_SIZE)).
    pose proof (page_count vaddr p Hpv Hp). lia.
Qed.

Lemma page_align_down_ok x : page_ok x → 0 ≤ x < 2 ^ 64 → page_align_down x = x.
Proof.
  intros Hp Hx. unfold page_align_down. change 0xfff with (2 ^ 12 - 1). rewrite land_align_mask by lia.
  symmetry. by apply page_ok_times.
Qed.

(** The pages of the first [i] areas. *)
Definition advised (start stop : Z) (i : nat) s t : Prop :=
  ∀ p, page_ok p → 0 ≤ p < USER_END →
    ((∃ j v, (j < i)%nat ∧ m_vmas s !! j = Some v ∧ covers v p ∧ start ≤ p < stop) → leaf (ram_of (m_vm t)) root p = None) ∧
    ((∀ j v, (j < i)%nat → m_vmas s !! j = Some v → covers v p → ¬ (start ≤ p < stop)) →
       leaf (ram_of (m_vm t)) root p = leaf (ram_of (m_vm s)) root p).

Lemma wp_advise_vma lim start stop i s t :
  mem_ok lim s → page_ok start → page_ok stop → 0 ≤ start < stop → (i < VMA_MAX)%nat →
  only_vm s t → mem_space (m_vm t) space root → advised start stop i s t →
  wp (advise_vma start stop i) (λ _ t', only_vm s t' ∧ mem_space (m_vm t') space root ∧
    advised start stop (Datatypes.S i) s t') t.
Proof.
  intros Hs Hps Hpe Hss Hi Ht Hm Hadv. assert (Hvt : m_vmas t = m_vmas s) by by rewrite Ht.
  destruct (lookup_lt_is_Some_2 (m_vmas s) i) as [v Hv]; [by rewrite (vs_length _ (mo_vmas _ _ _ _ Hs))|].
  apply wp_bind. eapply wp_get_vma; [by rewrite Hvt|].
  assert (Hlast : ∀ j, (j < Datatypes.S i)%nat → (j < i)%nat ∨ j = i) by lia.
  apply wp_when; intros Ho.
  2:{ split; [done|]. split; [done|]. intros p Hp Hr. destruct (Hadv p Hp Hr) as [Hin Hout]. split.
      - intros (j&w&Hj&Hw&Hc&Hrg). apply Hin. destruct (Hlast j Hj) as [| ->]; [by exists j, w|]. exfalso.
        simplify_eq. destruct Hc as [Hval Hc]. unfold vma_meets in Ho. rewrite Hval in Ho. cbn in Ho. lia.
      - intros Hno. apply Hout. intros j w Hj. apply Hno. lia. }
  unfold vma_meets in Ho. rewrite !andb_true_iff, !Z.ltb_lt in Ho. destruct Ho as [[Hval H1] H2].
  destruct (vs_each _ (mo_vmas _ _ _ _ Hs) i v Hv Hval) as [Hrv Hp0 Hp1 _].
  set (lo := if vma_start v <? start then start else vma_start v).
  set (hi := if stop <? vma_end v then stop else vma_end v).
  assert (Hlo : page_ok lo ∧ lo = Z.max start (vma_start v)) by (unfold lo; destruct (Z.ltb_spec (vma_start v) start); split; done || lia).
  assert (Hhi : page_ok hi ∧ hi = Z.min stop (vma_end v)) by (unfold hi; destruct (Z.ltb_spec stop (vma_end v)); split; done || lia).
  destruct Hlo as [Hplo Hlo], Hhi as [Hphi Hhi]. assert (Huser : USER_END = 2 ^ 47) by done.
  unfold vma_drop_present_pages. rewrite page_align_down_ok, page_align_up_ok by (done || lia).
  pose proof (page_count lo hi Hplo Hphi ltac:(lia)) as Hcnt.
  eapply wp_mono; [apply (wp_drop_pages space root); [by rewrite Ht; apply Hs|done|done|lia|lia]|].
  intros [] t' [Ht' Hd]. split; [by eapply only_vm_trans|]. split; [apply Hd|].
  intros p Hp Hr. rewrite (dropped_pages _ _ _ _ p Hd) by (done || lia). rewrite Hcnt.
  destruct (Hadv p Hp Hr) as [Hin Hout]. case_decide as Hrg.
  - split; [done|]. intros Hno. exfalso. by apply (Hno i v ltac:(lia) Hv); [split; [done|]|]; lia.
  - split.
    + intros (j&w&Hj&Hw&Hc&Hst). apply Hin. destruct (Hlast j Hj) as [| ->]; [by exists j, w|].
      simplify_eq. destruct Hc as [_ Hc]. lia.
    + intros Hno. apply Hout. intros j w Hj. apply Hno. lia.
Qed.

Lemma wp_sys_madvise lim addr length rdx s :
  mem_ok lim s → 0 ≤ addr < 2 ^ 64 → 0 ≤ length ≤ 2 ^ 62 →
  wp (sys_madvise addr length rdx) (madvise_post lim addr length (i32 rdx) s) s.
Proof.
  intros Hs Ha Hl. unfold sys_madvise. set (advice := i32 rdx).
  destruct (Z.eqb_spec length 0) as [|Hl0]; [by apply wp_ret, madvise_nothing; left|].
  rewrite page_aligned_test by lia. case_bool_decide as Hp; cbn [negb]; [|by apply wp_ret, madvise_invalid; left].
  destruct (align_len length) as [Hpl Hlen]; [lia|]. set (len := page_align_up length) in *.
  destruct (Z.lt_ge_cases (addr + len) (2 ^ 64)) as [Hsum|Hsum].
  2:{ assert (Hu : addr +! len = addr + len - 2 ^ 64) by (symmetry; apply (Z.mod_unique _ _ 1); lia).
      rewrite Hu, (proj2 (Z.ltb_lt _ _)) by lia. apply wp_ret, madvise_invalid. right. by left. }
  rewrite u64_small by lia. rewrite (proj2 (Z.ltb_ge (addr + len) addr)) by lia.
  destruct ((0 <=? advice) && _) eqn:Hadv.
  { apply andb_true_iff in Hadv as [?%Z.leb_le ?%Z.ltb_lt]. apply wp_ret, madvise_nothing. by right. }
  destruct (Z.eqb_spec advice MADV_DONTNEED) as [Heq|Hne]; cbn [negb].
  2:{ apply wp_ret, madvise_invalid. right; right. unfold MADV_DONTNEED in *. lia. }
  apply wp_bind. eapply (wp_for_each (λ d t, only_vm s t ∧ mem_space (m_vm t) space root ∧ advised addr (addr + len) (List.length d) s t)).
  - split; [apply only_vm_refl|]. split; [apply Hs|]. intros p Hpp Hr. split; [|done]. intros (j&v&Hj&_). cbn in Hj. lia.
  - intros d i rest t Hsq (Ht&Hm&Hd). apply seq_app_cons in Hsq as [-> Hlt]. rewrite length_app. cbn [List.length].
    rewrite Nat.add_1_r. eapply wp_advise_vma; try done; [by apply page_ok_add|lia].
  - rewrite length_seq. intros t (Ht&Hm&Hd). apply wp_ret. apply madvise_done; [done|done| |by eapply mem_ok_vm].
    intros p Hpp Hr. destruct (Hd p Hpp Hr) as [Hin Hout]. split.
    + intros (x&Hrg&j&v&Hj&Hc&_). apply Hin. exists j, v. split; [|done].
      rewrite <-(vs_length _ (mo_vmas _ _ _ _ Hs)). by eapply lookup_lt_Some.
    + intros Hno. apply Hout. intros j v _ Hj Hc Hrg. apply (Hno (area_at v p) Hrg). by exists j, v.
Qed.
End maps.
