(* ===== verification/MemProps.v ===== *)
(** * Properties of the memory system calls. *)

From stdpp Require Import relations.
From S2P Require Import Prelude Bits Ram Pmm PmmSpec PmmInit PmmProps Frames Vmm PageTable VmmSpec VmmMap VmmUser VmmProps MemCalls VmaSpec MemAreas MemMerge MemPages MemSystem MemMaps.

(** ** The calls *)

Inductive mem_call :=
  | Brk (new_brk : Z)
  | Mmap (addr length prot flags fd offset : Z)
  | Munmap (addr len : Z)
  | Mprotect (addr len prot : Z)
  | Mremap (old_addr old_size new_size flags hint : Z)
  | Madvise (addr length advice : Z).

Section props.
Context {S : Type} `{FrameAllocLaws S} (space : address_space) (root : Z).
Implicit Types s t : mem S.
Abbreviation mem_ok := (mem_ok space root).

Definition call_run (c : mem_call) : prog (mem S) Z :=
  match c with
  | Brk new_brk => sys_brk new_brk
  | Mmap addr length prot flags fd offset => sys_mmap addr length prot flags fd offset
  | Munmap addr len => sys_munmap addr len
  | Mprotect addr len prot => sys_mprotect addr len prot
  | Mremap old_addr old_size new_size flags hint => sys_mremap old_addr old_size new_size flags hint
  | Madvise addr length advice => sys_madvise addr length advice
  end.

(** Requests that stay in the user half, split no file mapping, and find a
    table entry when [MAP_FIXED] splits an area. *)
Definition call_enabled (c : mem_call) s : Prop :=
  match c with
  | Brk new_brk => 0 ≤ new_brk < 2 ^ 64
  | Mmap addr length _ flags _ _ =>
      0 ≤ addr < 2 ^ 64 ∧ 0 ≤ length ≤ 2 ^ 62 ∧
      (has (i32 flags) MAP_FIXED = true → can_split addr (addr + page_align_up length) (m_vmas s))
  | Munmap addr len => range_ok addr len ∧ no_file_split addr (addr + page_align_up len) (m_vmas s)
  | Mprotect addr len _ => range_ok addr len ∧ no_file_part addr (addr + page_align_up len) (m_vmas s)
  | Mremap old_addr old_size new_size flags hint => mremap_enabled old_addr old_size new_size flags hint s
  | Madvise addr length _ => 0 ≤ addr < 2 ^ 64 ∧ 0 ≤ length ≤ 2 ^ 62
  end.

(** What a call may do to the map from addresses to attributes. *)
Definition map_step (c : mem_call) (fds : list Z) (M : Z → area → Prop) (r : Z) (M' : Z → area → Prop) : Prop :=
  let same := ∀ a x, M' a x ↔ M a x in
  match c with
  | Brk _ | Madvise _ _ _ => same
  | Mmap addr length prot flags fd offset =>
      mmap_spec addr length (i32 prot) (i32 flags) (i32 fd) offset fds M r M'
  | Munmap addr len =>
      (r < 0 ∧ same) ∨ (r = 0 ∧ ∀ a x, M' a x ↔ M a x ∧ ¬ (addr ≤ a < addr + page_align_up len))
  | Mprotect addr len prot =>
      (r < 0 ∨ len = 0) ∧ same ∨
      (r = 0 ∧ ∀ a x, M' a x ↔ ∃ y, M a y ∧
         x = recolored addr (addr + page_align_up len) (i32 prot) (prot_vflags (i32 prot)) a y)
  | Mremap old_addr old_size new_size _ _ =>
      mremap_spec old_addr (page_align_up old_size) (page_align_up new_size) M r M'
  end.

Lemma wp_call lim c s : mem_ok lim s → lim + 1 ≤ 2 ^ 31 → call_enabled c s →
  wp (call_run c) (λ r t, mem_ok (lim + 1) t ∧
    map_step c (m_fds s) (maps (m_vmas s)) r (maps (m_vmas t))) s.
Proof.
  intros Hs Hlim He.
  assert (Hup : ∀ t, mem_ok lim t → mem_ok (lim + 1) t) by (intros t; apply mem_ok_lim; lia).
  destruct c as [b|addr len prot flags fd off|addr len|addr len prot|oa os ns flags hint|addr len adv]; cbn [call_run].
  - eapply wp_mono; [by apply (wp_sys_brk space root lim)|].
    intros r t [| | |t' ? ? Hh Ht|t' ? ? Hh Ht]; (split; [by apply Hup|]); try done; cbn; by rewrite Hh.
  - destruct He as (Ha&Hl&Hf). eapply wp_mono; [by apply (wp_sys_mmap space root lim)|]. intros r t (Ht&_&Hm). done.
  - destruct He as [Hr Hn]. eapply wp_mono; [apply (wp_sys_munmap space root lim); [lia|done..]|].
    intros r t [| |n t' Hsp [Hm _ _] Ht]; (split; [by apply Hup|]); [by left|by left|by right].
  - destruct He as [Hr Hn]. eapply wp_mono; [apply (wp_sys_mprotect space root lim); [lia|done..]|].
    intros r t [| | |n t' Hsp [Hm _ _] Ht]; (split; [by apply Hup|]); cbn.
    + left. split; [by left|done].
    + left. split; [by right|done].
    + left. split; [by left|done].
    + by right.
  - eapply wp_mono; [apply (wp_sys_mremap space root lim); [done|lia|done]|]. intros r t (Ht&_&Hm). split; [by apply Hup|done].
  - destruct He as [Ha Hl]. eapply wp_mono; [by apply (wp_sys_madvise space root lim)|].
    intros r t [| |t' _ Hv _ Ht]; (split; [by apply Hup|]); [done|done|]. cbn. by rewrite Hv.
Qed.




(** C14. [munmap] of a range of the user half fails without a change, or
    removes exactly the addresses of the range from the areas and their pages
    from the page tables, and frees each frame whose only reference was the page. *)
Theorem munmap_correct lim addr len s :
  mem_ok lim s → lim ≤ 2 ^ 31 → range_ok addr len → no_file_split addr (addr + page_align_up len) (m_vmas s) →
  ∃ r t, sys_munmap addr len s = Done (r, t) ∧ munmap_post space root lim addr len s r t.
Proof.
  intros Hs Hlim Hr Hn. apply wp_run. by apply wp_sys_munmap.
Qed.


(** C30. [mprotect] replaces the flags of a present page, the copy-on-write mark
    with them: a page that shares its frame becomes writable without a copy,
    so that a write reaches the other owners of the frame. *)
Theorem mprotect_breaks_cow lim p e s :
  mem_ok lim s → lim ≤ 2 ^ 31 → page_ok p → 0 ≤ p → p + 4096 ≤ USER_END →
  no_file_part p (p + 4096) (m_vmas s) →
  (needed_entries p (p + 4096) (m_vmas s) ≤ free_entries (m_vmas s))%nat →
  leaf (ram_of (m_vm s)) root p = Some e → has e VMM_WRITABLE = false → has e VMM_COW = true →
  2 ≤ fa_refs (frames (m_vm s)) (entry_phys e) →
  ∃ t e', sys_mprotect p 4096 (PROT_READ |! PROT_WRITE) s = Done (0, t) ∧
    leaf (ram_of (m_vm t)) root p = Some e' ∧ entry_phys e' = entry_phys e ∧
    has e' VMM_WRITABLE = true ∧ has e' VMM_COW = false ∧
    2 ≤ fa_refs (frames (m_vm t)) (entry_phys e').
Proof.
  intros Hs Hlim Hp Hp0 Hend Hnf Hn He Hw Hc Href.
  destruct (proj1 (wp_run _ _ _) (wp_sys_mprotect space root lim p 4096 (PROT_READ |! PROT_WRITE) s Hlim Hs
    ltac:(split; lia) Hnf)) as (r&t&Hrun&Hpost).
  inversion Hpost as [Hbad|Hbad|Hbad|n t' [Hsl Hst _ _ _ _] [_ [_ Hl _ Hr] _] Ht]; subst r t;
    [done|done|change (page_align_up 4096) with 4096 in Hbad; lia|].
  assert (n = 1%nat) as ->. { change (page_align_up 4096) with 4096 in Hsl. lia. }
  exists t', (make_entry (entry_phys e) (prot_vflags (i32 (PROT_READ |! PROT_WRITE)))).
  rewrite Hl, He, decide_True by (apply list_elem_of_fmap_2, pages_from_elem; exists 0%nat; split; lia).
  pose proof (entry_phys_ok e) as Hok. rewrite entry_phys_make by done.
  destruct (us_data _ _ _ (ms_user _ _ _ (mo_pages _ _ _ _ Hs)) p e He) as ((Hu&_)&_).
  { by apply (ms_flag _ _ _ (mo_pages _ _ _ _ Hs) p e); [lia|]. }
  split_and!; [done|done|done|by rewrite make_entry_writable| |by rewrite Hr].
  by rewrite (has_make (entry_phys e) _ 9) by (done || lia).
Qed.

(** *** munmap outside the user half *)

(** A page whose frame no user page maps. *)
Lemma wp_drop_other_page s vaddr e :
  m_space s = Some space → mem_space (m_vm s) space root → page_ok vaddr →
  leaf (ram_of (m_vm s)) root vaddr = Some e → user_frame (m_vm s) space root (entry_phys e) →
  (∀ va e', leaf (ram_of (m_vm s)) root va = Some e' → has e' VMM_USER = true → entry_phys e' ≠ entry_phys e) →
  wp (drop_user_page vaddr) (λ _ t, only_vm s t ∧ mem_space (m_vm t) space root ∧
    leaf (ram_of (m_vm t)) root vaddr = None ∧
    (fa_refs (frames (m_vm s)) (entry_phys e) = 1 → ¬ fa_used (frames (m_vm t)) (entry_phys e))) s.
Proof.
  intros Hsp Hs Hp He (Ho&Href&Hne) Hnm. unfold drop_user_page. apply wp_bind, wp_get, wp_bind, wp_in_vm. rewrite Hsp.
  eapply wp_of_run; [by apply (vmm_virt_to_phys_run _ _ root), Hs|]. rewrite translate_page, He by done. cbn.
  apply wp_bind, wp_in_vm. cbn. eapply wp_mono.
  { apply (wp_vmm_unmap (m_vm s) space root vaddr); [apply Hs..|done]. }
  unfold rewrite_post. rewrite He. intros rc v1 (_&Hk&_&_&Hl).
  change (has 0 VMM_PRESENT) with false in Hl. cbn in Hl.
  apply wp_in_vm. cbn. eapply wp_mono.
  { apply (mem_space_free v1 space root (entry_phys e)); [by eapply mem_space_clear| |].
    - split; [by apply (kp_other _ _ _ Hk)|]. rewrite (kp_refs _ _ _ Hk); [done|apply Ho].
    - intros va e' He'. rewrite Hl in He'. destruct (decide _); [done|]. by apply (Hnm va). }
  intros [] v2 (Hs2&Hram&Hused&_). split; [done|]. split; [done|]. cbn. split.
  - by rewrite Hram, Hl, decide_True.
  - intros Hr1 [_ Hx]%Hused. apply (Hx eq_refl). rewrite (kp_refs _ _ _ Hk); [done|apply Ho].
Qed.

(** Areas below [start] are left alone. *)
Lemma wp_unmap_above start stop s : vmas_ok (m_vmas s) → USER_END ≤ start → start < stop →
  wp (for_each (seq 0 VMA_MAX) (unmap_vma start stop)) (λ _ t, t = s) s.
Proof.
  intros Hok Hst Hss. apply (wp_for_each (λ _ t, t = s)); [done| |done].
  intros d i rest ? Hl ->. apply seq_app_cons in Hl as [-> Hlt].
  destruct (lookup_lt_is_Some_2 (m_vmas s) (length d)) as [v Hv]; [by rewrite (vs_length _ Hok)|].
  apply wp_bind. eapply wp_get_vma; [done|]. destruct (vma_valid v) eqn:Hval; [|by apply wp_ret]. cbn [negb].
  destruct (vs_each _ Hok _ v Hv Hval) as [Hr _ _ _].
  rewrite (proj2 (Z.leb_gt start (vma_start v))), (proj2 (Z.ltb_ge stop (vma_end v))), (proj2 (Z.ltb_ge start (vma_end v))) by lia.
  cbn. rewrite !andb_false_r. by apply wp_ret.
Qed.

(** C29. [munmap] does not confine its range to the user half: a process can
    remove a page of the kernel from its page tables, and the frame of the page
    goes back to the allocator. *)
Theorem munmap_reaches_kernel lim p e s :
  mem_ok lim s → lim ≤ 2 ^ 31 → page_ok p → USER_END ≤ p → p + 4096 < 2 ^ 64 →
  leaf (ram_of (m_vm s)) root p = Some e → has e VMM_USER = false →
  user_frame (m_vm s) space root (entry_phys e) → fa_refs (frames (m_vm s)) (entry_phys e) = 1 →
  (∀ va e', leaf (ram_of (m_vm s)) root va = Some e' → has e' VMM_USER = true → entry_phys e' ≠ entry_phys e) →
  ∃ t, sys_munmap p 4096 s = Done (0, t) ∧ leaf (ram_of (m_vm t)) root p = None ∧
    ¬ fa_used (frames (m_vm t)) (entry_phys e).
Proof.
  intros Hs Hlim Hp Hlo Hhi He _ Huf Hr1 Hnm.
  enough (Hwp : wp (sys_munmap p 4096) (λ r t, r = 0 ∧ leaf (ram_of (m_vm t)) root p = None ∧
    ¬ fa_used (frames (m_vm t)) (entry_phys e)) s).
  { apply wp_run in Hwp as (r&t&Hrun&->&Ht). by exists t. }
  assert (Huser : USER_END = 2 ^ 47) by done.
  unfold sys_munmap. change (page_align_up 4096) with 4096. cbn [Z.eqb]. rewrite page_aligned_test by lia.
  rewrite bool_decide_eq_true_2 by done. cbn [negb]. rewrite u64_small by lia.
  rewrite (proj2 (Z.ltb_ge (p + 4096) p)) by lia. apply wp_bind, wp_get.
  destruct (existsb _ _) eqn:Hex.
  { apply existsb_strict in Hex as (i&v&Hi&Hv&Hv1&Hv2). destruct (vs_each _ (mo_vmas _ _ _ _ Hs) i v Hi Hv) as [Hr _ _ _]. lia. }
  cbn [andb]. apply wp_bind. change (Z.to_nat (4096 / VMM_PAGE_SIZE)) with 1%nat. unfold drop_pages. cbn [seq for_each].
  replace (p + Z.of_nat 0 * VMM_PAGE_SIZE) with p by lia. apply wp_bind.
  eapply wp_mono; [apply (wp_drop_other_page s p e); [apply Hs|apply Hs|done..]|].
  intros [] t (Ht&Hms&Hl&Hfree). apply wp_ret. pose proof (mem_ok_vm space root lim s t Hs Ht Hms) as Hok.
  apply wp_bind. eapply wp_mono; [apply wp_unmap_above; [apply Hok|done|lia]|]. intros [] ? ->.
  apply wp_bind. eapply wp_mono; [apply (wp_vma_merge_adjacent (fd_refs (m_fds t)) lim Hlim); apply Hok|].
  intros [] u (Hr&_). apply wp_ret. split; [done|]. rewrite Hr. split; [done|]. by apply Hfree.
Qed.
End props.

(** ** A process with an empty address space *)

#[local] Existing Instance demo_frames.
#[local] Existing Instance demo_laws.

Definition empty_vma : vma := Vma 0 0 0 0 false false 0 0 0 false.
Definition mem0 : mem pmm :=
  Mem demo_space (Some demo_sp) (replicate VMA_MAX empty_vma) 0x400000 0x400000 (replicate 256 0) ∅ MMAP_BASE.

Lemma empty_mem_space (v : vmm pmm) space root :
  user_space v space root → (∀ va e, leaf (ram_of v) root va = Some e → has e VMM_USER = false ∧ ¬ 0 ≤ va < USER_END) →
  mem_space v space root.
Proof.
  intros Hu Hn. split; [done|..].
  - intros va e Hva He. by destruct (Hn va e He).
  - intros va vb e f He _ Hue. destruct (Hn va e He). congruence.
Qed.

Lemma no_vmas_ok : vmas_ok (replicate VMA_MAX empty_vma).
Proof.
  assert (Hl : ∀ i v, replicate VMA_MAX empty_vma !! i = Some v → v = empty_vma) by (intros i v [-> _]%lookup_replicate; done).
  split; [apply length_replicate|..].
  - intros i v ->%Hl. done.
  - intros i j v w a ->%Hl _ [Hv _]. done.
Qed.

Lemma no_files_ok lim fs : files_ok (fd_refs (replicate 256 0)) lim (replicate VMA_MAX empty_vma) fs.
Proof.
  intros f Hf. exfalso. destruct (decide (f = 0)) as [->|Hne].
  - vm_compute in Hf. lia.
  - assert (Hh : holders f (replicate VMA_MAX empty_vma) = 0%nat) by (vm_compute; done).
    assert (Hr : fd_refs (replicate 256 0) f = 0%nat); [|lia].
    unfold fd_refs. rewrite (proj2 (Z.eqb_neq f 0)) by done.
    destruct (filter (λ g, g = f) (replicate 256 0)) as [|g l] eqn:El; [done|].
    assert (Hin : g ∈ filter (λ g, g = f) (replicate 256 0)) by (rewrite El; by left).
    apply list_elem_of_filter in Hin as [-> [-> _]%elem_of_replicate]. done.
Qed.

Lemma mem0_with_ok v : mem_space v demo_sp demo_root → mem_ok demo_sp demo_root 1 (set_vm v mem0).
Proof.
  intros Hv. split; [done|done|apply no_vmas_ok|done|apply no_files_ok|done|].
  split; vm_compute; intuition congruence.
Qed.

Lemma mem0_ok : mem_ok demo_sp demo_root 1 mem0.
Proof.
  apply (mem0_with_ok demo_space). destruct demo_space_user as [Hu Hn]. apply empty_mem_space; [exact Hu|].
  intros va e. by rewrite Hn.
Qed.

(** The heap grown by two pages. *)
Definition mem_heap : mem pmm := state_of (sys_brk 0x402000) mem0.

Lemma mem_heap_run : sys_brk 0x402000 mem0 = Done (0x402000, mem_heap).
Proof.
  assert (Hv : value_of (sys_brk 0x402000) mem0 = Some 0x402000) by (vm_compute; reflexivity).
  unfold value_of in Hv. unfold mem_heap, state_of. destruct (sys_brk 0x402000 mem0) as [[r t]|]; congruence.
Qed.

Lemma mem_heap_ok : mem_ok demo_sp demo_root 2 mem_heap ∧ m_vmas mem_heap = replicate VMA_MAX empty_vma.
Proof.
  split; [|vm_compute; reflexivity].
  pose proof (wp_call demo_sp demo_root 1 (Brk 0x402000) mem0 mem0_ok ltac:(lia) ltac:(cbn; lia)) as Hwp.
  unfold wp in Hwp. cbn [call_run] in Hwp. rewrite mem_heap_run in Hwp. apply Hwp.
Qed.

Lemma empty_vma_lookup {i v} : replicate VMA_MAX empty_vma !! i = Some v → v = empty_vma.
Proof. by intros [-> _]%lookup_replicate. Qed.


Lemma mem_heap_page :
  leaf (ram_of (m_vm mem_heap)) demo_root 0x400000 = Some 0x8000000000008007 ∧
  fa_refs (frames (m_vm mem_heap)) (entry_phys 0x8000000000008007) = 1.
Proof. split; vm_compute; reflexivity. Qed.

#[local] Opaque mem_heap mem0.



Lemma munmap_post_heap (s t : mem pmm) r :
  m_vmas s = replicate VMA_MAX empty_vma → munmap_post demo_sp demo_root 2 0x400000 4096 s r t →
  r = 0 ∧ leaf (ram_of (m_vm t)) demo_root 0x400000 = None.
Proof.
  intros Hv Hpost. inversion Hpost as [[Hbad|Hbad]|Hn (i&v&Hi&Hval&_)|n t' Hsp Hum Ht]; subst.
  - done.
  - by destruct Hbad.
  - rewrite Hv in Hi. by apply empty_vma_lookup in Hi as ->.
  - split; [done|]. destruct Hum as [_ Hd _]. rewrite (dr_leaf _ _ _ _ _ Hd), decide_True; [done|].
    apply list_elem_of_fmap_2, pages_from_elem. exists 0%nat. split; [|done].
    destruct Hsp as [_ Hs _ Hp _ _]. change (page_align_up 4096) with 4096 in *. lia.
Qed.

Lemma munmap_correct_witness :
  ∃ t, sys_munmap 0x400000 4096 mem_heap = Done (0, t) ∧ leaf (ram_of (m_vm t)) demo_root 0x400000 = None.
Proof.
  destruct mem_heap_ok as [Hok Hv].
  destruct (munmap_correct demo_sp demo_root 2 0x400000 4096 mem_heap) as (r&t&Hrun&Hpost).
  - exact Hok.
  - lia.
  - unfold range_ok, USER_END. lia.
  - intros j v Hj [Hval _]. rewrite Hv in Hj. apply empty_vma_lookup in Hj as ->. discriminate Hval.
  - apply (munmap_post_heap _ _ _ Hv) in Hpost as [-> Hl]. exists t. split; [exact Hrun|exact Hl].
Defined.


(** A page of the heap made copy-on-write, its frame with a second owner. *)
Lemma cow_page lim (s : mem pmm) va e0 :
  mem_ok demo_sp demo_root lim s → page_ok va → 0 ≤ va < USER_END →
  leaf (ram_of (m_vm s)) demo_root va = Some e0 → fa_refs (frames (m_vm s)) (entry_phys e0) = 1 →
  ∃ t e, mem_ok demo_sp demo_root lim t ∧ m_vmas t = m_vmas s ∧ leaf (ram_of (m_vm t)) demo_root va = Some e ∧
    has e VMM_WRITABLE = false ∧ has e VMM_COW = true ∧ 2 ≤ fa_refs (frames (m_vm t)) (entry_phys e).
Proof.
  intros Hs Hp Hr He Href. pose proof (entry_phys_ok e0) as Hf. set (f := entry_phys e0) in *.
  destruct (proj1 (wp_run _ _ _) (wp_protect_page demo_sp demo_root s 0x205 va eq_refl eq_refl (mo_space _ _ _ _ Hs)
    (mo_pages _ _ _ _ Hs) Hp Hr)) as ([]&s1&_&Hv1&[Hms Hl Hu Hrf]).
  assert (Hfu : fa_used (frames (m_vm s)) f).
  { apply (us_data _ _ _ (ms_user _ _ _ (mo_pages _ _ _ _ Hs)) va e0 He).
    by apply (ms_flag _ _ _ (mo_pages _ _ _ _ Hs) va e0). }
  assert (Hl1 : leaf (ram_of (m_vm s1)) demo_root va = Some (make_entry f 0x205)).
  { rewrite Hl, He, decide_True; [done|]. by left. }
  destruct (proj1 (wp_run _ _ _) (fa_ref_spec (frames (m_vm s1)) f (us_inv _ _ _ (ms_user _ _ _ Hms)) (proj2 (Hu f) Hfu)
    ltac:(rewrite Hrf by done; lia))) as ([]&fs&_&Hinv&Hram&Hused&_&Hrefs).
  destruct (user_space_frames (m_vm s1) demo_sp demo_root fs) as [Hus Hsame]; [apply Hms|done|done|by intros q; apply Hused| |].
  { intros q Hq. rewrite Hrefs by done. destruct (decide _); [|lia]. subst. lia. }
  exists (set_vm (with_frames fs (m_vm s1)) s1), (make_entry f 0x205).
  split_and!; [|by rewrite Hv1|cbn; by rewrite Hsame| | |].
  - apply (mem_ok_vm _ _ lim s1); [by eapply mem_ok_vm|done|]. cbn. destruct Hms as [_ Hfl Hinj]. split; [done|..].
    + intros vb e Hvb. rewrite Hsame. by apply Hfl.
    + intros vb vc e g. rewrite !Hsame. apply Hinj.
  - by rewrite make_entry_writable.
  - by rewrite (has_make f _ 9) by (done || lia).
  - rewrite entry_phys_make by done. cbn [m_vm set_vm].
    change (frames (with_frames fs (m_vm s1))) with fs. rewrite Hrefs by by apply Hu. rewrite decide_True by done.
    rewrite Hrf by done. lia.
Qed.

Lemma mprotect_breaks_cow_witness :
  ∃ s t e, sys_mprotect 0x400000 4096 (PROT_READ |! PROT_WRITE) s = Done (0, t) ∧
    leaf (ram_of (m_vm t)) demo_root 0x400000 = Some e ∧ has e VMM_WRITABLE = true ∧
    2 ≤ fa_refs (frames (m_vm t)) (entry_phys e).
Proof.
  destruct mem_heap_ok as [Hok Hv]. destruct mem_heap_page as [He0 Hr0].
  destruct (cow_page 2 mem_heap 0x400000 0x8000000000008007) as (s&e&Hs&Hvs&He&Hw&Hc&Hr);
    [exact Hok|reflexivity|unfold USER_END; lia|exact He0|exact Hr0|]. rewrite Hv in Hvs.
  destruct (mprotect_breaks_cow demo_sp demo_root 2 0x400000 e s) as (t&e'&Hrun&Hl&_&Hw'&_&Hr').
  - exact Hs.
  - lia.
  - reflexivity.
  - lia.
  - unfold USER_END. lia.
  - intros j v Hj Hn. rewrite Hvs in Hj. apply empty_vma_lookup in Hj as ->. exfalso. apply Hn. reflexivity.
  - rewrite Hvs. vm_compute. lia.
  - exact He.
  - exact Hw.
  - exact Hc.
  - exact Hr.
  - exists s, t, e'. split; [exact Hrun|]. split; [exact Hl|]. split; [exact Hw'|exact Hr'].
Defined.

(** A page of the kernel, mapped in the address space of the process. *)
Lemma kernel_page : ∃ (s : mem pmm) e, mem_ok demo_sp demo_root 1 s ∧
  leaf (ram_of (m_vm s)) demo_root 0xffffffffc0000000 = Some e ∧ has e VMM_USER = false ∧
  user_frame (m_vm s) demo_sp demo_root (entry_phys e) ∧ fa_refs (frames (m_vm s)) (entry_phys e) = 1 ∧
  ∀ va e', leaf (ram_of (m_vm s)) demo_root va = Some e' → has e' VMM_USER = false.
Proof.
  destruct demo_space_user as [Hus Hn].
  assert (Hav : 4 ≤ fa_avail (frames demo_space)) by (vm_compute; congruence).
  assert (Hms : mem_space demo_space demo_sp demo_root) by (apply empty_mem_space; [done|]; intros va e; by rewrite Hn).
  destruct (proj1 (wp_run _ _ _) (wp_alloc demo_space (us_inv _ _ _ Hus))) as (f&v1&_&[(_&_&Hz)|[_ Ha]]); [lia|].
  destruct (mem_space_alloc demo_sp demo_root _ _ _ Hms Ha) as (Hms1&Huf&Hl1&_).
  assert (Hf : frame_ok f) by apply Ha.
  destruct (proj1 (wp_run _ _ _) (wp_vmm_map v1 demo_sp demo_root 0xffffffffc0000000 f 3 (us_inv _ _ _ (ms_user _ _ _ Hms1))
    (us_ok _ _ _ (ms_user _ _ _ Hms1)) (us_root _ _ _ (ms_user _ _ _ Hms1)) eq_refl Hf eq_refl)) as (rc&v2&_&Hk&Hpost).
  rewrite Hl1, Hn in Hpost. destruct Hpost as [(_&_&Hl)|(_&Hbad&_)]; [|rewrite (al_avail _ _ _ Ha) in Hbad; lia].
  assert (Hleaf : ∀ va e, leaf (ram_of v2) demo_root va = Some e → va_path 0xffffffffc0000000 = va_path va ∧ e = make_entry f 3).
  { intros va e. rewrite Hl, Hl1, Hn. destruct (decide _); [|done]. by intros [= <-]. }
  assert (Huf2 : user_frame v2 demo_sp demo_root f).
  { destruct Huf as (Ho&Hr&Hne). split; [by apply (kp_other _ _ _ Hk)|]. rewrite (kp_refs _ _ _ Hk); [done|apply Ho]. }
  assert (Hnu : has (make_entry f 3) VMM_USER = false) by by rewrite make_entry_user.
  exists (set_vm v2 mem0), (make_entry f 3). cbn [m_vm set_vm]. rewrite entry_phys_make by done. split_and!; [| |done|done| |].
  - apply mem0_with_ok, empty_mem_space.
    + split; [apply Hk|apply Hk|apply (kp_space _ _ _ Hk), (us_root _ _ _ (ms_user _ _ _ Hms1))|].
      intros va e [_ ->]%Hleaf. by rewrite Hnu.
    + intros va e [Hpath ->]%Hleaf. split; [done|]. intros Hva. unfold USER_END in Hva.
      assert (Hi : 511 = (va >>! 39) &! (2 ^ 9 - 1)) by exact (f_equal (hd 0) Hpath).
      rewrite land_low_mask, Z.shiftr_div_pow2 in Hi by lia.
      pose proof (Z.div_lt_upper_bound va (2 ^ 39) 256 ltac:(lia) ltac:(lia)).
      rewrite Z.mod_small in Hi by (split; [apply Z.div_pos; lia|lia]). lia.
  - by rewrite Hl, decide_True.
  - rewrite (kp_refs _ _ _ Hk); [apply Ha|apply Huf].
  - intros va e' [_ ->]%Hleaf. done.
Qed.

Lemma munmap_reaches_kernel_witness :
  ∃ s t, sys_munmap 0xffffffffc0000000 4096 s = Done (0, t) ∧
    leaf (ram_of (m_vm t)) demo_root 0xffffffffc0000000 = None.
Proof.
  destruct kernel_page as (s&e&Hs&He&Hu&Huf&Hr&Hno).
  destruct (munmap_reaches_kernel demo_sp demo_root 1 0xffffffffc0000000 e s) as (t&Hrun&Hl&_).
  - exact Hs.
  - lia.
  - reflexivity.
  - unfold USER_END. lia.
  - lia.
  - exact He.
  - exact Hu.
  - exact Huf.
  - exact Hr.
  - intros va e' He' Hu'. rewrite (Hno va e' He') in Hu'. discriminate Hu'.
  - exists s, t. split; [exact Hrun|exact Hl].
Defined.
