(* ===== verification/VmmDestroy.v ===== *)
(** * Destroying an address space

    [vmm_destroy_address_space] releases, once each, the frames of the user
    pages, the tables of the user half, the top table and the structure. *)

From S2P Require Import Prelude Bits Ram Frames Vmm PageTable VmmSpec VmmUser VmmSpace MemCalls VmaSpec MemPages.

(** ** Pages by their paths *)

Definition path_va (path : list Z) : Z :=
  match path with [a; b; c; d] => a * 2 ^ 39 + b * 2 ^ 30 + c * 2 ^ 21 + d * 2 ^ 12 | _ => 0 end.

Lemma path_va_path path : length path = 4%nat → Forall idx_ok path → va_path (path_va path) = path.
Proof.
  destruct path as [|a [|b [|c [|d []]]]]; try done. intros _ Hf.
  repeat (apply Forall_cons in Hf as [?%id Hf]). unfold idx_ok in *. cbn [path_va].
  unfold va_path, pml4_index, pdpt_index, pd_index, pt_index. change 0x1ff with (2 ^ 9 - 1).
  rewrite !land_low_mask, !Z.shiftr_div_pow2 by lia. repeat f_equal; Z.div_mod_to_equations; lia.
Qed.

Lemma path_va_user path : length path = 4%nat → Forall idx_ok path → hd 0 path < 256 →
  0 ≤ path_va path < USER_END.
Proof.
  destruct path as [|a [|b [|c [|d []]]]]; try done. intros _ Hf Ha. cbn in Ha.
  repeat (apply Forall_cons in Hf as [?%id Hf]). unfold idx_ok, USER_END in *. cbn [path_va]. lia.
Qed.

Lemma table_at_leaf r root va f : table_at r root (va_path va) = Some f ↔
  ∃ e, leaf r root va = Some e ∧ entry_phys e = f.
Proof.
  change (va_path va) with (walk_path va ++ [pt_index va]). rewrite table_at_snoc. unfold leaf.
  destruct (table_at r root (walk_path va)) as [pt|]; cbn [mbind option_bind]; [|naive_solver].
  unfold pt_child. destruct (has _ _); naive_solver.
Qed.

(** ** The frames of a tree *)

(** The frames below [table] in the order of the walk, [d] levels of tables
    above the pages; only the first [n] entries of [table] count. *)
Fixpoint tree_frames (r : ram) (d : nat) (n table : Z) : list Z :=
  mjoin ((λ i,
    match pt_child r table i with
    | None => []
    | Some t => match d with O => [t] | S d => tree_frames r d PAGE_ENTRIES t ++ [t] end
    end) <$> seqZ 0 n).

Definition space_frames (r : ram) (root self : Z) : list Z := tree_frames r 3 256 root ++ [root; self].

(** Paths to the tables and pages below a table. *)
Definition below (d : nat) (n : Z) (p : list Z) : Prop :=
  (0 < length p ≤ S d)%nat ∧ Forall idx_ok p ∧ hd 0 p < n.

Lemma below_cons d n i p : 0 ≤ i < n → n ≤ 512 → below d 512 p → below (S d) n (i :: p).
Proof.
  intros Hi Hn (Hl&Hf&_). split; [cbn; lia|]. split; [|cbn; lia]. constructor; [unfold idx_ok; lia|done].
Qed.
Lemma below_one d n i : 0 ≤ i < n → n ≤ 512 → below d n [i].
Proof. intros Hi Hn. split; [cbn; lia|]. split; [|cbn; lia]. repeat constructor; unfold idx_ok; lia. Qed.

Lemma tree_frames_elem r d n table f : 0 ≤ n ≤ 512 →
  f ∈ tree_frames r d n table ↔ ∃ p, below d n p ∧ table_at r table p = Some f.
Proof.
  revert n table. induction d as [|d IH]; intros n table Hn; cbn [tree_frames]; rewrite list_elem_of_join;
    setoid_rewrite list_elem_of_fmap.
  - split.
    + intros (l&Hf&i&->&Hi). apply elem_of_seqZ in Hi. destruct (pt_child r table i) as [t|] eqn:Hc; [|by apply elem_of_nil in Hf].
      apply list_elem_of_singleton in Hf as ->. exists [i]. split; [apply below_one; lia|]. cbn. by rewrite Hc.
    + intros (p&(Hl&Hf&Hh)&Ht). destruct p as [|i [|]]; cbn in *; [lia| |lia]. apply Forall_cons_1 in Hf as [Hi _].
      exists [f]. split; [by left|]. exists i. destruct (pt_child r table i) as [t|]; cbn in *; [|done].
      split; [congruence|]. apply elem_of_seqZ. unfold idx_ok in Hi. lia.
  - split.
    + intros (l&Hf&i&->&Hi). apply elem_of_seqZ in Hi. destruct (pt_child r table i) as [t|] eqn:Hc; [|by apply elem_of_nil in Hf].
      apply elem_of_app in Hf as [Hf|Hf].
      * apply IH in Hf as (p&Hp&Ht); [|done]. exists (i :: p). split; [apply below_cons; [lia|lia|done]|]. cbn. by rewrite Hc.
      * apply list_elem_of_singleton in Hf as ->. exists [i]. split; [apply below_one; lia|]. cbn. by rewrite Hc.
    + intros (p&(Hl&Hf&Hh)&Ht). destruct p as [|i p]; cbn in *; [lia|]. apply Forall_cons_1 in Hf as [Hi Hf].
      destruct (pt_child r table i) as [t|] eqn:Hc; cbn in Ht; [|done].
      exists (tree_frames r d PAGE_ENTRIES t ++ [t]). split.
      * apply elem_of_app. destruct p as [|j p]; [right; cbn in Ht; injection Ht as ->; by left|]. left.
        apply IH; [done|]. exists (j :: p). split; [|done]. split; [cbn in *; lia|]. split; [done|].
        apply Forall_cons_1 in Hf as [Hj _]. unfold idx_ok in Hj. cbn. unfold PAGE_ENTRIES. lia.
      * exists i. rewrite Hc. split; [done|]. apply elem_of_seqZ. unfold idx_ok in Hi. lia.
Qed.

Lemma NoDup_mjoin {A B} (g : A → list B) l : NoDup l → (∀ i, i ∈ l → NoDup (g i)) →
  (∀ i j f, i ∈ l → j ∈ l → f ∈ g i → f ∈ g j → i = j) → NoDup (mjoin (g <$> l)).
Proof.
  induction l as [|i l IH]; intros Hnd Hg Hx; cbn; [constructor|]. apply NoDup_cons in Hnd as [Hni Hnd].
  apply NoDup_app. split; [apply Hg; by left|]. split.
  - intros f Hf Hin. apply list_elem_of_join in Hin as (k&Hfk&Hk). apply list_elem_of_fmap in Hk as (j&->&Hj).
    assert (i = j) as -> by (eapply Hx; [by left|by right|done|done]). done.
  - apply IH; [done|intros; apply Hg; by right|]. intros a b f Ha Hb. apply Hx; by right.
Qed.

(** When every frame below the table has one path, it occurs once. *)
Lemma tree_frames_NoDup r d n table : 0 ≤ n ≤ 512 →
  (∀ p q f, below d n p → below d n q → table_at r table p = Some f → table_at r table q = Some f → p = q) →
  NoDup (tree_frames r d n table).
Proof.
  revert n table. induction d as [|d IH]; intros n table Hn Hinj; cbn [tree_frames]; apply NoDup_mjoin; [apply NoDup_seqZ| | |apply NoDup_seqZ| |].
  - intros i _. destruct (pt_child r table i); [apply NoDup_singleton|apply NoDup_nil_2].
  - intros i j f Hi%elem_of_seqZ Hj%elem_of_seqZ Hfi Hfj.
    destruct (pt_child r table i) as [t|] eqn:Hci; [|by apply elem_of_nil in Hfi].
    destruct (pt_child r table j) as [u|] eqn:Hcj; [|by apply elem_of_nil in Hfj].
    apply list_elem_of_singleton in Hfi as ->. apply list_elem_of_singleton in Hfj as ->.
    assert ([i] = [j]) by (eapply (Hinj [i] [j] u); [apply below_one; lia|apply below_one; lia|cbn; by rewrite Hci|cbn; by rewrite Hcj]).
    congruence.
  - intros i Hi%elem_of_seqZ. destruct (pt_child r table i) as [t|] eqn:Hc; [|apply NoDup_nil_2].
    apply NoDup_app. split; [|split; [|apply NoDup_singleton]].
    + apply IH; [done|]. intros p q f Hp Hq Htp Htq. assert (i :: p = i :: q); [|congruence].
      apply (Hinj _ _ f); [apply below_cons; [lia|lia|done]|apply below_cons; [lia|lia|done]|cbn; by rewrite Hc|cbn; by rewrite Hc].
    + intros f Hf ->%list_elem_of_singleton. apply tree_frames_elem in Hf as (p&Hp&Ht); [|done].
      assert (i :: p = [i]).
      { apply (Hinj _ _ t); [apply below_cons; [lia|lia|done]|apply below_one; lia|cbn; by rewrite Hc|cbn; by rewrite Hc]. }
      destruct Hp as [Hl _]. destruct p; [cbn in Hl; lia|congruence].
  - assert (Hat : ∀ i f, 0 ≤ i < n → f ∈ match pt_child r table i with None => [] | Some t => tree_frames r d PAGE_ENTRIES t ++ [t] end →
      ∃ p, below (S d) n (i :: p) ∧ table_at r table (i :: p) = Some f).
    { intros i f Hi Hf. destruct (pt_child r table i) as [t|] eqn:Hc; [|by apply elem_of_nil in Hf].
      apply elem_of_app in Hf as [Hf| ->%list_elem_of_singleton].
      - apply tree_frames_elem in Hf as (p&Hp&Ht); [|done]. exists p. split; [apply below_cons; [lia|lia|done]|]. cbn. by rewrite Hc.
      - exists []. split; [apply below_one; lia|]. cbn. by rewrite Hc. }
    intros i j f Hi%elem_of_seqZ Hj%elem_of_seqZ Hfi Hfj.
    destruct (Hat i f ltac:(lia) Hfi) as (p&Hp&Htp). destruct (Hat j f ltac:(lia) Hfj) as (q&Hq&Htq).
    pose proof (Hinj _ _ f Hp Hq Htp Htq). congruence.
Qed.

(** ** Releasing a list of frames *)

Section release.
Context {S : Type} `{FrameAllocLaws S}.
Implicit Types s : vmm S.

(** [l] lists distinct frames, each with a reference to give up. *)
Definition owned (l : list Z) s : Prop :=
  NoDup l ∧ ∀ q, q ∈ l → fa_used (frames s) q ∧ 1 ≤ fa_refs (frames s) q.

(** From [s] to [s'] one reference to each frame of [l] was given up. *)
Record refs_dropped (l : list Z) s s' : Prop := {
  rl_inv : fa_inv (frames s');
  rl_ram : ram_of s' = ram_of s;
  rl_used : ∀ q, fa_used (frames s') q ↔ fa_used (frames s) q ∧ (q ∈ l → fa_refs (frames s) q ≠ 1);
  rl_refs : ∀ q, fa_used (frames s') q →
    fa_refs (frames s') q = if decide (q ∈ l) then fa_refs (frames s) q - 1 else fa_refs (frames s) q;
  rl_avail : fa_avail (frames s') =
    fa_avail (frames s) + Z.of_nat (length (filter (λ q, fa_refs (frames s) q = 1) l));
  rl_rest : kernel_space_pml4 s' = kernel_space_pml4 s ∧
    g_cpu_count s' = g_cpu_count s ∧ tlb_log s' = tlb_log s;
}.

Lemma released_nil s : fa_inv (frames s) → refs_dropped [] s s.
Proof.
  intros Hi. split; [done|done| |done|cbn; lia|done].
  intros q. split; [|by intros []]. intros Hq. split; [done|]. by intros []%elem_of_nil.
Qed.

Lemma owned_app l l' s : owned (l ++ l') s → owned l s.
Proof.
  intros [Hnd Ho]. apply NoDup_app in Hnd as (Hnd&_&_). split; [done|]. intros q Hq. apply Ho, elem_of_app. by left.
Qed.

Lemma wp_release l f s s1 : refs_dropped l s s1 → owned (l ++ [f]) s →
  wp (in_frames (fa_free f)) (λ _ s2, refs_dropped (l ++ [f]) s s2) s1.
Proof.
  intros [Hi Hram Hu Hr Ha Hrest] [Hnd Ho]. apply NoDup_app in Hnd as (_&Hni&_).
  assert (Hf : f ∉ l) by (intros Hin; apply (Hni f Hin); by left).
  destruct (Ho f ltac:(apply elem_of_app; right; by left)) as [Huf Hrf].
  assert (Huf1 : fa_used (frames s1) f) by (apply Hu; by split).
  pose proof (Hr f Huf1) as Hrf1. rewrite decide_False in Hrf1 by done.
  apply wp_in_frames. eapply wp_mono; [apply (fa_free_spec (frames s1) f); [done|done|lia]|].
  intros _ t (Ti&Tram&Tu&Tr&Ta). split; cbn [with_frames frames kernel_space_pml4 g_cpu_count tlb_log]; [done| | | | |done].
  - unfold ram_of in *. cbn. congruence.
  - intros q. rewrite Tu, Hu, elem_of_app, list_elem_of_singleton, Hrf1. destruct (decide (q = f)) as [->|]; naive_solver.
  - intros q Hq. apply Tu in Hq as [Hq1 _]. rewrite (Tr q Hq1).
    destruct (decide (q = f)) as [->|Hne]; [rewrite Hrf1, decide_True; [done|apply elem_of_app; right; by left]|].
    rewrite (Hr q Hq1). apply decide_ext. rewrite elem_of_app, list_elem_of_singleton. naive_solver.
  - rewrite Ta, Ha, Hrf1, filter_app, length_app, filter_cons, filter_nil.
    destruct (decide (fa_refs (frames s) f = 1)); cbn [length]; lia.
Qed.

(** A loop over the present entries of a table whose body releases [g i t]
    for the entry [i] with frame [t]. *)
Lemma wp_for_present_release (g : Z → list Z) table n body s l0 s1 :
  refs_dropped l0 s s1 →
  (∀ i l s2, 0 ≤ i < n → has (pt_entry (ram_of s) table i) VMM_PRESENT = true →
     refs_dropped l s s2 → owned (l ++ g i) s →
     wp (body i (pt_entry (ram_of s) table i)) (λ _ s3, refs_dropped (l ++ g i) s s3) s2) →
  (∀ i, has (pt_entry (ram_of s) table i) VMM_PRESENT = false → g i = []) →
  owned (l0 ++ mjoin (g <$> seqZ 0 n)) s →
  wp (for_present table n body) (λ _ s2, refs_dropped (l0 ++ mjoin (g <$> seqZ 0 n)) s s2) s1.
Proof.
  intros Hrel Hbody Hskip. unfold for_present.
  assert (Hin : ∀ i, i ∈ seqZ 0 n → 0 ≤ i < n) by (intros i Hi%elem_of_seqZ; lia).
  revert l0 s1 Hrel Hin. induction (seqZ 0 n) as [|i js IH]; intros l0 s1 Hrel Hin Hown; cbn [fmap list_fmap mjoin list_join] in *.
  { cbn. rewrite app_nil_r. by apply wp_ret. }
  cbn [for_each]. apply wp_bind. apply wp_bind, wp_read64.
  replace (rd64 (ram_of s1) (table + 8 * i)) with (pt_entry (ram_of s) table i) by (unfold pt_entry; by rewrite (rl_ram _ _ _ Hrel)).
  rewrite app_assoc in Hown |- *.
  eapply (wp_mono _ (λ _ s2, refs_dropped (l0 ++ g i) s s2)).
  { destruct (has _ _) eqn:Hp.
    - apply Hbody; [apply Hin; by left|done|done|]. by eapply owned_app.
    - apply wp_ret. by rewrite (Hskip i Hp), app_nil_r. }
  intros [] s2 H2. apply IH; [done|intros j Hj; apply Hin; by right|done].
Qed.

(** The nested loops, [d] levels of tables above the pages. *)
Fixpoint release_level (d : nat) (table n : Z) : prog (vmm S) unit :=
  for_present table n (λ i e,
    match d with
    | O => in_frames (fa_free (entry_phys e))
    | Datatypes.S d =>
        release_level d (entry_phys e) PAGE_ENTRIES;;
        e ← read64 (table + 8 * i); in_frames (fa_free (entry_phys e))
    end).

Lemma wp_release_level d table n s l0 s1 :
  refs_dropped l0 s s1 → owned (l0 ++ tree_frames (ram_of s) d n table) s →
  wp (release_level d table n) (λ _ s2, refs_dropped (l0 ++ tree_frames (ram_of s) d n table) s s2) s1.
Proof.
  revert table n l0 s1. induction d as [|d IH]; intros table n l0 s1 Hrel Hown; cbn [release_level tree_frames] in *;
    (apply wp_for_present_release; [done| | |done]); try (intros i Hp; unfold pt_child; by rewrite Hp).
  - intros i l s2 _ Hp H2 Ho. unfold pt_child in *. rewrite Hp in *. by apply wp_release.
  - intros i l s2 _ Hp H2 Ho. unfold pt_child in *. rewrite Hp in *. rewrite app_assoc in *.
    apply wp_bind. eapply wp_mono; [apply IH; [done|by eapply owned_app]|]. intros [] s3 H3. cbn beta.
    apply wp_bind, wp_read64. rewrite (rl_ram _ _ _ H3). by apply wp_release.
Qed.

Lemma wp_destroy p root s :
  fa_inv (frames s) → space_root s (SpaceAt p) root →
  owned (space_frames (ram_of s) root (rd64 (ram_of s) (p + 8))) s →
  wp (vmm_destroy_address_space (Some (SpaceAt p)))
     (λ _ s', refs_dropped (space_frames (ram_of s) root (rd64 (ram_of s) (p + 8))) s s') s.
Proof.
  intros Hi [Hroot _] Hown. unfold space_frames in *. set (tree := tree_frames _ _ _ _) in *.
  change (tree ++ [root; rd64 (ram_of s) (p + 8)]) with (tree ++ ([root] ++ [rd64 (ram_of s) (p + 8)])) in *. rewrite app_assoc in *.
  assert (Hp : ∀ s2 : vmm S, ram_of s2 = ram_of s → pml4_phys (SpaceAt p) s2 = Done (root, s2)) by (intros s2 E; rewrite <-Hroot, <-E; done).
  unfold vmm_destroy_address_space. apply wp_bind, (wp_of_run _ _ _ _ _ (Hp s eq_refl)).
  apply wp_bind. eapply wp_mono; [apply (wp_release_level 3 root 256 s []); [by apply released_nil|by do 2 eapply owned_app]|].
  intros [] s1 H1. cbn beta. cbn [app] in H1. fold tree in H1.
  apply wp_bind, (wp_of_run _ _ _ _ _ (Hp s1 (rl_ram _ _ _ H1))). apply wp_bind.
  eapply wp_mono; [apply wp_release; [done|by eapply owned_app]|]. intros [] s2 H2. cbn beta.
  apply wp_bind. unfold self_phys. apply wp_read64. rewrite (rl_ram _ _ _ H2). by apply wp_release.
Qed.

(** ** The address space of a process *)

(** The structure names its own frame, and it and the tables of the user half
    each hold a reference. *)
Record process_space s (p root : Z) : Prop := {
  pc_mem : mem_space s (SpaceAt p) root;
  pc_self : rd64 (ram_of s) (p + 8) = p;
  pc_struct : 1 ≤ fa_refs (frames s) p;
  pc_tables : ∀ path t, path_ok path → hd 0 path < 256 → table_at (ram_of s) root path = Some t →
    1 ≤ fa_refs (frames s) t;
}.

(** A page of the user half by its path. *)
Lemma leaf_at r root path f : length path = 4%nat → Forall idx_ok path → hd 0 path < 256 →
  table_at r root path = Some f →
  ∃ va e, va_path va = path ∧ 0 ≤ va < USER_END ∧ leaf r root va = Some e ∧ entry_phys e = f.
Proof.
  intros Hl Hf Hh Ht. pose proof (path_va_path path Hl Hf) as Hp. pose proof (path_va_user path Hl Hf Hh).
  destruct (proj1 (table_at_leaf r root (path_va path) f)) as (e&He&Hfe); [by rewrite Hp|]. by exists (path_va path), e.
Qed.

(** What lies below the top table: a table, or the frame of a user page. *)
Lemma process_frame_kind s p root path f : process_space s p root → below 3 256 path →
  table_at (ram_of s) root path = Some f →
  path_ok path ∨ (user_frame s (SpaceAt p) root f ∧
    ∃ va e, va_path va = path ∧ leaf (ram_of s) root va = Some e ∧ has e VMM_USER = true ∧ entry_phys e = f).
Proof.
  intros Hs (Hl&Hf&Hh) Ht. destruct (decide (length path = 4%nat)) as [H4|].
  - right. destruct (leaf_at _ _ _ _ H4 Hf Hh Ht) as (va&e&Hp&Hva&He&Hfe).
    assert (Hu : has e VMM_USER = true) by (by eapply (ms_flag _ _ _ (pc_mem _ _ _ Hs))).
    split; [|by exists va, e]. rewrite <-Hfe. by eapply (us_data _ _ _ (ms_user _ _ _ (pc_mem _ _ _ Hs))).
  - left. split; [lia|done].
Qed.

Lemma process_paths_inj s p root q1 q2 f : process_space s p root → below 3 256 q1 → below 3 256 q2 →
  table_at (ram_of s) root q1 = Some f → table_at (ram_of s) root q2 = Some f → q1 = q2.
Proof.
  intros Hs H1 H2 Ht1 Ht2. pose proof (us_ok _ _ _ (ms_user _ _ _ (pc_mem _ _ _ Hs))) as Hok.
  destruct (process_frame_kind _ _ _ _ _ Hs H1 Ht1) as [P1|(U1&va&e&<-&Ha&Hea&Hfa)],
    (process_frame_kind _ _ _ _ _ Hs H2 Ht2) as [P2|(U2&vb&e'&<-&Hb&Heb&Hfb)].
  - by eapply (so_inj _ _ Hok).
  - destruct U2 as [(_&_&Hn) _]. by destruct (Hn _ P1).
  - destruct U1 as [(_&_&Hn) _]. by destruct (Hn _ P2).
  - eapply (ms_inj _ _ _ (pc_mem _ _ _ Hs)); [done..|congruence].
Qed.

Lemma process_owned s p root : process_space s p root → owned (space_frames (ram_of s) root p) s.
Proof.
  intros Hs. pose proof (ms_user _ _ _ (pc_mem _ _ _ Hs)) as [_ Hok [_ Hst] _].
  assert (Hnil : path_ok []) by (split; [cbn; lia|constructor]).
  assert (Hroot : ¬ root ∈ tree_frames (ram_of s) 3 256 root).
  { intros (q&Hq&Ht)%tree_frames_elem; [|lia].
    destruct (process_frame_kind _ _ _ _ _ Hs Hq Ht) as [P|([(_&_&Hn) _]&_)]; [|by apply (Hn [])].
    assert (q = []) as -> by (by eapply (so_inj _ _ Hok)). destruct Hq as [Hq _]. cbn in Hq. lia. }
  assert (Hself : ¬ p ∈ tree_frames (ram_of s) 3 256 root).
  { intros (q&Hq&Ht)%tree_frames_elem; [|lia].
    destruct (process_frame_kind _ _ _ _ _ Hs Hq Ht) as [P|((_&_&Hn)&_)]; [|done].
    destruct Hst as (_&_&Hn). by apply (Hn q). }
  assert (Hrp : root ≠ p) by (destruct Hst as (_&_&Hn); intros ->; by apply (Hn [])).
  assert (Hnd : NoDup (tree_frames (ram_of s) 3 256 root)) by (apply tree_frames_NoDup; [lia|intros; by eapply process_paths_inj]).
  pose proof (λ q, proj1 (tree_frames_elem (ram_of s) 3 256 root q ltac:(lia))) as Hin.
  unfold space_frames. generalize dependent (tree_frames (ram_of s) 3 256 root). intros tree Hroot Hself Hnd Hin. split.
  - apply NoDup_app. split; [done|]. split.
    + intros f Hf [->|[->|[]%elem_of_nil]%elem_of_cons]%elem_of_cons; done.
    + repeat constructor; rewrite ?elem_of_cons, ?elem_of_nil; naive_solver.
  - intros q [Hq|[->|[->|[]%elem_of_nil]%elem_of_cons]%elem_of_cons]%elem_of_app.
    + destruct (Hin q Hq) as (path&Hb&Ht).
      destruct (process_frame_kind _ _ _ _ _ Hs Hb Ht) as [P|([(Hu&_) Hr]&_)]; [|split; [done|apply Hr]].
      split; [by eapply (so_used _ _ Hok)|]. eapply (pc_tables _ _ _ Hs); [done|apply Hb|done].
    + split; [by eapply (so_used _ _ Hok)|]. eapply (pc_tables _ _ _ Hs); [done|cbn; lia|done].
    + split; [apply Hst|apply (pc_struct _ _ _ Hs)].
Qed.

Lemma process_destroy s p root : process_space s p root →
  wp (vmm_destroy_address_space (Some (SpaceAt p))) (λ _ s', refs_dropped (space_frames (ram_of s) root p) s s') s.
Proof.
  intros Hs. pose proof (process_owned _ _ _ Hs) as Ho. pose proof (ms_user _ _ _ (pc_mem _ _ _ Hs)) as [Hi _ Hr _].
  pose proof (wp_destroy p root s Hi Hr) as Hw. rewrite (pc_self _ _ _ Hs) in Hw. exact (Hw Ho).
Qed.
End release.
