(* ===== verification/VmmScope.v ===== *)
(** * What [vmm_map] writes

    Mapping a page touches the entries on the way to it and nothing else; the
    frames it takes become tables on that way. *)

From S2P Require Import Prelude Bits Ram Frames Vmm PageTable VmmSpec VmmMap.

Section scope.
Context {S : Type} `{FrameAllocLaws S}.
Implicit Types s : vmm S.

(** From [s] to [s'] only the entries on the way to [va] were written, and
    the frames taken are tables on that way. *)
Record map_scope (root va : Z) s s' : Prop := {
  sc_entry : ∀ q j, fa_used (frames s) q → page_ok q → idx_ok j →
    (∀ n, table_at (ram_of s) root (take n (va_path va)) = Some q → va_path va !! n ≠ Some j) →
    pt_entry (ram_of s') q j = pt_entry (ram_of s) q j;
  sc_tables : ∀ p t, path_ok p → table_at (ram_of s') root p = Some t →
    table_at (ram_of s) root p = Some t ∨ ¬ fa_used (frames s) t;
  sc_keep : ∀ p t, path_ok p → table_at (ram_of s) root p = Some t → table_at (ram_of s') root p = Some t;
  sc_new : ∀ q, fa_used (frames s') q → fa_used (frames s) q ∨
    (fa_refs (frames s') q = 1 ∧ ∃ n, (n ≤ 3)%nat ∧ table_at (ram_of s') root (take n (va_path va)) = Some q);
  sc_kernel : kernel_space_pml4 s' = kernel_space_pml4 s;
  sc_log : tlb_log s `prefix_of` tlb_log s';
}.

(** A walk that creates tables takes at most three frames. *)
Definition grown_within (n : Z) root s s' : Prop := ∃ k, k ≤ n ∧ grown k root s s'.

Lemma take_path_ok n va : (n ≤ 3)%nat → path_ok (take n (va_path va)).
Proof. intros Hn. split; [rewrite length_take; lia|]. apply Forall_take, va_path_ok. Qed.

Lemma map_scope_trans n m root va s s1 s2 :
  grown n root s s1 → map_scope root va s s1 → grown m root s1 s2 → map_scope root va s1 s2 → map_scope root va s s2.
Proof.
  intros G1 M1 G2 M2. split.
  - intros q j Hu Hq Hj Hno. pose proof (gr_used _ _ _ _ G1 q Hu) as Hu1.
    rewrite (sc_entry _ _ _ _ M2), (sc_entry _ _ _ _ M1); try done.
    intros k Hk Hl. assert (k < 4)%nat by (apply lookup_lt_Some in Hl; done).
    destruct (sc_tables _ _ _ _ M1 _ _ (take_path_ok k va ltac:(lia)) Hk) as [Ht|]; [|done]. by apply (Hno k).
  - intros p t Hp Ht. destruct (sc_tables _ _ _ _ M2 p t Hp Ht) as [Ht1|Hn]; [by apply (sc_tables _ _ _ _ M1)|].
    right. intros Hu. by apply Hn, (gr_used _ _ _ _ G1).
  - intros p t Hp Ht. by apply (sc_keep _ _ _ _ M2), (sc_keep _ _ _ _ M1).
  - intros q Hq. destruct (sc_new _ _ _ _ M2 q Hq) as [Hu1|?]; [|by right].
    destruct (sc_new _ _ _ _ M1 q Hu1) as [?|(Hr&k&Hk&Ht)]; [by left|right].
    rewrite (gr_refs _ _ _ _ G2) by done. split; [done|]. exists k. split; [done|].
    apply (gr_tables _ _ _ _ G2); [by apply take_path_ok|done].
  - by rewrite (sc_kernel _ _ _ _ M2), (sc_kernel _ _ _ _ M1).
  - etrans; [apply (sc_log _ _ _ _ M1)|apply (sc_log _ _ _ _ M2)].
Qed.

(** One level of the walk, for the table at the first [k] indices of [va]. *)
Lemma wp_ensure_scope s root k t i fl va :
  fa_inv (frames s) → space_ok s root → (k ≤ 2)%nat → va_path va !! k = Some i →
  table_at (ram_of s) root (take k (va_path va)) = Some t →
  wp (ensure_next_table t i fl) (λ res s',
    ((∃ f, res = Some f ∧ table_at (ram_of s') root (take (Datatypes.S k) (va_path va)) = Some f) ∨ res = None) ∧
    grown 1 root s s' ∧ map_scope root va s s') s.
Proof.
  intros Hinv Hok Hk Hi Ht.
  pose proof (take_path_ok k va ltac:(lia)) as Hp.
  assert (Hio : idx_ok i) by (eapply Forall_lookup_1; [apply (va_path_ok va)|done]).
  assert (Htk : take (Datatypes.S k) (va_path va) = take k (va_path va) ++ [i]) by (by apply take_S_r).
  pose proof (wp_ensure_next_table s root _ t i fl Hinv Hok Hp ltac:(rewrite length_take; lia) Hio Ht) as Hspec.
  pose proof (table_at_frame _ _ _ _ (so_root _ _ Hok) Ht) as Htf.
  assert (Hraw : wp (ensure_next_table t i fl) (λ res s',
    (∀ q j, fa_used (frames s) q → page_ok q → idx_ok j → (q = t → j ≠ i) → pt_entry (ram_of s') q j = pt_entry (ram_of s) q j) ∧
    (∀ q, fa_used (frames s') q → fa_used (frames s) q ∨ (fa_refs (frames s') q = 1 ∧ res = Some q))) s).
  { unfold ensure_next_table. apply wp_bind, wp_read64. destruct (has _ _); [apply wp_ret; split; [done|by left]|].
    apply wp_bind. eapply wp_mono; [by apply wp_alloc|]. intros f s1 [(->&->&_)|[Hf0 Ha]]; [apply wp_ret; split; [done|by left]|].
    rewrite (proj2 (Z.eqb_neq f 0)) by done. apply wp_bind, wp_upd_ram, wp_bind, wp_upd_ram, wp_ret. split.
    - intros q j Hu Hq Hj Hne. assert (q ≠ f) by (intros ->; by apply (al_fresh _ _ _ Ha)).
      rewrite !ram_of_upd, pt_entry_write by (done || apply Htf). rewrite decide_False by (intros [-> ->]; by apply Hne).
      rewrite pt_entry_zero_page, decide_False; [|congruence|apply (al_frame _ _ _ Ha)|done|done]. by apply (allocd_other f s s1).
    - intros q. unfold ram_upd. cbn. rewrite !fa_used_set, !fa_refs_set. intros [->|]%(al_used _ _ _ Ha); [right|by left].
      split; [apply Ha|done]. }
  eapply wp_mono; [apply (wp_and _ _ _ _ Hspec Hraw)|]. cbn beta. intros res s' [Hres [Hent Hnew]].
  assert (Hg : grown 1 root s s').
  { destruct Hres as [(f&_&Hg&_)|(_&->&_)]; [done|]. destruct (grown_refl root s Hinv Hok). split; try done. lia. }
  split; [destruct Hres as [(f&->&_&Hf)|(->&_)]; [left; exists f; by rewrite Htk|by right]|]. split; [done|]. split.
  - intros q j Hu Hq Hj Hno. apply Hent; [done..|]. intros -> ->. by apply (Hno k).
  - apply (gr_new _ _ _ _ Hg).
  - apply (gr_tables _ _ _ _ Hg).
  - intros q Hq. destruct (Hnew q Hq) as [?|[Hr ->]]; [by left|]. destruct Hres as [(f&[= <-]&_&Hf)|(?&_)]; [|done].
    right. split; [done|]. exists (Datatypes.S k). split; [lia|by rewrite Htk].
  - apply (gr_rest _ _ _ _ Hg).
  - destruct (gr_rest _ _ _ _ Hg) as (_&_&->). done.
Qed.

Lemma wp_walk_scope s space root va fl :
  fa_inv (frames s) → space_ok s root → space_root s space root →
  wp (walk_to_pte space va fl true) (λ res s', grown_within 3 root s s' ∧ map_scope root va s s' ∧
    ∀ pte, res = Some pte → ∃ pt, pte = pt + 8 * pt_index va ∧ table_at (ram_of s') root (walk_path va) = Some pt) s.
Proof.
  intros Hinv Hok Hs. unfold walk_to_pte. apply wp_bind. eapply wp_of_run; [by apply pml4_phys_run|].
  apply wp_bind. eapply wp_mono; [apply (wp_ensure_scope s root 0 root (pml4_index va) fl va); [done|done|lia|done|done]|].
  intros ? s1 ([(pdpt&->&Ht1)| ->]&G1&M1); [|apply wp_ret; split_and!; [exists 1; split; [lia|done]|done|done]].
  apply wp_bind. eapply wp_mono.
  { apply (wp_ensure_scope s1 root 1 pdpt (pdpt_index va) fl va); [apply G1|apply G1|lia|done|done]. }
  intros ? s2 (R2&G2'&M2'). pose proof (map_scope_trans _ _ _ _ _ _ _ G1 M1 G2' M2') as M2.
  pose proof (grown_trans _ _ _ _ _ _ G1 G2') as G2.
  destruct R2 as [(pd&->&Ht2)| ->]; [|apply wp_ret; split_and!; [eexists; split; [|exact G2]; lia|done|done]].
  apply wp_bind. eapply wp_mono.
  { apply (wp_ensure_scope s2 root 2 pd (pd_index va) fl va); [apply G2|apply G2|lia|done|done]. }
  intros ? s3 (R3&G3'&M3'). pose proof (map_scope_trans _ _ _ _ _ _ _ G2 M2 G3' M3') as M3.
  pose proof (grown_trans _ _ _ _ _ _ G2 G3') as G3.
  destruct R3 as [(pt&->&Ht3)| ->]; apply wp_ret; (split_and!; [eexists; split; [|exact G3]; lia|done|]); [|done].
  intros ? [= <-]. by exists pt.
Qed.

Lemma wp_vmm_map_scope s space root virt phys flags :
  fa_inv (frames s) → space_ok s root → space_root s space root →
  page_ok virt → frame_ok phys → has flags VMM_PRESENT = true →
  wp (vmm_map (Some space) virt phys flags) (λ rc s', map_post root virt phys flags s rc s' ∧ map_scope root virt s s' ∧
    fa_avail (frames s) - 3 ≤ fa_avail (frames s')) s.
Proof.
  intros Hinv Hok Hs Hv Hp Hf. apply wp_and; [by apply (wp_vmm_map s space root)|]. unfold vmm_map.
  rewrite (proj2 (page_aligned_ok virt) Hv), (proj2 (page_aligned_ok phys) (proj1 Hp)), Hf. cbn [negb orb].
  apply wp_bind. eapply wp_mono; [by apply (wp_walk_scope s space root)|].
  intros res s1 ((n&Hn&G)&M&Hres). pose proof (gr_avail _ _ _ _ G).
  destruct res as [pte|]; [|apply wp_ret; split; [done|lia]]. destruct (Hres pte eq_refl) as (pt&->&Ht).
  apply wp_bind, wp_read64. destruct (has (rd64 _ _) VMM_PRESENT); [apply wp_ret; split; [done|lia]|].
  apply wp_bind, wp_upd_ram, wp_bind, wp_invlpg, wp_ret.
  pose proof (leaf_set_write s1 root virt (make_entry phys flags) pt [Invlpg virt] (gr_inv _ _ _ _ G) (gr_ok _ _ _ _ G) Ht) as L.
  assert (Hram : ram_of (logged [Invlpg virt] (ram_upd (wr64 (pt + 8 * pt_index virt) (make_entry phys flags)) s1)) =
    wr64 (pt + 8 * pt_index virt) (make_entry phys flags) (ram_of s1)) by apply ram_of_upd.
  set (s2 := logged _ _) in *. split; [split|rewrite (ls_avail _ _ _ _ _ L); lia].
  - intros q j Hu Hq Hj Hno. rewrite Hram, pt_entry_write; [|by eapply table_at_frame, Ht; apply (gr_ok _ _ _ _ G)|done|apply index_ok|done].
    rewrite decide_False; [by apply (sc_entry _ _ _ _ M)|]. intros [-> <-].
    destruct (sc_tables _ _ _ _ M (walk_path virt) q (walk_path_ok virt) Ht) as [Ht0|]; [|done]. by apply (Hno 3%nat).
  - intros p t Hpp. rewrite (ls_tables _ _ _ _ _ L) by done. by apply (sc_tables _ _ _ _ M).
  - intros p t Hpp Hpt. rewrite (ls_tables _ _ _ _ _ L) by done. by apply (sc_keep _ _ _ _ M).
  - intros q Hq. apply (ls_used _ _ _ _ _ L) in Hq. destruct (sc_new _ _ _ _ M q Hq) as [?|(Hr&k&Hk&Htk)]; [by left|right].
    rewrite (ls_refs _ _ _ _ _ L). split; [done|]. exists k. split; [done|]. rewrite (ls_tables _ _ _ _ _ L); [done|by apply take_path_ok].
  - rewrite <-(sc_kernel _ _ _ _ M). apply (ls_rest _ _ _ _ _ L).
  - etrans; [apply (sc_log _ _ _ _ M)|]. by apply prefix_app_r.
Qed.
End scope.
