(* ===== verification/VmmClone.v ===== *)
(** * Copying an address space

    [vmm_clone_address_space] gives the child every user page of the parent;
    pages that were writable become copy-on-write in both. *)

From S2P Require Import Prelude Bits Ram Frames Vmm PageTable VmmSpec VmmMap VmmUser VmmSpace MemCalls VmaSpec MemPages VmmDestroy VmmScope.

(** ** The pages of a tree *)

(** The paths of the pages below [table], which itself is at [prefix], in the
    order of the walk. *)
Fixpoint tree_pages (r : ram) (d : nat) (n table : Z) (prefix : list Z) : list (list Z) :=
  mjoin ((λ i,
    match pt_child r table i with
    | None => []
    | Some t => match d with O => [prefix ++ [i]] | S d => tree_pages r d PAGE_ENTRIES t (prefix ++ [i]) end
    end) <$> seqZ 0 n).

Lemma tree_pages_elem r d n table prefix path : 0 ≤ n ≤ 512 →
  path ∈ tree_pages r d n table prefix ↔
  ∃ q, path = prefix ++ q ∧ length q = S d ∧ Forall idx_ok q ∧ hd 0 q < n ∧ is_Some (table_at r table q).
Proof.
  revert n table prefix. induction d as [|d IH]; intros n table prefix Hn; cbn [tree_pages]; rewrite list_elem_of_join;
    setoid_rewrite list_elem_of_fmap; split.
  - intros (l&Hf&i&->&Hi). apply elem_of_seqZ in Hi. destruct (pt_child r table i) as [t|] eqn:Hc; [|by apply elem_of_nil in Hf].
    apply list_elem_of_singleton in Hf as ->. exists [i]. split_and!; [done|done| |cbn; lia|cbn; by rewrite Hc].
    repeat constructor; unfold idx_ok; lia.
  - intros ([|i []]&->&Hl&Hf&Hh&Ht); try done. apply Forall_cons in Hf as [Hi _]. cbn in Hh, Ht.
    exists [prefix ++ [i]]. split; [by left|]. exists i. destruct (pt_child r table i); [|by destruct Ht].
    split; [done|]. apply elem_of_seqZ. unfold idx_ok in Hi. lia.
  - intros (l&Hf&i&->&Hi). apply elem_of_seqZ in Hi. destruct (pt_child r table i) as [t|] eqn:Hc; [|by apply elem_of_nil in Hf].
    apply IH in Hf as (q&->&Hl&Hf&_&Ht); [|done]. exists (i :: q). rewrite <-app_assoc.
    split_and!; [done|cbn; lia| |cbn; lia|cbn; by rewrite Hc]. constructor; [unfold idx_ok; lia|done].
  - intros ([|i q]&->&Hl&Hf&Hh&Ht); try done. apply Forall_cons in Hf as [Hi Hf]. cbn in Hh, Ht, Hl.
    destruct (pt_child r table i) as [t|] eqn:Hc; [|by destruct Ht].
    exists (tree_pages r d PAGE_ENTRIES t (prefix ++ [i])). split.
    + apply IH; [done|]. exists q. rewrite <-app_assoc. split_and!; [done|lia|done| |done].
      destruct q as [|j q]; [done|]. apply Forall_cons in Hf as [Hj _]. unfold idx_ok in Hj. cbn. unfold PAGE_ENTRIES. lia.
    + exists i. rewrite Hc. split; [done|]. apply elem_of_seqZ. unfold idx_ok in Hi. lia.
Qed.

Lemma tree_pages_NoDup r d n table prefix : 0 ≤ n ≤ 512 → NoDup (tree_pages r d n table prefix).
Proof.
  revert n table prefix. induction d as [|d IH]; intros n table prefix Hn; cbn [tree_pages];
    (apply NoDup_mjoin; [apply NoDup_seqZ| |]).
  - intros i _. destruct (pt_child r table i); [apply NoDup_singleton|apply NoDup_nil_2].
  - intros i j f _ _. destruct (pt_child r table i); [|by intros []%elem_of_nil]. intros ->%list_elem_of_singleton.
    destruct (pt_child r table j); [|by intros []%elem_of_nil]. intros E%list_elem_of_singleton. by apply app_inj_2 in E as [_ [= ->]].
  - intros i _. destruct (pt_child r table i); [by apply IH|apply NoDup_nil_2].
  - intros i j f _ _. destruct (pt_child r table i); [|by intros []%elem_of_nil]. intros (q&->&_)%tree_pages_elem; [|done].
    destruct (pt_child r table j); [|by intros []%elem_of_nil]. intros (q'&E&_)%tree_pages_elem; [|done].
    rewrite <-!app_assoc in E. apply app_inj_1 in E as [_ E]; [|done]. by injection E.
Qed.

(** The address the code computes for a path. *)
Definition path_virt (path : list Z) : Z :=
  match path with
  | [pml4_i; pdpt_i; pd_i; pt_i] => (pml4_i <<! 39) |! (pdpt_i <<! 30) |! (pd_i <<! 21) |! (pt_i <<! 12)
  | _ => 0
  end.

Lemma path_virt_va path : length path = 4%nat → Forall idx_ok path → path_virt path = path_va path.
Proof.
  destruct path as [|a [|b [|c [|d []]]]]; try done. intros _ Hf.
  repeat (apply Forall_cons in Hf as [?%id Hf]). unfold idx_ok in *. cbn [path_va path_virt].
  rewrite !Z.shiftl_mul_pow2, !u64_small by lia.
  rewrite (lor_disjoint a) by lia.
  replace (a * 2 ^ 39 + b * 2 ^ 30) with ((a * 2 ^ 9 + b) * 2 ^ 30) by lia. rewrite lor_disjoint by lia.
  replace ((a * 2 ^ 9 + b) * 2 ^ 30 + c * 2 ^ 21) with ((a * 2 ^ 18 + b * 2 ^ 9 + c) * 2 ^ 21) by lia.
  rewrite lor_disjoint by lia. lia.
Qed.

Lemma path_va_page path : page_ok (path_va path).
Proof.
  destruct path as [|a [|b [|c [|d []]]]]; try done. unfold page_ok, PAGE_SIZE. cbn [path_va].
  replace (_ + _) with ((a * 2 ^ 27 + b * 2 ^ 18 + c * 2 ^ 9 + d) * 4096) by lia. apply Z.mod_mul. lia.
Qed.

(** ** The nested loops *)

Section loops.
Context {S : Type} `{FrameAllocLaws S}.
Implicit Types s : vmm S.

(** A page of the user half in the memory [r]. *)
Definition user_page (r : ram) (root : Z) (path : list Z) : Prop :=
  length path = 4%nat ∧ Forall idx_ok path ∧ hd 0 path < 256 ∧ is_Some (table_at r root path).

Fixpoint clone_level (child : address_space) (d : nat) (prefix : list Z) (table n : Z) : prog (vmm S) (option unit) :=
  for_present_until table n (λ i e,
    match d with
    | O => clone_entry child (path_virt (prefix ++ [i])) (table + 8 * i) e
    | Datatypes.S d => clone_level child d (prefix ++ [i]) (entry_phys e) PAGE_ENTRIES
    end).

(** [J ps] holds after the pages [ps], [Q] when the copy gave up. *)
Context (r0 : ram) (root : Z) (child : address_space).
Context (J : list (list Z) → vmm S → Prop) (Q : vmm S → Prop).

Definition clone_post (ps : list (list Z)) (res : option unit) s : Prop :=
  match res with None => J ps s | Some _ => Q s end.

Lemma wp_for_present_until (g : Z → list (list Z)) table n (body : Z → Z → prog (vmm S) (option unit)) ps s :
  0 ≤ n → J ps s →
  (∀ i ps s, 0 ≤ i < n → J ps s → NoDup (ps ++ g i) → pt_entry (ram_of s) table i = pt_entry r0 table i) →
  (∀ i ps s, 0 ≤ i < n → has (pt_entry r0 table i) VMM_PRESENT = true → J ps s → NoDup (ps ++ g i) →
     wp (body i (pt_entry r0 table i)) (clone_post (ps ++ g i)) s) →
  (∀ i, has (pt_entry r0 table i) VMM_PRESENT = false → g i = []) →
  NoDup (ps ++ mjoin (g <$> seqZ 0 n)) →
  wp (for_present_until table n body) (clone_post (ps ++ mjoin (g <$> seqZ 0 n))) s.
Proof.
  intros Hn HJ Hread Hbody Hskip. unfold for_present_until.
  assert (Hgen : ∀ k i ps s, 0 ≤ i → i + Z.of_nat k = n → J ps s → NoDup (ps ++ mjoin (g <$> seqZ i (Z.of_nat k))) →
    wp (for_until k i 1 (λ i, e ← read64 (table + 8 * i); if has e VMM_PRESENT then body i e else mret None))
      (clone_post (ps ++ mjoin (g <$> seqZ i (Z.of_nat k)))) s).
  { clear ps s HJ. induction k as [|k IH]; intros i ps s Hi Hk HJ Hnd.
    { cbn [for_until]. apply wp_ret. cbn. by rewrite app_nil_r. }
    cbn [for_until]. rewrite seqZ_cons in Hnd |- * by lia. cbn [fmap list_fmap mjoin list_join] in *.
    rewrite app_assoc in Hnd |- *. replace (Z.pred (Z.of_nat (Datatypes.S k))) with (Z.of_nat k) in * by lia.
    pose proof (proj1 (proj1 (NoDup_app _ _) Hnd)) as Hnd1.
    apply wp_bind. apply wp_bind, wp_read64. change (rd64 (ram_of s) (table + 8 * i)) with (pt_entry (ram_of s) table i).
    rewrite (Hread i ps s) by (done || lia).
    eapply (wp_mono _ (clone_post (ps ++ g i))).
    { destruct (has _ _) eqn:Hp; [by apply Hbody; [lia|..]|]. apply wp_ret. by rewrite (Hskip i Hp), app_nil_r. }
    intros [[]|] s2 H2; [by apply wp_ret|]. apply IH; [lia|lia|done|done]. }
  intros Hnd. pose proof (Hgen (Z.to_nat n) 0 ps s ltac:(lia) ltac:(lia) HJ) as Hw.
  rewrite Z2Nat.id in Hw by done. by apply Hw.
Qed.

Context (Hdone : ∀ ps s, J ps s → ∀ path, path ∈ ps → user_page r0 root path).
Context (Hread : ∀ ps s prefix table i, J ps s → table_at r0 root prefix = Some table → (length prefix ≤ 3)%nat →
  Forall idx_ok (prefix ++ [i]) → hd 0 (prefix ++ [i]) < 256 → prefix ++ [i] ∉ ps →
  pt_entry (ram_of s) table i = pt_entry r0 table i).
Context (Hentry : ∀ ps s prefix table i, J ps s → table_at r0 root prefix = Some table → length prefix = 3%nat →
  user_page r0 root (prefix ++ [i]) → prefix ++ [i] ∉ ps →
  wp (clone_entry child (path_virt (prefix ++ [i])) (table + 8 * i) (pt_entry r0 table i))
     (clone_post (ps ++ [prefix ++ [i]])) s).

Lemma wp_clone_level d prefix table n ps s :
  (length prefix + d = 3)%nat → table_at r0 root prefix = Some table → Forall idx_ok prefix →
  0 ≤ n ≤ 512 → (∀ i, 0 ≤ i < n → hd 0 (prefix ++ [i]) < 256) → J ps s →
  NoDup (ps ++ tree_pages r0 d n table prefix) →
  wp (clone_level child d prefix table n) (clone_post (ps ++ tree_pages r0 d n table prefix)) s.
Proof.
  revert prefix table n ps s. induction d as [|d IH]; intros prefix table n ps s Hl Ht Hf Hn Hh HJ Hnd;
    cbn [clone_level tree_pages] in *; (apply wp_for_present_until; [lia|done| | | |done]);
    try (intros i Hp; unfold pt_child; by rewrite Hp).
  all: assert (Hfi : ∀ i, 0 ≤ i < n → Forall idx_ok (prefix ++ [i]))
    by (intros i Hi; apply Forall_app; split; [done|apply Forall_singleton; unfold idx_ok; lia]).
  - intros i ps' s' Hi HJ' Hnd'. eapply Hread; [done|done|lia|by apply Hfi|by apply Hh|]. intros Hin.
    destruct (Hdone _ _ HJ' _ Hin) as (_&_&_&[f Hs]). rewrite table_at_snoc, Ht in Hs. cbn [mbind option_bind] in Hs.
    rewrite Hs in Hnd'. apply NoDup_app in Hnd' as (_&Hx&_). apply (Hx _ Hin). by left.
  - intros i ps' s' Hi Hp HJ' Hnd'. unfold pt_child in *. rewrite Hp in *.
    eapply Hentry; [done|done|lia| |].
    + split; [rewrite length_app; cbn; lia|]. split; [by apply Hfi|]. split; [by apply Hh|].
      rewrite table_at_snoc, Ht. cbn [mbind option_bind]. unfold pt_child. by rewrite Hp.
    + apply NoDup_app in Hnd' as (_&Hx&_). intros Hin. apply (Hx _ Hin). by left.
  - intros i ps' s' Hi HJ' Hnd'. eapply Hread; [done|done|lia|by apply Hfi|by apply Hh|]. intros Hin.
    destruct (Hdone _ _ HJ' _ Hin) as (Hl'&_). rewrite length_app in Hl'. cbn in Hl'. lia.
  - intros i ps' s' Hi Hp HJ' Hnd'. unfold pt_child in *. rewrite Hp in *.
    apply IH; [rewrite length_app; cbn; lia| |by apply Hfi|done| |done|done].
    + rewrite table_at_snoc, Ht. cbn [mbind option_bind]. unfold pt_child. by rewrite Hp.
    + intros j _. pose proof (Hh i Hi). by destruct prefix.
Qed.
End loops.

(** ** The entries of a shared page *)

(** The flags for the child, its entry, and what becomes of the parent's. *)
Definition share_flags (e : Z) : Z :=
  let flags := e &! PAGE_FLAGS_MASK in
  if has flags VMM_WRITABLE then (flags &! ~! VMM_WRITABLE) |! VMM_COW else flags.
Definition child_entry (e : Z) : Z := make_entry (entry_phys e) (share_flags e).
Definition parent_entry (e : Z) : Z := if has e VMM_WRITABLE then child_entry e else e.

(** The bits of an entry that hold flags. *)
Definition flag_bit (k : Z) : Prop := 0 ≤ k < 12 ∨ 52 ≤ k < 64.

Lemma has_flags e k : flag_bit k → has (e &! PAGE_FLAGS_MASK) (2 ^ k) = has e (2 ^ k).
Proof.
  intros Hk. assert (0 ≤ k < 64) by (unfold flag_bit in Hk; lia).
  rewrite !has_bit, Z.land_spec, flags_mask_bits, page_mask_bits by lia. rewrite (proj2 (Z.ltb_lt k 64)) by lia.
  replace ((12 <=? k) && (k <? 52)) with false; [by rewrite andb_true_r|]. symmetry. apply andb_false_iff.
  rewrite Z.leb_gt, Z.ltb_ge. unfold flag_bit in Hk. lia.
Qed.

Lemma share_flags_bit e k : flag_bit k → has (share_flags e) (2 ^ k) =
  if decide (k = 1) then false else if decide (k = 9) then has e VMM_COW || has e VMM_WRITABLE else has e (2 ^ k).
Proof.
  intros Hk. assert (0 ≤ k < 64) by (unfold flag_bit in Hk; lia). assert (Hf1 : flag_bit 1) by (left; lia).
  change VMM_COW with (2 ^ 9). change VMM_WRITABLE with (2 ^ 1). unfold share_flags.
  change VMM_WRITABLE with (2 ^ 1). change VMM_COW with (2 ^ 9). rewrite has_flags by done.
  destruct (has e (2 ^ 1)) eqn:Hw.
  - rewrite has_bit, Z.lor_spec, Z.land_spec by lia. rewrite <-(has_bit (e &! _)), has_flags by (done || lia).
    rewrite u64_testbit, Z.lnot_spec, !Z.pow2_bits_eqb by lia. rewrite (proj2 (Z.ltb_lt k 64)) by lia.
    destruct (decide (k = 1)) as [->|]; [by rewrite andb_false_r|].
    destruct (decide (k = 9)) as [->|]; [by rewrite !orb_true_r|].
    rewrite (proj2 (Z.eqb_neq 1 k)), (proj2 (Z.eqb_neq 9 k)) by lia. by rewrite !andb_true_r, orb_false_r.
  - rewrite has_flags by done. destruct (decide (k = 1)) as [->|]; [done|].
    destruct (decide (k = 9)) as [->|]; [by rewrite orb_false_r|done].
Qed.

Lemma share_flags_masked e : share_flags e &! PAGE_FLAGS_MASK = share_flags e.
Proof.
  unfold share_flags. destruct (has _ _).
  - rewrite Z.land_lor_distr_l. change (VMM_COW &! PAGE_FLAGS_MASK) with VMM_COW. f_equal.
    rewrite <-!Z.land_assoc. f_equal.
  - by rewrite <-Z.land_assoc, Z.land_diag.
Qed.

Lemma parent_entry_run e : has e VMM_WRITABLE = true →
  (e &! ~! PAGE_FLAGS_MASK) |! share_flags e = parent_entry e.
Proof.
  intros Hw. unfold parent_entry. rewrite Hw. unfold child_entry, make_entry.
  rewrite share_flags_masked, (land_page_mask _ (entry_phys_ok e)). done.
Qed.

(** An entry [c] that shares the page of [e] copy-on-write. *)
Record cow_share (e c : Z) : Prop := {
  cw_phys : entry_phys c = entry_phys e;
  cw_writable : has c VMM_WRITABLE = false;
  cw_cow : has c VMM_COW = has e VMM_COW || has e VMM_WRITABLE;
  cw_flags : ∀ k, flag_bit k → k ≠ 1 → k ≠ 9 → has c (2 ^ k) = has e (2 ^ k);
}.

Lemma child_entry_share e : cow_share e (child_entry e).
Proof.
  assert (Hb : ∀ k, flag_bit k → has (child_entry e) (2 ^ k) = has (share_flags e) (2 ^ k))
    by (intros k Hk; apply has_make; [apply entry_phys_ok|done]).
  split.
  - apply entry_phys_make, entry_phys_ok.
  - change VMM_WRITABLE with (2 ^ 1). rewrite Hb, share_flags_bit by (left; lia). done.
  - change (has (child_entry e) (2 ^ 9) = has e VMM_COW || has e VMM_WRITABLE). rewrite Hb, share_flags_bit by (left; lia). done.
  - intros k Hk H1 H9. rewrite Hb, share_flags_bit by done. by rewrite !decide_False.
Qed.
Lemma parent_entry_share e : cow_share e (parent_entry e).
Proof.
  unfold parent_entry. destruct (has e VMM_WRITABLE) eqn:Hw; [apply child_entry_share|].
  split; [done|done| |done]. by rewrite Hw, orb_false_r.
Qed.

Lemma share_user e c : cow_share e c → has c VMM_USER = has e VMM_USER.
Proof. intros Hc. apply (cw_flags _ _ Hc 2); [left; lia|done|done]. Qed.
Lemma share_present e c : cow_share e c → has c VMM_PRESENT = has e VMM_PRESENT.
Proof. intros Hc. apply (cw_flags _ _ Hc 0); [left; lia|done|done]. Qed.
