(* ===== verification/VmmFork.v ===== *)
(** * The invariant of the copy

    What holds while [vmm_clone_address_space] runs: the parent with the pages
    marked so far, the child with the pages mapped so far, and the references
    taken so far. *)

From S2P Require Import Prelude Bits Ram Frames Vmm PageTable VmmSpec VmmMap VmmUser VmmSpace MemCalls VmaSpec MemPages VmmDestroy VmmScope VmmClone.

Section fork.
Context {S : Type} `{FrameAllocLaws S}.
Implicit Types s : vmm S.

(** The kernel half of the top table is the kernel's. *)
Definition shares_kernel s (root : Z) : Prop :=
  ∀ j, 256 ≤ j < 512 → pt_entry (ram_of s) root j = pt_entry (ram_of s) (kernel_space_pml4 s) j.

Context (s0 : vmm S) (p root : Z).
Context (Hproc : process_space s0 p root).

(** [s] is [s0] with the pages [ps] of the parent marked copy-on-write. *)
Record cow_marked (ps : list (list Z)) s : Prop := {
  mk_inv : fa_inv (frames s);
  mk_used : ∀ q, fa_used (frames s0) q → fa_used (frames s) q;
  mk_pages : ∀ path, path ∈ ps → user_page (ram_of s0) root path;
  mk_same : ∀ q j, fa_used (frames s0) q → idx_ok j →
    (∀ prefix, prefix ++ [j] ∈ ps → table_at (ram_of s0) root prefix ≠ Some q) →
    pt_entry (ram_of s) q j = pt_entry (ram_of s0) q j;
  mk_entry : ∀ prefix j q, prefix ++ [j] ∈ ps → table_at (ram_of s0) root prefix = Some q →
    pt_entry (ram_of s) q j = parent_entry (pt_entry (ram_of s0) q j);
  mk_log : ∀ prefix j q, prefix ++ [j] ∈ ps → table_at (ram_of s0) root prefix = Some q →
    has (pt_entry (ram_of s0) q j) VMM_WRITABLE = true → Invlpg (path_va (prefix ++ [j])) ∈ tlb_log s;
  mk_kernel : kernel_space_pml4 s = kernel_space_pml4 s0;
}.

(** The space [sp] with its tables at [np] maps the pages [ps] of the parent. *)
Record child_maps (ps : list (list Z)) (sp np : Z) s : Prop := {
  ch_root : space_root s (SpaceAt sp) np;
  ch_ok : space_ok s np;
  ch_self : rd64 (ram_of s) (sp + 8) = sp;
  ch_struct : ¬ fa_used (frames s0) sp;
  ch_new : ∀ path t, path_ok path → hd 0 path < 256 → table_at (ram_of s) np path = Some t →
    ¬ fa_used (frames s0) t;
  ch_top : ∀ j, 256 ≤ j < 512 → pt_entry (ram_of s) np j = pt_entry (ram_of s0) root j;
  ch_half : ∀ path, path_ok path → 256 ≤ hd 0 path → table_at (ram_of s) np path = table_at (ram_of s0) root path;
  ch_leaf : ∀ va, leaf (ram_of s) np va =
    if decide (user_half va) then
      if decide (va_path va ∈ ps) then child_entry <$> leaf (ram_of s0) root va else None
    else leaf (ram_of s0) root va;
  ch_frames : ∀ q, fa_used (frames s) q → fa_used (frames s0) q ∨
    (fa_refs (frames s) q = 1 ∧
     (q = sp ∨ ∃ path, path_ok path ∧ hd 0 path < 256 ∧ table_at (ram_of s) np path = Some q));
}.

(** The frames of the pages [ps] have one more reference. *)
Definition counted (ps : list (list Z)) s : Prop :=
  ∀ q, fa_used (frames s0) q → fa_refs (frames s) q =
    fa_refs (frames s0) q + if decide (q ∈ omap (table_at (ram_of s0) root) ps) then 1 else 0.

(** ** Facts about the parent *)

Lemma parent_space : space_ok s0 root.
Proof. apply (us_ok _ _ _ (ms_user _ _ _ (pc_mem _ _ _ Hproc))). Qed.

Lemma user_page_prefix prefix i : user_page (ram_of s0) root (prefix ++ [i]) →
  path_ok prefix ∧ length prefix = 3%nat ∧ idx_ok i ∧ hd 0 prefix < 256.
Proof.
  intros (Hl&Hf&Hh&_). rewrite length_app in Hl. cbn in Hl. apply Forall_app in Hf as [Hf Hi]. apply Forall_cons in Hi as [Hi _].
  split; [split; [lia|done]|]. split; [lia|]. split; [done|]. destruct prefix; [cbn; lia|exact Hh].
Qed.

(** A page has one entry. *)
Lemma page_entry_inj prefix prefix' i t : user_page (ram_of s0) root (prefix ++ [i]) → path_ok prefix' →
  table_at (ram_of s0) root prefix = Some t → table_at (ram_of s0) root prefix' = Some t → prefix = prefix'.
Proof. intros Hu Hp. eapply (so_inj _ _ parent_space); [by apply user_page_prefix in Hu as [? _]|done]. Qed.

(** A user frame of the parent, by its path. *)
Lemma page_frame path f : user_page (ram_of s0) root path → table_at (ram_of s0) root path = Some f →
  user_frame s0 (SpaceAt p) root f.
Proof.
  intros (Hl&Hf&Hh&_) Ht. destruct (leaf_at _ _ _ _ Hl Hf Hh Ht) as (va&e&Hp&Hva&He&<-).
  eapply (us_data _ _ _ (ms_user _ _ _ (pc_mem _ _ _ Hproc))); [done|]. by eapply (ms_flag _ _ _ (pc_mem _ _ _ Hproc)).
Qed.

Lemma page_frame_inj path path' f : user_page (ram_of s0) root path → user_page (ram_of s0) root path' →
  table_at (ram_of s0) root path = Some f → table_at (ram_of s0) root path' = Some f → path = path'.
Proof.
  intros (Hl&Hf&Hh&_) (Hl'&Hf'&Hh'&_). apply (process_paths_inj _ _ _ _ _ _ Hproc); (split; [lia|done]).
Qed.

Lemma used_page q : fa_used (frames s0) q → page_ok q.
Proof. intros Hu. by apply (used_frame_ok s0 q (us_inv _ _ _ (ms_user _ _ _ (pc_mem _ _ _ Hproc)))). Qed.

Lemma marked_plain ps s prefix j t : cow_marked ps s → path_ok prefix → idx_ok j →
  table_at (ram_of s0) root prefix = Some t → prefix ++ [j] ∉ ps →
  pt_entry (ram_of s) t j = pt_entry (ram_of s0) t j.
Proof.
  intros Hm Hp Hj Ht Hn. apply (mk_same _ _ Hm); [by eapply (so_used _ _ parent_space)|done|].
  intros prefix' Hin Ht'. rewrite <-(page_entry_inj prefix' prefix j t) in Hn; [done| |done|done|done].
  by apply (mk_pages _ _ Hm).
Qed.

Lemma marked_table ps s path : cow_marked ps s → path_ok path →
  table_at (ram_of s) root path = table_at (ram_of s0) root path.
Proof.
  intros Hm Hp. apply table_at_ext; [apply Hp|]. intros q1 j q2 t -> Ht.
  destruct (path_ok_at q1 j q2 Hp) as [Hq1 Hj]. apply (marked_plain ps s q1); [done..|].
  intros (Hl&_)%(mk_pages _ _ Hm). destruct Hp as [Hlen _]. rewrite !length_app in *. cbn in *. lia.
Qed.

Lemma walk_snoc va : va_path va = walk_path va ++ [pt_index va].
Proof. done. Qed.

Lemma marked_leaf ps s va : cow_marked ps s → leaf (ram_of s) root va =
  if decide (va_path va ∈ ps) then parent_entry <$> leaf (ram_of s0) root va else leaf (ram_of s0) root va.
Proof.
  intros Hm. unfold leaf. rewrite (marked_table ps s) by (done || apply walk_path_ok).
  destruct (table_at (ram_of s0) root (walk_path va)) as [t|] eqn:Ht; cbn [mbind option_bind]; [|by destruct (decide _)].
  destruct (decide (va_path va ∈ ps)) as [Hin|Hin]; rewrite walk_snoc in Hin.
  - rewrite (mk_entry _ _ Hm _ _ _ Hin Ht). rewrite (share_present _ _ (parent_entry_share _)).
    by destruct (has _ _).
  - by rewrite (marked_plain ps s (walk_path va)) by (done || apply walk_path_ok || apply index_ok).
Qed.

(** The parent stays the address space of a process. *)
Lemma parent_process ps s : cow_marked ps s → (∀ q, fa_used (frames s0) q → fa_refs (frames s0) q ≤ fa_refs (frames s) q) →
  process_space s p root.
Proof.
  intros Hm Hr. pose proof Hproc as [[[Hi [Hro Hinj Hus] [Hrt (Hpu&Hpp&Hpn)] Hd] Hfl Hij] Hself Hst Htab].
  assert (Ht : ∀ path, path_ok path → table_at (ram_of s) root path = table_at (ram_of s0) root path)
    by (intros; by eapply marked_table).
  assert (Hsp : ∀ j, idx_ok j → pt_entry (ram_of s) p j = pt_entry (ram_of s0) p j).
  { intros j Hj. apply (mk_same _ _ Hm); [done|done|]. intros prefix Hin. apply Hpn.
    by apply (mk_pages _ _ Hm), user_page_prefix in Hin as [? _]. }
  assert (Hl : ∀ va e, leaf (ram_of s) root va = Some e → ∃ e0, leaf (ram_of s0) root va = Some e0 ∧
    entry_phys e = entry_phys e0 ∧ has e VMM_USER = has e0 VMM_USER).
  { intros va e. rewrite (marked_leaf ps s va Hm). destruct (decide (va_path va ∈ ps)) as [Hin|Hin]; [|intros He; by exists e].
    destruct (leaf _ _ va) as [e0|]; [|done]. intros [= <-]. exists e0. split; [done|].
    split; [apply (parent_entry_share e0)|apply share_user, parent_entry_share]. }
  assert (Ho : ∀ q, other_frame s0 root q → other_frame s root q).
  { intros q (Hu&Hq&Hn). split; [by apply (mk_used _ _ Hm)|]. split; [done|]. intros path Hp. rewrite Ht by done. by apply Hn. }
  split; [split; [split|..]|..].
  - apply Hm.
  - split; [done| |].
    + intros a b t Ha Hb. rewrite !Ht by done. by apply Hinj.
    + intros path t Hp. rewrite Ht by done. intros Hx. by eapply (mk_used _ _ Hm), Hus.
  - split; [|by apply Ho]. rewrite <-rd64_entry0, Hsp by (unfold idx_ok; lia). by rewrite rd64_entry0.
  - intros va e (x&Hx&->&->)%Hl Hu. destruct (Hd va x Hx Hu) as (Hof&Href&Hne). split; [by apply Ho|].
    split; [|done]. pose proof (Hr _ (proj1 Hof)). lia.
  - intros va e Hva (x&Hx&_&->)%Hl. by eapply Hfl.
  - intros va vb e f (x&Hx&->&->)%Hl (y&Hy&->&->)%Hl. by apply Hij.
  - rewrite <-Hself at 2. apply (Hsp 1). unfold idx_ok. lia.
  - pose proof (Hr p Hpu). lia.
  - intros path t Hp Hh. rewrite Ht by done. intros Hx. pose proof (Htab path t Hp Hh Hx).
    pose proof (Hr t (Hus path t Hp Hx)). lia.
Qed.

(** ** Facts about the child *)

Lemma user_end_half va : 0 ≤ va < USER_END → user_half va.
Proof.
  intros Hva. unfold user_half, pml4_index, USER_END in *. change 0x1ff with (2 ^ 9 - 1).
  rewrite land_low_mask, Z.shiftr_div_pow2 by lia. Z.div_mod_to_equations. lia.
Qed.

Lemma child_leaf ps sp np s va e : child_maps ps sp np s → leaf (ram_of s) np va = Some e →
  ∃ x, leaf (ram_of s0) root va = Some x ∧ entry_phys e = entry_phys x ∧ has e VMM_USER = has x VMM_USER.
Proof.
  intros Hc. rewrite (ch_leaf _ _ _ _ Hc). destruct (decide (user_half va)); [|intros He; by exists e].
  destruct (decide (va_path va ∈ ps)) as [Hin|]; [|done].
  destruct (leaf (ram_of s0) root va) as [x|]; [|done]. intros [= <-]. exists x. split; [done|].
  split; [apply (child_entry_share x)|apply share_user, child_entry_share].
Qed.

(** No frame that backs a page of the parent is a table of the child. *)
Lemma child_other ps ps' sp np s q : cow_marked ps s → child_maps ps' sp np s →
  other_frame s0 root q → other_frame s np q ∧ sp ≠ q.
Proof.
  intros Hm Hc (Hu&Hq&Hn). split; [|intros ->; by apply (ch_struct _ _ _ _ Hc)].
  split; [by apply (mk_used _ _ Hm)|]. split; [done|]. intros path Hp Ht.
  destruct (decide (256 ≤ hd 0 path)).
  - rewrite (ch_half _ _ _ _ Hc) in Ht by done. by apply (Hn path).
  - by apply (ch_new _ _ _ _ Hc path q Hp ltac:(lia) Ht).
Qed.

Lemma child_process ps ps' sp np s : cow_marked ps s → child_maps ps' sp np s →
  (∀ q, fa_used (frames s0) q → fa_refs (frames s0) q ≤ fa_refs (frames s) q) →
  process_space s sp np.
Proof.
  intros Hm Hc Hr. pose proof (pc_mem _ _ _ Hproc) as [[_ _ _ Hd] Hfl Hij].
  assert (Hone : ∀ q, fa_used (frames s) q → ¬ fa_used (frames s0) q → 1 ≤ fa_refs (frames s) q).
  { intros q Hu Hn. destruct (ch_frames _ _ _ _ Hc q Hu) as [?|[-> _]]; [done|lia]. }
  split; [split; [split|..]|..].
  - apply Hm.
  - apply Hc.
  - apply Hc.
  - intros va e He. destruct (child_leaf _ _ _ _ _ _ Hc He) as (x&Hx&->&->). intros Hu.
    destruct (Hd va x Hx Hu) as (Hof&Href&_). destruct (child_other _ _ _ _ _ _ Hm Hc Hof) as [Hof' Hne].
    split; [done|]. split; [|by intros [= ->]]. pose proof (Hr _ (proj1 Hof)). lia.
  - intros va e Hva He. destruct (child_leaf _ _ _ _ _ _ Hc He) as (x&Hx&_&->). by eapply Hfl.
  - intros va vb e f He Hf. destruct (child_leaf _ _ _ _ _ _ Hc He) as (x&Hx&->&->).
    destruct (child_leaf _ _ _ _ _ _ Hc Hf) as (y&Hy&->&->). by apply Hij.
  - apply Hc.
  - apply Hone; [apply (ch_root _ _ _ _ Hc)|apply Hc].
  - intros path t Hp Hh Ht. apply Hone; [by eapply (so_used _ _ (ch_ok _ _ _ _ Hc))|by eapply (ch_new _ _ _ _ Hc)].
Qed.
End fork.
