(* ===== verification/VmmForkRun.v ===== *)
(** * The steps of the copy

    Each step of [vmm_clone_address_space] keeps the invariant of [VmmFork]:
    marking an entry of the parent, mapping it in the child, counting the
    reference, and giving up. *)

From S2P Require Import Prelude Bits Ram Frames Vmm PageTable VmmSpec VmmMap VmmUser VmmSpace MemCalls VmaSpec MemPages VmmDestroy VmmScope VmmClone VmmFork.

Section steps.
Context {S : Type} `{FrameAllocLaws S}.
Implicit Types s : vmm S.
Context (s0 : vmm S) (p root : Z).
Context (Hproc : process_space s0 p root).

(** ** Steps that leave the child alone *)

Lemma child_same cs sp np s s1 : child_maps s0 root cs sp np s → fa_inv (frames s1) →
  (∀ u j, is_table (ram_of s) np u ∨ u = sp → idx_ok j → pt_entry (ram_of s1) u j = pt_entry (ram_of s) u j) →
  (∀ q, fa_used (frames s1) q ↔ fa_used (frames s) q) →
  (∀ q, fa_used (frames s) q → ¬ fa_used (frames s0) q → fa_refs (frames s1) q = fa_refs (frames s) q) →
  child_maps s0 root cs sp np s1.
Proof.
  intros [[Hro (Hu&Hp&Hn)] [Hr Hinj Hus] Hself Hst Hnew Htop Hhalf Hleaf Hfr] Hi Hent Husd Href.
  assert (Ht : ∀ path, path_ok path → table_at (ram_of s1) np path = table_at (ram_of s) np path)
    by (apply table_at_same; auto).
  assert (Hsp : ∀ j, idx_ok j → pt_entry (ram_of s1) sp j = pt_entry (ram_of s) sp j) by auto.
  split.
  - split; [rewrite <-rd64_entry0, Hsp, rd64_entry0; [done|unfold idx_ok; lia]|]. split; [by apply Husd|].
    split; [done|]. intros path Hpp. rewrite Ht by done. by apply Hn.
  - split; [done|intros a b t Ha Hb; rewrite !Ht by done; by apply Hinj|].
    intros path t Hpp. rewrite Ht, Husd by done. by apply Hus.
  - rewrite <-Hself at 2. apply (Hsp 1). unfold idx_ok. lia.
  - done.
  - intros path t Hpp. rewrite Ht by done. by apply Hnew.
  - intros j Hj. rewrite Hent; [by apply Htop| |unfold idx_ok; lia]. left. exists []. by repeat constructor.
  - intros path Hpp. rewrite Ht by done. by apply Hhalf.
  - intros va. rewrite <-Hleaf. apply leaf_same. auto.
  - intros q Hq%Husd. destruct (Hfr q Hq) as [?|[Hq1 Hx]]; [by left|].
    destruct Hx as [->|(path&Hpp&Hh&Hpt)].
    + right. split; [by rewrite Href|by left].
    + right. split; [rewrite Href; [done|done|by eapply Hnew]|]. right. exists path. by rewrite Ht.
Qed.

(** *** Marking an entry *)

Lemma mark_step ps cs sp np s s1 prefix i t :
  cow_marked s0 root ps s → child_maps s0 root cs sp np s →
  user_page (ram_of s0) root (prefix ++ [i]) → table_at (ram_of s0) root prefix = Some t →
  fa_inv (frames s1) → (∀ q, fa_used (frames s1) q ↔ fa_used (frames s) q) →
  (∀ q, fa_refs (frames s1) q = fa_refs (frames s) q) → kernel_space_pml4 s1 = kernel_space_pml4 s →
  (∀ q j, page_ok q → idx_ok j → pt_entry (ram_of s1) q j =
     if decide (t = q ∧ i = j) then parent_entry (pt_entry (ram_of s0) t i) else pt_entry (ram_of s) q j) →
  tlb_log s `prefix_of` tlb_log s1 →
  (has (pt_entry (ram_of s0) t i) VMM_WRITABLE = true → Invlpg (path_va (prefix ++ [i])) ∈ tlb_log s1) →
  cow_marked s0 root (ps ++ [prefix ++ [i]]) s1 ∧ child_maps s0 root cs sp np s1.
Proof.
  intros Hm Hc Hup Ht Hi Hus Href Hk Hent Hlog Hflush.
  pose proof (user_page_prefix s0 root _ _ Hup) as (Hpo&Hpl&Hio&Hph).
  assert (Hcases : ∀ path, path ∈ ps ++ [prefix ++ [i]] → path ∈ ps ∨ path = prefix ++ [i])
    by (intros path; rewrite elem_of_app, list_elem_of_singleton; done).
  pose proof (so_used _ _ (parent_space s0 p root Hproc) _ _ Hpo Ht) as Htu. split; [split|].
  - done.
  - intros q Hq. by apply Hus, (mk_used _ _ _ _ Hm).
  - intros path [Hin| ->]%Hcases; [by apply (mk_pages _ _ _ _ Hm)|done].
  - intros q j Hq Hj Hno. rewrite Hent by (done || by apply (used_page s0 p root Hproc)).
    rewrite decide_False; [apply (mk_same _ _ _ _ Hm); [done|done|]|].
    + intros prefix' Hin. apply Hno, elem_of_app. by left.
    + intros [-> ->]. apply (Hno prefix); [|done]. apply elem_of_app. right. by left.
  - intros prefix' j q Hin Htq. assert (Hup' : user_page (ram_of s0) root (prefix' ++ [j]))
      by (apply Hcases in Hin as [Hin| ->]; [by apply (mk_pages _ _ _ _ Hm)|done]).
    destruct (user_page_prefix s0 root _ _ Hup') as (Hpo'&_&Hj&_).
    rewrite Hent; [|by eapply (used_page s0 p root Hproc), (so_used _ _ (parent_space s0 p root Hproc))|done].
    destruct (decide _) as [[<- <-]|Hne]; [done|]. apply Hcases in Hin as [Hin|[-> ->]%app_inj_tail]; [|destruct Hne; split; congruence].
    by eapply (mk_entry _ _ _ _ Hm).
  - intros prefix' j q [Hin|[-> ->]%app_inj_tail]%Hcases Htq Hw; [|apply Hflush; congruence].
    eapply elem_of_prefix; [|done]. by eapply (mk_log _ _ _ _ Hm).
  - rewrite Hk. apply Hm.
  - apply (child_same cs sp np s s1); [done|done| |done|done]. intros u j Hu Hj.
    assert (Hne : t ≠ u).
    { intros ->. destruct Hu as [(path&Hpp&Hpt)| ->]; [|by apply (ch_struct _ _ _ _ _ _ Hc)].
      destruct (decide (256 ≤ hd 0 path)) as [Hh|].
      - rewrite (ch_half _ _ _ _ _ _ Hc) in Hpt by done.
        assert (path = prefix) as -> by (by eapply (so_inj _ _ (parent_space s0 p root Hproc))). lia.
      - by apply (ch_new _ _ _ _ _ _ Hc path u Hpp ltac:(lia) Hpt). }
    assert (Hu' : page_ok u).
    { destruct Hu as [(path&Hpp&Hpt)| ->]; [|apply (ch_root _ _ _ _ _ _ Hc)].
      by eapply table_at_frame, Hpt; apply (ch_ok _ _ _ _ _ _ Hc). }
    rewrite Hent by done. by rewrite decide_False by naive_solver.
Qed.

(** *** Mapping a page in the child *)

(** The tables on the way to a user page of the child are its own. *)
Lemma child_walk cs sp np s va n q j : child_maps s0 root cs sp np s → user_half va →
  table_at (ram_of s) np (take n (va_path va)) = Some q → va_path va !! n = Some j →
  (n ≤ 3)%nat ∧ hd 0 (take n (va_path va)) < 256 ∧ ¬ fa_used (frames s0) q.
Proof.
  intros Hc Hva Ht Hj. apply lookup_lt_Some in Hj. change (length (va_path va)) with 4%nat in Hj.
  assert (Hh : hd 0 (take n (va_path va)) < 256) by (destruct n; [done|exact Hva]).
  split; [lia|]. split; [done|]. eapply (ch_new _ _ _ _ _ _ Hc); [|done|done]. apply take_path_ok. lia.
Qed.

Lemma marked_map ps cs sp np va s s' : cow_marked s0 root ps s → child_maps s0 root cs sp np s → user_half va →
  kept np s s' → map_scope np va s s' → cow_marked s0 root ps s'.
Proof.
  intros Hm Hc Hva Hk Hsc.
  assert (Hent : ∀ q j, fa_used (frames s0) q → idx_ok j → pt_entry (ram_of s') q j = pt_entry (ram_of s) q j).
  { intros q j Hq Hj. apply (sc_entry _ _ _ _ Hsc); [by apply (mk_used _ _ _ _ Hm)|by apply (used_page s0 p root Hproc)|done|].
    intros n Ht Hl. by destruct (child_walk _ _ _ _ _ _ _ _ Hc Hva Ht Hl) as (_&_&?). }
  destruct Hm as [Hi Hus Hpg Hsame He Hlog Hker]. split.
  - apply Hk.
  - intros q Hq. by apply (kp_used _ _ _ Hk), Hus.
  - done.
  - intros q j Hq Hj Hno. rewrite Hent by done. by apply Hsame.
  - intros prefix j q Hin Ht. destruct (user_page_prefix s0 root _ _ (Hpg _ Hin)) as (Hpo&_&Hj&_).
    rewrite Hent; [by eapply He|by eapply (so_used _ _ (parent_space s0 p root Hproc))|done].
  - intros prefix j q Hin Ht Hw. eapply elem_of_prefix; [by eapply Hlog|apply (sc_log _ _ _ _ Hsc)].
  - by rewrite (sc_kernel _ _ _ _ Hsc).
Qed.

(** The kernel half of the child, below its top table, is not written. *)
Lemma child_map_half cs sp np va s s' : child_maps s0 root cs sp np s → user_half va → map_scope np va s s' →
  (∀ j, 256 ≤ j < 512 → pt_entry (ram_of s') np j = pt_entry (ram_of s) np j) ∧
  (∀ path, path_ok path → 256 ≤ hd 0 path → table_at (ram_of s') np path = table_at (ram_of s) np path).
Proof.
  intros Hc Hva Hsc. pose proof (ch_ok _ _ _ _ _ _ Hc) as [Hr Hinj Hus].
  assert (Hent : ∀ q1 j t, path_ok q1 → idx_ok j → 256 ≤ hd 0 (q1 ++ [j]) → table_at (ram_of s) np q1 = Some t →
    pt_entry (ram_of s') t j = pt_entry (ram_of s) t j).
  { intros q1 j t Hq Hj Hh Ht. apply (sc_entry _ _ _ _ Hsc); [by eapply Hus|by eapply table_at_frame, Ht|done|].
    intros n Htn Hl. destruct (child_walk _ _ _ _ _ _ _ _ Hc Hva Htn Hl) as (Hn&Hhn&_).
    assert (q1 = take n (va_path va)) as -> by (eapply Hinj; [done|by apply take_path_ok|done|done]).
    unfold va_path, user_half in *. destruct n as [|n]; cbn in Hh, Hl, Hhn; [injection Hl as <-|]; lia. }
  split.
  - intros j Hj. apply (Hent []); [by repeat constructor|unfold idx_ok; lia|cbn; lia|done].
  - intros path Hp Hh. apply table_at_ext; [apply Hp|]. intros q1 j q2 t -> Ht.
    destruct (path_ok_at q1 j q2 Hp) as [Hq1 Hj]. apply (Hent q1); [done|done| |done]. by destruct q1.
Qed.

Lemma child_map ps cs cs' sp np va s s' : cow_marked s0 root ps s → child_maps s0 root cs sp np s → user_half va →
  kept np s s' → map_scope np va s s' →
  (∀ vb, leaf (ram_of s') np vb =
     if decide (user_half vb) then if decide (va_path vb ∈ cs') then child_entry <$> leaf (ram_of s0) root vb else None
     else leaf (ram_of s) np vb) →
  child_maps s0 root cs' sp np s'.
Proof.
  intros Hm Hc Hva Hk Hsc Hl. destruct (child_map_half _ _ _ _ _ _ Hc Hva Hsc) as [Htop Hhalf].
  pose proof (ch_root _ _ _ _ _ _ Hc) as Hro. split.
  - by apply (kp_space _ _ _ Hk).
  - apply Hk.
  - rewrite <-(ch_self _ _ _ _ _ _ Hc) at 2. apply (proj2 (kp_other _ _ _ Hk sp (proj2 Hro)) 1). unfold idx_ok. lia.
  - apply Hc.
  - intros path t Hp Hh Ht. destruct (sc_tables _ _ _ _ Hsc _ _ Hp Ht) as [Ht0|Hn]; [by eapply (ch_new _ _ _ _ _ _ Hc)|].
    intros Hu. by apply Hn, (mk_used _ _ _ _ Hm).
  - intros j Hj. rewrite Htop by done. by apply (ch_top _ _ _ _ _ _ Hc).
  - intros path Hp Hh. rewrite Hhalf by done. by apply (ch_half _ _ _ _ _ _ Hc).
  - intros vb. rewrite Hl. destruct (decide (user_half vb)) as [|Hn]; [done|].
    rewrite (ch_leaf _ _ _ _ _ _ Hc). by rewrite decide_False.
  - intros q Hq. destruct (sc_new _ _ _ _ Hsc q Hq) as [Hu|(Hr&n&Hn&Ht)].
    + destruct (ch_frames _ _ _ _ _ _ Hc q Hu) as [?|[Hr Hx]]; [by left|right].
      split; [by rewrite (kp_refs _ _ _ Hk)|]. destruct Hx as [->|(path&Hp&Hh&Ht)]; [by left|right].
      exists path. split; [done|]. split; [done|]. by apply (sc_keep _ _ _ _ Hsc).
    + right. split; [done|]. right. exists (take n (va_path va)). split; [by apply take_path_ok|]. split; [|done].
      destruct n; [done|exact Hva].
Qed.

(** The child after [vmm_map]. *)
Lemma wp_map_child ps cs sp np s path e :
  cow_marked s0 root ps s → child_maps s0 root cs sp np s → user_page (ram_of s0) root path → path ∉ cs →
  leaf (ram_of s0) root (path_va path) = Some e →
  wp (vmm_map (Some (SpaceAt sp)) (path_va path) (entry_phys e) (share_flags e)) (λ rc s',
    cow_marked s0 root ps s' ∧ (∀ q, fa_used (frames s0) q → fa_refs (frames s') q = fa_refs (frames s) q) ∧
    ((rc = 0 ∧ child_maps s0 root (cs ++ [path]) sp np s' ∧ fa_avail (frames s) - 3 ≤ fa_avail (frames s')) ∨
     (rc = -1 ∧ child_maps s0 root cs sp np s' ∧ fa_avail (frames s) ≤ 2))) s.
Proof.
  intros Hm Hc (Hpl&Hpf&Hph&_) Hnin He. pose proof (path_va_path path Hpl Hpf) as Hpath.
  assert (Hva : user_half (path_va path)) by by apply user_end_half, path_va_user.
  assert (Hpr : has e VMM_PRESENT = true).
  { unfold leaf in He. destruct (table_at _ _ _); [|done]. cbn [mbind option_bind] in He. destruct (has _ _) eqn:Hx; [congruence|done]. }
  assert (Hnone : leaf (ram_of s) np (path_va path) = None).
  { rewrite (ch_leaf _ _ _ _ _ _ Hc), decide_True by done. by rewrite Hpath, decide_False. }
  eapply wp_mono; [apply (wp_vmm_map_scope s (SpaceAt sp) np); [apply Hm|apply Hc|apply Hc|apply path_va_page|apply entry_phys_ok|]|].
  { change VMM_PRESENT with (2 ^ 0). by rewrite share_flags_bit by (left; lia). }
  cbn beta. intros rc s' ([Hk Hpost]&Hsc&Hav). rewrite Hnone in Hpost.
  split; [by eapply marked_map|]. split; [intros q Hq; by apply (kp_refs _ _ _ Hk), (mk_used _ _ _ _ Hm)|].
  destruct Hpost as [(->&_&Hl)|(->&Hav'&Hl)]; [left|right]; (split; [done|]); (split; [|done]);
    (eapply child_map; [done|done|done|done|done|]); intros vb; rewrite Hl, (ch_leaf _ _ _ _ _ _ Hc).
  - rewrite Hpath. destruct (decide (path = va_path vb)) as [Hvb|Hne].
    + assert (user_half vb) by (unfold user_half; by rewrite Hvb in Hph). rewrite decide_True by done.
      rewrite decide_True by (apply elem_of_app; right; rewrite Hvb; by left).
      rewrite (leaf_path _ _ vb (path_va path)) by congruence. by rewrite He.
    + destruct (decide (user_half vb)); [|done]. apply decide_ext. rewrite elem_of_app, list_elem_of_singleton. split; [by left|by intros [?|?]].
  - by destruct (decide (user_half vb)).
Qed.

(** *** Counting the reference *)

Lemma marked_same ps s s1 : cow_marked s0 root ps s → fa_inv (frames s1) → ram_of s1 = ram_of s →
  (∀ q, fa_used (frames s0) q → fa_used (frames s1) q) →
  kernel_space_pml4 s1 = kernel_space_pml4 s → tlb_log s1 = tlb_log s → cow_marked s0 root ps s1.
Proof. intros [] Hi Hr Hu Hk Hl. split; rewrite ?Hr, ?Hk, ?Hl; done. Qed.

Lemma wp_ref_child ps cs sp np s path f :
  cow_marked s0 root ps s → child_maps s0 root (cs ++ [path]) sp np s → counted s0 root cs s →
  (∀ c, c ∈ cs → user_page (ram_of s0) root c) → user_page (ram_of s0) root path → path ∉ cs →
  table_at (ram_of s0) root path = Some f → fa_refs (frames s0) f < 65535 →
  wp (in_frames (fa_ref f)) (λ _ s', cow_marked s0 root ps s' ∧ child_maps s0 root (cs ++ [path]) sp np s' ∧
    counted s0 root (cs ++ [path]) s' ∧ fa_avail (frames s') = fa_avail (frames s)) s.
Proof.
  intros Hm Hc Hcnt Hcs Hup Hnin Ht Hlt.
  assert (Hfu : fa_used (frames s0) f) by (by eapply (page_frame s0 p root Hproc)).
  assert (Hnot : f ∉ omap (table_at (ram_of s0) root) cs).
  { rewrite list_elem_of_omap. intros (c&Hin&Hcf). apply Hnin.
    by rewrite (page_frame_inj s0 p root Hproc path c f Hup (Hcs _ Hin) Ht Hcf). }
  pose proof (Hcnt f Hfu) as Hfr. rewrite decide_False in Hfr by done.
  apply wp_in_frames. eapply wp_mono; [apply fa_ref_spec; [apply Hm|by apply (mk_used _ _ _ _ Hm)|lia]|].
  intros _ t (Hi&Hram&Hu&Hav&Hr). split; [|split; [|split; [|done]]].
  - eapply marked_same; [done|done|done| |done|done]. intros q Hq. by apply Hu, (mk_used _ _ _ _ Hm).
  - eapply child_same; [done|done| |done|].
    + intros u j _ _. unfold ram_of. cbn. by rewrite Hram.
    + intros q Hq Hn. cbn. rewrite Hr, decide_False; [done|by intros ->|done].
  - intros q Hq. cbn [with_frames frames]. rewrite Hr by by apply (mk_used _ _ _ _ Hm).
    assert (Hin : q ∈ omap (table_at (ram_of s0) root) (cs ++ [path]) ↔ q ∈ omap (table_at (ram_of s0) root) cs ∨ q = f).
    { rewrite omap_app, elem_of_app. cbn. rewrite Ht. by rewrite list_elem_of_singleton. }
    destruct (decide (q = f)) as [->|Hne].
    + rewrite Hfr, decide_True by (apply Hin; by right). lia.
    + rewrite (Hcnt q Hq). f_equal. apply decide_ext. rewrite Hin. naive_solver.
Qed.

(** ** Giving up *)

(** Nothing is left of the child; the pages [ps] of the parent are marked. *)
Definition undone (ps : list (list Z)) s : Prop :=
  cow_marked s0 root ps s ∧ (∀ q, fa_used (frames s) q ↔ fa_used (frames s0) q) ∧
  (∀ q, fa_used (frames s0) q → fa_refs (frames s) q = fa_refs (frames s0) q).

(** The frames of the child: its own, and those of the pages it maps. *)
Lemma child_frames cs sp np s q : child_maps s0 root cs sp np s → (∀ c, c ∈ cs → user_page (ram_of s0) root c) →
  fa_used (frames s0) q → q ∈ space_frames (ram_of s) np sp ↔ q ∈ omap (table_at (ram_of s0) root) cs.
Proof.
  intros Hc Hcs Hq. unfold space_frames. rewrite elem_of_app, tree_frames_elem, list_elem_of_omap by lia. split.
  - intros [(path&(Hl&Hf&Hh)&Ht)|Hx].
    + destruct (decide (length path = 4%nat)) as [H4|H4].
      2:{ exfalso. eapply (ch_new _ _ _ _ _ _ Hc); [split; [|exact Hf]; lia|done|done|done]. }
      pose proof (path_va_path path H4 Hf) as Hp. rewrite <-Hp in Ht. apply table_at_leaf in Ht as (e&He&<-).
      rewrite (ch_leaf _ _ _ _ _ _ Hc), decide_True in He by by apply user_end_half, path_va_user.
      rewrite Hp in He. destruct (decide (path ∈ cs)) as [Hin|]; [|done]. exists path. split; [done|].
      destruct (leaf (ram_of s0) root (path_va path)) as [x|] eqn:Hx; [|done]. injection He as <-.
      rewrite <-Hp. apply table_at_leaf. exists x. by rewrite (cw_phys _ _ (child_entry_share x)).
    + exfalso. apply elem_of_cons in Hx as [->|[->|[]%elem_of_nil]%elem_of_cons].
      * by apply (ch_new _ _ _ _ _ _ Hc [] np); [repeat constructor|..].
      * by apply (ch_struct _ _ _ _ _ _ Hc).
  - intros (path&Hin&Ht). left. exists path. destruct (Hcs _ Hin) as (Hl&Hf&Hh&_).
    pose proof (path_va_path path Hl Hf) as Hp. split; [split; [lia|done]|]. rewrite <-Hp in Ht |- *.
    apply table_at_leaf in Ht as (x&Hx&<-). apply table_at_leaf. exists (child_entry x).
    split; [|apply (child_entry_share x)]. rewrite (ch_leaf _ _ _ _ _ _ Hc), decide_True by by apply user_end_half, path_va_user.
    rewrite Hp, decide_True by done. by rewrite Hx.
Qed.

Lemma wp_give_up ps cs sp np s : cow_marked s0 root ps s → child_maps s0 root cs sp np s → counted s0 root cs s →
  (∀ c, c ∈ cs → user_page (ram_of s0) root c) →
  wp (vmm_destroy_address_space (Some (SpaceAt sp))) (λ _ s', undone ps s') s.
Proof.
  intros Hm Hc Hcnt Hcs.
  assert (Hge : ∀ q, fa_used (frames s0) q → fa_refs (frames s0) q ≤ fa_refs (frames s) q)
    by (intros q Hq; rewrite (Hcnt q Hq); destruct (decide _); lia).
  eapply wp_mono; [by apply (process_destroy s sp np), (child_process s0 p root Hproc ps cs)|].
  intros _ t [Hi Hram Hu Hr _ (Hk&_&Hl)]. pose proof (λ q, child_frames cs sp np s q Hc Hcs) as Hfr.
  assert (Hone : ∀ q, q ∈ omap (table_at (ram_of s0) root) cs → 1 ≤ fa_refs (frames s0) q).
  { intros q (c&Hin&Ht)%list_elem_of_omap. by eapply (page_frame s0 p root Hproc); [by apply Hcs|]. }
  assert (Hold : ∀ q, fa_used (frames s0) q → fa_used (frames t) q).
  { intros q Hq. apply Hu. split; [by apply (mk_used _ _ _ _ Hm)|]. rewrite Hfr by done. intros Hin.
    rewrite (Hcnt q Hq), decide_True by done. pose proof (Hone q Hin). lia. }
  split; [|split].
  - by eapply marked_same.
  - intros q. split; [|apply Hold]. intros [Hqs Hn]%Hu.
    destruct (ch_frames _ _ _ _ _ _ Hc q Hqs) as [?|[Hr1 Hx]]; [done|]. exfalso. apply Hn; [|done].
    unfold space_frames. apply elem_of_app. destruct Hx as [->|(path&Hp&Hh&Ht)]; [right; right; by left|].
    destruct path as [|i path]; [right; injection Ht as ->; by left|left].
    apply tree_frames_elem; [lia|]. exists (i :: path). split; [|done]. destruct Hp as [Hpl Hpf].
    split; [cbn in *; lia|done].
  - intros q Hq. rewrite (Hr q (Hold q Hq)), (Hcnt q Hq). rewrite (decide_ext _ _ _ _ (Hfr q Hq)).
    destruct (decide _); lia.
Qed.

(** ** The whole copy *)

Definition copying (sp np : Z) (ps : list (list Z)) s : Prop :=
  cow_marked s0 root ps s ∧ child_maps s0 root ps sp np s ∧ counted s0 root ps s ∧
  NoDup ps ∧ fa_avail (frames s0) - 2 - 3 * Z.of_nat (length ps) ≤ fa_avail (frames s).

(** The copy gave up at some page, for want of frames. *)
Definition clone_failed s : Prop :=
  ∃ ps, undone ps s ∧ NoDup ps ∧ fa_avail (frames s0) ≤ 4 + 3 * Z.of_nat (length ps).

(** The entry of a page and its frame. *)
Lemma page_leaf prefix i t : user_page (ram_of s0) root (prefix ++ [i]) → table_at (ram_of s0) root prefix = Some t →
  leaf (ram_of s0) root (path_va (prefix ++ [i])) = Some (pt_entry (ram_of s0) t i) ∧
  table_at (ram_of s0) root (prefix ++ [i]) = Some (entry_phys (pt_entry (ram_of s0) t i)).
Proof.
  intros (Hl&Hf&_&Hs) Ht. pose proof (path_va_path _ Hl Hf) as Hp. rewrite walk_snoc in Hp.
  apply app_inj_tail in Hp as [Hw Hi]. rewrite table_at_snoc, Ht in *. cbn [mbind option_bind] in *.
  unfold leaf. rewrite Hw, Hi, Ht. cbn [mbind option_bind]. unfold pt_child in *.
  destruct (has _ _); [done|by destruct Hs].
Qed.

(** The first half of an entry: marking it in the parent. *)
Lemma wp_mark_entry sp np ps s prefix table i :
  copying sp np ps s → table_at (ram_of s0) root prefix = Some table →
  user_page (ram_of s0) root (prefix ++ [i]) → prefix ++ [i] ∉ ps →
  let e := pt_entry (ram_of s0) table i in
  let flags := e &! PAGE_FLAGS_MASK in
  wp (if has flags VMM_WRITABLE then
        let flags := (flags &! ~! VMM_WRITABLE) |! VMM_COW in
        write64 (table + 8 * i) ((e &! ~! PAGE_FLAGS_MASK) |! flags);;
        invlpg (path_virt (prefix ++ [i]));;
        mret flags
      else mret flags)
    (λ flags s1, flags = share_flags e ∧ cow_marked s0 root (ps ++ [prefix ++ [i]]) s1 ∧
       child_maps s0 root ps sp np s1 ∧ counted s0 root ps s1 ∧ fa_avail (frames s1) = fa_avail (frames s)) s.
Proof.
  intros (Hm&Hc&Hcnt&_) Ht Hup Hnin e flags. pose proof (user_page_prefix s0 root _ _ Hup) as (Hpo&_&Hi&_).
  assert (Htp : page_ok table) by (by eapply (used_page s0 p root Hproc), (so_used _ _ (parent_space s0 p root Hproc))).
  pose proof (has_flags e 1 ltac:(left; lia)) as Hw. change (2 ^ 1) with VMM_WRITABLE in Hw. unfold flags. rewrite Hw.
  destruct (has e VMM_WRITABLE) eqn:He.
  - assert (Hsf : (flags &! ~! VMM_WRITABLE) |! VMM_COW = share_flags e) by (unfold share_flags; by rewrite Hw).
    fold flags. cbv zeta. rewrite Hsf, parent_entry_run by done. destruct Hup as (Hpl&Hpf&Hup).
    rewrite path_virt_va by done. apply wp_bind, wp_upd_ram, wp_bind, wp_invlpg, wp_ret. split; [done|].
    set (s1 := logged _ _). assert (Hram : ram_of s1 = wr64 (table + 8 * i) (parent_entry e) (ram_of s)) by apply ram_of_upd.
    apply Logic.and_assoc. split; [|split; [intros q Hq; rewrite <-(Hcnt q Hq); apply fa_refs_set|apply fa_avail_set]].
    apply (mark_step ps ps sp np s s1 prefix i table); try done.
    + apply fa_inv_set, Hm.
    + intros q. apply fa_used_set.
    + intros q. apply fa_refs_set.
    + intros q j Hq Hj. rewrite Hram. by apply pt_entry_write.
    + by apply prefix_app_r.
    + intros _. apply elem_of_app. right. by left.
  - apply wp_ret. split; [unfold share_flags; by rewrite Hw|]. apply Logic.and_assoc. split; [|done].
    apply (mark_step ps ps sp np s s prefix i table); try done.
    + apply Hm.
    + intros q j Hq Hj. destruct (decide _) as [[<- <-]|]; [|done]. fold e. unfold parent_entry. rewrite He.
      by apply (marked_plain s0 p root Hproc ps s prefix).
    + fold e. by rewrite He.
Qed.

Context (Hrefs : ∀ path f, user_page (ram_of s0) root path → table_at (ram_of s0) root path = Some f →
  fa_refs (frames s0) f < 65535).

Lemma wp_clone_entry sp np ps s prefix table i :
  copying sp np ps s → table_at (ram_of s0) root prefix = Some table →
  user_page (ram_of s0) root (prefix ++ [i]) → prefix ++ [i] ∉ ps →
  wp (clone_entry (SpaceAt sp) (path_virt (prefix ++ [i])) (table + 8 * i) (pt_entry (ram_of s0) table i))
     (clone_post (copying sp np) clone_failed (ps ++ [prefix ++ [i]])) s.
Proof.
  intros HJ Ht Hup Hnin. unfold clone_entry. cbv zeta. apply wp_bind.
  eapply wp_mono; [by apply (wp_mark_entry sp np ps s prefix table i)|].
  intros flags s1 (->&Hm1&Hc1&Hn1&Ha1). pose proof HJ as (_&_&_&Hnd&Hav).
  assert (Hnd1 : NoDup (ps ++ [prefix ++ [i]])).
  { apply NoDup_app. split; [done|]. split; [|apply NoDup_singleton]. intros x Hx ->%list_elem_of_singleton. done. } destruct (page_leaf _ _ _ Hup Ht) as [Hle Hfr].
  pose proof (mk_pages _ _ _ _ (proj1 HJ)) as Hps. pose proof Hup as (Hpl&Hpf&_).
  rewrite path_virt_va by done. apply wp_bind.
  eapply wp_mono; [by apply (wp_map_child (ps ++ [prefix ++ [i]]) ps sp np s1 _ _ Hm1 Hc1)|].
  intros rc s2 (Hm2&Hr2&Hres).
  assert (Hn2 : counted s0 root ps s2) by (intros q Hq; rewrite Hr2 by done; by apply Hn1).
  destruct Hres as [(->&Hc2&Ha2)|(->&Hc2&Ha2)]; cbn [negb Z.eqb].
  - apply wp_bind. eapply wp_mono; [by eapply wp_ref_child, Hrefs|]. intros [] s3 (Hm3&Hc3&Hn3&Ha3).
    apply wp_ret. split; [done|]. split; [done|]. split; [done|]. split; [done|]. rewrite length_app. cbn [length]. lia.
  - apply wp_bind. eapply wp_mono; [by eapply wp_give_up|]. intros [] s3 Hs3. apply wp_ret.
    exists (ps ++ [prefix ++ [i]]). split; [done|]. split; [done|]. rewrite length_app. cbn [length]. lia.
Qed.

Context (Hshare : shares_kernel s0 root).

Lemma fresh_marked s1 : fa_inv (frames s1) → (∀ q, fa_used (frames s0) q → fa_used (frames s1) q) →
  (∀ q j, fa_used (frames s0) q → page_ok q → idx_ok j → pt_entry (ram_of s1) q j = pt_entry (ram_of s0) q j) →
  kernel_space_pml4 s1 = kernel_space_pml4 s0 → cow_marked s0 root [] s1.
Proof.
  intros Hi Hu Hent Hk. split; try done; try (by intros ? ? ? []%elem_of_nil); [by intros ? []%elem_of_nil|].
  intros q j Hq Hj _. apply Hent; [done|by apply (used_page s0 p root Hproc)|done].
Qed.

(** The kernel half of a fresh space. *)
Lemma fresh_half sp np s1 path : fresh_space s0 sp np s1 → path_ok path → path ≠ [] →
  table_at (ram_of s1) np path = if decide (256 ≤ hd 0 path) then table_at (ram_of s0) root path else None.
Proof.
  intros Hf Hp Hne. pose proof (parent_space s0 p root Hproc) as [Hr Hinj Hus].
  apply (table_at_half (ram_of s0) (ram_of s1) np root); [done|done|done| |].
  - intros j Hj. rewrite (fs_table _ _ _ _ Hf) by done. destruct (decide (256 ≤ j)); [|done].
    symmetry. apply Hshare. unfold idx_ok in Hj. lia.
  - intros t j (q&Hq&Ht) Hj. apply (fs_old _ _ _ _ Hf); [by eapply Hus|by eapply table_at_frame, Ht|done].
Qed.

Lemma fresh_copying sp np s1 : fa_inv (frames s1) → fresh_space s0 sp np s1 → copying sp np [] s1.
Proof.
  intros Hi Hf. pose proof (parent_space s0 p root Hproc) as [Hr Hinj Hus].
  pose proof (fs_new _ _ _ _ Hf) as [Hns Hnn].
  assert (Hhalf : ∀ path, path_ok path → 256 ≤ hd 0 path → table_at (ram_of s1) np path = table_at (ram_of s0) root path).
  { intros path Hp Hh. rewrite (fresh_half sp np s1) by (done || by destruct path). by rewrite decide_True. }
  split; [|split; [|split]].
  - apply fresh_marked; [done|intros q Hq; apply (fs_used _ _ _ _ Hf); auto|apply Hf|apply Hf].
  - split; try apply Hf; try done.
    + intros path t Hp Hh Ht. destruct (decide (path = [])) as [->|]; [by injection Ht as <-|].
      rewrite (fresh_half sp np s1), decide_False in Ht by (done || lia). done.
    + intros j Hj. rewrite (fs_table _ _ _ _ Hf), decide_True by (unfold idx_ok; lia). symmetry. by apply Hshare.
    + intros va. destruct (decide (user_half va)) as [Hva|Hva].
      * rewrite (fs_leaf _ _ _ _ Hf), decide_True by done. rewrite decide_False; [done|]. apply not_elem_of_nil.
      * unfold leaf. rewrite Hhalf by (apply walk_path_ok || (unfold user_half in Hva; change (256 ≤ pml4_index va); lia)).
        destruct (table_at (ram_of s0) root (walk_path va)) as [t|] eqn:Ht; cbn [mbind option_bind]; [|done].
        rewrite (fs_old _ _ _ _ Hf); [done|by eapply Hus, Ht; apply walk_path_ok|by eapply table_at_frame, Ht|apply index_ok].
    + intros q Hq. destruct (decide (q = sp ∨ q = np)) as [Hx|Hx].
      * right. split; [by rewrite (fs_refs _ _ _ _ Hf), decide_True by done|].
        destruct Hx as [-> | ->]; [by left|right]. exists []. by repeat constructor.
      * left. apply (fs_used _ _ _ _ Hf) in Hq. naive_solver.
  - intros q Hq. rewrite (fs_refs _ _ _ _ Hf) by (apply (fs_used _ _ _ _ Hf); auto).
    rewrite (decide_False (P := q = sp ∨ q = np)) by (by intros [-> | ->]). cbn. rewrite decide_False; [lia|apply not_elem_of_nil].
  - split; [constructor|]. rewrite (fs_avail _ _ _ _ Hf). cbn. lia.
Qed.

Definition cloned_post (res : option address_space) s : Prop :=
  match res with
  | None => clone_failed s
  | Some KernelSpace => False
  | Some (SpaceAt sp) => ∃ np, copying sp np (tree_pages (ram_of s0) 3 256 root []) s
  end.

Lemma wp_clone_space : space_ok s0 (kernel_space_pml4 s0) →
  wp (vmm_clone_address_space (Some (SpaceAt p))) cloned_post s0.
Proof.
  intros Hkok. pose proof (ms_user _ _ _ (pc_mem _ _ _ Hproc)) as [Hi0 _ [Hrp (Hpu&Hpp&_)] _].
  unfold vmm_clone_address_space. apply wp_bind. eapply wp_mono; [by apply wp_vmm_create_address_space|].
  intros res s1 [Hi1 Hpost]. destruct res as [[|sp]|]; [done| |].
  2:{ apply wp_ret. destruct Hpost as (Hav&_&Hu&Hr&Hent&Hk). exists [].
      split; [|split; [constructor|cbn; lia]]. split; [|done]. apply fresh_marked; [done|intros q; apply Hu|done|done]. }
  destruct Hpost as (np&Hf). pose proof (fresh_copying sp np s1 Hi1 Hf) as HJ.
  apply wp_bind. apply (wp_of_run _ _ _ root s1).
  { cbn. unfold read64, gets. rewrite <-Hrp, <-!rd64_entry0. rewrite <-(fs_old _ _ _ _ Hf p 0) by (done || unfold idx_ok; lia). done. }
  apply wp_bind.
  eapply wp_mono.
  { apply (wp_clone_level (ram_of s0) root (SpaceAt sp) (copying sp np) clone_failed) with (d := 3%nat) (prefix := [])
      (table := root) (n := 256) (ps := []); try done.
    - intros ps s (Hm&_). apply (mk_pages _ _ _ _ Hm).
    - intros ps s prefix table i (Hm&_) Ht Hl Hfi _ Hnin. apply Forall_app in Hfi as [Hfp Hfi]. apply Forall_cons in Hfi as [Hfi _].
      by apply (marked_plain s0 p root Hproc ps s prefix).
    - intros ps s prefix table i HJs Ht _ Hup Hnin. by apply wp_clone_entry.
    - intros i Hi. cbn. lia.
    - apply tree_pages_NoDup. lia. }
  intros [[]|] s2 H2; apply wp_ret; [done|]. by exists np.
Qed.
End steps.
