(* ===== verification/VmmForkable.v ===== *)
(** * Address spaces that can be copied

    [forkable] holds of an address space [vmm_create_address_space] made, is
    kept by [vmm_map] and by [vmm_clone_address_space], and holds of the copy. *)

From S2P Require Import Prelude Bits Ram Frames Vmm PageTable VmmSpec VmmMap VmmUser VmmSpace MemCalls VmaSpec MemPages VmmDestroy VmmScope VmmClone VmmFork VmmForkRun.

Section forkable.
Context {S : Type} `{FrameAllocLaws S}.
Implicit Types s : vmm S.

(** Every reference count of a user page leaves room for one more. *)
Definition room_for_child s (root : Z) : Prop :=
  ∀ va e, user_half va → leaf (ram_of s) root va = Some e → fa_refs (frames s) (entry_phys e) < 65535.

(** The address space of a process whose kernel half is the kernel's and whose
    user half holds no table of the kernel. *)
Record forkable s (p root : Z) : Prop := {
  fk_space : process_space s p root;
  fk_share : shares_kernel s root;
  fk_kernel : space_ok s (kernel_space_pml4 s);
  fk_apart : ∀ q path, is_table (ram_of s) (kernel_space_pml4 s) q → path_ok path → hd 0 path < 256 →
    table_at (ram_of s) root path ≠ Some q;
}.

Lemma nil_path_ok : path_ok [].
Proof. split; [cbn; lia|constructor]. Qed.
Lemma is_table_root r root : is_table r root root.
Proof. exists []. split; [apply nil_path_ok|done]. Qed.

Section clone.
Context (s : vmm S) (p root : Z) (Hs : forkable s p root).
#[local] Abbreviation pages := (tree_pages (ram_of s) 3 256 root []).

Lemma pages_elem va : va_path va ∈ pages ↔ user_half va ∧ is_Some (leaf (ram_of s) root va).
Proof.
  rewrite tree_pages_elem by lia. split.
  - intros (q&Hq&_&_&Hh&[f Ht]). cbn in Hq. subst q. split; [exact Hh|]. apply table_at_leaf in Ht as (e&->&_). done.
  - intros (Hva&[e He]). exists (va_path va). split; [done|]. split; [done|]. split; [apply va_path_ok|].
    split; [exact Hva|]. exists (entry_phys e). apply table_at_leaf. by exists e.
Qed.

Lemma pages_frame q : q ∈ omap (table_at (ram_of s) root) pages ↔
  ∃ va e, user_half va ∧ leaf (ram_of s) root va = Some e ∧ entry_phys e = q.
Proof.
  rewrite list_elem_of_omap. split.
  - intros (path&(x&->&Hl&Hf&Hh&_)%tree_pages_elem&Ht); [|lia]. cbn in Ht.
    destruct (leaf_at _ _ _ _ Hl Hf Hh Ht) as (va&e&_&Hva&He&Hq). exists va, e. split; [by apply user_end_half|done].
  - intros (va&e&Hva&He&Hq). exists (va_path va). split; [by apply pages_elem; rewrite He|].
    apply table_at_leaf. by exists e.
Qed.

Lemma clone_run : room_for_child s root → wp (vmm_clone_address_space (Some (SpaceAt p))) (cloned_post s root) s.
Proof.
  intros Hroom. apply (wp_clone_space s p root (fk_space _ _ _ Hs)); [|apply Hs|apply Hs]. intros path f (Hl&Hf&Hh&_) Ht.
  destruct (leaf_at _ _ _ _ Hl Hf Hh Ht) as (va&e&_&Hva&He&<-). by eapply Hroom; [apply user_end_half|].
Qed.

Lemma counted_ge ps t : counted s root ps t → ∀ q, fa_used (frames s) q → fa_refs (frames s) q ≤ fa_refs (frames t) q.
Proof. intros Hc q Hq. rewrite (Hc q Hq). destruct (decide _); lia. Qed.

(** Marking writes to no table of the kernel. *)
Lemma marked_kernel ps t : cow_marked s root ps t → space_ok t (kernel_space_pml4 t) ∧
  (∀ u j, is_table (ram_of s) (kernel_space_pml4 s) u → idx_ok j → pt_entry (ram_of t) u j = pt_entry (ram_of s) u j) ∧
  (∀ u, is_table (ram_of t) (kernel_space_pml4 t) u → is_table (ram_of s) (kernel_space_pml4 s) u).
Proof.
  intros Hm. pose proof (fk_kernel _ _ _ Hs) as [Hr Hinj Hus].
  assert (Hent : ∀ u j, is_table (ram_of s) (kernel_space_pml4 s) u → idx_ok j → pt_entry (ram_of t) u j = pt_entry (ram_of s) u j).
  { intros u j Hu Hj. apply (mk_same _ _ _ _ Hm); [by destruct Hu as (path&Hp&Ht); eapply Hus|done|].
    intros prefix Hin. destruct (user_page_prefix _ _ _ _ (mk_pages _ _ _ _ Hm _ Hin)) as (Hpo&_&_&Hh).
    by apply (fk_apart _ _ _ Hs). }
  assert (Ht : ∀ path, path_ok path → table_at (ram_of t) (kernel_space_pml4 s) path = table_at (ram_of s) (kernel_space_pml4 s) path)
    by by apply table_at_same.
  rewrite (mk_kernel _ _ _ _ Hm). split; [split|split; [done|]].
  - done.
  - intros a b u Ha Hb. rewrite !Ht by done. by apply Hinj.
  - intros path u Hp. rewrite Ht by done. intros Hu. by eapply (mk_used _ _ _ _ Hm), Hus.
  - intros u (path&Hp&Hu). exists path. split; [done|]. by rewrite <-Ht.
Qed.

(** What the copy leaves of the parent, whatever its result. *)
Lemma marked_parent ps t : cow_marked s root ps t →
  (∀ q, fa_used (frames s) q → fa_refs (frames s) q ≤ fa_refs (frames t) q) → forkable t p root.
Proof.
  intros Hm Hge. destruct (marked_kernel ps t Hm) as (Hkok&Hkent&Hkt). split.
  - by apply (parent_process s p root (fk_space _ _ _ Hs) ps).
  - intros j Hj. rewrite (mk_kernel _ _ _ _ Hm), (Hkent (kernel_space_pml4 s) j) by (apply is_table_root || (unfold idx_ok; lia)).
    rewrite <-(fk_share _ _ _ Hs j Hj).
    apply (marked_plain s p root (fk_space _ _ _ Hs) ps t []); [done|apply nil_path_ok|unfold idx_ok; lia|done|].
    intros (Hl&_)%(mk_pages _ _ _ _ Hm). cbn in Hl. lia.
  - done.
  - intros q path Hq Hp Hh. rewrite (marked_table s p root (fk_space _ _ _ Hs) ps) by done. by apply (fk_apart _ _ _ Hs); [apply Hkt|..].
Qed.

Lemma marked_data ps t q j : cow_marked s root ps t → other_frame s root q → idx_ok j →
  pt_entry (ram_of t) q j = pt_entry (ram_of s) q j.
Proof.
  intros Hm (Hu&_&Hn) Hj. apply (mk_same _ _ _ _ Hm); [done|done|]. intros prefix Hin. apply Hn.
  by apply (mk_pages _ _ _ _ Hm), user_page_prefix in Hin as [? _].
Qed.

Lemma child_forkable sp np t : copying s root sp np pages t → forkable t sp np.
Proof.
  intros (Hm&Hc&Hn&_). destruct (marked_kernel _ _ Hm) as (Hkok&Hkent&Hkt). split.
  - apply (child_process s p root (fk_space _ _ _ Hs) pages pages); [done|done|by eapply counted_ge].
  - intros j Hj. rewrite (ch_top _ _ _ _ _ _ Hc), (mk_kernel _ _ _ _ Hm) by done.
    rewrite Hkent; [by apply (fk_share _ _ _ Hs)|apply is_table_root|unfold idx_ok; lia].
  - done.
  - intros q path (kpath&Hkp&Hkq)%Hkt Hp Hh Ht. eapply (ch_new _ _ _ _ _ _ Hc); [done|done|done|].
    exact (so_used _ _ (fk_kernel _ _ _ Hs) kpath q Hkp Hkq).
Qed.

(** The pages of the user half after a complete copy. *)
Lemma copied_page sp np t va : copying s root sp np pages t → user_half va →
  leaf (ram_of t) np va = child_entry <$> leaf (ram_of s) root va ∧
  leaf (ram_of t) root va = parent_entry <$> leaf (ram_of s) root va.
Proof.
  intros (Hm&Hc&_) Hva. rewrite (ch_leaf _ _ _ _ _ _ Hc), (marked_leaf s p root (fk_space _ _ _ Hs) pages t va Hm).
  rewrite (decide_True (P := user_half va)) by done. destruct (decide (va_path va ∈ pages)) as [|Hn]; [done|].
  rewrite pages_elem in Hn. destruct (leaf (ram_of s) root va) as [e|]; [|done]. destruct Hn. by split.
Qed.

Lemma copied_flush sp np t va e : copying s root sp np pages t → page_ok va → 0 ≤ va < USER_END →
  leaf (ram_of s) root va = Some e → has e VMM_WRITABLE = true → Invlpg va ∈ tlb_log t.
Proof.
  intros (Hm&_) Hp Hva He Hw. pose proof (user_end_half va Hva) as Hh.
  assert (Hin : walk_path va ++ [pt_index va] ∈ pages) by (apply pages_elem; by rewrite He).
  assert (Hback : path_va (va_path va) = va).
  { apply va_path_inj; [|unfold USER_END in Hva; lia|apply path_va_page|done|by apply path_va_path, va_path_ok].
    pose proof (path_va_user (va_path va) eq_refl (va_path_ok va) Hh). unfold USER_END in *. lia. }
  unfold leaf in He. destruct (table_at (ram_of s) root (walk_path va)) as [pt|] eqn:Ht; [|done]. cbn [mbind option_bind] in He.
  destruct (has (pt_entry _ _ _) VMM_PRESENT); [|done]. injection He as <-.
  rewrite <-Hback, walk_snoc. by eapply (mk_log _ _ _ _ Hm).
Qed.
End clone.

(** ** Fresh address spaces *)

Lemma fresh_user_table s sp np s' path t : fresh_space s sp np s' → path_ok path → hd 0 path < 256 →
  table_at (ram_of s') np path = Some t → path = [] ∧ t = np.
Proof.
  intros Hf Hp Hh Ht. destruct path as [|i path]; [by injection Ht as <-|]. exfalso.
  destruct (path_ok_at [] i path Hp) as [_ Hi]. cbn [table_at hd] in *. unfold pt_child in Ht.
  rewrite (fs_table _ _ _ _ Hf), decide_False in Ht by (done || lia). done.
Qed.

Lemma fresh_forkable s sp np s' : fa_inv (frames s') → space_ok s (kernel_space_pml4 s) → fresh_space s sp np s' →
  (∀ va e, leaf (ram_of s) (kernel_space_pml4 s) va = Some e → has e VMM_USER = false) →
  forkable s' sp np.
Proof.
  intros Hi [Hkr Hkinj Hkus] Hf Hnu. pose proof (fs_new _ _ _ _ Hf) as [Hns Hnn].
  assert (Hl : ∀ va e, leaf (ram_of s') np va = Some e → ¬ user_half va ∧ has e VMM_USER = false).
  { intros va e. rewrite (fs_leaf _ _ _ _ Hf). destruct (decide (user_half va)); [done|]. intros He. split; [done|by eapply Hnu]. }
  assert (Hone : ∀ q, q = sp ∨ q = np → 1 ≤ fa_refs (frames s') q).
  { intros q Hq. rewrite (fs_refs _ _ _ _ Hf), decide_True; [lia|done|]. apply (fs_used _ _ _ _ Hf). naive_solver. }
  assert (Hkent : ∀ u j, is_table (ram_of s) (kernel_space_pml4 s) u → idx_ok j → pt_entry (ram_of s') u j = pt_entry (ram_of s) u j).
  { intros u j (path&Hp&Ht) Hj. apply (fs_old _ _ _ _ Hf); [exact (Hkus path u Hp Ht)|by eapply table_at_frame, Ht|done]. }
  assert (Hkt : ∀ path, path_ok path → table_at (ram_of s') (kernel_space_pml4 s) path = table_at (ram_of s) (kernel_space_pml4 s) path)
    by by apply table_at_same.
  split; rewrite ?(fs_rest _ _ _ _ Hf).
  - split; [split; [split|..]|..]; try done; try apply Hf.
    + intros va e [_ Hu]%Hl. congruence.
    + intros va e Hva [Hn _]%Hl. destruct Hn. by apply user_end_half.
    + intros va vb e f [_ Hu]%Hl _. congruence.
    + apply Hone. by left.
    + intros path t Hp Hh Ht. destruct (fresh_user_table _ _ _ _ _ _ Hf Hp Hh Ht) as [_ ->]. apply Hone. by right.
  - intros j Hj. rewrite (fs_rest _ _ _ _ Hf), (fs_table _ _ _ _ Hf), decide_True by (unfold idx_ok; lia).
    symmetry. apply Hkent; [apply is_table_root|unfold idx_ok; lia].
  - split; [done|intros a b u Ha Hb; rewrite !Hkt by done; by apply Hkinj|].
    intros path u Hp. rewrite Hkt by done. intros Hu. apply (fs_used _ _ _ _ Hf). right. right. exact (Hkus path u Hp Hu).
  - intros q path (kpath&Hkp&Hkq) Hp Hh Ht. rewrite Hkt in Hkq by done.
    destruct (fresh_user_table _ _ _ _ _ _ Hf Hp Hh Ht) as [_ ->]. by apply Hnn, (Hkus kpath).
Qed.

(** ** Mapping a page *)

Lemma forkable_map s s' p root va v : forkable s p root → kept root s s' → map_scope root va s s' → user_half va →
  (∀ vb, leaf (ram_of s') root vb = if decide (va_path va = va_path vb) then Some v else leaf (ram_of s) root vb) →
  has v VMM_USER = true → user_frame s (SpaceAt p) root (entry_phys v) →
  (∀ vb e, va_path va ≠ va_path vb → leaf (ram_of s) root vb = Some e → has e VMM_USER = true → entry_phys e ≠ entry_phys v) →
  forkable s' p root.
Proof.
  intros [Hsp Hsh [Hkr Hkinj Hkus] Hap] Hk Hsc Hva Hl Hu Huf Hne.
  pose proof (ms_user _ _ _ (pc_mem _ _ _ Hsp)) as [_ [Hr Hinj Hus] Hro _].
  assert (Hway : ∀ n q j, table_at (ram_of s) root (take n (va_path va)) = Some q → va_path va !! n = Some j →
    path_ok (take n (va_path va)) ∧ hd 0 (take n (va_path va)) < 256).
  { intros n q j _ Hj. apply lookup_lt_Some in Hj. change (length (va_path va)) with 4%nat in Hj.
    split; [apply take_path_ok; lia|]. destruct n; [done|exact Hva]. }
  assert (Hkent : ∀ u j, is_table (ram_of s) (kernel_space_pml4 s) u → idx_ok j → pt_entry (ram_of s') u j = pt_entry (ram_of s) u j).
  { intros u j Hku Hj. pose proof Hku as (path&Hp&Ht). apply (sc_entry _ _ _ _ Hsc); [exact (Hkus path u Hp Ht)|by eapply table_at_frame, Ht|done|].
    intros n Hn Hj'. destruct (Hway n u j Hn Hj') as [Hpo Hh]. by apply (Hap u (take n (va_path va))). }
  assert (Hkt : ∀ path, path_ok path → table_at (ram_of s') (kernel_space_pml4 s) path = table_at (ram_of s) (kernel_space_pml4 s) path)
    by by apply table_at_same.
  split; rewrite ?(sc_kernel _ _ _ _ Hsc).
  - split.
    + by eapply mem_space_set; [apply Hsp|..].
    + rewrite <-(pc_self _ _ _ Hsp) at 2. apply (proj2 (kp_other _ _ _ Hk p (proj2 Hro)) 1). unfold idx_ok. lia.
    + rewrite (kp_refs _ _ _ Hk) by apply Hro. apply Hsp.
    + intros path t Hp Hh Ht. destruct (sc_tables _ _ _ _ Hsc _ _ Hp Ht) as [Ht0|Hn].
      * rewrite (kp_refs _ _ _ Hk) by exact (Hus path t Hp Ht0). by eapply (pc_tables _ _ _ Hsp).
      * destruct (sc_new _ _ _ _ Hsc t) as [?|[-> _]]; [|done|lia]. by eapply (so_used _ _ (kp_ok _ _ _ Hk)), Ht.
  - intros j Hj. rewrite (sc_kernel _ _ _ _ Hsc), (Hkent (kernel_space_pml4 s) j) by (apply is_table_root || (unfold idx_ok; lia)).
    rewrite <-(Hsh j Hj). apply (sc_entry _ _ _ _ Hsc); [exact (Hus [] root nil_path_ok eq_refl)|apply Hr|unfold idx_ok; lia|].
    intros n Hn Hj'. destruct (Hway n root j Hn Hj') as [Hpo _].
    assert (E : take n (va_path va) = []) by (by eapply Hinj; [|apply nil_path_ok|..]). destruct n; [|done].
    injection Hj' as <-. unfold user_half in Hva. lia.
  - split; [done|intros a b u Ha Hb; rewrite !Hkt by done; by apply Hkinj|].
    intros path u Hp. rewrite Hkt by done. intros Hx. apply (kp_used _ _ _ Hk). exact (Hkus path u Hp Hx).
  - intros q path (kpath&Hkp&Hkq) Hp Hh Ht. rewrite Hkt in Hkq by done.
    destruct (sc_tables _ _ _ _ Hsc _ _ Hp Ht) as [Ht0|Hn]; [|exact (Hn (Hkus kpath q Hkp Hkq))].
    apply (Hap q path); [by exists kpath|done..].
Qed.
End forkable.
