(* ===== verification/VmmLife.v ===== *)
(** * Properties of copying and destroying address spaces. *)

From S2P Require Import Prelude Bits Ram Pmm PmmSpec PmmInit PmmProps Frames Vmm PageTable VmmSpec VmmMap VmmSpace VmmCow VmmUser VmmProps.
From S2P Require Import MemCalls VmaSpec MemPages MemSystem MemProps VmmDestroy VmmScope VmmClone VmmFork VmmForkRun VmmForkable.

Section props.
Context {S : Type} `{FrameAllocLaws S}.
Implicit Types s : vmm S.

(** A frame that belongs to the address space [p]: the structure, a table of
    the user half, or the frame of a user page. *)
Definition frame_of_space s (p root q : Z) : Prop :=
  q = p ∨ (∃ path, path_ok path ∧ hd 0 path < 256 ∧ table_at (ram_of s) root path = Some q) ∨
  ∃ va e, user_half va ∧ leaf (ram_of s) root va = Some e ∧ entry_phys e = q.

Lemma space_frames_elem s p root q : q ∈ space_frames (ram_of s) root p ↔ frame_of_space s p root q.
Proof.
  unfold space_frames, frame_of_space. rewrite elem_of_app, tree_frames_elem, !elem_of_cons by lia. split.
  - intros [(path&(Hl&Hf&Hh)&Ht)|[->|[->|[]%elem_of_nil]]]; [|right; left; exists []; by repeat constructor|by left].
    right. destruct (decide (length path = 4%nat)) as [H4|].
    + right. destruct (leaf_at _ _ _ _ H4 Hf Hh Ht) as (va&e&_&Hva&He&Hq). exists va, e. split; [by apply user_end_half|done].
    + left. exists path. split; [split; [lia|done]|done].
  - intros [->|[([|i path]&Hp&Hh&Ht)|(va&e&Hva&He&Hq)]].
    + right. right. by left.
    + injection Ht as ->. right. by left.
    + left. exists (i :: path). split; [|done]. destruct Hp as [Hl Hf]. split; [cbn in *; lia|done].
    + left. exists (va_path va). split; [split; [unfold va_path; cbn; lia|split; [apply va_path_ok|exact Hva]]|].
      apply table_at_leaf. by exists e.
Qed.

(** C15. [vmm_destroy_address_space] of the address space of a process returns
    and gives up one reference to each of its frames: to the structure, to the
    tables of the user half and to the frames of the user pages, each once and
    to no other frame.  Frames whose last reference this was become free, and
    the number of free frames grows by exactly their number; frames shared with
    another space stay.  The memory itself is not written. *)
Theorem vmm_destroy_correct s p root : process_space s p root →
  ∃ s' l, vmm_destroy_address_space (Some (SpaceAt p)) s = Done ((), s') ∧
    NoDup l ∧ (∀ q, q ∈ l ↔ frame_of_space s p root q) ∧
    fa_inv (frames s') ∧ ram_of s' = ram_of s ∧
    (∀ q, fa_used (frames s') q ↔ fa_used (frames s) q ∧ ¬ (frame_of_space s p root q ∧ fa_refs (frames s) q = 1)) ∧
    (∀ q, fa_used (frames s') q → fa_refs (frames s') q = fa_refs (frames s) q - if decide (q ∈ l) then 1 else 0) ∧
    fa_avail (frames s') = fa_avail (frames s) + Z.of_nat (length (filter (λ q, fa_refs (frames s) q = 1) l)).
Proof.
  intros Hs. destruct (proj1 (wp_run _ _ _) (process_destroy s p root Hs)) as ([]&s'&Hrun&[Hi Hram Hu Hr Ha _]).
  exists s', (space_frames (ram_of s) root p). split; [done|]. split; [apply (process_owned s p root Hs)|].
  split; [intros q; apply space_frames_elem|]. split; [done|]. split; [done|]. split; [|split; [|done]].
  - intros q. rewrite Hu, space_frames_elem. tauto.
  - intros q Hq. rewrite (Hr q Hq). destruct (decide _); lia.
Qed.

(** C9. [vmm_clone_address_space] always returns.  On success the child is again
    the address space of a process, with the kernel half of the parent and, in
    the user half, every page of the parent on the same frame and with the same
    flags, except that pages that were writable are copy-on-write in both and
    writable in neither; their entries are flushed from the TLB.  Each of these
    frames has one more reference and no other frame has.  It fails only when
    at most four frames and three for each user page are free; then no frame is
    lost, all reference counts are as before, and at most some writable pages of
    the parent have become copy-on-write.  In both cases no frame outside the
    parent's tables changes. *)
Theorem vmm_clone_correct s p root : forkable s p root → room_for_child s root →
  ∃ res s', vmm_clone_address_space (Some (SpaceAt p)) s = Done (res, s') ∧ forkable s' p root ∧
    (∀ q j, other_frame s root q → idx_ok j → pt_entry (ram_of s') q j = pt_entry (ram_of s) q j) ∧
    match res with
    | None =>
        (∀ q, fa_used (frames s') q ↔ fa_used (frames s) q) ∧
        (∀ q, fa_used (frames s) q → fa_refs (frames s') q = fa_refs (frames s) q) ∧
        (∃ pages, NoDup pages ∧
           (∀ path, path ∈ pages → ∃ va, va_path va = path ∧ user_half va ∧ is_Some (leaf (ram_of s) root va)) ∧
           fa_avail (frames s) ≤ 4 + 3 * Z.of_nat (length pages)) ∧
        (∀ va, leaf (ram_of s') root va = leaf (ram_of s) root va ∨
           user_half va ∧ ∃ e d, leaf (ram_of s) root va = Some e ∧ leaf (ram_of s') root va = Some d ∧ cow_share e d)
    | Some child => ∃ sp np, child = SpaceAt sp ∧ forkable s' sp np ∧
        (∀ va, ¬ user_half va → leaf (ram_of s') np va = leaf (ram_of s) root va ∧
           leaf (ram_of s') root va = leaf (ram_of s) root va) ∧
        (∀ va, user_half va →
           match leaf (ram_of s) root va with
           | None => leaf (ram_of s') np va = None ∧ leaf (ram_of s') root va = None
           | Some e => ∃ c d, leaf (ram_of s') np va = Some c ∧ leaf (ram_of s') root va = Some d ∧
               cow_share e c ∧ cow_share e d ∧
               fa_refs (frames s') (entry_phys e) = fa_refs (frames s) (entry_phys e) + 1
           end) ∧
        (∀ va e, page_ok va → 0 ≤ va < USER_END → leaf (ram_of s) root va = Some e →
           has e VMM_WRITABLE = true → Invlpg va ∈ tlb_log s') ∧
        (∀ q, fa_used (frames s) q → fa_used (frames s') q ∧
           ((∀ va e, user_half va → leaf (ram_of s) root va = Some e → entry_phys e ≠ q) →
            fa_refs (frames s') q = fa_refs (frames s) q))
    end.
Proof.
  intros Hs Hroom. destruct (proj1 (wp_run _ _ _) (clone_run s p root Hs Hroom)) as (res&s'&Hrun&Hpost).
  exists res, s'. split; [done|]. destruct res as [[|sp]|]; [done| |].
  - destruct Hpost as (np&HJ). pose proof HJ as (Hm&Hc&Hn&_). split; [by eapply marked_parent, counted_ge|].
    split; [intros; by eapply marked_data|]. exists sp, np. split; [done|]. split; [by eapply child_forkable|].
    split; [|split; [|split]].
    + intros va Hva. rewrite (ch_leaf _ _ _ _ _ _ Hc), decide_False by done. split; [done|].
      rewrite (marked_leaf s p root (fk_space _ _ _ Hs) _ s' va Hm), decide_False; [done|]. by intros [? _]%pages_elem.
    + intros va Hva. destruct (copied_page s p root Hs sp np s' va HJ Hva) as [-> ->].
      destruct (leaf (ram_of s) root va) as [e|] eqn:He; [|done]. exists (child_entry e), (parent_entry e).
      split; [done|]. split; [done|]. split; [apply child_entry_share|]. split; [apply parent_entry_share|].
      assert (Hin : entry_phys e ∈ omap (table_at (ram_of s) root) (tree_pages (ram_of s) 3 256 root []))
        by (apply pages_frame; by exists va, e).
      rewrite Hn, decide_True; [done|done|]. apply list_elem_of_omap in Hin as (path&Hp&Ht).
      eapply (page_frame s p root (fk_space _ _ _ Hs)), Ht. by apply (mk_pages _ _ _ _ Hm).
    + intros va e. by apply (copied_flush s root sp np).
    + intros q Hq. split; [by apply (mk_used _ _ _ _ Hm)|]. intros Hno. rewrite (Hn q Hq), decide_False; [lia|].
      rewrite pages_frame. intros (va&e&Hva&He&Hqe). by apply (Hno va e).
  - destruct Hpost as (ps&(Hm&Hu&Hr)&Hnd&Hav). split; [eapply marked_parent; [done|done|]; intros q Hq; by rewrite Hr|].
    split; [intros; by eapply marked_data|]. split; [done|]. split; [done|]. split.
    { exists ps. split; [done|]. split; [|done]. intros path Hin. destruct (mk_pages _ _ _ _ Hm _ Hin) as (Hl&Hf&Hh&[f Ht]).
      destruct (leaf_at _ _ _ _ Hl Hf Hh Ht) as (va&e&Hp&Hva&He&_). exists va. rewrite He. split; [done|].
      split; [by apply user_end_half|done]. }
    intros va.
    rewrite (marked_leaf s p root (fk_space _ _ _ Hs) _ s' va Hm). destruct (decide (va_path va ∈ ps)) as [Hin|]; [right|by left].
    destruct (mk_pages _ _ _ _ Hm _ Hin) as (_&_&Hva&[f Ht]). split; [done|]. apply table_at_leaf in Ht as (e&He&_).
    exists e, (parent_entry e). rewrite He. split; [done|]. split; [done|]. apply parent_entry_share.
Qed.

(** C20. Copying an address space and destroying the copy leaves every frame
    allocated exactly as before, with the same reference counts. *)
Theorem clone_destroy_roundtrip s p root : forkable s p root → room_for_child s root →
  ∃ res s1, vmm_clone_address_space (Some (SpaceAt p)) s = Done (res, s1) ∧
    ∃ s2, vmm_destroy_address_space res s1 = Done ((), s2) ∧ forkable s2 p root ∧
      (∀ q, fa_used (frames s2) q ↔ fa_used (frames s) q) ∧
      (∀ q, fa_used (frames s) q → fa_refs (frames s2) q = fa_refs (frames s) q).
Proof.
  intros Hs Hroom. destruct (proj1 (wp_run _ _ _) (clone_run s p root Hs Hroom)) as (res&s1&Hrun&Hpost).
  exists res, s1. split; [done|].
  assert (Hdone : ∃ ps s2, vmm_destroy_address_space res s1 = Done ((), s2) ∧ undone s root ps s2).
  { destruct res as [[|sp]|]; [done| |destruct Hpost as (ps&Hu&_); by exists ps, s1].
    destruct Hpost as (np&Hm&Hc&Hn&_).
    destruct (proj1 (wp_run _ _ _) (wp_give_up s p root (fk_space _ _ _ Hs) _ _ sp np s1 Hm Hc Hn (mk_pages _ _ _ _ Hm)))
      as ([]&s2&Hrun2&Hu). by eexists _, s2. }
  destruct Hdone as (ps&s2&Hrun2&Hm&Hu&Hr). exists s2. split; [done|]. split; [|done].
  eapply marked_parent; [done|done|]. intros q Hq. by rewrite Hr.
Qed.
End props.

(** ** A process with one writable page *)

#[local] Existing Instance demo_frames.
#[local] Existing Instance demo_laws.

(** A data frame at 24576, a fresh space, and the frame mapped at [0x400000]. *)
Definition fork_base : vmm pmm := state_of (in_frames fa_alloc) demo_vmm.
Definition fork_empty : vmm pmm := state_of vmm_create_address_space fork_base.
Definition fork_demo : vmm pmm := state_of (vmm_map (Some (SpaceAt 32768)) 0x400000 24576 7) fork_empty.

Lemma fork_base_ok : allocd 24576 demo_vmm fork_base ∧
  (∀ j, idx_ok j → pt_entry (ram_of fork_base) 20480 j = 0) ∧ space_ok fork_base 20480 ∧
  (∀ va, leaf (ram_of fork_base) 20480 va = None) ∧ kernel_space_pml4 fork_base = 20480.
Proof.
  destruct demo_vmm_ok as [Hok _].
  destruct (wp_state_value (in_frames fa_alloc) _ demo_vmm 24576 (wp_alloc demo_vmm demo_vmm_inv)) as [(?&_)|[_ Ha]];
    [vm_compute; reflexivity|discriminate|]. fold fork_base in Ha.
  assert (Hz : ∀ j, idx_ok j → pt_entry (ram_of fork_base) 20480 j = 0).
  { intros j Hj. rewrite (allocd_other _ _ _ _ _ Ha) by (reflexivity || done). unfold pt_entry, ram_of, demo_vmm. cbn [frames].
    rewrite demo1_eq. change (rd64 (zero_page 20480 (phys_ram demo)) (20480 + 8 * j) = 0). by apply rd64_zero_page_in. }
  assert (Hu : fa_used (frames fork_base) 20480).
  { apply (al_used _ _ _ Ha). right. exact (so_used _ _ Hok [] 20480 nil_path_ok eq_refl). }
  destruct (empty_root_tables fork_base 20480 Hz ltac:(split; [reflexivity|lia]) Hu) as [Hs Hl].
  split; [done|]. split; [done|]. split; [done|]. split; [done|]. apply (al_rest _ _ _ Ha).
Qed.

Lemma fork_empty_ok : fresh_space fork_base 32768 28672 fork_empty ∧ fa_inv (frames fork_empty).
Proof.
  destruct fork_base_ok as (Ha&_&Hok&_&Hk). rewrite <-Hk in Hok.
  destruct (wp_state_value vmm_create_address_space _ fork_base (Some (SpaceAt 32768))
    (wp_vmm_create_address_space fork_base (al_inv _ _ _ Ha) Hok)) as [Hi (np&Hf)]; [vm_compute; reflexivity|].
  fold fork_empty in Hf, Hi. split; [|done].
  assert (np = 28672) as <-; [|done]. destruct (fs_root _ _ _ _ Hf) as [<- _]. vm_compute. reflexivity.
Qed.

Lemma fork_empty_forkable : forkable fork_empty 32768 28672 ∧ (∀ va, leaf (ram_of fork_empty) 28672 va = None) ∧
  user_frame fork_empty (SpaceAt 32768) 28672 24576.
Proof.
  destruct fork_base_ok as (Ha&Hz&Hok&Hl&Hk). destruct fork_empty_ok as [Hf Hi]. pose proof Hok as Hok'. rewrite <-Hk in Hok'.
  assert (Hu : fa_used (frames fork_base) 24576) by (apply (al_used _ _ _ Ha); by left).
  split; [|split].
  - eapply fresh_forkable; [done|done|done|]. intros va e. by rewrite Hk, Hl.
  - intros va. rewrite (fs_leaf _ _ _ _ Hf), Hk, Hl. by destruct (decide _).
  - split; [|split; [|congruence]].
    + split; [apply (fs_used _ _ _ _ Hf); auto|]. split; [reflexivity|]. intros [|i path] Hp; [discriminate|].
      destruct (path_ok_at [] i path Hp) as [_ Hi']. cbn [table_at]. unfold pt_child.
      rewrite (fs_table _ _ _ _ Hf), Hk, Hz by done. by destruct (decide _).
    + rewrite (fs_refs _ _ _ _ Hf), decide_False, (al_ref _ _ _ Ha); [done| |apply (fs_used _ _ _ _ Hf); auto].
      by intros [?|?].
Qed.

(** The page is the only one, its frame has one owner, and frames are left. *)
Record one_page (s : vmm pmm) (root f : Z) : Prop := {
  op_leaf : leaf (ram_of s) root 0x400000 = Some (make_entry f 7);
  op_only : ∀ va e, leaf (ram_of s) root va = Some e → va_path va = va_path 0x400000 ∧ entry_phys e = f;
  op_refs : fa_used (frames s) f ∧ fa_refs (frames s) f = 1;
  op_avail : 7 < fa_avail (frames s);
}.

Lemma fork_avail : 13 < fa_avail (frames demo_vmm).
Proof. vm_compute. reflexivity. Qed.

Lemma fork_demo_ok : forkable fork_demo 32768 28672 ∧ one_page fork_demo 28672 24576.
Proof.
  destruct fork_empty_forkable as (Hfk&Hl&Huf). pose proof (fk_space _ _ _ Hfk) as Hsp.
  pose proof (ms_user _ _ _ (pc_mem _ _ _ Hsp)) as [Hi Hok Hro _].
  assert (Hfo : frame_ok 24576) by (split; [reflexivity|lia]).
  destruct (wp_state_value _ _ fork_empty 0 (wp_vmm_map_scope fork_empty (SpaceAt 32768) 28672 0x400000 24576 7
    Hi Hok Hro eq_refl Hfo eq_refl)) as ([Hk Hpost]&Hsc&Hav); [vm_compute; reflexivity|]. fold fork_demo in Hk, Hpost, Hsc, Hav.
  rewrite Hl in Hpost. destruct Hpost as [(_&_&Hl')|(?&_&_)]; [|discriminate].
  assert (Hph : entry_phys (make_entry 24576 7) = 24576) by by apply entry_phys_make.
  destruct fork_base_ok as (Ha&_). destruct fork_empty_ok as [Hf _]. split; [|split].
  - apply (forkable_map fork_empty fork_demo 32768 28672 0x400000 (make_entry 24576 7));
      [exact Hfk|exact Hk|exact Hsc|reflexivity|exact Hl'|reflexivity|rewrite Hph; exact Huf|].
    intros vb e _. rewrite Hl. discriminate.
  - rewrite Hl', decide_True; reflexivity.
  - intros va e. rewrite Hl', Hl. destruct (decide _) as [Hp|]; [|discriminate]. intros [= <-]. split; [symmetry; exact Hp|exact Hph].
  - split; [apply (kp_used _ _ _ Hk), Huf|]. rewrite (kp_refs _ _ _ Hk) by apply Huf.
    rewrite (fs_refs _ _ _ _ Hf), decide_False, (al_ref _ _ _ Ha); [reflexivity|intros [?|?]; discriminate|apply Huf].
  - pose proof fork_avail. pose proof (al_avail _ _ _ Ha). pose proof (fs_avail _ _ _ _ Hf). lia.
Qed.

Lemma one_page_room s root f : one_page s root f → room_for_child s root.
Proof. intros Ho va e _ He. destruct (op_only _ _ _ Ho va e He) as [_ ->]. destruct (op_refs _ _ _ Ho). lia. Qed.

(** With one page the copy does not run out of frames. *)
Lemma one_page_short s root f (pages : list (list Z)) : one_page s root f → NoDup pages →
  (∀ path, path ∈ pages → ∃ va, va_path va = path ∧ user_half va ∧ is_Some (leaf (ram_of s) root va)) →
  ¬ fa_avail (frames s) ≤ 4 + 3 * Z.of_nat (length pages).
Proof.
  intros Ho Hnd Hp. assert (Hall : ∀ path, path ∈ pages → path = va_path 0x400000).
  { intros path Hin. destruct (Hp path Hin) as (va&<-&_&[e He]). by destruct (op_only _ _ _ Ho va e He). }
  pose proof (op_avail _ _ _ Ho). destruct pages as [|a [|b pages]]; cbn [length]; [lia|lia|]. exfalso.
  apply NoDup_cons in Hnd as [Hn _]. apply Hn. rewrite (Hall a ltac:(by left)), (Hall b ltac:(right; by left)). by left.
Qed.

#[local] Opaque fork_base fork_empty fork_demo.

Lemma vmm_destroy_correct_witness :
  ∃ s', vmm_destroy_address_space (Some (SpaceAt 32768)) fork_demo = Done ((), s') ∧ ¬ fa_used (frames s') 24576.
Proof.
  destruct fork_demo_ok as [Hfk Ho].
  destruct (vmm_destroy_correct fork_demo 32768 28672 (fk_space _ _ _ Hfk)) as (s'&l&Hrun&_&_&_&_&Hu&_).
  exists s'. split; [exact Hrun|]. intros [_ Hn]%Hu. apply Hn. split; [|exact (proj2 (op_refs _ _ _ Ho))].
  right. right. exists 0x400000, (make_entry 24576 7). split; [reflexivity|]. split; [exact (op_leaf _ _ _ Ho)|].
  exact (proj2 (op_only _ _ _ Ho 0x400000 _ (op_leaf _ _ _ Ho))).
Defined.

Lemma vmm_clone_correct_witness :
  ∃ sp np s' c, vmm_clone_address_space (Some (SpaceAt 32768)) fork_demo = Done (Some (SpaceAt sp), s') ∧
    leaf (ram_of s') np 0x400000 = Some c ∧ entry_phys c = 24576 ∧ has c VMM_COW = true ∧
    fa_refs (frames s') 24576 = 2.
Proof.
  destruct fork_demo_ok as [Hfk Ho].
  assert (Hph : entry_phys (make_entry 24576 7) = 24576) by exact (proj2 (op_only _ _ _ Ho 0x400000 _ (op_leaf _ _ _ Ho))).
  destruct (vmm_clone_correct fork_demo 32768 28672 Hfk (one_page_room _ _ _ Ho)) as (res&s'&Hrun&_&_&Hpost).
  destruct res as [child|].
  - destruct Hpost as (sp&np&->&_&_&Hpage&_). specialize (Hpage 0x400000 eq_refl). rewrite (op_leaf _ _ _ Ho) in Hpage.
    destruct Hpage as (c&d&Hc&_&Hsh&_&Hr). exists sp, np, s', c. split; [exact Hrun|]. split; [exact Hc|].
    rewrite (cw_phys _ _ Hsh), (cw_cow _ _ Hsh). split; [exact Hph|]. split; [reflexivity|].
    rewrite Hph in Hr. rewrite Hr, (proj2 (op_refs _ _ _ Ho)). reflexivity.
  - exfalso. destruct Hpost as (_&_&(pages&Hnd&Hp&Hav)&_). exact (one_page_short _ _ _ _ Ho Hnd Hp Hav).
Defined.

Lemma clone_destroy_roundtrip_witness :
  ∃ res s1 s2, vmm_clone_address_space (Some (SpaceAt 32768)) fork_demo = Done (res, s1) ∧
    vmm_destroy_address_space res s1 = Done ((), s2) ∧ fa_refs (frames s2) 24576 = 1.
Proof.
  destruct fork_demo_ok as [Hfk Ho].
  destruct (clone_destroy_roundtrip fork_demo 32768 28672 Hfk (one_page_room _ _ _ Ho)) as (res&s1&Hrun&s2&Hrun2&_&_&Hr).
  exists res, s1, s2. split; [exact Hrun|]. split; [exact Hrun2|]. destruct (op_refs _ _ _ Ho) as [Hu Hr1].
  rewrite (Hr _ Hu). exact Hr1.
Defined.
