(* ===== verification/Links.v ===== *)
(** * Singly linked lists in a heap of records

    The kernel links its records through pointer fields: tasks through
    [next], [wait_next] and [sleep_next], processes through [sibling].  The
    heap is a finite map from addresses to records, 0 is the null pointer,
    and [seg f m h l e] says that following the field [f] from [h] visits the
    records [l] in order and ends at [e]. *)

From S2P Require Import Prelude.

Section seg.
Context {T : Type}.
Implicit Types (f : T → Z) (m : gmap Z T) (l : list Z) (h e p q : Z).

Fixpoint seg f m h l e : Prop :=
  match l with
  | [] => h = e
  | p :: l => h = p ∧ p ≠ 0 ∧ ∃ t, m !! p = Some t ∧ seg f m (f t) l e
  end.

(** The last record of a list, or null: what a tail pointer holds. *)
Definition last_or_null l : Z := default 0 (last l).
#[global] Arguments last_or_null : simpl never.

Lemma seg_app f m h l1 l2 e :
  seg f m h (l1 ++ l2) e ↔ ∃ x, seg f m h l1 x ∧ seg f m x l2 e.
Proof.
  revert h. induction l1 as [|p l1 IH]; intros h; simpl.
  - split; [by eauto | by intros (x & -> & ?)].
  - split.
    + intros (-> & Hp & t & Ht & (x & H1 & H2)%IH). eauto 10.
    + intros (x & (-> & Hp & t & Ht & H1) & H2).
      repeat (split; [done|]). exists t. split; [done|]. apply IH. eauto.
Qed.

Lemma seg_snoc f m h l p e :
  seg f m h (l ++ [p]) e ↔
  seg f m h l p ∧ p ≠ 0 ∧ ∃ t, m !! p = Some t ∧ f t = e.
Proof.
  rewrite seg_app. simpl. split.
  - intros (x & H1 & -> & Hp & t & Ht & He). eauto 10.
  - intros (H1 & Hp & t & Ht & He). eauto 10.
Qed.

Lemma seg_in f m h l e p :
  seg f m h l e → p ∈ l → p ≠ 0 ∧ is_Some (m !! p).
Proof.
  revert h. induction l as [|q l IH]; simpl; intros h H Hin; [by set_solver|].
  destruct H as (-> & Hq & t & Ht & Hl).
  apply elem_of_cons in Hin as [->|Hin]; [by eauto|]. by eapply IH.
Qed.

Lemma seg_not_null f m h l e : seg f m h l e → 0 ∉ l.
Proof. intros Hs Hin. by destruct (seg_in _ _ _ _ _ _ Hs Hin). Qed.

(** Only the link fields of the records on the list matter. *)
Lemma seg_ext f m m' h l e :
  seg f m h l e →
  (∀ p, p ∈ l → f <$> m' !! p = f <$> m !! p) →
  seg f m' h l e.
Proof.
  revert h. induction l as [|p l IH]; simpl; intros h H Hext; [done|].
  destruct H as (-> & Hp & t & Ht & Hl).
  pose proof (Hext p (list_elem_of_here _ _)) as He. rewrite Ht in He.
  destruct (m' !! p) as [t'|] eqn:Ht'; [|done]. injection He as He.
  split; [done|]. split; [done|]. exists t'. split; [done|].
  rewrite He. apply IH; [done|]. intros q Hq. apply Hext. by right.
Qed.

Lemma seg_upd_out f m h l e p t :
  seg f m h l e → p ∉ l → seg f (<[p := t]> m) h l e.
Proof.
  intros Hs Hp. eapply seg_ext; [done|]. intros q Hq.
  by rewrite lookup_insert_ne by (intros ->; done).
Qed.

Lemma seg_upd_same f m h l e p t t' :
  seg f m h l e → m !! p = Some t → f t' = f t →
  seg f (<[p := t']> m) h l e.
Proof.
  intros Hs Ht Hf. eapply seg_ext; [done|]. intros q Hq.
  destruct (decide (q = p)) as [->|Hne].
  - by rewrite lookup_insert_eq, Ht; simpl; rewrite Hf.
  - by rewrite lookup_insert_ne by done.
Qed.

(** A list that ends in null is determined by its head, so it visits no
    record twice. *)
Lemma seg_det f m h l1 l2 : seg f m h l1 0 → seg f m h l2 0 → l1 = l2.
Proof.
  revert h l2. induction l1 as [|p l1 IH]; intros h [|q l2]; simpl; try done.
  - intros -> (<- & ? & _). done.
  - intros (-> & ? & _) ->. done.
  - intros (-> & Hp & t & Ht & H1) (<- & _ & t' & Ht' & H2).
    simplify_eq. f_equal. by eapply IH.
Qed.

Lemma seg_nodup f m h l : seg f m h l 0 → NoDup l.
Proof.
  intros Hs. apply NoDup_alt. intros i j p Hi Hj.
  assert (Hlen : ∀ k, l !! k = Some p →
      ∃ x, m !! p = Some x ∧ seg f m (f x) (drop (S k) l) 0).
  { intros k Hk. pose proof Hs as Hs'. rewrite <-(take_drop_middle l k p Hk) in Hs'.
    apply seg_app in Hs' as (x & _ & (-> & _ & t & Ht & Hd)). eauto. }
  destruct (Hlen i Hi) as (t & Ht & H1), (Hlen j Hj) as (t' & Ht' & H2).
  simplify_eq. pose proof (f_equal length (seg_det _ _ _ _ _ H1 H2)) as He.
  rewrite !length_drop in He. apply lookup_lt_Some in Hi, Hj. lia.
Qed.

(** A list without repetition is no longer than the heap: the fuel of every
    traversal. *)
Lemma seg_length f m h l e : seg f m h l e → NoDup l → (length l ≤ size m)%nat.
Proof.
  intros Hs Hnd. rewrite <-size_dom. rewrite <-(size_list_to_set (C := gset Z)) by done.
  apply subseteq_size. intros p Hp. apply elem_of_list_to_set in Hp.
  apply elem_of_dom. by eapply seg_in.
Qed.

Lemma seg_alter_out f m h l e p g :
  seg f m h l e → p ∉ l → seg f (alter g p m) h l e.
Proof.
  intros Hs Hp. eapply seg_ext; [done|]. intros q Hq.
  by rewrite lookup_alter_ne by (intros ->; done).
Qed.

Lemma seg_alter_same f m h l e p g :
  seg f m h l e → (∀ t, f (g t) = f t) → seg f (alter g p m) h l e.
Proof.
  intros Hs Hg. eapply seg_ext; [done|]. intros q Hq.
  destruct (decide (q = p)) as [->|Hne].
  - rewrite lookup_alter_eq. destruct (m !! p); simpl; [|done]. by rewrite Hg.
  - by rewrite lookup_alter_ne by done.
Qed.

Lemma last_or_null_snoc l p : last_or_null (l ++ [p]) = p.
Proof. unfold last_or_null. by rewrite last_snoc. Qed.

Lemma last_or_null_in l : last_or_null l ≠ 0 → last_or_null l ∈ l.
Proof.
  unfold last_or_null. destruct (last l) as [x|] eqn:Hl; [|done]. simpl.
  intros _. apply last_Some in Hl as [l' ->]. set_solver.
Qed.

Lemma last_or_null_nil l : 0 ∉ l → last_or_null l = 0 → l = [].
Proof.
  destruct l as [|x l] using rev_ind; [done|].
  rewrite last_or_null_snoc. set_solver.
Qed.

(** Changing the link of the last record. *)
Lemma seg_relink_last f m h l q e x g :
  seg f m h (l ++ [q]) e → q ∉ l → (∀ t, f (g t) = x) →
  seg f (alter g q m) h (l ++ [q]) x.
Proof.
  intros (H1 & Hq & t & Ht & _)%seg_snoc Hn Hf. apply seg_snoc. split.
  - by apply seg_alter_out.
  - split; [done|]. exists (g t). by rewrite lookup_alter_eq, Ht.
Qed.

(** Appending a record whose link is null, as the queues do it. *)
Lemma seg_append f m h l p g t :
  seg f m h l 0 → p ∉ l → p ≠ 0 → m !! p = Some t → f t = 0 → (∀ t, f (g t) = p) →
  let x := last_or_null l in
  seg f (if x =? 0 then m else alter g x m) (if x =? 0 then p else h) (l ++ [p]) 0.
Proof.
  intros Hs Hp Hp0 Ht Hf Hg. cbv zeta.
  pose proof (seg_nodup _ _ _ _ Hs) as Hnd.
  destruct l as [|x l _] using rev_ind.
  { simpl. eauto. }
  rewrite last_or_null_snoc. pose proof (seg_in _ _ _ _ _ x Hs) as [Hx0 [u Hu]]; [set_solver|].
  rewrite (proj2 (Z.eqb_neq _ _) Hx0).
  assert (p ≠ x) by set_solver. apply NoDup_app in Hnd as (_ & Hd & _).
  apply seg_snoc. split; [|split; [done|]].
  - eapply seg_relink_last; [done| |done]. intros Hin. apply (Hd x Hin). by left.
  - exists t. by rewrite lookup_alter_ne.
Qed.

(** Inserting a record before the records [l2] that start at [c]. *)
Lemma seg_insert f m h l1 l2 p c t gp gx :
  seg f m h (l1 ++ l2) 0 → seg f m c l2 0 → p ∉ l1 ++ l2 → p ≠ 0 → m !! p = Some t →
  (∀ t, f (gp t) = c) → (∀ t, f (gx t) = p) →
  let x := last_or_null l1 in
  seg f (if x =? 0 then alter gp p m else alter gx x (alter gp p m))
    (if x =? 0 then p else h) (l1 ++ p :: l2) 0.
Proof.
  intros Hs Hc Hp Hp0 Ht Hgp Hgx. cbv zeta. pose proof (seg_nodup _ _ _ _ Hs) as Hnd.
  apply NoDup_app in Hnd as (Hnd1 & Hd & Hnd2).
  assert (seg f (alter gp p m) p (p :: l2) 0) as Hpl.
  { split; [done|]. split; [done|]. exists (gp t). rewrite lookup_alter_eq, Ht.
    split; [done|]. rewrite Hgp. apply seg_alter_out; set_solver. }
  destruct l1 as [|x l1 _] using rev_ind; [done|].
  rewrite last_or_null_snoc. apply NoDup_app in Hnd1 as (_ & Hd1 & _).
  apply seg_app in Hs as (y & H1 & H2).
  pose proof (seg_in _ _ _ _ _ x H1) as [Hx0 _]; [set_solver|].
  rewrite (proj2 (Z.eqb_neq _ _) Hx0). apply seg_app. exists p. split.
  - eapply seg_relink_last; [|intros Hin; apply (Hd1 x Hin); by left|done].
    apply seg_alter_out; [done|]. set_solver.
  - apply seg_alter_out; [done|]. intros [->|Hin]%elem_of_cons; [set_solver|].
    apply (Hd x); set_solver.
Qed.

(** Unlinking a record: the link of its predecessor, or the head, skips it. *)
Lemma seg_unlink f m h l1 p l2 u g :
  seg f m h (l1 ++ p :: l2) 0 → m !! p = Some u → (∀ t, f (g t) = f u) →
  let x := last_or_null l1 in
  seg f (if x =? 0 then m else alter g x m) (if x =? 0 then f u else h) (l1 ++ l2) 0.
Proof.
  intros Hs Hu Hg. cbv zeta. pose proof (seg_nodup _ _ _ _ Hs) as Hnd.
  apply NoDup_app in Hnd as (Hnd1 & Hd & Hnd2).
  pose proof Hs as (y & H1 & -> & Hp0 & u' & Hu' & H2)%seg_app. simplify_eq.
  destruct l1 as [|x l1 _] using rev_ind.
  { by simpl. }
  rewrite last_or_null_snoc. apply NoDup_app in Hnd1 as (_ & Hd1 & _).
  pose proof (seg_in _ _ _ _ _ x H1) as [Hx0 _]; [set_solver|].
  rewrite (proj2 (Z.eqb_neq _ _) Hx0). apply seg_app. exists (f u). split.
  - eapply seg_relink_last; [done| |done]. intros Hin. apply (Hd1 x Hin). by left.
  - apply seg_alter_out; [done|]. intros Hin. apply (Hd x); set_solver.
Qed.
End seg.
