(* ===== verification/SchedState.v ===== *)
(** * State of the scheduler, the tasks and the wait queues

    [struct task], [struct process] and [struct wait_queue] of task.h and
    wait_queue.h, the file-scope variables of scheduler.c and the registers
    the context switch writes.  Only the fields those files use are kept. *)

From S2P Require Import Prelude Links.

Definition SCHED_PRIO_MIN : Z := -20.
Definition SCHED_PRIO_MAX : Z := 19.
Definition SCHED_BASE_SLICE : Z := 1.
Definition SCHED_BOOST_INTERVAL : Z := 500.
Definition SCHED_STARVE_THRESHOLD : Z := 200.
Definition TASK_FLAG_IDLE : Z := 1.
Definition MAX_CPUS : Z := 64.
Definition IPI_VECTOR_RESCHEDULE : Z := 64.

Inductive task_state :=
| TASK_READY
| TASK_RUNNING
| TASK_SLEEPING
| TASK_ZOMBIE.

#[global] Instance task_state_eq_dec : EqDecision task_state.
Proof. solve_decision. Defined.

Inductive task_mode := TASK_MODE_KERNEL | TASK_MODE_USER.

(** Real, effective and saved user and group. *)
Record creds := Creds {
  ruid : Z; euid : Z; suid : Z;
  rgid : Z; egid : Z; sgid : Z;
}.

(** [struct sigaction_linux]; handler 0 is SIG_DFL, 1 is SIG_IGN. *)
Record sigaction := SigAction {
  sa_handler : Z;
  sa_flags : Z;
  sa_restorer : Z;
  sa_mask : Z;
}.

(** The part of [struct vma] that holds a file. *)
Record proc_vma := ProcVma {
  v_valid : bool;
  v_anonymous : bool;
  v_file : Z;
}.

(** [struct task]; a pointer is its address, 0 is null. *)
Record task := Task {
  t_pid : Z;
  t_tid : Z;
  t_name : string;
  t_state : task_state;
  t_mode : task_mode;
  t_saved_rsp : Z;
  t_cr3 : Z;
  t_user_rip : Z;
  t_user_rsp : Z;
  t_kstack_base : Z;
  t_kstack_top : Z;
  t_entry : Z;
  t_entry_arg : Z;
  t_process : Z;
  t_parent : Z;
  t_next : Z;
  t_wait_next : Z;
  t_wait_queue : Z;
  t_created_ticks : Z;
  t_exit_code : Z;
  t_cancel_requested : bool;
  t_priority : Z;
  t_static_priority : Z;
  t_time_slice : Z;
  t_time_slice_max : Z;
  t_total_ticks : Z;
  t_last_run_tick : Z;
  t_sleep_until : Z;
  t_sleep_timed_out : bool;
  t_flags : Z;
  t_signal_pending : Z;
  t_signal_blocked : Z;
  t_fs_base : Z;
  t_clear_child_tid : Z;
  t_futex_uaddr : Z;
  t_sleep_next : Z;
}.

Definition set_t_pid (v : Z) (x : task) : task :=
  Task v (t_tid x) (t_name x) (t_state x) (t_mode x) (t_saved_rsp x) (t_cr3 x)
    (t_user_rip x) (t_user_rsp x) (t_kstack_base x) (t_kstack_top x)
    (t_entry x) (t_entry_arg x) (t_process x) (t_parent x) (t_next x)
    (t_wait_next x) (t_wait_queue x) (t_created_ticks x) (t_exit_code x)
    (t_cancel_requested x) (t_priority x) (t_static_priority x)
    (t_time_slice x) (t_time_slice_max x) (t_total_ticks x)
    (t_last_run_tick x) (t_sleep_until x) (t_sleep_timed_out x) (t_flags x)
    (t_signal_pending x) (t_signal_blocked x) (t_fs_base x)
    (t_clear_child_tid x) (t_futex_uaddr x) (t_sleep_next x).
Definition set_t_tid (v : Z) (x : task) : task :=
  Task (t_pid x) v (t_name x) (t_state x) (t_mode x) (t_saved_rsp x) (t_cr3 x)
    (t_user_rip x) (t_user_rsp x) (t_kstack_base x) (t_kstack_top x)
    (t_entry x) (t_entry_arg x) (t_process x) (t_parent x) (t_next x)
    (t_wait_next x) (t_wait_queue x) (t_created_ticks x) (t_exit_code x)
    (t_cancel_requested x) (t_priority x) (t_static_priority x)
    (t_time_slice x) (t_time_slice_max x) (t_total_ticks x)
    (t_last_run_tick x) (t_sleep_until x) (t_sleep_timed_out x) (t_flags x)
    (t_signal_pending x) (t_signal_blocked x) (t_fs_base x)
    (t_clear_child_tid x) (t_futex_uaddr x) (t_sleep_next x).
Definition set_t_name (v : string) (x : task) : task :=
  Task (t_pid x) (t_tid x) v (t_state x) (t_mode x) (t_saved_rsp x) (t_cr3 x)
    (t_user_rip x) (t_user_rsp x) (t_kstack_base x) (t_kstack_top x)
    (t_entry x) (t_entry_arg x) (t_process x) (t_parent x) (t_next x)
    (t_wait_next x) (t_wait_queue x) (t_created_ticks x) (t_exit_code x)
    (t_cancel_requested x) (t_priority x) (t_static_priority x)
    (t_time_slice x) (t_time_slice_max x) (t_total_ticks x)
    (t_last_run_tick x) (t_sleep_until x) (t_sleep_timed_out x) (t_flags x)
    (t_signal_pending x) (t_signal_blocked x) (t_fs_base x)
    (t_clear_child_tid x) (t_futex_uaddr x) (t_sleep_next x).
Definition set_t_state (v : task_state) (x : task) : task :=
  Task (t_pid x) (t_tid x) (t_name x) v (t_mode x) (t_saved_rsp x) (t_cr3 x)
    (t_user_rip x) (t_user_rsp x) (t_kstack_base x) (t_kstack_top x)
    (t_entry x) (t_entry_arg x) (t_process x) (t_parent x) (t_next x)
    (t_wait_next x) (t_wait_queue x) (t_created_ticks x) (t_exit_code x)
    (t_cancel_requested x) (t_priority x) (t_static_priority x)
    (t_time_slice x) (t_time_slice_max x) (t_total_ticks x)
    (t_last_run_tick x) (t_sleep_until x) (t_sleep_timed_out x) (t_flags x)
    (t_signal_pending x) (t_signal_blocked x) (t_fs_base x)
    (t_clear_child_tid x) (t_futex_uaddr x) (t_sleep_next x).
Definition set_t_mode (v : task_mode) (x : task) : task :=
  Task (t_pid x) (t_tid x) (t_name x) (t_state x) v (t_saved_rsp x) (t_cr3 x)
    (t_user_rip x) (t_user_rsp x) (t_kstack_base x) (t_kstack_top x)
    (t_entry x) (t_entry_arg x) (t_process x) (t_parent x) (t_next x)
    (t_wait_next x) (t_wait_queue x) (t_created_ticks x) (t_exit_code x)
    (t_cancel_requested x) (t_priority x) (t_static_priority x)
    (t_time_slice x) (t_time_slice_max x) (t_total_ticks x)
    (t_last_run_tick x) (t_sleep_until x) (t_sleep_timed_out x) (t_flags x)
    (t_signal_pending x) (t_signal_blocked x) (t_fs_base x)
    (t_clear_child_tid x) (t_futex_uaddr x) (t_sleep_next x).
Definition set_t_saved_rsp (v : Z) (x : task) : task :=
  Task (t_pid x) (t_tid x) (t_name x) (t_state x) (t_mode x) v (t_cr3 x)
    (t_user_rip x) (t_user_rsp x) (t_kstack_base x) (t_kstack_top x)
    (t_entry x) (t_entry_arg x) (t_process x) (t_parent x) (t_next x)
    (t_wait_next x) (t_wait_queue x) (t_created_ticks x) (t_exit_code x)
    (t_cancel_requested x) (t_priority x) (t_static_priority x)
    (t_time_slice x) (t_time_slice_max x) (t_total_ticks x)
    (t_last_run_tick x) (t_sleep_until x) (t_sleep_timed_out x) (t_flags x)
    (t_signal_pending x) (t_signal_blocked x) (t_fs_base x)
    (t_clear_child_tid x) (t_futex_uaddr x) (t_sleep_next x).
Definition set_t_cr3 (v : Z) (x : task) : task :=
  Task (t_pid x) (t_tid x) (t_name x) (t_state x) (t_mode x) (t_saved_rsp x) v
    (t_user_rip x) (t_user_rsp x) (t_kstack_base x) (t_kstack_top x)
    (t_entry x) (t_entry_arg x) (t_process x) (t_parent x) (t_next x)
    (t_wait_next x) (t_wait_queue x) (t_created_ticks x) (t_exit_code x)
    (t_cancel_requested x) (t_priority x) (t_static_priority x)
    (t_time_slice x) (t_time_slice_max x) (t_total_ticks x)
    (t_last_run_tick x) (t_sleep_until x) (t_sleep_timed_out x) (t_flags x)
    (t_signal_pending x) (t_signal_blocked x) (t_fs_base x)
    (t_clear_child_tid x) (t_futex_uaddr x) (t_sleep_next x).
Definition set_t_user_rip (v : Z) (x : task) : task :=
  Task (t_pid x) (t_tid x) (t_name x) (t_state x) (t_mode x) (t_saved_rsp x)
    (t_cr3 x) v (t_user_rsp x) (t_kstack_base x) (t_kstack_top x) (t_entry x)
    (t_entry_arg x) (t_process x) (t_parent x) (t_next x) (t_wait_next x)
    (t_wait_queue x) (t_created_ticks x) (t_exit_code x)
    (t_cancel_requested x) (t_priority x) (t_static_priority x)
    (t_time_slice x) (t_time_slice_max x) (t_total_ticks x)
    (t_last_run_tick x) (t_sleep_until x) (t_sleep_timed_out x) (t_flags x)
    (t_signal_pending x) (t_signal_blocked x) (t_fs_base x)
    (t_clear_child_tid x) (t_futex_uaddr x) (t_sleep_next x).
Definition set_t_user_rsp (v : Z) (x : task) : task :=
  Task (t_pid x) (t_tid x) (t_name x) (t_state x) (t_mode x) (t_saved_rsp x)
    (t_cr3 x) (t_user_rip x) v (t_kstack_base x) (t_kstack_top x) (t_entry x)
    (t_entry_arg x) (t_process x) (t_parent x) (t_next x) (t_wait_next x)
    (t_wait_queue x) (t_created_ticks x) (t_exit_code x)
    (t_cancel_requested x) (t_priority x) (t_static_priority x)
    (t_time_slice x) (t_time_slice_max x) (t_total_ticks x)
    (t_last_run_tick x) (t_sleep_until x) (t_sleep_timed_out x) (t_flags x)
    (t_signal_pending x) (t_signal_blocked x) (t_fs_base x)
    (t_clear_child_tid x) (t_futex_uaddr x) (t_sleep_next x).
Definition set_t_kstack_base (v : Z) (x : task) : task :=
  Task (t_pid x) (t_tid x) (t_name x) (t_state x) (t_mode x) (t_saved_rsp x)
    (t_cr3 x) (t_user_rip x) (t_user_rsp x) v (t_kstack_top x) (t_entry x)
    (t_entry_arg x) (t_process x) (t_parent x) (t_next x) (t_wait_next x)
    (t_wait_queue x) (t_created_ticks x) (t_exit_code x)
    (t_cancel_requested x) (t_priority x) (t_static_priority x)
    (t_time_slice x) (t_time_slice_max x) (t_total_ticks x)
    (t_last_run_tick x) (t_sleep_until x) (t_sleep_timed_out x) (t_flags x)
    (t_signal_pending x) (t_signal_blocked x) (t_fs_base x)
    (t_clear_child_tid x) (t_futex_uaddr x) (t_sleep_next x).
Definition set_t_kstack_top (v : Z) (x : task) : task :=
  Task (t_pid x) (t_tid x) (t_name x) (t_state x) (t_mode x) (t_saved_rsp x)
    (t_cr3 x) (t_user_rip x) (t_user_rsp x) (t_kstack_base x) v (t_entry x)
    (t_entry_arg x) (t_process x) (t_parent x) (t_next x) (t_wait_next x)
    (t_wait_queue x) (t_created_ticks x) (t_exit_code x)
    (t_cancel_requested x) (t_priority x) (t_static_priority x)
    (t_time_slice x) (t_time_slice_max x) (t_total_ticks x)
    (t_last_run_tick x) (t_sleep_until x) (t_sleep_timed_out x) (t_flags x)
    (t_signal_pending x) (t_signal_blocked x) (t_fs_base x)
    (t_clear_child_tid x) (t_futex_uaddr x) (t_sleep_next x).
Definition set_t_entry (v : Z) (x : task) : task :=
  Task (t_pid x) (t_tid x) (t_name x) (t_state x) (t_mode x) (t_saved_rsp x)
    (t_cr3 x) (t_user_rip x) (t_user_rsp x) (t_kstack_base x) (t_kstack_top x)
    v (t_entry_arg x) (t_process x) (t_parent x) (t_next x) (t_wait_next x)
    (t_wait_queue x) (t_created_ticks x) (t_exit_code x)
    (t_cancel_requested x) (t_priority x) (t_static_priority x)
    (t_time_slice x) (t_time_slice_max x) (t_total_ticks x)
    (t_last_run_tick x) (t_sleep_until x) (t_sleep_timed_out x) (t_flags x)
    (t_signal_pending x) (t_signal_blocked x) (t_fs_base x)
    (t_clear_child_tid x) (t_futex_uaddr x) (t_sleep_next x).
Definition set_t_entry_arg (v : Z) (x : task) : task :=
  Task (t_pid x) (t_tid x) (t_name x) (t_state x) (t_mode x) (t_saved_rsp x)
    (t_cr3 x) (t_user_rip x) (t_user_rsp x) (t_kstack_base x) (t_kstack_top x)
    (t_entry x) v (t_process x) (t_parent x) (t_next x) (t_wait_next x)
    (t_wait_queue x) (t_created_ticks x) (t_exit_code x)
    (t_cancel_requested x) (t_priority x) (t_static_priority x)
    (t_time_slice x) (t_time_slice_max x) (t_total_ticks x)
    (t_last_run_tick x) (t_sleep_until x) (t_sleep_timed_out x) (t_flags x)
    (t_signal_pending x) (t_signal_blocked x) (t_fs_base x)
    (t_clear_child_tid x) (t_futex_uaddr x) (t_sleep_next x).
Definition set_t_process (v : Z) (x : task) : task :=
  Task (t_pid x) (t_tid x) (t_name x) (t_state x) (t_mode x) (t_saved_rsp x)
    (t_cr3 x) (t_user_rip x) (t_user_rsp x) (t_kstack_base x) (t_kstack_top x)
    (t_entry x) (t_entry_arg x) v (t_parent x) (t_next x) (t_wait_next x)
    (t_wait_queue x) (t_created_ticks x) (t_exit_code x)
    (t_cancel_requested x) (t_priority x) (t_static_priority x)
    (t_time_slice x) (t_time_slice_max x) (t_total_ticks x)
    (t_last_run_tick x) (t_sleep_until x) (t_sleep_timed_out x) (t_flags x)
    (t_signal_pending x) (t_signal_blocked x) (t_fs_base x)
    (t_clear_child_tid x) (t_futex_uaddr x) (t_sleep_next x).
Definition set_t_parent (v : Z) (x : task) : task :=
  Task (t_pid x) (t_tid x) (t_name x) (t_state x) (t_mode x) (t_saved_rsp x)
    (t_cr3 x) (t_user_rip x) (t_user_rsp x) (t_kstack_base x) (t_kstack_top x)
    (t_entry x) (t_entry_arg x) (t_process x) v (t_next x) (t_wait_next x)
    (t_wait_queue x) (t_created_ticks x) (t_exit_code x)
    (t_cancel_requested x) (t_priority x) (t_static_priority x)
    (t_time_slice x) (t_time_slice_max x) (t_total_ticks x)
    (t_last_run_tick x) (t_sleep_until x) (t_sleep_timed_out x) (t_flags x)
    (t_signal_pending x) (t_signal_blocked x) (t_fs_base x)
    (t_clear_child_tid x) (t_futex_uaddr x) (t_sleep_next x).
Definition set_t_next (v : Z) (x : task) : task :=
  Task (t_pid x) (t_tid x) (t_name x) (t_state x) (t_mode x) (t_saved_rsp x)
    (t_cr3 x) (t_user_rip x) (t_user_rsp x) (t_kstack_base x) (t_kstack_top x)
    (t_entry x) (t_entry_arg x) (t_process x) (t_parent x) v (t_wait_next x)
    (t_wait_queue x) (t_created_ticks x) (t_exit_code x)
    (t_cancel_requested x) (t_priority x) (t_static_priority x)
    (t_time_slice x) (t_time_slice_max x) (t_total_ticks x)
    (t_last_run_tick x) (t_sleep_until x) (t_sleep_timed_out x) (t_flags x)
    (t_signal_pending x) (t_signal_blocked x) (t_fs_base x)
    (t_clear_child_tid x) (t_futex_uaddr x) (t_sleep_next x).
Definition set_t_wait_next (v : Z) (x : task) : task :=
  Task (t_pid x) (t_tid x) (t_name x) (t_state x) (t_mode x) (t_saved_rsp x)
    (t_cr3 x) (t_user_rip x) (t_user_rsp x) (t_kstack_base x) (t_kstack_top x)
    (t_entry x) (t_entry_arg x) (t_process x) (t_parent x) (t_next x) v
    (t_wait_queue x) (t_created_ticks x) (t_exit_code x)
    (t_cancel_requested x) (t_priority x) (t_static_priority x)
    (t_time_slice x) (t_time_slice_max x) (t_total_ticks x)
    (t_last_run_tick x) (t_sleep_until x) (t_sleep_timed_out x) (t_flags x)
    (t_signal_pending x) (t_signal_blocked x) (t_fs_base x)
    (t_clear_child_tid x) (t_futex_uaddr x) (t_sleep_next x).
Definition set_t_wait_queue (v : Z) (x : task) : task :=
  Task (t_pid x) (t_tid x) (t_name x) (t_state x) (t_mode x) (t_saved_rsp x)
    (t_cr3 x) (t_user_rip x) (t_user_rsp x) (t_kstack_base x) (t_kstack_top x)
    (t_entry x) (t_entry_arg x) (t_process x) (t_parent x) (t_next x)
    (t_wait_next x) v (t_created_ticks x) (t_exit_code x)
    (t_cancel_requested x) (t_priority x) (t_static_priority x)
    (t_time_slice x) (t_time_slice_max x) (t_total_ticks x)
    (t_last_run_tick x) (t_sleep_until x) (t_sleep_timed_out x) (t_flags x)
    (t_signal_pending x) (t_signal_blocked x) (t_fs_base x)
    (t_clear_child_tid x) (t_futex_uaddr x) (t_sleep_next x).
Definition set_t_created_ticks (v : Z) (x : task) : task :=
  Task (t_pid x) (t_tid x) (t_name x) (t_state x) (t_mode x) (t_saved_rsp x)
    (t_cr3 x) (t_user_rip x) (t_user_rsp x) (t_kstack_base x) (t_kstack_top x)
    (t_entry x) (t_entry_arg x) (t_process x) (t_parent x) (t_next x)
    (t_wait_next x) (t_wait_queue x) v (t_exit_code x) (t_cancel_requested x)
    (t_priority x) (t_static_priority x) (t_time_slice x) (t_time_slice_max x)
    (t_total_ticks x) (t_last_run_tick x) (t_sleep_until x)
    (t_sleep_timed_out x) (t_flags x) (t_signal_pending x)
    (t_signal_blocked x) (t_fs_base x) (t_clear_child_tid x) (t_futex_uaddr x)
    (t_sleep_next x).
Definition set_t_exit_code (v : Z) (x : task) : task :=
  Task (t_pid x) (t_tid x) (t_name x) (t_state x) (t_mode x) (t_saved_rsp x)
    (t_cr3 x) (t_user_rip x) (t_user_rsp x) (t_kstack_base x) (t_kstack_top x)
    (t_entry x) (t_entry_arg x) (t_process x) (t_parent x) (t_next x)
    (t_wait_next x) (t_wait_queue x) (t_created_ticks x) v
    (t_cancel_requested x) (t_priority x) (t_static_priority x)
    (t_time_slice x) (t_time_slice_max x) (t_total_ticks x)
    (t_last_run_tick x) (t_sleep_until x) (t_sleep_timed_out x) (t_flags x)
    (t_signal_pending x) (t_signal_blocked x) (t_fs_base x)
    (t_clear_child_tid x) (t_futex_uaddr x) (t_sleep_next x).
Definition set_t_cancel_requested (v : bool) (x : task) : task :=
  Task (t_pid x) (t_tid x) (t_name x) (t_state x) (t_mode x) (t_saved_rsp x)
    (t_cr3 x) (t_user_rip x) (t_user_rsp x) (t_kstack_base x) (t_kstack_top x)
    (t_entry x) (t_entry_arg x) (t_process x) (t_parent x) (t_next x)
    (t_wait_next x) (t_wait_queue x) (t_created_ticks x) (t_exit_code x) v
    (t_priority x) (t_static_priority x) (t_time_slice x) (t_time_slice_max x)
    (t_total_ticks x) (t_last_run_tick x) (t_sleep_until x)
    (t_sleep_timed_out x) (t_flags x) (t_signal_pending x)
    (t_signal_blocked x) (t_fs_base x) (t_clear_child_tid x) (t_futex_uaddr x)
    (t_sleep_next x).
Definition set_t_priority (v : Z) (x : task) : task :=
  Task (t_pid x) (t_tid x) (t_name x) (t_state x) (t_mode x) (t_saved_rsp x)
    (t_cr3 x) (t_user_rip x) (t_user_rsp x) (t_kstack_base x) (t_kstack_top x)
    (t_entry x) (t_entry_arg x) (t_process x) (t_parent x) (t_next x)
    (t_wait_next x) (t_wait_queue x) (t_created_ticks x) (t_exit_code x)
    (t_cancel_requested x) v (t_static_priority x) (t_time_slice x)
    (t_time_slice_max x) (t_total_ticks x) (t_last_run_tick x)
    (t_sleep_until x) (t_sleep_timed_out x) (t_flags x) (t_signal_pending x)
    (t_signal_blocked x) (t_fs_base x) (t_clear_child_tid x) (t_futex_uaddr x)
    (t_sleep_next x).
Definition set_t_static_priority (v : Z) (x : task) : task :=
  Task (t_pid x) (t_tid x) (t_name x) (t_state x) (t_mode x) (t_saved_rsp x)
    (t_cr3 x) (t_user_rip x) (t_user_rsp x) (t_kstack_base x) (t_kstack_top x)
    (t_entry x) (t_entry_arg x) (t_process x) (t_parent x) (t_next x)
    (t_wait_next x) (t_wait_queue x) (t_created_ticks x) (t_exit_code x)
    (t_cancel_requested x) (t_priority x) v (t_time_slice x)
    (t_time_slice_max x) (t_total_ticks x) (t_last_run_tick x)
    (t_sleep_until x) (t_sleep_timed_out x) (t_flags x) (t_signal_pending x)
    (t_signal_blocked x) (t_fs_base x) (t_clear_child_tid x) (t_futex_uaddr x)
    (t_sleep_next x).
Definition set_t_time_slice (v : Z) (x : task) : task :=
  Task (t_pid x) (t_tid x) (t_name x) (t_state x) (t_mode x) (t_saved_rsp x)
    (t_cr3 x) (t_user_rip x) (t_user_rsp x) (t_kstack_base x) (t_kstack_top x)
    (t_entry x) (t_entry_arg x) (t_process x) (t_parent x) (t_next x)
    (t_wait_next x) (t_wait_queue x) (t_created_ticks x) (t_exit_code x)
    (t_cancel_requested x) (t_priority x) (t_static_priority x) v
    (t_time_slice_max x) (t_total_ticks x) (t_last_run_tick x)
    (t_sleep_until x) (t_sleep_timed_out x) (t_flags x) (t_signal_pending x)
    (t_signal_blocked x) (t_fs_base x) (t_clear_child_tid x) (t_futex_uaddr x)
    (t_sleep_next x).
Definition set_t_time_slice_max (v : Z) (x : task) : task :=
  Task (t_pid x) (t_tid x) (t_name x) (t_state x) (t_mode x) (t_saved_rsp x)
    (t_cr3 x) (t_user_rip x) (t_user_rsp x) (t_kstack_base x) (t_kstack_top x)
    (t_entry x) (t_entry_arg x) (t_process x) (t_parent x) (t_next x)
    (t_wait_next x) (t_wait_queue x) (t_created_ticks x) (t_exit_code x)
    (t_cancel_requested x) (t_priority x) (t_static_priority x)
    (t_time_slice x) v (t_total_ticks x) (t_last_run_tick x) (t_sleep_until x)
    (t_sleep_timed_out x) (t_flags x) (t_signal_pending x)
    (t_signal_blocked x) (t_fs_base x) (t_clear_child_tid x) (t_futex_uaddr x)
    (t_sleep_next x).
Definition set_t_total_ticks (v : Z) (x : task) : task :=
  Task (t_pid x) (t_tid x) (t_name x) (t_state x) (t_mode x) (t_saved_rsp x)
    (t_cr3 x) (t_user_rip x) (t_user_rsp x) (t_kstack_base x) (t_kstack_top x)
    (t_entry x) (t_entry_arg x) (t_process x) (t_parent x) (t_next x)
    (t_wait_next x) (t_wait_queue x) (t_created_ticks x) (t_exit_code x)
    (t_cancel_requested x) (t_priority x) (t_static_priority x)
    (t_time_slice x) (t_time_slice_max x) v (t_last_run_tick x)
    (t_sleep_until x) (t_sleep_timed_out x) (t_flags x) (t_signal_pending x)
    (t_signal_blocked x) (t_fs_base x) (t_clear_child_tid x) (t_futex_uaddr x)
    (t_sleep_next x).
Definition set_t_last_run_tick (v : Z) (x : task) : task :=
  Task (t_pid x) (t_tid x) (t_name x) (t_state x) (t_mode x) (t_saved_rsp x)
    (t_cr3 x) (t_user_rip x) (t_user_rsp x) (t_kstack_base x) (t_kstack_top x)
    (t_entry x) (t_entry_arg x) (t_process x) (t_parent x) (t_next x)
    (t_wait_next x) (t_wait_queue x) (t_created_ticks x) (t_exit_code x)
    (t_cancel_requested x) (t_priority x) (t_static_priority x)
    (t_time_slice x) (t_time_slice_max x) (t_total_ticks x) v
    (t_sleep_until x) (t_sleep_timed_out x) (t_flags x) (t_signal_pending x)
    (t_signal_blocked x) (t_fs_base x) (t_clear_child_tid x) (t_futex_uaddr x)
    (t_sleep_next x).
Definition set_t_sleep_until (v : Z) (x : task) : task :=
  Task (t_pid x) (t_tid x) (t_name x) (t_state x) (t_mode x) (t_saved_rsp x)
    (t_cr3 x) (t_user_rip x) (t_user_rsp x) (t_kstack_base x) (t_kstack_top x)
    (t_entry x) (t_entry_arg x) (t_process x) (t_parent x) (t_next x)
    (t_wait_next x) (t_wait_queue x) (t_created_ticks x) (t_exit_code x)
    (t_cancel_requested x) (t_priority x) (t_static_priority x)
    (t_time_slice x) (t_time_slice_max x) (t_total_ticks x)
    (t_last_run_tick x) v (t_sleep_timed_out x) (t_flags x)
    (t_signal_pending x) (t_signal_blocked x) (t_fs_base x)
    (t_clear_child_tid x) (t_futex_uaddr x) (t_sleep_next x).
Definition set_t_sleep_timed_out (v : bool) (x : task) : task :=
  Task (t_pid x) (t_tid x) (t_name x) (t_state x) (t_mode x) (t_saved_rsp x)
    (t_cr3 x) (t_user_rip x) (t_user_rsp x) (t_kstack_base x) (t_kstack_top x)
    (t_entry x) (t_entry_arg x) (t_process x) (t_parent x) (t_next x)
    (t_wait_next x) (t_wait_queue x) (t_created_ticks x) (t_exit_code x)
    (t_cancel_requested x) (t_priority x) (t_static_priority x)
    (t_time_slice x) (t_time_slice_max x) (t_total_ticks x)
    (t_last_run_tick x) (t_sleep_until x) v (t_flags x) (t_signal_pending x)
    (t_signal_blocked x) (t_fs_base x) (t_clear_child_tid x) (t_futex_uaddr x)
    (t_sleep_next x).
Definition set_t_flags (v : Z) (x : task) : task :=
  Task (t_pid x) (t_tid x) (t_name x) (t_state x) (t_mode x) (t_saved_rsp x)
    (t_cr3 x) (t_user_rip x) (t_user_rsp x) (t_kstack_base x) (t_kstack_top x)
    (t_entry x) (t_entry_arg x) (t_process x) (t_parent x) (t_next x)
    (t_wait_next x) (t_wait_queue x) (t_created_ticks x) (t_exit_code x)
    (t_cancel_requested x) (t_priority x) (t_static_priority x)
    (t_time_slice x) (t_time_slice_max x) (t_total_ticks x)
    (t_last_run_tick x) (t_sleep_until x) (t_sleep_timed_out x) v
    (t_signal_pending x) (t_signal_blocked x) (t_fs_base x)
    (t_clear_child_tid x) (t_futex_uaddr x) (t_sleep_next x).
Definition set_t_signal_pending (v : Z) (x : task) : task :=
  Task (t_pid x) (t_tid x) (t_name x) (t_state x) (t_mode x) (t_saved_rsp x)
    (t_cr3 x) (t_user_rip x) (t_user_rsp x) (t_kstack_base x) (t_kstack_top x)
    (t_entry x) (t_entry_arg x) (t_process x) (t_parent x) (t_next x)
    (t_wait_next x) (t_wait_queue x) (t_created_ticks x) (t_exit_code x)
    (t_cancel_requested x) (t_priority x) (t_static_priority x)
    (t_time_slice x) (t_time_slice_max x) (t_total_ticks x)
    (t_last_run_tick x) (t_sleep_until x) (t_sleep_timed_out x) (t_flags x) v
    (t_signal_blocked x) (t_fs_base x) (t_clear_child_tid x) (t_futex_uaddr x)
    (t_sleep_next x).
Definition set_t_signal_blocked (v : Z) (x : task) : task :=
  Task (t_pid x) (t_tid x) (t_name x) (t_state x) (t_mode x) (t_saved_rsp x)
    (t_cr3 x) (t_user_rip x) (t_user_rsp x) (t_kstack_base x) (t_kstack_top x)
    (t_entry x) (t_entry_arg x) (t_process x) (t_parent x) (t_next x)
    (t_wait_next x) (t_wait_queue x) (t_created_ticks x) (t_exit_code x)
    (t_cancel_requested x) (t_priority x) (t_static_priority x)
    (t_time_slice x) (t_time_slice_max x) (t_total_ticks x)
    (t_last_run_tick x) (t_sleep_until x) (t_sleep_timed_out x) (t_flags x)
    (t_signal_pending x) v (t_fs_base x) (t_clear_child_tid x)
    (t_futex_uaddr x) (t_sleep_next x).
Definition set_t_fs_base (v : Z) (x : task) : task :=
  Task (t_pid x) (t_tid x) (t_name x) (t_state x) (t_mode x) (t_saved_rsp x)
    (t_cr3 x) (t_user_rip x) (t_user_rsp x) (t_kstack_base x) (t_kstack_top x)
    (t_entry x) (t_entry_arg x) (t_process x) (t_parent x) (t_next x)
    (t_wait_next x) (t_wait_queue x) (t_created_ticks x) (t_exit_code x)
    (t_cancel_requested x) (t_priority x) (t_static_priority x)
    (t_time_slice x) (t_time_slice_max x) (t_total_ticks x)
    (t_last_run_tick x) (t_sleep_until x) (t_sleep_timed_out x) (t_flags x)
    (t_signal_pending x) (t_signal_blocked x) v (t_clear_child_tid x)
    (t_futex_uaddr x) (t_sleep_next x).
Definition set_t_clear_child_tid (v : Z) (x : task) : task :=
  Task (t_pid x) (t_tid x) (t_name x) (t_state x) (t_mode x) (t_saved_rsp x)
    (t_cr3 x) (t_user_rip x) (t_user_rsp x) (t_kstack_base x) (t_kstack_top x)
    (t_entry x) (t_entry_arg x) (t_process x) (t_parent x) (t_next x)
    (t_wait_next x) (t_wait_queue x) (t_created_ticks x) (t_exit_code x)
    (t_cancel_requested x) (t_priority x) (t_static_priority x)
    (t_time_slice x) (t_time_slice_max x) (t_total_ticks x)
    (t_last_run_tick x) (t_sleep_until x) (t_sleep_timed_out x) (t_flags x)
    (t_signal_pending x) (t_signal_blocked x) (t_fs_base x) v
    (t_futex_uaddr x) (t_sleep_next x).
Definition set_t_futex_uaddr (v : Z) (x : task) : task :=
  Task (t_pid x) (t_tid x) (t_name x) (t_state x) (t_mode x) (t_saved_rsp x)
    (t_cr3 x) (t_user_rip x) (t_user_rsp x) (t_kstack_base x) (t_kstack_top x)
    (t_entry x) (t_entry_arg x) (t_process x) (t_parent x) (t_next x)
    (t_wait_next x) (t_wait_queue x) (t_created_ticks x) (t_exit_code x)
    (t_cancel_requested x) (t_priority x) (t_static_priority x)
    (t_time_slice x) (t_time_slice_max x) (t_total_ticks x)
    (t_last_run_tick x) (t_sleep_until x) (t_sleep_timed_out x) (t_flags x)
    (t_signal_pending x) (t_signal_blocked x) (t_fs_base x)
    (t_clear_child_tid x) v (t_sleep_next x).
Definition set_t_sleep_next (v : Z) (x : task) : task :=
  Task (t_pid x) (t_tid x) (t_name x) (t_state x) (t_mode x) (t_saved_rsp x)
    (t_cr3 x) (t_user_rip x) (t_user_rsp x) (t_kstack_base x) (t_kstack_top x)
    (t_entry x) (t_entry_arg x) (t_process x) (t_parent x) (t_next x)
    (t_wait_next x) (t_wait_queue x) (t_created_ticks x) (t_exit_code x)
    (t_cancel_requested x) (t_priority x) (t_static_priority x)
    (t_time_slice x) (t_time_slice_max x) (t_total_ticks x)
    (t_last_run_tick x) (t_sleep_until x) (t_sleep_timed_out x) (t_flags x)
    (t_signal_pending x) (t_signal_blocked x) (t_fs_base x)
    (t_clear_child_tid x) (t_futex_uaddr x) v.
(** [struct process]: the address space is given by its PML4. *)
Record process := Process {
  p_pid : Z;
  p_parent : Z;
  p_children : Z;
  p_sibling : Z;
  p_main_thread : Z;
  p_address_space : option Z;
  p_owns_address_space : bool;
  p_exited : bool;
  p_exit_code : Z;
  p_files : list Z;
  p_cwd : string;
  p_umask : Z;
  p_pgid : Z;
  p_sid : Z;
  p_creds : creds;
  p_dumpable : bool;
  p_heap_start : Z;
  p_heap_end : Z;
  p_vmas : list proc_vma;
  p_sigactions : list sigaction;
}.

Definition set_p_pid (v : Z) (x : process) : process :=
  Process v (p_parent x) (p_children x) (p_sibling x) (p_main_thread x)
    (p_address_space x) (p_owns_address_space x) (p_exited x) (p_exit_code x)
    (p_files x) (p_cwd x) (p_umask x) (p_pgid x) (p_sid x) (p_creds x)
    (p_dumpable x) (p_heap_start x) (p_heap_end x) (p_vmas x) (p_sigactions x).
Definition set_p_parent (v : Z) (x : process) : process :=
  Process (p_pid x) v (p_children x) (p_sibling x) (p_main_thread x)
    (p_address_space x) (p_owns_address_space x) (p_exited x) (p_exit_code x)
    (p_files x) (p_cwd x) (p_umask x) (p_pgid x) (p_sid x) (p_creds x)
    (p_dumpable x) (p_heap_start x) (p_heap_end x) (p_vmas x) (p_sigactions x).
Definition set_p_children (v : Z) (x : process) : process :=
  Process (p_pid x) (p_parent x) v (p_sibling x) (p_main_thread x)
    (p_address_space x) (p_owns_address_space x) (p_exited x) (p_exit_code x)
    (p_files x) (p_cwd x) (p_umask x) (p_pgid x) (p_sid x) (p_creds x)
    (p_dumpable x) (p_heap_start x) (p_heap_end x) (p_vmas x) (p_sigactions x).
Definition set_p_sibling (v : Z) (x : process) : process :=
  Process (p_pid x) (p_parent x) (p_children x) v (p_main_thread x)
    (p_address_space x) (p_owns_address_space x) (p_exited x) (p_exit_code x)
    (p_files x) (p_cwd x) (p_umask x) (p_pgid x) (p_sid x) (p_creds x)
    (p_dumpable x) (p_heap_start x) (p_heap_end x) (p_vmas x) (p_sigactions x).
Definition set_p_main_thread (v : Z) (x : process) : process :=
  Process (p_pid x) (p_parent x) (p_children x) (p_sibling x) v
    (p_address_space x) (p_owns_address_space x) (p_exited x) (p_exit_code x)
    (p_files x) (p_cwd x) (p_umask x) (p_pgid x) (p_sid x) (p_creds x)
    (p_dumpable x) (p_heap_start x) (p_heap_end x) (p_vmas x) (p_sigactions x).
Definition set_p_address_space (v : option Z) (x : process) : process :=
  Process (p_pid x) (p_parent x) (p_children x) (p_sibling x)
    (p_main_thread x) v (p_owns_address_space x) (p_exited x) (p_exit_code x)
    (p_files x) (p_cwd x) (p_umask x) (p_pgid x) (p_sid x) (p_creds x)
    (p_dumpable x) (p_heap_start x) (p_heap_end x) (p_vmas x) (p_sigactions x).
Definition set_p_owns_address_space (v : bool) (x : process) : process :=
  Process (p_pid x) (p_parent x) (p_children x) (p_sibling x)
    (p_main_thread x) (p_address_space x) v (p_exited x) (p_exit_code x)
    (p_files x) (p_cwd x) (p_umask x) (p_pgid x) (p_sid x) (p_creds x)
    (p_dumpable x) (p_heap_start x) (p_heap_end x) (p_vmas x) (p_sigactions x).
Definition set_p_exited (v : bool) (x : process) : process :=
  Process (p_pid x) (p_parent x) (p_children x) (p_sibling x)
    (p_main_thread x) (p_address_space x) (p_owns_address_space x) v
    (p_exit_code x) (p_files x) (p_cwd x) (p_umask x) (p_pgid x) (p_sid x)
    (p_creds x) (p_dumpable x) (p_heap_start x) (p_heap_end x) (p_vmas x)
    (p_sigactions x).
Definition set_p_exit_code (v : Z) (x : process) : process :=
  Process (p_pid x) (p_parent x) (p_children x) (p_sibling x)
    (p_main_thread x) (p_address_space x) (p_owns_address_space x)
    (p_exited x) v (p_files x) (p_cwd x) (p_umask x) (p_pgid x) (p_sid x)
    (p_creds x) (p_dumpable x) (p_heap_start x) (p_heap_end x) (p_vmas x)
    (p_sigactions x).
Definition set_p_files (v : list Z) (x : process) : process :=
  Process (p_pid x) (p_parent x) (p_children x) (p_sibling x)
    (p_main_thread x) (p_address_space x) (p_owns_address_space x)
    (p_exited x) (p_exit_code x) v (p_cwd x) (p_umask x) (p_pgid x) (p_sid x)
    (p_creds x) (p_dumpable x) (p_heap_start x) (p_heap_end x) (p_vmas x)
    (p_sigactions x).
Definition set_p_cwd (v : string) (x : process) : process :=
  Process (p_pid x) (p_parent x) (p_children x) (p_sibling x)
    (p_main_thread x) (p_address_space x) (p_owns_address_space x)
    (p_exited x) (p_exit_code x) (p_files x) v (p_umask x) (p_pgid x)
    (p_sid x) (p_creds x) (p_dumpable x) (p_heap_start x) (p_heap_end x)
    (p_vmas x) (p_sigactions x).
Definition set_p_umask (v : Z) (x : process) : process :=
  Process (p_pid x) (p_parent x) (p_children x) (p_sibling x)
    (p_main_thread x) (p_address_space x) (p_owns_address_space x)
    (p_exited x) (p_exit_code x) (p_files x) (p_cwd x) v (p_pgid x) (p_sid x)
    (p_creds x) (p_dumpable x) (p_heap_start x) (p_heap_end x) (p_vmas x)
    (p_sigactions x).
Definition set_p_pgid (v : Z) (x : process) : process :=
  Process (p_pid x) (p_parent x) (p_children x) (p_sibling x)
    (p_main_thread x) (p_address_space x) (p_owns_address_space x)
    (p_exited x) (p_exit_code x) (p_files x) (p_cwd x) (p_umask x) v (p_sid x)
    (p_creds x) (p_dumpable x) (p_heap_start x) (p_heap_end x) (p_vmas x)
    (p_sigactions x).
Definition set_p_sid (v : Z) (x : process) : process :=
  Process (p_pid x) (p_parent x) (p_children x) (p_sibling x)
    (p_main_thread x) (p_address_space x) (p_owns_address_space x)
    (p_exited x) (p_exit_code x) (p_files x) (p_cwd x) (p_umask x) (p_pgid x)
    v (p_creds x) (p_dumpable x) (p_heap_start x) (p_heap_end x) (p_vmas x)
    (p_sigactions x).
Definition set_p_creds (v : creds) (x : process) : process :=
  Process (p_pid x) (p_parent x) (p_children x) (p_sibling x)
    (p_main_thread x) (p_address_space x) (p_owns_address_space x)
    (p_exited x) (p_exit_code x) (p_files x) (p_cwd x) (p_umask x) (p_pgid x)
    (p_sid x) v (p_dumpable x) (p_heap_start x) (p_heap_end x) (p_vmas x)
    (p_sigactions x).
Definition set_p_dumpable (v : bool) (x : process) : process :=
  Process (p_pid x) (p_parent x) (p_children x) (p_sibling x)
    (p_main_thread x) (p_address_space x) (p_owns_address_space x)
    (p_exited x) (p_exit_code x) (p_files x) (p_cwd x) (p_umask x) (p_pgid x)
    (p_sid x) (p_creds x) v (p_heap_start x) (p_heap_end x) (p_vmas x)
    (p_sigactions x).
Definition set_p_heap_start (v : Z) (x : process) : process :=
  Process (p_pid x) (p_parent x) (p_children x) (p_sibling x)
    (p_main_thread x) (p_address_space x) (p_owns_address_space x)
    (p_exited x) (p_exit_code x) (p_files x) (p_cwd x) (p_umask x) (p_pgid x)
    (p_sid x) (p_creds x) (p_dumpable x) v (p_heap_end x) (p_vmas x)
    (p_sigactions x).
Definition set_p_heap_end (v : Z) (x : process) : process :=
  Process (p_pid x) (p_parent x) (p_children x) (p_sibling x)
    (p_main_thread x) (p_address_space x) (p_owns_address_space x)
    (p_exited x) (p_exit_code x) (p_files x) (p_cwd x) (p_umask x) (p_pgid x)
    (p_sid x) (p_creds x) (p_dumpable x) (p_heap_start x) v (p_vmas x)
    (p_sigactions x).
Definition set_p_vmas (v : list proc_vma) (x : process) : process :=
  Process (p_pid x) (p_parent x) (p_children x) (p_sibling x)
    (p_main_thread x) (p_address_space x) (p_owns_address_space x)
    (p_exited x) (p_exit_code x) (p_files x) (p_cwd x) (p_umask x) (p_pgid x)
    (p_sid x) (p_creds x) (p_dumpable x) (p_heap_start x) (p_heap_end x) v
    (p_sigactions x).
Definition set_p_sigactions (v : list sigaction) (x : process) : process :=
  Process (p_pid x) (p_parent x) (p_children x) (p_sibling x)
    (p_main_thread x) (p_address_space x) (p_owns_address_space x)
    (p_exited x) (p_exit_code x) (p_files x) (p_cwd x) (p_umask x) (p_pgid x)
    (p_sid x) (p_creds x) (p_dumpable x) (p_heap_start x) (p_heap_end x)
    (p_vmas x) v.
(** [struct wait_queue]. *)
Record wait_queue := WaitQueue {
  wq_head : Z;
  wq_tail : Z;
}.

Definition set_wq_head (v : Z) (x : wait_queue) : wait_queue :=
  WaitQueue v (wq_tail x).
Definition set_wq_tail (v : Z) (x : wait_queue) : wait_queue :=
  WaitQueue (wq_head x) v.
(** The registers and per-CPU slots [schedule] touches. *)
Record cpu_regs := CpuRegs {
  r_rsp : Z;
  r_cr3 : Z;
  r_fs_base : Z;
  r_if : bool;
  tss_rsp0 : Z;
  kernel_stack : Z;
  shadow_task : Z;
}.

Definition set_r_rsp (v : Z) (x : cpu_regs) : cpu_regs :=
  CpuRegs v (r_cr3 x) (r_fs_base x) (r_if x) (tss_rsp0 x) (kernel_stack x)
    (shadow_task x).
Definition set_r_cr3 (v : Z) (x : cpu_regs) : cpu_regs :=
  CpuRegs (r_rsp x) v (r_fs_base x) (r_if x) (tss_rsp0 x) (kernel_stack x)
    (shadow_task x).
Definition set_r_fs_base (v : Z) (x : cpu_regs) : cpu_regs :=
  CpuRegs (r_rsp x) (r_cr3 x) v (r_if x) (tss_rsp0 x) (kernel_stack x)
    (shadow_task x).
Definition set_r_if (v : bool) (x : cpu_regs) : cpu_regs :=
  CpuRegs (r_rsp x) (r_cr3 x) (r_fs_base x) v (tss_rsp0 x) (kernel_stack x)
    (shadow_task x).
Definition set_tss_rsp0 (v : Z) (x : cpu_regs) : cpu_regs :=
  CpuRegs (r_rsp x) (r_cr3 x) (r_fs_base x) (r_if x) v (kernel_stack x)
    (shadow_task x).
Definition set_kernel_stack (v : Z) (x : cpu_regs) : cpu_regs :=
  CpuRegs (r_rsp x) (r_cr3 x) (r_fs_base x) (r_if x) (tss_rsp0 x) v
    (shadow_task x).
Definition set_shadow_task (v : Z) (x : cpu_regs) : cpu_regs :=
  CpuRegs (r_rsp x) (r_cr3 x) (r_fs_base x) (r_if x) (tss_rsp0 x)
    (kernel_stack x) v.
(** The state of scheduler.c, task.c and wait_queue.c on one CPU. *)
Record sched := Sched {
  tasks : gmap Z task;
  procs : gmap Z process;
  wqs : gmap Z wait_queue;
  runqueue_head : Z;
  runqueue_tail : Z;
  task_count : Z;
  runqueue_lock : bool;
  idle_task : Z;
  sleep_list_head : Z;
  last_boost_tick : Z;
  current_task : Z;
  init_process : Z;
  next_pid : Z;
  next_tid : Z;
  reaper_queue : Z;  (** address of the static queue *)
  file_refs : gmap Z Z;  (** [ref_count] of each open file *)
  kstack : gmap Z Z;  (** words of the kernel stacks *)
  need_resched : list Z;  (** [g_cpu_data[i].need_resched] *)
  cpu_id : Z;  (** [smp_current_cpu_id()] *)
  cpu_count : Z;  (** [g_cpu_count] *)
  ipis : list (Z * Z);  (** CPU and vector of each IPI sent *)
  ticks : Z;  (** [pit_ticks()] *)
  cpu : cpu_regs;
}.

Definition set_tasks (v : gmap Z task) (x : sched) : sched :=
  Sched v (procs x) (wqs x) (runqueue_head x) (runqueue_tail x) (task_count x)
    (runqueue_lock x) (idle_task x) (sleep_list_head x) (last_boost_tick x)
    (current_task x) (init_process x) (next_pid x) (next_tid x)
    (reaper_queue x) (file_refs x) (kstack x) (need_resched x) (cpu_id x)
    (cpu_count x) (ipis x) (ticks x) (cpu x).
Definition set_procs (v : gmap Z process) (x : sched) : sched :=
  Sched (tasks x) v (wqs x) (runqueue_head x) (runqueue_tail x) (task_count x)
    (runqueue_lock x) (idle_task x) (sleep_list_head x) (last_boost_tick x)
    (current_task x) (init_process x) (next_pid x) (next_tid x)
    (reaper_queue x) (file_refs x) (kstack x) (need_resched x) (cpu_id x)
    (cpu_count x) (ipis x) (ticks x) (cpu x).
Definition set_wqs (v : gmap Z wait_queue) (x : sched) : sched :=
  Sched (tasks x) (procs x) v (runqueue_head x) (runqueue_tail x)
    (task_count x) (runqueue_lock x) (idle_task x) (sleep_list_head x)
    (last_boost_tick x) (current_task x) (init_process x) (next_pid x)
    (next_tid x) (reaper_queue x) (file_refs x) (kstack x) (need_resched x)
    (cpu_id x) (cpu_count x) (ipis x) (ticks x) (cpu x).
Definition set_runqueue_head (v : Z) (x : sched) : sched :=
  Sched (tasks x) (procs x) (wqs x) v (runqueue_tail x) (task_count x)
    (runqueue_lock x) (idle_task x) (sleep_list_head x) (last_boost_tick x)
    (current_task x) (init_process x) (next_pid x) (next_tid x)
    (reaper_queue x) (file_refs x) (kstack x) (need_resched x) (cpu_id x)
    (cpu_count x) (ipis x) (ticks x) (cpu x).
Definition set_runqueue_tail (v : Z) (x : sched) : sched :=
  Sched (tasks x) (procs x) (wqs x) (runqueue_head x) v (task_count x)
    (runqueue_lock x) (idle_task x) (sleep_list_head x) (last_boost_tick x)
    (current_task x) (init_process x) (next_pid x) (next_tid x)
    (reaper_queue x) (file_refs x) (kstack x) (need_resched x) (cpu_id x)
    (cpu_count x) (ipis x) (ticks x) (cpu x).
Definition set_task_count (v : Z) (x : sched) : sched :=
  Sched (tasks x) (procs x) (wqs x) (runqueue_head x) (runqueue_tail x) v
    (runqueue_lock x) (idle_task x) (sleep_list_head x) (last_boost_tick x)
    (current_task x) (init_process x) (next_pid x) (next_tid x)
    (reaper_queue x) (file_refs x) (kstack x) (need_resched x) (cpu_id x)
    (cpu_count x) (ipis x) (ticks x) (cpu x).
Definition set_runqueue_lock (v : bool) (x : sched) : sched :=
  Sched (tasks x) (procs x) (wqs x) (runqueue_head x) (runqueue_tail x)
    (task_count x) v (idle_task x) (sleep_list_head x) (last_boost_tick x)
    (current_task x) (init_process x) (next_pid x) (next_tid x)
    (reaper_queue x) (file_refs x) (kstack x) (need_resched x) (cpu_id x)
    (cpu_count x) (ipis x) (ticks x) (cpu x).
Definition set_idle_task (v : Z) (x : sched) : sched :=
  Sched (tasks x) (procs x) (wqs x) (runqueue_head x) (runqueue_tail x)
    (task_count x) (runqueue_lock x) v (sleep_list_head x) (last_boost_tick x)
    (current_task x) (init_process x) (next_pid x) (next_tid x)
    (reaper_queue x) (file_refs x) (kstack x) (need_resched x) (cpu_id x)
    (cpu_count x) (ipis x) (ticks x) (cpu x).
Definition set_sleep_list_head (v : Z) (x : sched) : sched :=
  Sched (tasks x) (procs x) (wqs x) (runqueue_head x) (runqueue_tail x)
    (task_count x) (runqueue_lock x) (idle_task x) v (last_boost_tick x)
    (current_task x) (init_process x) (next_pid x) (next_tid x)
    (reaper_queue x) (file_refs x) (kstack x) (need_resched x) (cpu_id x)
    (cpu_count x) (ipis x) (ticks x) (cpu x).
Definition set_last_boost_tick (v : Z) (x : sched) : sched :=
  Sched (tasks x) (procs x) (wqs x) (runqueue_head x) (runqueue_tail x)
    (task_count x) (runqueue_lock x) (idle_task x) (sleep_list_head x) v
    (current_task x) (init_process x) (next_pid x) (next_tid x)
    (reaper_queue x) (file_refs x) (kstack x) (need_resched x) (cpu_id x)
    (cpu_count x) (ipis x) (ticks x) (cpu x).
Definition set_current_task (v : Z) (x : sched) : sched :=
  Sched (tasks x) (procs x) (wqs x) (runqueue_head x) (runqueue_tail x)
    (task_count x) (runqueue_lock x) (idle_task x) (sleep_list_head x)
    (last_boost_tick x) v (init_process x) (next_pid x) (next_tid x)
    (reaper_queue x) (file_refs x) (kstack x) (need_resched x) (cpu_id x)
    (cpu_count x) (ipis x) (ticks x) (cpu x).
Definition set_init_process (v : Z) (x : sched) : sched :=
  Sched (tasks x) (procs x) (wqs x) (runqueue_head x) (runqueue_tail x)
    (task_count x) (runqueue_lock x) (idle_task x) (sleep_list_head x)
    (last_boost_tick x) (current_task x) v (next_pid x) (next_tid x)
    (reaper_queue x) (file_refs x) (kstack x) (need_resched x) (cpu_id x)
    (cpu_count x) (ipis x) (ticks x) (cpu x).
Definition set_next_pid (v : Z) (x : sched) : sched :=
  Sched (tasks x) (procs x) (wqs x) (runqueue_head x) (runqueue_tail x)
    (task_count x) (runqueue_lock x) (idle_task x) (sleep_list_head x)
    (last_boost_tick x) (current_task x) (init_process x) v (next_tid x)
    (reaper_queue x) (file_refs x) (kstack x) (need_resched x) (cpu_id x)
    (cpu_count x) (ipis x) (ticks x) (cpu x).
Definition set_next_tid (v : Z) (x : sched) : sched :=
  Sched (tasks x) (procs x) (wqs x) (runqueue_head x) (runqueue_tail x)
    (task_count x) (runqueue_lock x) (idle_task x) (sleep_list_head x)
    (last_boost_tick x) (current_task x) (init_process x) (next_pid x) v
    (reaper_queue x) (file_refs x) (kstack x) (need_resched x) (cpu_id x)
    (cpu_count x) (ipis x) (ticks x) (cpu x).
Definition set_reaper_queue (v : Z) (x : sched) : sched :=
  Sched (tasks x) (procs x) (wqs x) (runqueue_head x) (runqueue_tail x)
    (task_count x) (runqueue_lock x) (idle_task x) (sleep_list_head x)
    (last_boost_tick x) (current_task x) (init_process x) (next_pid x)
    (next_tid x) v (file_refs x) (kstack x) (need_resched x) (cpu_id x)
    (cpu_count x) (ipis x) (ticks x) (cpu x).
Definition set_file_refs (v : gmap Z Z) (x : sched) : sched :=
  Sched (tasks x) (procs x) (wqs x) (runqueue_head x) (runqueue_tail x)
    (task_count x) (runqueue_lock x) (idle_task x) (sleep_list_head x)
    (last_boost_tick x) (current_task x) (init_process x) (next_pid x)
    (next_tid x) (reaper_queue x) v (kstack x) (need_resched x) (cpu_id x)
    (cpu_count x) (ipis x) (ticks x) (cpu x).
Definition set_kstack (v : gmap Z Z) (x : sched) : sched :=
  Sched (tasks x) (procs x) (wqs x) (runqueue_head x) (runqueue_tail x)
    (task_count x) (runqueue_lock x) (idle_task x) (sleep_list_head x)
    (last_boost_tick x) (current_task x) (init_process x) (next_pid x)
    (next_tid x) (reaper_queue x) (file_refs x) v (need_resched x) (cpu_id x)
    (cpu_count x) (ipis x) (ticks x) (cpu x).
Definition set_need_resched (v : list Z) (x : sched) : sched :=
  Sched (tasks x) (procs x) (wqs x) (runqueue_head x) (runqueue_tail x)
    (task_count x) (runqueue_lock x) (idle_task x) (sleep_list_head x)
    (last_boost_tick x) (current_task x) (init_process x) (next_pid x)
    (next_tid x) (reaper_queue x) (file_refs x) (kstack x) v (cpu_id x)
    (cpu_count x) (ipis x) (ticks x) (cpu x).
Definition set_cpu_id (v : Z) (x : sched) : sched :=
  Sched (tasks x) (procs x) (wqs x) (runqueue_head x) (runqueue_tail x)
    (task_count x) (runqueue_lock x) (idle_task x) (sleep_list_head x)
    (last_boost_tick x) (current_task x) (init_process x) (next_pid x)
    (next_tid x) (reaper_queue x) (file_refs x) (kstack x) (need_resched x) v
    (cpu_count x) (ipis x) (ticks x) (cpu x).
Definition set_cpu_count (v : Z) (x : sched) : sched :=
  Sched (tasks x) (procs x) (wqs x) (runqueue_head x) (runqueue_tail x)
    (task_count x) (runqueue_lock x) (idle_task x) (sleep_list_head x)
    (last_boost_tick x) (current_task x) (init_process x) (next_pid x)
    (next_tid x) (reaper_queue x) (file_refs x) (kstack x) (need_resched x)
    (cpu_id x) v (ipis x) (ticks x) (cpu x).
Definition set_ipis (v : list (Z * Z)) (x : sched) : sched :=
  Sched (tasks x) (procs x) (wqs x) (runqueue_head x) (runqueue_tail x)
    (task_count x) (runqueue_lock x) (idle_task x) (sleep_list_head x)
    (last_boost_tick x) (current_task x) (init_process x) (next_pid x)
    (next_tid x) (reaper_queue x) (file_refs x) (kstack x) (need_resched x)
    (cpu_id x) (cpu_count x) v (ticks x) (cpu x).
Definition set_ticks (v : Z) (x : sched) : sched :=
  Sched (tasks x) (procs x) (wqs x) (runqueue_head x) (runqueue_tail x)
    (task_count x) (runqueue_lock x) (idle_task x) (sleep_list_head x)
    (last_boost_tick x) (current_task x) (init_process x) (next_pid x)
    (next_tid x) (reaper_queue x) (file_refs x) (kstack x) (need_resched x)
    (cpu_id x) (cpu_count x) (ipis x) v (cpu x).
Definition set_cpu (v : cpu_regs) (x : sched) : sched :=
  Sched (tasks x) (procs x) (wqs x) (runqueue_head x) (runqueue_tail x)
    (task_count x) (runqueue_lock x) (idle_task x) (sleep_list_head x)
    (last_boost_tick x) (current_task x) (init_process x) (next_pid x)
    (next_tid x) (reaper_queue x) (file_refs x) (kstack x) (need_resched x)
    (cpu_id x) (cpu_count x) (ipis x) (ticks x) v.

(** ** Memory accesses *)

Abbreviation SM := (prog sched).

(** [p->...]: reading through a pointer that is not a task is undefined. *)
Definition rd (p : Z) : SM task := s ← get; deref (tasks s !! p).
Definition upd (p : Z) (f : task → task) : SM unit :=
  t ← rd p; modify (λ s, set_tasks (<[p := f t]> (tasks s)) s).

Definition rd_proc (p : Z) : SM process := s ← get; deref (procs s !! p).
Definition upd_proc (p : Z) (f : process → process) : SM unit :=
  t ← rd_proc p; modify (λ s, set_procs (<[p := f t]> (procs s)) s).

Definition rd_wq (q : Z) : SM wait_queue := s ← get; deref (wqs s !! q).
Definition upd_wq (q : Z) (f : wait_queue → wait_queue) : SM unit :=
  w ← rd_wq q; modify (λ s, set_wqs (<[q := f w]> (wqs s)) s).

(** Enough steps to visit every task once. *)
Definition task_fuel : SM nat := gets (λ s, size (tasks s)).

(** [save_interrupts_and_disable] and [restore_interrupts]. *)
Definition set_if (b : bool) : SM unit :=
  modify (λ s, set_cpu (set_r_if b (cpu s)) s).
Definition save_interrupts_and_disable : SM bool :=
  b ← gets (λ s, r_if (cpu s)); set_if false;; mret b.
Definition restore_interrupts (was_enabled : bool) : SM unit := set_if was_enabled.
