(* ===== verification/Sched.v ===== *)
(** * The scheduler: scheduler.c

    Ready queue, sleep list, time slices, priority boost and the choice of
    the next task.  A loop over a linked list takes as fuel the number of
    tasks; a list that does not end within it is cyclic, and the C loop spins
    on it. *)

From S2P Require Import Prelude Links SchedState.

(** [int8_t] argument, [uint32_t] result. *)
Definition sched_prio_to_slice (priority : Z) : Z :=
  u32 (SCHED_BASE_SLICE + (19 - priority)).

(** ** The runqueue lock

    One CPU runs the scheduler: a lock that is held stays held. *)
Definition lock_runqueue : SM unit :=
  held ← gets runqueue_lock;
  if (held : bool) then spin else modify (set_runqueue_lock true).
Definition unlock_runqueue : SM unit := modify (set_runqueue_lock false).

Definition sched_init : SM unit :=
  modify (set_runqueue_head 0);;
  modify (set_runqueue_tail 0);;
  modify (set_task_count 0);;
  id ← gets cpu_id;
  when (id =? 0) (modify (λ s, set_need_resched (<[0%nat := 0]> (need_resched s)) s));;
  modify (set_idle_task 0);;
  modify (set_sleep_list_head 0);;
  modify (set_last_boost_tick 0).

Definition sched_set_idle_task (task : Z) : SM unit := modify (set_idle_task task).

(** ** The ready queue *)

Fixpoint on_runqueue (fuel : nat) (cursor task : Z) : SM bool :=
  if cursor =? 0 then mret false else
  match fuel with
  | O => spin
  | S fuel =>
      if cursor =? task then mret true else
      c ← rd cursor; on_runqueue fuel (t_next c) task
  end.

Definition sched_add_task (task : Z) : SM unit :=
  if task =? 0 then mret () else
  lock_runqueue;;
  fuel ← task_fuel; head ← gets runqueue_head;
  present ← on_runqueue fuel head task;
  if (present : bool) then unlock_runqueue else
  upd task (set_t_next 0);;
  tail ← gets runqueue_tail;
  (if negb (tail =? 0) then upd tail (set_t_next task)
   else modify (set_runqueue_head task));;
  modify (set_runqueue_tail task);;
  modify (λ s, set_task_count (task_count s +! 1) s);;
  unlock_runqueue.

Fixpoint remove_from_runqueue (fuel : nat) (prev cursor task : Z) : SM unit :=
  if cursor =? 0 then mret () else
  match fuel with
  | O => spin
  | S fuel =>
      c ← rd cursor;
      if cursor =? task then
        (if negb (prev =? 0) then upd prev (set_t_next (t_next c))
         else modify (set_runqueue_head (t_next c)));;
        tail ← gets runqueue_tail;
        when (tail =? cursor) (modify (set_runqueue_tail prev));;
        upd cursor (set_t_next 0);;
        count ← gets task_count;
        when (0 <? count) (modify (set_task_count (count -! 1)))
      else remove_from_runqueue fuel cursor (t_next c) task
  end.

Definition sched_remove_task (task : Z) : SM unit :=
  current ← gets current_task;
  if (task =? 0) || (task =? current) then mret () else
  lock_runqueue;;
  fuel ← task_fuel; head ← gets runqueue_head;
  remove_from_runqueue fuel 0 head task;;
  unlock_runqueue.

(** ** The sleep list, sorted by deadline *)

(** The insertion point: [prev] and [cursor] after the search. *)
Fixpoint sleep_position (fuel : nat) (prev cursor deadline : Z) : SM (Z * Z) :=
  if cursor =? 0 then mret (prev, cursor) else
  match fuel with
  | O => spin
  | S fuel =>
      c ← rd cursor;
      if t_sleep_until c <=? deadline
      then sleep_position fuel cursor (t_sleep_next c) deadline
      else mret (prev, cursor)
  end.

Definition sched_add_sleeper (task : Z) : SM unit :=
  if task =? 0 then mret () else
  t ← rd task;
  fuel ← task_fuel; head ← gets sleep_list_head;
  '(prev, cursor) ← sleep_position fuel 0 head (t_sleep_until t);
  upd task (set_t_sleep_next cursor);;
  if negb (prev =? 0) then upd prev (set_t_sleep_next task)
  else modify (set_sleep_list_head task).

Fixpoint remove_from_sleepers (fuel : nat) (prev cursor task : Z) : SM unit :=
  if cursor =? 0 then mret () else
  match fuel with
  | O => spin
  | S fuel =>
      c ← rd cursor;
      if cursor =? task then
        if negb (prev =? 0) then upd prev (set_t_sleep_next (t_sleep_next c))
        else modify (set_sleep_list_head (t_sleep_next c))
      else remove_from_sleepers fuel cursor (t_sleep_next c) task
  end.

Definition sched_remove_sleeper (task : Z) : SM unit :=
  if task =? 0 then mret () else
  fuel ← task_fuel; head ← gets sleep_list_head;
  remove_from_sleepers fuel 0 head task.

(** The body of the loop of [sched_check_sleepers]: the head has expired. *)
Definition wake_sleeper (task : Z) (t : SchedState.task) : SM unit :=
  modify (set_sleep_list_head (t_sleep_next t));;
  upd task (λ t, set_t_sleep_timed_out true (set_t_sleep_until 0 (set_t_sleep_next 0 t)));;
  t ← rd task;
  when (bool_decide (t_state t = TASK_SLEEPING))
    (upd task (λ t, set_t_time_slice (t_time_slice_max t) (set_t_state TASK_READY t))).

Fixpoint wake_expired (fuel : nat) (now : Z) : SM unit :=
  head ← gets sleep_list_head;
  if head =? 0 then mret () else
  match fuel with
  | O => spin
  | S fuel =>
      t ← rd head;
      if t_sleep_until t <=? now then wake_sleeper head t;; wake_expired fuel now
      else mret ()
  end.

Definition sched_check_sleepers : SM unit :=
  now ← gets ticks; fuel ← task_fuel; wake_expired fuel now.

(** ** Priorities and time slices *)

Definition is_idle (t : task) : bool := negb (t_flags t &! TASK_FLAG_IDLE =? 0).

(** One task of the starvation scan. *)
Definition boost (now : Z) (t : task) : task :=
  if bool_decide (t_state t = TASK_READY) && negb (is_idle t)
     && (SCHED_PRIO_MIN <? t_priority t)
     && (SCHED_STARVE_THRESHOLD <=? now -! t_last_run_tick t)
  then let p := i8 (t_priority t - 1) in
       set_t_time_slice_max (sched_prio_to_slice p) (set_t_priority p t)
  else t.

Fixpoint boost_all (fuel : nat) (now cursor : Z) : SM unit :=
  if cursor =? 0 then mret () else
  match fuel with
  | O => spin
  | S fuel => upd cursor (boost now);; c ← rd cursor; boost_all fuel now (t_next c)
  end.

Definition sched_boost_starved : SM unit :=
  now ← gets ticks; fuel ← task_fuel; head ← gets runqueue_head;
  boost_all fuel now head.

Definition set_resched (v : Z) : SM unit :=
  rcpu ← gets cpu_id;
  when ((0 <=? rcpu) && (rcpu <? MAX_CPUS))
    (modify (λ s, set_need_resched (<[Z.to_nat rcpu := v]> (need_resched s)) s)).

(** An IPI to the calling CPU is not sent. *)
Definition smp_send_ipi_to_cpu (target vector : Z) : SM unit :=
  s ← get;
  if (target <? 0) || (cpu_count s <=? target) then mret () else
  if target =? cpu_id s then mret () else
  modify (λ s, set_ipis (ipis s ++ [(target, vector)]) s).

(** The accounting part of a tick for the running task: the decremented time
    slice, then the refill and the end of a priority boost. *)
Definition charge_tick (t : task) : task :=
  let t := set_t_total_ticks (t_total_ticks t +! 1) t in
  if 0 <? t_time_slice t then set_t_time_slice (u32 (t_time_slice t - 1)) t else t.

Definition refill_slice (t : task) : task :=
  let t := set_t_time_slice (t_time_slice_max t) t in
  if negb (t_priority t =? t_static_priority t) && negb (is_idle t)
  then let t := set_t_priority (t_static_priority t) t in
       let t := set_t_time_slice_max (sched_prio_to_slice (t_priority t)) t in
       set_t_time_slice (t_time_slice_max t) t
  else t.

Definition sched_tick : SM unit :=
  current ← gets current_task;
  when (negb (current =? 0))
    (upd current charge_tick;;
     t ← rd current;
     when (t_time_slice t =? 0)
       (upd current refill_slice;;
        set_resched 1;;
        n ← gets cpu_count; id ← gets cpu_id;
        when (1 <? n) (smp_send_ipi_to_cpu id IPI_VECTOR_RESCHEDULE)));;
  sched_check_sleepers;;
  now ← gets ticks; last ← gets last_boost_tick;
  when (SCHED_BOOST_INTERVAL <=? now -! last)
    (modify (set_last_boost_tick now);; sched_boost_starved).

Definition sched_needs_resched : SM bool :=
  rcpu ← gets cpu_id;
  if (rcpu <? 0) || (MAX_CPUS <=? rcpu) then mret false else
  flags ← gets need_resched;
  v ← deref (flags !! Z.to_nat rcpu);
  mret (negb (v =? 0)).

(** ** Choosing and switching to the next task *)

(** The local variables of [pick_next_task]. *)
Record pick := Pick {
  best : Z;
  best_prio : Z;
  past_prev : bool;
  best_is_past_prev : bool;
}.

Definition pick0 : pick := Pick 0 (SCHED_PRIO_MAX + 1) false false.

(** One iteration of the scan. *)
Definition pick_step (prev cursor : Z) (c : task) (v : pick) : pick :=
  if cursor =? prev then Pick (best v) (best_prio v) true (best_is_past_prev v) else
  if bool_decide (t_state c = TASK_READY) && negb (is_idle c) then
    if t_priority c <? best_prio v
    then Pick cursor (t_priority c) (past_prev v) (past_prev v)
    else if t_priority c =? best_prio v then
      if past_prev v && negb (best_is_past_prev v)
      then Pick cursor (best_prio v) (past_prev v) true
      else v
    else v
  else v.

Fixpoint pick_loop (fuel : nat) (prev cursor : Z) (v : pick) : SM pick :=
  if cursor =? 0 then mret v else
  match fuel with
  | O => spin
  | S fuel =>
      c ← rd cursor;
      pick_loop fuel prev (t_next c) (pick_step prev cursor c v)
  end.

Definition pick_next_task (prev : Z) : SM Z :=
  head ← gets runqueue_head;
  idle ← gets idle_task;
  if head =? 0 then mret idle else
  fuel ← task_fuel;
  v ← pick_loop fuel prev head pick0;
  if negb (best v =? 0) then mret (best v) else
  if idle =? 0 then mret 0 else
  t ← rd idle;
  if bool_decide (t_state t ≠ TASK_ZOMBIE) then mret idle else mret 0.

(** The task that is about to run: its boost ends. *)
Definition dispatch (now : Z) (t : task) : task :=
  let t := set_t_last_run_tick now (set_t_state TASK_RUNNING t) in
  if negb (t_priority t =? t_static_priority t) && negb (is_idle t)
  then let t := set_t_priority (t_static_priority t) t in
       set_t_time_slice_max (sched_prio_to_slice (t_priority t)) t
  else t.

Definition on_cpu (f : cpu_regs → cpu_regs) : SM unit :=
  modify (λ s, set_cpu (f (cpu s)) s).

(** switch.S: six registers are pushed and the stack pointer of the task that
    leaves is saved; the one of the task that comes back is loaded, its six
    registers and its return address are popped. *)
Definition context_switch (old : Z) (new_rsp : Z) : SM unit :=
  rsp ← gets (λ s, r_rsp (cpu s));
  upd old (set_t_saved_rsp (rsp -! 48));;
  on_cpu (set_r_rsp (new_rsp +! 56)).

Definition switch_to (old next : Z) : SM unit :=
  o ← rd old; n ← rd next;
  on_cpu (set_tss_rsp0 (t_kstack_top n));;
  on_cpu (set_kernel_stack (t_kstack_top n));;
  when (negb (t_cr3 o =? t_cr3 n))
    (p ← rd_proc (t_process n);
     match p_address_space p with
     | None => mret ()
     | Some pml4 => on_cpu (set_r_cr3 pml4)
     end);;
  when (negb (t_fs_base o =? t_fs_base n)) (on_cpu (set_r_fs_base (t_fs_base n)));;
  context_switch old (t_saved_rsp n).

Definition schedule : SM unit :=
  set_resched 0;;
  prev ← gets current_task;
  if prev =? 0 then mret () else
  head ← gets runqueue_head;
  if head =? 0 then mret () else
  next ← pick_next_task prev;
  if (next =? 0) || (next =? prev) then mret () else
  p ← rd prev;
  when (bool_decide (t_state p = TASK_RUNNING)) (upd prev (set_t_state TASK_READY));;
  now ← gets ticks;
  upd next (dispatch now);;
  modify (set_current_task next);;
  on_cpu (set_shadow_task next);;
  switch_to prev next.

Definition sched_task_count : SM Z := gets task_count.
Definition sched_get_runqueue_head : SM Z := gets runqueue_head.

(** ** Ending a thread group *)

Definition end_task (exit_code : Z) (t : task) : task :=
  set_t_exit_code exit_code (set_t_state TASK_ZOMBIE t).

Fixpoint exit_runqueue (fuel : nat) (proc exit_code prev_task curr : Z) : SM unit :=
  if curr =? 0 then mret () else
  match fuel with
  | O => spin
  | S fuel =>
      c ← rd curr;
      let next := t_next c in
      current ← gets current_task;
      if (t_process c =? proc) && negb (curr =? current) then
        upd curr (end_task exit_code);;
        (if negb (prev_task =? 0) then upd prev_task (set_t_next next)
         else modify (set_runqueue_head next));;
        tail ← gets runqueue_tail;
        when (tail =? curr) (modify (set_runqueue_tail prev_task));;
        modify (λ s, set_task_count (task_count s -! 1) s);;
        exit_runqueue fuel proc exit_code prev_task next
      else exit_runqueue fuel proc exit_code curr next
  end.

Fixpoint exit_sleepers (fuel : nat) (proc exit_code prev_task curr : Z) : SM unit :=
  if curr =? 0 then mret () else
  match fuel with
  | O => spin
  | S fuel =>
      c ← rd curr;
      let next := t_sleep_next c in
      current ← gets current_task;
      if (t_process c =? proc) && negb (curr =? current) then
        upd curr (end_task exit_code);;
        (if negb (prev_task =? 0) then upd prev_task (set_t_sleep_next next)
         else modify (set_sleep_list_head next));;
        exit_sleepers fuel proc exit_code prev_task next
      else exit_sleepers fuel proc exit_code curr next
  end.

Definition sched_exit_group (proc exit_code : Z) : SM unit :=
  if proc =? 0 then mret () else
  was_enabled ← save_interrupts_and_disable;
  fuel ← task_fuel;
  head ← gets runqueue_head;
  exit_runqueue fuel proc exit_code 0 head;;
  sleeper ← gets sleep_list_head;
  exit_sleepers fuel proc exit_code 0 sleeper;;
  restore_interrupts was_enabled.
