(* ===== verification/WaitQueue.v ===== *)
(** * Wait queues: wait_queue.c

    A sleeping function calls [schedule] in its middle, and what follows runs
    when the task is chosen again.  Each is given in two parts: [.._enter],
    up to and including [schedule], and [.._return], the code after it, which
    runs with the sleeping task as the current one. *)

From S2P Require Import Prelude Links SchedState Sched.

Definition UINT64_MAX : Z := 2 ^ 64 - 1.

Definition wait_queue_init (wq : Z) : SM unit :=
  if wq =? 0 then mret () else
  upd_wq wq (λ _, WaitQueue 0 0).

(** The common prefix: append the task, mark it asleep. *)
Definition enqueue_self (wq self : Z) : SM unit :=
  w ← rd_wq wq;
  (if negb (wq_tail w =? 0) then upd (wq_tail w) (set_t_wait_next self)
   else upd_wq wq (set_wq_head self));;
  upd_wq wq (set_wq_tail self);;
  upd self (λ t, set_t_sleep_timed_out false (set_t_wait_queue wq
    (set_t_state TASK_SLEEPING (set_t_wait_next 0 t)))).

Definition wait_queue_sleep_locked_enter (wq : Z) : SM unit :=
  self ← gets current_task;
  if (wq =? 0) || (self =? 0) then mret () else
  enqueue_self wq self;; schedule.

Definition wait_queue_sleep_locked_return (self : Z) : SM unit :=
  upd self (λ t, set_t_wait_next 0 (set_t_wait_queue 0 t)).

(** [wait_queue_sleep]; the saved interrupt flag is a local variable.  [None]
    when the function returns at once. *)
Definition wait_queue_sleep_enter (wq : Z) : SM (option bool) :=
  self ← gets current_task;
  if (wq =? 0) || (self =? 0) then mret None else
  was_enabled ← save_interrupts_and_disable;
  wait_queue_sleep_locked_enter wq;; mret (Some was_enabled).

Definition wait_queue_sleep_return (self : Z) (was_enabled : bool) : SM unit :=
  wait_queue_sleep_locked_return self;; restore_interrupts was_enabled.

Definition wait_queue_sleep_timeout_enter (wq timeout_ticks : Z) : SM bool :=
  was_enabled ← save_interrupts_and_disable;
  self ← gets current_task;
  enqueue_self wq self;;
  (if negb (timeout_ticks =? UINT64_MAX) then
     now ← gets ticks;
     upd self (set_t_sleep_until (now +! timeout_ticks));;
     sched_add_sleeper self
   else upd self (set_t_sleep_until 0));;
  schedule;;
  mret was_enabled.

(** Unlinking a task from the middle of a wait queue; the same loop occurs
    in [wait_queue_sleep_timeout], [task_kill] and [task_send_signal]. *)
Fixpoint remove_waiter (fuel : nat) (wq prev curr self : Z) : SM unit :=
  if curr =? 0 then mret () else
  match fuel with
  | O => spin
  | S fuel =>
      c ← rd curr;
      if curr =? self then
        (if negb (prev =? 0) then upd prev (set_t_wait_next (t_wait_next c))
         else upd_wq wq (set_wq_head (t_wait_next c)));;
        w ← rd_wq wq;
        when (wq_tail w =? curr) (upd_wq wq (set_wq_tail prev))
      else remove_waiter fuel wq curr (t_wait_next c) self
  end.

Definition unlink_waiter (wq self : Z) : SM unit :=
  w ← rd_wq wq; fuel ← task_fuel; remove_waiter fuel wq 0 (wq_head w) self.

Definition wait_queue_sleep_timeout_return (self : Z) (was_enabled : bool) : SM bool :=
  t ← rd self;
  let timed_out := t_sleep_timed_out t in
  upd self (set_t_sleep_timed_out false);;
  when (timed_out && negb (t_wait_queue t =? 0)) (unlink_waiter (t_wait_queue t) self);;
  upd self (λ t, set_t_sleep_until 0 (set_t_wait_next 0 (set_t_wait_queue 0 t)));;
  restore_interrupts was_enabled;;
  mret timed_out.

(** The guards before the first state change of [wait_queue_sleep_timeout]:
    [Some r] when the function returns [r] at once. *)
Definition wait_queue_sleep_timeout_guard (wq timeout_ticks : Z) : SM (option bool) :=
  self ← gets current_task;
  if (wq =? 0) || (self =? 0) then mret (Some false) else
  if timeout_ticks =? 0 then mret (Some true) else mret None.

(** The wake-up of one task that has been taken off its queue. *)
Definition wake_task (task : Z) : SM unit :=
  t ← rd task;
  when (bool_decide (t_state t = TASK_SLEEPING))
    (when (negb (t_sleep_until t =? 0))
       (sched_remove_sleeper task;; upd task (set_t_sleep_until 0));;
     upd task (λ t, set_t_state TASK_READY (set_t_sleep_timed_out false t));;
     sched_add_task task).

Definition wait_queue_wake_one (wq : Z) : SM unit :=
  if wq =? 0 then mret () else
  was_enabled ← save_interrupts_and_disable;
  w ← rd_wq wq;
  let task := wq_head w in
  when (negb (task =? 0))
    (t ← rd task;
     upd_wq wq (set_wq_head (t_wait_next t));;
     when (t_wait_next t =? 0) (upd_wq wq (set_wq_tail 0));;
     upd task (λ t, set_t_wait_queue 0 (set_t_wait_next 0 t));;
     wake_task task);;
  restore_interrupts was_enabled.

Fixpoint wake_all_loop (fuel : nat) (task : Z) : SM unit :=
  if task =? 0 then mret () else
  match fuel with
  | O => spin
  | S fuel =>
      t ← rd task;
      upd task (λ t, set_t_wait_queue 0 (set_t_wait_next 0 t));;
      wake_task task;;
      wake_all_loop fuel (t_wait_next t)
  end.

Definition wait_queue_wake_all (wq : Z) : SM unit :=
  if wq =? 0 then mret () else
  was_enabled ← save_interrupts_and_disable;
  w ← rd_wq wq; fuel ← task_fuel;
  wake_all_loop fuel (wq_head w);;
  upd_wq wq (λ _, WaitQueue 0 0);;
  restore_interrupts was_enabled.

Fixpoint count_waiters (fuel : nat) (cursor count : Z) : SM Z :=
  if cursor =? 0 then mret count else
  match fuel with
  | O => spin
  | S fuel => c ← rd cursor; count_waiters fuel (t_wait_next c) (count +! 1)
  end.

Definition wait_queue_count (wq : Z) : SM Z :=
  if wq =? 0 then mret 0 else
  w ← rd_wq wq; fuel ← task_fuel; count_waiters fuel (wq_head w) 0.

(** [io_event] is the address of the file's static queue. *)
Definition io_event_notify (io_event : Z) : SM unit := wait_queue_wake_all io_event.
