(* ===== verification/Task.v ===== *)
(** * Tasks and processes: task.c

    Memory from the kernel heap and page tables from the virtual memory
    manager are answers of other components: a function that asks for them
    takes the answers as arguments (an address, 0 when the request failed).
    Freeing a task or a process removes it from its heap, so that a later
    access through a stale pointer is undefined. *)

From S2P Require Import Prelude Links SchedState Sched WaitQueue.

Definition KERNEL_STACK_SIZE : Z := 16384.
Definition TASK_NAME_MAX : nat := 32.
Definition TASK_CWD_MAX : nat := 256.
Definition MAX_FILES_PER_PROCESS : nat := 256.
Definition VMA_MAX : nat := 128.

Definition proc_fuel : SM nat := gets (λ s, size (procs s)).

Definition kfree_task (p : Z) : SM unit := modify (λ s, set_tasks (delete p (tasks s)) s).
Definition kfree_proc (p : Z) : SM unit := modify (λ s, set_procs (delete p (procs s)) s).

(** [f->ref_count++], an [int]. *)
Definition file_ref (f : Z) : SM unit :=
  s ← get; n ← deref (file_refs s !! f);
  modify (λ s, set_file_refs (<[f := i32 (n + 1)]> (file_refs s)) s).

(** [file_close] of vfs.c, without the node's close callback. *)
Definition file_close (f : Z) : SM unit :=
  if f =? 0 then mret () else
  s ← get; n ← deref (file_refs s !! f);
  let n' := i32 (n - 1) in
  if n' =? 0 then modify (λ s, set_file_refs (delete f (file_refs s)) s)
  else modify (λ s, set_file_refs (<[f := n']> (file_refs s)) s).

(** ** Processes *)

Definition no_sigaction : sigaction := SigAction 0 0 0 0.
Definition no_vma : proc_vma := ProcVma false false 0.

(** The process as [kzalloc] and the stores before the inheritance leave it. *)
Definition new_process (pid parent kernel_pml4 : Z) : process :=
  {| p_pid := pid; p_parent := parent; p_children := 0; p_sibling := 0;
     p_main_thread := 0; p_address_space := Some kernel_pml4;
     p_owns_address_space := false; p_exited := false; p_exit_code := 0;
     p_files := replicate MAX_FILES_PER_PROCESS 0; p_cwd := "/"; p_umask := 18;
     p_pgid := u32 pid; p_sid := u32 pid; p_creds := Creds 0 0 0 0 0 0;
     p_dumpable := true; p_heap_start := 0; p_heap_end := 0;
     p_vmas := replicate VMA_MAX no_vma; p_sigactions := replicate 64 no_sigaction |}.

(** What a child takes over from its parent. *)
Definition inherit (pp p : process) : process :=
  let p := set_p_sibling (p_children pp) p in
  let p := set_p_dumpable (p_dumpable pp) (set_p_umask (p_umask pp) p) in
  let p := if 1 <? p_pid pp then set_p_sid (p_sid pp) (set_p_pgid (p_pgid pp) p) else p in
  let p := set_p_creds (p_creds pp) p in
  let p := set_p_sigactions (p_sigactions pp) p in
  let p := set_p_cwd (String.substring 0 (TASK_CWD_MAX - 1) (p_cwd pp)) p in
  let p := set_p_heap_end (p_heap_end pp) (set_p_heap_start (p_heap_start pp) p) in
  set_p_files (p_files pp) p.

Definition process_create_with_parent (mem parent kernel_pml4 : Z) : SM Z :=
  if mem =? 0 then mret 0 else
  pid ← gets next_pid;
  modify (set_next_pid (pid +! 1));;
  let p := new_process pid parent kernel_pml4 in
  (if negb (parent =? 0) then
     pp ← rd_proc parent;
     upd_proc parent (set_p_children mem);;
     modify (λ s, set_procs (<[mem := inherit pp p]> (procs s)) s);;
     for_each (p_files pp) (λ f, when (negb (f =? 0)) (file_ref f))
   else modify (λ s, set_procs (<[mem := p]> (procs s)) s));;
  mret mem.

Fixpoint unlink_child (fuel : nat) (parent prev cursor child : Z) : SM unit :=
  if cursor =? 0 then mret () else
  match fuel with
  | O => spin
  | S fuel =>
      c ← rd_proc cursor;
      if cursor =? child then
        (if negb (prev =? 0) then upd_proc prev (set_p_sibling (p_sibling c))
         else upd_proc parent (set_p_children (p_sibling c)));;
        upd_proc cursor (set_p_sibling 0)
      else unlink_child fuel parent cursor (p_sibling c) child
  end.

Definition process_unlink_child (parent child : Z) : SM unit :=
  if (parent =? 0) || (child =? 0) then mret () else
  p ← rd_proc parent; fuel ← proc_fuel;
  unlink_child fuel parent 0 (p_children p) child.

Fixpoint reparent (fuel : nat) (proc init_p : Z) : SM unit :=
  p ← rd_proc proc;
  let child := p_children p in
  if child =? 0 then mret () else
  match fuel with
  | O => spin
  | S fuel =>
      c ← rd_proc child;
      upd_proc proc (set_p_children (p_sibling c));;
      i ← rd_proc init_p;
      upd_proc child (set_p_sibling (p_children i));;
      upd_proc init_p (set_p_children child);;
      upd_proc child (set_p_parent init_p);;
      reparent fuel proc init_p
  end.

Definition process_reparent_children (proc : Z) : SM unit :=
  if proc =? 0 then mret () else
  init_p ← gets init_process;
  if (init_p =? 0) || (init_p =? proc) then mret () else
  fuel ← proc_fuel; reparent fuel proc init_p.

(** ** Creating tasks *)

(** [*--stack = w] for each word: the list is in the order of the pushes. *)
Fixpoint push_words (sp : Z) (ws : list Z) (m : gmap Z Z) : gmap Z Z :=
  match ws with
  | [] => m
  | w :: ws => push_words (sp - 8) ws (<[sp - 8 := w]> m)
  end.

(** The frame [context_switch] pops: six registers, then the return address. *)
Definition switch_frame (task_trampoline : Z) : list Z :=
  [task_trampoline; 0; 0; 0; 0; 0; 0].

Definition new_task (pid tid : Z) (name : string) (cr3 stack entry arg proc parent now : Z)
    : task :=
  {| t_pid := pid; t_tid := tid; t_name := String.substring 0 (TASK_NAME_MAX - 1) name;
     t_state := TASK_READY; t_mode := TASK_MODE_KERNEL;
     t_saved_rsp := stack + KERNEL_STACK_SIZE - 56; t_cr3 := cr3;
     t_user_rip := 0; t_user_rsp := 0;
     t_kstack_base := stack; t_kstack_top := stack + KERNEL_STACK_SIZE;
     t_entry := entry; t_entry_arg := arg; t_process := proc; t_parent := parent;
     t_next := 0; t_wait_next := 0; t_wait_queue := 0;
     t_created_ticks := now; t_exit_code := 0; t_cancel_requested := false;
     t_priority := 0; t_static_priority := 0;
     t_time_slice := sched_prio_to_slice 0; t_time_slice_max := sched_prio_to_slice 0;
     t_total_ticks := 0; t_last_run_tick := now;
     t_sleep_until := 0; t_sleep_timed_out := false; t_flags := 0;
     t_signal_pending := 0; t_signal_blocked := 0;
     t_fs_base := 0; t_clear_child_tid := 0; t_futex_uaddr := 0; t_sleep_next := 0 |}.

(** [mem] and [stack] are the two answers of the heap, [task_trampoline] the
    address of the function. *)
Definition task_alloc (mem stack task_trampoline : Z) (name : string)
    (proc entry arg : Z) : SM Z :=
  if mem =? 0 then mret 0 else
  if stack =? 0 then mret 0 else
  modify (λ s, set_kstack
    (push_words (stack + KERNEL_STACK_SIZE) (switch_frame task_trampoline) (kstack s)) s);;
  p ← rd_proc proc;
  tid ← gets next_tid;
  modify (set_next_tid (tid +! 1));;
  cr3 ← deref (p_address_space p);
  current ← gets current_task; now ← gets ticks;
  modify (λ s, set_tasks (<[mem := new_task (p_pid p) tid name cr3 stack entry arg
    proc current now]> (tasks s)) s);;
  mret mem.

Definition as_idle (t : task) : task :=
  let t := set_t_flags TASK_FLAG_IDLE (set_t_state TASK_RUNNING t) in
  let t := set_t_static_priority SCHED_PRIO_MAX (set_t_priority SCHED_PRIO_MAX t) in
  let t := set_t_time_slice_max (sched_prio_to_slice SCHED_PRIO_MAX) t in
  set_t_time_slice (t_time_slice_max t) t.

Definition task_init (proc_mem mem stack task_trampoline kernel_pml4 : Z) : SM unit :=
  q ← gets reaper_queue;
  wait_queue_init q;;
  idle_process ← process_create_with_parent proc_mem 0 kernel_pml4;
  when (idle_process =? 0) (panic "Task: failed to allocate idle process");;
  modify (set_init_process idle_process);;
  idle ← task_alloc mem stack task_trampoline "idle" idle_process 0 0;
  when (idle =? 0) (panic "Task: failed to allocate idle task");;
  upd idle as_idle;;
  upd_proc idle_process (set_p_main_thread idle);;
  modify (set_current_task idle);;
  sched_add_task idle;;
  sched_set_idle_task idle.

Definition task_create_arg (proc_mem mem stack task_trampoline kernel_pml4 : Z)
    (name : string) (entry arg : Z) : SM Z :=
  if entry =? 0 then mret 0 else
  current ← gets current_task;
  parent ← (if negb (current =? 0) then c ← rd current; mret (t_process c) else mret 0);
  proc ← process_create_with_parent proc_mem parent kernel_pml4;
  if proc =? 0 then mret 0 else
  t ← task_alloc mem stack task_trampoline name proc entry arg;
  if t =? 0 then process_unlink_child parent proc;; kfree_proc proc;; mret 0 else
  upd_proc proc (set_p_main_thread t);;
  sched_add_task t;;
  mret t.

Definition task_create_user_process (mem stack task_trampoline : Z) (name : string)
    (proc entry : Z) : SM Z :=
  t ← task_alloc mem stack task_trampoline name proc entry 0;
  when (negb (t =? 0)) (sched_add_task t);;
  mret t.

Definition task_thread_create (mem stack task_trampoline : Z) (name : string)
    (proc entry arg : Z) : SM Z :=
  if (proc =? 0) || (entry =? 0) then mret 0 else
  t ← task_alloc mem stack task_trampoline name proc entry arg;
  if t =? 0 then mret 0 else
  sched_add_task t;; mret t.
