(* ===== verification/Signal.v ===== *)
(** * Signals and futex wake-ups: the second half of task.c *)

From S2P Require Import Prelude Links SchedState Sched WaitQueue Task.

Definition SIG_DFL : Z := 0.
Definition SIG_IGN : Z := 1.

(** SIGCHLD, SIGURG and SIGWINCH are ignored by default. *)
Definition default_ignored (sig : Z) : bool := (sig =? 17) || (sig =? 23) || (sig =? 28).

(** ** Process lookup *)

Fixpoint find_process_rec (fuel : nat) (root pid : Z) : SM Z :=
  if root =? 0 then mret 0 else
  match fuel with
  | O => spin
  | S fuel =>
      r ← rd_proc root;
      if p_pid r =? pid then mret root else
      (fix children (n : nat) (child : Z) : SM Z :=
         if child =? 0 then mret 0 else
         match n with
         | O => spin
         | S n =>
             found ← find_process_rec fuel child pid;
             if negb (found =? 0) then mret found else
             c ← rd_proc child; children n (p_sibling c)
         end) fuel (p_children r)
  end.

Definition find_process (pid : Z) : SM Z :=
  root ← gets init_process; fuel ← proc_fuel; find_process_rec (S fuel) root pid.

(** ** Sending *)

(** Whether the disposition of the receiver discards the signal. *)
Definition discards (act : sigaction) (sig : Z) : bool :=
  (sa_handler act =? SIG_IGN) || ((sa_handler act =? SIG_DFL) && default_ignored sig).

Definition sigbit (sig : Z) : Z := 1 <<! sig.

(** Take the sleeping task off its wait queue and the sleep list. *)
Definition interrupt_sleep (task : Z) : SM unit :=
  t ← rd task;
  when (negb (t_wait_queue t =? 0))
    (unlink_waiter (t_wait_queue t) task;;
     upd task (λ t, set_t_wait_queue 0 (set_t_wait_next 0 t)));;
  t ← rd task;
  when (negb (t_sleep_until t =? 0))
    (sched_remove_sleeper task;; upd task (set_t_sleep_until 0));;
  upd task (λ t, set_t_state TASK_READY (set_t_sleep_timed_out false t));;
  sched_add_task task.

Definition task_send_signal (task sig : Z) : SM unit :=
  if (task =? 0) || (sig <=? 0) || (64 <=? sig) then mret () else
  was_enabled ← save_interrupts_and_disable;
  t ← rd task;
  ignored ← (if negb (t_process t =? 0) then
               p ← rd_proc (t_process t);
               act ← deref (p_sigactions p !! Z.to_nat sig);
               mret (discards act sig)
             else mret false);
  (if (ignored : bool) then mret () else
   upd task (λ t, set_t_signal_pending (t_signal_pending t |! sigbit sig) t);;
   t ← rd task;
   when (bool_decide (t_state t = TASK_SLEEPING)
         && (t_signal_blocked t &! sigbit sig =? 0)) (interrupt_sleep task));;
  restore_interrupts was_enabled.

Fixpoint send_signal_pgid_rec (fuel : nat) (root pgid sig : Z) : SM unit :=
  if root =? 0 then mret () else
  match fuel with
  | O => spin
  | S fuel =>
      r ← rd_proc root;
      when ((p_pgid r =? pgid) && negb (p_main_thread r =? 0))
        (task_send_signal (p_main_thread r) sig);;
      (fix children (n : nat) (child : Z) : SM unit :=
         if child =? 0 then mret () else
         match n with
         | O => spin
         | S n =>
             send_signal_pgid_rec fuel child pgid sig;;
             c ← rd_proc child; children n (p_sibling c)
         end) fuel (p_children r)
  end.

Definition task_send_signal_pgid (pgid sig : Z) : SM unit :=
  root ← gets init_process; fuel ← proc_fuel;
  send_signal_pgid_rec (S fuel) root pgid sig.

(** ** Delivery *)

(** [struct syscall_frame]: the registers saved at system call entry. *)
Record syscall_frame := SyscallFrame {
  f_rax : Z; f_rcx : Z; f_rdi : Z; f_rsi : Z; f_rdx : Z; f_r8 : Z; f_r9 : Z; f_r10 : Z;
  f_r11 : Z; f_rbx : Z; f_rbp : Z; f_r12 : Z; f_r13 : Z; f_r14 : Z; f_r15 : Z;
  f_user_rsp : Z;
}.

Definition frame_words (f : syscall_frame) : list Z :=
  [f_rax f; f_rcx f; f_rdi f; f_rsi f; f_rdx f; f_r8 f; f_r9 f; f_r10 f;
   f_r11 f; f_rbx f; f_rbp f; f_r12 f; f_r13 f; f_r14 f; f_r15 f; f_user_rsp f].

Definition USER_CODE_RPL3 : Z := 35.
Definition USER_DATA_RPL3 : Z := 27.

(** [sizeof(struct rt_sigframe)] and the offsets of [info] and [uc] in it. *)
Definition sigframe_size : Z := 256.
Definition sigframe_info : Z := 8.
Definition sigframe_uc : Z := 24.

(** The words of the [struct rt_sigframe] that is copied to the user stack. *)
Definition sigframe_words (act : sigaction) (sig blocked : Z) (f : syscall_frame)
    : list Z :=
  [sa_restorer act; sig; 0;
   0; 0; 0; 0; 0;
   f_r8 f; f_r9 f; f_r10 f; f_r11 f; f_r12 f; f_r13 f; f_r14 f; f_r15 f;
   f_rdi f; f_rsi f; f_rbp f; f_rbx f; f_rdx f; f_rax f; f_rcx f; f_user_rsp f;
   f_rcx f; f_r11 f; USER_CODE_RPL3 |! (USER_DATA_RPL3 <<! 48);
   0; 0; 0; 0; blocked].

Definition signal_stack (f : syscall_frame) : Z := (f_user_rsp f -! sigframe_size) &! ~! 15.

(** The frame that enters the handler. *)
Definition handler_frame (act : sigaction) (sig : Z) (f : syscall_frame) : syscall_frame :=
  let sp := signal_stack f in
  SyscallFrame (f_rax f) (sa_handler act) sig (sp +! sigframe_info) (sp +! sigframe_uc)
    (f_r8 f) (f_r9 f) (f_r10 f) (f_r11 f) (f_rbx f) (f_rbp f) (f_r12 f) (f_r13 f)
    (f_r14 f) (f_r15 f) sp.

(** What the delivery of pending signals comes to. *)
Inductive verdict :=
| Nothing
| Exit (code : Z)
| Handler (sig : Z) (sp : Z) (words : list Z) (f : syscall_frame).

(** SIGKILL and SIGSTOP cannot be blocked. *)
Definition block_for (act : sigaction) (sig : Z) (t : task) : task :=
  set_t_signal_blocked
    ((t_signal_blocked t |! (sa_mask act |! sigbit sig))
       &! ~! (sigbit 9 |! sigbit 19)) t.

(** [ok] and [copied] are the answers of [uaccess_ok] and [copy_to_user] for
    the frame on the user stack; the pending set is scanned as it was at the
    start ([active]). *)
Definition deliver_one (ok copied : bool) (f : option syscall_frame) (task active sig : Z)
    : SM (option verdict) :=
  if active &! sigbit sig =? 0 then mret None else
  t ← rd task; p ← rd_proc (t_process t);
  act ← deref (p_sigactions p !! Z.to_nat sig);
  let clear := upd task (λ t, set_t_signal_pending (t_signal_pending t &! ~! (sigbit sig)) t) in
  if sa_handler act =? SIG_IGN then clear;; mret None else
  if sa_handler act =? SIG_DFL then
    clear;; (if default_ignored sig then mret None else mret (Some (Exit (- sig))))
  else match f with
  | None => mret None
  | Some f =>
      clear;;
      if negb ok then mret (Some (Exit (-11))) else
      let words := sigframe_words act sig (t_signal_blocked t) f in
      if negb copied then mret (Some (Exit (-11))) else
      upd task (block_for act sig);;
      mret (Some (Handler sig (signal_stack f) words (handler_frame act sig f)))
  end.

Definition deliver_signals (ok copied : bool) (f : option syscall_frame) : SM verdict :=
  task ← gets current_task;
  if task =? 0 then mret Nothing else
  t ← rd task;
  if bool_decide (t_state t ≠ TASK_RUNNING) || (t_process t =? 0) then mret Nothing else
  let active := t_signal_pending t &! ~! (t_signal_blocked t) in
  if active =? 0 then mret Nothing else
  v ← for_until 63 1 1 (deliver_one ok copied f task active);
  mret (default Nothing v).

(** ** Futex *)

Fixpoint futex_wake (fuel : nat) (curr uaddr val woken : Z) : SM Z :=
  if curr =? 0 then mret woken else
  match fuel with
  | O => spin
  | S fuel =>
      c ← rd curr;
      if bool_decide (t_state c = TASK_SLEEPING) && (t_futex_uaddr c =? uaddr) then
        upd curr (λ t, set_t_futex_uaddr 0 (set_t_state TASK_READY t));;
        let woken := i32 (woken + 1) in
        if val <=? woken then mret woken else futex_wake fuel (t_next c) uaddr val woken
      else futex_wake fuel (t_next c) uaddr val woken
  end.

Definition futex_wake_address (uaddr val : Z) : SM Z :=
  if uaddr =? 0 then mret 0 else
  was_enabled ← save_interrupts_and_disable;
  head ← sched_get_runqueue_head; fuel ← task_fuel;
  woken ← futex_wake fuel head uaddr val 0;
  restore_interrupts was_enabled;;
  mret woken.
