(* ===== verification/TaskLife.v ===== *)
(** * The life of a task: exit, kill, sleep, wait, fork and clone (task.c) *)

From S2P Require Import Prelude Links SchedState Sched WaitQueue Task Signal.

(** ** Leaving *)

(** [cleared] is the answer of [copy_to_user] for the thread id word. *)
Definition clear_child_tid (self : Z) (cleared : bool) : SM unit :=
  t ← rd self;
  when (negb (t_clear_child_tid t =? 0) && cleared)
    (futex_wake_address (t_clear_child_tid t) 1;; mret ()).

(** The process ends with its main thread. *)
Definition exit_process (proc exit_code : Z) : SM unit :=
  p ← rd_proc proc;
  any_alive ← (if negb (p_main_thread p =? 0) then
                 m ← rd (p_main_thread p); mret (bool_decide (t_state m ≠ TASK_ZOMBIE))
               else mret false);
  if (any_alive : bool) then mret () else
  upd_proc proc (λ p, set_p_exit_code exit_code (set_p_exited true p));;
  process_reparent_children proc;;
  p ← rd_proc proc;
  if p_parent p =? 0 then mret () else
  pp ← rd_proc (p_parent p);
  when (negb (p_main_thread pp =? 0)) (task_send_signal (p_main_thread pp) 17).

(** A task that is still the current one after [schedule] has returned. *)
Definition task_exit (cleared : bool) (exit_code : Z) : SM unit :=
  self ← gets current_task;
  if self =? 0 then panic "Task: task_exit with no current task" else
  clear_child_tid self cleared;;
  upd self (end_task exit_code);;
  t ← rd self;
  when (negb (t_process t =? 0)) (exit_process (t_process t) exit_code);;
  q ← gets reaper_queue;
  wait_queue_wake_all q;;
  schedule;;
  now ← gets current_task;
  if now =? self then panic "Task: schedule returned in task_exit" else mret ().

Definition task_deliver_signals (ok copied cleared : bool) (f : option syscall_frame)
    : SM verdict :=
  v ← deliver_signals ok copied f;
  match v with
  | Exit code => task_exit cleared code;; mret v
  | _ => mret v
  end.

Definition task_kill (task : Z) : SM unit :=
  current ← gets current_task;
  if (task =? 0) || (task =? current) then mret () else
  t ← rd task;
  if bool_decide (t_state t = TASK_ZOMBIE) then mret () else
  when (negb (t_sleep_until t =? 0))
    (sched_remove_sleeper task;; upd task (set_t_sleep_until 0));;
  upd task (set_t_sleep_timed_out false);;
  upd task (end_task (-1));;
  (if t_process t =? 0 then mret () else
   p ← rd_proc (t_process t);
   when (p_main_thread p =? task)
     (upd_proc (t_process t) (λ p, set_p_exit_code (-1) (set_p_exited true p));;
      process_reparent_children (t_process t)));;
  when (negb (t_wait_queue t =? 0))
    (unlink_waiter (t_wait_queue t) task;;
     upd task (λ t, set_t_wait_queue 0 (set_t_wait_next 0 t)));;
  q ← gets reaper_queue;
  wait_queue_wake_all q.

Definition task_request_cancel (task : Z) : SM unit :=
  if task =? 0 then mret () else upd task (set_t_cancel_requested true).

(** ** Priority and timed sleep *)

Definition clamp_priority (priority : Z) : Z :=
  let p := if priority <? SCHED_PRIO_MIN then SCHED_PRIO_MIN else priority in
  if SCHED_PRIO_MAX <? p then SCHED_PRIO_MAX else p.

Definition with_priority (priority : Z) (t : task) : task :=
  let p := clamp_priority priority in
  let t := set_t_static_priority p (set_t_priority p t) in
  let t := set_t_time_slice_max (sched_prio_to_slice p) t in
  if t_time_slice_max t <? t_time_slice t then set_t_time_slice (t_time_slice_max t) t else t.

Definition task_set_priority (task priority : Z) : SM unit :=
  if task =? 0 then mret () else upd task (with_priority priority).

Definition task_get_priority (task : Z) : SM Z :=
  if task =? 0 then mret 0 else t ← rd task; mret (t_priority t).

(** [None] when the function returns at once. *)
Definition task_sleep_ticks_enter (n : Z) : SM (option bool) :=
  self ← gets current_task;
  if (self =? 0) || (n =? 0) then mret None else
  was_enabled ← save_interrupts_and_disable;
  now ← gets ticks;
  upd self (λ t, set_t_sleep_timed_out false (set_t_state TASK_SLEEPING
    (set_t_sleep_until (now +! n) t)));;
  sched_add_sleeper self;;
  schedule;;
  mret (Some was_enabled).

(** Interrupts that were off stay off. *)
Definition task_sleep_ticks_return (self : Z) (was_enabled : bool) : SM unit :=
  upd self (λ t, set_t_sleep_timed_out false (set_t_sleep_next 0 (set_t_sleep_until 0 t)));;
  when was_enabled (set_if true).

Definition task_yield : SM unit := schedule.

(** ** Waiting for children *)

(** The first child in the list with the given property. *)
Fixpoint find_child (fuel : nat) (child : Z) (f : Z → process → SM bool) : SM Z :=
  if child =? 0 then mret 0 else
  match fuel with
  | O => spin
  | S fuel =>
      c ← rd_proc child;
      found ← f child c;
      if (found : bool) then mret child else find_child fuel (p_sibling c) f
  end.

Definition current_process : SM Z :=
  current ← gets current_task;
  if current =? 0 then mret 0 else c ← rd current; mret (t_process c).

Definition find_zombie_child (pid : Z) : SM Z :=
  proc ← current_process;
  if proc =? 0 then mret 0 else
  p ← rd_proc proc; fuel ← proc_fuel;
  child ← find_child fuel (p_children p) (λ _ c,
    if ((pid =? 0) || (p_pid c =? pid)) && negb (p_main_thread c =? 0)
    then m ← rd (p_main_thread c); mret (bool_decide (t_state m = TASK_ZOMBIE))
    else mret false);
  if child =? 0 then mret 0 else c ← rd_proc child; mret (p_main_thread c).

Definition has_unfinished_child (pid : Z) : SM bool :=
  proc ← current_process;
  if proc =? 0 then mret false else
  p ← rd_proc proc; fuel ← proc_fuel;
  child ← find_child fuel (p_children p) (λ _ c,
    mret (((pid =? 0) || (p_pid c =? pid)) && negb (p_main_thread c =? 0)));
  mret (negb (child =? 0)).

(** The zombie, its stack and its process are freed; the first component is
    the return value, the second what [*exit_code] receives. *)
Definition reap_zombie (zombie : Z) : SM (Z * Z) :=
  if zombie =? 0 then mret (-1, 0) else
  z ← rd zombie;
  let child := t_process z in
  proc ← current_process;
  process_unlink_child proc child;;
  sched_remove_task zombie;;
  kfree_task zombie;;
  (if child =? 0 then mret () else
   c ← rd_proc child;
   for_each (p_files c) file_close;;
   for_each (p_vmas c) (λ v, when (v_valid v && negb (v_anonymous v)) (file_close (v_file v)));;
   kfree_proc child);;
  mret (0, t_exit_code z).

(** The loops of [task_wait], [task_wait_any] and [task_join] sleep on the
    reaper queue between two rounds.  A round gives [inr] of the results, or
    [inl] of the saved interrupt flag when it has gone to sleep; [wait_resume]
    is the end of such a round. *)
Definition sleep_on_reaper : SM unit := q ← gets reaper_queue; wait_queue_sleep_locked_enter q.
Definition wait_resume (self : Z) (was_enabled : bool) : SM unit :=
  wait_queue_sleep_locked_return self;; restore_interrupts was_enabled.

Definition task_wait_round (pid : Z) : SM (bool + Z * Z) :=
  proc ← current_process;
  if proc =? 0 then mret (inr (-1, 0)) else
  was_enabled ← save_interrupts_and_disable;
  zombie ← find_zombie_child pid;
  if negb (zombie =? 0) then
    r ← reap_zombie zombie; restore_interrupts was_enabled;; mret (inr r)
  else
  unfinished ← has_unfinished_child pid;
  if negb unfinished then restore_interrupts was_enabled;; mret (inr (-1, 0)) else
  sleep_on_reaper;; mret (inl was_enabled).

(** The third component is [*out_pid]. *)
Definition task_wait_any_round : SM (bool + Z * Z * Z) :=
  proc ← current_process;
  if proc =? 0 then mret (inr (-1, 0, 0)) else
  was_enabled ← save_interrupts_and_disable;
  zombie ← find_zombie_child 0;
  if negb (zombie =? 0) then
    z ← rd zombie; r ← reap_zombie zombie;
    restore_interrupts was_enabled;; mret (inr (r, t_pid z))
  else
  p ← rd_proc proc;
  if p_children p =? 0 then restore_interrupts was_enabled;; mret (inr (-1, 0, 0)) else
  sleep_on_reaper;; mret (inl was_enabled).

Definition task_wait_nohang (pid : Z) : SM Z :=
  proc ← current_process;
  if proc =? 0 then mret (-1) else
  was_enabled ← save_interrupts_and_disable;
  zombie ← find_zombie_child pid;
  if negb (zombie =? 0) then
    z ← rd zombie;
    '(ret, _) ← reap_zombie zombie;
    restore_interrupts was_enabled;;
    mret (if ret =? 0 then i32 (t_pid z) else ret)
  else
    has_child ← has_unfinished_child pid;
    restore_interrupts was_enabled;;
    mret (if (has_child : bool) then 0 else -1).

Fixpoint find_thread (fuel : nat) (cursor tid proc : Z) : SM Z :=
  if cursor =? 0 then mret 0 else
  match fuel with
  | O => spin
  | S fuel =>
      c ← rd cursor;
      if (t_tid c =? tid) && (t_process c =? proc) then mret cursor
      else find_thread fuel (t_next c) tid proc
  end.

Definition task_join_round (tid : Z) : SM (bool + Z * Z) :=
  proc ← current_process;
  if proc =? 0 then mret (inr (-1, 0)) else
  self ← gets current_task; st ← rd self;
  if tid =? t_tid st then mret (inr (-1, 0)) else
  was_enabled ← save_interrupts_and_disable;
  head ← sched_get_runqueue_head; fuel ← task_fuel;
  target ← find_thread fuel head tid proc;
  if target =? 0 then restore_interrupts was_enabled;; mret (inr (-1, 0)) else
  t ← rd target;
  if bool_decide (t_state t = TASK_ZOMBIE) then
    sched_remove_task target;;
    kfree_task target;;
    restore_interrupts was_enabled;;
    mret (inr (0, t_exit_code t))
  else sleep_on_reaper;; mret (inl was_enabled).

(** ** Fork and clone *)

Definition CLONE_SETTLS : Z := 524288.
Definition CLONE_CHILD_CLEARTID : Z := 2097152.

(** The child's kernel stack: a copy of the system call frame at the top, the
    frame of the first context switch below it. *)
Definition child_stack_words (task_trampoline : Z) (f : syscall_frame) : list Z :=
  reverse (frame_words f) ++ switch_frame task_trampoline.

(** The fields [task_fork] and [task_clone_thread] fill in the same way; the
    memory comes from [kzalloc], so the others are 0. *)
Definition child_task (parent : task) (self pid tid cr3 user_rsp fs_base clear_tid stack
    fork_child_entry proc now : Z) : task :=
  {| t_pid := pid; t_tid := tid; t_name := t_name parent;
     t_state := TASK_READY; t_mode := t_mode parent;
     t_saved_rsp := stack + KERNEL_STACK_SIZE - 128 - 56; t_cr3 := cr3;
     t_user_rip := t_user_rip parent; t_user_rsp := user_rsp;
     t_kstack_base := stack; t_kstack_top := stack + KERNEL_STACK_SIZE;
     t_entry := fork_child_entry; t_entry_arg := stack + KERNEL_STACK_SIZE - 128;
     t_process := proc; t_parent := self;
     t_next := 0; t_wait_next := 0; t_wait_queue := 0;
     t_created_ticks := now; t_exit_code := 0; t_cancel_requested := false;
     t_priority := t_priority parent; t_static_priority := t_static_priority parent;
     t_time_slice := t_time_slice_max parent; t_time_slice_max := t_time_slice_max parent;
     t_total_ticks := 0; t_last_run_tick := 0;
     t_sleep_until := 0; t_sleep_timed_out := false;
     t_flags := t_flags parent &! (u32 (Z.lnot TASK_FLAG_IDLE));
     t_signal_pending := 0; t_signal_blocked := t_signal_blocked parent;
     t_fs_base := fs_base; t_clear_child_tid := clear_tid; t_futex_uaddr := 0;
     t_sleep_next := 0 |}.

Definition set_frame_rax (v : Z) (f : syscall_frame) : syscall_frame :=
  SyscallFrame v (f_rcx f) (f_rdi f) (f_rsi f) (f_rdx f) (f_r8 f) (f_r9 f) (f_r10 f)
    (f_r11 f) (f_rbx f) (f_rbp f) (f_r12 f) (f_r13 f) (f_r14 f) (f_r15 f) (f_user_rsp f).
Definition set_frame_rsp (v : Z) (f : syscall_frame) : syscall_frame :=
  SyscallFrame (f_rax f) (f_rcx f) (f_rdi f) (f_rsi f) (f_rdx f) (f_r8 f) (f_r9 f) (f_r10 f)
    (f_r11 f) (f_rbx f) (f_rbp f) (f_r12 f) (f_r13 f) (f_r14 f) (f_r15 f) v.

(** Undo the creation of a child process. *)
Definition drop_child (parent child : Z) : SM unit :=
  process_unlink_child parent child;; kfree_proc child.

(** [proc_mem], [mem] and [stack] are the answers of the heap, [cloned] the
    PML4 of the cloned address space. *)
Definition task_fork (proc_mem mem stack kernel_pml4 : Z) (cloned : option Z)
    (task_trampoline fork_child_entry : Z) (frame : syscall_frame) : SM Z :=
  self ← gets current_task;
  if self =? 0 then mret 0 else
  pt ← rd self;
  let parent_process := t_process pt in
  if parent_process =? 0 then mret 0 else
  child_process ← process_create_with_parent proc_mem parent_process kernel_pml4;
  if child_process =? 0 then mret 0 else
  match cloned with
  | None => drop_child parent_process child_process;; mret 0
  | Some pml4 =>
      pp ← rd_proc parent_process;
      upd_proc child_process (λ p, set_p_vmas (p_vmas pp)
        (set_p_owns_address_space true (set_p_address_space (Some pml4) p)));;
      for_each (p_vmas pp) (λ v,
        when (v_valid v && negb (v_anonymous v) && negb (v_file v =? 0)) (file_ref (v_file v)));;
      if (mem =? 0) || (stack =? 0)
      then drop_child parent_process child_process;; mret 0 else
      modify (λ s, set_kstack (push_words (stack + KERNEL_STACK_SIZE)
        (child_stack_words task_trampoline (set_frame_rax 0 frame)) (kstack s)) s);;
      cp ← rd_proc child_process;
      tid ← gets next_tid;
      modify (set_next_tid (tid +! 1));;
      now ← gets ticks;
      modify (λ s, set_tasks (<[mem := child_task pt self (p_pid cp) tid pml4 (t_user_rsp pt)
        (t_fs_base pt) 0 stack fork_child_entry child_process now]> (tasks s)) s);;
      upd_proc child_process (set_p_main_thread mem);;
      sched_add_task mem;;
      mret mem
  end.

Definition task_clone_thread (mem stack task_trampoline fork_child_entry : Z)
    (frame : syscall_frame) (flags child_stack child_tid newtls : Z) : SM Z :=
  self ← gets current_task;
  if self =? 0 then mret 0 else
  pt ← rd self;
  let proc := t_process pt in
  if proc =? 0 then mret 0 else
  if (mem =? 0) || (stack =? 0) then mret 0 else
  let frame := set_frame_rax 0 frame in
  let frame := if negb (child_stack =? 0) then set_frame_rsp child_stack frame else frame in
  modify (λ s, set_kstack (push_words (stack + KERNEL_STACK_SIZE)
    (child_stack_words task_trampoline frame) (kstack s)) s);;
  p ← rd_proc proc;
  tid ← gets next_tid;
  modify (set_next_tid (tid +! 1));;
  now ← gets ticks;
  modify (λ s, set_tasks (<[mem := child_task pt self (p_pid p) tid (t_cr3 pt)
    (if negb (child_stack =? 0) then child_stack else t_user_rsp pt)
    (if flags &! CLONE_SETTLS =? 0 then t_fs_base pt else newtls)
    (if flags &! CLONE_CHILD_CLEARTID =? 0 then 0 else child_tid)
    stack fork_child_entry proc now]> (tasks s)) s);;
  sched_add_task mem;;
  mret mem.
