(* ===== verification/Timer.v ===== *)
(** * The timer: pit.c and the interrupt dispatcher

    The programmable interval timer advances the tick counter; [irq_dispatch]
    runs the scheduler's tick and reschedules when a time slice has ended. *)

From S2P Require Import Prelude SchedState Sched.

Definition PIT_INPUT_CLOCK_HZ : Z := 1193182.
Definition PIT_DEFAULT_HZ : Z := 100.
Definition PIT_CHANNEL0 : Z := 0x40.
Definition PIT_COMMAND : Z := 0x43.
Definition PIT_MODE_RATE_GENERATOR : Z := 0x36.

(** The port writes, as pairs of port and byte. *)
Definition pit_init (frequency_hz : Z) : list (Z * Z) :=
  let frequency_hz := if frequency_hz =? 0 then PIT_DEFAULT_HZ else frequency_hz in
  let divisor := PIT_INPUT_CLOCK_HZ `div` frequency_hz in
  let divisor := if divisor =? 0 then 1 else divisor in
  let divisor := if 0xFFFF <? divisor then 0xFFFF else divisor in
  [(PIT_COMMAND, PIT_MODE_RATE_GENERATOR);
   (PIT_CHANNEL0, divisor &! 0xFF);
   (PIT_CHANNEL0, (divisor >>! 8) &! 0xFF)].

Definition pit_on_tick : SM unit := modify (λ s, set_ticks (ticks s +! 1) s).
Definition pit_ticks : SM Z := gets ticks.

(** [keyboard], [serial] and [virtio_net] are the handlers of the devices;
    sending the end of interrupt does not touch the scheduler's state. *)
Definition irq_dispatch (keyboard serial virtio_net : SM unit) (virtio_net_irq irq : Z)
    : SM unit :=
  reschedule ← (if irq =? 0 then pit_on_tick;; sched_tick;; sched_needs_resched
                else if irq =? 1 then keyboard;; mret false
                else if irq =? 4 then serial;; mret false
                else mret false);
  when (negb (virtio_net_irq =? 0xFF) && (irq =? virtio_net_irq)) virtio_net;;
  when reschedule schedule.

(** The timer interrupt, IRQ 0. *)
Definition timer_irq : SM unit := irq_dispatch (mret ()) (mret ()) (mret ()) 0xFF 0.
