(* ===== verification/SchedSpec.v ===== *)
(** * Lists of the scheduler

    What each queue operation does to the list it maintains.  An operation
    writes a few fields of a few tasks; [frame e s s'] says that the two
    states agree up to the fields that the erasure [e] clears. *)

From Stdlib Require Import Sorting.Sorted.
From S2P Require Import Prelude Bits Links SchedState Sched WaitQueue.

(** ** Memory accesses *)

Lemma wp_rd p t Q s : tasks s !! p = Some t → Q t s → wp (rd p) Q s.
Proof. intros H HQ. unfold rd. wp_steps. by eapply wp_deref. Qed.

Lemma alter_insert {T} (f : T → T) (m : gmap Z T) p t :
  m !! p = Some t → <[p := f t]> m = alter f p m.
Proof.
  intros H. apply map_eq. intros q. destruct (decide (q = p)) as [->|Hq].
  - by rewrite lookup_insert_eq, lookup_alter_eq, H.
  - by rewrite lookup_insert_ne, lookup_alter_ne.
Qed.

Lemma wp_upd p f Q s :
  is_Some (tasks s !! p) → Q () (set_tasks (alter f p (tasks s)) s) → wp (upd p f) Q s.
Proof.
  intros [t H] HQ. unfold upd. wp_step. eapply wp_rd; [done|]. apply wp_modify.
  by rewrite (alter_insert f).
Qed.

Lemma wp_rd_proc p x Q s : procs s !! p = Some x → Q x s → wp (rd_proc p) Q s.
Proof. intros H HQ. unfold rd_proc. wp_steps. by rewrite H. Qed.

Lemma wp_rd_wq q w Q s : wqs s !! q = Some w → Q w s → wp (rd_wq q) Q s.
Proof. intros H HQ. unfold rd_wq. wp_steps. by eapply wp_deref. Qed.

Lemma wp_upd_wq q f Q s :
  is_Some (wqs s !! q) → Q () (set_wqs (alter f q (wqs s)) s) → wp (upd_wq q f) Q s.
Proof.
  intros [t H] HQ. unfold upd_wq. wp_step. eapply wp_rd_wq; [done|]. apply wp_modify.
  by rewrite (alter_insert f).
Qed.

(** ** Frames *)

Definition frame {S : Type} (e : S → S) (s s' : S) : Prop := e s = e s'.

#[global] Instance frame_equiv {S} (e : S → S) : Equivalence (frame e).
Proof. unfold frame. split; [done | by intros ?? -> | by intros ??? -> ->]. Qed.

(** A field that the erasure does not touch is the same. *)
Lemma frame_get {S A} (g : S → A) e s s' :
  frame e s s' → (∀ s, g (e s) = g s) → g s = g s'.
Proof. intros H Hg. by rewrite <-(Hg s), H. Qed.

(** The same for a field of a record in the heap. *)
Lemma erase_lookup {T A} (e : T → T) (g : T → A) (m m' : gmap Z T) p :
  e <$> m = e <$> m' → (∀ t, g (e t) = g t) → g <$> m !! p = g <$> m' !! p.
Proof.
  intros H Hg. apply (f_equal (.!! p)) in H. rewrite !lookup_fmap in H.
  destruct (m !! p), (m' !! p); simpl in *; try done. injection H as H.
  f_equal. by rewrite <-Hg, H.
Qed.

Lemma erase_Some {T} (e : T → T) (m m' : gmap Z T) p t :
  e <$> m = e <$> m' → m !! p = Some t → ∃ t', m' !! p = Some t' ∧ e t = e t'.
Proof.
  intros H Ht. apply (f_equal (.!! p)) in H. rewrite !lookup_fmap, Ht in H.
  destruct (m' !! p) as [t'|]; simpl in *; [|done]. injection H as H. eauto.
Qed.

Lemma erase_alter {T} (e g : T → T) (m : gmap Z T) p :
  (∀ t, e (g t) = e t) → e <$> alter g p m = e <$> m.
Proof.
  intros He. apply map_eq. intros q. rewrite !lookup_fmap.
  destruct (decide (q = p)) as [->|Hq]; [|by rewrite lookup_alter_ne].
  rewrite lookup_alter_eq. destruct (m !! p); simpl; [|done]. by rewrite He.
Qed.

Lemma erase_size {T} (e : T → T) (m m' : gmap Z T) :
  e <$> m = e <$> m' → size m = size m'.
Proof. intros H. by rewrite <-(map_size_fmap e m), H, map_size_fmap. Qed.

Lemma seg_erase {T} (e : T → T) f (m m' : gmap Z T) h l x :
  e <$> m = e <$> m' → (∀ t, f (e t) = f t) → seg f m h l x → seg f m' h l x.
Proof.
  intros He Hf Hs. eapply seg_ext; [done|]. intros p _.
  by rewrite (erase_lookup e f m m' p).
Qed.

(** ** The ready queue *)

Record rq_inv (s : sched) (rq : list Z) : Prop := {
  rq_seg : seg t_next (tasks s) (runqueue_head s) rq 0;
  rq_tail : runqueue_tail s = last_or_null rq;
  rq_count : task_count s = Z.of_nat (length rq);
  rq_unlocked : runqueue_lock s = false;
  rq_bound : Z.of_nat (size (tasks s)) < 2 ^ 64;
}.

(** What the ready-queue operations write. *)
Definition erase_rq (s : sched) : sched :=
  set_tasks (set_t_next 0 <$> tasks s)
    (set_runqueue_head 0 (set_runqueue_tail 0 (set_task_count 0 s))).

Definition add_once (p : Z) (l : list Z) : list Z :=
  if bool_decide (p ∈ l) then l else l ++ [p].

Lemma on_runqueue_run fuel p s cursor l :
  seg t_next (tasks s) cursor l 0 → (length l ≤ fuel)%nat →
  on_runqueue fuel cursor p s = Done (bool_decide (p ∈ l), s).
Proof.
  revert fuel cursor. induction l as [|x l IH]; intros fuel cursor Hs Hf.
  - simpl in Hs. subst. by destruct fuel.
  - destruct Hs as (-> & Hx & t & Ht & Hl). simpl in Hf.
    destruct fuel as [|fuel]; [lia|]. simpl.
    rewrite (proj2 (Z.eqb_neq _ _) Hx). destruct (Z.eqb_spec x p) as [->|Hne].
    + rewrite bool_decide_true by left. done.
    + apply wp_eq. wp_step. eapply wp_rd; [done|]. apply wp_eq.
      rewrite (IH fuel (t_next t)) by (done || lia). repeat f_equal.
      apply bool_decide_ext. rewrite elem_of_cons. naive_solver.
Qed.

Lemma rq_length s rq : rq_inv s rq → (length rq ≤ size (tasks s))%nat.
Proof. intros H. by eapply seg_length, seg_nodup, H; apply H. Qed.

Lemma wp_lock Q s :
  runqueue_lock s = false → Q () (set_runqueue_lock true s) → wp lock_runqueue Q s.
Proof. intros H HQ. unfold lock_runqueue. wp_step. wp_step. by rewrite H. Qed.

Lemma unlock_erase s : runqueue_lock s = false →
  set_runqueue_lock false (set_runqueue_lock true s) = s.
Proof. destruct s; simpl. by intros ->. Qed.

Lemma alter_is_Some {T} (g : T → T) (m : gmap Z T) p q :
  is_Some (m !! q) → is_Some (alter g p m !! q).
Proof. by rewrite lookup_alter_is_Some. Qed.
#[export] Hint Resolve alter_is_Some : core.

Lemma wp_sched_add_task p rq Q s :
  rq_inv s rq → is_Some (tasks s !! p) → p ≠ 0 →
  (∀ s', rq_inv s' (add_once p rq) → frame erase_rq s s' → Q () s') →
  wp (sched_add_task p) Q s.
Proof.
  intros Hrq [t Ht] Hp HQ. unfold sched_add_task.
  rewrite (proj2 (Z.eqb_neq _ _) Hp). pose proof (rq_length _ _ Hrq) as Hfuel.
  destruct Hrq as [Hs Htl Hc Hl Hb].
  wp_step. apply wp_lock; [done|]. wp_step. apply wp_gets. wp_step. apply wp_gets.
  wp_step. eapply wp_of_run; [by apply (on_runqueue_run _ p _ _ rq)|].
  unfold add_once in HQ. destruct (bool_decide_reflect (p ∈ rq)) as [Hin|Hout].
  { unfold unlock_runqueue. apply wp_modify. rewrite unlock_erase by done.
    by apply HQ. }
  pose proof (seg_append t_next (alter (set_t_next 0) p (tasks s)) (runqueue_head s) rq p
    (set_t_next p) (set_t_next 0 t) (seg_alter_out _ _ _ _ _ p _ Hs Hout) Hout Hp
    ltac:(by rewrite lookup_alter_eq, Ht) eq_refl ltac:(done)) as Happ.
  cbv zeta in Happ.
  wp_step. apply wp_upd; [done|]. wp_step. apply wp_gets. cbn. rewrite Htl.
  wp_step. apply (wp_mono _ (λ _ s', s' = if last_or_null rq =? 0
    then set_runqueue_head p (set_tasks (alter (set_t_next 0) p (tasks s)) (set_runqueue_lock true s))
    else set_tasks (alter (set_t_next p) (last_or_null rq) (alter (set_t_next 0) p (tasks s)))
      (set_runqueue_lock true s))).
  { destruct (Z.eqb_spec (last_or_null rq) 0) as [Hz|Hz]; cbn [negb]; [by apply wp_modify|].
    apply wp_upd; [|done]. apply alter_is_Some.
    by apply (seg_in _ _ _ _ _ _ Hs), last_or_null_in. }
  intros [] s' ->. unfold unlock_runqueue. wp_steps. apply HQ.
  - assert (size (tasks s) = size (if last_or_null rq =? 0 then alter (set_t_next 0) p (tasks s)
        else alter (set_t_next p) (last_or_null rq) (alter (set_t_next 0) p (tasks s)))) as Hsz.
    { apply (erase_size (set_t_next 0)).
      destruct (last_or_null rq =? 0); by rewrite !erase_alter. }
    pose proof (seg_length _ _ _ _ _ Happ (seg_nodup _ _ _ _ Happ)) as Hlen.
    rewrite <-Hsz, length_app in Hlen. simpl in Hlen.
    split; [|cbn; by rewrite last_or_null_snoc| |done|];
      destruct (last_or_null rq =? 0); cbn in *; [done|done| | |lia|lia];
      rewrite length_app, Hc, u64_small; simpl; lia.
  - unfold frame, erase_rq. destruct (last_or_null rq =? 0); cbn;
      rewrite !erase_alter by done; destruct s; cbn in *; by subst.
Qed.

(** Removal from a list without repetition. *)
Definition without (p : Z) (l : list Z) : list Z := filter (λ x, x ≠ p) l.

Lemma without_out p l : p ∉ l → without p l = l.
Proof.
  unfold without. intros Hp. induction l as [|x l IH]; [done|].
  rewrite filter_cons_True, IH; set_solver.
Qed.

Lemma without_middle p l1 l2 : NoDup (l1 ++ p :: l2) → without p (l1 ++ p :: l2) = l1 ++ l2.
Proof.
  intros (_ & Hd & Hn)%NoDup_app. apply NoDup_cons in Hn as [Hp _]. unfold without.
  rewrite filter_app, filter_cons_False by naive_solver.
  fold (without p l1) (without p l2). rewrite !without_out; [done|done|].
  intros Hin. apply (Hd p Hin). by left.
Qed.

Lemma elem_of_without p q l : q ∈ without p l ↔ q ∈ l ∧ q ≠ p.
Proof. unfold without. rewrite list_elem_of_filter. naive_solver. Qed.

Lemma NoDup_without p l : NoDup l → NoDup (without p l).
Proof. apply NoDup_filter. Qed.

(** The tail pointer after an unlinking. *)
Lemma last_or_null_unlink l1 p l2 :
  NoDup (l1 ++ p :: l2) → p ≠ 0 →
  (if last_or_null (l1 ++ p :: l2) =? p then last_or_null l1
   else last_or_null (l1 ++ p :: l2)) = last_or_null (l1 ++ l2).
Proof.
  intros Hnd Hp. destruct l2 as [|x l2 _] using rev_ind.
  - by rewrite last_or_null_snoc, Z.eqb_refl, app_nil_r.
  - rewrite app_comm_cons, !app_assoc, !last_or_null_snoc.
    apply NoDup_app in Hnd as (_ & _ & Hnd). apply NoDup_cons in Hnd as [Hpx _].
    rewrite (proj2 (Z.eqb_neq x p)) by set_solver. done.
Qed.

(** The state after [p], which follows [l1], has left the ready queue. *)
Definition rq_unlinked (l1 : list Z) (p : Z) (u : task) (s : sched) : sched :=
  let x := last_or_null l1 in
  let m := if x =? 0 then tasks s else alter (set_t_next (t_next u)) x (tasks s) in
  set_tasks (alter (set_t_next 0) p m)
    (set_runqueue_head (if x =? 0 then t_next u else runqueue_head s)
    (set_runqueue_tail (if runqueue_tail s =? p then x else runqueue_tail s)
    (set_task_count (if 0 <? task_count s then task_count s -! 1 else task_count s) s))).

Lemma remove_from_runqueue_skip fuel prev cursor p s l :
  seg t_next (tasks s) cursor l 0 → p ∉ l → (length l ≤ fuel)%nat →
  remove_from_runqueue fuel prev cursor p s = Done ((), s).
Proof.
  revert fuel prev cursor. induction l as [|x l IH]; intros fuel prev cursor Hs Hp Hf.
  { simpl in Hs. subst. by destruct fuel. }
  destruct Hs as (-> & Hx & t & Ht & Hl). destruct fuel as [|fuel]; simpl in Hf; [lia|].
  simpl. rewrite (proj2 (Z.eqb_neq _ _) Hx). apply wp_eq. wp_step. eapply wp_rd; [done|].
  rewrite (proj2 (Z.eqb_neq x p)) by set_solver. apply wp_eq. apply IH; [done|set_solver|lia].
Qed.

Lemma remove_from_runqueue_run fuel cursor p u s done l1 l2 :
  seg t_next (tasks s) (runqueue_head s) (done ++ l1 ++ p :: l2) 0 →
  seg t_next (tasks s) cursor (l1 ++ p :: l2) 0 →
  tasks s !! p = Some u → (length (l1 ++ p :: l2) ≤ fuel)%nat →
  remove_from_runqueue fuel (last_or_null done) cursor p s =
    Done ((), rq_unlinked (done ++ l1) p u s).
Proof.
  revert fuel done cursor. induction l1 as [|x l1 IH]; intros fuel done cursor Hs Hc Hu Hf.
  - destruct Hc as (-> & Hp & t & Ht & Hl). assert (t = u) as -> by congruence.
    rewrite app_nil_r. destruct fuel as [|fuel]; simpl in Hf; [lia|]. apply wp_eq. simpl.
    rewrite (proj2 (Z.eqb_neq _ _) Hp). wp_step. eapply wp_rd; [by rewrite Ht|].
    rewrite Z.eqb_refl. unfold rq_unlinked.
    wp_step. eapply wp_mono with (Q := λ _ s', s' =
      if last_or_null done =? 0 then set_runqueue_head (t_next u) s
      else set_tasks (alter (set_t_next (t_next u)) (last_or_null done) (tasks s)) s).
    { destruct (Z.eqb_spec (last_or_null done) 0) as [Hz|Hz]; cbn [negb]; [by apply wp_modify|].
      apply wp_upd; [|done]. eapply seg_in; [exact Hs|].
      apply elem_of_app. left. by apply last_or_null_in. }
    intros [] s' ->. wp_step. apply wp_gets. wp_step.
    destruct (last_or_null done =? 0), (runqueue_tail s =? p) eqn:Et, (0 <? task_count s) eqn:Ec;
      cbn; rewrite ?Et; cbn; unfold when;
      repeat (wp_step; cbn); (apply wp_upd; [cbn; by eauto|]); wp_steps; cbn in *;
      rewrite ?Ec; wp_steps; (split; [done|]); destruct s; cbn in *; first [reflexivity | congruence].
  - destruct Hc as (-> & Hx & t & Ht & Hl). destruct fuel as [|fuel]; simpl in Hf; [lia|].
    apply wp_eq. simpl. rewrite (proj2 (Z.eqb_neq _ _) Hx). wp_step. eapply wp_rd; [done|].
    pose proof (seg_nodup _ _ _ _ Hs) as (_ & _ & Hnd)%NoDup_app.
    rewrite (proj2 (Z.eqb_neq x p)) by (apply NoDup_app in Hnd as (_ & Hd & _); set_solver).
    apply wp_eq. specialize (IH fuel (done ++ [x]) (t_next t)).
    rewrite last_or_null_snoc, <-!app_assoc in IH. apply IH; [done|done|done|simpl in *; lia].
Qed.

Lemma wp_sched_remove_task p rq Q s :
  rq_inv s rq →
  (∀ s', rq_inv s' (if bool_decide (p = current_task s) then rq else without p rq) →
    frame erase_rq s s' → Q () s') →
  wp (sched_remove_task p) Q s.
Proof.
  intros Hrq HQ. unfold sched_remove_task. wp_step. apply wp_gets.
  pose proof (rq_length _ _ Hrq) as Hfuel.
  assert (∀ l, p ∉ l → (if bool_decide (p = current_task s) then l else without p l) = l)
    as Hsame by (intros l Hl; rewrite without_out by done; by destruct (bool_decide _)).
  destruct Hrq as [Hs Htl Hc Hl Hb].
  destruct (Z.eqb_spec p 0) as [->|Hp0]; cbn [orb].
  { apply wp_ret, HQ; [|done]. rewrite Hsame by (by eapply seg_not_null). done. }
  destruct (Z.eqb_spec p (current_task s)) as [->|Hcur].
  { apply wp_ret, HQ; [|done]. by rewrite bool_decide_true. }
  wp_step. apply wp_lock; [done|]. wp_step. apply wp_gets. wp_step. apply wp_gets. wp_step.
  destruct (decide (p ∈ rq)) as [Hin|Hout].
  - apply list_elem_of_split in Hin as (l1 & l2 & ->).
    pose proof (seg_nodup _ _ _ _ Hs) as Hnd.
    destruct (seg_in _ _ _ _ _ p Hs) as [_ [u Hu]]; [set_solver|].
    eapply wp_of_run; [by apply (remove_from_runqueue_run _ _ _ u _ [] l1 l2)|].
    unfold unlock_runqueue. apply wp_modify, HQ.
    + rewrite bool_decide_false, without_middle by done. unfold rq_unlinked. split; cbn; [| | |done|].
      * pose proof (seg_unlink _ _ _ _ _ _ u (set_t_next (t_next u)) Hs Hu ltac:(done)) as Hun.
        cbv zeta in Hun. apply seg_alter_out; [done|].
        apply NoDup_app in Hnd as (_ & Hd & Hn). apply NoDup_cons in Hn as [Hn _].
        set_solver.
      * rewrite Htl. by apply last_or_null_unlink.
      * rewrite Hc, !length_app. simpl.
        rewrite length_app in Hfuel. simpl in Hfuel.
        destruct (Z.ltb_spec 0 (Z.of_nat (length l1 + S (length l2)))); [|lia].
        rewrite u64_small; lia.
      * rewrite <-(erase_size (set_t_next 0) (tasks s)); [done|].
        destruct (last_or_null l1 =? 0); by rewrite !erase_alter.
    + unfold frame, erase_rq, rq_unlinked. cbn.
      destruct (last_or_null l1 =? 0); rewrite !erase_alter by done; destruct s; cbn in *; by subst.
  - eapply wp_of_run; [by apply (remove_from_runqueue_skip _ _ _ _ _ rq)|].
    unfold unlock_runqueue. apply wp_modify. rewrite unlock_erase by done. apply HQ; [|done].
    by rewrite Hsame.
Qed.

(** ** The sleep list *)

Definition deadline (m : gmap Z task) (p : Z) : Z := default 0 (t_sleep_until <$> m !! p).

Record sl_inv (s : sched) (sl : list Z) : Prop := {
  sl_seg : seg t_sleep_next (tasks s) (sleep_list_head s) sl 0;
  sl_sorted : StronglySorted Z.le (deadline (tasks s) <$> sl);
}.

(** What the sleep-list operations write. *)
Definition erase_sl (s : sched) : sched :=
  set_tasks (set_t_sleep_next 0 <$> tasks s) (set_sleep_list_head 0 s).

(** Insertion after the tasks with the same deadline. *)
Fixpoint insert_by (m : gmap Z task) (p : Z) (l : list Z) : list Z :=
  match l with
  | [] => [p]
  | q :: l' => if deadline m q <=? deadline m p then q :: insert_by m p l' else p :: l
  end.

Lemma deadline_erase e m m' p :
  e <$> m = e <$> m' → (∀ t, t_sleep_until (e t) = t_sleep_until t) →
  deadline m p = deadline m' p.
Proof. intros He Hg. unfold deadline. by rewrite (erase_lookup e t_sleep_until m m' p). Qed.

Lemma insert_by_perm m p l : insert_by m p l ≡ₚ p :: l.
Proof.
  induction l as [|q l IH]; simpl; [done|]. destruct (_ <=? _); [|done].
  rewrite IH. apply Permutation_swap.
Qed.

Lemma insert_by_sorted m p l :
  StronglySorted Z.le (deadline m <$> l) →
  StronglySorted Z.le (deadline m <$> insert_by m p l).
Proof.
  induction l as [|q l IH]; simpl; [repeat constructor|].
  intros [Hs Hq]%StronglySorted_inv. destruct (Z.leb_spec (deadline m q) (deadline m p)).
  - simpl. constructor; [by apply IH|]. rewrite insert_by_perm. simpl. by constructor.
  - simpl. constructor; [by constructor|]. constructor; [lia|].
    eapply Forall_impl; [done|]. simpl. lia.
Qed.

Lemma sleep_position_run fuel s cursor p l done :
  seg t_sleep_next (tasks s) cursor l 0 → (length l ≤ fuel)%nat →
  ∃ l1 l2 c, l = l1 ++ l2 ∧ insert_by (tasks s) p l = l1 ++ p :: l2 ∧
    seg t_sleep_next (tasks s) c l2 0 ∧
    sleep_position fuel (last_or_null done) cursor (deadline (tasks s) p) s =
      Done ((last_or_null (done ++ l1), c), s).
Proof.
  revert fuel cursor done. induction l as [|x l IH]; intros fuel cursor done Hs Hf.
  - exists [], [], 0. simpl in Hs. subst cursor. rewrite (app_nil_r done).
    do 3 (split; [done|]). by destruct fuel.
  - destruct Hs as (-> & Hx & t & Ht & Hl). destruct fuel as [|fuel]; simpl in Hf; [lia|].
    simpl. rewrite (proj2 (Z.eqb_neq _ _) Hx).
    assert (deadline (tasks s) x = t_sleep_until t) as Hdx by (unfold deadline; by rewrite Ht).
    rewrite Hdx. destruct (Z.leb_spec (t_sleep_until t) (deadline (tasks s) p)).
    + destruct (IH fuel (t_sleep_next t) (done ++ [x])) as (l1 & l2 & c & -> & Hi & Hc & Hr);
        [done|lia|]. exists (x :: l1), l2, c. rewrite Hi. do 3 (split; [done|]).
      rewrite last_or_null_snoc, <-app_assoc in Hr.
      apply wp_eq. wp_step. eapply wp_rd; [done|]. rewrite (proj2 (Z.leb_le _ _)) by done.
      apply wp_eq. exact Hr.
    + exists [], (x :: l), x. rewrite (app_nil_r done). do 2 (split; [done|]). split; [by simpl; eauto 10|].
      apply wp_eq. wp_step. eapply wp_rd; [done|]. by rewrite (proj2 (Z.leb_gt _ _)).
Qed.

Lemma sl_length s sl : sl_inv s sl → (length sl ≤ size (tasks s))%nat.
Proof. intros H. by eapply seg_length, seg_nodup, H; apply H. Qed.

(** The sorted deadlines only depend on the deadlines. *)
Lemma sorted_erase e m m' l :
  e <$> m = e <$> m' → (∀ t, t_sleep_until (e t) = t_sleep_until t) →
  StronglySorted Z.le (deadline m <$> l) → StronglySorted Z.le (deadline m' <$> l).
Proof.
  intros He Hg. rewrite (list_fmap_ext (deadline m) (deadline m') l); [done|].
  intros i x _. by eapply deadline_erase.
Qed.

Lemma wp_sched_add_sleeper p sl Q s :
  sl_inv s sl → is_Some (tasks s !! p) → p ≠ 0 → p ∉ sl →
  (∀ s', sl_inv s' (insert_by (tasks s) p sl) → frame erase_sl s s' → Q () s') →
  wp (sched_add_sleeper p) Q s.
Proof.
  intros Hsl [t Ht] Hp Hout HQ. unfold sched_add_sleeper.
  rewrite (proj2 (Z.eqb_neq _ _) Hp). pose proof (sl_length _ _ Hsl) as Hfuel.
  destruct Hsl as [Hs Hso]. wp_step. eapply wp_rd; [done|].
  wp_step. apply wp_gets. wp_step. apply wp_gets.
  replace (t_sleep_until t) with (deadline (tasks s) p) by (unfold deadline; by rewrite Ht).
  destruct (sleep_position_run _ _ _ p _ [] Hs Hfuel) as (l1 & l2 & c & -> & Hi & Hc & Hr).
  wp_step. eapply wp_of_run; [exact Hr|]. cbn [app] in *.
  pose proof (seg_insert _ _ _ l1 l2 p c t (set_t_sleep_next c) (set_t_sleep_next p)
    Hs Hc Hout Hp Ht ltac:(done) ltac:(done)) as Hins. cbv zeta in Hins.
  wp_step. apply wp_upd; [done|].
  assert (set_t_sleep_next 0 <$> tasks s = set_t_sleep_next 0 <$>
    (if last_or_null l1 =? 0 then alter (set_t_sleep_next c) p (tasks s)
     else alter (set_t_sleep_next p) (last_or_null l1)
       (alter (set_t_sleep_next c) p (tasks s)))) as He
    by (destruct (_ =? 0); by rewrite !erase_alter).
  pose proof (sorted_erase _ _ _ _ He ltac:(done) (insert_by_sorted _ p _ Hso)) as Hso'.
  rewrite Hi in *.
  destruct (Z.eqb_spec (last_or_null l1) 0) as [Hz|Hz]; cbn [negb].
  - apply wp_modify, HQ; [done|]. unfold frame, erase_sl. cbn. by rewrite He.
  - apply wp_upd; [cbn; apply alter_is_Some|].
    { eapply seg_in; [exact Hs|]. apply elem_of_app. left. by apply last_or_null_in. }
    apply HQ; [done|]. unfold frame, erase_sl. cbn. by rewrite He.
Qed.

(** The state after [p], which follows [l1], has left the sleep list. *)
Definition sl_unlinked (l1 : list Z) (u : task) (s : sched) : sched :=
  let x := last_or_null l1 in
  if x =? 0 then set_sleep_list_head (t_sleep_next u) s
  else set_tasks (alter (set_t_sleep_next (t_sleep_next u)) x (tasks s)) s.

Lemma remove_from_sleepers_skip fuel prev cursor p s l :
  seg t_sleep_next (tasks s) cursor l 0 → p ∉ l → (length l ≤ fuel)%nat →
  remove_from_sleepers fuel prev cursor p s = Done ((), s).
Proof.
  revert fuel prev cursor. induction l as [|x l IH]; intros fuel prev cursor Hs Hp Hf.
  { simpl in Hs. subst. by destruct fuel. }
  destruct Hs as (-> & Hx & t & Ht & Hl). destruct fuel as [|fuel]; simpl in Hf; [lia|].
  simpl. rewrite (proj2 (Z.eqb_neq _ _) Hx). apply wp_eq. wp_step. eapply wp_rd; [done|].
  rewrite (proj2 (Z.eqb_neq x p)) by set_solver. apply wp_eq. apply IH; [done|set_solver|lia].
Qed.

Lemma remove_from_sleepers_run fuel cursor p u s done l1 l2 :
  seg t_sleep_next (tasks s) (sleep_list_head s) (done ++ l1 ++ p :: l2) 0 →
  seg t_sleep_next (tasks s) cursor (l1 ++ p :: l2) 0 →
  tasks s !! p = Some u → (length (l1 ++ p :: l2) ≤ fuel)%nat →
  remove_from_sleepers fuel (last_or_null done) cursor p s =
    Done ((), sl_unlinked (done ++ l1) u s).
Proof.
  revert fuel done cursor. induction l1 as [|x l1 IH]; intros fuel done cursor Hs Hc Hu Hf;
    (destruct fuel as [|fuel]; [simpl in Hf; lia|]);
    destruct Hc as (-> & Hx & t & Ht & Hl); simpl; rewrite (proj2 (Z.eqb_neq _ _) Hx);
    apply wp_eq; wp_step; (eapply wp_rd; [exact Ht|]).
  - assert (t = u) as -> by congruence. rewrite app_nil_r, Z.eqb_refl. unfold sl_unlinked.
    destruct (Z.eqb_spec (last_or_null done) 0) as [Hz|Hz]; cbn [negb]; [by apply wp_modify|].
    apply wp_upd; [|done]. eapply seg_in; [exact Hs|].
    apply elem_of_app. left. by apply last_or_null_in.
  - pose proof (seg_nodup _ _ _ _ Hs) as (_ & _ & Hnd)%NoDup_app.
    rewrite (proj2 (Z.eqb_neq x p)) by (apply NoDup_app in Hnd as (_ & Hd & _); set_solver).
    apply wp_eq. specialize (IH fuel (done ++ [x]) (t_sleep_next t)).
    rewrite last_or_null_snoc, <-!app_assoc in IH. apply IH; [done|done|done|simpl in *; lia].
Qed.

Lemma sorted_filter (P : Z → Prop) `{!∀ x, Decision (P x)} d l :
  StronglySorted Z.le (d <$> l) → StronglySorted Z.le (d <$> filter P l).
Proof.
  induction l as [|x l IH]; [done|]. simpl.
  intros [Hs Hx]%StronglySorted_inv. rewrite filter_cons. destruct (decide (P x)); [|by apply IH].
  simpl. constructor; [by apply IH|]. rewrite Forall_fmap in *.
  apply Forall_forall. intros y [_ Hy]%list_elem_of_filter.
  by eapply Forall_forall in Hx; [|done].
Qed.

Lemma wp_sched_remove_sleeper p sl Q s :
  sl_inv s sl →
  (∀ s', sl_inv s' (without p sl) → frame erase_sl s s' → Q () s') →
  wp (sched_remove_sleeper p) Q s.
Proof.
  intros Hsl HQ. unfold sched_remove_sleeper. pose proof (sl_length _ _ Hsl) as Hfuel.
  destruct Hsl as [Hs Hso]. destruct (Z.eqb_spec p 0) as [->|Hp0].
  { apply wp_ret, HQ; [|done]. rewrite without_out by (by eapply seg_not_null). done. }
  wp_step. apply wp_gets. wp_step. apply wp_gets.
  destruct (decide (p ∈ sl)) as [Hin|Hout].
  - apply list_elem_of_split in Hin as (l1 & l2 & ->).
    pose proof (seg_nodup _ _ _ _ Hs) as Hnd.
    destruct (seg_in _ _ _ _ _ p Hs) as [_ [u Hu]]; [set_solver|].
    eapply wp_of_run; [by apply (remove_from_sleepers_run _ _ _ u _ [] l1 l2)|].
    pose proof (seg_unlink _ _ _ _ _ _ u (set_t_sleep_next (t_sleep_next u)) Hs Hu ltac:(done))
      as Hun. cbv zeta in Hun. apply (sorted_filter (λ x, x ≠ p)) in Hso. fold (without p (l1 ++ p :: l2)) in Hso.
    rewrite without_middle in * by done. cbn [app].
    unfold sl_unlinked. destruct (last_or_null l1 =? 0); apply HQ; try done.
    + split; [done|]. eapply (sorted_erase (set_t_sleep_next 0)); [|done|done].
      symmetry. by apply erase_alter.
    + unfold frame, erase_sl. cbn. by rewrite erase_alter.
  - eapply wp_of_run; [by apply (remove_from_sleepers_skip _ _ _ _ _ sl)|].
    apply HQ; [|done]. by rewrite without_out.
Qed.
