(* ===== verification/SchedRun.v ===== *)
(** * Ticks, wake-ups and the choice of the next task *)

From Stdlib Require Import Sorting.Sorted.
From S2P Require Import Prelude Bits Links SchedState Sched WaitQueue SchedSpec.

(** ** The same update for several records *)

Definition alter_all {T} (g : T → T) (l : list Z) (m : gmap Z T) : gmap Z T :=
  map_imap (λ q t, Some (if bool_decide (q ∈ l) then g t else t)) m.

Lemma lookup_alter_all {T} (g : T → T) l m q :
  alter_all g l m !! q = (if bool_decide (q ∈ l) then g else id) <$> m !! q.
Proof.
  unfold alter_all. rewrite map_lookup_imap. destruct (m !! q); simpl; [|done].
  by destruct (bool_decide _).
Qed.

Lemma alter_all_nil {T} (g : T → T) m : alter_all g [] m = m.
Proof. apply map_eq. intros q. rewrite lookup_alter_all. by destruct (m !! q). Qed.

Lemma alter_all_cons {T} (g : T → T) p l m :
  p ∉ l → alter_all g l (alter g p m) = alter_all g (p :: l) m.
Proof.
  intros Hp. apply map_eq. intros q. rewrite !lookup_alter_all.
  destruct (decide (q = p)) as [->|Hq].
  - rewrite lookup_alter_eq, (bool_decide_false _ Hp), (bool_decide_true (p ∈ p :: l)) by left.
    by destruct (m !! p).
  - rewrite lookup_alter_ne by done. f_equal.
    assert (q ∈ p :: l ↔ q ∈ l) as Hiff by set_solver.
    by rewrite (bool_decide_ext _ _ Hiff).
Qed.

Lemma erase_alter_all {T} (e g : T → T) l (m : gmap Z T) :
  (∀ t, e (g t) = e t) → e <$> alter_all g l m = e <$> m.
Proof.
  intros He. apply map_eq. intros q. rewrite !lookup_fmap, lookup_alter_all.
  destruct (bool_decide _), (m !! q); simpl; try done. by rewrite He.
Qed.

Lemma seg_alter_all {T} f (g : T → T) l (m : gmap Z T) h l' x :
  (∀ t, f (g t) = f t) → seg f m h l' x → seg f (alter_all g l m) h l' x.
Proof.
  intros Hg Hs. eapply seg_ext; [done|]. intros q _. rewrite lookup_alter_all.
  destruct (bool_decide _), (m !! q); simpl; try done. by rewrite Hg.
Qed.

Lemma size_alter_all {T} (g : T → T) l (m : gmap Z T) : size (alter_all g l m) = size m.
Proof.
  rewrite <-!size_dom. f_equal. apply set_eq. intros p. rewrite !elem_of_dom, lookup_alter_all.
  by rewrite fmap_is_Some.
Qed.

(** ** Expired sleepers *)

(** What [sched_check_sleepers] makes of a task whose deadline has passed. *)
Definition woken (t : task) : task :=
  let t := set_t_sleep_timed_out true (set_t_sleep_until 0 (set_t_sleep_next 0 t)) in
  if bool_decide (t_state t = TASK_SLEEPING)
  then set_t_time_slice (t_time_slice_max t) (set_t_state TASK_READY t) else t.

Lemma alter_alter_eq {T} (f g : T → T) (m : gmap Z T) p :
  alter f p (alter g p m) = alter (f ∘ g) p m.
Proof.
  apply map_eq. intros q. destruct (decide (q = p)) as [->|Hq].
  - rewrite !lookup_alter_eq. by destruct (m !! p).
  - by rewrite !lookup_alter_ne.
Qed.

Lemma alter_swap {T} (f g : T → T) (m : gmap Z T) p q :
  p ≠ q → alter f p (alter g q m) = alter g q (alter f p m).
Proof.
  intros Hpq. apply map_eq. intros x. destruct (decide (x = p)) as [->|Hp].
  - by rewrite lookup_alter_eq, !lookup_alter_ne, lookup_alter_eq by done.
  - rewrite lookup_alter_ne by done. destruct (decide (x = q)) as [->|Hq].
    + by rewrite !lookup_alter_eq, lookup_alter_ne by done.
    + by rewrite !lookup_alter_ne by done.
Qed.

Lemma alter_ext_at {T} (f g : T → T) (m : gmap Z T) p t :
  m !! p = Some t → f t = g t → alter f p m = alter g p m.
Proof.
  intros Ht Hf. apply alter_ext. intros t' Ht'. by simplify_eq.
Qed.

Lemma set_tasks_twice m m' s : set_tasks m (set_tasks m' s) = set_tasks m s.
Proof. done. Qed.

Lemma wake_sleeper_run p t s :
  tasks s !! p = Some t →
  wake_sleeper p t s =
    Done ((), set_tasks (alter woken p (tasks s)) (set_sleep_list_head (t_sleep_next t) s)).
Proof.
  intros Ht. apply wp_eq. unfold wake_sleeper. wp_step. wp_step. wp_step.
  apply wp_upd; [by eauto|]. wp_step.
  eapply wp_rd; [cbn; by rewrite lookup_alter_eq, Ht|]. unfold when. cbn.
  destruct (bool_decide (t_state t = TASK_SLEEPING)) eqn:E.
  - apply wp_upd; [cbn; by eauto|]. split; [done|]. cbn.
    rewrite set_tasks_twice, alter_alter_eq. f_equal. eapply alter_ext_at; [done|]. unfold woken. cbn. by rewrite E.
  - apply wp_ret. split; [done|]. f_equal.
    eapply alter_ext_at; [done|]. unfold woken. cbn. by rewrite E.
Qed.

Definition expired (m : gmap Z task) (now : Z) (l : list Z) : list Z :=
  filter (λ p, deadline m p ≤ now) l.
Definition pending (m : gmap Z task) (now : Z) (l : list Z) : list Z :=
  filter (λ p, now < deadline m p) l.

Lemma filter_same {A} (P Q : A → Prop) `{!∀ x, Decision (P x), !∀ x, Decision (Q x)} (l : list A) :
  (∀ x, x ∈ l → P x ↔ Q x) → filter P l = filter Q l.
Proof.
  induction l as [|x l IH]; intros Hx; [done|]. rewrite !filter_cons, IH by set_solver.
  destruct (decide (P x)), (decide (Q x)); try done; exfalso; specialize (Hx x); set_solver.
Qed.

Lemma filter_true {A} (P : A → Prop) `{!∀ x, Decision (P x)} (l : list A) :
  (∀ x, x ∈ l → P x) → filter P l = l.
Proof.
  induction l as [|x l IH]; intros Hx; [done|]. rewrite filter_cons_True by set_solver.
  by rewrite IH by set_solver.
Qed.

Lemma filter_false {A} (P : A → Prop) `{!∀ x, Decision (P x)} (l : list A) :
  (∀ x, x ∈ l → ¬ P x) → filter P l = [].
Proof.
  induction l as [|x l IH]; intros Hx; [done|]. rewrite filter_cons_False by set_solver.
  apply IH. set_solver.
Qed.

Lemma expired_ext m m' now l :
  (∀ p, p ∈ l → deadline m p = deadline m' p) → expired m now l = expired m' now l.
Proof. intros H. apply filter_same. intros x Hx. by rewrite H. Qed.

Lemma pending_ext m m' now l :
  (∀ p, p ∈ l → deadline m p = deadline m' p) → pending m now l = pending m' now l.
Proof. intros H. apply filter_same. intros x Hx. by rewrite H. Qed.

Lemma deadline_other m p q g : q ≠ p → deadline (alter g p m) q = deadline m q.
Proof. intros. unfold deadline. by rewrite lookup_alter_ne. Qed.

Lemma wake_expired_run fuel now s sl :
  sl_inv s sl → (length sl ≤ fuel)%nat →
  ∃ h, wake_expired fuel now s =
    Done ((), set_tasks (alter_all woken (expired (tasks s) now sl) (tasks s))
      (set_sleep_list_head h s)) ∧
    seg t_sleep_next (alter_all woken (expired (tasks s) now sl) (tasks s)) h
      (pending (tasks s) now sl) 0.
Proof.
  revert fuel s. induction sl as [|p sl IH]; intros fuel s [Hs Hso] Hf.
  { simpl in Hs. exists 0. unfold expired, pending. simpl. rewrite alter_all_nil.
    split; [|done]. apply wp_eq. destruct fuel; simpl; wp_step; apply wp_gets; rewrite Hs;
      apply wp_ret; destruct s; cbn in *; by subst. }
  pose proof (seg_nodup _ _ _ _ Hs) as [Hp Hnd]%NoDup_cons.
  destruct Hs as (Hh & Hp0 & t & Ht & Hl). destruct fuel as [|fuel]; simpl in Hf; [lia|].
  assert (deadline (tasks s) p = t_sleep_until t) as Hd by (unfold deadline; by rewrite Ht).
  rewrite fmap_cons in Hso. apply StronglySorted_inv in Hso as [Hso Hle].
  assert (∀ q g, q ∈ sl → deadline (alter g p (tasks s)) q = deadline (tasks s) q) as Hoth
    by (intros q g Hq; apply deadline_other; set_solver).
  unfold expired, pending. rewrite !filter_cons.
  destruct (decide (deadline (tasks s) p ≤ now)) as [Hex|Hex].
  - rewrite decide_False by lia.
    set (s1 := set_tasks (alter woken p (tasks s)) (set_sleep_list_head (t_sleep_next t) s)).
    destruct (IH fuel s1) as (h & Hr & Hseg).
    { split; cbn; [by apply seg_alter_out|].
      rewrite (list_fmap_ext _ (deadline (tasks s)) sl); [done|].
      intros i x Hx. apply Hoth. by eapply list_elem_of_lookup_2. }
    { lia. }
    exists h. cbn [s1 tasks set_tasks] in Hr, Hseg.
    rewrite (expired_ext _ (tasks s)) in Hr, Hseg by auto.
    rewrite (pending_ext _ (tasks s)) in Hseg by auto.
    rewrite alter_all_cons in Hr, Hseg by (intros [_ ?]%list_elem_of_filter; done).
    split; [|done]. apply wp_eq. simpl. wp_step. apply wp_gets.
    rewrite Hh, (proj2 (Z.eqb_neq _ _) Hp0). wp_step. eapply wp_rd; [done|].
    rewrite <-Hd, (proj2 (Z.leb_le _ _)) by done. wp_step.
    eapply wp_of_run; [by apply wake_sleeper_run|]. apply wp_eq. fold s1. by rewrite Hr.
  - rewrite decide_True by lia. rewrite Forall_fmap in Hle.
    assert (filter (λ q, deadline (tasks s) q ≤ now) sl = []) as ->.
    { apply filter_false. intros q Hq. eapply Forall_forall in Hle; [|exact Hq]. simpl in Hle. lia. }
    rewrite filter_true.
    2:{ intros q Hq. eapply Forall_forall in Hle; [|exact Hq]. simpl in Hle. lia. }
    exists p. rewrite alter_all_nil. split; [|simpl; eauto].
    apply wp_eq. simpl. wp_step. apply wp_gets.
    rewrite Hh, (proj2 (Z.eqb_neq _ _) Hp0). wp_step. eapply wp_rd; [done|].
    rewrite <-Hd, (proj2 (Z.leb_gt _ _)) by lia. apply wp_ret. split; [done|].
    destruct s; cbn in *; by subst.
Qed.

Lemma wp_sched_check_sleepers sl Q s :
  sl_inv s sl →
  (∀ h, let m := alter_all woken (expired (tasks s) (ticks s) sl) (tasks s) in
    let s' := set_tasks m (set_sleep_list_head h s) in
    sl_inv s' (pending (tasks s) (ticks s) sl) → Q () s') →
  wp sched_check_sleepers Q s.
Proof.
  intros Hsl HQ. unfold sched_check_sleepers. wp_step. apply wp_gets. wp_step. apply wp_gets.
  destruct (wake_expired_run _ (ticks s) _ _ Hsl (sl_length _ _ Hsl)) as (h & Hr & Hseg).
  eapply wp_of_run; [exact Hr|]. apply HQ. split; [done|].
  cbn. rewrite (list_fmap_ext _ (deadline (tasks s))); [by apply sorted_filter, Hsl|].
  intros i p [Hp _]%list_elem_of_lookup_2%list_elem_of_filter. unfold deadline.
  rewrite lookup_alter_all, bool_decide_false; [by rewrite option_fmap_id|].
  intros [Hp' _]%list_elem_of_filter. lia.
Qed.

(** ** Starvation boost *)

Lemma boost_next now t : t_next (boost now t) = t_next t.
Proof. unfold boost. by destruct (_ && _). Qed.

Lemma boost_all_run fuel now cursor l s :
  seg t_next (tasks s) cursor l 0 → (length l ≤ fuel)%nat →
  boost_all fuel now cursor s = Done ((), set_tasks (alter_all (boost now) l (tasks s)) s).
Proof.
  revert fuel cursor s. induction l as [|x l IH]; intros fuel cursor s Hs Hf.
  { simpl in Hs. subst. rewrite alter_all_nil. by destruct fuel, s. }
  pose proof (seg_nodup _ _ _ _ Hs) as [Hx _]%NoDup_cons.
  destruct Hs as (-> & Hx0 & t & Ht & Hl). destruct fuel as [|fuel]; simpl in Hf; [lia|].
  simpl. rewrite (proj2 (Z.eqb_neq _ _) Hx0). apply wp_eq. wp_step. apply wp_upd; [by eauto|].
  wp_step. eapply wp_rd; [cbn; by rewrite lookup_alter_eq, Ht|]. apply wp_eq.
  rewrite boost_next, IH; [|cbn; by apply seg_alter_out|lia]. cbn.
  by rewrite set_tasks_twice, alter_all_cons.
Qed.

(** ** The next task *)

Definition pick_fold (m : gmap Z task) (prev : Z) (l : list Z) (v : pick) : pick :=
  foldl (λ v p, match m !! p with Some c => pick_step prev p c v | None => v end) v l.

Lemma pick_loop_run fuel prev cursor l v s :
  seg t_next (tasks s) cursor l 0 → (length l ≤ fuel)%nat →
  pick_loop fuel prev cursor v s = Done (pick_fold (tasks s) prev l v, s).
Proof.
  revert fuel cursor v. induction l as [|x l IH]; intros fuel cursor v Hs Hf.
  { simpl in Hs. subst. by destruct fuel. }
  destruct Hs as (-> & Hx0 & t & Ht & Hl). destruct fuel as [|fuel]; simpl in Hf; [lia|].
  simpl. rewrite (proj2 (Z.eqb_neq _ _) Hx0). apply wp_eq. wp_step. eapply wp_rd; [done|].
  apply wp_eq. rewrite IH by (done || lia). by rewrite Ht.
Qed.

(** A task the scan considers. *)
Definition eligible (m : gmap Z task) (prev p : Z) : bool :=
  bool_decide (p ≠ prev) &&
  match m !! p with
  | Some t => bool_decide (t_state t = TASK_READY) && negb (is_idle t)
  | None => false
  end.

Definition prio (m : gmap Z task) (p : Z) : Z := default 0 (t_priority <$> m !! p).

(** ** The reference for the choice *)

(** What follows the first occurrence of [prev]. *)
Fixpoint after (prev : Z) (l : list Z) : list Z :=
  match l with
  | [] => []
  | x :: l => if x =? prev then l else after prev l
  end.

Section pick.
Context (m : gmap Z task) (prev : Z).
Abbreviation elig := (λ p, eligible m prev p = true).

(** The best (lowest) priority among the candidates of a list. *)
Definition min_prio (l : list Z) : Z :=
  foldl Z.min (SCHED_PRIO_MAX + 1) (prio m <$> filter elig l).

(** The candidates of [l] with priority [k]. *)
Definition at_prio (k : Z) (l : list Z) : list Z :=
  filter (λ p, eligible m prev p = true ∧ prio m p = k) l.

(** Round robin: the first candidate of the best priority behind [prev],
    otherwise the first in the queue. *)
Definition choice (rq : list Z) : option Z :=
  head (at_prio (min_prio rq) (after prev rq) ++ at_prio (min_prio rq) rq).

Lemma min_prio_snoc l x :
  min_prio (l ++ [x]) =
    if eligible m prev x then Z.min (min_prio l) (prio m x) else min_prio l.
Proof.
  unfold min_prio. rewrite filter_app, fmap_app, foldl_app.
  rewrite filter_cons. by destruct (eligible m prev x).
Qed.

Lemma min_prio_le l p : p ∈ l → eligible m prev p = true → min_prio l ≤ prio m p.
Proof.
  induction l as [|x l IH] using rev_ind; [set_solver|].
  rewrite elem_of_app, list_elem_of_singleton, min_prio_snoc.
  intros [Hp| ->] He; [specialize (IH Hp He)|rewrite He; lia].
  destruct (eligible m prev x); lia.
Qed.

Lemma at_prio_snoc k l x :
  at_prio k (l ++ [x]) =
    at_prio k l ++ (if eligible m prev x && (prio m x =? k) then [x] else []).
Proof.
  unfold at_prio. rewrite filter_app, filter_cons. f_equal.
  case_decide as Hd; destruct (eligible m prev x) eqn:He, (Z.eqb_spec (prio m x) k);
    simpl; naive_solver.
Qed.

Lemma at_prio_below k l : k < min_prio l → at_prio k l = [].
Proof.
  intros Hk. unfold at_prio. apply filter_false. intros p Hp [He Hq].
  pose proof (min_prio_le l p Hp He). lia.
Qed.

Lemma after_snoc l x :
  after prev (l ++ [x]) = if bool_decide (prev ∈ l) then after prev l ++ [x] else [].
Proof.
  induction l as [|y l IH]; simpl; [by destruct (_ =? _)|].
  destruct (Z.eqb_spec y prev) as [->|Hne].
  - by rewrite bool_decide_true by left.
  - rewrite IH. assert (prev ∈ y :: l ↔ prev ∈ l) as Hi by set_solver.
    by rewrite (bool_decide_ext _ _ Hi).
Qed.

Lemma after_sub l p : p ∈ after prev l → p ∈ l.
Proof.
  induction l as [|y l IH]; simpl; [done|]. destruct (_ =? _); set_solver.
Qed.

Lemma after_none l : prev ∉ l → after prev l = [].
Proof.
  induction l as [|y l IH]; simpl; [done|]. intros H.
  rewrite (proj2 (Z.eqb_neq y prev)) by set_solver. apply IH. set_solver.
Qed.

Lemma min_prio_attained l :
  min_prio l ≤ SCHED_PRIO_MAX → at_prio (min_prio l) l ≠ [].
Proof.
  induction l as [|x l IH] using rev_ind; [done|].
  rewrite min_prio_snoc, at_prio_snoc. intros Hle.
  destruct (eligible m prev x) eqn:He; simpl.
  - destruct (Z.eqb_spec (prio m x) (Z.min (min_prio l) (prio m x))) as [_|Hne];
      [by intros [_ ?]%app_eq_nil|].
    rewrite app_nil_r. replace (Z.min _ _) with (min_prio l) by lia. apply IH. lia.
  - rewrite app_nil_r. by apply IH.
Qed.

Lemma at_prio_after_below k l : k < min_prio l → at_prio k (after prev l) = [].
Proof.
  intros Hk. unfold at_prio. apply filter_false. intros p Hp%after_sub [He Hq].
  pose proof (min_prio_le l p Hp He). lia.
Qed.

(** The local variables after the scan of [l]. *)
Record pick_ok (l : list Z) (v : pick) : Prop := {
  pk_past : past_prev v = bool_decide (prev ∈ l);
  pk_prio : best_prio v = min_prio l;
  pk_best : best v = default 0 (choice l);
  pk_flag : best_is_past_prev v = bool_decide (at_prio (min_prio l) (after prev l) ≠ []);
}.

(** A task the scan passes over changes nothing. *)
Lemma choice_skip l x :
  eligible m prev x = false → (x = prev → x ∉ l) →
  choice (l ++ [x]) = choice l ∧ min_prio (l ++ [x]) = min_prio l ∧
  at_prio (min_prio l) (after prev (l ++ [x])) = at_prio (min_prio l) (after prev l).
Proof.
  intros He Hx. unfold choice. rewrite min_prio_snoc, at_prio_snoc, after_snoc, He. simpl.
  rewrite app_nil_r. destruct (bool_decide_reflect (prev ∈ l)) as [Hin|Hout].
  - by rewrite at_prio_snoc, He, app_nil_r.
  - by rewrite after_none.
Qed.

Lemma elem_of_snoc_ne l x : x ≠ prev →
  bool_decide (prev ∈ l ++ [x]) = bool_decide (prev ∈ l).
Proof. intros. apply bool_decide_ext. set_solver. Qed.

Lemma pick_step_ok l v x c :
  pick_ok l v → x ∉ l → m !! x = Some c →
  (eligible m prev x = true → prio m x ≤ SCHED_PRIO_MAX) →
  pick_ok (l ++ [x]) (pick_step prev x c v).
Proof.
  intros [Hpast Hprio Hbest Hflag] Hx Hc Hmax. unfold pick_step.
  destruct (Z.eqb_spec x prev) as [->|Hne].
  { assert (eligible m prev prev = false) as He
      by (unfold eligible; by rewrite bool_decide_false by naive_solver).
    destruct (choice_skip l prev He ltac:(done)) as (H1 & H2 & H3).
    split; cbn; rewrite ?H1, ?H2, ?H3; try done. rewrite bool_decide_true; set_solver. }
  assert (eligible m prev x = bool_decide (t_state c = TASK_READY) && negb (is_idle c)) as He
    by (unfold eligible; by rewrite Hc, bool_decide_true).
  assert (t_priority c = prio m x) as Hpx by (unfold prio; by rewrite Hc).
  rewrite <-He, Hpx, Hprio. destruct (eligible m prev x) eqn:Hel.
  2:{ destruct (choice_skip l x Hel ltac:(done)) as (H1 & H2 & H3).
      split; rewrite ?H1, ?H2, ?H3, ?elem_of_snoc_ne; done. }
  specialize (Hmax eq_refl).
  destruct (Z.ltb_spec (prio m x) (min_prio l)) as [Hlt|Hge].
  - assert (min_prio (l ++ [x]) = prio m x) as Hmin by (rewrite min_prio_snoc, Hel; lia).
    split; cbn; rewrite ?elem_of_snoc_ne by done; try done.
    + unfold choice. rewrite Hmin, after_snoc, at_prio_snoc, (at_prio_below _ _ Hlt), Hel, Z.eqb_refl.
      destruct (bool_decide (prev ∈ l)); simpl; [|done].
      by rewrite at_prio_snoc, (at_prio_after_below _ _ Hlt), Hel, Z.eqb_refl.
    + rewrite Hmin, after_snoc, Hpast. destruct (bool_decide (prev ∈ l)); simpl; [|done].
      by rewrite at_prio_snoc, (at_prio_after_below _ _ Hlt), Hel, Z.eqb_refl.
  - assert (min_prio (l ++ [x]) = min_prio l) as Hmin by (rewrite min_prio_snoc, Hel; lia).
    assert (at_prio (min_prio l) (l ++ [x]) = at_prio (min_prio l) l ++
        (if prio m x =? min_prio l then [x] else [])) as Htop by (by rewrite at_prio_snoc, Hel).
    assert (at_prio (min_prio l) (after prev (l ++ [x])) =
        if bool_decide (prev ∈ l) then at_prio (min_prio l) (after prev l) ++
          (if prio m x =? min_prio l then [x] else []) else []) as Haft.
    { rewrite after_snoc. destruct (bool_decide _); [|done]. by rewrite at_prio_snoc, Hel. }
    assert (bool_decide (prev ∈ l) = false → at_prio (min_prio l) (after prev l) = []) as Hnone
      by (intros H; rewrite after_none; [done|]; by apply bool_decide_eq_false in H).
    assert (prio m x = min_prio l → at_prio (min_prio l) l ≠ []) as Hne'
      by (intros Heq; apply min_prio_attained; lia).
    unfold choice in *. revert Hbest Hflag. rewrite Hpast.
    destruct (bool_decide (prev ∈ l)) eqn:Hin, (Z.eqb_spec (prio m x) (min_prio l)) as [Heq|];
      destruct (at_prio (min_prio l) (after prev l)) as [|y A] eqn:HA; cbn; intros Hbest Hflag;
      rewrite ?Hflag; cbn; try (specialize (Hnone eq_refl); done);
      (split; cbn; unfold choice; rewrite ?elem_of_snoc_ne, ?Hmin, ?Htop, ?Haft, ?Hin by done;
       cbn; try done; rewrite ?app_nil_r; try done).
    specialize (Hne' Heq). destruct (at_prio (min_prio l) l); done.
Qed.
End pick.

Definition prio_max (m : gmap Z task) : Prop :=
  ∀ p t, m !! p = Some t → t_priority t ≤ SCHED_PRIO_MAX.

Lemma pick_fold_ok m prev l :
  NoDup l → (∀ p, p ∈ l → is_Some (m !! p)) → prio_max m →
  pick_ok m prev l (pick_fold m prev l pick0).
Proof.
  intros Hnd Hin Hmax. induction l as [|x l IH] using rev_ind; [done|].
  apply NoDup_app in Hnd as (Hnd & Hd & _). destruct (Hin x) as [c Hc]; [set_solver|].
  unfold pick_fold in *. rewrite foldl_app. simpl. rewrite Hc.
  apply pick_step_ok; [apply IH; set_solver| |done|].
  - intros Hx. apply (Hd x Hx). by left.
  - intros _. unfold prio. rewrite Hc. by apply (Hmax x).
Qed.

(** The result of [pick_next_task]. *)
Definition next_of (s : sched) (rq : list Z) (prev : Z) : Z :=
  if bool_decide (rq = []) then idle_task s else
  match choice (tasks s) prev rq with
  | Some p => p
  | None =>
      match tasks s !! idle_task s with
      | Some t => if bool_decide (t_state t ≠ TASK_ZOMBIE) then idle_task s else 0
      | None => 0
      end
  end.

Lemma choice_in m prev rq p :
  choice m prev rq = Some p → p ∈ rq ∧ eligible m prev p = true ∧ prio m p = min_prio m prev rq.
Proof.
  unfold choice. intros H%head_Some_elem_of%elem_of_app.
  destruct H as [H|H]; apply list_elem_of_filter in H as [[He Hp] Hin]; [|done].
  by apply after_sub in Hin.
Qed.

Lemma pick_next_task_run prev rq s :
  rq_inv s rq → prio_max (tasks s) →
  (idle_task s ≠ 0 → is_Some (tasks s !! idle_task s)) → tasks s !! 0 = None →
  pick_next_task prev s = Done (next_of s rq prev, s).
Proof.
  intros Hrq Hmax Hidle H0. apply wp_eq. unfold pick_next_task, next_of.
  wp_step. apply wp_gets. wp_step. apply wp_gets.
  pose proof (rq_length _ _ Hrq) as Hf. destruct Hrq as [Hs _ _ _].
  pose proof (seg_nodup _ _ _ _ Hs) as Hnd.
  destruct rq as [|x l].
  { simpl in Hs. rewrite Hs. by apply wp_ret. }
  destruct Hs as (Hh & Hx & Hs). rewrite Hh, (proj2 (Z.eqb_neq _ _) Hx).
  assert (seg t_next (tasks s) x (x :: l) 0) as Hs' by done.
  wp_step. apply wp_gets. wp_step. eapply wp_of_run; [by apply pick_loop_run|].
  destruct (pick_fold_ok (tasks s) prev (x :: l)) as [_ _ Hb _]; [done| |done|].
  { intros p Hp. by eapply seg_in. }
  rewrite Hb. rewrite bool_decide_false by done.
  destruct (choice (tasks s) prev (x :: l)) as [p|] eqn:Hch; simpl.
  - apply choice_in in Hch as (Hp & _). apply (seg_in _ _ _ _ _ _ Hs') in Hp as [Hp _].
    rewrite (proj2 (Z.eqb_neq _ _) Hp). by apply wp_ret.
  - destruct (Z.eqb_spec (idle_task s) 0) as [Hz|Hz].
    + apply wp_ret. by rewrite Hz, H0.
    + destruct (Hidle Hz) as [t Ht]. wp_step. eapply wp_rd; [done|]. rewrite Ht.
      destruct (bool_decide _); by apply wp_ret.
Qed.

(** ** Priorities and time slices *)

Record prio_ok (t : task) : Prop := {
  po_prio : SCHED_PRIO_MIN ≤ t_priority t ≤ SCHED_PRIO_MAX;
  po_static : SCHED_PRIO_MIN ≤ t_static_priority t ≤ SCHED_PRIO_MAX;
  po_max : t_time_slice_max t = sched_prio_to_slice (t_priority t);
  po_slice : 0 ≤ t_time_slice t ≤ 40;
}.

Lemma slice_bounds p : SCHED_PRIO_MIN ≤ p ≤ SCHED_PRIO_MAX →
  sched_prio_to_slice p = 20 - p ∧ 1 ≤ sched_prio_to_slice p ≤ 40.
Proof.
  unfold SCHED_PRIO_MIN, SCHED_PRIO_MAX, sched_prio_to_slice, SCHED_BASE_SLICE. intros.
  rewrite u32_small; lia.
Qed.

Lemma prio_ok_boost now t : prio_ok t → prio_ok (boost now t).
Proof.
  intros [H1 H2 H3 H4]. unfold boost. destruct (_ && _) eqn:E; [|by split].
  rewrite !andb_true_iff in E. destruct E as [[_ Hlt%Z.ltb_lt] _].
  assert (i8 (t_priority t - 1) = t_priority t - 1) as Hi.
  { unfold i8. unfold SCHED_PRIO_MIN, SCHED_PRIO_MAX in *. rewrite Z.mod_small; lia. }
  split; cbn; rewrite ?Hi; try done. unfold SCHED_PRIO_MIN, SCHED_PRIO_MAX in *. lia.
Qed.

Lemma prio_ok_charge t : prio_ok t → prio_ok (charge_tick t).
Proof.
  intros [H1 H2 H3 H4]. unfold charge_tick. cbn. destruct (Z.ltb_spec 0 (t_time_slice t)).
  - split; cbn; try done. rewrite u32_small; lia.
  - by split.
Qed.

Lemma prio_ok_refill t : prio_ok t → prio_ok (refill_slice t).
Proof.
  intros [H1 H2 H3 H4]. unfold refill_slice. cbn.
  pose proof (slice_bounds _ H1). pose proof (slice_bounds _ H2).
  destruct (_ && _); split; cbn; try done; lia.
Qed.

Lemma prio_ok_dispatch now t : prio_ok t → prio_ok (dispatch now t).
Proof. intros [H1 H2 H3 H4]. unfold dispatch. cbn. by destruct (_ && _); split. Qed.

Lemma prio_ok_woken t : prio_ok t → prio_ok (woken t).
Proof.
  intros [H1 H2 H3 H4]. unfold woken. pose proof (slice_bounds _ H1).
  destruct (bool_decide _); split; cbn; try done. lia.
Qed.
#[export] Hint Resolve prio_ok_boost prio_ok_charge prio_ok_refill prio_ok_dispatch
  prio_ok_woken : core.

(** Every task satisfies a predicate. *)
Definition all_tasks (P : task → Prop) (s : sched) : Prop := map_Forall (λ _, P) (tasks s).

Lemma map_Forall_alter {T} (P : T → Prop) g p (m : gmap Z T) :
  map_Forall (λ _, P) m → (∀ t, P t → P (g t)) → map_Forall (λ _, P) (alter g p m).
Proof.
  intros HP Hg q t. destruct (decide (q = p)) as [->|Hq].
  - rewrite lookup_alter_eq. intros (u & Hu & ->)%fmap_Some. by apply Hg, (HP p).
  - rewrite lookup_alter_ne by done. apply HP.
Qed.

Lemma map_Forall_alter_all {T} (P : T → Prop) g l (m : gmap Z T) :
  map_Forall (λ _, P) m → (∀ t, P t → P (g t)) → map_Forall (λ _, P) (alter_all g l m).
Proof.
  intros HP Hg q t. rewrite lookup_alter_all. intros (u & Hu & ->)%fmap_Some.
  destruct (bool_decide _); [by apply Hg, (HP q)|by apply (HP q)].
Qed.

(** ** Switching *)

(** What [schedule] writes. *)
Definition erase_run (t : task) : task :=
  set_t_state TASK_READY (set_t_last_run_tick 0 (set_t_priority 0
    (set_t_time_slice_max 0 (set_t_saved_rsp 0 t)))).
Definition erase_sched (s : sched) : sched :=
  set_tasks (erase_run <$> tasks s) (set_current_task 0 (set_need_resched []
    (set_cpu (CpuRegs 0 0 0 (r_if (cpu s)) 0 0 0) s))).

Definition state_of (m : gmap Z task) (p : Z) : option task_state := t_state <$> m !! p.

(** The state of every task after a switch. *)
Definition switched (s s' : sched) (prev next : Z) : Prop :=
  current_task s' = next ∧
  ∀ p, state_of (tasks s') p =
    if bool_decide (p = next) then Some TASK_RUNNING
    else if bool_decide (p = prev ∧ state_of (tasks s) p = Some TASK_RUNNING)
    then Some TASK_READY else state_of (tasks s) p.

Lemma dispatch_state now t : t_state (dispatch now t) = TASK_RUNNING.
Proof. unfold dispatch. by destruct (_ && _). Qed.

Lemma dispatch_erase now t : erase_run (dispatch now t) = erase_run t.
Proof. unfold dispatch. by destruct (_ && _). Qed.

Lemma wp_set_resched v Q s :
  (∀ l, Q () (set_need_resched l s)) → wp (set_resched v) Q s.
Proof.
  intros HQ. unfold set_resched. wp_step. apply wp_gets. apply wp_when; intros _.
  - apply wp_modify, HQ.
  - specialize (HQ (need_resched s)). by destruct s.
Qed.

Definition yielded (t : task) : task :=
  if bool_decide (t_state t = TASK_RUNNING) then set_t_state TASK_READY t else t.

(** The register part of a switch. *)
Lemma wp_switch_to old next Q s :
  is_Some (tasks s !! old) →
  (∃ n, tasks s !! next = Some n ∧ is_Some (procs s !! t_process n)) →
  (∀ c g, r_if c = r_if (cpu s) → (∀ t, erase_run (g t) = erase_run t) →
    (∀ t, t_state (g t) = t_state t) → (∀ t, prio_ok t → prio_ok (g t)) →
    Q () (set_tasks (alter g old (tasks s)) (set_cpu c s))) →
  wp (switch_to old next) Q s.
Proof.
  intros [o Ho] (n & Hn & [pr Hpr]) HQ. unfold switch_to, on_cpu, context_switch.
  wp_step. eapply wp_rd; [done|]. wp_step. eapply wp_rd; [done|]. do 4 wp_step.
  wp_step. apply wp_mono with (Q := λ _ s', ∃ c, r_if c = r_if (cpu s) ∧ s' = set_cpu c s).
  { apply wp_when; intros _; [|by eexists; split; [|reflexivity]].
    wp_step. unfold rd_proc. wp_step. wp_step. eapply wp_deref; [done|].
    destruct (p_address_space pr); [apply wp_modify|apply wp_ret];
      (eexists; split; [|reflexivity]; done). }
  intros [] s' (c & Hc & ->). wp_step.
  apply wp_mono with (Q := λ _ s', ∃ c, r_if c = r_if (cpu s) ∧ s' = set_cpu c s).
  { apply wp_when; intros _; [apply wp_modify|]; (eexists; split; [|reflexivity]; done). }
  intros [] s' (c' & Hc' & ->). wp_step. apply wp_gets. wp_step.
  apply wp_upd; [by eauto|]. apply wp_modify. cbn.
  apply (HQ (set_r_rsp (t_saved_rsp n +! 56) c') (set_t_saved_rsp (r_rsp c' -! 48))); try done.
  intros t []. by split.
Qed.

Lemma wp_schedule_switch rq Q s :
  let prev := current_task s in
  let next := next_of s rq prev in
  rq_inv s rq → prio_max (tasks s) → rq ≠ [] →
  (idle_task s ≠ 0 → is_Some (tasks s !! idle_task s)) → tasks s !! 0 = None →
  is_Some (tasks s !! prev) → next ≠ 0 → next ≠ prev →
  (∃ n, tasks s !! next = Some n ∧ is_Some (procs s !! t_process n)) →
  (∀ s', switched s s' prev next → frame erase_sched s s' →
    (all_tasks prio_ok s → all_tasks prio_ok s') → Q () s') →
  wp schedule Q s.
Proof.
  intros prev next Hrq Hmax Hne Hidle H0 [o Ho] Hn0 Hnp (n & Hn & Hproc) HQ.
  assert (prev ≠ 0) as Hp0 by (intros ->; congruence).
  unfold schedule. wp_step. apply wp_set_resched. intros nr. wp_step. apply wp_gets. cbn.
  fold prev. rewrite (proj2 (Z.eqb_neq _ _) Hp0). wp_step. apply wp_gets. cbn.
  destruct rq as [|x l]; [done|].
  assert (runqueue_head s ≠ 0) as Hh by (destruct Hrq as [(-> & ? & _) _ _ _ _]; done).
  rewrite (proj2 (Z.eqb_neq _ _) Hh). wp_step.
  eapply wp_of_run.
  { apply (pick_next_task_run prev (x :: l) (set_need_resched nr s)); try done.
    destruct Hrq. by split. }
  change (next_of (set_need_resched nr s) (x :: l) prev) with next. clearbody next prev.
  rewrite (proj2 (Z.eqb_neq _ _) Hn0), (proj2 (Z.eqb_neq _ _) Hnp). cbn [orb].
  wp_step. eapply wp_rd; [done|]. wp_step.
  apply wp_mono with (Q := λ _ s', s' = set_tasks (alter yielded prev (tasks s)) (set_need_resched nr s)).
  { apply wp_when; intros Hst.
    - apply wp_upd; [by eauto|]. f_equal. eapply alter_ext_at; [done|]. unfold yielded. by rewrite Hst.
    - assert (alter yielded prev (tasks s) = tasks s) as ->; [|by destruct s].
      apply map_eq. intros q. destruct (decide (q = prev)) as [->|]; [|by rewrite lookup_alter_ne].
      rewrite lookup_alter_eq, Ho. simpl. unfold yielded. by rewrite Hst. }
  intros [] s' ->. wp_step. apply wp_gets. wp_step. apply wp_upd; [by cbn; eauto|].
  unfold on_cpu. do 4 wp_step. apply wp_switch_to; [by cbn; eauto| |].
  { eexists. split; [cbn; rewrite lookup_alter_eq, lookup_alter_ne by done; by rewrite Hn|]. cbn.
    unfold dispatch. by destruct (_ && _). }
  intros c g Hc Hg Hgs Hgp. apply HQ.
  - split; [done|]. intros p. unfold state_of. cbn.
    destruct (decide (p = next)) as [->|Hpn].
    + rewrite bool_decide_true by done.
      rewrite lookup_alter_ne, lookup_alter_eq, lookup_alter_ne, Hn by done. simpl.
      by rewrite dispatch_state.
    + rewrite (bool_decide_false (p = next)) by done.
      destruct (decide (p = prev)) as [->|Hpp].
      * rewrite lookup_alter_eq, lookup_alter_ne, lookup_alter_eq, Ho by done. simpl.
        rewrite Hgs. unfold yielded. destruct (t_state o) eqn:Est; simpl;
          [|by rewrite bool_decide_true| |]; rewrite bool_decide_false by (intros [_ ?]; done);
          by rewrite Est.
      * rewrite !lookup_alter_ne by done. by rewrite bool_decide_false by naive_solver.
  - unfold frame, erase_sched. cbn. rewrite !erase_alter; [by rewrite Hc| | |done].
    + intros t. unfold yielded. by destruct (bool_decide _).
    + intros t. apply dispatch_erase.
  - intros Hp. apply map_Forall_alter; [|done]. apply map_Forall_alter; [|auto].
    apply map_Forall_alter; [done|]. intros t Hpt. unfold yielded.
    destruct (bool_decide _); [|done]. by destruct Hpt.
Qed.

Lemma wp_schedule_stay rq Q s :
  let next := next_of s rq (current_task s) in
  rq_inv s rq → prio_max (tasks s) →
  (idle_task s ≠ 0 → is_Some (tasks s !! idle_task s)) → tasks s !! 0 = None →
  next = 0 ∨ next = current_task s →
  (∀ l, Q () (set_need_resched l s)) → wp schedule Q s.
Proof.
  intros next Hrq Hmax Hidle H0 Hn HQ. unfold schedule. wp_step. apply wp_set_resched.
  intros nr. wp_step. apply wp_gets. cbn.
  destruct (current_task s =? 0); [by apply wp_ret|]. wp_step. apply wp_gets. cbn.
  destruct (runqueue_head s =? 0); [by apply wp_ret|]. wp_step.
  eapply wp_of_run.
  { apply (pick_next_task_run _ rq (set_need_resched nr s)); try done. destruct Hrq. by split. }
  change (next_of (set_need_resched nr s) rq (current_task s)) with next.
  destruct Hn as [-> | ->]; cbn [orb]; [|rewrite Z.eqb_refl, orb_true_r]; by apply wp_ret.
Qed.

(** ** The timer tick *)

(** The accounting fields. *)
Definition erase_acct (t : task) : task :=
  set_t_total_ticks 0 (set_t_time_slice 0 (set_t_time_slice_max 0 (set_t_priority 0 t))).
(** What a tick writes outside the tasks. *)
Definition erase_tick (s : sched) : sched :=
  set_tasks ∅ (set_sleep_list_head 0 (set_need_resched [] (set_ipis []
    (set_last_boost_tick 0 s)))).

Lemma woken_acct t : erase_acct (woken t) = erase_acct (woken (erase_acct t)).
Proof. unfold woken. cbn. by destruct (bool_decide _). Qed.

Lemma erase_acct_woken t u :
  erase_acct t = erase_acct u → erase_acct (woken t) = erase_acct (woken u).
Proof. intros H. by rewrite woken_acct, H, <-woken_acct. Qed.

Lemma erase_alter_all_woken l m m' :
  erase_acct <$> m = erase_acct <$> m' →
  erase_acct <$> alter_all woken l m = erase_acct <$> alter_all woken l m'.
Proof.
  intros H. apply map_eq. intros q. apply (f_equal (.!! q)) in H. rewrite !lookup_fmap in *.
  rewrite !lookup_alter_all.
  destruct (m !! q) as [t|], (m' !! q) as [u|]; simpl in *; try done. apply (inj Some) in H.
  destruct (bool_decide _); simpl; [by rewrite (erase_acct_woken t u)|by rewrite H].
Qed.

Lemma charge_acct t : erase_acct (charge_tick t) = erase_acct t.
Proof. unfold charge_tick. cbn. by destruct (_ <? _). Qed.
Lemma refill_acct t : erase_acct (refill_slice t) = erase_acct t.
Proof. unfold refill_slice. cbn. by destruct (_ && _). Qed.
Lemma boost_acct now t : erase_acct (boost now t) = erase_acct t.
Proof. unfold boost. by destruct (_ && _). Qed.

(** The charge of the running task. *)
Lemma wp_charge Q s :
  (current_task s ≠ 0 → is_Some (tasks s !! current_task s)) →
  (∀ s', erase_acct <$> tasks s = erase_acct <$> tasks s' → frame erase_tick s s' →
    sleep_list_head s = sleep_list_head s' →
    (all_tasks prio_ok s → all_tasks prio_ok s') → Q () s') →
  wp (let current := current_task s in
    when (negb (current =? 0))
    (upd current charge_tick;;
     t ← rd current;
     when (t_time_slice t =? 0)
       (upd current refill_slice;;
        set_resched 1;;
        n ← gets cpu_count; id ← gets cpu_id;
        when (1 <? n) (smp_send_ipi_to_cpu id IPI_VECTOR_RESCHEDULE)))) Q s.
Proof.
  intros Hcur HQ. cbv zeta. apply wp_when; [|intros _; by apply HQ].
  intros Hne%negb_true_iff%Z.eqb_neq. destruct (Hcur Hne) as [t Ht].
  wp_step. apply wp_upd; [by eauto|]. wp_step.
  eapply wp_rd; [cbn; by rewrite lookup_alter_eq, Ht|].
  apply wp_when; intros _.
  - wp_step. apply wp_upd; [by cbn; eauto|]. cbn. wp_step. apply wp_set_resched. intros nr.
    wp_step. apply wp_gets. wp_step. apply wp_gets.
    assert (∀ i, Q () (set_ipis i (set_need_resched nr (set_tasks (alter refill_slice
      (current_task s) (alter charge_tick (current_task s) (tasks s))) s)))) as HQ'.
    { intros i. apply HQ; cbn; [|done|done|].
      - rewrite !erase_alter; [done|apply charge_acct|apply refill_acct].
      - intros Hp. by do 2 (apply map_Forall_alter; [|auto]). }
    apply wp_when; intros _; [|by apply (HQ' (ipis s))].
    unfold smp_send_ipi_to_cpu. wp_step. apply wp_get.
    destruct (_ || _); [by apply (HQ' (ipis s))|].
    destruct (_ =? _); [by apply (HQ' (ipis s))|]. apply wp_modify, HQ'.
  - apply HQ; [|done|done|].
    + cbn. rewrite erase_alter; [done|apply charge_acct].
    + intros Hp. apply map_Forall_alter; [done|auto].
Qed.

Lemma sl_inv_erase e s s' sl :
  sl_inv s sl → e <$> tasks s = e <$> tasks s' → sleep_list_head s = sleep_list_head s' →
  (∀ t, t_sleep_next (e t) = t_sleep_next t) → (∀ t, t_sleep_until (e t) = t_sleep_until t) →
  sl_inv s' sl.
Proof.
  intros [H1 H2] He Hh Hn Hu. split.
  - rewrite <-Hh. by eapply seg_erase.
  - by eapply sorted_erase.
Qed.

Lemma rq_inv_erase e s s' rq :
  rq_inv s rq → e <$> tasks s = e <$> tasks s' → runqueue_head s = runqueue_head s' →
  runqueue_tail s = runqueue_tail s' → task_count s = task_count s' →
  runqueue_lock s = runqueue_lock s' → (∀ t, t_next (e t) = t_next t) → rq_inv s' rq.
Proof.
  intros [H1 H2 H3 H4 H5] He Hh Ht Hc Hl Hn. split; try congruence.
  - rewrite <-Hh. by eapply seg_erase.
  - by rewrite <-(erase_size e _ _ He).
Qed.

Lemma rq_inv_alter_all g l s rq :
  rq_inv s rq → (∀ t, t_next (g t) = t_next t) →
  rq_inv (set_tasks (alter_all g l (tasks s)) s) rq.
Proof.
  intros [H1 H2 H3 H4 H5] Hg. split; cbn; try done.
  - by apply seg_alter_all.
  - by rewrite size_alter_all.
Qed.

Lemma sl_inv_alter_all g l s sl :
  sl_inv s sl → (∀ t, t_sleep_next (g t) = t_sleep_next t) →
  (∀ t, t_sleep_until (g t) = t_sleep_until t) →
  sl_inv (set_tasks (alter_all g l (tasks s)) s) sl.
Proof.
  intros [H1 H2] Hg Hu. split; cbn; [by apply seg_alter_all|].
  rewrite (list_fmap_ext _ (deadline (tasks s))); [done|]. intros i p _. unfold deadline.
  rewrite lookup_alter_all. destruct (bool_decide _), (tasks s !! p); simpl; auto.
Qed.

Lemma woken_next t : t_next (woken t) = t_next t.
Proof. unfold woken. by destruct (bool_decide _). Qed.
Lemma boost_sleep now t :
  t_sleep_next (boost now t) = t_sleep_next t ∧ t_sleep_until (boost now t) = t_sleep_until t.
Proof. unfold boost. by destruct (_ && _). Qed.

Lemma wp_sched_tick rq sl Q s :
  rq_inv s rq → sl_inv s sl →
  (current_task s ≠ 0 → is_Some (tasks s !! current_task s)) →
  (∀ s', rq_inv s' rq → sl_inv s' (pending (tasks s) (ticks s) sl) →
    erase_acct <$> tasks s' =
      erase_acct <$> alter_all woken (expired (tasks s) (ticks s) sl) (tasks s) →
    frame erase_tick s s' →
    (all_tasks prio_ok s → all_tasks prio_ok s') → Q () s') →
  wp sched_tick Q s.
Proof.
  intros Hrq Hsl Hcur HQ. unfold sched_tick. wp_step. apply wp_gets. wp_step.
  apply wp_charge; [done|]. intros s1 He1 Hf1 Hh1 Hp1.
  pose proof (frame_get ticks _ _ _ Hf1 ltac:(done)) as Htick.
  assert (sl_inv s1 sl) as Hsl1 by (by eapply sl_inv_erase).
  wp_step. eapply wp_sched_check_sleepers; [done|]. intros h m s2 Hsl2.
  assert (∀ p, deadline (tasks s1) p = deadline (tasks s) p) as Hdl
    by (intros p; symmetry; by eapply deadline_erase).
  subst m s2. rewrite <-Htick in *. rewrite (pending_ext _ (tasks s)) in Hsl2 by auto.
  rewrite (expired_ext _ (tasks s)) in * by auto.
  set (ex := expired (tasks s) (ticks s) sl) in *.
  set (s2 := set_tasks (alter_all woken ex (tasks s1)) (set_sleep_list_head h s1)) in *.
  assert (frame erase_tick s s2) as Hf2 by (etransitivity; [exact Hf1|done]).
  assert (all_tasks prio_ok s → all_tasks prio_ok s2) as Hp2
    by (intros Hp; apply map_Forall_alter_all; auto; by apply Hp1).
  assert (rq_inv s2 rq) as Hrq2.
  { assert (rq_inv s1 rq) as H1.
    { eapply (rq_inv_erase erase_acct); [exact Hrq|done|..];
        first [by apply (frame_get _ _ _ _ Hf1)|done]. }
    apply (rq_inv_alter_all woken ex) in H1; [|apply woken_next]. by destruct H1. }
  assert (erase_acct <$> tasks s2 = erase_acct <$> alter_all woken ex (tasks s)) as He2
    by (symmetry; by apply erase_alter_all_woken).
  clearbody s2 ex. wp_step. apply wp_gets. wp_step. apply wp_gets.
  apply wp_when; intros _; [|by apply HQ].
  unfold sched_boost_starved. wp_step. wp_step. wp_step. apply wp_gets. wp_step. apply wp_gets.
  wp_step. apply wp_gets. cbn. pose proof (rq_length _ _ Hrq2).
  eapply wp_of_run; [apply (boost_all_run _ _ _ rq); [by apply Hrq2|done]|]. cbn.
  apply (rq_inv_alter_all (boost (ticks s2)) rq) in Hrq2; [|apply boost_next].
  apply (sl_inv_alter_all (boost (ticks s2)) rq) in Hsl2; [|apply boost_sleep|apply boost_sleep].
  apply HQ.
  - by destruct Hrq2.
  - by destruct Hsl2.
  - cbn. rewrite erase_alter_all; [done|apply boost_acct].
  - etransitivity; [exact Hf2|done].
  - intros Hp. apply map_Forall_alter_all; [by apply Hp2|auto].
Qed.
