(* ===== verification/WaitSpec.v ===== *)
(** * Abstract scheduler

    What the lists of the kernel stand for: for every task its state, the
    queue it waits on, its deadline and its time-out flag, and the ready
    queue, sleep list and wait queues as lists.  [rep s a] says that the kernel
    state [s] represents the abstract state [a]; the lemmas show that each
    operation of scheduler.c and wait_queue.c refines the abstract one. *)

From Stdlib Require Import Sorting.Sorted.
From S2P Require Import Prelude Bits Links SchedState Sched WaitQueue SchedSpec SchedRun.

Record view := View {
  vw_state : task_state;
  vw_queue : Z;
  vw_until : Z;
  vw_timed_out : bool;
}.

Definition view_of (t : task) : view :=
  View (t_state t) (t_wait_queue t) (t_sleep_until t) (t_sleep_timed_out t).

Record abs := Abs {
  a_views : gmap Z view;
  a_rq : list Z;
  a_sl : list Z;
  a_wl : gmap Z (list Z);
  a_cur : Z;
}.

(** The parts of the state that no queue operation changes. *)
Record env_ok (s : sched) : Prop := {
  eo_null : tasks s !! 0 = None;
  eo_prio : all_tasks prio_ok s;
  eo_proc : ∀ p t, tasks s !! p = Some t → is_Some (procs s !! t_process t);
  eo_idle0 : idle_task s ≠ 0;
  eo_idle : is_Some (tasks s !! idle_task s);
}.

Definition queue_rep (s : sched) (q : Z) (l : list Z) : Prop :=
  ∃ w, wqs s !! q = Some w ∧ seg t_wait_next (tasks s) (wq_head w) l 0 ∧
    wq_tail w = last_or_null l.

Record rep (s : sched) (a : abs) : Prop := {
  rep_rq : rq_inv s (a_rq a);
  rep_sl : sl_inv s (a_sl a);
  rep_wq : ∀ q l, a_wl a !! q = Some l → q ≠ 0 ∧ queue_rep s q l;
  rep_views : view_of <$> tasks s = a_views a;
  rep_cur : current_task s = a_cur a;
  rep_env : env_ok s;
}.

(** A queue only depends on the links of its members. *)
Lemma queue_rep_erase e s s' q l :
  queue_rep s q l → e <$> tasks s = e <$> tasks s' → wqs s = wqs s' →
  (∀ t, t_wait_next (e t) = t_wait_next t) → queue_rep s' q l.
Proof.
  intros (w & Hw & Hs & Ht) He Hq Hn. exists w. rewrite <-Hq. split; [done|].
  split; [|done]. by eapply seg_erase.
Qed.

Lemma env_ok_erase (e : task → task) s s' :
  env_ok s → e <$> tasks s = e <$> tasks s' → procs s = procs s' → idle_task s = idle_task s' →
  (∀ t, t_process (e t) = t_process t) →
  all_tasks prio_ok s' → env_ok s'.
Proof.
  intros [H1 H2 H3 H4 H5] He Hp Hi Hpr Hpo. split.
  - apply (f_equal (.!! 0)) in He. rewrite !lookup_fmap, H1 in He.
    destruct (tasks s' !! 0); done.
  - done.
  - intros p t Ht. rewrite <-Hp. symmetry in He.
    destruct (erase_Some e _ _ _ _ He Ht) as (t' & Ht' & Hee).
    apply (f_equal t_process) in Hee. rewrite !Hpr in Hee. rewrite Hee. by eapply H3.
  - by rewrite <-Hi.
  - rewrite <-Hi. destruct H5 as [t Ht].
    destruct (erase_Some e _ _ _ _ He Ht) as (t' & Ht' & _). eauto.
Qed.

(** Erasures that keep the priority fields keep their bounds. *)
Lemma prio_ok_erase (e : task → task) (s s' : sched) :
  e <$> tasks s = e <$> tasks s' → (∀ t, prio_ok (e t) ↔ prio_ok t) →
  all_tasks prio_ok s → all_tasks prio_ok s'.
Proof.
  intros He Hi Hp p t Ht. symmetry in He.
  destruct (erase_Some e _ _ _ _ He Ht) as (u & Hu & Heq).
  apply Hi. rewrite Heq. apply Hi. by apply (Hp p).
Qed.

Lemma views_erase (e : task → task) (m m' : gmap Z task) :
  e <$> m = e <$> m' → (∀ t, view_of (e t) = view_of t) → view_of <$> m = view_of <$> m'.
Proof.
  intros He Hv. apply map_eq. intros p. rewrite !lookup_fmap.
  by apply (erase_lookup e view_of).
Qed.

Lemma views_alter g f (m : gmap Z task) p :
  (∀ t, view_of (g t) = f (view_of t)) →
  view_of <$> alter g p m = alter f p (view_of <$> m).
Proof.
  intros Hg. apply map_eq. intros q. rewrite lookup_fmap.
  destruct (decide (q = p)) as [->|Hq].
  - rewrite !lookup_alter_eq, lookup_fmap. destruct (m !! p); simpl; [|done]. by rewrite Hg.
  - by rewrite !lookup_alter_ne, lookup_fmap.
Qed.

Lemma views_lookup s a p v :
  rep s a → a_views a !! p = Some v → ∃ t, tasks s !! p = Some t ∧ view_of t = v.
Proof.
  intros Hr. rewrite <-(rep_views _ _ Hr), lookup_fmap. intros (t & Ht & ->)%fmap_Some. eauto.
Qed.

(** ** Operations on the abstract state *)

Definition set_views (f : gmap Z view → gmap Z view) (a : abs) : abs := Abs (f (a_views a)) (a_rq a) (a_sl a) (a_wl a) (a_cur a).
Definition set_rq (f : list Z → list Z) (a : abs) : abs := Abs (a_views a) (f (a_rq a)) (a_sl a) (a_wl a) (a_cur a).
Definition set_sl (f : list Z → list Z) (a : abs) : abs := Abs (a_views a) (a_rq a) (f (a_sl a)) (a_wl a) (a_cur a).
Definition set_wl (f : gmap Z (list Z) → gmap Z (list Z)) (a : abs) : abs := Abs (a_views a) (a_rq a) (a_sl a) (f (a_wl a)) (a_cur a).
Definition set_cur (c : Z) (a : abs) : abs := Abs (a_views a) (a_rq a) (a_sl a) (a_wl a) c.

Definition a_add_task (p : Z) : abs → abs := set_rq (add_once p).
Definition a_remove_sleeper (p : Z) : abs → abs := set_sl (without p).

(** The components of [rep] that a framed step leaves alone: [He] equates
    the tasks up to an erasure, [Hf] the rest of the state. *)
Ltac framed Hf := first [done | by apply (frame_get _ _ _ _ Hf) | symmetry; by apply (frame_get _ _ _ _ Hf)].
Ltac rep_part He Hf :=
  lazymatch goal with
  | |- rq_inv _ _ => first [eassumption | eapply rq_inv_erase; [eassumption|exact He|..]; framed Hf]
  | |- sl_inv _ _ => first [eassumption | eapply sl_inv_erase; [eassumption|exact He|..]; framed Hf]
  | |- view_of <$> _ = ?v => first [assumption |
      let H := fresh in assert (H := views_erase _ _ _ He ltac:(done)); rewrite <-H; assumption]
  | |- current_task _ = _ => etransitivity; [|eassumption]; framed Hf
  | |- env_ok _ => eapply env_ok_erase; [eassumption|exact He|framed Hf|framed Hf|framed Hf|];
      eapply prio_ok_erase; [exact He| |by apply eo_prio];
      let u := fresh in intros u; split; intros []; by split
  | |- ∀ q l, _ !! q = Some l → _ =>
      let q := fresh "q" in let l := fresh "l" in let Hq := fresh "Hq" in
      intros q l Hq;
      match goal with H : ∀ q l, _ !! q = Some l → _ |- _ => destruct (H q l Hq) as [? ?] end;
      split; [done|]; eapply queue_rep_erase; [eassumption|exact He|framed Hf|done]
  end.

Lemma rep_frame_rq rq s s' a :
  rep s a → frame erase_rq s s' → rq_inv s' rq → rep s' (set_rq (λ _, rq) a).
Proof.
  intros Hr Hf Hrq. assert (set_t_next 0 <$> tasks s = set_t_next 0 <$> tasks s') as He
    by (by apply (f_equal tasks) in Hf).
  destruct Hr. split; cbn; rep_part He Hf.
Qed.

Lemma rep_add_task p a Q s :
  rep s a → is_Some (a_views a !! p) → p ≠ 0 →
  (∀ s', rep s' (a_add_task p a) → frame erase_rq s s' → Q () s') →
  wp (sched_add_task p) Q s.
Proof.
  intros Hr [v Hv] Hp HQ. destruct (views_lookup _ _ _ _ Hr Hv) as (t & Ht & _).
  eapply wp_sched_add_task; [apply Hr|by eauto|done|]. intros s' Hrq Hf. apply HQ; [|done].
  by apply (rep_frame_rq _ s).
Qed.

Lemma rep_remove_sleeper p a Q s :
  rep s a → (∀ s', rep s' (a_remove_sleeper p a) → frame erase_sl s s' → Q () s') →
  wp (sched_remove_sleeper p) Q s.
Proof.
  intros Hr HQ. eapply wp_sched_remove_sleeper; [apply Hr|].
  intros s' Hsl Hf. apply HQ; [|done].
  assert (set_t_sleep_next 0 <$> tasks s = set_t_sleep_next 0 <$> tasks s') as He
    by (by apply (f_equal tasks) in Hf).
  destruct Hr. split; cbn; rep_part He Hf.
Qed.

(** Insertion by deadline in the abstract state. *)
Definition a_deadline (vs : gmap Z view) (p : Z) : Z := default 0 (vw_until <$> vs !! p).
Fixpoint a_insert (vs : gmap Z view) (p : Z) (l : list Z) : list Z :=
  match l with
  | [] => [p]
  | q :: l' => if a_deadline vs q <=? a_deadline vs p then q :: a_insert vs p l' else p :: l
  end.
Definition a_add_sleeper (p : Z) (a : abs) : abs := set_sl (a_insert (a_views a) p) a.

Lemma deadline_view m p : deadline m p = a_deadline (view_of <$> m) p.
Proof. unfold deadline, a_deadline. rewrite lookup_fmap. by destruct (m !! p). Qed.

Lemma insert_by_view m p l : insert_by m p l = a_insert (view_of <$> m) p l.
Proof. induction l as [|q l IH]; simpl; [done|]. by rewrite !deadline_view, IH. Qed.

Lemma rep_add_sleeper p a Q s :
  rep s a → is_Some (a_views a !! p) → p ≠ 0 → p ∉ a_sl a →
  (∀ s', rep s' (a_add_sleeper p a) → frame erase_sl s s' → Q () s') →
  wp (sched_add_sleeper p) Q s.
Proof.
  intros Hr [v Hv] Hp Hout HQ. destruct (views_lookup _ _ _ _ Hr Hv) as (t & Ht & _).
  eapply wp_sched_add_sleeper; [apply Hr|by eauto|done|done|]. intros s' Hsl Hf. apply HQ; [|done].
  rewrite insert_by_view, (rep_views _ _ Hr) in Hsl.
  assert (set_t_sleep_next 0 <$> tasks s = set_t_sleep_next 0 <$> tasks s') as He
    by (by apply (f_equal tasks) in Hf).
  destruct Hr. split; cbn; rep_part He Hf.
Qed.

Lemma insert_by_elem vs p l q : q ∈ a_insert vs p l ↔ q = p ∨ q ∈ l.
Proof.
  induction l as [|x l IH]; simpl; [set_solver|]. destruct (_ <=? _); set_solver.
Qed.

(** A write to one task that no list depends on. *)
Definition on_no_queue (a : abs) (p : Z) : Prop := ∀ q l, a_wl a !! q = Some l → p ∉ l.

Lemma env_ok_alter g p s :
  env_ok s → (∀ t, t_process (g t) = t_process t) → (∀ t, prio_ok t → prio_ok (g t)) →
  env_ok (set_tasks (alter g p (tasks s)) s).
Proof.
  intros [H1 H2 H3 H4 H5] Hp Ho. split; cbn; auto.
  - by rewrite lookup_alter_None.
  - by apply map_Forall_alter.
  - intros q t. destruct (decide (q = p)) as [->|Hq].
    + rewrite lookup_alter_eq. intros (u & Hu & ->)%fmap_Some. rewrite Hp. by eapply H3.
    + rewrite lookup_alter_ne by done. apply H3.
Qed.

Lemma rep_upd p g f a Q s :
  rep s a → is_Some (a_views a !! p) →
  (∀ t, view_of (g t) = f (view_of t)) →
  (∀ t, t_next (g t) = t_next t ∧ t_process (g t) = t_process t ∧ (prio_ok t → prio_ok (g t))) →
  (p ∉ a_sl a ∨
    ∀ t, t_sleep_next (g t) = t_sleep_next t ∧ t_sleep_until (g t) = t_sleep_until t) →
  (on_no_queue a p ∨ ∀ t, t_wait_next (g t) = t_wait_next t) →
  (∀ s', rep s' (set_views (alter f p) a) → s' = set_tasks (alter g p (tasks s)) s → Q () s') →
  wp (upd p g) Q s.
Proof.
  intros Hr [v Hv] Hgv Hg Hsl Hwl HQ. destruct (views_lookup _ _ _ _ Hr Hv) as (t & Ht & _).
  apply wp_upd; [by eauto|]. apply HQ; [|done].
  destruct Hr as [H1 [H2 H2'] H3 H4 H5 H6]. split; cbn.
  - destruct H1 as [Ha Hb Hc Hd He]. split; cbn; auto.
    + apply seg_alter_same; [done|apply Hg].
    + rewrite <-(size_dom (alter _ _ _)), dom_alter_L, size_dom. done.
  - split; cbn.
    + destruct Hsl as [Hsl|Hsl]; [by apply seg_alter_out|apply seg_alter_same; [done|apply Hsl]].
    + rewrite (list_fmap_ext _ (deadline (tasks s))); [done|].
      intros i x Hx%list_elem_of_lookup_2. unfold deadline.
      destruct (decide (x = p)) as [->|]; [|by rewrite lookup_alter_ne].
      destruct Hsl as [Hsl|Hsl]; [done|]. rewrite lookup_alter_eq, Ht. simpl. apply Hsl.
  - intros q l Hq. destruct (H3 q l Hq) as [Hq0 (w & Hw & Hs & Htl)]. split; [done|].
    exists w. split; [done|]. split; [|done].
    destruct Hwl as [Hwl|Hwl]; [apply seg_alter_out; [done|by eapply Hwl]|by apply seg_alter_same].
  - rewrite <-H4. by apply views_alter.
  - done.
  - apply env_ok_alter; [done|apply Hg|apply Hg].
Qed.

(** The side condition of [rep_upd] for a write of view fields. *)
Ltac upd_ok := intros ?; split; [done|]; split; [done|]; intros []; by split.

(** ** Wait queues *)

(** Different queues have no task in common. *)
Definition queues_disjoint (a : abs) : Prop :=
  ∀ q q' l l' p, a_wl a !! q = Some l → a_wl a !! q' = Some l' → p ∈ l → p ∈ l' → q = q'.

Definition to_sleep (q : Z) (v : view) : view := View TASK_SLEEPING q (vw_until v) false.

Definition a_enqueue (q p : Z) (a : abs) : abs :=
  set_wl (alter (λ l, l ++ [p]) q) (set_views (alter (to_sleep q) p) a).

(** A write to the tasks of one queue leaves the other queues alone. *)
Lemma queue_rep_other s q l m w' q' :
  queue_rep s q' l → q' ≠ q → (∀ p, p ∈ l → t_wait_next <$> m !! p = t_wait_next <$> tasks s !! p) →
  queue_rep (set_wqs (<[q := w']> (wqs s)) (set_tasks m s)) q' l.
Proof.
  intros (w & Hw & Hs & Ht) Hq Hm. exists w. cbn. rewrite lookup_insert_ne by done.
  split; [done|]. split; [|done]. by eapply seg_ext.
Qed.

Definition asleep_on (q : Z) (t : task) : task :=
  set_t_sleep_timed_out false (set_t_wait_queue q
    (set_t_state TASK_SLEEPING (set_t_wait_next 0 t))).

(** The state after [enqueue_self]. *)
Lemma enqueue_self_run q self l w s :
  wqs s !! q = Some w → wq_tail w = last_or_null l →
  seg t_wait_next (tasks s) (wq_head w) l 0 → is_Some (tasks s !! self) → self ∉ l →
  let x := last_or_null l in
  let m := alter (asleep_on q) self (tasks s) in
  enqueue_self q self s =
    Done ((), set_wqs (<[q := WaitQueue (if x =? 0 then self else wq_head w) self]> (wqs s))
      (set_tasks (if x =? 0 then m else alter (set_t_wait_next self) x m) s)).
Proof.
  intros Hw Htl Hs Hself Hout. cbv zeta. apply wp_eq. unfold enqueue_self.
  wp_step. eapply wp_rd_wq; [done|]. rewrite Htl. wp_step.
  destruct (Z.eqb_spec (last_or_null l) 0) as [Hz|Hz]; cbn [negb].
  - apply wp_upd_wq; [by eauto|]. wp_step. apply wp_upd_wq; [cbn; by rewrite lookup_alter_is_Some|].
    apply wp_upd; [by cbn|]. split; [done|]. cbn.
    rewrite alter_alter_eq, <-(alter_insert _ _ _ _ Hw). by destruct w.
  - apply wp_upd; [apply (seg_in _ _ _ _ _ _ Hs), last_or_null_in; done|]. wp_step.
    apply wp_upd_wq; [by cbn; eauto|]. apply wp_upd; [by cbn; eauto|]. split; [done|]. cbn.
    assert (self ≠ last_or_null l) by (intros ->; by apply Hout, last_or_null_in).
    rewrite (alter_swap (asleep_on q)) by done.
    rewrite <-(alter_insert _ _ _ _ Hw). by destruct w.
Qed.

Lemma rep_enqueue_self q self l a Q s :
  rep s a → a_wl a !! q = Some l → is_Some (a_views a !! self) → self ≠ 0 →
  on_no_queue a self → queues_disjoint a →
  (∀ s', rep s' (a_enqueue q self a) → ticks s' = ticks s → r_if (cpu s') = r_if (cpu s) →
    idle_task s' = idle_task s → Q () s') →
  wp (enqueue_self q self) Q s.
Proof.
  intros Hr Hq [v Hv] Hself Hno Hdis HQ.
  destruct (views_lookup _ _ _ _ Hr Hv) as (t & Ht & Hvt).
  destruct Hr as [H1 H2 H3 H4 H5 H6].
  destruct (H3 q l Hq) as [Hq0 (w & Hw & Hs & Htl)].
  eapply wp_of_run; [by eapply enqueue_self_run; eauto|]. apply HQ; [|done..].
  set (m := alter (asleep_on q) self (tasks s)).
  set (m' := if last_or_null l =? 0 then m else alter (set_t_wait_next self) (last_or_null l) m).
  set (e := λ t, set_t_wait_next 0 (asleep_on 0 t)).
  assert (e <$> tasks s = e <$> m') as He
    by (unfold m', m; destruct (_ =? 0); rewrite ?erase_alter by done; done).
  split; cbn.
  - eapply rq_inv_erase; [exact H1|exact He|done..].
  - eapply sl_inv_erase; [exact H2|exact He|done..].
  - intros q' l' Hq'. destruct (decide (q' = q)) as [->|Hne].
    + rewrite lookup_alter_eq, Hq in Hq'. simpl in Hq'. simplify_eq. split; [done|].
      eexists. cbn. rewrite lookup_insert_eq. split; [done|]. split; [|cbn; by rewrite last_or_null_snoc].
      cbn. apply (seg_append t_wait_next m (wq_head w) l self (set_t_wait_next self) (asleep_on q t)); try done.
      * apply seg_alter_out; [done|]. by eapply Hno.
      * by eapply Hno.
      * unfold m. by rewrite lookup_alter_eq, Ht.
    + rewrite lookup_alter_ne in Hq' by done. destruct (H3 q' l' Hq') as [? Hl']. split; [done|].
      apply queue_rep_other; [done|done|]. intros p Hp.
      assert (p ≠ self) as Hps by (intros ->; by eapply Hno).
      unfold m', m. destruct (Z.eqb_spec (last_or_null l) 0) as [Hz|Hz].
      * by rewrite lookup_alter_ne.
      * rewrite !lookup_alter_ne; [done|done|]. intros <-.
        by apply Hne, (Hdis q' q l' l (last_or_null l)), last_or_null_in.
  - rewrite <-H4. assert (view_of <$> m' = view_of <$> m) as ->.
    { unfold m'. destruct (_ =? 0); [done|]. rewrite (views_alter _ id) by done.
      apply map_eq. intros p. destruct (decide (p = last_or_null l)) as [->|];
        [by rewrite lookup_alter_eq, option_fmap_id|by rewrite lookup_alter_ne]. }
    by apply views_alter.
  - done.
  - eapply env_ok_erase; [exact H6|exact He|done|done|done|].
    eapply prio_ok_erase; [exact He| |apply H6]. intros u. split; intros []; by split.
Qed.

(** The state after [p], which follows [l1], has left the queue [q]. *)
Definition wq_unlinked (q : Z) (w : wait_queue) (l1 : list Z) (p : Z) (u : task) (s : sched)
    : sched :=
  let x := last_or_null l1 in
  set_wqs (<[q := WaitQueue (if x =? 0 then t_wait_next u else wq_head w)
                    (if wq_tail w =? p then x else wq_tail w)]> (wqs s))
    (set_tasks (if x =? 0 then tasks s
                else alter (set_t_wait_next (t_wait_next u)) x (tasks s)) s).

Lemma remove_waiter_skip fuel q prev curr p s l :
  seg t_wait_next (tasks s) curr l 0 → p ∉ l → (length l ≤ fuel)%nat →
  remove_waiter fuel q prev curr p s = Done ((), s).
Proof.
  revert fuel prev curr. induction l as [|x l IH]; intros fuel prev curr Hs Hp Hf.
  { simpl in Hs. subst. by destruct fuel. }
  destruct Hs as (-> & Hx & t & Ht & Hl). destruct fuel as [|fuel]; simpl in Hf; [lia|].
  simpl. rewrite (proj2 (Z.eqb_neq _ _) Hx). apply wp_eq. wp_step. eapply wp_rd; [done|].
  rewrite (proj2 (Z.eqb_neq x p)) by set_solver. apply wp_eq. apply IH; [done|set_solver|lia].
Qed.

Lemma remove_waiter_run fuel q w curr p u s done l1 l2 :
  wqs s !! q = Some w →
  seg t_wait_next (tasks s) (wq_head w) (done ++ l1 ++ p :: l2) 0 →
  seg t_wait_next (tasks s) curr (l1 ++ p :: l2) 0 →
  tasks s !! p = Some u → (length (l1 ++ p :: l2) ≤ fuel)%nat →
  remove_waiter fuel q (last_or_null done) curr p s = Done ((), wq_unlinked q w (done ++ l1) p u s).
Proof.
  intros Hw. revert fuel done curr.
  induction l1 as [|x l1 IH]; intros fuel done curr Hs Hc Hu Hf;
    (destruct fuel as [|fuel]; [simpl in Hf; lia|]);
    destruct Hc as (-> & Hx & t & Ht & Hl); simpl; rewrite (proj2 (Z.eqb_neq _ _) Hx);
    apply wp_eq; wp_step; (eapply wp_rd; [exact Ht|]).
  - assert (t = u) as -> by congruence. rewrite app_nil_r, Z.eqb_refl. unfold wq_unlinked.
    wp_step. destruct (Z.eqb_spec (last_or_null done) 0) as [Hz|Hz]; cbn [negb].
    + apply wp_upd_wq; [by eauto|]. wp_step. eapply wp_rd_wq; [cbn; by rewrite lookup_alter_eq, Hw|].
      apply wp_when; cbn; intros Et; rewrite Et.
      * apply wp_upd_wq; [cbn; by rewrite lookup_alter_is_Some|]. split; [done|]. cbn.
        rewrite alter_alter_eq, <-(alter_insert _ _ _ _ Hw). by destruct w, s.
      * split; [done|]. rewrite <-(alter_insert _ _ _ _ Hw). by destruct w, s.
    + apply wp_upd.
      { eapply seg_in; [exact Hs|]. apply elem_of_app. left. by apply last_or_null_in. }
      wp_step. eapply wp_rd_wq; [by cbn|].
      apply wp_when; cbn; intros Et; rewrite Et.
      * apply wp_upd_wq; [by cbn; eauto|]. split; [done|]. cbn.
        rewrite <-(alter_insert _ _ _ _ Hw). by destruct w, s.
      * split; [done|]. rewrite insert_id; [by destruct w, s|]. rewrite Hw. by destruct w.
  - pose proof (seg_nodup _ _ _ _ Hs) as (_ & _ & Hnd)%NoDup_app.
    rewrite (proj2 (Z.eqb_neq x p)) by (apply NoDup_app in Hnd as (_ & Hd & _); set_solver).
    apply wp_eq. specialize (IH fuel (done ++ [x]) (t_wait_next t)).
    rewrite last_or_null_snoc, <-!app_assoc in IH. apply IH; [done|done|done|simpl in *; lia].
Qed.

Lemma queue_length s a q l : rep s a → a_wl a !! q = Some l → (length l ≤ size (tasks s))%nat.
Proof.
  intros Hr Hq. destruct (rep_wq _ _ Hr q l Hq) as [_ (w & _ & Hs & _)].
  eapply seg_length; [done|]. by eapply seg_nodup.
Qed.

Definition a_unlink (q p : Z) : abs → abs := set_wl (alter (without p) q).

Lemma rep_unlink_waiter q p l a Q s :
  rep s a → a_wl a !! q = Some l → queues_disjoint a →
  (∀ s', rep s' (a_unlink q p a) → ticks s' = ticks s → cpu s' = cpu s →
    idle_task s' = idle_task s → Q () s') →
  wp (unlink_waiter q p) Q s.
Proof.
  intros Hr Hq Hdis HQ. pose proof (queue_length _ _ _ _ Hr Hq) as Hlen.
  pose proof Hr as [H1 H2 H3 H4 H5 H6]. destruct (H3 q l Hq) as [Hq0 (w & Hw & Hs & Htl)].
  unfold unlink_waiter. wp_step. eapply wp_rd_wq; [done|]. wp_step. apply wp_gets.
  destruct (decide (p ∈ l)) as [Hin|Hout].
  2:{ eapply wp_of_run; [by eapply remove_waiter_skip|]. apply HQ; [|done..].
      assert (a_unlink q p a = a) as ->; [|done]. destruct a; cbn in *. unfold a_unlink. cbn.
      unfold set_wl. cbn. f_equal. apply map_eq. intros q'.
      destruct (decide (q' = q)) as [->|]; [|by rewrite lookup_alter_ne].
      rewrite lookup_alter_eq, Hq. cbn. by rewrite without_out. }
  apply list_elem_of_split in Hin as (l1 & l2 & ->).
  pose proof (seg_nodup _ _ _ _ Hs) as Hnd.
  destruct (seg_in _ _ _ _ _ p Hs) as [Hp0 [u Hu]]; [set_solver|].
  eapply wp_of_run; [by eapply (remove_waiter_run _ _ _ _ _ _ _ [] l1 l2)|].
  apply HQ; [|done..]. cbn [app]. unfold wq_unlinked.
  set (m' := if last_or_null l1 =? 0 then tasks s else _).
  assert (set_t_wait_next 0 <$> tasks s = set_t_wait_next 0 <$> m') as He
    by (unfold m'; destruct (_ =? 0); rewrite ?erase_alter by done; done).
  split; cbn.
  - eapply rq_inv_erase; [exact H1|exact He|done..].
  - eapply sl_inv_erase; [exact H2|exact He|done..].
  - intros q' l' Hq'. destruct (decide (q' = q)) as [->|Hne].
    + rewrite lookup_alter_eq, Hq in Hq'. simpl in Hq'. simplify_eq. split; [done|].
      rewrite without_middle by done. eexists. cbn. rewrite lookup_insert_eq. split; [done|].
      cbn. split; [|rewrite Htl; by apply last_or_null_unlink].
      by apply (seg_unlink t_wait_next (tasks s) (wq_head w) l1 p l2 u).
    + rewrite lookup_alter_ne in Hq' by done. destruct (H3 q' l' Hq') as [? Hl']. split; [done|].
      apply queue_rep_other; [done|done|]. intros x Hx. unfold m'.
      destruct (Z.eqb_spec (last_or_null l1) 0) as [Hz|Hz]; [done|].
      rewrite lookup_alter_ne; [done|]. intros <-.
      eapply Hne, Hdis; [exact Hq'|exact Hq|exact Hx|]. apply elem_of_app. left.
      by apply last_or_null_in.
  - rewrite <-H4. symmetry. by eapply views_erase.
  - done.
  - eapply env_ok_erase; [exact H6|exact He|done|done|done|].
    eapply prio_ok_erase; [exact He| |apply H6]. intros v. split; intros []; by split.
Qed.

(** ** Waking *)

(** Taking a queue out of the represented state, and putting it back. *)
Lemma rep_drop_queue q s a : rep s a → rep s (set_wl (delete q) a).
Proof.
  intros []. split; cbn; try done. intros q' l Hq'. apply lookup_delete_Some in Hq' as [_ Hq'].
  auto.
Qed.

Lemma rep_put_queue q l s a :
  rep s (set_wl (delete q) a) → q ≠ 0 → queue_rep s q l → rep s (set_wl <[q := l]> a).
Proof.
  intros [] Hq0 Hq. split; cbn; try done. intros q' l' Hq'.
  apply lookup_insert_Some in Hq' as [[<- <-]|[Hne Hq']]; [done|].
  apply rep_wq0. cbn. by rewrite lookup_delete_ne.
Qed.

(** Operations that keep the wait links. *)
Record quiet (s s' : sched) : Prop := {
  qu_wqs : wqs s' = wqs s;
  qu_ticks : ticks s' = ticks s;
  qu_cpu : cpu s' = cpu s;
  qu_idle : idle_task s' = idle_task s;
  qu_wait : ∀ p, t_wait_next <$> tasks s' !! p = t_wait_next <$> tasks s !! p;
}.

#[global] Instance quiet_preorder : PreOrder quiet.
Proof.
  split; [done|]. intros s1 s2 s3 [] []. split; congruence.
Qed.

Lemma quiet_frame e s s' (f : task → task) :
  frame e s s' → (∀ s, wqs (e s) = wqs s) → (∀ s, ticks (e s) = ticks s) →
  (∀ s, cpu (e s) = cpu s) → (∀ s, idle_task (e s) = idle_task s) →
  (∀ s, tasks (e s) = f <$> tasks s) → (∀ t, t_wait_next (f t) = t_wait_next t) → quiet s s'.
Proof.
  intros Hf H1 H2 H3 H4 H5 H6. split; try (symmetry; by apply (frame_get _ _ _ _ Hf)).
  intros p. symmetry. apply (erase_lookup f); [|done]. rewrite <-!H5. by rewrite Hf.
Qed.

Lemma quiet_alter g p s :
  (∀ t, t_wait_next (g t) = t_wait_next t) → quiet s (set_tasks (alter g p (tasks s)) s).
Proof.
  intros Hg. split; try done. intros q. cbn. destruct (decide (q = p)) as [->|];
    [|by rewrite lookup_alter_ne]. rewrite lookup_alter_eq.
  destruct (tasks s !! p); simpl; [|done]. by rewrite Hg.
Qed.

Definition awake (v : view) : view := View TASK_READY (vw_queue v) 0 false.

Definition no_deadline (v : view) : view :=
  View (vw_state v) (vw_queue v) 0 (vw_timed_out v).
Definition ready_again (v : view) : view := View TASK_READY (vw_queue v) (vw_until v) false.

(** A task that has been taken off its queue is made ready if it sleeps. *)
Definition a_wake (p : Z) (a : abs) : abs :=
  match a_views a !! p with
  | Some v =>
      if bool_decide (vw_state v = TASK_SLEEPING) then
        a_add_task p (set_views (alter awake p)
          (if vw_until v =? 0 then a else a_remove_sleeper p a))
      else a
  | None => a
  end.

Lemma rep_wake_task p v a Q s :
  rep s a → a_views a !! p = Some v → p ≠ 0 →
  (∀ s', rep s' (a_wake p a) → quiet s s' → Q () s') → wp (wake_task p) Q s.
Proof.
  intros Hr Hv Hp HQ. unfold a_wake in HQ. rewrite Hv in HQ. unfold wake_task.
  destruct (views_lookup _ _ _ _ Hr Hv) as (t & Ht & <-). cbn in HQ.
  wp_step. eapply wp_rd; [done|]. apply wp_when; intros Hst; rewrite Hst in HQ; [|by apply HQ].
  wp_step. eapply wp_mono with (Q := λ _ s', quiet s s' ∧ rep s' (set_views (alter no_deadline p)
      (if t_sleep_until t =? 0 then a else a_remove_sleeper p a))).
  { destruct (Z.eqb_spec (t_sleep_until t) 0) as [Hz|Hz]; cbn [negb when].
    - apply wp_ret. split; [done|]. destruct Hr as [H1 H2 H3 H4 H5 H6]. split; cbn; try done.
      rewrite <-H4. apply map_eq. intros q. rewrite lookup_fmap.
      destruct (decide (q = p)) as [->|]; [|by rewrite lookup_alter_ne, lookup_fmap].
      rewrite lookup_alter_eq, lookup_fmap, Ht. cbn. unfold no_deadline, view_of. cbn. by rewrite Hz.
    - wp_step. eapply rep_remove_sleeper; [done|]. intros s1 Hr1 Hf1.
      eapply (rep_upd _ _ no_deadline); [done|by eauto|done|upd_ok| |by right|].
      + left. cbn. rewrite elem_of_without. naive_solver.
      + intros s2 Hr2 ->. split; [|done].
        etransitivity; [|by apply quiet_alter]. by eapply (quiet_frame _ _ _ _ Hf1). }
  intros [] s1 [Hq1 Hr1]. wp_step.
  assert (is_Some (alter no_deadline p (a_views a) !! p)) as Hsome by (rewrite lookup_alter_is_Some; eauto).
  eapply (rep_upd _ _ ready_again);
    [done|by destruct (_ =? 0)|done|upd_ok|by right|by right|].
  intros s2 Hr2 ->. eapply rep_add_task; [done| |done|].
  { cbn. rewrite lookup_alter_is_Some. by destruct (_ =? 0). }
  intros s3 Hr3 Hf3. apply HQ.
  - replace (set_views (alter awake p) _) with (set_views (alter ready_again p)
      (set_views (alter no_deadline p)
        (if t_sleep_until t =? 0 then a else a_remove_sleeper p a))); [done|].
    unfold set_views. cbn. by rewrite alter_alter_eq.
  - rewrite Hq1. etransitivity; [|by eapply (quiet_frame _ _ _ _ Hf3)]. by apply quiet_alter.
Qed.

Definition a_leave (p : Z) : abs → abs :=
  set_views (alter (λ v, View (vw_state v) 0 (vw_until v) (vw_timed_out v)) p).

Lemma a_wake_wl p f a : a_wake p (set_wl f a) = set_wl f (a_wake p a).
Proof.
  unfold a_wake. cbn. destruct (a_views a !! p) as [v|]; [|done].
  destruct (bool_decide _); [|done]. by destruct (vw_until v =? 0).
Qed.

Lemma a_wake_lists p a : a_wl (a_wake p a) = a_wl a ∧ a_cur (a_wake p a) = a_cur a ∧
  ∀ q, is_Some (a_views (a_wake p a) !! q) ↔ is_Some (a_views a !! q).
Proof.
  unfold a_wake. destruct (a_views a !! p) as [v|] eqn:Hv; [|done].
  destruct (bool_decide _); [|done]. cbn. destruct (vw_until v =? 0); cbn;
    (do 2 (split; [done|])); intros q; apply lookup_alter_is_Some.
Qed.

Lemma rep_set_if b s a : rep s a → rep (set_cpu (set_r_if b (cpu s)) s) a.
Proof. by intros [[] [] H3 H4 H5 []]. Qed.

Lemma wp_save_if Q s :
  Q (r_if (cpu s)) (set_cpu (set_r_if false (cpu s)) s) → wp save_interrupts_and_disable Q s.
Proof. intros H. unfold save_interrupts_and_disable, set_if. wp_steps. done. Qed.

Lemma wp_restore_if b Q s :
  Q () (set_cpu (set_r_if b (cpu s)) s) → wp (restore_interrupts b) Q s.
Proof. intros H. unfold restore_interrupts, set_if. by wp_steps. Qed.

(** Writing the head and tail of a queue that has been taken out. *)
Lemma rep_dropped_queue q m s a :
  rep s (set_wl (delete q) a) → (∀ q', q' ≠ q → m !! q' = wqs s !! q') →
  rep (set_wqs m s) (set_wl (delete q) a).
Proof.
  intros [[] [] H3 H4 H5 []] Hm. split; try done. intros q' l Hq'.
  destruct (H3 q' l Hq') as [Hq0 (w & Hw & Hs)]. split; [done|]. exists w. cbn.
  rewrite Hm; [done|]. cbn in Hq'. apply lookup_delete_Some in Hq'. naive_solver.
Qed.

(** One task of a queue that has been taken out is released. *)
Lemma rep_release p a Q s :
  rep s a → is_Some (a_views a !! p) → p ≠ 0 → on_no_queue a p →
  (∀ s', rep s' (a_wake p (a_leave p a)) → wqs s' = wqs s → ticks s' = ticks s →
    cpu s' = cpu s → idle_task s' = idle_task s →
    (∀ h l, seg t_wait_next (tasks s) h l 0 → p ∉ l → seg t_wait_next (tasks s') h l 0) →
    Q () s') →
  wp (upd p (λ t, set_t_wait_queue 0 (set_t_wait_next 0 t));; wake_task p) Q s.
Proof.
  intros Hr Hv Hp Hno HQ. wp_step.
  eapply (rep_upd _ _ (λ v, View (vw_state v) 0 (vw_until v) (vw_timed_out v)));
    [done|done|done|upd_ok|by right|by left|].
  intros s1 Hr1 ->. destruct Hv as [v Hv].
  eapply rep_wake_task; [done| |done|].
  { cbn. by rewrite lookup_alter_eq, Hv. }
  intros s2 Hr2 [H1 H2 H3 H4 H5]. apply HQ; try done.
  intros h l Hs Hout. apply (seg_ext _ (alter (λ t, set_t_wait_queue 0 (set_t_wait_next 0 t)) p (tasks s))).
  - by apply seg_alter_out.
  - intros x _. apply H5.
Qed.

Lemma last_or_null_cons x l : last_or_null (x :: l) = if bool_decide (l = []) then x else last_or_null l.
Proof. unfold last_or_null. by destruct l. Qed.

Definition a_wake_one (q : Z) (a : abs) : abs :=
  match a_wl a !! q with
  | Some (p :: l) => a_wake p (a_leave p (set_wl <[q := l]> a))
  | _ => a
  end.

Lemma rep_wake_one q l a Q s :
  rep s a → a_wl a !! q = Some l → queues_disjoint a →
  (∀ s', rep s' (a_wake_one q a) → ticks s' = ticks s → idle_task s' = idle_task s →
    r_if (cpu s') = r_if (cpu s) → Q () s') →
  wp (wait_queue_wake_one q) Q s.
Proof.
  intros Hr Hq Hdis HQ. unfold wait_queue_wake_one, a_wake_one in *. rewrite Hq in HQ.
  destruct (rep_wq _ _ Hr q l Hq) as [Hq0 (w & Hw & Hs & Htl)].
  rewrite (proj2 (Z.eqb_neq _ _) Hq0). wp_step. apply wp_save_if.
  wp_step. eapply wp_rd_wq; [done|]. wp_step.
  pose proof (seg_nodup _ _ _ _ Hs) as Hnd.
  destruct l as [|p l].
  { simpl in Hs. rewrite Hs. apply wp_ret. apply wp_restore_if. apply HQ; [|done..].
    destruct Hr as [[] [] H3 H4 H5 []]. by split. }
  destruct Hs as (Hh & Hp0 & t & Ht & Hs). rewrite Hh, (proj2 (Z.eqb_neq _ _) Hp0). cbn [negb when].
  apply NoDup_cons in Hnd as [Hpl _].
  wp_step. eapply wp_rd; [done|]. wp_step. apply wp_upd_wq; [by cbn; eauto|].
  set (w' := WaitQueue (t_wait_next t) (if t_wait_next t =? 0 then 0 else wq_tail w)).
  wp_step. apply wp_mono with (Q := λ _ s', s' = set_wqs (<[q := w']> (wqs s))
    (set_cpu (set_r_if false (cpu s)) s)).
  { rewrite <-(alter_insert _ _ _ _ Hw). cbn. unfold when, w'. destruct (t_wait_next t =? 0) eqn:En.
    - apply wp_upd_wq; [cbn; by rewrite lookup_insert_eq|]. cbn.
      rewrite <-(alter_insert _ _ _ (set_wq_head (t_wait_next t) w)) by by rewrite lookup_insert_eq.
      rewrite insert_insert_eq. by destruct s.
    - apply wp_ret. by destruct w, s. }
  intros [] s1 ->.
  assert (rep (set_wqs (<[q := w']> (wqs s)) (set_cpu (set_r_if false (cpu s)) s))
    (set_wl (delete q) a)) as Hr1.
  { apply (rep_dropped_queue q (<[q := w']> (wqs s)) (set_cpu (set_r_if false (cpu s)) s)).
    - by apply rep_set_if, rep_drop_queue.
    - intros q' Hq'. by rewrite lookup_insert_ne. }
  eapply rep_release; [exact Hr1| |done| |].
  { cbn. rewrite <-(rep_views _ _ Hr), lookup_fmap, Ht. by eexists. }
  { intros q' l' Hq' Hin. cbn in Hq'. apply lookup_delete_Some in Hq' as [Hne Hq'].
    by apply Hne, (Hdis q q' (p :: l) l' p); [..|left|]. }
  intros s2 Hr2 Hw2 Ht2 Hc2 Hi2 Hseg. apply wp_restore_if. apply HQ; [|done| |by cbn].
  2:{ by cbn. }
  apply rep_set_if.
  change (a_leave p (set_wl <[q := l]> a)) with (set_wl <[q := l]> (a_leave p a)). rewrite a_wake_wl.
  apply rep_put_queue; [|done|].
  - rewrite <-a_wake_wl. exact Hr2.
  - exists w'. rewrite Hw2. cbn. rewrite lookup_insert_eq. split; [done|]. split; [by apply Hseg|].
    unfold w'. cbn. rewrite Htl, last_or_null_cons. destruct l as [|x l].
    + simpl in Hs. by rewrite Hs.
    + destruct Hs as (-> & Hx & _). by rewrite (proj2 (Z.eqb_neq _ _) Hx), bool_decide_false.
Qed.

Definition a_release (a : abs) (p : Z) : abs := a_wake p (a_leave p a).

Definition a_wake_all (q : Z) (a : abs) : abs :=
  match a_wl a !! q with
  | Some l => set_wl <[q := []]> (foldl a_release a l)
  | None => a
  end.

Lemma a_release_wl p f a : a_release (set_wl f a) p = set_wl f (a_release a p).
Proof. unfold a_release. by rewrite <-a_wake_wl. Qed.

Lemma foldl_release_wl f l a :
  foldl a_release (set_wl f a) l = set_wl f (foldl a_release a l).
Proof. revert a. induction l as [|p l IH]; intros a; [done|]. simpl. by rewrite a_release_wl, IH. Qed.

Lemma a_release_lists p a : a_wl (a_release a p) = a_wl a ∧
  ∀ q, is_Some (a_views (a_release a p) !! q) ↔ is_Some (a_views a !! q).
Proof.
  unfold a_release. destruct (a_wake_lists p (a_leave p a)) as (H1 & _ & H2). split; [done|].
  intros q. rewrite H2. apply lookup_alter_is_Some.
Qed.

Lemma rep_wake_all_loop fuel task l a Q s :
  rep s a → seg t_wait_next (tasks s) task l 0 → (length l ≤ fuel)%nat →
  (∀ p, p ∈ l → is_Some (a_views a !! p) ∧ on_no_queue a p) →
  (∀ s', rep s' (foldl a_release a l) → wqs s' = wqs s → ticks s' = ticks s →
    cpu s' = cpu s → idle_task s' = idle_task s → Q () s') →
  wp (wake_all_loop fuel task) Q s.
Proof.
  revert fuel task a s. induction l as [|p l IH]; intros fuel task a s Hr Hs Hf Hin HQ.
  { simpl in Hs. subst. destruct fuel; by apply HQ. }
  pose proof (seg_nodup _ _ _ _ Hs) as [Hpl _]%NoDup_cons.
  destruct Hs as (-> & Hp0 & t & Ht & Hs). destruct fuel as [|fuel]; simpl in Hf; [lia|].
  simpl. rewrite (proj2 (Z.eqb_neq _ _) Hp0). wp_step. eapply wp_rd; [done|].
  destruct (Hin p (list_elem_of_here _ _)) as [Hv Hno].
  assert (∀ (m1 m2 m3 : prog sched ()) R s0,
    wp (m1;; m2) (λ _, wp m3 R) s0 → wp (m1;; m2;; m3) R s0) as Hassoc.
  { intros m1 m2 m3 R s0. unfold wp, mbind, prog_bind. destruct (m1 s0) as [[[] s1]|]; [|done].
    by destruct (m2 s1) as [[[] s2]|]. }
  apply Hassoc. eapply rep_release; [done|done|done|done|].
  intros s1 Hr1 Hw1 Ht1 Hc1 Hi1 Hseg. apply (IH fuel _ (a_release a p)).
  - done.
  - by apply Hseg.
  - lia.
  - intros x Hx. destruct (Hin x) as [Hvx Hnx]; [by right|].
    destruct (a_release_lists p a) as [Hwl Hvs]. split; [by apply Hvs|].
    intros q l' Hq. rewrite Hwl in Hq. by eapply Hnx.
  - intros s2 Hr2 Hw2 Ht2 Hc2 Hi2. apply HQ; [done|congruence..].
Qed.

Lemma rep_wake_all q l a Q s :
  rep s a → a_wl a !! q = Some l → queues_disjoint a →
  (∀ s', rep s' (a_wake_all q a) → ticks s' = ticks s → idle_task s' = idle_task s →
    r_if (cpu s') = r_if (cpu s) → Q () s') →
  wp (wait_queue_wake_all q) Q s.
Proof.
  intros Hr Hq Hdis HQ. unfold wait_queue_wake_all, a_wake_all in *. rewrite Hq in HQ.
  pose proof (queue_length _ _ _ _ Hr Hq) as Hlen.
  destruct (rep_wq _ _ Hr q l Hq) as [Hq0 (w & Hw & Hs & Htl)].
  rewrite (proj2 (Z.eqb_neq _ _) Hq0). wp_step. apply wp_save_if.
  wp_step. eapply wp_rd_wq; [done|]. wp_step. apply wp_gets. wp_step.
  eapply (rep_wake_all_loop _ _ l (set_wl (delete q) a)); [by apply rep_set_if, rep_drop_queue|done|done|..].
  { intros p Hp. destruct (seg_in _ _ _ _ _ _ Hs Hp) as [_ [t Ht]]. split.
    - cbn. rewrite <-(rep_views _ _ Hr), lookup_fmap, Ht. by eexists.
    - intros q' l' Hq' Hin. cbn in Hq'. apply lookup_delete_Some in Hq' as [Hne Hq'].
      by apply Hne, (Hdis q q' l l' p). }
  intros s1 Hr1 Hw1 Ht1 Hc1 Hi1. rewrite foldl_release_wl in Hr1. wp_step.
  apply wp_upd_wq; [rewrite Hw1; by eauto|]. apply wp_restore_if.
  apply HQ; [|exact Ht1|exact Hi1|done].
  apply (rep_set_if _ (set_wqs _ s1)). apply rep_put_queue; [|done|].
  - apply rep_dropped_queue; [done|]. intros q' Hq'. by rewrite lookup_alter_ne.
  - exists (WaitQueue 0 0). cbn. rewrite lookup_alter_eq, Hw1. cbn. by rewrite Hw.
Qed.

(** ** Ticks and switches *)

Definition timed_out (v : view) : view :=
  View (if bool_decide (vw_state v = TASK_SLEEPING) then TASK_READY else vw_state v)
    (vw_queue v) 0 true.

Definition a_tick (now : Z) (a : abs) : abs :=
  set_sl (filter (λ p, now < a_deadline (a_views a) p))
    (set_views (alter_all timed_out (filter (λ p, a_deadline (a_views a) p ≤ now) (a_sl a))) a).

Lemma view_woken t : view_of (woken t) = timed_out (view_of t).
Proof. unfold woken, timed_out, view_of. cbn. by destruct (bool_decide _). Qed.

Lemma views_alter_all g f l (m : gmap Z task) :
  (∀ t, view_of (g t) = f (view_of t)) →
  view_of <$> alter_all g l m = alter_all f l (view_of <$> m).
Proof.
  intros Hg. apply map_eq. intros q. rewrite lookup_fmap, !lookup_alter_all, lookup_fmap.
  destruct (bool_decide _), (m !! q); simpl; try done. by rewrite Hg.
Qed.

Lemma woken_wait t : t_wait_next (woken t) = t_wait_next t.
Proof. unfold woken. by destruct (bool_decide _). Qed.
Lemma woken_process t : t_process (woken t) = t_process t.
Proof. unfold woken. by destruct (bool_decide _). Qed.

Lemma env_ok_alter_all g l s :
  env_ok s → (∀ t, t_process (g t) = t_process t) → (∀ t, prio_ok t → prio_ok (g t)) →
  env_ok (set_tasks (alter_all g l (tasks s)) s).
Proof.
  intros [H1 H2 H3 H4 H5] Hp Ho. split; cbn; auto.
  - by rewrite lookup_alter_all, H1.
  - by apply map_Forall_alter_all.
  - intros q t. rewrite lookup_alter_all. intros (u & Hu & ->)%fmap_Some.
    destruct (bool_decide _); [rewrite Hp|]; by eapply H3.
  - by rewrite lookup_alter_all, fmap_is_Some.
Qed.

Lemma rep_tick a Q s :
  rep s a → a_cur a ≠ 0 → is_Some (a_views a !! a_cur a) →
  (∀ s', rep s' (a_tick (ticks s) a) → ticks s' = ticks s → cpu s' = cpu s →
    idle_task s' = idle_task s → Q () s') →
  wp sched_tick Q s.
Proof.
  intros Hr Hc0 [v Hv] HQ. pose proof Hr as [H1 H2 H3 H4 H5 H6].
  eapply wp_sched_tick; [done|done| |].
  { intros _. rewrite H5. destruct (views_lookup _ _ _ _ Hr Hv) as (t & Ht & _). eauto. }
  intros s' Hrq Hsl He Hf Hpo.
  apply HQ; try (symmetry; by apply (frame_get _ _ _ _ Hf)).
  set (ex := expired (tasks s) (ticks s) (a_sl a)) in *.
  set (s1 := set_tasks (alter_all woken ex (tasks s)) s).
  assert (env_ok s1) as He1.
  { apply env_ok_alter_all; [done|apply woken_process|auto]. }
  assert (frame erase_tick s1 s') as Hf1 by (etransitivity; [|exact Hf]; done).
  symmetry in He. change (alter_all woken ex (tasks s)) with (tasks s1) in He.
  split; cbn.
  - done.
  - assert (pending (tasks s) (ticks s) (a_sl a) =
        filter (λ p, ticks s < a_deadline (a_views a) p) (a_sl a)) as <-; [|done].
    apply filter_same. intros p _. by rewrite deadline_view, H4.
  - intros q l Hq. destruct (H3 q l Hq) as [Hq0 (w & Hw & Hs & Htl)]. split; [done|].
    apply (queue_rep_erase erase_acct s1); [|exact He| |done].
    + exists w. split; [done|]. split; [|done]. apply seg_alter_all; [apply woken_wait|done].
    + by apply (frame_get _ _ _ _ Hf1).
  - rewrite <-(views_erase erase_acct _ _ He) by done. unfold s1. cbn.
    rewrite (views_alter_all _ timed_out) by apply view_woken. rewrite <-H4. f_equal.
    apply filter_same. intros p _. by rewrite deadline_view.
  - rewrite <-H5. symmetry. by apply (frame_get _ _ _ _ Hf).
  - eapply (env_ok_erase erase_acct s1); [done|exact He| | |done|by apply Hpo, H6];
      by apply (frame_get _ _ _ _ Hf1).
Qed.

Definition with_state (st : task_state) (v : view) : view :=
  View st (vw_queue v) (vw_until v) (vw_timed_out v).
Definition yield_view (v : view) : view :=
  if bool_decide (vw_state v = TASK_RUNNING) then with_state TASK_READY v else v.
Definition a_switch (next : Z) (a : abs) : abs :=
  set_cur next (set_views (λ vs, alter (with_state TASK_RUNNING) next
    (alter yield_view (a_cur a) vs)) a).

Lemma switched_views s s' prev next :
  switched s s' prev next → frame erase_sched s s' → next ≠ prev →
  view_of <$> tasks s' =
    alter (with_state TASK_RUNNING) next (alter yield_view prev (view_of <$> tasks s)).
Proof.
  intros [_ Hst] Hf Hne. apply (f_equal tasks) in Hf. cbn in Hf. apply map_eq. intros p.
  specialize (Hst p). unfold state_of in Hst. rewrite lookup_fmap.
  assert (∀ t t', erase_run t = erase_run t' → view_of t' = with_state (t_state t') (view_of t)) as Hv.
  { intros t t' H. unfold view_of, with_state. cbn. f_equal.
    - by apply (f_equal t_wait_queue) in H.
    - by apply (f_equal t_sleep_until) in H.
    - by apply (f_equal t_sleep_timed_out) in H. }
  apply (f_equal (.!! p)) in Hf. rewrite !lookup_fmap in Hf.
  destruct (decide (p = next)) as [->|Hpn].
  - rewrite lookup_alter_eq, lookup_alter_ne, lookup_fmap by done. rewrite bool_decide_true in Hst by done.
    destruct (tasks s !! next) as [t|], (tasks s' !! next) as [t'|]; simpl in *; try done.
    apply (inj Some) in Hf, Hst. by rewrite (Hv _ _ Hf), Hst.
  - rewrite lookup_alter_ne by done. rewrite bool_decide_false in Hst by done.
    destruct (decide (p = prev)) as [->|Hpp].
    + rewrite lookup_alter_eq, lookup_fmap.
      destruct (tasks s !! prev) as [t|], (tasks s' !! prev) as [t'|]; simpl in *; try done.
      apply (inj Some) in Hf. rewrite (Hv _ _ Hf). unfold yield_view. cbn.
      destruct (decide (t_state t = TASK_RUNNING)) as [Hr|Hr].
      * rewrite bool_decide_true in Hst by (split; [done|by rewrite Hr]). rewrite (bool_decide_true (t_state t = _)) by done.
        apply (inj Some) in Hst. by rewrite Hst.
      * rewrite bool_decide_false in Hst by (intros [_ ?%(inj Some)]; done). rewrite (bool_decide_false (t_state t = _)) by done.
        apply (inj Some) in Hst. by rewrite Hst.
    + rewrite lookup_alter_ne, lookup_fmap by done. rewrite bool_decide_false in Hst by (by intros [? _]).
      destruct (tasks s !! p) as [t|], (tasks s' !! p) as [t'|]; simpl in *; try done.
      apply (inj Some) in Hf, Hst. by rewrite (Hv _ _ Hf), Hst.
Qed.

(** The task [schedule] may switch to: one that is ready, or the idle task. *)
Definition can_run (idle : Z) (a : abs) (n : Z) : Prop :=
  ∃ v, a_views a !! n = Some v ∧ (n ∈ a_rq a ∧ vw_state v = TASK_READY ∨ n = idle).

Lemma next_of_cases s a :
  rep s a → a_rq a ≠ [] →
  (∀ v, a_views a !! idle_task s = Some v → vw_state v ≠ TASK_ZOMBIE) →
  let n := next_of s (a_rq a) (a_cur a) in
  can_run (idle_task s) a n ∧ n ≠ 0 ∧ (n = a_cur a → n = idle_task s).
Proof.
  intros Hr Hne Hz. cbv zeta. unfold next_of. rewrite bool_decide_false by done.
  pose proof Hr as [[Hseg _ _ _ _] H2 H3 H4 H5 [E1 E2 E3 E4 [ti Hti]]].
  destruct (choice (tasks s) (a_cur a) (a_rq a)) as [p|] eqn:Hch.
  - apply choice_in in Hch as (Hin & Hel & _). destruct (seg_in _ _ _ _ _ _ Hseg Hin) as [Hp0 [t Ht]].
    unfold eligible in Hel. rewrite Ht in Hel. rewrite !andb_true_iff in Hel.
    destruct Hel as [Hpc%bool_decide_eq_true [Hst%bool_decide_eq_true _]].
    split; [|split; [done|naive_solver]].
    exists (view_of t). rewrite <-H4, lookup_fmap, Ht. split; [done|]. by left.
  - rewrite Hti. specialize (Hz (view_of ti)). rewrite <-H4, lookup_fmap, Hti in Hz.
    rewrite bool_decide_true by (by apply Hz). split; [|split; done].
    exists (view_of ti). rewrite <-H4, lookup_fmap, Hti. split; [done|]. by right.
Qed.

Lemma prio_max_env s : env_ok s → prio_max (tasks s).
Proof. intros He p t Ht. by destruct (eo_prio _ He p t Ht) as [[_ ?] _ _ _]. Qed.

Lemma rep_schedule a Q s :
  rep s a → a_rq a ≠ [] → is_Some (a_views a !! a_cur a) →
  (∀ v, a_views a !! idle_task s = Some v → vw_state v ≠ TASK_ZOMBIE) →
  (∀ s' n, rep s' (a_switch n a) → can_run (idle_task s) a n → n ≠ a_cur a →
    ticks s' = ticks s → idle_task s' = idle_task s → r_if (cpu s') = r_if (cpu s) → Q () s') →
  (∀ s', rep s' a → a_cur a = idle_task s →
    ticks s' = ticks s → idle_task s' = idle_task s → r_if (cpu s') = r_if (cpu s) → Q () s') →
  wp schedule Q s.
Proof.
  intros Hr Hne [vc Hvc] Hz HQ1 HQ2. pose proof (next_of_cases s a Hr Hne Hz) as Hcase.
  cbv zeta in Hcase. destruct Hcase as (Hcan & Hn0 & Hnc).
  set (n := next_of s (a_rq a) (a_cur a)) in *.
  pose proof Hr as [H1 H2 H3 H4 H5 H6]. pose proof (prio_max_env _ H6) as Hmax.
  destruct (decide (n = a_cur a)) as [Heq|Hneq].
  - eapply wp_schedule_stay; [exact H1|done|intros _; apply H6|apply H6| |].
    { right. rewrite H5. exact Heq. }
    intros l. apply HQ2; try done; [|by rewrite <-Heq; apply Hnc].
    destruct H1, H2, H6. by split.
  - destruct Hcan as (vn & Hvn & Hcan). destruct (views_lookup _ _ _ _ Hr Hvn) as (tn & Htn & _).
    destruct (views_lookup _ _ _ _ Hr Hvc) as (tc & Htc & _).
    eapply wp_schedule_switch; [exact H1|done|done|intros _; apply H6|apply H6|
      rewrite H5; by eauto|rewrite H5; exact Hn0|rewrite H5; exact Hneq| |].
    { exists tn. rewrite H5. split; [exact Htn|]. by eapply eo_proc. }
    rewrite H5. fold n. intros s' Hsw Hf Hpo.
    assert (erase_run <$> tasks s = erase_run <$> tasks s') as He by (by apply (f_equal tasks) in Hf).
    apply (HQ1 s' n); [|by exists vn|done|..];
      try (symmetry; by apply (frame_get _ _ _ _ Hf)).
    + split; cbn.
      * eapply rq_inv_erase; [exact H1|exact He|..]; framed Hf.
      * eapply sl_inv_erase; [exact H2|exact He|..]; framed Hf.
      * intros q l Hq. destruct (H3 q l Hq) as [Hq0 Hql]. split; [done|].
        eapply queue_rep_erase; [exact Hql|exact He|framed Hf|done].
      * rewrite <-H4. by apply switched_views.
      * apply Hsw.
      * eapply env_ok_erase; [exact H6|exact He|framed Hf|framed Hf|done|by apply Hpo, H6].
    + symmetry. apply (frame_get (λ s, r_if (cpu s)) _ _ _ Hf). done.
Qed.
