(* ===== verification/SchedInv.v ===== *)
(** * The invariant of sleeping and waking

    A task that sleeps stays inside one of the sleeping functions; [kont]
    records which one, and the interrupt flag it has saved.  The invariant
    relates, for every task, its state, the lists it is on and the function it
    is in.  Each abstract operation preserves it. *)

From S2P Require Import Prelude Bits Links SchedState Sched WaitQueue SchedSpec SchedRun WaitSpec.

Inductive kont :=
| InSleep (was_enabled : bool)    (** [wait_queue_sleep] *)
| InTimeout (was_enabled : bool)  (** [wait_queue_sleep_timeout] *)
| InTicks (was_enabled : bool).   (** [task_sleep_ticks] *)

(** What the function a task is in implies for its fields. *)
Definition kont_ok (k : option kont) (v : view) : Prop :=
  match k with
  | None => vw_queue v = 0 ∧ vw_until v = 0
  | Some (InSleep _) => vw_until v = 0 ∧ (vw_state v = TASK_SLEEPING ∨ vw_queue v = 0)
  | Some (InTimeout _) =>
      vw_state v ≠ TASK_SLEEPING →
      vw_until v = 0 ∧ (vw_queue v = 0 ∨ vw_timed_out v = true)
  | Some (InTicks _) => vw_queue v = 0 ∧ (vw_state v = TASK_SLEEPING ∨ vw_until v = 0)
  end.

Record view_ok (ks : gmap Z kont) (a : abs) (p : Z) (v : view) : Prop := {
  vo_rq : vw_state v ≠ TASK_ZOMBIE → p ∈ a_rq a;
  vo_run : vw_state v = TASK_RUNNING ↔ p = a_cur a;
  vo_sleep : vw_state v = TASK_SLEEPING → vw_queue v ≠ 0 ∨ vw_until v ≠ 0;
  vo_queue : vw_queue v ≠ 0 → is_Some (a_wl a !! vw_queue v);
  vo_kont : kont_ok (ks !! p) v;
}.

Record inv (ks : gmap Z kont) (idle : Z) (a : abs) : Prop := {
  in_views : ∀ p v, a_views a !! p = Some v → p ≠ 0 ∧ view_ok ks a p v;
  in_sl : ∀ p, p ∈ a_sl a ↔ ∃ v, a_views a !! p = Some v ∧ vw_until v ≠ 0;
  in_wl : ∀ q l p, a_wl a !! q = Some l →
    (p ∈ l ↔ ∃ v, a_views a !! p = Some v ∧ vw_queue v = q);
  in_wl0 : a_wl a !! 0 = None;
  in_cur : is_Some (a_views a !! a_cur a);
  in_idle : is_Some (a_views a !! idle);
  in_idle_ok : ∀ v, a_views a !! idle = Some v →
    vw_state v ≠ TASK_SLEEPING ∧ vw_state v ≠ TASK_ZOMBIE ∧ ks !! idle = None;
  in_nodup : ∀ q l, a_wl a !! q = Some l → NoDup l;
}.

Lemma inv_disjoint ks idle a : inv ks idle a → queues_disjoint a.
Proof.
  intros H q q' l l' p Hq Hq' Hp Hp'. apply (in_wl _ _ _ H q l p Hq) in Hp as (v & Hv & <-).
  apply (in_wl _ _ _ H q' l' p Hq') in Hp' as (v' & Hv' & <-). by simplify_eq.
Qed.

Lemma inv_on_no_queue ks idle a p v :
  inv ks idle a → a_views a !! p = Some v → vw_queue v = 0 → on_no_queue a p.
Proof.
  intros H Hv Hq q l Hl Hp. apply (in_wl _ _ _ H q l p Hl) in Hp as (v' & Hv' & <-).
  simplify_eq. rewrite Hq in Hl. by rewrite (in_wl0 _ _ _ H) in Hl.
Qed.

Lemma inv_not_sleeper ks idle a p v :
  inv ks idle a → a_views a !! p = Some v → vw_until v = 0 → p ∉ a_sl a.
Proof.
  intros H Hv Hu Hp. apply (in_sl _ _ _ H p) in Hp as (v' & Hv' & Hne). by simplify_eq.
Qed.

(** The running task. *)
Lemma inv_current ks idle a :
  inv ks idle a → ∃ v, a_views a !! a_cur a = Some v ∧ vw_state v = TASK_RUNNING ∧
    a_cur a ≠ 0 ∧ a_cur a ∈ a_rq a.
Proof.
  intros H. destruct (in_cur _ _ _ H) as [v Hv]. destruct (in_views _ _ _ H _ _ Hv) as [H0 Hok].
  exists v. assert (vw_state v = TASK_RUNNING) as Hr by (by apply Hok).
  do 3 (split; [done|]). apply Hok. by rewrite Hr.
Qed.

(** Every operation changes the views task by task: [F] gives the new view of
    each task. *)
Lemma inv_update ks ks' idle a a' (F : Z → view → view) :
  inv ks idle a →
  (∀ p, a_views a' !! p = F p <$> a_views a !! p) →
  (∀ p v, a_views a !! p = Some v → p ≠ 0 → view_ok ks a p v → view_ok ks' a' p (F p v)) →
  (∀ p v, a_views a !! p = Some v → p ∈ a_sl a' ↔ vw_until (F p v) ≠ 0) →
  (∀ p, p ∈ a_sl a' → is_Some (a_views a !! p)) →
  (∀ q l p v, a_wl a' !! q = Some l → a_views a !! p = Some v → p ∈ l ↔ vw_queue (F p v) = q) →
  (∀ q l, a_wl a' !! q = Some l →
    NoDup l ∧ q ≠ 0 ∧ ∀ p, p ∈ l → is_Some (a_views a !! p)) →
  is_Some (a_views a !! a_cur a') →
  (∀ v, a_views a !! idle = Some v → vw_state v ≠ TASK_SLEEPING → vw_state v ≠ TASK_ZOMBIE →
    ks !! idle = None →
    vw_state (F idle v) ≠ TASK_SLEEPING ∧ vw_state (F idle v) ≠ TASK_ZOMBIE ∧ ks' !! idle = None) →
  inv ks' idle a'.
Proof.
  intros H Hv Hok Hsl Hsl' Hwl Hwl' Hcur Hidle. split.
  - intros p v Hp. rewrite Hv in Hp. apply fmap_Some in Hp as (u & Hu & ->).
    destruct (in_views _ _ _ H p u Hu) as [Hp0 Ho]. split; [done|]. by apply Hok.
  - intros p. setoid_rewrite Hv. split.
    + intros Hp. destruct (Hsl' p Hp) as [u Hu]. rewrite Hu. simpl. eexists. split; [done|].
      by apply (Hsl p u).
    + intros (v & (u & Hu & ->)%fmap_Some & Hne). by apply (Hsl p u).
  - intros q l p Hq. setoid_rewrite Hv. destruct (Hwl' q l Hq) as (_ & _ & Hin). split.
    + intros Hp. destruct (Hin p Hp) as [u Hu]. rewrite Hu. simpl. eexists. split; [done|].
      by apply (Hwl q l p u).
    + intros (v & (u & Hu & ->)%fmap_Some & Hne). by apply (Hwl q l p u).
  - destruct (a_wl a' !! 0) eqn:E; [|done]. by destruct (Hwl' 0 _ E) as (_ & ? & _).
  - by rewrite Hv, fmap_is_Some.
  - rewrite Hv, fmap_is_Some. apply H.
  - intros v Hi. rewrite Hv in Hi. apply fmap_Some in Hi as (u & Hu & ->).
    destruct (in_idle_ok _ _ _ H u Hu) as (? & ? & ?). by apply Hidle.
  - intros q l Hq. by destruct (Hwl' q l Hq).
Qed.

(** The obligations about lists that do not change. *)
Lemma inv_wl_same ks idle a q l :
  inv ks idle a → a_wl a !! q = Some l →
  NoDup l ∧ q ≠ 0 ∧ ∀ p, p ∈ l → is_Some (a_views a !! p).
Proof.
  intros H Hq. split; [by eapply in_nodup|]. split.
  - intros ->. by rewrite (in_wl0 _ _ _ H) in Hq.
  - intros p Hp. apply (in_wl _ _ _ H q l p Hq) in Hp as (v & Hv & _). eauto.
Qed.

Lemma inv_wl_iff ks idle a q l p v :
  inv ks idle a → a_wl a !! q = Some l → a_views a !! p = Some v → p ∈ l ↔ vw_queue v = q.
Proof. intros H Hq Hv. rewrite (in_wl _ _ _ H q l p Hq). naive_solver. Qed.

Lemma inv_sl_iff ks idle a p v :
  inv ks idle a → a_views a !! p = Some v → p ∈ a_sl a ↔ vw_until v ≠ 0.
Proof. intros H Hv. rewrite (in_sl _ _ _ H p). naive_solver. Qed.

Lemma inv_sl_some ks idle a p : inv ks idle a → p ∈ a_sl a → is_Some (a_views a !! p).
Proof. intros H Hp. apply (in_sl _ _ _ H p) in Hp as (v & Hv & _). eauto. Qed.

(** ** Switching *)

Definition switch_view (prev next p : Z) (v : view) : view :=
  if decide (p = next) then with_state TASK_RUNNING v
  else if decide (p = prev) then yield_view v else v.

Lemma lookup_switch n a p : n ≠ a_cur a →
  a_views (a_switch n a) !! p = switch_view (a_cur a) n p <$> a_views a !! p.
Proof.
  intros Hne. cbn. unfold switch_view. destruct (decide (p = n)) as [->|].
  - by rewrite lookup_alter_eq, lookup_alter_ne.
  - rewrite lookup_alter_ne by done. destruct (decide (p = a_cur a)) as [->|].
    + by rewrite lookup_alter_eq.
    + rewrite lookup_alter_ne by done. by rewrite option_fmap_id.
Qed.

Lemma yield_view_fields v :
  vw_queue (yield_view v) = vw_queue v ∧ vw_until (yield_view v) = vw_until v.
Proof. unfold yield_view. by destruct (bool_decide _). Qed.

Lemma switch_view_fields prev next p v :
  vw_queue (switch_view prev next p v) = vw_queue v ∧
  vw_until (switch_view prev next p v) = vw_until v.
Proof.
  unfold switch_view. do 2 (case_decide; [try done; apply yield_view_fields|]). done.
Qed.

(** What the next task was doing: it was ready, or it is the idle task. *)
Lemma can_run_state ks idle a n v :
  inv ks idle a → can_run idle a n → a_views a !! n = Some v →
  vw_state v ≠ TASK_SLEEPING ∧ vw_state v ≠ TASK_ZOMBIE.
Proof.
  intros H (u & Hu & Hc) Hv. assert (u = v) as -> by congruence. destruct Hc as [[_ ->]| ->]; [done|].
  by destruct (in_idle_ok _ _ _ H v Hv) as (? & ? & _).
Qed.

Lemma kont_ok_running k v st :
  kont_ok k v → vw_state v ≠ TASK_SLEEPING → kont_ok k (with_state st v).
Proof. destruct k as [[]|]; cbn; naive_solver. Qed.

(** The switch away from a running task: it stays ready. *)
Lemma inv_yield ks idle a n :
  inv ks idle a → can_run idle a n → n ≠ a_cur a → inv ks idle (a_switch n a).
Proof.
  intros H Hcan Hne. destruct (inv_current _ _ _ H) as (vc & Hvc & Hrc & Hc0 & Hcrq).
  eapply (inv_update ks _ _ a _ (switch_view (a_cur a) n)); [done| | | | | | | |].
  - intros p. by apply lookup_switch.
  - intros p v Hv Hp0 [O1 O2 O3 O4 O5].
    pose proof (switch_view_fields (a_cur a) n p v) as [Hq Hu].
    unfold switch_view in *. destruct (decide (p = n)) as [->|Hpn]; [|destruct (decide (p = a_cur a)) as [->|Hpc]].
    + destruct (can_run_state _ _ _ _ _ H Hcan Hv) as [Hs Hz].
      split; cbn; [auto|done|done|done|by apply kont_ok_running].
    + assert (v = vc) as -> by congruence. unfold yield_view. rewrite Hrc, bool_decide_true by done.
      split; cbn; [auto|split; congruence|done|done|].
      apply kont_ok_running; [done|by rewrite Hrc].
    + split; cbn; [done|split; [intros ?%O2; done|congruence]|done..].
  - intros p v Hv. destruct (switch_view_fields (a_cur a) n p v) as [_ ->]. exact (inv_sl_iff _ _ _ _ _ H Hv).
  - intros p. exact (inv_sl_some _ _ _ p H).
  - intros q l p v Hq Hv. destruct (switch_view_fields (a_cur a) n p v) as [-> _].
    exact (inv_wl_iff _ _ _ _ _ _ _ H Hq Hv).
  - intros q l. exact (inv_wl_same _ _ _ _ _ H).
  - destruct Hcan as (v & Hv & _). by eexists.
  - intros v Hv Hs Hz Hk. unfold switch_view, yield_view. repeat case_decide; try done.
Qed.

(** ** Going to sleep *)

(** What the entry of a sleeping function does to the caller [c]: it waits on
    [q] (0: on no queue) with deadline [d] (0: none). *)
Record falls_asleep (a a1 : abs) (c q d : Z) : Prop := {
  fa_self : a_views a1 !! c = Some (View TASK_SLEEPING q d false);
  fa_other : ∀ p, p ≠ c → a_views a1 !! p = a_views a !! p;
  fa_rq : a_rq a1 = a_rq a;
  fa_cur : a_cur a1 = a_cur a;
  fa_sl : ∀ p, p ∈ a_sl a1 ↔ p ∈ a_sl a ∨ (p = c ∧ d ≠ 0);
  fa_wl : (q = 0 ∧ a_wl a1 = a_wl a) ∨
    (q ≠ 0 ∧ ∃ l, a_wl a !! q = Some l ∧ a_wl a1 = <[q := l ++ [c]]> (a_wl a));
}.

Definition sleep_view (c q d n p : Z) (v : view) : view :=
  if decide (p = n) then with_state TASK_RUNNING v
  else if decide (p = c) then View TASK_SLEEPING q d false else v.

Lemma sleep_queue ks idle a a1 c q d q' l' p v n :
  inv ks idle a → falls_asleep a a1 c q d → n ≠ c →
  (∀ v, a_views a !! c = Some v → vw_queue v = 0) →
  a_wl a1 !! q' = Some l' → a_views a !! p = Some v →
  p ∈ l' ↔ vw_queue (sleep_view c q d n p v) = q'.
Proof.
  intros H Hfa Hnc Hc0 Hq' Hv. unfold sleep_view.
  assert (∀ l, a_wl a !! q' = Some l → p ∈ l ↔ vw_queue v = q') as Hiff
    by (intros l Hl; exact (inv_wl_iff _ _ _ _ _ _ _ H Hl Hv)).
  assert (q' ≠ 0) as Hq0.
  { intros ->. pose proof (in_wl0 _ _ _ H) as H0. destruct (fa_wl _ _ _ _ _ Hfa) as [[_ Hw]|(Hq & l & Hl & Hw)];
      rewrite Hw in Hq'; [congruence|]. rewrite lookup_insert_ne in Hq' by done. congruence. }
  destruct (fa_wl _ _ _ _ _ Hfa) as [[-> Hw]|(Hq & l & Hl & Hw)]; rewrite Hw in Hq'.
  - rewrite (Hiff _ Hq'). repeat case_decide; cbn; try done. subst.
    rewrite (Hc0 v Hv). naive_solver.
  - apply lookup_insert_Some in Hq' as [[<- <-]|[Hne Hq']].
    + rewrite elem_of_app, (Hiff _ Hl), list_elem_of_singleton.
      repeat case_decide; subst; cbn; naive_solver.
    + rewrite (Hiff _ Hq'). repeat case_decide; cbn; try done. subst.
      rewrite (Hc0 v Hv). naive_solver.
Qed.

Lemma inv_sleep ks idle a a1 q d k n :
  inv ks idle a → falls_asleep a a1 (a_cur a) q d →
  ks !! a_cur a = None → a_cur a ≠ idle → q ≠ 0 ∨ d ≠ 0 →
  kont_ok (Some k) (View TASK_SLEEPING q d false) →
  can_run idle a1 n → n ≠ a_cur a →
  inv (<[a_cur a := k]> ks) idle (a_switch n a1).
Proof.
  intros H Hfa Hk Hci Hqd Hkont Hcan Hne.
  destruct (inv_current _ _ _ H) as (vc & Hvc & Hrc & Hc0 & Hcrq).
  assert (kont_ok None vc) as [Hqc Huc] by (rewrite <-Hk; by apply (in_views _ _ _ H _ _ Hvc)).
  assert (a_views a1 !! n = a_views a !! n) as Hn1 by (by eapply fa_other).
  assert (∀ v, a_views a !! n = Some v → vw_state v ≠ TASK_SLEEPING ∧ vw_state v ≠ TASK_ZOMBIE) as Hns.
  { intros v Hv. apply (can_run_state ks idle a n); [done| |done].
    destruct Hcan as (u & Hu & Hc). exists u. rewrite <-Hn1, <-(fa_rq _ _ _ _ _ Hfa). done. }
  eapply (inv_update ks _ _ a _ (sleep_view (a_cur a) q d n)); [done| | | | | | | |].
  - intros p. rewrite lookup_switch by (by rewrite (fa_cur _ _ _ _ _ Hfa)).
    rewrite (fa_cur _ _ _ _ _ Hfa). unfold switch_view, sleep_view.
    destruct (decide (p = n)) as [->|]; [by rewrite Hn1|].
    destruct (decide (p = a_cur a)) as [->|].
    + by rewrite (fa_self _ _ _ _ _ Hfa), Hvc.
    + by rewrite (fa_other _ _ _ _ _ Hfa).
  - intros p v Hv Hp0 [O1 O2 O3 O4 O5]. unfold sleep_view.
    assert (∀ x, is_Some (a_wl a !! x) → is_Some (a_wl a1 !! x)) as Hwl.
    { intros x [l Hl]. destruct (fa_wl _ _ _ _ _ Hfa) as [[_ ->]|(_ & l' & _ & ->)]; [by eexists|].
      destruct (decide (x = q)) as [->|]; [rewrite lookup_insert_eq|rewrite lookup_insert_ne by done];
        by eexists. }
    destruct (decide (p = n)) as [->|Hpn]; [|destruct (decide (p = a_cur a)) as [->|Hpc]].
    + destruct (Hns v Hv) as [Hs Hz].
      split; cbn; rewrite ?(fa_rq _ _ _ _ _ Hfa); [auto|done|done|auto|].
      rewrite lookup_insert_ne by done. by apply kont_ok_running.
    + split; cbn; rewrite ?(fa_rq _ _ _ _ _ Hfa); [auto|split; congruence|done| |].
      * intros Hq. destruct (fa_wl _ _ _ _ _ Hfa) as [[? _]|(_ & l' & _ & ->)]; [done|].
        rewrite lookup_insert_eq. by eexists.
      * by rewrite lookup_insert_eq.
    + split; cbn; rewrite ?(fa_rq _ _ _ _ _ Hfa);
        [done|split; [intros ?%O2; done|congruence]|done|auto|by rewrite lookup_insert_ne].
  - intros p v Hv. cbn. rewrite (fa_sl _ _ _ _ _ Hfa), (inv_sl_iff _ _ _ _ _ H Hv).
    unfold sleep_view. repeat case_decide; subst; cbn; [naive_solver| |naive_solver].
    assert (v = vc) as -> by congruence. rewrite Huc. naive_solver.
  - intros p. cbn. rewrite (fa_sl _ _ _ _ _ Hfa). intros [Hp|[-> _]]; [|by eexists].
    exact (inv_sl_some _ _ _ p H Hp).
  - intros q' l' p v Hq' Hv. eapply sleep_queue; [done|done|done| |done|done].
    intros u Hu. by assert (u = vc) as -> by congruence.
  - intros q' l' Hq'. cbn in Hq'.
    destruct (fa_wl _ _ _ _ _ Hfa) as [[_ Hw]|(Hq & l & Hl & Hw)]; rewrite Hw in Hq'.
    + exact (inv_wl_same _ _ _ _ _ H Hq').
    + apply lookup_insert_Some in Hq' as [[<- <-]|[_ Hq']]; [|exact (inv_wl_same _ _ _ _ _ H Hq')].
      destruct (inv_wl_same _ _ _ _ _ H Hl) as (Hnd & _ & Hin). split; [|split; [done|]].
      * apply NoDup_app. split; [done|]. split; [|apply NoDup_singleton].
        intros x Hx ->%list_elem_of_singleton.
        apply (inv_wl_iff _ _ _ _ _ _ _ H Hl Hvc) in Hx. congruence.
      * intros p [Hp|Hp]%elem_of_app; [by apply Hin|]. apply list_elem_of_singleton in Hp as ->. by eexists.
  - cbn. destruct Hcan as (u & Hu & _). rewrite <-Hn1. by eexists.
  - intros v Hv Hs Hz Hki. unfold sleep_view. rewrite lookup_insert_ne by done.
    repeat case_decide; try done.
Qed.

Lemma falls_asleep_queue a q l :
  a_wl a !! q = Some l → q ≠ 0 → ∀ v, a_views a !! a_cur a = Some v → vw_until v = 0 →
  falls_asleep a (a_enqueue q (a_cur a) a) (a_cur a) q 0.
Proof.
  intros Hl Hq v Hv Hu. split; cbn; try done.
  - rewrite lookup_alter_eq, Hv. cbn. unfold to_sleep. by rewrite Hu.
  - intros p Hp. by rewrite lookup_alter_ne.
  - naive_solver.
  - right. split; [done|]. exists l. split; [done|].
    apply map_eq. intros x. destruct (decide (x = q)) as [->|].
    + by rewrite lookup_alter_eq, Hl, lookup_insert_eq.
    + by rewrite lookup_alter_ne, lookup_insert_ne.
Qed.

(** A deadline on top. *)
Definition with_deadline (d : Z) (v : view) : view :=
  View (vw_state v) (vw_queue v) d (vw_timed_out v).
Definition asleep_until (d : Z) (v : view) : view := View TASK_SLEEPING (vw_queue v) d false.

Lemma falls_asleep_deadline a a1 q d f :
  falls_asleep a a1 (a_cur a) q 0 → d ≠ 0 →
  f (View TASK_SLEEPING q 0 false) = View TASK_SLEEPING q d false →
  falls_asleep a (a_add_sleeper (a_cur a) (set_views (alter f (a_cur a)) a1)) (a_cur a) q d.
Proof.
  intros [F1 F2 F3 F4 F5 F6] Hd Hf. split; cbn; try done.
  - by rewrite lookup_alter_eq, F1, <-Hf.
  - intros p Hp. rewrite lookup_alter_ne by done. by apply F2.
  - intros p. rewrite insert_by_elem, F5. naive_solver.
Qed.

Lemma falls_asleep_same a a1 q d f :
  falls_asleep a a1 (a_cur a) q d →
  f (View TASK_SLEEPING q d false) = View TASK_SLEEPING q d false →
  falls_asleep a (set_views (alter f (a_cur a)) a1) (a_cur a) q d.
Proof.
  intros [F1 F2 F3 F4 F5 F6] Hf. split; cbn; try done.
  - rewrite lookup_alter_eq, F1. cbn. by rewrite Hf.
  - intros p Hp. rewrite lookup_alter_ne by done. by apply F2.
Qed.

Lemma falls_asleep_ticks a d v :
  a_views a !! a_cur a = Some v → vw_queue v = 0 → d ≠ 0 →
  falls_asleep a (a_add_sleeper (a_cur a) (set_views (alter (asleep_until d) (a_cur a)) a))
    (a_cur a) 0 d.
Proof.
  intros Hv Hq Hd. split; cbn; try done.
  - rewrite lookup_alter_eq, Hv. cbn. unfold asleep_until. by rewrite Hq.
  - intros p Hp. by rewrite lookup_alter_ne.
  - intros p. rewrite insert_by_elem. naive_solver.
  - by left.
Qed.

(** ** Waking *)

Definition release_view (v : view) : view :=
  if bool_decide (vw_state v = TASK_SLEEPING) then View TASK_READY 0 0 false
  else View (vw_state v) 0 (vw_until v) (vw_timed_out v).

Lemma lookup_release a p x :
  a_views (a_release a p) !! x =
    (if decide (x = p) then release_view else id) <$> a_views a !! x.
Proof.
  unfold a_release, a_wake, a_leave. cbn. rewrite lookup_alter_eq.
  destruct (a_views a !! p) as [v|] eqn:Ev; cbn.
  - unfold release_view. destruct (decide (x = p)) as [->|Hx].
    + rewrite Ev. cbn. case_bool_decide; cbn.
      * destruct (vw_until v =? 0); cbn; by rewrite lookup_alter_eq, lookup_alter_eq, Ev.
      * by rewrite lookup_alter_eq, Ev.
    + rewrite option_fmap_id. case_bool_decide; cbn; [|by rewrite lookup_alter_ne].
      destruct (vw_until v =? 0); cbn; by rewrite !lookup_alter_ne.
  - destruct (decide (x = p)) as [->|]; [by rewrite lookup_alter_eq, Ev|].
    by rewrite lookup_alter_ne, option_fmap_id.
Qed.

Lemma release_lists a p v :
  a_views a !! p = Some v → (vw_state v ≠ TASK_ZOMBIE → p ∈ a_rq a) →
  a_rq (a_release a p) = a_rq a ∧ a_cur (a_release a p) = a_cur a ∧
  a_sl (a_release a p) =
    (if bool_decide (vw_state v = TASK_SLEEPING ∧ vw_until v ≠ 0) then without p (a_sl a) else a_sl a).
Proof.
  intros Hv Hrq. unfold a_release, a_wake, a_leave. cbn. rewrite lookup_alter_eq, Hv. cbn.
  destruct (bool_decide (vw_state v = TASK_SLEEPING)) eqn:Es.
  - apply bool_decide_eq_true in Es. cbn. destruct (Z.eqb_spec (vw_until v) 0); cbn;
      (split; [unfold add_once; rewrite bool_decide_true by (apply Hrq; by rewrite Es); done|]);
      (split; [done|]); [by rewrite bool_decide_false by tauto|by rewrite bool_decide_true by tauto].
  - apply bool_decide_eq_false in Es. by rewrite bool_decide_false by tauto.
Qed.

(** A task that is on a wait queue is inside one of the two functions that
    wait there. *)
Lemma waiter_kont k v : kont_ok k v → vw_queue v ≠ 0 →
  vw_state v = TASK_SLEEPING ∨
  (∃ b, k = Some (InTimeout b)) ∧ vw_until v = 0 ∧ vw_timed_out v = true.
Proof.
  intros Hk Hq. destruct (decide (vw_state v = TASK_SLEEPING)) as [?|Hs]; [by left|right].
  destruct k as [[b|b|b]|]; cbn in Hk; try naive_solver.
Qed.

Lemma release_kont k v : kont_ok k v → vw_queue v ≠ 0 → kont_ok k (release_view v).
Proof.
  intros Hk Hq. unfold release_view. case_bool_decide as Hs.
  - destruct k as [[]|]; cbn in *; naive_solver.
  - destruct (waiter_kont k v Hk Hq) as [?|((b & ->) & Hu & Ht)]; [done|].
    cbn. intros _. auto.
Qed.

Lemma wake_one_release q p l a :
  a_wl a !! q = Some (p :: l) → a_wake_one q a = set_wl <[q := l]> (a_release a p).
Proof. intros Hq. unfold a_wake_one. rewrite Hq. exact (a_release_wl p <[q := l]> a). Qed.

Lemma release_sl_iff ks idle a p v x u :
  inv ks idle a → a_views a !! p = Some v → a_views a !! x = Some u →
  x ∈ a_sl (a_release a p) ↔ vw_until ((if decide (x = p) then release_view else id) u) ≠ 0.
Proof.
  intros H Hv Hu. destruct (in_views _ _ _ H _ _ Hv) as [_ Hok].
  destruct (release_lists a p v Hv (vo_rq _ _ _ _ Hok)) as (_ & _ & ->).
  pose proof (inv_sl_iff _ _ _ _ _ H Hu) as Hsl.
  destruct (decide (x = p)) as [->|Hx]; cbn.
  - assert (u = v) as -> by congruence. unfold release_view.
    case_bool_decide as Hd; [unfold without; rewrite list_elem_of_filter|];
      case_bool_decide; cbn; tauto.
  - case_bool_decide as Hd; [unfold without; rewrite list_elem_of_filter|]; tauto.
Qed.

Lemma inv_wake_one ks idle a q :
  inv ks idle a → inv ks idle (a_wake_one q a).
Proof.
  intros H. destruct (a_wl a !! q) as [[|p l]|] eqn:Hq; [unfold a_wake_one; by rewrite Hq| |unfold a_wake_one; by rewrite Hq].
  rewrite (wake_one_release _ _ _ _ Hq).
  destruct (inv_wl_same _ _ _ _ _ H Hq) as (Hnd & Hq0 & Hin).
  destruct (Hin p ltac:(left)) as [v Hv].
  destruct (in_views _ _ _ H _ _ Hv) as [Hp0 Hok].
  assert (vw_queue v = q) as Hvq by (apply (inv_wl_iff _ _ _ _ _ _ _ H Hq Hv); left).
  destruct (release_lists a p v Hv (vo_rq _ _ _ _ Hok)) as (Hrq & Hcur & _).
  destruct (a_release_lists p a) as [Hwl _].
  apply NoDup_cons in Hnd as [Hpl Hnd].
  eapply (inv_update ks _ _ a _ (λ x, if decide (x = p) then release_view else id));
    [done| | | | | | | |]; cbn.
  - intros x. apply lookup_release.
  - intros x u Hu Hx0 [O1 O2 O3 O4 O5].
    assert (∀ y, is_Some (a_wl a !! y) → is_Some (<[q := l]> (a_wl a) !! y)) as Hsome.
    { intros y Hy. destruct (decide (y = q)) as [->|]; [rewrite lookup_insert_eq; by eexists|].
      by rewrite lookup_insert_ne. }
    destruct (decide (x = p)) as [->|Hx].
    + assert (u = v) as -> by congruence.
      assert (vw_queue v ≠ 0) as Hvq0 by congruence.
      pose proof (release_kont _ _ O5 Hvq0) as Hk. unfold release_view in *.
      case_bool_decide as Hs; split; cbn; rewrite ?Hrq, ?Hcur; try done.
      * intros _. apply O1. by rewrite Hs.
      * split; [done|]. intros Hpc%O2. congruence.
    + split; cbn; rewrite ?Hrq, ?Hcur, ?Hwl; auto.
  - intros x u Hu. exact (release_sl_iff _ _ _ _ _ _ _ H Hv Hu).
  - intros x. destruct (release_lists a p v Hv (vo_rq _ _ _ _ Hok)) as (_ & _ & ->).
    case_bool_decide; [unfold without; rewrite list_elem_of_filter; intros [_ Hx]|intros Hx];
      exact (inv_sl_some _ _ _ x H Hx).
  - intros q' l' x u Hq' Hu. rewrite Hwl in Hq'.
    apply lookup_insert_Some in Hq' as [[<- <-]|[Hne Hq']].
    + pose proof (inv_wl_iff _ _ _ _ _ _ _ H Hq Hu) as Hi. rewrite elem_of_cons in Hi.
      destruct (decide (x = p)) as [->|]; [|cbn; tauto].
      unfold release_view. case_bool_decide; cbn; split; intros; congruence.
    + pose proof (inv_wl_iff _ _ _ _ _ _ _ H Hq' Hu) as Hi.
      destruct (decide (x = p)) as [->|]; [|done].
      assert (u = v) as -> by congruence. destruct (inv_wl_same _ _ _ _ _ H Hq') as (_ & ? & _).
      unfold release_view. case_bool_decide; cbn; rewrite Hi; split; congruence.
  - intros q' l' Hq'. rewrite Hwl in Hq'.
    apply lookup_insert_Some in Hq' as [[<- <-]|[Hne Hq']]; [|exact (inv_wl_same _ _ _ _ _ H Hq')].
    split; [done|]. split; [done|]. intros x Hx. apply Hin. by right.
  - rewrite Hcur. apply H.
  - intros u Hu Hs Hz Hk. split_and!; [..|done]; case_decide; try done;
      unfold release_view; by rewrite bool_decide_false.
Qed.

Lemma wake_all_one q p l a :
  a_wl a !! q = Some (p :: l) → a_wake_all q a = a_wake_all q (a_wake_one q a).
Proof.
  intros Hq. rewrite (wake_one_release _ _ _ _ Hq). unfold a_wake_all. rewrite Hq. cbn.
  rewrite lookup_insert_eq, (foldl_release_wl <[q := l]>). unfold set_wl. cbn.
  by rewrite insert_insert_eq.
Qed.

Lemma inv_wake_all ks idle a q : inv ks idle a → inv ks idle (a_wake_all q a).
Proof.
  intros H. destruct (a_wl a !! q) as [l|] eqn:Hq; [|unfold a_wake_all; by rewrite Hq].
  revert a H Hq. induction l as [|p l IH]; intros a H Hq.
  - unfold a_wake_all. rewrite Hq. cbn. unfold set_wl. rewrite insert_id by done. by destruct a.
  - rewrite (wake_all_one _ _ _ _ Hq). apply IH; [by apply inv_wake_one|].
    rewrite (wake_one_release _ _ _ _ Hq). cbn. by rewrite lookup_insert_eq.
Qed.

Lemma release_twice v : release_view (release_view v) = release_view v.
Proof.
  unfold release_view. destruct (bool_decide_reflect (vw_state v = TASK_SLEEPING)) as [|H]; [done|].
  cbn. by rewrite bool_decide_false.
Qed.

Lemma lookup_release_all l a x :
  a_views (foldl a_release a l) !! x =
    (if bool_decide (x ∈ l) then release_view else id) <$> a_views a !! x.
Proof.
  revert a. induction l as [|p l IH]; intros a; cbn.
  - by rewrite bool_decide_false, option_fmap_id by apply not_elem_of_nil.
  - rewrite IH, lookup_release. destruct (decide (x = p)) as [->|Hne].
    + rewrite (bool_decide_true (p ∈ p :: l)) by left. destruct (a_views a !! p); cbn; [|done].
      case_bool_decide; cbn; by rewrite ?release_twice.
    + rewrite option_fmap_id, (bool_decide_ext (x ∈ p :: l) (x ∈ l)); [done|].
      rewrite elem_of_cons. naive_solver.
Qed.

(** ** Ticks *)

(** A task on the sleep list sleeps. *)
Lemma sleeper_sleeps k v : kont_ok k v → vw_until v ≠ 0 → vw_state v = TASK_SLEEPING.
Proof.
  intros Hk Hu. destruct (decide (vw_state v = TASK_SLEEPING)); [done|].
  destruct k as [[]|]; cbn in Hk; naive_solver.
Qed.

Lemma inv_tick ks idle a now : inv ks idle a → inv ks idle (a_tick now a).
Proof.
  intros H.
  set (late := filter (λ p, a_deadline (a_views a) p ≤ now) (a_sl a)).
  assert (∀ x u, a_views a !! x = Some u → x ∈ late ↔ vw_until u ≠ 0 ∧ vw_until u ≤ now) as Hlate.
  { intros x u Hu. unfold late. rewrite list_elem_of_filter, (inv_sl_iff _ _ _ _ _ H Hu).
    unfold a_deadline. rewrite Hu. cbn. tauto. }
  eapply (inv_update ks _ _ a _ (λ x, if bool_decide (x ∈ late) then timed_out else id));
    [done| | | | | | | |]; cbn.
  - intros x. apply lookup_alter_all.
  - intros x u Hu Hx0 [O1 O2 O3 O4 O5]. case_bool_decide as Hx; [|by split].
    apply (Hlate x u Hu) in Hx as [Hne _]. pose proof (sleeper_sleeps _ _ O5 Hne) as Hs.
    unfold timed_out. rewrite Hs, bool_decide_true by done. split; cbn; try done.
    + intros _. apply O1. by rewrite Hs.
    + split; [done|]. intros Hc%O2. congruence.
    + destruct (ks !! x) as [[]|]; cbn in *; naive_solver.
  - intros x u Hu. rewrite list_elem_of_filter, (inv_sl_iff _ _ _ _ _ H Hu).
    unfold a_deadline. rewrite Hu. cbn. pose proof (Hlate x u Hu) as Hl.
    case_bool_decide; cbn; [|cbn in *; split; [tauto|intros; split; [|done]; lia || (destruct (decide (vw_until u ≤ now)); [tauto|lia])]].
    split; [|done]. intros [? _]. apply Hl in H0. lia.
  - intros x. rewrite list_elem_of_filter. intros [_ Hx]. exact (inv_sl_some _ _ _ x H Hx).
  - intros q l x u Hq Hu. rewrite (inv_wl_iff _ _ _ _ _ _ _ H Hq Hu). by case_bool_decide.
  - intros q l. exact (inv_wl_same _ _ _ _ _ H).
  - apply H.
  - intros u Hu Hs Hz Hk. split_and!; [..|done]; case_bool_decide; try done;
      unfold timed_out; by rewrite bool_decide_false.
Qed.

(** ** Returning from a sleeping function *)

Lemma inv_return ks idle a a' v0 v1 :
  inv ks idle a → a_views a !! a_cur a = Some v0 → vw_until v0 = 0 →
  vw_state v1 = vw_state v0 → vw_queue v1 = 0 → vw_until v1 = 0 →
  (∀ p, a_views a' !! p = (if decide (p = a_cur a) then λ _, v1 else id) <$> a_views a !! p) →
  a_rq a' = a_rq a → a_sl a' = a_sl a → a_cur a' = a_cur a →
  (∀ q, a_wl a' !! q = without (a_cur a) <$> a_wl a !! q) →
  inv (delete (a_cur a) ks) idle a'.
Proof.
  intros H Hv0 Hu0 Hst1 Hq1 Hu1 Hv Hrq Hsl Hcur Hwl.
  eapply (inv_update ks _ _ a _ (λ p, if decide (p = a_cur a) then λ _, v1 else id));
    [done|done| | | | | | |].
  - intros p v Hp Hp0 [O1 O2 O3 O4 O5].
    assert (∀ q, is_Some (a_wl a !! q) → is_Some (a_wl a' !! q)) as Hsome
      by (intros q Hq; rewrite Hwl; by apply fmap_is_Some).
    case_decide as Hpc; [subst; assert (v = v0) as -> by congruence|].
    + split; rewrite ?Hrq, ?Hcur, ?Hst1; try done.
      * rewrite (proj2 O2) by done. done.
      * by rewrite lookup_delete_eq.
    + split; rewrite ?Hrq, ?Hcur; cbn; auto. by rewrite lookup_delete_ne.
  - intros p v Hp. rewrite Hsl, (inv_sl_iff _ _ _ _ _ H Hp). case_decide; subst; cbn; [|done].
    assert (v = v0) as -> by congruence. by rewrite Hu0, Hu1.
  - intros p. rewrite Hsl. exact (inv_sl_some _ _ _ p H).
  - intros q l p v Hq Hp. rewrite Hwl in Hq. apply fmap_Some in Hq as (l' & Hq & ->).
    destruct (inv_wl_same _ _ _ _ _ H Hq) as (_ & Hq0 & _).
    unfold without. rewrite list_elem_of_filter, (inv_wl_iff _ _ _ _ _ _ _ H Hq Hp).
    case_decide; cbn; [|tauto]. split; [tauto|congruence].
  - intros q l Hq. rewrite Hwl in Hq. apply fmap_Some in Hq as (l' & Hq & ->).
    destruct (inv_wl_same _ _ _ _ _ H Hq) as (Hnd & Hq0 & Hin).
    split; [by apply NoDup_filter|]. split; [done|].
    intros p. unfold without. rewrite list_elem_of_filter. intros [_ Hp]. by apply Hin.
  - rewrite Hcur. apply H.
  - intros v Hp Hs Hz Hk. assert (idle = a_cur a → vw_state v1 = vw_state v) by congruence.
    split_and!; [case_decide; cbn; [by rewrite H0|done]..|].
    apply lookup_delete_None. by right.
Qed.

(** The deadline of a task that runs has been cleared. *)
Lemma inv_cur_until ks idle a v :
  inv ks idle a → a_views a !! a_cur a = Some v → vw_until v = 0.
Proof.
  intros H Hv. destruct (decide (vw_until v = 0)) as [?|Hne]; [done|].
  destruct (in_views _ _ _ H _ _ Hv) as [_ [_ Hr _ _ Hk]].
  pose proof (sleeper_sleeps _ _ Hk Hne). assert (vw_state v = TASK_RUNNING) by (by apply Hr).
  congruence.
Qed.

(** ** New tasks *)

Definition a_spawn (p : Z) (a : abs) : abs :=
  a_add_task p (set_views <[p := View TASK_READY 0 0 false]> a).

Lemma inv_spawn ks idle a p :
  inv ks idle a → a_views a !! p = None → p ≠ 0 → ks !! p = None →
  inv ks idle (a_spawn p a).
Proof.
  intros H Hp Hp0 Hk.
  assert (∀ x v, a_views a !! x = Some v → x ≠ p) as Hne by (intros x v Hx ->; congruence).
  assert (∀ x, x ∈ add_once p (a_rq a) ↔ x ∈ a_rq a ∨ x = p) as Hin.
  { intros x. unfold add_once. case_bool_decide; [naive_solver|].
    rewrite elem_of_app, list_elem_of_singleton. done. }
  split; cbn.
  - intros x v [[<- <-]|[Hxp Hx]]%lookup_insert_Some.
    + split; [done|]. split; cbn; try done; [intros _; apply Hin; by right| |by rewrite Hk].
      split; [done|]. intros ->. destruct (in_cur _ _ _ H). congruence.
    + destruct (in_views _ _ _ H x v Hx) as [? [O1 O2 O3 O4 O5]]. split; [done|].
      split; cbn; auto. intros Hz. apply Hin. auto.
  - intros x. rewrite (in_sl _ _ _ H x). split.
    + intros (v & Hx & Hv). exists v. rewrite lookup_insert_ne by (by eapply not_eq_sym, Hne). done.
    + intros (v & [[<- <-]|[Hxp Hx]]%lookup_insert_Some & Hv); [done|eauto].
  - intros q l x Hq. destruct (inv_wl_same _ _ _ _ _ H Hq) as (_ & Hq0 & _).
    rewrite (in_wl _ _ _ H q l x Hq). split.
    + intros (v & Hx & Hv). exists v. rewrite lookup_insert_ne by (by eapply not_eq_sym, Hne). done.
    + intros (v & [[<- <-]|[Hxp Hx]]%lookup_insert_Some & Hv); [by cbn in Hv; subst|eauto].
  - apply H.
  - destruct (in_cur _ _ _ H) as [v Hv]. rewrite lookup_insert_ne by (by eapply not_eq_sym, Hne). by eexists.
  - destruct (in_idle _ _ _ H) as [v Hv]. rewrite lookup_insert_ne by (by eapply not_eq_sym, Hne). by eexists.
  - intros v [[<- <-]|[Hxp Hx]]%lookup_insert_Some; [done|]. exact (in_idle_ok _ _ _ H v Hx).
  - exact (in_nodup _ _ _ H).
Qed.

(** A new wait queue, empty. *)
Lemma inv_new_queue ks idle a q :
  inv ks idle a → q ≠ 0 → a_wl a !! q = None →
  (∀ p v, a_views a !! p = Some v → vw_queue v ≠ q) → inv ks idle (set_wl <[q := []]> a).
Proof.
  intros H Hq0 Hq Hno. split; cbn; try by apply H.
  - intros p v Hp. destruct (in_views _ _ _ H p v Hp) as [? [O1 O2 O3 O4 O5]]. split; [done|].
    split; cbn; auto. intros Hvq. rewrite lookup_insert_ne by (by eapply not_eq_sym, Hno). auto.
  - intros q' l p [[<- <-]|[_ Hq']]%lookup_insert_Some; [|by apply H].
    split; [by intros ?%elem_of_nil|]. intros (v & Hv & E). by destruct (Hno p v Hv).
  - rewrite lookup_insert_ne by done. apply H.
  - intros q' l [[<- <-]|[_ Hq']]%lookup_insert_Some; [constructor|]. by eapply in_nodup.
Qed.

(** ** Deadlines *)

(** Every deadline is still to come. *)
Definition on_time (now : Z) (a : abs) : Prop :=
  ∀ p v, a_views a !! p = Some v → vw_until v = 0 ∨ now < vw_until v.

Lemma on_time_update now now' a a' (F : Z → view → view) :
  on_time now a → (∀ p, a_views a' !! p = F p <$> a_views a !! p) →
  (∀ p v, a_views a !! p = Some v → vw_until v = 0 ∨ now < vw_until v →
    vw_until (F p v) = 0 ∨ now' < vw_until (F p v)) → on_time now' a'.
Proof.
  intros H Hv HF p v Hp. rewrite Hv in Hp. apply fmap_Some in Hp as (u & Hu & ->). eauto.
Qed.

Lemma on_time_switch now n a : n ≠ a_cur a → on_time now a → on_time now (a_switch n a).
Proof.
  intros Hn H. eapply on_time_update; [done|intros p; by apply lookup_switch|].
  intros p v _ Hv. by rewrite (proj2 (switch_view_fields _ _ _ _)).
Qed.

Lemma on_time_asleep now a a1 c q d :
  falls_asleep a a1 c q d → d = 0 ∨ now < d → on_time now a → on_time now a1.
Proof.
  intros Hfa Hd H p v Hp. destruct (decide (p = c)) as [->|Hne].
  - rewrite (fa_self _ _ _ _ _ Hfa) in Hp. by simplify_eq.
  - rewrite (fa_other _ _ _ _ _ Hfa) in Hp by done. eauto.
Qed.

Lemma on_time_wake_one now q a : on_time now a → on_time now (a_wake_one q a).
Proof.
  intros H. destruct (a_wl a !! q) as [[|p l]|] eqn:Hq;
    [unfold a_wake_one; by rewrite Hq| |unfold a_wake_one; by rewrite Hq].
  rewrite (wake_one_release _ _ _ _ Hq).
  eapply (on_time_update now now a _ (λ x, if decide (x = p) then release_view else id)); [done| |].
  - intros x. apply lookup_release.
  - intros x v _ Hv. case_decide; [|done]. unfold release_view. case_bool_decide; cbn; auto.
Qed.

Lemma on_time_wake_all now q a : on_time now a → on_time now (a_wake_all q a).
Proof.
  intros H. destruct (a_wl a !! q) as [l|] eqn:Hq; [|unfold a_wake_all; by rewrite Hq].
  revert a H Hq. induction l as [|p l IH]; intros a H Hq.
  - unfold a_wake_all. by rewrite Hq.
  - rewrite (wake_all_one _ _ _ _ Hq). apply IH; [by apply on_time_wake_one|].
    rewrite (wake_one_release _ _ _ _ Hq). cbn. by rewrite lookup_insert_eq.
Qed.

Lemma on_time_tick ks idle now now' a : inv ks idle a → on_time now a → on_time now' (a_tick now' a).
Proof.
  intros Hinv H p v Hp. cbn in Hp. rewrite lookup_alter_all in Hp.
  apply fmap_Some in Hp as (u & Hu & ->). case_bool_decide as Hin; [by left|].
  rewrite list_elem_of_filter, (inv_sl_iff _ _ _ _ _ Hinv Hu) in Hin.
  unfold a_deadline in Hin. rewrite Hu in Hin. cbn in *. lia.
Qed.

Lemma on_time_spawn now p a : on_time now a → on_time now (a_spawn p a).
Proof.
  intros H x v Hx. cbn in Hx. apply lookup_insert_Some in Hx as [[_ <-]|[_ Hx]]; [by left|eauto].
Qed.
