(* ===== verification/SchedSystem.v ===== *)
(** * The scheduler as a system of tasks

    The kernel entries of scheduler.c, wait_queue.c and task.c that put tasks
    to sleep, wake them, switch between them and create them, interleaved in
    any order.  A state of the system is the kernel state together with the
    sleeping function each task is inside of. *)

From S2P Require Import Prelude Bits Links SchedState Sched WaitQueue Task Signal TaskLife Timer.
From S2P Require Import SchedSpec SchedRun WaitSpec SchedInv.

Record sys := Sys { sy_sched : sched; sy_in : gmap Z kont }.

Inductive kop :=
| Tick                                  (** timer interrupt *)
| Yield                                 (** a voluntary or preemptive switch *)
| Sleep (wq : Z)
| SleepTimeout (wq timeout : Z)
| SleepTicks (n : Z)
| Resume                                (** the code after [schedule] of a sleeping function *)
| WakeOne (wq : Z)
| WakeAll (wq : Z)
| SetPriority (task priority : Z)
| ThreadCreate (mem stack : Z) (name : string) (proc entry arg : Z).

Definition sched_do {A} (m : SM A) : prog sys A := zoom sy_sched (λ s x, Sys s (sy_in x)) m.
Definition entered (self : Z) (k : kont) : prog sys unit :=
  modify (λ x, Sys (sy_sched x) (<[self := k]> (sy_in x))).
Definition returned (self : Z) : prog sys unit :=
  modify (λ x, Sys (sy_sched x) (delete self (sy_in x))).

Definition run_kop (task_trampoline : Z) (o : kop) : prog sys unit :=
  self ← gets (λ x, current_task (sy_sched x));
  match o with
  | Tick => sched_do (pit_on_tick;; sched_tick)
  | Yield => sched_do task_yield
  | Sleep wq =>
      r ← sched_do (wait_queue_sleep_enter wq);
      match r with Some b => entered self (InSleep b) | None => mret () end
  | SleepTimeout wq n =>
      g ← sched_do (wait_queue_sleep_timeout_guard wq n);
      match g with
      | Some _ => mret ()
      | None => b ← sched_do (wait_queue_sleep_timeout_enter wq n); entered self (InTimeout b)
      end
  | SleepTicks n =>
      r ← sched_do (task_sleep_ticks_enter n);
      match r with Some b => entered self (InTicks b) | None => mret () end
  | Resume =>
      k ← gets (λ x, sy_in x !! self);
      match k with
      | Some (InSleep b) => sched_do (wait_queue_sleep_return self b);; returned self
      | Some (InTimeout b) => sched_do (wait_queue_sleep_timeout_return self b);; returned self
      | Some (InTicks b) => sched_do (task_sleep_ticks_return self b);; returned self
      | None => mret ()
      end
  | WakeOne wq => sched_do (wait_queue_wake_one wq)
  | WakeAll wq => sched_do (wait_queue_wake_all wq)
  | SetPriority task priority => sched_do (task_set_priority task priority)
  | ThreadCreate mem stack name proc entry arg =>
      sched_do (task_thread_create mem stack task_trampoline name proc entry arg);; mret ()
  end.

(** When an entry may be called.  [Qs] are the wait queues of the kernel.  A
    task sleeps from its own context and is not the idle task; deadlines stay
    below 2^64; a new task gets memory that is not in use. *)
Definition may_sleep (x : sys) : Prop :=
  sy_in x !! current_task (sy_sched x) = None ∧
  current_task (sy_sched x) ≠ idle_task (sy_sched x).

Definition enabled (Qs : gset Z) (o : kop) (x : sys) : Prop :=
  let s := sy_sched x in
  match o with
  | Tick => ticks s + 1 < 2 ^ 64
  | Yield | Resume => True
  | Sleep wq => may_sleep x ∧ wq ∈ Qs
  | SleepTimeout wq n =>
      may_sleep x ∧ wq ∈ Qs ∧ 0 ≤ n ∧ (n = UINT64_MAX ∨ ticks s + n < 2 ^ 64)
  | SleepTicks n => may_sleep x ∧ 0 ≤ n ∧ ticks s + n < 2 ^ 64
  | WakeOne wq | WakeAll wq => wq ∈ Qs
  | SetPriority task _ => is_Some (tasks s !! task)
  | ThreadCreate mem _ _ proc _ _ =>
      tasks s !! mem = None ∧ sy_in x !! mem = None ∧ Z.of_nat (size (tasks s)) + 1 < 2 ^ 64 ∧
      (proc = 0 ∨ is_Some (procs s !! proc ≫= p_address_space))
  end.

#[global] Instance enabled_dec Qs o x : Decision (enabled Qs o x).
Proof. destruct o; cbn; unfold may_sleep; apply _. Defined.

(** ** The invariant, for kernel states *)

Record good (Qs : gset Z) (ks : gmap Z kont) (s : sched) (a : abs) : Prop := {
  gd_rep : rep s a;
  gd_inv : inv ks (idle_task s) a;
  gd_dom : dom (a_wl a) = Qs;
  gd_ticks : 0 ≤ ticks s < 2 ^ 64;
  gd_late : on_time (ticks s) a;
}.

Lemma good_queue Qs ks s a q : good Qs ks s a → q ∈ Qs → ∃ l, a_wl a !! q = Some l ∧ q ≠ 0.
Proof.
  intros H Hq. rewrite <-(gd_dom _ _ _ _ H) in Hq. apply elem_of_dom in Hq as [l Hl].
  exists l. split; [done|]. intros ->. by rewrite (in_wl0 _ _ _ (gd_inv _ _ _ _ H)) in Hl.
Qed.

Lemma good_current Qs ks s a : good Qs ks s a →
  current_task s = a_cur a ∧ a_cur a ≠ 0 ∧ is_Some (a_views a !! a_cur a) ∧ a_rq a ≠ [].
Proof.
  intros [Hr Hi _ _ _]. destruct (inv_current _ _ _ Hi) as (v & Hv & _ & H0 & Hrq).
  split; [apply Hr|]. split; [done|]. split; [by eexists|]. intros E. rewrite E in Hrq.
  by apply elem_of_nil in Hrq.
Qed.

Lemma good_idle Qs ks s a : good Qs ks s a →
  ∀ v, a_views a !! idle_task s = Some v → vw_state v ≠ TASK_ZOMBIE.
Proof. intros H v Hv. by apply (in_idle_ok _ _ _ (gd_inv _ _ _ _ H) v Hv). Qed.

(** The wait queues stay the same ones. *)
Lemma dom_wake_one q a : dom (a_wl (a_wake_one q a)) = dom (a_wl a).
Proof.
  destruct (a_wl a !! q) as [[|p l]|] eqn:E; [by unfold a_wake_one; rewrite E| |by unfold a_wake_one; rewrite E].
  rewrite (wake_one_release _ _ _ _ E). cbn. destruct (a_release_lists p a) as [-> _].
  rewrite dom_insert_L. apply elem_of_dom_2 in E. set_solver.
Qed.

Lemma foldl_release_lists l a : a_wl (foldl a_release a l) = a_wl a.
Proof.
  revert a. induction l as [|p l IH]; intros a; cbn; [done|]. rewrite IH.
  apply (a_release_lists p a).
Qed.

Lemma dom_wake_all q a : dom (a_wl (a_wake_all q a)) = dom (a_wl a).
Proof.
  unfold a_wake_all. destruct (a_wl a !! q) as [l|] eqn:E; [|done]. cbn.
  rewrite foldl_release_lists, dom_insert_L. apply elem_of_dom_2 in E. set_solver.
Qed.

Lemma set_if_same s : set_cpu (set_r_if (r_if (cpu s)) (cpu s)) s = s.
Proof. destruct s. cbn. by match goal with c : cpu_regs |- _ => destruct c end. Qed.

(** [task_set_priority] keeps the bounds of priority and time slice. *)
Lemma clamp_bounds p : SCHED_PRIO_MIN ≤ clamp_priority p ≤ SCHED_PRIO_MAX.
Proof.
  unfold clamp_priority, SCHED_PRIO_MIN, SCHED_PRIO_MAX.
  destruct (Z.ltb_spec p (-20)); [done|]. destruct (Z.ltb_spec 19 p); lia.
Qed.

Lemma view_with_priority pr t : view_of (with_priority pr t) = view_of t.
Proof. unfold with_priority. cbn. by destruct (_ <? _). Qed.

Lemma with_priority_ok pr t :
  t_next (with_priority pr t) = t_next t ∧ t_process (with_priority pr t) = t_process t ∧
  (prio_ok t → prio_ok (with_priority pr t)).
Proof.
  pose proof (clamp_bounds pr) as Hb. pose proof (slice_bounds _ Hb) as [Hs1 Hs2].
  unfold with_priority. cbn. destruct (Z.ltb_spec (sched_prio_to_slice (clamp_priority pr)) (t_time_slice t));
    (split; [done|]); (split; [done|]); intros [P1 P2 P3 P4]; split; cbn; auto; lia.
Qed.

(** A new task in memory that was not in use. *)
Lemma rep_insert s a p t m :
  rep s a → tasks s !! p = None → Z.of_nat (size (tasks s)) + 1 < 2 ^ 64 → p ≠ 0 →
  prio_ok t → is_Some (procs s !! t_process t) → m = <[p := t]> (tasks s) →
  rep (set_tasks m s) (set_views <[p := view_of t]> a).
Proof.
  intros [[R1 R2 R3 R4 R5] [S1 S2] Hwq Hv Hc [E1 E2 E3 E4 E5]] Hp Hsize Hp0 Hpo Hproc ->.
  assert (∀ f h l, seg f (tasks s) h l 0 → seg f (<[p := t]> (tasks s)) h l 0) as Hseg.
  { intros f h l Hs. apply seg_upd_out; [done|]. intros Hin.
    destruct (seg_in _ _ _ _ _ _ Hs Hin) as [_ [? ?]]. congruence. }
  split; cbn; [split| | | | |split]; cbn; auto.
  - rewrite map_size_insert_None by done. lia.
  - split; cbn; [auto|]. erewrite list_fmap_ext; [exact S2|].
    intros i x Hx. unfold deadline. cbn.
    rewrite lookup_insert_ne; [done|]. intros ->. apply list_elem_of_lookup_2 in Hx.
    destruct (seg_in _ _ _ _ _ _ S1 Hx) as [_ [? ?]]. congruence.
  - intros q l Hl. destruct (Hwq q l Hl) as (? & w & Hw & Hs & Htl). split; [done|].
    exists w. cbn. auto.
  - by rewrite fmap_insert, Hv.
  - by rewrite lookup_insert_ne.
  - apply map_Forall_insert_2; done.
  - intros x u [[<- <-]|[_ Hx]]%lookup_insert_Some; [done|]. by apply (E3 x).
  - destruct E5 as [u Hu]. rewrite lookup_insert_ne; [by eexists|]. intros E; congruence.
Qed.

(** ** Each entry finishes and preserves the invariant *)

Section entries.
Context (Qs : gset Z) (ks : gmap Z kont) (s : sched) (a : abs).
Hypothesis Hgood : good Qs ks s a.

(** The step that puts the current task to sleep, once the lists are written:
    [schedule] chooses another task. *)
Lemma good_schedule_asleep a1 q d k Q s1 :
  rep s1 a1 → idle_task s1 = idle_task s → ticks s1 = ticks s → dom (a_wl a1) = Qs →
  falls_asleep a a1 (a_cur a) q d → q ≠ 0 ∨ d ≠ 0 → d = 0 ∨ ticks s < d →
  ks !! a_cur a = None → a_cur a ≠ idle_task s →
  kont_ok (Some k) (View TASK_SLEEPING q d false) →
  (∀ s' a', good Qs (<[a_cur a := k]> ks) s' a' → Q () s') →
  wp schedule Q s1.
Proof.
  intros Hr Hidle Hticks Hdom Hfa Hqd Hsoon Hk Hne Hkont HQ. destruct Hgood as [Hrep Hinv Hd Ht Hon].
  destruct (good_current _ _ _ _ Hgood) as (Hcur & Hc0 & [vc Hvc] & Hrq).
  assert (a_cur a1 = a_cur a) as Hc1 by apply Hfa.
  eapply rep_schedule; [done| | | | |].
  - by rewrite (fa_rq _ _ _ _ _ Hfa).
  - rewrite Hc1, (fa_self _ _ _ _ _ Hfa). by eexists.
  - rewrite Hidle. intros v. rewrite (fa_other _ _ _ _ _ Hfa) by done. exact (good_idle _ _ _ _ Hgood v).
  - intros s' n Hr' Hcan Hn Ht' Hi' _. apply (HQ s' (a_switch n a1)). rewrite Hidle in *. split.
    + done.
    + rewrite Hi'. eapply inv_sleep; [done|done|done|done|done|done|done|]. by rewrite <-Hc1.
    + done.
    + by rewrite Ht', Hticks.
    + rewrite Ht', Hticks. apply on_time_switch; [done|]. by eapply on_time_asleep.
  - intros s' _ E. rewrite Hc1, Hidle in E. done.
Qed.

Lemma good_sleep q :
  q ∈ Qs → ks !! current_task s = None → current_task s ≠ idle_task s →
  wp (wait_queue_sleep_enter q)
    (λ r s', ∃ b a', r = Some b ∧ good Qs (<[current_task s := InSleep b]> ks) s' a') s.
Proof.
  intros Hq Hk Hne. destruct (good_queue _ _ _ _ _ Hgood Hq) as (l & Hl & Hq0).
  destruct (good_current _ _ _ _ Hgood) as (Hcur & Hc0 & [vc Hvc] & Hrq).
  pose proof (gd_inv _ _ _ _ Hgood) as Hinv. rewrite Hcur in *.
  assert (kont_ok None vc) as [Hqc Huc] by (rewrite <-Hk; by apply (in_views _ _ _ Hinv _ _ Hvc)).
  unfold wait_queue_sleep_enter, wait_queue_sleep_locked_enter.
  wp_step. apply wp_gets. rewrite Hcur, (proj2 (Z.eqb_neq q 0)), (proj2 (Z.eqb_neq _ 0)) by done.
  cbn [orb]. wp_step. apply wp_save_if. wp_step. wp_step. wp_step. cbn. rewrite Hcur.
  rewrite (proj2 (Z.eqb_neq _ 0)) by done. cbn. wp_step.
  eapply rep_enqueue_self; [apply rep_set_if, Hgood|done|by eexists|done| | |].
  - by eapply inv_on_no_queue.
  - by eapply inv_disjoint.
  - intros s1 Hr1 Ht1 _ Hi1. cbn in Ht1, Hi1.
    eapply (good_schedule_asleep _ q 0 (InSleep (r_if (cpu s)))); try done.
    + cbn. rewrite dom_alter_L. apply Hgood.
    + by eapply falls_asleep_queue.
    + by left.
    + by left.
    + cbn. auto.
    + intros s' a' Hg. wp_step. by exists (r_if (cpu s)), a'.
Qed.

Lemma deadline_ok n : 0 < n → ticks s + n < 2 ^ 64 → ticks s +! n ≠ 0 ∧ ticks s < ticks s +! n.
Proof.
  intros Hn Hlt. pose proof (gd_ticks _ _ _ _ Hgood). unfold u64. rewrite Z.mod_small; lia.
Qed.

Lemma good_sleep_timeout q n :
  q ∈ Qs → ks !! current_task s = None → current_task s ≠ idle_task s →
  0 < n → n = UINT64_MAX ∨ ticks s + n < 2 ^ 64 →
  wp (wait_queue_sleep_timeout_enter q n)
    (λ b s', ∃ a', good Qs (<[current_task s := InTimeout b]> ks) s' a') s.
Proof.
  intros Hq Hk Hne Hn Hlt. destruct (good_queue _ _ _ _ _ Hgood Hq) as (l & Hl & Hq0).
  destruct (good_current _ _ _ _ Hgood) as (Hcur & Hc0 & [vc Hvc] & Hrq).
  pose proof (gd_inv _ _ _ _ Hgood) as Hinv. rewrite Hcur in *.
  assert (kont_ok None vc) as [Hqc Huc] by (rewrite <-Hk; by apply (in_views _ _ _ Hinv _ _ Hvc)).
  assert (dom (a_wl (a_enqueue q (a_cur a) a)) = Qs) as Hdom
    by (cbn; rewrite dom_alter_L; apply Hgood).
  pose proof (falls_asleep_queue a q l Hl Hq0 vc Hvc Huc) as Hfa.
  unfold wait_queue_sleep_timeout_enter.
  wp_step. apply wp_save_if. wp_step. wp_step. cbn. rewrite Hcur. wp_step.
  eapply rep_enqueue_self; [apply rep_set_if, Hgood|done|by eexists|done| | |].
  { by eapply inv_on_no_queue. }
  { by eapply inv_disjoint. }
  intros s1 Hr1 Ht1 _ Hi1. cbn in Ht1, Hi1. wp_step.
  assert (is_Some (a_views (a_enqueue q (a_cur a) a) !! a_cur a)) as Hself1
    by (rewrite (fa_self _ _ _ _ _ Hfa); by eexists).
  assert (a_cur a ∉ a_sl a) as Hnsl by (by eapply inv_not_sleeper).
  destruct (Z.eqb_spec n UINT64_MAX) as [->|Hmax]; cbn [negb].
  - eapply (rep_upd _ _ (with_deadline 0)); [done|done|done|upd_ok|by left|by right|].
    intros s2 Hr2 ->. wp_step.
    eapply (good_schedule_asleep _ q 0 (InTimeout (r_if (cpu s)))); try done.
    + by apply falls_asleep_same.
    + by left.
    + by left.
    + intros s' a' Hg. wp_step. by exists a'.
  - wp_step. wp_step. wp_step. rewrite Ht1.
    eapply (rep_upd _ _ (with_deadline (ticks s +! n))); [done|done|done|upd_ok|by left|by right|].
    intros s2 Hr2 ->. eapply rep_add_sleeper; [done| |done|done|].
    { cbn. rewrite lookup_alter_is_Some. done. }
    intros s2 Hr3 Hf. wp_step.
    destruct (deadline_ok n) as [Hd Hsoon]; [done|by destruct Hlt|].
    eapply (good_schedule_asleep _ q (ticks s +! n) (InTimeout (r_if (cpu s)))); try done.
    + rewrite <-Hi1. symmetry. by apply (frame_get idle_task _ _ _ Hf).
    + rewrite <-Ht1. symmetry. by apply (frame_get ticks _ _ _ Hf).
    + by apply falls_asleep_deadline.
    + by left.
    + by right.
    + intros s' a' Hg. wp_step. by exists a'.
Qed.

Lemma good_sleep_ticks n :
  ks !! current_task s = None → current_task s ≠ idle_task s →
  0 ≤ n → ticks s + n < 2 ^ 64 →
  wp (task_sleep_ticks_enter n) (λ r s', ∃ a',
    good Qs (match r with Some b => <[current_task s := InTicks b]> ks | None => ks end) s' a') s.
Proof.
  intros Hk Hne Hn Hlt.
  destruct (good_current _ _ _ _ Hgood) as (Hcur & Hc0 & [vc Hvc] & Hrq).
  pose proof (gd_inv _ _ _ _ Hgood) as Hinv. rewrite Hcur in *.
  assert (kont_ok None vc) as [Hqc Huc] by (rewrite <-Hk; by apply (in_views _ _ _ Hinv _ _ Hvc)).
  unfold task_sleep_ticks_enter. wp_step. wp_step. rewrite Hcur, (proj2 (Z.eqb_neq _ 0)) by done.
  destruct (Z.eqb_spec n 0) as [->|Hn0]; cbn [orb].
  { wp_step. by exists a. }
  destruct (deadline_ok n) as [Hd Hsoon]; [lia|lia|].
  assert (a_cur a ∉ a_sl a) as Hnsl by (by eapply inv_not_sleeper).
  wp_step. apply wp_save_if. wp_step. wp_step. cbn [ticks set_cpu]. wp_step.
  eapply (rep_upd _ _ (asleep_until (ticks s +! n)));
    [apply rep_set_if, Hgood|by eexists|done|upd_ok|by left|by right|].
  intros s1 Hr1 ->. wp_step. eapply rep_add_sleeper; [done| |done|done|].
  { cbn. rewrite lookup_alter_is_Some. by eexists. }
  intros s2 Hr2 Hf. wp_step.
  eapply (good_schedule_asleep _ 0 (ticks s +! n) (InTicks (r_if (cpu s)))); try done.
  - symmetry. by apply (frame_get idle_task _ _ _ Hf).
  - symmetry. by apply (frame_get ticks _ _ _ Hf).
  - apply Hgood.
  - by eapply falls_asleep_ticks.
  - by right.
  - by right.
  - cbn. auto.
  - intros s' a' Hg. wp_step. by exists a'.
Qed.

Lemma good_yield : wp task_yield (λ _ s', ∃ a', good Qs ks s' a') s.
Proof.
  destruct (good_current _ _ _ _ Hgood) as (Hcur & Hc0 & Hv & Hrq).
  destruct Hgood as [Hrep Hinv Hd Ht Hon].
  eapply rep_schedule; [done|done|done|exact (good_idle _ _ _ _ Hgood)| |].
  - intros s' n Hr' Hcan Hn Ht' Hi' _. exists (a_switch n a). split; [done| |done|by rewrite Ht'|].
    + rewrite Hi'. by apply inv_yield.
    + rewrite Ht'. by apply on_time_switch.
  - intros s' Hr' _ Ht' Hi' _. exists a. split; [done| |done|by rewrite Ht'|by rewrite Ht']. by rewrite Hi'.
Qed.

Lemma good_wake_one q :
  q ∈ Qs → wp (wait_queue_wake_one q) (λ _ s', ∃ a', good Qs ks s' a') s.
Proof.
  intros Hq. destruct (good_queue _ _ _ _ _ Hgood Hq) as (l & Hl & Hq0).
  destruct Hgood as [Hrep Hinv Hd Ht Hon].
  eapply rep_wake_one; [done|done|by eapply inv_disjoint|].
  intros s' Hr' Ht' Hi' _. exists (a_wake_one q a).
  split; [done| |by rewrite dom_wake_one|by rewrite Ht'|].
  - rewrite Hi'. by apply inv_wake_one.
  - rewrite Ht'. by apply on_time_wake_one.
Qed.

Lemma good_wake_all q :
  q ∈ Qs → wp (wait_queue_wake_all q) (λ _ s', ∃ a', good Qs ks s' a') s.
Proof.
  intros Hq. destruct (good_queue _ _ _ _ _ Hgood Hq) as (l & Hl & Hq0).
  destruct Hgood as [Hrep Hinv Hd Ht Hon].
  eapply rep_wake_all; [done|done|by eapply inv_disjoint|].
  intros s' Hr' Ht' Hi' _. exists (a_wake_all q a).
  split; [done| |by rewrite dom_wake_all|by rewrite Ht'|].
  - rewrite Hi'. by apply inv_wake_all.
  - rewrite Ht'. by apply on_time_wake_all.
Qed.

Lemma rep_set_ticks n : rep s a → rep (set_ticks n s) a.
Proof. by intros [[] [] H3 H4 H5 []]. Qed.

Lemma good_tick :
  ticks s + 1 < 2 ^ 64 → wp (pit_on_tick;; sched_tick) (λ _ s', ∃ a', good Qs ks s' a') s.
Proof.
  intros Hlt. destruct (good_current _ _ _ _ Hgood) as (Hcur & Hc0 & Hv & Hrq).
  destruct Hgood as [Hrep Hinv Hd Ht Hon]. wp_step. unfold pit_on_tick. wp_step.
  eapply rep_tick; [by apply rep_set_ticks|done|done|]. cbn.
  intros s' Hr' Ht' _ Hi'. exists (a_tick (ticks s +! 1) a). split; [done| |done| |].
  - rewrite Hi'. by apply inv_tick.
  - rewrite Ht'. by apply Z.mod_pos_bound.
  - rewrite Ht'. by eapply on_time_tick.
Qed.

(** The three returns: the task leaves its queue, if it is still on one. *)
Lemma good_return b f s' a' v :
  rep s' a' → idle_task s' = idle_task s → ticks s' = ticks s → a_views a !! a_cur a = Some v →
  a_views a' = alter f (a_cur a) (a_views a) →
  vw_state (f v) = vw_state v → vw_queue (f v) = 0 → vw_until (f v) = 0 →
  a_rq a' = a_rq a → a_sl a' = a_sl a → a_cur a' = a_cur a →
  (∀ q, a_wl a' !! q = without (a_cur a) <$> a_wl a !! q) →
  ∃ a'', good Qs (delete (a_cur a) ks) (set_cpu (set_r_if b (cpu s')) s') a''.
Proof.
  intros Hr Hi Ht Hv Hvs Hst Hq Hu Hrq Hsl Hcur Hwl. exists a'.
  destruct Hgood as [Hrep Hinv Hd Htk Hon].
  split; [by apply rep_set_if| | |cbn; by rewrite Ht|].
  - cbn. rewrite Hi.
    eapply (inv_return ks _ a a' v (f v)); try done; [by eapply inv_cur_until|].
    intros p. rewrite Hvs. destruct (decide (p = a_cur a)) as [->|].
    + by rewrite lookup_alter_eq, Hv.
    + by rewrite lookup_alter_ne, option_fmap_id.
  - apply set_eq. intros q. rewrite <-Hd, !elem_of_dom, Hwl. apply fmap_is_Some.
  - cbn. rewrite Ht. intros p u. rewrite Hvs, lookup_alter_Some.
    intros [(E & w & Hw & Eu)|[_ Hu']]; [left; congruence|by apply (Hon p)].
Qed.

Lemma without_no_queue c : on_no_queue a c → ∀ q, a_wl a !! q = without c <$> a_wl a !! q.
Proof.
  intros Hno q. destruct (a_wl a !! q) as [l|] eqn:E; cbn; [|done].
  by rewrite without_out by (by eapply Hno).
Qed.

Lemma good_current_view k : ks !! current_task s = Some k →
  ∃ v, a_views a !! a_cur a = Some v ∧ current_task s = a_cur a ∧ kont_ok (Some k) v ∧
    vw_state v = TASK_RUNNING ∧ vw_until v = 0 ∧ a_cur a ∉ a_sl a.
Proof.
  intros Hk. destruct (good_current _ _ _ _ Hgood) as (Hcur & _). rewrite Hcur in *.
  pose proof (gd_inv _ _ _ _ Hgood) as Hinv.
  destruct (inv_current _ _ _ Hinv) as (v & Hv & Hst & _). exists v.
  do 2 (split; [done|]). split; [rewrite <-Hk; by apply (in_views _ _ _ Hinv _ _ Hv)|].
  split; [done|]. pose proof (inv_cur_until _ _ _ _ Hinv Hv) as Hu. split; [done|].
  by eapply inv_not_sleeper.
Qed.

Lemma good_sleep_return b :
  ks !! current_task s = Some (InSleep b) →
  wp (wait_queue_sleep_return (current_task s) b)
    (λ _ s', ∃ a', good Qs (delete (current_task s) ks) s' a') s.
Proof.
  intros Hk. destruct (good_current_view _ Hk) as (v & Hv & Hcur & Hkont & Hst & Hu & Hns).
  assert (vw_queue v = 0) as Hq by (destruct Hkont as [_ [?|?]]; congruence).
  assert (on_no_queue a (a_cur a)) as Hno by (eapply inv_on_no_queue; [apply Hgood|done|done]).
  unfold wait_queue_sleep_return, wait_queue_sleep_locked_return. wp_step. rewrite Hcur.
  eapply (rep_upd _ _ (λ v, View (vw_state v) 0 (vw_until v) (vw_timed_out v)));
    [apply Hgood|by eexists|done|upd_ok|by left|by left|].
  intros s' Hr' ->. apply wp_restore_if.
  eapply (good_return b _ _ _ v Hr'); try done. by apply without_no_queue.
Qed.

Lemma good_ticks_return b :
  ks !! current_task s = Some (InTicks b) →
  wp (task_sleep_ticks_return (current_task s) b)
    (λ _ s', ∃ a', good Qs (delete (current_task s) ks) s' a') s.
Proof.
  intros Hk. destruct (good_current_view _ Hk) as (v & Hv & Hcur & [Hq _] & Hst & Hu & Hns).
  assert (on_no_queue a (a_cur a)) as Hno by (eapply inv_on_no_queue; [apply Hgood|done|done]).
  unfold task_sleep_ticks_return. wp_step. rewrite Hcur.
  eapply (rep_upd _ _ (λ v, View (vw_state v) (vw_queue v) 0 false));
    [apply Hgood|by eexists|done|upd_ok|by left|by right|].
  intros s' Hr' ->.
  pose proof (λ b, good_return b _ _ _ v Hr' eq_refl eq_refl Hv eq_refl eq_refl Hq eq_refl
    eq_refl eq_refl eq_refl (without_no_queue _ Hno)) as Hret.
  apply wp_when; intros _; [exact (Hret true)|].
  specialize (Hret (r_if (cpu s))). by rewrite (set_if_same (set_tasks _ s)) in Hret.
Qed.

(** Leaving the queue on which the wait has timed out. *)
Lemma unlink_current q v :
  a_views a !! a_cur a = Some v → vw_queue v = q →
  (∀ q', alter (without (a_cur a)) q (a_wl a) !! q' = without (a_cur a) <$> a_wl a !! q').
Proof.
  intros Hv Hq q'. destruct (decide (q' = q)) as [->|Hne]; [by rewrite lookup_alter_eq|].
  rewrite lookup_alter_ne by done. destruct (a_wl a !! q') as [l|] eqn:E; cbn; [|done].
  rewrite without_out; [done|]. rewrite (inv_wl_iff _ _ _ _ _ _ _ (gd_inv _ _ _ _ Hgood) E Hv). congruence.
Qed.

Lemma good_timeout_return b :
  ks !! current_task s = Some (InTimeout b) →
  wp (wait_queue_sleep_timeout_return (current_task s) b)
    (λ _ s', ∃ a', good Qs (delete (current_task s) ks) s' a') s.
Proof.
  intros Hk. destruct (good_current_view _ Hk) as (v & Hv & Hcur & Hkont & Hst & Hu & Hns).
  destruct Hkont as [_ Hqt]; [by rewrite Hst|].
  pose proof (gd_inv _ _ _ _ Hgood) as Hinv. pose proof (gd_rep _ _ _ _ Hgood) as Hrep.
  destruct (views_lookup _ _ _ _ Hrep Hv) as (t & Ht & <-). cbn in *.
  unfold wait_queue_sleep_timeout_return. wp_step. rewrite Hcur. eapply wp_rd; [done|]. wp_step.
  set (a1 := set_views (alter (λ v, View (vw_state v) (vw_queue v) (vw_until v) false) (a_cur a)) a).
  eapply (rep_upd _ _ (λ v, View (vw_state v) (vw_queue v) (vw_until v) false));
    [done|by eexists|done|upd_ok|by right|by right|]. fold a1.
  intros s1 Hr1 Hs1.
  assert (∀ (r : bool) s2 a2, rep s2 a2 → a_views a2 = a_views a1 → a_rq a2 = a_rq a → a_sl a2 = a_sl a →
      a_cur a2 = a_cur a → (∀ q, a_wl a2 !! q = without (a_cur a) <$> a_wl a !! q) →
      idle_task s2 = idle_task s → ticks s2 = ticks s →
      wp (upd (a_cur a) (λ t, set_t_sleep_until 0 (set_t_wait_next 0 (set_t_wait_queue 0 t)));;
          restore_interrupts b;; mret r)
        (λ _ s', ∃ a', good Qs (delete (a_cur a) ks) s' a') s2) as Hend.
  { intros r s2 a2 Hr2 Hv2 Hrq2 Hsl2 Hc2 Hwl2 Hi2 Ht2. wp_step.
    eapply (rep_upd _ _ (λ v, View (vw_state v) 0 0 (vw_timed_out v))); [done| |done|upd_ok| | |].
    - rewrite Hv2. cbn. rewrite lookup_alter_is_Some. by eexists.
    - left. by rewrite Hsl2.
    - left. intros q l Hq. rewrite Hwl2 in Hq. apply fmap_Some in Hq as (l' & _ & ->).
      unfold without. rewrite list_elem_of_filter. tauto.
    - intros s3 Hr3 ->. wp_step. apply wp_restore_if. wp_step.
      eapply (good_return b ((λ v, View (vw_state v) 0 0 (vw_timed_out v)) ∘
        (λ v, View (vw_state v) (vw_queue v) (vw_until v) false)) _ _ _ Hr3); try done.
      cbn. by rewrite Hv2, <-alter_alter_eq. }
  wp_step. destruct (Z.eqb_spec (t_wait_queue t) 0) as [Hq0|Hq0].
  - rewrite andb_false_r. cbn. apply (Hend _ _ a1); subst; try done.
    apply without_no_queue. by eapply inv_on_no_queue.
  - destruct Hqt as [?|Hto]; [done|]. rewrite Hto. cbn.
    destruct (in_views _ _ _ Hinv _ _ Hv) as [_ Hok].
    destruct (vo_queue _ _ _ _ Hok Hq0) as [l Hl]. cbn in Hl.
    eapply rep_unlink_waiter; [done|done|exact (inv_disjoint _ _ _ Hinv)|].
    intros s2 Hr2 Ht2 _ Hi2. apply (Hend _ _ (a_unlink (t_wait_queue t) (a_cur a) a1)); subst; try done.
    by eapply unlink_current.
Qed.

Lemma good_thread_create mem stack tramp name proc entry arg :
  tasks s !! mem = None → ks !! mem = None → Z.of_nat (size (tasks s)) + 1 < 2 ^ 64 →
  (proc = 0 ∨ is_Some (procs s !! proc ≫= p_address_space)) →
  wp (task_thread_create mem stack tramp name proc entry arg) (λ _ s', ∃ a', good Qs ks s' a') s.
Proof.
  intros Hmem Hk Hsize Hproc. unfold task_thread_create, task_alloc.
  destruct (Z.eqb_spec proc 0) as [->|Hp0]; cbn [orb]; [wp_step; by exists a|].
  destruct (entry =? 0); [wp_step; by exists a|]. wp_step.
  destruct (Z.eqb_spec mem 0) as [->|Hm0]; [wp_step; wp_step; by exists a|].
  destruct (stack =? 0); [wp_step; wp_step; by exists a|].
  destruct Hproc as [|[pml4 (p & Hp & Has)%bind_Some]]; [done|].
  wp_steps. eapply wp_rd_proc; [done|]. wp_steps. rewrite Has. cbn. wp_steps; [lia|].
  match goal with |- wp _ _ (set_tasks (<[mem := ?t]> _) ?s0) =>
    assert (good Qs ks s0 a) as Hg0; [|set (nt := t); set (s1 := s0) in *] end.
  { destruct Hgood as [[[] [] H3 H4 H5 []] Hinv Hd Ht Hon]. by split. }
  eapply (rep_add_task mem (set_views <[mem := View TASK_READY 0 0 false]> a)); [| |done|].
  - change (View TASK_READY 0 0 false) with (view_of nt).
    eapply (rep_insert s1 a); try done; apply Hg0.
  - cbn. rewrite lookup_insert_eq. by eexists.
  - intros s' Hr' Hf. wp_step. exists (a_spawn mem a). destruct Hg0 as [Hrep Hinv Hd Ht Hon].
    assert (idle_task s' = idle_task s1) as Hi' by (symmetry; by apply (frame_get idle_task _ _ _ Hf)).
    assert (ticks s' = ticks s1) as Ht' by (symmetry; by apply (frame_get ticks _ _ _ Hf)).
    split; [done| |done|by rewrite Ht'|rewrite Ht'; by apply on_time_spawn].
    rewrite Hi'. apply inv_spawn; [done| |done|done].
    rewrite <-(rep_views _ _ (gd_rep _ _ _ _ Hgood)), lookup_fmap, Hmem. done.
Qed.

Lemma good_set_priority p pr :
  is_Some (tasks s !! p) → wp (task_set_priority p pr) (λ _ s', ∃ a', good Qs ks s' a') s.
Proof.
  intros Hp. pose proof (gd_rep _ _ _ _ Hgood) as Hrep.
  assert (p ≠ 0) as Hp0.
  { intros ->. rewrite (eo_null _ (rep_env _ _ Hrep)) in Hp. by destruct Hp. }
  unfold task_set_priority. rewrite (proj2 (Z.eqb_neq p 0)) by done.
  eapply (rep_upd _ _ id); [done| |apply view_with_priority|apply with_priority_ok| | |].
  - rewrite <-(rep_views _ _ Hrep), lookup_fmap, fmap_is_Some. done.
  - right. intros t. unfold with_priority. cbn. by destruct (_ <? _).
  - right. intros t. unfold with_priority. cbn. by destruct (_ <? _).
  - intros s' Hr' ->. destruct Hgood as [_ Hinv Hd Ht Hon]. exists a. split; [|done..].
    replace a with (set_views (alter id p) a); [done|]. unfold set_views.
    rewrite alter_id by done. by destruct a.
Qed.
End entries.

(** ** The system *)

Definition sys_ok (Qs : gset Z) (x : sys) : Prop := ∃ a, good Qs (sy_in x) (sy_sched x) a.

Lemma run_kop_ok Qs tramp o x :
  sys_ok Qs x → enabled Qs o x → wp (run_kop tramp o) (λ _, sys_ok Qs) x.
Proof.
  destruct x as [s ks]. intros [a Hg] Hen. unfold run_kop, sched_do. wp_step. apply wp_gets.
  cbn in Hg |- *.
  destruct o; cbn in Hen; unfold may_sleep in Hen; cbn in Hen.
  - apply wp_zoom. eapply wp_mono; [by eapply good_tick|]. done.
  - apply wp_zoom. eapply wp_mono; [by eapply good_yield|]. done.
  - destruct Hen as [[Hk Hi] Hq]. wp_step. apply wp_zoom.
    eapply wp_mono; [by eapply good_sleep|]. by intros r s' (b & a' & -> & H); exists a'.
  - destruct Hen as ([Hk Hi] & Hq & Hn & Hlt). wp_step. apply wp_zoom.
    destruct (good_queue _ _ _ _ _ Hg Hq) as (l & Hl & Hq0).
    destruct (good_current _ _ _ _ Hg) as (Hcur & Hc0 & _ & _).
    unfold wait_queue_sleep_timeout_guard. wp_step. apply wp_gets. cbn.
    rewrite Hcur, (proj2 (Z.eqb_neq wq 0)), (proj2 (Z.eqb_neq _ 0)) by done. cbn.
    destruct (Z.eqb_spec timeout 0) as [|Hn0]; [by exists a|]. apply wp_ret. rewrite <-Hcur. wp_step.
    apply wp_zoom. eapply wp_mono; [eapply good_sleep_timeout; try done; lia|]. done.
  - destruct Hen as ([Hk Hi] & Hn & Hlt). wp_step. apply wp_zoom.
    eapply wp_mono; [by eapply good_sleep_ticks|]. by intros [b|] s' H.
  - wp_step. apply wp_gets. cbn. destruct (ks !! current_task s) as [[b|b|b]|] eqn:Hk.
    + wp_step. apply wp_zoom. eapply wp_mono; [by eapply good_sleep_return|]. done.
    + wp_step. apply wp_zoom. eapply wp_mono; [by eapply good_timeout_return|]. done.
    + wp_step. apply wp_zoom. eapply wp_mono; [by eapply good_ticks_return|]. done.
    + by exists a.
  - apply wp_zoom. eapply wp_mono; [by eapply good_wake_one|]. done.
  - apply wp_zoom. eapply wp_mono; [by eapply good_wake_all|]. done.
  - apply wp_zoom. eapply wp_mono; [by eapply good_set_priority|]. done.
  - destruct Hen as (Hm & Hk & Hs & Hp). wp_step. apply wp_zoom.
    eapply wp_mono; [by eapply good_thread_create|]. done.
Qed.

(** ** Boot *)

(** The kernel before [task_init]: no task, and every wait queue empty. *)
Record pristine (Qs : gset Z) (s : sched) : Prop := {
  pr_tasks : tasks s = ∅;
  pr_queues : ∀ q, q ∈ Qs → wqs s !! q = Some (WaitQueue 0 0);
  pr_null : 0 ∉ Qs;
  pr_reaper : reaper_queue s ∈ Qs;
  pr_rq : runqueue_head s = 0 ∧ runqueue_tail s = 0 ∧ task_count s = 0;
  pr_lock : runqueue_lock s = false;
  pr_sl : sleep_list_head s = 0;
  pr_ticks : 0 ≤ ticks s < 2 ^ 64;
}.

(** The abstract state with the idle task alone. *)
Definition a_boot (Qs : gset Z) (idle : Z) (rq : list Z) : abs :=
  Abs {[idle := View TASK_RUNNING 0 0 false]} rq [] (gset_to_gmap [] Qs) idle.

Lemma inv_boot Qs idle : idle ≠ 0 → 0 ∉ Qs → inv ∅ idle (a_boot Qs idle [idle]).
Proof.
  intros Hi HQ. split; cbn.
  - intros p v [<- <-]%lookup_singleton_Some. split; [done|]. split; cbn; try done.
    intros _. by apply list_elem_of_singleton.
  - intros p. split; [by intros ?%elem_of_nil|].
    by intros (v & [<- <-]%lookup_singleton_Some & Hu).
  - intros q l p [Hq <-]%lookup_gset_to_gmap_Some. split; [by intros ?%elem_of_nil|].
    by intros (v & [<- <-]%lookup_singleton_Some & <-).
  - by apply lookup_gset_to_gmap_None.
  - rewrite lookup_singleton_eq. by eexists.
  - rewrite lookup_singleton_eq. by eexists.
  - by intros v [_ <-]%lookup_singleton_Some.
  - intros q l [Hq <-]%lookup_gset_to_gmap_Some. constructor.
Qed.

Lemma prio_ok_idle pid tid name cr3 stack entry arg proc parent now :
  prio_ok (as_idle (new_task pid tid name cr3 stack entry arg proc parent now)).
Proof. by split. Qed.

Lemma boot_ok Qs s proc_mem mem stack tramp pml4 :
  pristine Qs s → proc_mem ≠ 0 → mem ≠ 0 → stack ≠ 0 →
  wp (task_init proc_mem mem stack tramp pml4) (λ _ s', sys_ok Qs (Sys s' ∅)) s.
Proof.
  intros [Pt Pq P0 Pr (Ph & Ptl & Pc) Pl Ps Ptk] Hpm Hm Hst. unfold task_init, wait_queue_init.
  wp_step. apply wp_gets.
  assert (reaper_queue s ≠ 0) as Hr0 by (by intros E; rewrite E in Pr).
  rewrite (proj2 (Z.eqb_neq _ 0)) by done. wp_step.
  eapply wp_upd_wq; [by eauto|].
  unfold process_create_with_parent. rewrite (proj2 (Z.eqb_neq proc_mem 0)) by done. cbn [Z.eqb negb].
  wp_steps. rewrite (proj2 (Z.eqb_neq proc_mem 0)) by done. unfold when at 1. wp_steps.
  unfold task_alloc. rewrite (proj2 (Z.eqb_neq mem 0)), (proj2 (Z.eqb_neq stack 0)) by done.
  wp_steps. eapply wp_rd_proc; [cbn; apply lookup_insert_eq|]. wp_steps. cbn [deref p_address_space new_process].
  wp_steps. rewrite (proj2 (Z.eqb_neq mem 0)) by done. unfold when at 1. wp_steps.
  apply wp_upd; [cbn; rewrite lookup_insert_eq; by eexists|].
  unfold upd_proc. wp_steps. eapply wp_rd_proc; [cbn; apply lookup_insert_eq|]. wp_steps.
  cbn. rewrite Pt, insert_empty.
  match goal with |- wp _ _ ?s0 => set (s1 := s0) end.
  eapply (wp_sched_add_task mem []); [|cbn; rewrite lookup_alter_eq, lookup_singleton_eq; by eexists|done|].
  { split; cbn; [done|done|done|done|]. rewrite alter_singleton_eq, map_size_singleton. done. }
  intros s' Hrq Hf. apply wp_modify. exists (a_boot Qs mem [mem]). split; cbn.
  - apply (rep_frame_rq [mem] (set_idle_task mem s1) _ (a_boot Qs mem [])); [|by apply (f_equal (set_idle_task mem)) in Hf|by destruct Hrq].
    subst s1. split; cbn.
    + split; cbn; try done. by rewrite alter_singleton_eq, map_size_singleton.
    + split; [done|constructor].
    + intros q l [Hq <-]%lookup_gset_to_gmap_Some. split; [by intros ->|].
      exists (WaitQueue 0 0). split; [|done]. cbn.
      destruct (decide (q = reaper_queue s)) as [->|]; [by rewrite lookup_alter_eq, (Pq _ Pr)|].
      rewrite lookup_alter_ne by done. by apply Pq.
    + by rewrite alter_singleton_eq, map_fmap_singleton.
    + done.
    + split; cbn; rewrite ?alter_singleton_eq; try done.
      * by rewrite lookup_singleton_ne.
      * unfold all_tasks. cbn. apply map_Forall_singleton, prio_ok_idle.
      * intros p t [<- <-]%lookup_singleton_Some. cbn. rewrite lookup_insert_eq. by eexists.
      * rewrite lookup_singleton_eq. by eexists.
  - by apply inv_boot.
  - apply dom_gset_to_gmap.
  - by rewrite <-(frame_get ticks _ _ _ Hf).
  - intros p v Hp. cbn in Hp. apply lookup_singleton_Some in Hp as [_ <-]. by left.
Qed.

(** The states the kernel reaches: boot, then any enabled entries. *)
Inductive reach (Qs : gset Z) (tramp : Z) : sys → Prop :=
| reach_boot s0 s proc_mem mem stack pml4 :
    pristine Qs s0 → proc_mem ≠ 0 → mem ≠ 0 → stack ≠ 0 →
    task_init proc_mem mem stack tramp pml4 s0 = Done ((), s) →
    reach Qs tramp (Sys s ∅)
| reach_step x o x' :
    reach Qs tramp x → enabled Qs o x → run_kop tramp o x = Done ((), x') →
    reach Qs tramp x'.

Lemma reach_ok Qs tramp x : reach Qs tramp x → sys_ok Qs x.
Proof.
  induction 1 as [s0 s proc_mem mem stack pml4 Hp H1 H2 H3 Hrun|x o x' _ IH Hen Hrun].
  - pose proof (boot_ok Qs s0 proc_mem mem stack tramp pml4 Hp H1 H2 H3) as Hwp.
    unfold wp in Hwp. by rewrite Hrun in Hwp.
  - pose proof (run_kop_ok Qs tramp o x IH Hen) as Hwp. unfold wp in Hwp. by rewrite Hrun in Hwp.
Qed.

(** A sequence of entries, each of them enabled when it runs. *)
Fixpoint script (Qs : gset Z) (tramp : Z) (os : list kop) (x : sys) : option sys :=
  match os with
  | [] => Some x
  | o :: os =>
      if bool_decide (enabled Qs o x) then
        match run_kop tramp o x with
        | Done (_, x') => script Qs tramp os x'
        | Stop _ => None
        end
      else None
  end.

Lemma reach_script Qs tramp os x x' :
  reach Qs tramp x → script Qs tramp os x = Some x' → reach Qs tramp x'.
Proof.
  revert x. induction os as [|o os IH]; cbn; intros x Hx Hs; [by simplify_eq|].
  case_bool_decide as Hen; [|done].
  destruct (run_kop tramp o x) as [[[] y]|] eqn:E; [|done].
  apply (IH y); [|done]. by eapply reach_step.
Qed.

(** A machine with two wait queues besides the reaper's. *)
Definition boot0 : sched :=
  {| tasks := ∅; procs := ∅;
     wqs := {[1 := WaitQueue 0 0; 2 := WaitQueue 0 0; 3 := WaitQueue 0 0]};
     runqueue_head := 0; runqueue_tail := 0; task_count := 0; runqueue_lock := false;
     idle_task := 0; sleep_list_head := 0; last_boost_tick := 0; current_task := 0;
     init_process := 0; next_pid := 1; next_tid := 1; reaper_queue := 1;
     file_refs := ∅; kstack := ∅; need_resched := replicate 64 0; cpu_id := 0; cpu_count := 1;
     ipis := []; ticks := 0; cpu := CpuRegs 0 0 0 true 0 0 0 |}.
Definition queues0 : gset Z := {[1; 2; 3]}.

Lemma pristine_boot0 : pristine queues0 boot0.
Proof.
  split; try done.
  - intros q. unfold queues0. rewrite !elem_of_union, !elem_of_singleton.
    by intros [[-> | ->] | ->].
Qed.

(** Boot, then a script. *)
Definition run0 (os : list kop) : option sys :=
  match task_init 16 32 4096 5 6 boot0 with
  | Done (_, s) => script queues0 5 os (Sys s ∅)
  | Stop _ => None
  end.

Lemma reach_run0 os x : run0 os = Some x → reach queues0 5 x.
Proof.
  unfold run0. destruct (task_init 16 32 4096 5 6 boot0) as [[[] s]|] eqn:E; [|done].
  apply reach_script. by eapply reach_boot; [apply pristine_boot0|..|exact E].
Qed.
