(* ===== verification/SchedProps.v ===== *)
(** * Properties of the scheduler, the wait queues and the tasks *)

From S2P Require Import Prelude Bits Links SchedState Sched WaitQueue Task Signal TaskLife Timer.
From S2P Require Import SchedSpec SchedRun WaitSpec SchedInv SchedSystem.

(** What holds between two entries of the kernel. *)
Record well_scheduled (Qs : gset Z) (s : sched) : Prop := {
  (** the ready queue is a list with the right tail and length, and holds every
      task that has not ended *)
  ws_runqueue : ∃ rq, rq_inv s rq ∧
    ∀ p t, tasks s !! p = Some t → t_state t ≠ TASK_ZOMBIE → p ∈ rq;
  (** the sleep list is sorted by deadline and holds the tasks with a deadline *)
  ws_sleepers : ∃ sl, sl_inv s sl ∧
    ∀ p t, tasks s !! p = Some t → (p ∈ sl ↔ t_sleep_until t ≠ 0);
  (** each wait queue holds the tasks that say so *)
  ws_queues : ∀ q, q ∈ Qs → ∃ l, queue_rep s q l ∧
    ∀ p t, tasks s !! p = Some t → (p ∈ l ↔ t_wait_queue t = q);
  (** exactly the current task runs *)
  ws_current : is_Some (tasks s !! current_task s) ∧
    ∀ p t, tasks s !! p = Some t → (t_state t = TASK_RUNNING ↔ p = current_task s);
  (** no task sleeps without something to wake it up *)
  ws_no_lost : ∀ p t, tasks s !! p = Some t → t_state t = TASK_SLEEPING →
    t_wait_queue t ∈ Qs ∨ t_sleep_until t ≠ 0;
  (** the idle task never sleeps *)
  ws_idle : ∃ t, tasks s !! idle_task s = Some t ∧ t_state t ≠ TASK_SLEEPING;
}.

Lemma view_lookup s a p t : rep s a → tasks s !! p = Some t → a_views a !! p = Some (view_of t).
Proof. intros Hr Ht. by rewrite <-(rep_views _ _ Hr), lookup_fmap, Ht. Qed.

Lemma sys_ok_well_scheduled Qs x : sys_ok Qs x → well_scheduled Qs (sy_sched x).
Proof.
  destruct x as [s ks]. intros [a [Hr Hi Hd _ _]]. cbn in *.
  assert (∀ p t, tasks s !! p = Some t → view_ok ks a p (view_of t)) as Hok.
  { intros p t Ht. apply (in_views _ _ _ Hi). by apply (view_lookup s). }
  split.
  - exists (a_rq a). split; [apply Hr|]. intros p t Ht. apply (Hok p t Ht).
  - exists (a_sl a). split; [apply Hr|]. intros p t Ht.
    exact (inv_sl_iff _ _ _ _ _ Hi (view_lookup _ _ _ _ Hr Ht)).
  - intros q Hq. rewrite <-Hd in Hq. apply elem_of_dom in Hq as [l Hl]. exists l.
    split; [by apply (rep_wq _ _ Hr)|]. intros p t Ht.
    exact (inv_wl_iff _ _ _ _ _ _ _ Hi Hl (view_lookup _ _ _ _ Hr Ht)).
  - rewrite (rep_cur _ _ Hr). split.
    + destruct (in_cur _ _ _ Hi) as [v Hv].
      destruct (views_lookup _ _ _ _ Hr Hv) as (t & Ht & _). by exists t.
    + intros p t Ht. apply (Hok p t Ht).
  - intros p t Ht Hs. destruct (vo_sleep _ _ _ _ (Hok p t Ht) Hs) as [Hq|]; [left|by right].
    rewrite <-Hd. by apply elem_of_dom, (vo_queue _ _ _ _ (Hok p t Ht)).
  - destruct (in_idle _ _ _ Hi) as [v Hv]. destruct (views_lookup _ _ _ _ Hr Hv) as (t & Ht & <-).
    exists t. split; [done|]. by apply (in_idle_ok _ _ _ Hi _ Hv).
Qed.

Lemma count_waiters_run fuel cursor n s l :
  seg t_wait_next (tasks s) cursor l 0 → (length l ≤ fuel)%nat → 0 ≤ n →
  n + Z.of_nat (length l) < 2 ^ 64 →
  count_waiters fuel cursor n s = Done (n + Z.of_nat (length l), s).
Proof.
  revert cursor n fuel. induction l as [|p l IH]; intros cursor n fuel Hs Hf Hn Hlt.
  - cbn in Hs. subst. destruct fuel; cbn; by rewrite Z.add_0_r.
  - destruct Hs as (-> & Hp & t & Ht & Hs). destruct fuel as [|fuel]; cbn in Hf; [lia|].
    cbn [count_waiters]. rewrite (proj2 (Z.eqb_neq p 0)) by done.
    rewrite (run_bind _ _ s t s) by (unfold rd, get, mbind, prog_bind; by rewrite Ht).
    cbn [length] in Hlt |- *. unfold u64. rewrite Z.mod_small by lia.
    rewrite IH by (try done; lia). do 2 f_equal. lia.
Qed.

(** C1. In every state the kernel reaches after boot by timer ticks, switches,
    sleeps with and without a time-out, wake-ups, priority changes and thread
    creation in any order, the ready queue, the sleep list and all wait queues
    are well formed and hold exactly the tasks that say so, the current task is
    the only running one, and no task sleeps without a queue or a deadline. *)
Theorem scheduler_invariant (Qs : gset Z) (tramp : Z) (x : sys) :
  reach Qs tramp x → well_scheduled Qs (sy_sched x).
Proof. intros H. by apply sys_ok_well_scheduled, (reach_ok Qs tramp). Qed.

(** Two threads, one asleep on queue 2 with a time-out, one on queue 2 without. *)
Definition script0 : list kop :=
  [ThreadCreate 64 8192 "a" 16 7 0; ThreadCreate 96 16384 "b" 16 7 0; Yield;
   SleepTimeout 2 3; Sleep 2; Tick].

Definition end_of (os : list kop) : sys := default (Sys boot0 ∅) (run0 os).

Lemma reach_end os : bool_decide (is_Some (run0 os)) = true → reach queues0 5 (end_of os).
Proof.
  intros H%bool_decide_eq_true. unfold end_of. apply (reach_run0 os).
  by destruct H as [x ->].
Qed.

Lemma scheduler_invariant_witness : well_scheduled queues0 (sy_sched (end_of script0)).
Proof. apply (scheduler_invariant queues0 5), reach_end. vm_compute. reflexivity. Defined.

(** C11. In every reachable state every enabled entry runs to its end: no
    stale pointer is followed, no list is cyclic, nothing panics. *)
Theorem scheduler_safe (Qs : gset Z) (tramp : Z) (x : sys) (o : kop) :
  reach Qs tramp x → enabled Qs o x → ∃ x', run_kop tramp o x = Done ((), x').
Proof.
  intros Hx Hen. pose proof (run_kop_ok Qs tramp o x (reach_ok _ _ _ Hx) Hen) as Hwp.
  apply wp_run in Hwp as ([] & x' & Hrun & _). by exists x'.
Qed.

Lemma scheduler_safe_witness :
  ∃ x', run_kop 5 (WakeAll 2) (end_of script0) = Done ((), x').
Proof.
  apply (scheduler_safe queues0 5).
  - apply reach_end. vm_compute. reflexivity.
  - apply (bool_decide_unpack _). vm_compute. exact I.
Defined.

(** C17. No task oversleeps: in every reachable state a deadline that is set
    lies in the future, and its owner is asleep.  So the tick that reaches the
    deadline has made the task ready. *)
Theorem no_oversleep (Qs : gset Z) (tramp : Z) (x : sys) (p : Z) (t : task) :
  reach Qs tramp x → tasks (sy_sched x) !! p = Some t → t_sleep_until t ≠ 0 →
  ticks (sy_sched x) < t_sleep_until t ∧ t_state t = TASK_SLEEPING.
Proof.
  intros Hx Ht Hu. destruct (reach_ok _ _ _ Hx) as [a [Hr Hi _ _ Hon]].
  pose proof (view_lookup _ _ _ _ Hr Ht) as Hv. split.
  - by destruct (Hon p _ Hv).
  - destruct (in_views _ _ _ Hi _ _ Hv) as [_ Hok]. exact (sleeper_sleeps _ _ (vo_kont _ _ _ _ Hok) Hu).
Qed.

Lemma no_oversleep_witness :
  match tasks (sy_sched (end_of script0)) !! 64 with
  | Some t => t_sleep_until t = 3 ∧ ticks (sy_sched (end_of script0)) < t_sleep_until t ∧
      t_state t = TASK_SLEEPING
  | None => False
  end.
Proof.
  destruct (tasks (sy_sched (end_of script0)) !! 64) as [t|] eqn:Et; [|by vm_compute in Et].
  assert (t_sleep_until t = 3) as Hu by (vm_compute in Et; by injection Et as <-).
  split; [exact Hu|]. apply (no_oversleep queues0 5 (end_of script0) 64 t).
  - apply reach_end. vm_compute. reflexivity.
  - exact Et.
  - by rewrite Hu.
Defined.

(** Priorities and time slices stay in range in every reachable state:
    both priorities between -20 and 19, the full slice the one
    [sched_prio_to_slice] gives for the priority, the remaining slice at most
    40 ticks. *)
Theorem priorities_in_range (Qs : gset Z) (tramp : Z) (x : sys) (p : Z) (t : task) :
  reach Qs tramp x → tasks (sy_sched x) !! p = Some t →
  -20 ≤ t_priority t ≤ 19 ∧ -20 ≤ t_static_priority t ≤ 19 ∧
  t_time_slice_max t = sched_prio_to_slice (t_priority t) ∧ 0 ≤ t_time_slice t ≤ 40.
Proof.
  intros Hx Ht. destruct (reach_ok _ _ _ Hx) as [a [Hr _ _ _ _]].
  destruct (eo_prio _ (rep_env _ _ Hr) p t Ht) as [P1 P2 P3 P4]. done.
Qed.

Lemma priorities_in_range_witness :
  match tasks (sy_sched (end_of (script0 ++ [SetPriority 64 100]))) !! 64 with
  | Some t => -20 ≤ t_priority t ≤ 19 ∧ -20 ≤ t_static_priority t ≤ 19 ∧
      t_time_slice_max t = sched_prio_to_slice (t_priority t) ∧ 0 ≤ t_time_slice t ≤ 40
  | None => False
  end.
Proof.
  destruct (tasks (sy_sched (end_of (script0 ++ [SetPriority 64 100]))) !! 64) as [t|] eqn:Et;
    [|by vm_compute in Et].
  apply (priorities_in_range queues0 5 (end_of (script0 ++ [SetPriority 64 100])) 64 t).
  - apply reach_end. vm_compute. reflexivity.
  - exact Et.
Defined.

(** C22. In every reachable state the single pass of [pick_next_task] computes
    the round-robin choice: a ready task other than the previous one with the
    best priority, the first such behind the previous one in the ready queue,
    otherwise the first such; without any candidate the idle task. *)
Theorem pick_next_task_choice (Qs : gset Z) (tramp : Z) (x : sys) (prev : Z) :
  reach Qs tramp x →
  let s := sy_sched x in
  ∃ rq, rq_inv s rq ∧
  match choice (tasks s) prev rq with
  | Some p =>
      pick_next_task prev s = Done (p, s) ∧ p ≠ prev ∧ p ∈ rq ∧
      (∃ t, tasks s !! p = Some t ∧ t_state t = TASK_READY) ∧
      ∀ q, q ∈ rq → eligible (tasks s) prev q = true → prio (tasks s) p ≤ prio (tasks s) q
  | None => pick_next_task prev s = Done (idle_task s, s)
  end.
Proof.
  intros Hx s. destruct (reach_ok _ _ _ Hx) as [a Hg]. pose proof (gd_rep _ _ _ _ Hg) as Hr.
  pose proof (rep_env _ _ Hr) as Henv. exists (a_rq a). split; [apply Hr|].
  pose proof (pick_next_task_run prev (a_rq a) (sy_sched x) (rep_rq _ _ Hr) (prio_max_env _ Henv)
    (λ _, eo_idle _ Henv) (eo_null _ Henv)) as Hrun. subst s.
  destruct (good_current _ _ _ _ Hg) as (_ & _ & _ & Hne).
  unfold next_of in Hrun. rewrite bool_decide_false in Hrun by done.
  destruct (choice _ prev (a_rq a)) as [p|] eqn:Ech.
  - destruct (choice_in _ _ _ _ Ech) as (Hin & Hel & Hpr). pose proof Hel as Hel'.
    unfold eligible in Hel. apply andb_true_iff in Hel as [Hpp Hel]. apply bool_decide_eq_true in Hpp.
    destruct (tasks (sy_sched x) !! p) as [t|] eqn:Et; [|done].
    apply andb_true_iff in Hel as [Hst _]. apply bool_decide_eq_true in Hst.
    do 3 (split; [done|]). split; [by exists t|].
    intros q Hq Hqe. rewrite Hpr. by apply min_prio_le.
  - destruct (eo_idle _ Henv) as [t Ht]. rewrite Ht in Hrun.
    rewrite bool_decide_true in Hrun; [done|].
    exact (good_idle _ _ _ _ Hg _ (view_lookup _ _ _ _ Hr Ht)).
Qed.

Lemma pick_next_task_choice_witness :
  let s := sy_sched (end_of (script0 ++ [WakeAll 2])) in
  ∃ rq, rq_inv s rq ∧
  match choice (tasks s) 32 rq with
  | Some p =>
      pick_next_task 32 s = Done (p, s) ∧ p ≠ 32 ∧ p ∈ rq ∧
      (∃ t, tasks s !! p = Some t ∧ t_state t = TASK_READY) ∧
      ∀ q, q ∈ rq → eligible (tasks s) 32 q = true → prio (tasks s) p ≤ prio (tasks s) q
  | None => pick_next_task 32 s = Done (idle_task s, s)
  end.
Proof.
  apply (pick_next_task_choice queues0 5 (end_of (script0 ++ [WakeAll 2])) 32), reach_end.
  vm_compute. reflexivity.
Defined.

(** [wait_queue_wake_all] releases exactly the tasks that wait on the
    queue: each leaves it, and the sleeping ones become ready with their
    deadline cleared; state, queue and deadline of every other task stay. *)
Theorem wake_all_releases (Qs : gset Z) (tramp : Z) (x : sys) (q : Z) :
  reach Qs tramp x → q ∈ Qs →
  ∃ x', run_kop tramp (WakeAll q) x = Done ((), x') ∧
  ∀ p t, tasks (sy_sched x) !! p = Some t → ∃ t', tasks (sy_sched x') !! p = Some t' ∧
    if bool_decide (t_wait_queue t = q) then
      t_wait_queue t' = 0 ∧
      t_state t' = (if bool_decide (t_state t = TASK_SLEEPING) then TASK_READY else t_state t) ∧
      (t_state t = TASK_SLEEPING → t_sleep_until t' = 0)
    else view_of t' = view_of t.
Proof.
  intros Hx Hq. destruct (reach_ok _ _ _ Hx) as [a Hg]. destruct x as [s ks]. cbn in *.
  destruct (good_queue _ _ _ _ _ Hg Hq) as (l & Hl & Hq0). destruct Hg as [Hr Hi _ _ _].
  assert (wp (run_kop tramp (WakeAll q)) (λ _ x', rep (sy_sched x') (a_wake_all q a)) (Sys s ks)) as Hwp.
  { unfold run_kop. wp_step. apply wp_gets. apply wp_zoom. cbn.
    eapply rep_wake_all; [done|done|by eapply inv_disjoint|]. by intros. }
  apply wp_run in Hwp as ([] & x' & Hrun & Hr'). exists x'. split; [done|].
  intros p t Ht. pose proof (view_lookup _ _ _ _ Hr Ht) as Hv.
  assert (a_views (a_wake_all q a) !! p =
    Some ((if bool_decide (p ∈ l) then release_view else id) (view_of t))) as Hv'.
  { unfold a_wake_all. rewrite Hl. cbn. by rewrite lookup_release_all, Hv. }
  destruct (views_lookup _ _ _ _ Hr' Hv') as (t' & Ht' & Hvt). exists t'. split; [done|].
  rewrite (bool_decide_ext (t_wait_queue t = q) (p ∈ l)) by
    (symmetry; exact (inv_wl_iff _ _ _ _ _ _ _ Hi Hl Hv)).
  case_bool_decide; [|done]. unfold release_view in Hvt. cbn in Hvt.
  case_bool_decide; injection Hvt; intros; split_and!; congruence.
Qed.

Lemma wake_all_releases_witness :
  ∃ x', run_kop 5 (WakeAll 2) (end_of script0) = Done ((), x') ∧
  ∀ p t, tasks (sy_sched (end_of script0)) !! p = Some t →
  ∃ t', tasks (sy_sched x') !! p = Some t' ∧
    if bool_decide (t_wait_queue t = 2) then
      t_wait_queue t' = 0 ∧
      t_state t' = (if bool_decide (t_state t = TASK_SLEEPING) then TASK_READY else t_state t) ∧
      (t_state t = TASK_SLEEPING → t_sleep_until t' = 0)
    else view_of t' = view_of t.
Proof.
  apply (wake_all_releases queues0 5 (end_of script0) 2).
  - apply reach_end. vm_compute. reflexivity.
  - apply (bool_decide_unpack _). vm_compute. exact I.
Defined.

(** C36. A wake-up can be lost: there is a reachable state in which a task
    sleeps on a queue, and [wait_queue_wake_one] on that queue changes the state
    of no task, because it is spent on a task whose wait has already timed out. *)
Theorem wake_one_lost :
  ∃ x x' p t, reach queues0 5 x ∧ run_kop 5 (WakeOne 2) x = Done ((), x') ∧
    tasks (sy_sched x) !! p = Some t ∧ t_state t = TASK_SLEEPING ∧ t_wait_queue t = 2 ∧
    t_state <$> tasks (sy_sched x') = t_state <$> tasks (sy_sched x).
Proof.
  set (os := script0 ++ [Tick; Tick]).
  destruct (run_kop 5 (WakeOne 2) (end_of os)) as [[[] x']|] eqn:Ex; [|by vm_compute in Ex].
  destruct (tasks (sy_sched (end_of os)) !! 96) as [t|] eqn:Et; [|by vm_compute in Et].
  exists (end_of os), x', 96, t. split; [apply reach_end; vm_compute; reflexivity|].
  split; [exact Ex|]. split; [exact Et|].
  assert (t_state t = TASK_SLEEPING ∧ t_wait_queue t = 2) as [H1 H2]
    by (clear Ex; vm_compute in Et; by injection Et as <-).
  split; [exact H1|]. split; [exact H2|]. vm_compute in Ex. injection Ex as <-. vm_compute. reflexivity.
Qed.

(** [wait_queue_count] finishes in every reachable state and returns the
    number of tasks that wait on the queue. *)
Theorem wait_queue_count_ok (Qs : gset Z) (tramp : Z) (x : sys) (q : Z) :
  reach Qs tramp x → q ∈ Qs →
  ∃ l, NoDup l ∧ (∀ p t, tasks (sy_sched x) !! p = Some t → (p ∈ l ↔ t_wait_queue t = q)) ∧
    wait_queue_count q (sy_sched x) = Done (Z.of_nat (length l), sy_sched x).
Proof.
  intros Hx Hq. destruct (reach_ok _ _ _ Hx) as [a Hg]. destruct x as [s ks]. cbn in *.
  destruct (good_queue _ _ _ _ _ Hg Hq) as (l & Hl & Hq0). destruct Hg as [Hr Hi _ _ _].
  exists l. split; [by eapply in_nodup|]. split.
  { intros p t Ht. exact (inv_wl_iff _ _ _ _ _ _ _ Hi Hl (view_lookup _ _ _ _ Hr Ht)). }
  pose proof (queue_length _ _ _ _ Hr Hl) as Hlen.
  destruct (rep_wq _ _ Hr q l Hl) as (_ & w & Hw & Hs & _).
  unfold wait_queue_count. rewrite (proj2 (Z.eqb_neq q 0)) by done.
  rewrite (run_bind _ _ s w s) by (unfold rd_wq, get, mbind, prog_bind; by rewrite Hw).
  change (count_waiters (size (tasks s)) (wq_head w) 0 s = Done (Z.of_nat (length l), s)).
  rewrite (count_waiters_run _ _ _ _ l); [|done|done|..].
  - by rewrite Z.add_0_l.
  - lia.
  - pose proof (rq_bound _ _ (rep_rq _ _ Hr)). lia.
Qed.

Lemma wait_queue_count_ok_witness :
  ∃ l, NoDup l ∧
    (∀ p t, tasks (sy_sched (end_of script0)) !! p = Some t → (p ∈ l ↔ t_wait_queue t = 2)) ∧
    wait_queue_count 2 (sy_sched (end_of script0)) =
      Done (Z.of_nat (length l), sy_sched (end_of script0)).
Proof.
  apply (wait_queue_count_ok queues0 5 (end_of script0) 2).
  - apply reach_end. vm_compute. reflexivity.
  - apply (bool_decide_unpack _). vm_compute. exact I.
Defined.

(** ** Leaks *)







(** [sched_add_task] and [sched_remove_task] refine adding a task at the
    end of a list unless it is there, and taking it out of the list
    unless it is the current one: they finish and leave a well-formed ready queue, and everything outside the
    queue fields as it was. *)
Theorem runqueue_refines (s : sched) (rq : list Z) (p : Z) :
  rq_inv s rq → is_Some (tasks s !! p) → p ≠ 0 →
  (∃ s', sched_add_task p s = Done ((), s') ∧ frame erase_rq s s' ∧
    rq_inv s' (if bool_decide (p ∈ rq) then rq else rq ++ [p])) ∧
  (∃ s', sched_remove_task p s = Done ((), s') ∧ frame erase_rq s s' ∧
    rq_inv s' (if bool_decide (p = current_task s) then rq else filter (λ x, x ≠ p) rq)).
Proof.
  intros Hrq Hp Hp0. split.
  - assert (wp (sched_add_task p) (λ _ s', frame erase_rq s s' ∧ rq_inv s' (add_once p rq)) s) as H
      by (eapply wp_sched_add_task; [done..|by intros]).
    apply wp_run in H as ([] & s' & Hrun & Hf & Hq). by exists s'.
  - assert (wp (sched_remove_task p) (λ _ s', frame erase_rq s s' ∧
        rq_inv s' (if bool_decide (p = current_task s) then rq else without p rq)) s) as H
      by (eapply wp_sched_remove_task; [done..|by intros]).
    apply wp_run in H as ([] & s' & Hrun & Hf & Hq). by exists s'.
Qed.

Lemma runqueue_refines_witness :
  let s := sy_sched (end_of script0) in
  ∃ rq, rq_inv s rq ∧
  (∃ s', sched_add_task 64 s = Done ((), s') ∧ frame erase_rq s s' ∧
    rq_inv s' (if bool_decide (64 ∈ rq) then rq else rq ++ [64])) ∧
  (∃ s', sched_remove_task 64 s = Done ((), s') ∧ frame erase_rq s s' ∧
    rq_inv s' (if bool_decide (64 = current_task s) then rq else filter (λ x, x ≠ 64) rq)).
Proof.
  intros s. assert (reach queues0 5 (end_of script0)) as Hx by (apply reach_end; vm_compute; reflexivity).
  destruct (reach_ok _ _ _ Hx) as [a [Hr _ _ _ _]]. exists (a_rq a). split; [apply Hr|].
  apply (runqueue_refines s (a_rq a) 64); [apply Hr| |done].
  apply (bool_decide_unpack _). vm_compute. exact I.
Defined.
