(* ===== verification/Heap.v ===== *)
(** * The kernel heap: heap.c

    Small blocks come from slabs, one page each, whose free chunks form a list
    through their first words; large blocks are mapped page by page.  The
    memory of the heap is a map from 8-byte aligned addresses to words; an
    access outside it is undefined.  The 16-bit fields of the headers are parts
    of a word.  Frames and page tables are reached through the class
    [PageOps]. *)

From S2P Require Import Prelude.

Definition HEAP_START : Z := 0xffffffffa0000000.
Definition HEAP_SIZE : Z := 0x10000000.
Definition PAGE : Z := 4096.
Definition BIN_COUNT : Z := 8.
Definition bin_sizes : list Z := [16; 32; 64; 128; 256; 512; 1024; 2048].

Definition MAGIC_ALLOC : Z := 0xA110.
Definition MAGIC_DIRECT : Z := 0xD1EC.
Definition MAGIC_FREE : Z := 0xDDDD.
Definition MAGIC_ALIGNED : Z := 0xA116.

(** [sizeof(struct slab_header)] and [sizeof(struct alloc_header)]. *)
Definition slab_header_size : Z := 24.
Definition alloc_header_size : Z := 24.

(** The 16-bit field of a word that starts at bit [off]. *)
Definition field16 (off w : Z) : Z := (w >>! off) &! 0xFFFF.
Definition put16 (off v w : Z) : Z := w - Z.shiftl (field16 off w) off + Z.shiftl (u16 v) off.

(** What the heap asks of the frame allocator and of the kernel's page tables.
    0 stands for no frame. *)
Class PageOps (P : Type) := {
  po_alloc_page : prog P Z;
  po_alloc_contiguous : Z → prog P Z;
  po_free_page : Z → prog P unit;
  po_free_contiguous : Z → Z → prog P unit;
  po_map : Z → Z → prog P bool;
  po_unmap : Z → prog P unit;
  po_translate : Z → prog P (option Z);
  po_word : P → Z → Z;  (** the word at a physical address *)
}.

Record heap_stats := HeapStats {
  allocations : Z;
  frees : Z;
  total_allocated_bytes : Z;
  total_freed_bytes : Z;
  slab_pages : Z;
  direct_pages : Z;
}.

Record heap (P : Type) := Heap {
  bins : list Z;
  stats : heap_stats;
  heap_next : Z;
  heap_end : Z;
  heap_ready : bool;
  words : gmap Z Z;
  if_flag : bool;
  pages : P;
}.
Arguments Heap {_}.
Arguments bins {_}.
Arguments stats {_}.
Arguments heap_next {_}.
Arguments heap_end {_}.
Arguments heap_ready {_}.
Arguments words {_}.
Arguments if_flag {_}.
Arguments pages {_}.

Definition set_bins {P} (v : list Z) (h : heap P) : heap P :=
  Heap v (stats h) (heap_next h) (heap_end h) (heap_ready h) (words h) (if_flag h) (pages h).
Definition set_stats {P} (v : heap_stats) (h : heap P) : heap P :=
  Heap (bins h) v (heap_next h) (heap_end h) (heap_ready h) (words h) (if_flag h) (pages h).
Definition set_heap_next {P} (v : Z) (h : heap P) : heap P :=
  Heap (bins h) (stats h) v (heap_end h) (heap_ready h) (words h) (if_flag h) (pages h).
Definition set_words {P} (v : gmap Z Z) (h : heap P) : heap P :=
  Heap (bins h) (stats h) (heap_next h) (heap_end h) (heap_ready h) v (if_flag h) (pages h).
Definition set_if_flag {P} (v : bool) (h : heap P) : heap P :=
  Heap (bins h) (stats h) (heap_next h) (heap_end h) (heap_ready h) (words h) v (pages h).
Definition set_pages {P} (v : P) (h : heap P) : heap P :=
  Heap (bins h) (stats h) (heap_next h) (heap_end h) (heap_ready h) (words h) (if_flag h) v.

Definition count_alloc (size : Z) (st : heap_stats) : heap_stats :=
  HeapStats (allocations st +! 1) (frees st) (total_allocated_bytes st +! size)
    (total_freed_bytes st) (slab_pages st) (direct_pages st).
Definition count_free (size : Z) (st : heap_stats) : heap_stats :=
  HeapStats (allocations st) (frees st +! 1) (total_allocated_bytes st)
    (total_freed_bytes st +! size) (slab_pages st) (direct_pages st).
Definition add_slab_page (st : heap_stats) : heap_stats :=
  HeapStats (allocations st) (frees st) (total_allocated_bytes st)
    (total_freed_bytes st) (slab_pages st +! 1) (direct_pages st).
Definition add_direct (n : Z) (st : heap_stats) : heap_stats :=
  HeapStats (allocations st) (frees st) (total_allocated_bytes st)
    (total_freed_bytes st) (slab_pages st) (direct_pages st +! n).
Definition sub_direct (n : Z) (st : heap_stats) : heap_stats :=
  HeapStats (allocations st) (frees st) (total_allocated_bytes st)
    (total_freed_bytes st) (slab_pages st) (direct_pages st -! n).

Definition align_up (value alignment : Z) : Z :=
  (value +! alignment -! 1) &! ~! (alignment -! 1).
Definition is_power_of_two (value : Z) : bool :=
  negb (value =? 0) && (value &! (value -! 1) =? 0).

(** The first bin whose chunks are large enough, or -1. *)
Fixpoint first_bin (total i : Z) (sizes : list Z) : Z :=
  match sizes with
  | [] => -1
  | s :: sizes => if total <=? s then i else first_bin total (i + 1) sizes
  end.
Definition bin_for_size (size : Z) : Z := first_bin (size +! alloc_header_size) 0 bin_sizes.

(** The words of a page. *)
Definition page_words (virt : Z) (f : Z → Z) : gmap Z Z :=
  list_to_map ((λ i, (virt + 8 * Z.of_nat i, f (8 * Z.of_nat i))) <$> seq 0 512).
Definition drop_page (virt : Z) (m : gmap Z Z) : gmap Z Z :=
  filter (λ e, ¬ (virt ≤ e.1 < virt + PAGE)) m.

Section heap.
Context {P : Type} `{PageOps P}.
Abbreviation HM := (prog (heap P)).

Definition in_pages {A} (m : prog P A) : HM A := zoom pages (λ p h, set_pages p h) m.

Definition rd64 (a : Z) : HM Z := h ← get; deref (words h !! a).
Definition wr64 (a v : Z) : HM unit :=
  rd64 a;; modify (λ h, set_words (<[a := v]> (words h)) h).
Definition on_stats (f : heap_stats → heap_stats) : HM unit :=
  modify (λ h, set_stats (f (stats h)) h).

(** Map one frame; its contents appear at [virt]. *)
Definition map_at (virt phys : Z) : HM bool :=
  ok ← in_pages (po_map virt phys);
  when ok (modify (λ h, set_words
    (page_words virt (λ o, po_word (pages h) (phys + o)) ∪ words h) h));;
  mret ok.
Definition unmap_at (virt : Z) : HM unit :=
  in_pages (po_unmap virt);; modify (λ h, set_words (drop_page virt (words h)) h).

Definition heap_map_page : HM Z :=
  h ← get;
  if heap_end h <=? heap_next h then mret 0 else
  phys ← in_pages po_alloc_page;
  if phys =? 0 then mret 0 else
  let virt := heap_next h in
  modify (set_heap_next (virt +! PAGE));;
  ok ← map_at virt phys;
  if (ok : bool) then mret virt else
  in_pages (po_free_page phys);;
  modify (λ h, set_heap_next (heap_next h -! PAGE) h);;
  mret 0.

(** The loop of [slab_create] over the chunks of a page. *)
Fixpoint fill_chunks (fuel : nat) (slab chunk available chunk_size count : Z) : HM Z :=
  if available <? chunk_size then mret count else
  match fuel with
  | O => spin
  | S fuel =>
      l ← rd64 (slab + 16);
      wr64 chunk l;;
      wr64 (slab + 16) chunk;;
      fill_chunks fuel slab (chunk + chunk_size) (available - chunk_size) chunk_size
        (u16 (count + 1))
  end.

Definition slab_create (bin_index : Z) : HM Z :=
  page ← heap_map_page;
  if page =? 0 then mret 0 else
  wr64 page 0;;
  w ← rd64 (page + 8);
  wr64 (page + 8) (put16 0 bin_index w);;
  wr64 (page + 16) 0;;
  w ← rd64 (page + 8);
  wr64 (page + 8) (put16 32 0 w);;
  chunk_size ← deref (bin_sizes !! Z.to_nat bin_index);
  let available := PAGE - slab_header_size in
  count ← fill_chunks (Z.to_nat available) page (page + slab_header_size) available chunk_size 0;
  w ← rd64 (page + 8);
  wr64 (page + 8) (put16 32 count (put16 16 count w));;
  on_stats add_slab_page;;
  mret page.

(** [new->next = bins[i]; bins[i] = new] *)
Definition push_slab (bin_index slab : Z) : HM unit :=
  h ← get;
  head ← deref (bins h !! Z.to_nat bin_index);
  wr64 slab head;;
  modify (λ h, set_bins (<[Z.to_nat bin_index := slab]> (bins h)) h).

(** Take the first chunk of the slab's free list. *)
Definition pop_chunk (slab : Z) : HM Z :=
  chunk ← rd64 (slab + 16);
  next ← rd64 chunk;
  wr64 (slab + 16) next;;
  w ← rd64 (slab + 8);
  wr64 (slab + 8) (put16 32 (field16 32 w - 1) w);;
  mret chunk.

Definition slab_alloc (bin_index : Z) : HM Z :=
  h ← get;
  head ← deref (bins h !! Z.to_nat bin_index);
  ok ← (if head =? 0 then
          slab ← slab_create bin_index;
          if slab =? 0 then mret false else push_slab bin_index slab;; mret true
        else mret true);
  if negb ok then mret 0 else
  h ← get;
  slab ← deref (bins h !! Z.to_nat bin_index);
  w ← rd64 (slab + 8);
  if field16 32 w =? 0 then
    new_slab ← slab_create bin_index;
    if new_slab =? 0 then mret 0 else
    push_slab bin_index new_slab;; pop_chunk new_slab
  else pop_chunk slab.

Definition heap_init (space : bool) : HM unit :=
  if negb space then panic "Heap: VMM not initialized" else
  modify (λ h, Heap (replicate 8 0) (HeapStats 0 0 0 0 0 0) HEAP_START (HEAP_START + HEAP_SIZE)
    true (words h) (if_flag h) (pages h)).

(** The four stores that fill an [alloc_header]. *)
Definition write_header (a bin_index magic requested_size base : Z) : HM unit :=
  wr64 a (u16 bin_index + Z.shiftl magic 16);;
  wr64 (a + 8) requested_size;;
  wr64 (a + 16) base.

(** The mapping loop of a direct allocation: [false] after undoing it. *)
Fixpoint map_direct (n : nat) (i phys pages virt_base : Z) : HM bool :=
  match n with
  | O => mret true
  | S n =>
      h ← get;
      let virt := heap_next h in
      modify (set_heap_next (virt +! PAGE));;
      ok ← map_at virt (phys + i * PAGE);
      if (ok : bool) then map_direct n (i + 1) phys pages virt_base else
      for_each (seqZ 0 i) (λ j, unmap_at (virt_base + j * PAGE));;
      in_pages (po_free_contiguous phys pages);;
      modify (set_heap_next virt_base);;
      mret false
  end.

Definition direct_alloc (size : Z) : HM Z :=
  let pages := align_up (size +! alloc_header_size) PAGE / PAGE in
  phys ← in_pages (po_alloc_contiguous pages);
  if phys =? 0 then mret 0 else
  virt_base ← gets heap_next;
  ok ← map_direct (Z.to_nat pages) 0 phys pages virt_base;
  if negb ok then mret 0 else
  write_header virt_base pages MAGIC_DIRECT size 0;;
  on_stats (λ st, add_direct pages (count_alloc size st));;
  mret (virt_base + alloc_header_size).

Definition kmalloc_unlocked (size : Z) : HM Z :=
  if size =? 0 then mret 0 else
  let bin := bin_for_size size in
  if 0 <=? bin then
    chunk ← slab_alloc bin;
    if chunk =? 0 then mret 0 else
    write_header chunk bin MAGIC_ALLOC size 0;;
    on_stats (count_alloc size);;
    mret (chunk + alloc_header_size)
  else direct_alloc size.

Definition save_if : HM bool := b ← gets if_flag; modify (set_if_flag false);; mret b.
Definition restore_if (b : bool) : HM unit := modify (set_if_flag b).

Definition kmalloc (size : Z) : HM Z :=
  flags ← save_if; ptr ← kmalloc_unlocked size; restore_if flags;; mret ptr.

(** The first [n] bytes of a word come from [src], the others from [dst]. *)
Definition low_bytes (n src dst : Z) : Z := src `mod` 2 ^ (8 * n) + (dst - dst `mod` 2 ^ (8 * n)).

(** [memcpy] and [memset(p, 0, n)] between 8-byte aligned addresses. *)
Definition copy_bytes (dst n : Z) (src : Z → HM Z) : HM unit :=
  for_each (seqZ 0 (n / 8)) (λ i, v ← src (8 * i); wr64 (dst + 8 * i) v);;
  when (negb (n `mod` 8 =? 0))
    (let o := n - n `mod` 8 in
     v ← src o; old ← rd64 (dst + o); wr64 (dst + o) (low_bytes (n `mod` 8) v old)).
Definition memset_zero (p n : Z) : HM unit := copy_bytes p n (λ _, mret 0).
Definition memcpy (dst src n : Z) : HM unit := copy_bytes dst n (λ o, rd64 (src + o)).

Definition kzalloc (size : Z) : HM Z :=
  ptr ← kmalloc size;
  when (negb (ptr =? 0)) (memset_zero ptr size);;
  mret ptr.

(** ** Freeing *)

(** The slab of the bin whose page holds [raw], 0 if there is none. *)
Fixpoint find_slab (fuel : nat) (slab raw : Z) : HM Z :=
  if slab =? 0 then mret 0 else
  match fuel with
  | O => spin
  | S fuel =>
      if (slab <=? raw) && (raw <? slab + PAGE) then mret slab else
      next ← rd64 slab; find_slab fuel next raw
  end.

(** The chunk goes to the front of the free list: its first word, which held
    the magic number, becomes the link. *)
Definition push_chunk (slab raw : Z) : HM unit :=
  w ← rd64 raw;
  wr64 raw (put16 16 MAGIC_FREE w);;
  l ← rd64 (slab + 16);
  wr64 raw l;;
  wr64 (slab + 16) raw;;
  w ← rd64 (slab + 8);
  wr64 (slab + 8) (put16 32 (field16 32 w + 1) w).

Definition free_slab (raw w : Z) : HM unit :=
  let bin := field16 0 w in
  if BIN_COUNT <=? bin then panic "Heap: corrupted alloc header" else
  h ← get;
  head ← deref (bins h !! Z.to_nat bin);
  slab ← find_slab (size (words h)) head raw;
  if slab =? 0 then panic "Heap: free of untracked slab pointer" else
  push_chunk slab raw;;
  size ← rd64 (raw + 8);
  on_stats (count_free size).

Definition free_direct (raw w : Z) : HM unit :=
  let pages := field16 0 w in
  requested_size ← rd64 (raw + 8);
  let page_base := raw &! ~! (PAGE - 1) in
  for_each (seqZ 0 pages) (λ i,
    phys ← in_pages (po_translate (page_base + i * PAGE));
    match phys with
    | None => panic "Heap: direct free translation failed"
    | Some phys => unmap_at (page_base + i * PAGE);; in_pages (po_free_page phys)
    end);;
  on_stats (λ st, sub_direct pages (count_free requested_size st)).

Fixpoint kfree_unlocked (fuel : nat) (ptr : Z) : HM unit :=
  if ptr =? 0 then mret () else
  let raw := ptr -! alloc_header_size in
  w ← rd64 raw;
  let magic := field16 16 w in
  if magic =? MAGIC_FREE then panic "Heap: double free" else
  if magic =? MAGIC_ALIGNED then
    base ← rd64 (raw + 16);
    wr64 raw (put16 16 MAGIC_FREE w);;
    match fuel with O => spin | S fuel => kfree_unlocked fuel base end
  else if magic =? MAGIC_ALLOC then free_slab raw w
  else if magic =? MAGIC_DIRECT then free_direct raw w
  else panic "Heap: invalid magic".

(** Each aligned header on the way is marked free before the recursion, so the
    recursion is at most as deep as there are words. *)
Definition free_fuel : HM nat := gets (λ h, size (words h)).

Definition kfree (ptr : Z) : HM unit :=
  flags ← save_if; fuel ← free_fuel; kfree_unlocked fuel ptr;; restore_if flags.

(** ** Growing and alignment *)

Definition usable (bin : Z) : HM Z :=
  sz ← deref (bin_sizes !! Z.to_nat bin); mret (sz -! alloc_header_size).

Definition krealloc_unlocked (ptr new_size : Z) : HM Z :=
  if ptr =? 0 then kmalloc_unlocked new_size else
  fuel ← free_fuel;
  if new_size =? 0 then kfree_unlocked fuel ptr;; mret 0 else
  let raw := ptr -! alloc_header_size in
  w ← rd64 raw;
  let magic := field16 16 w in
  let bin := field16 0 w in
  fits ← (if magic =? MAGIC_DIRECT then mret (new_size <=? bin * PAGE -! alloc_header_size)
          else if magic =? MAGIC_ALLOC then u ← usable bin; mret (new_size <=? u)
          else mret false);
  if (fits : bool) then wr64 (raw + 8) new_size;; mret ptr else
  new_ptr ← kmalloc_unlocked new_size;
  if new_ptr =? 0 then mret 0 else
  w ← rd64 raw;
  copy_size ← (if field16 16 w =? MAGIC_DIRECT
               then mret (field16 0 w * PAGE -! alloc_header_size)
               else usable (field16 0 w));
  let copy_size := if new_size <? copy_size then new_size else copy_size in
  memcpy new_ptr ptr copy_size;;
  fuel ← free_fuel;
  kfree_unlocked fuel ptr;;
  mret new_ptr.

Definition krealloc (ptr new_size : Z) : HM Z :=
  flags ← save_if; p ← krealloc_unlocked ptr new_size; restore_if flags;; mret p.

(** [aligned] is moved up until the header fits below it: at most three steps,
    as the alignment is at least 8. *)
Fixpoint past_header (fuel : nat) (aligned raw alignment : Z) : HM Z :=
  if alloc_header_size <=? aligned -! raw then mret aligned else
  match fuel with
  | O => spin
  | S fuel => past_header fuel (aligned +! alignment) raw alignment
  end.

Definition kmalloc_aligned (size alignment : Z) : HM Z :=
  let alignment := if alignment <? 8 then 8 else alignment in
  if negb (is_power_of_two alignment) then mret 0 else
  raw ← kmalloc (size +! alignment +! alloc_header_size);
  if raw =? 0 then mret 0 else
  aligned ← past_header 3 (align_up raw alignment) raw alignment;
  write_header (aligned - alloc_header_size) 0 MAGIC_ALIGNED size raw;;
  mret aligned.

Definition heap_get_stats : HM heap_stats := gets stats.
End heap.
