(* ===== verification/HeapSpec.v ===== *)
(** * What the heap promises

    The abstract heap: the slabs of every bin, the free chunks of every slab
    and the blocks in use.  [heap_inv] relates it to the words of memory; the
    lemmas show that each operation of heap.c keeps the relation. *)

From S2P Require Import Prelude Bits Links Heap.

(** ** Fields of a word *)

Lemma field16_div off w : 0 ≤ off → field16 off w = (w `div` 2 ^ off) `mod` 2 ^ 16.
Proof.
  intros Ho. unfold field16. rewrite Z.shiftr_div_pow2 by done.
  change 0xFFFF with (Z.ones 16). by rewrite Z.land_ones.
Qed.

Lemma field16_put off v w : 0 ≤ off → field16 off (put16 off v w) = u16 v.
Proof.
  intros Ho. unfold put16. rewrite !Z.shiftl_mul_pow2 by done. rewrite !field16_div by done.
  set (f := (w `div` 2 ^ off) `mod` 2 ^ 16).
  replace (w - f * 2 ^ off + u16 v * 2 ^ off) with (w + (u16 v - f) * 2 ^ off) by lia.
  rewrite Z.div_add by lia. unfold f, u16.
  rewrite Z.add_mod, Zminus_mod_idemp_l, Zminus_mod_idemp_r by lia.
  rewrite <-Z.add_mod by lia. f_equal. lia.
Qed.

Lemma field16_bin bin magic : 0 ≤ bin < 2 ^ 16 → 0 ≤ magic < 2 ^ 16 →
  field16 0 (u16 bin + Z.shiftl magic 16) = bin ∧ field16 16 (u16 bin + Z.shiftl magic 16) = magic.
Proof.
  intros Hb Hm. rewrite !field16_div, Z.shiftl_mul_pow2 by lia. unfold u16.
  rewrite (Z.mod_small bin) by lia. split.
  - rewrite Z.div_1_r, Z.mod_add, Z.mod_small by lia. done.
  - rewrite Z.div_add, Z.div_small, Z.add_0_l, Z.mod_small by lia. done.
Qed.

(** ** Geometry *)

Definition bsize (i : nat) : Z := default 0 (bin_sizes !! i).
Definition chunk_count (i : nat) : Z := (PAGE - slab_header_size) / bsize i.

(** [c] is a chunk of the slab of bin [i] at [p]. *)
Definition chunk_at (p : Z) (i : nat) (c : Z) : Prop :=
  ∃ k, 0 ≤ k < chunk_count i ∧ c = p + slab_header_size + k * bsize i.

Definition real_bin (i : nat) : Prop := (1 ≤ i ≤ 7)%nat.

Lemma bsize_real i : real_bin i → 32 ≤ bsize i ≤ 2048 ∧ bsize i `mod` 8 = 0 ∧
  bin_sizes !! i = Some (bsize i).
Proof.
  intros [H1 H2]. do 8 (destruct i as [|i]; [try lia; by vm_compute|]). lia.
Qed.

Lemma chunk_in_page p i c : real_bin i → chunk_at p i c →
  p + 24 ≤ c ∧ c + bsize i ≤ p + PAGE ∧ (p `mod` 8 = 0 → c `mod` 8 = 0).
Proof.
  intros Hi (k & Hk & ->). destruct (bsize_real i Hi) as (Hb & Hm & _).
  unfold chunk_count, slab_header_size, PAGE in *.
  assert ((k + 1) * bsize i ≤ 4072) as Hle.
  { transitivity ((4096 - 24) / bsize i * bsize i); [nia|].
    pose proof (Z.mul_div_le (4096 - 24) (bsize i)). lia. }
  split; [nia|]. split; [lia|]. intros Hp.
  rewrite Z.add_mod, Z.mul_mod, Hm, Z.mul_0_r by lia.
  rewrite (Z.add_mod p 24), Hp by lia. done.
Qed.

Lemma chunk_sep p i c c' : real_bin i → chunk_at p i c → chunk_at p i c' → c ≠ c' →
  c + bsize i ≤ c' ∨ c' + bsize i ≤ c.
Proof.
  intros Hi (k & Hk & ->) (k' & Hk' & ->) Hne. destruct (bsize_real i Hi) as (Hb & _).
  destruct (decide (k < k')); [left; nia|right]. assert (k ≠ k') by congruence. nia.
Qed.

(** ** The invariant *)

Inductive block :=
| BSlab (bin : nat) (slab size : Z)
| BDirect (npages size : Z).

Definition block_len (b : block) : Z :=
  match b with BSlab i _ _ => bsize i | BDirect n _ => n * PAGE end.
Definition block_size (b : block) : Z :=
  match b with BSlab _ _ sz | BDirect _ sz => sz end.

(** [ah_live] is indexed by the address of the block's header; [ah_data] holds
    the words the owners of the blocks have stored. *)
Record aheap := AHeap {
  ah_slabs : list (list Z);
  ah_free : gmap Z (list Z);
  ah_live : gmap Z block;
  ah_data : gmap Z Z;
}.

(** The data that remains when the memory from [lo] to [lo + len] is given up. *)
Definition forget (lo len : Z) (d : gmap Z Z) : gmap Z Z :=
  filter (λ e, ¬ (lo ≤ e.1 < lo + len)) d.

Lemma forget_Some lo len d a v :
  forget lo len d !! a = Some v ↔ d !! a = Some v ∧ ¬ (lo ≤ a < lo + len).
Proof. unfold forget. by rewrite map_lookup_filter_Some. Qed.

Record slab_ok (m : gmap Z Z) (i : nat) (p : Z) (fl : list Z) : Prop := {
  sk_mapped : ∀ k, 0 ≤ k < 512 → is_Some (m !! (p + 8 * k));
  sk_count : ∃ w, m !! (p + 8) = Some w ∧ field16 32 w = Z.of_nat (length fl);
  sk_free : ∃ f, m !! (p + 16) = Some f ∧ seg id m f fl 0;
  sk_grid : ∀ c, c ∈ fl → chunk_at p i c;
}.

Definition live_ok (m : gmap Z Z) (c : Z) (b : block) : Prop :=
  (∃ w, m !! c = Some w ∧ m !! (c + 8) = Some (block_size b) ∧
    match b with
    | BSlab i _ _ => field16 0 w = Z.of_nat i ∧ field16 16 w = MAGIC_ALLOC
    | BDirect n _ => field16 0 w = n ∧ field16 16 w = MAGIC_DIRECT
    end) ∧
  (∀ k, 0 ≤ k → 8 * k < block_len b → is_Some (m !! (c + 8 * k))) ∧
  0 < block_size b ≤ block_len b - alloc_header_size.

Definition in_heap (next lo len : Z) : Prop :=
  lo `mod` PAGE = 0 ∧ HEAP_START ≤ lo ∧ lo + len ≤ next.

Record heap_inv (bs : list Z) (next : Z) (m : gmap Z Z) (A : aheap) : Prop := {
  hi_len : length bs = 8%nat ∧ length (ah_slabs A) = 8%nat;
  hi_bins : ∀ i ps b, ah_slabs A !! i = Some ps → bs !! i = Some b → seg id m b ps 0;
  hi_slab : ∀ i ps p, ah_slabs A !! i = Some ps → p ∈ ps →
    real_bin i ∧ in_heap next p PAGE ∧ ∃ fl, ah_free A !! p = Some fl ∧ slab_ok m i p fl;
  hi_one_bin : ∀ i j ps qs p, ah_slabs A !! i = Some ps → ah_slabs A !! j = Some qs →
    p ∈ ps → p ∈ qs → i = j;
  hi_live : ∀ c b, ah_live A !! c = Some b → live_ok m c b;
  hi_live_slab : ∀ c i p sz, ah_live A !! c = Some (BSlab i p sz) →
    ∃ ps, ah_slabs A !! i = Some ps ∧ p ∈ ps ∧ chunk_at p i c ∧
      ∀ fl, ah_free A !! p = Some fl → c ∉ fl;
  hi_live_direct : ∀ c n sz, ah_live A !! c = Some (BDirect n sz) →
    in_heap next c (n * PAGE) ∧ 0 < n < 2 ^ 16 ∧
    (∀ i ps p, ah_slabs A !! i = Some ps → p ∈ ps → p + PAGE ≤ c ∨ c + n * PAGE ≤ p) ∧
    (∀ c' n' sz', ah_live A !! c' = Some (BDirect n' sz') → c' ≠ c →
      c' + n' * PAGE ≤ c ∨ c + n * PAGE ≤ c');
  hi_next : next `mod` PAGE = 0 ∧ HEAP_START ≤ next < 2 ^ 64;
  hi_data : ∀ a v, ah_data A !! a = Some v → m !! a = Some v ∧
    ∃ c b, ah_live A !! c = Some b ∧ c + alloc_header_size ≤ a < c + block_len b;
}.

(** ** Regions

    The headers of the slabs, their chunks and the direct blocks do not
    overlap. *)

Inductive region (A : aheap) : Z → Z → Prop :=
| reg_header i ps p : ah_slabs A !! i = Some ps → p ∈ ps → region A p slab_header_size
| reg_chunk i ps p c : ah_slabs A !! i = Some ps → p ∈ ps → chunk_at p i c →
    region A c (bsize i)
| reg_direct c n sz : ah_live A !! c = Some (BDirect n sz) → region A c (n * PAGE).

Lemma pages_apart p q : p `mod` PAGE = 0 → q `mod` PAGE = 0 → p ≠ q → p + PAGE ≤ q ∨ q + PAGE ≤ p.
Proof.
  unfold PAGE. intros Hp Hq Hne. pose proof (Z.div_mod p 4096). pose proof (Z.div_mod q 4096). lia.
Qed.

Section inv.
Context {bs : list Z} {next : Z} {m : gmap Z Z} {A : aheap}.
Hypothesis Hinv : heap_inv bs next m A.

(** The part of a slab that holds a region of its page. *)
Definition part (p : Z) (i : nat) (a len : Z) : Prop :=
  a = p ∧ len = slab_header_size ∨ chunk_at p i a ∧ len = bsize i.

Lemma part_in_page p i a len : real_bin i → part p i a len → p ≤ a ∧ a + len ≤ p + PAGE ∧ 0 < len.
Proof.
  intros Hi [[-> ->]|[Hc ->]]; [unfold slab_header_size, PAGE; lia|].
  destruct (chunk_in_page _ _ _ Hi Hc) as (? & ? & _). pose proof (bsize_real i Hi). lia.
Qed.

Lemma part_sep p i a la b lb : real_bin i → part p i a la → part p i b lb → a ≠ b →
  a + la ≤ b ∨ b + lb ≤ a.
Proof.
  intros Hi [[-> ->]|[Ha ->]] [[-> ->]|[Hb ->]] Hne; [done|..].
  - left. apply (chunk_in_page _ _ _ Hi) in Hb. unfold slab_header_size. lia.
  - right. apply (chunk_in_page _ _ _ Hi) in Ha. unfold slab_header_size. lia.
  - by eapply chunk_sep.
Qed.

Lemma region_cases a len : region A a len →
  (∃ i ps p, ah_slabs A !! i = Some ps ∧ p ∈ ps ∧ part p i a len) ∨
  (∃ n sz, ah_live A !! a = Some (BDirect n sz) ∧ len = n * PAGE).
Proof.
  intros [i ps p Hi Hp|i ps p c Hi Hp Hc|c n sz Hl].
  - left. exists i, ps, p. split; [done|]. split; [done|]. by left.
  - left. exists i, ps, p. split; [done|]. split; [done|]. by right.
  - right. by exists n, sz.
Qed.

Lemma regions_disjoint a la b lb :
  region A a la → region A b lb → a ≠ b → a + la ≤ b ∨ b + lb ≤ a.
Proof.
  intros [(i & ps & p & Hi & Hp & Ha)|(n & sz & Hl & ->)]%region_cases
    [(j & qs & q & Hj & Hq & Hb)|(n' & sz' & Hl' & ->)]%region_cases Hne.
  - destruct (hi_slab _ _ _ _ Hinv _ _ _ Hi Hp) as (Ri & (Mp & _ & _) & _).
    destruct (hi_slab _ _ _ _ Hinv _ _ _ Hj Hq) as (Rj & (Mq & _ & _) & _).
    destruct (decide (p = q)) as [->|Hpq].
    + assert (i = j) as -> by exact (hi_one_bin _ _ _ _ Hinv _ _ _ _ _ Hi Hj Hp Hq).
      by eapply part_sep.
    + pose proof (part_in_page _ _ _ _ Ri Ha). pose proof (part_in_page _ _ _ _ Rj Hb).
      pose proof (pages_apart p q Mp Mq Hpq). lia.
  - destruct (hi_slab _ _ _ _ Hinv _ _ _ Hi Hp) as (Ri & _).
    destruct (hi_live_direct _ _ _ _ Hinv _ _ _ Hl') as (_ & _ & Hs & _).
    pose proof (part_in_page _ _ _ _ Ri Ha). specialize (Hs _ _ _ Hi Hp). lia.
  - destruct (hi_slab _ _ _ _ Hinv _ _ _ Hj Hq) as (Rj & _).
    destruct (hi_live_direct _ _ _ _ Hinv _ _ _ Hl) as (_ & _ & Hs & _).
    pose proof (part_in_page _ _ _ _ Rj Hb). specialize (Hs _ _ _ Hj Hq). lia.
  - destruct (hi_live_direct _ _ _ _ Hinv _ _ _ Hl) as (_ & _ & _ & Hd).
    destruct (Hd _ _ _ Hl' (not_eq_sym Hne)); lia.
Qed.

Lemma live_region c b : ah_live A !! c = Some b → region A c (block_len b).
Proof.
  intros Hl. destruct b as [i p sz|n sz]; [|by eapply reg_direct].
  destruct (hi_live_slab _ _ _ _ Hinv _ _ _ _ Hl) as (ps & Hi & Hp & Hc & _).
  by eapply reg_chunk.
Qed.

Lemma region_in_heap a len : region A a len → HEAP_START ≤ a ∧ a + len ≤ next ∧ 24 ≤ len.
Proof.
  intros [(i & ps & p & Hi & Hp & Ha)|(n & sz & Hl & ->)]%region_cases.
  - destruct (hi_slab _ _ _ _ Hinv _ _ _ Hi Hp) as (Ri & (_ & Hlo & Hhi) & _).
    pose proof (part_in_page _ _ _ _ Ri Ha) as (H1 & H2 & H3). split; [lia|]. split; [lia|].
    destruct Ha as [[_ ->]|[_ ->]]; [done|]. pose proof (bsize_real i Ri). lia.
  - destruct (hi_live_direct _ _ _ _ Hinv _ _ _ Hl) as ((_ & ? & ?) & ? & _). unfold PAGE in *. lia.
Qed.

(** A slab header is not a chunk and not a live block. *)
Lemma header_not_chunk i ps p j qs q c :
  ah_slabs A !! i = Some ps → p ∈ ps → ah_slabs A !! j = Some qs → q ∈ qs → chunk_at q j c → c ≠ p.
Proof.
  intros Hi Hp Hj Hq Hc ->.
  destruct (hi_slab _ _ _ _ Hinv _ _ _ Hi Hp) as (Ri & (Mp & _ & _) & _).
  destruct (hi_slab _ _ _ _ Hinv _ _ _ Hj Hq) as (Rj & (Mq & _ & _) & _).
  destruct (chunk_in_page _ _ _ Rj Hc) as (? & ? & _). pose proof (bsize_real j Rj).
  destruct (decide (p = q)) as [->|Hpq]; [lia|]. pose proof (pages_apart p q Mp Mq Hpq). lia.
Qed.

Lemma header_not_live i ps p b :
  ah_slabs A !! i = Some ps → p ∈ ps → ah_live A !! p = Some b → False.
Proof.
  intros Hi Hp Hl. destruct b as [j q sz|n sz].
  - destruct (hi_live_slab _ _ _ _ Hinv _ _ _ _ Hl) as (qs & Hj & Hq & Hc & _).
    by eapply (header_not_chunk i ps p j qs q p).
  - destruct (hi_live_direct _ _ _ _ Hinv _ _ _ Hl) as (_ & ? & Hs & _).
    specialize (Hs _ _ _ Hi Hp). unfold PAGE in *. lia.
Qed.

(** A block that starts at a chunk is a block of that slab. *)
Lemma live_chunk i ps p c b :
  ah_slabs A !! i = Some ps → p ∈ ps → chunk_at p i c → ah_live A !! c = Some b →
  ∃ sz, b = BSlab i p sz.
Proof.
  intros Hi Hp Hc Hl. destruct (hi_slab _ _ _ _ Hinv _ _ _ Hi Hp) as (Ri & (Mp & _ & _) & _).
  destruct (chunk_in_page _ _ _ Ri Hc) as (? & ? & _). pose proof (bsize_real i Ri).
  destruct b as [j q sz|n sz].
  - destruct (hi_live_slab _ _ _ _ Hinv _ _ _ _ Hl) as (qs & Hj & Hq & Hc' & _).
    destruct (hi_slab _ _ _ _ Hinv _ _ _ Hj Hq) as (Rj & (Mq & _ & _) & _).
    destruct (chunk_in_page _ _ _ Rj Hc') as (? & ? & _). pose proof (bsize_real j Rj).
    destruct (decide (p = q)) as [->|Hpq]; [|pose proof (pages_apart p q Mp Mq Hpq); lia].
    exists sz. f_equal. exact (hi_one_bin _ _ _ _ Hinv _ _ _ _ _ Hj Hi Hq Hp).
  - destruct (hi_live_direct _ _ _ _ Hinv _ _ _ Hl) as (_ & ? & Hs & _).
    specialize (Hs _ _ _ Hi Hp). unfold PAGE in *. lia.
Qed.

(** A chunk that is not in use holds no data. *)
Lemma data_not_in_chunk i ps p c a v :
  ah_slabs A !! i = Some ps → p ∈ ps → chunk_at p i c → ah_live A !! c = None →
  ah_data A !! a = Some v → ¬ (c ≤ a < c + bsize i).
Proof.
  intros Hi Hp Hc Hl Ha. destruct (hi_data _ _ _ _ Hinv a v Ha) as (_ & c' & b & Hl' & Hr).
  assert (c' ≠ c) as Hne by congruence. unfold alloc_header_size in Hr.
  pose proof (regions_disjoint _ _ _ _ (live_region _ _ Hl') (reg_chunk A i ps p c Hi Hp Hc) Hne). lia.
Qed.
End inv.

(** ** Facts that depend on few words *)

Lemma slab_ok_frame m m' i p fl :
  slab_ok m i p fl → (∀ a, is_Some (m !! a) → is_Some (m' !! a)) →
  m' !! (p + 8) = m !! (p + 8) → m' !! (p + 16) = m !! (p + 16) →
  (∀ c, c ∈ fl → m' !! c = m !! c) → slab_ok m' i p fl.
Proof.
  intros [K1 K2 K3 K4] Hmono H8 H16 Hc. split; [auto|by rewrite H8| |done].
  destruct K3 as (f & Hf & Hs). exists f. rewrite H16. split; [done|].
  eapply seg_ext; [done|]. intros c Hin. by rewrite (Hc c Hin).
Qed.

Lemma live_ok_frame m m' c b :
  live_ok m c b → (∀ a, is_Some (m !! a) → is_Some (m' !! a)) →
  m' !! c = m !! c → m' !! (c + 8) = m !! (c + 8) → live_ok m' c b.
Proof.
  intros (L1 & L2 & L3) Hmono H0 H8. split; [by rewrite H0, H8|]. split; [|done]. auto.
Qed.

(** ** Updates of the abstract heap *)

(** Writes inside one slab: to its counter, its list head and one chunk. *)
Lemma heap_inv_chunk bs next m m' A i ps p fl fl' c live' data' :
  heap_inv bs next m A → ah_slabs A !! i = Some ps → p ∈ ps → ah_free A !! p = Some fl →
  chunk_at p i c →
  (∀ a, a ≠ p + 8 → a ≠ p + 16 → ¬ (c ≤ a < c + bsize i) → m' !! a = m !! a) →
  (∀ a, is_Some (m !! a) → is_Some (m' !! a)) →
  slab_ok m' i p fl' → (∀ x, x ∈ fl' → x ∈ fl ∨ x = c) →
  (∀ c', c' ≠ c → live' !! c' = ah_live A !! c') →
  (∀ b, live' !! c = Some b → (∃ sz, b = BSlab i p sz) ∧ live_ok m' c b ∧ c ∉ fl') →
  (∀ a v, data' !! a = Some v → ah_data A !! a = Some v ∧ ¬ (c ≤ a < c + bsize i)) →
  heap_inv bs next m' (AHeap (ah_slabs A) (<[p := fl']> (ah_free A)) live' data').
Proof.
  intros H Hi Hp Hfl Hc Hm Hmono Hsk Hsub Hlive Hcl Hdata.
  assert (∀ a len x, region A a len → a ≠ p → a ≠ c → a ≤ x < a + len → m' !! x = m !! x) as Hout.
  { intros a len x Hr Hap Hac Hx.
    pose proof (regions_disjoint H _ _ _ _ Hr (reg_header A i ps p Hi Hp) Hap).
    pose proof (regions_disjoint H _ _ _ _ Hr (reg_chunk A i ps p c Hi Hp Hc) Hac).
    unfold slab_header_size in *. apply Hm; lia. }
  destruct (hi_slab _ _ _ _ H _ _ _ Hi Hp) as (Ri & (Mp & _ & _) & _).
  destruct (chunk_in_page _ _ _ Ri Hc) as (Hcp & Hcp' & _). pose proof (bsize_real i Ri) as (Hb & _).
  assert (∀ j qs q, ah_slabs A !! j = Some qs → q ∈ qs → m' !! q = m !! q) as Hhead.
  { intros j qs q Hj Hq. destruct (decide (q = p)) as [->|Hqp]; [apply Hm; lia|].
    eapply (Hout q); [by eapply reg_header|done| |unfold slab_header_size; lia].
    intros ->. by eapply (header_not_chunk H j qs c i ps p c). }
  split; cbn; try apply H.
  - intros j qs b Hj Hbj. eapply seg_ext; [by eapply hi_bins|]. intros q Hq.
    by rewrite (Hhead j qs q Hj Hq).
  - intros j qs q Hj Hq. destruct (hi_slab _ _ _ _ H _ _ _ Hj Hq) as (Rj & Hin & fq & Hfq & Hsq).
    split; [done|]. split; [done|]. destruct (decide (q = p)) as [->|Hqp].
    + exists fl'. rewrite lookup_insert_eq. split; [done|].
      by assert (i = j) as <- by exact (hi_one_bin _ _ _ _ H _ _ _ _ _ Hi Hj Hp Hq).
    + exists fq. rewrite lookup_insert_ne by done. split; [done|].
      assert (q ≠ c) as Hqc by (intros ->; by eapply (header_not_chunk H j qs c i ps p c)).
      eapply slab_ok_frame; [done|done|..].
      * eapply (Hout q); [by eapply reg_header|done|done|unfold slab_header_size; lia].
      * eapply (Hout q); [by eapply reg_header|done|done|unfold slab_header_size; lia].
      * intros x Hx. pose proof (sk_grid _ _ _ _ Hsq x Hx) as Hxc.
        eapply (Hout x); [by eapply (reg_chunk A j qs q)|..].
        -- by eapply (header_not_chunk H i ps p j qs q).
        -- intros ->. destruct (hi_slab _ _ _ _ H _ _ _ Hj Hq) as (_ & (Mq & _ & _) & _).
           destruct (chunk_in_page _ _ _ Rj Hxc) as (? & ? & _). pose proof (bsize_real j Rj).
           pose proof (pages_apart p q Mp Mq (not_eq_sym Hqp)). lia.
        -- pose proof (bsize_real j Rj). lia.
  - intros c' b Hl. destruct (decide (c' = c)) as [->|Hne]; [by apply Hcl|].
    rewrite Hlive in Hl by done. pose proof (live_region H _ _ Hl) as Hr.
    pose proof (region_in_heap H _ _ Hr) as (_ & _ & Hlen).
    assert (c' ≠ p) as Hcp'' by (intros ->; by eapply (header_not_live H i ps p b)).
    eapply live_ok_frame; [by eapply hi_live|done|..]; eapply (Hout c'); try done; lia.
  - intros c' j q sz Hl. destruct (decide (c' = c)) as [->|Hne].
    + destruct (Hcl _ Hl) as ([sz' E] & _ & Hnin). simplify_eq. exists ps.
      do 3 (split; [done|]). intros fx. rewrite lookup_insert_eq. by intros [= <-].
    + rewrite Hlive in Hl by done.
      destruct (hi_live_slab _ _ _ _ H _ _ _ _ Hl) as (qs & Hj & Hq & Hc' & Hnf). exists qs.
      do 3 (split; [done|]). intros fx [[-> <-]|[Hqp Hfx]]%lookup_insert_Some; [|by apply Hnf].
      intros [Hx| ->]%Hsub; [|done]. by eapply Hnf.
  - intros c' n sz Hl. destruct (decide (c' = c)) as [->|Hne].
    { destruct (Hcl _ Hl) as ([sz' E] & _ & _). done. }
    rewrite Hlive in Hl by done. destruct (hi_live_direct _ _ _ _ H _ _ _ Hl) as (D1 & D2 & D3 & D4).
    do 3 (split; [done|]). intros c'' n' sz' Hl' Hne'. destruct (decide (c'' = c)) as [->|Hne''].
    { destruct (Hcl _ Hl') as ([sz'' E] & _ & _). done. }
    rewrite Hlive in Hl' by done. eauto.
  - intros a v Ha. destruct (Hdata a v Ha) as [Hd Hout']. destruct (hi_data _ _ _ _ H a v Hd) as (Hma & c0 & b0 & Hl0 & Hr0).
    unfold alloc_header_size in *. pose proof (live_region H _ _ Hl0) as Hr.
    assert (c0 ≠ c) as Hne.
    { intros ->. destruct (live_chunk H i ps p c b0 Hi Hp Hc Hl0) as [sz ->]. cbn in Hr0. lia. }
    split; [|exists c0, b0; by rewrite Hlive].
    rewrite (Hout c0 (block_len b0)); [done|done| |done|lia].
    intros ->. by eapply (header_not_live H i ps p b0).
Qed.

(** The same block with another requested size. *)
Definition resize (b : block) (n : Z) : block :=
  match b with BSlab i p _ => BSlab i p n | BDirect k _ => BDirect k n end.

Lemma resize_id b : resize b (block_size b) = b.
Proof. by destruct b. Qed.
Lemma resize_len b n : block_len (resize b n) = block_len b.
Proof. by destruct b. Qed.

(** A change inside one block that keeps a good header. *)
Lemma heap_inv_own bs next m m' A c b n data' :
  heap_inv bs next m A → ah_live A !! c = Some b →
  (∀ y, ¬ (c ≤ y < c + block_len b) → m' !! y = m !! y) →
  (∀ y, is_Some (m !! y) → is_Some (m' !! y)) → live_ok m' c (resize b n) →
  (∀ a v, data' !! a = Some v → ah_data A !! a = Some v ∧ m' !! a = m !! a ∨
    m' !! a = Some v ∧ c + alloc_header_size ≤ a < c + block_len b) →
  heap_inv bs next m' (AHeap (ah_slabs A) (ah_free A) (<[c := resize b n]> (ah_live A)) data').
Proof.
  intros H Hl Hm Hmono Hok Hdata. pose proof (live_region H _ _ Hl) as Hr.
  assert (∀ x len y, region A x len → x ≠ c → x ≤ y < x + len → m' !! y = m !! y) as Hout.
  { intros x len y Hx Hne Hy. pose proof (regions_disjoint H _ _ _ _ Hx Hr Hne). apply Hm. lia. }
  assert (∀ c' b', <[c := resize b n]> (ah_live A) !! c' = Some b' →
    ∃ b0 k, ah_live A !! c' = Some b0 ∧ b' = resize b0 k) as Hold.
  { intros c' b' [[<- <-]|[_ Hc]]%lookup_insert_Some; [by exists b, n|].
    exists b', (block_size b'). by rewrite resize_id. }
  split; cbn; try apply H.
  - intros j qs d Hj Hd. eapply seg_ext; [by eapply hi_bins|]. intros q Hq.
    assert (q ≠ c) by (intros ->; by eapply (header_not_live H j qs c b)).
    rewrite (Hout q slab_header_size q); [done|by eapply reg_header|done|unfold slab_header_size; lia].
  - intros j qs q Hj Hq. destruct (hi_slab _ _ _ _ H _ _ _ Hj Hq) as (Rj & Hin & fq & Hfq & Hsq).
    split; [done|]. split; [done|]. exists fq. split; [done|].
    assert (q ≠ c) as Hqc by (intros ->; by eapply (header_not_live H j qs c b)).
    eapply slab_ok_frame; [done|done|..].
    + eapply (Hout q); [by eapply reg_header|done|unfold slab_header_size; lia].
    + eapply (Hout q); [by eapply reg_header|done|unfold slab_header_size; lia].
    + intros x Hx. pose proof (sk_grid _ _ _ _ Hsq x Hx) as Hxc.
      eapply (Hout x); [by eapply (reg_chunk A j qs q)| |pose proof (bsize_real j Rj); lia].
      intros ->. destruct (live_chunk H j qs q c b Hj Hq Hxc Hl) as [sz ->].
      destruct (hi_live_slab _ _ _ _ H _ _ _ _ Hl) as (qs' & _ & _ & _ & Hnf). by eapply Hnf.
  - intros c' b' [[<- <-]|[Hne Hl']]%lookup_insert_Some; [done|].
    pose proof (live_region H _ _ Hl') as Hr'. pose proof (region_in_heap H _ _ Hr') as (_ & _ & Hlen).
    eapply live_ok_frame; [by eapply hi_live|done|..]; eapply (Hout c'); try done; lia.
  - intros c' i p sz ([] & k & Hc & [=])%Hold; subst. by eapply hi_live_slab.
  - intros c' k sz ([] & k' & Hc & [=])%Hold; subst.
    destruct (hi_live_direct _ _ _ _ H _ _ _ Hc) as (D1 & D2 & D3 & D4).
    do 3 (split; [done|]). intros c2 k2 sz2 ([] & k'' & Hc2 & [=])%Hold; subst. by eapply D4.
  - intros a v [[Ha Hma]|Ha]%Hdata.
    + destruct (hi_data _ _ _ _ H a v Ha) as (Hv & c' & b' & Hl' & Hb'). rewrite Hma. split; [done|].
      destruct (decide (c' = c)) as [->|]; [|exists c', b'; by rewrite lookup_insert_ne].
      exists c, (resize b n). rewrite lookup_insert_eq, resize_len. by simplify_eq.
    + destruct Ha as [Ha Hb]. split; [done|]. exists c, (resize b n). by rewrite lookup_insert_eq, resize_len.
Qed.

(** A store of the owner of a block. *)
Lemma heap_inv_store bs next m A c b a v :
  heap_inv bs next m A → ah_live A !! c = Some b → c + alloc_header_size ≤ a < c + block_len b →
  is_Some (m !! a) →
  heap_inv bs next (<[a := v]> m)
    (AHeap (ah_slabs A) (ah_free A) (ah_live A) (<[a := v]> (ah_data A))).
Proof.
  intros H Hl Ha Hma. unfold alloc_header_size in Ha.
  replace (ah_live A) with (<[c := resize b (block_size b)]> (ah_live A)) by
    (by rewrite resize_id, insert_id).
  eapply heap_inv_own; [done|done|..].
  - intros y Hy. rewrite lookup_insert_ne; [done|lia].
  - intros y Hy. destruct (decide (y = a)) as [->|]; [rewrite lookup_insert_eq; by eexists|].
    by rewrite lookup_insert_ne.
  - rewrite resize_id. eapply live_ok_frame; [by eapply hi_live| |..].
    + intros y Hy. destruct (decide (y = a)) as [->|]; [rewrite lookup_insert_eq; by eexists|].
      by rewrite lookup_insert_ne.
    + by rewrite lookup_insert_ne by lia.
    + by rewrite lookup_insert_ne by lia.
  - intros x w [[<- <-]|[Hne Hx]]%lookup_insert_Some.
    + right. by rewrite lookup_insert_eq.
    + left. by rewrite lookup_insert_ne.
Qed.

(** More memory above: nothing below changes. *)
Lemma heap_inv_grow bs next next' m m' A :
  heap_inv bs next m A → next ≤ next' → next' `mod` PAGE = 0 → next' < 2 ^ 64 →
  (∀ a, HEAP_START ≤ a < next → m' !! a = m !! a) → heap_inv bs next' m' A.
Proof.
  intros H Hle Hmod Hlt Hm. pose proof (hi_next _ _ _ _ H) as [_ [Hn _]].
  assert (∀ lo len, region A lo len → ∀ a, lo ≤ a < lo + len → m' !! a = m !! a) as Hreg.
  { intros lo len Hr a Ha. pose proof (region_in_heap H _ _ Hr). apply Hm. lia. }
  split; try apply H.
  - intros j qs d Hj Hd. eapply seg_ext; [by eapply hi_bins|]. intros q Hq.
    rewrite (Hreg q slab_header_size); [done|by eapply reg_header|unfold slab_header_size; lia].
  - intros j qs q Hj Hq. destruct (hi_slab _ _ _ _ H _ _ _ Hj Hq) as (Rj & (I1 & I2 & I3) & fq & Hfq & [K1 K2 K3 K4]).
    unfold PAGE in I3.
    assert (∀ a, q ≤ a < q + 4096 → m' !! a = m !! a) as Hpage by (intros a Ha; apply Hm; lia).
    split; [done|]. split; [split_and!; [done|done|unfold PAGE; lia]|]. exists fq. split; [done|].
    split; [intros k Hk; rewrite Hpage by lia; auto|by rewrite Hpage by lia| |done].
    destruct K3 as (f & Hf & Hs). exists f. rewrite Hpage by lia. split; [done|].
    eapply seg_ext; [done|]. intros c Hin. rewrite (Hreg c (bsize j)); [done| |pose proof (bsize_real j Rj); lia].
    by eapply (reg_chunk A j qs q); [..|apply K4].
  - intros c b Hl. pose proof (live_region H _ _ Hl) as Hr. pose proof (region_in_heap H _ _ Hr) as (_ & _ & Hlen).
    destruct (hi_live _ _ _ _ H _ _ Hl) as (L1 & L2 & L3).
    split; [by rewrite !(Hreg _ _ Hr) by lia|]. split; [|done].
    intros k Hk Hkl. rewrite (Hreg _ _ Hr) by lia. auto.
  - intros c n sz Hl. destruct (hi_live_direct _ _ _ _ H _ _ _ Hl) as ((D1 & D2 & D2') & D3 & D4 & D5).
    split; [split_and!; [done|done|lia]|]. done.
  - split; [done|]. lia.
  - intros a v Ha. destruct (hi_data _ _ _ _ H a v Ha) as (Hma & c & b & Hl & Hr).
    split; [|by exists c, b]. unfold alloc_header_size in Hr.
    rewrite (Hreg _ _ (live_region H _ _ Hl)); [done|lia].
Qed.

(** A new slab at the front of its bin. *)
Lemma heap_inv_add_slab bs next m m' A i ps fl head :
  heap_inv bs next m A → next + PAGE < 2 ^ 64 →
  (∀ a, HEAP_START ≤ a < next → m' !! a = m !! a) →
  ah_slabs A !! i = Some ps → real_bin i → bs !! i = Some head → m' !! next = Some head →
  slab_ok m' i next fl →
  heap_inv (<[i := next]> bs) (next + PAGE) m'
    (AHeap (<[i := next :: ps]> (ah_slabs A)) (<[next := fl]> (ah_free A)) (ah_live A)
      (ah_data A)).
Proof.
  intros H Hlt Hm Hi Ri Hhead Hm0 Hsk. pose proof (hi_next _ _ _ _ H) as [Hmod [Hn _]].
  assert (heap_inv bs (next + PAGE) m' A) as H'.
  { eapply (heap_inv_grow bs next _ m); [done|unfold PAGE; lia| |done|done].
    unfold PAGE in *. rewrite Z.add_mod, Hmod by lia. done. }
  assert (∀ j qs q, ah_slabs A !! j = Some qs → q ∈ qs → q + PAGE ≤ next) as Hold.
  { intros j qs q Hj Hq. by destruct (hi_slab _ _ _ _ H _ _ _ Hj Hq) as (_ & (_ & _ & ?) & _). }
  assert (∀ j qs, ah_slabs A !! j = Some qs → next ∉ qs) as Hfresh.
  { intros j qs Hj Hq. specialize (Hold _ _ _ Hj Hq). unfold PAGE in *. lia. }
  assert (i < length bs ∧ i < length (ah_slabs A))%nat as [Hib Hia].
  { split; [by eapply lookup_lt_Some|]. by eapply lookup_lt_Some. }
  split; cbn; rewrite ?length_insert; try apply H'.
  - intros j qs b Hj Hb. destruct (decide (j = i)) as [->|Hne].
    + rewrite list_lookup_insert_eq in Hj by done. rewrite list_lookup_insert_eq in Hb by done.
      simplify_eq. cbn.
      split; [done|]. split; [unfold HEAP_START in Hn; lia|]. exists head. split; [done|].
      by eapply hi_bins.
    + rewrite list_lookup_insert_ne in Hj by done. rewrite list_lookup_insert_ne in Hb by done.
      by eapply hi_bins.
  - intros j qs q Hj Hq. apply list_lookup_insert_Some in Hj as [(<- & <- & _)|[Hne Hj]].
    + apply elem_of_cons in Hq as [->|Hq].
      * split; [done|]. split; [split_and!; [done|done|lia]|].
        exists fl. by rewrite lookup_insert_eq.
      * destruct (hi_slab _ _ _ _ H' _ _ _ Hi Hq) as (Rj & Hin & fq & Hfq & Hsq).
        split; [done|]. split; [done|]. exists fq. rewrite lookup_insert_ne; [done|].
        intros ->. by eapply Hfresh.
    + destruct (hi_slab _ _ _ _ H' _ _ _ Hj Hq) as (Rj & Hin & fq & Hfq & Hsq).
      split; [done|]. split; [done|]. exists fq. rewrite lookup_insert_ne; [done|].
      intros ->. by eapply Hfresh.
  - intros j k qs rs q [(<- & <- & _)|[Hj Hqs]]%list_lookup_insert_Some
      [(<- & <- & _)|[Hk Hrs]]%list_lookup_insert_Some; [done|..].
    + intros [->|Hq]%elem_of_cons Hr; [by destruct (Hfresh _ _ Hrs)|]. by eapply (hi_one_bin _ _ _ _ H').
    + intros Hq [->|Hr]%elem_of_cons; [by destruct (Hfresh _ _ Hqs)|]. by eapply (hi_one_bin _ _ _ _ H').
    + by eapply (hi_one_bin _ _ _ _ H').
  - intros c j q sz Hl. destruct (hi_live_slab _ _ _ _ H' _ _ _ _ Hl) as (qs & Hj & Hq & Hc & Hnf).
    assert (next ≠ q) as Hnq by (intros <-; by eapply Hfresh).
    destruct (decide (j = i)) as [->|Hne].
    + exists (next :: ps). rewrite list_lookup_insert_eq by done. simplify_eq.
      split; [done|]. split; [by right|]. split; [done|].
      intros fx. rewrite lookup_insert_ne by done. apply Hnf.
    + exists qs. rewrite list_lookup_insert_ne by done. do 3 (split; [done|]).
      intros fx. rewrite lookup_insert_ne by done. apply Hnf.
  - intros c n sz Hl. destruct (hi_live_direct _ _ _ _ H' _ _ _ Hl) as (D1 & D2 & D3 & D4).
    do 2 (split; [done|]). split; [|done].
    intros j qs q [(<- & <- & _)|[Hne Hj]]%list_lookup_insert_Some Hq; [|by eapply D3].
    apply elem_of_cons in Hq as [->|Hq]; [|by eapply D3].
    right. by destruct (hi_live_direct _ _ _ _ H _ _ _ Hl) as ((_ & _ & ?) & _).
Qed.

(** A new direct block. *)
Lemma heap_inv_add_direct bs next m m' A n sz :
  heap_inv bs next m A → 0 < n < 2 ^ 16 → next + n * PAGE < 2 ^ 64 →
  (∀ a, HEAP_START ≤ a < next → m' !! a = m !! a) →
  live_ok m' next (BDirect n sz) →
  ah_live A !! next = None ∧
  heap_inv bs (next + n * PAGE) m'
    (AHeap (ah_slabs A) (ah_free A) (<[next := BDirect n sz]> (ah_live A)) (ah_data A)).
Proof.
  intros H Hn Hlt Hm Hlok. pose proof (hi_next _ _ _ _ H) as [Hmod [Hnx _]].
  assert (heap_inv bs (next + n * PAGE) m' A) as H'.
  { eapply (heap_inv_grow bs next _ m); [done|unfold PAGE; lia| |done|done].
    unfold PAGE in *. rewrite Z.mod_add by lia. done. }
  assert (ah_live A !! next = None) as Hfresh.
  { destruct (ah_live A !! next) as [b|] eqn:E; [|done].
    pose proof (region_in_heap H _ _ (live_region H _ _ E)). lia. }
  split; [done|]. split; cbn; try apply H'.
  - intros c b [[<- <-]|[_ Hl]]%lookup_insert_Some; [done|]. by apply H'.
  - intros c i p s [[<- ?]|[_ Hl]]%lookup_insert_Some; [done|]. by eapply (hi_live_slab _ _ _ _ H').
  - intros c k s [[<- [= <- <-]]|[Hne Hl]]%lookup_insert_Some.
    + split; [split_and!; [done|done|lia]|]. split; [done|]. split.
      * intros i ps p Hi Hp. left. by destruct (hi_slab _ _ _ _ H _ _ _ Hi Hp) as (_ & (_ & _ & ?) & _).
      * intros c' n' sz' [[<- _]|[_ Hl]]%lookup_insert_Some Hne; [done|]. left.
        by destruct (hi_live_direct _ _ _ _ H _ _ _ Hl) as ((_ & _ & ?) & _).
    + destruct (hi_live_direct _ _ _ _ H' _ _ _ Hl) as (D1 & D2 & D3 & D4).
      do 3 (split; [done|]). intros c' n' sz' [[<- [= <- <-]]|[_ Hl']]%lookup_insert_Some Hne'; [|by eapply D4].
      right. by destruct (hi_live_direct _ _ _ _ H _ _ _ Hl) as ((_ & _ & ?) & _).
  - intros a v Ha. destruct (hi_data _ _ _ _ H' a v Ha) as (Hma & c & b & Hl & Hr).
    split; [done|]. exists c, b. split; [|done]. rewrite lookup_insert_ne; [done|congruence].
Qed.

(** A direct block goes away with its memory. *)
Lemma heap_inv_remove_direct bs next m m' A c n sz :
  heap_inv bs next m A → ah_live A !! c = Some (BDirect n sz) →
  (∀ a, ¬ (c ≤ a < c + n * PAGE) → m' !! a = m !! a) →
  heap_inv bs next m'
    (AHeap (ah_slabs A) (ah_free A) (delete c (ah_live A)) (forget c (n * PAGE) (ah_data A))).
Proof.
  intros H Hl Hm. pose proof (reg_direct A c n sz Hl) as Hr.
  assert (∀ x len, region A x len → x ≠ c → ∀ y, x ≤ y < x + len → m' !! y = m !! y) as Hout.
  { intros x len Hx Hne y Hy. pose proof (regions_disjoint H _ _ _ _ Hx Hr Hne). apply Hm. lia. }
  destruct (hi_live_direct _ _ _ _ H _ _ _ Hl) as (_ & Hn & Hslab & _).
  split; cbn; try apply H.
  - intros j qs d Hj Hd. eapply seg_ext; [by eapply hi_bins|]. intros q Hq.
    specialize (Hslab _ _ _ Hj Hq). rewrite Hm; [done|]. unfold PAGE in *. lia.
  - intros j qs q Hj Hq. destruct (hi_slab _ _ _ _ H _ _ _ Hj Hq) as (Rj & Hin & fq & Hfq & [K1 K2 K3 K4]).
    split; [done|]. split; [done|]. exists fq. split; [done|].
    specialize (Hslab _ _ _ Hj Hq). unfold PAGE in Hslab.
    assert (∀ a, q ≤ a < q + 4096 → m' !! a = m !! a) as Hpage by (intros a Ha; apply Hm; unfold PAGE; lia).
    split; [intros k Hk; rewrite Hpage by lia; auto|by rewrite Hpage by lia| |done].
    destruct K3 as (f & Hf & Hs). exists f. rewrite Hpage by lia. split; [done|].
    eapply seg_ext; [done|]. intros x Hx. rewrite Hpage; [done|].
    destruct (chunk_in_page _ _ _ Rj (K4 x Hx)) as (? & ? & _). pose proof (bsize_real j Rj).
    unfold PAGE in *. lia.
  - intros c' b [Hne Hl']%lookup_delete_Some. pose proof (live_region H _ _ Hl') as Hr'.
    pose proof (region_in_heap H _ _ Hr') as (_ & _ & Hlen).
    destruct (hi_live _ _ _ _ H _ _ Hl') as (L1 & L2 & L3).
    pose proof (Hout _ _ Hr' (not_eq_sym Hne)) as Hsame.
    split; [by rewrite !Hsame by lia|]. split; [|done].
    intros k Hk Hkl. rewrite Hsame by lia. auto.
  - intros c' i p s [Hne Hl']%lookup_delete_Some. by eapply (hi_live_slab _ _ _ _ H).
  - intros c' k s [Hne Hl']%lookup_delete_Some.
    destruct (hi_live_direct _ _ _ _ H _ _ _ Hl') as (D1 & D2 & D3 & D4).
    do 3 (split; [done|]). intros c'' n' sz' [_ Hl'']%lookup_delete_Some. eauto.
  - intros a v [Ha Hna]%forget_Some. destruct (hi_data _ _ _ _ H a v Ha) as (Hma & c' & b & Hl' & Hr').
    split; [by rewrite Hm|]. exists c', b. rewrite lookup_delete_ne; [done|].
    intros <-. simplify_eq. cbn in Hr'. unfold alloc_header_size in Hr'. lia.
Qed.
