(* ===== verification/HeapRun.v ===== *)
(** * The operations of the heap

    [PageLaws] states what the heap relies on: which pages the kernel's tables
    map for it, and which frames it holds.  Under these laws every operation
    finishes and keeps [heap_inv]. *)

From S2P Require Import Prelude Bits Links Heap HeapSpec.

Definition frames_from (f n : Z) : gset Z := list_to_set ((λ i, f + i * PAGE) <$> seqZ 0 n).

(** [pl_ok p M F]: the page tables map the heap's pages as in [M], and the
    frames [F] are allocated but not mapped. *)
Class PageLaws (P : Type) `{PageOps P} := {
  pl_ok : P → gmap Z Z → gset Z → Prop;
  pl_alloc p M F : pl_ok p M F → ∃ f p', po_alloc_page p = Done (f, p') ∧
    (f = 0 ∧ pl_ok p' M F ∨ f ≠ 0 ∧ (f ∉ F) ∧ pl_ok p' M ({[f]} ∪ F));
  pl_contiguous n p M F : pl_ok p M F → 0 < n → ∃ f p', po_alloc_contiguous n p = Done (f, p') ∧
    (f = 0 ∧ pl_ok p' M F ∨ f ≠ 0 ∧ (frames_from f n ## F) ∧ pl_ok p' M (frames_from f n ∪ F));
  pl_map v f p M F : pl_ok p M F → M !! v = None → f ∈ F → ∃ b p', po_map v f p = Done (b, p') ∧
    (if (b : bool) then pl_ok p' (<[v := f]> M) (F ∖ {[f]}) else pl_ok p' M F);
  pl_unmap v f p M F : pl_ok p M F → M !! v = Some f →
    ∃ p', po_unmap v p = Done ((), p') ∧ pl_ok p' (delete v M) ({[f]} ∪ F);
  pl_translate v f p M F : pl_ok p M F → M !! v = Some f → po_translate v p = Done (Some f, p);
  pl_free f p M F : pl_ok p M F → f ∈ F →
    ∃ p', po_free_page f p = Done ((), p') ∧ pl_ok p' M (F ∖ {[f]});
  pl_free_contiguous f n p M F : pl_ok p M F → 0 < n → frames_from f n ⊆ F →
    ∃ p', po_free_contiguous f n p = Done ((), p') ∧ pl_ok p' M (F ∖ frames_from f n);
}.

(** The words of a page that has been mapped. *)
Lemma page_words_lookup v f m k : 0 ≤ k < 512 →
  (page_words v f ∪ m) !! (v + 8 * k) = Some (f (8 * k)).
Proof.
  intros Hk. apply lookup_union_Some_l. unfold page_words. apply elem_of_list_to_map_1.
  - rewrite <-list_fmap_compose. apply NoDup_fmap_2_strong; [|apply NoDup_seq].
    intros x y _ _ [=]. lia.
  - apply list_elem_of_fmap. exists (Z.to_nat k). rewrite elem_of_seq.
    split; [|lia]. by rewrite !Z2Nat.id by lia.
Qed.

Lemma page_words_out v f m a : ¬ (v ≤ a < v + PAGE) → (page_words v f ∪ m) !! a = m !! a.
Proof.
  intros Ha. apply lookup_union_r. unfold page_words. apply not_elem_of_list_to_map_1.
  rewrite <-list_fmap_compose, list_elem_of_fmap. intros (i & -> & Hi%elem_of_seq).
  cbn in Ha. unfold PAGE in Ha. lia.
Qed.

Lemma drop_page_out v m a : ¬ (v ≤ a < v + PAGE) → drop_page v m !! a = m !! a.
Proof.
  intros Ha. unfold drop_page. destruct (m !! a) as [w|] eqn:E.
  - by apply map_lookup_filter_Some.
  - apply map_lookup_filter_None. by left.
Qed.

Section run.
Context {P : Type} `{PageLaws P}.
Abbreviation HM := (prog (heap P)).

Lemma wp_rd64 a v (Q : Z → heap P → Prop) h : words h !! a = Some v → Q v h → wp (rd64 a) Q h.
Proof. intros Hv HQ. unfold rd64. wp_steps. by eapply wp_deref. Qed.

Lemma wp_wr64 a v (Q : unit → heap P → Prop) h :
  is_Some (words h !! a) → Q () (set_words (<[a := v]> (words h)) h) → wp (wr64 a v) Q h.
Proof. intros [w Hw] HQ. unfold wr64. wp_step. eapply wp_rd64; [done|]. by wp_step. Qed.

Lemma wp_in_pages {A} (c : prog P A) a p' (Q : A → heap P → Prop) h :
  c (pages h) = Done (a, p') → Q a (set_pages p' h) → wp (in_pages c) Q h.
Proof. intros Hc HQ. apply wp_zoom. by eapply wp_of_run. Qed.

(** What the heap holds of the page layer. *)
Record hinv (h : heap P) (A : aheap) (M : gmap Z Z) : Prop := {
  hv_inv : heap_inv (bins h) (heap_next h) (words h) A;
  hv_end : heap_end h = HEAP_START + HEAP_SIZE;
  hv_pages : pl_ok (pages h) M ∅;
  hv_map : ∀ v f, M !! v = Some f → v < heap_next h;
  hv_direct : ∀ c n sz, ah_live A !! c = Some (BDirect n sz) → ∀ k, 0 ≤ k < n →
    is_Some (M !! (c + k * PAGE));
}.

(** [map_at] on a frame that is held. *)
Lemma wp_map_at v f M F (Q : bool → heap P → Prop) h :
  pl_ok (pages h) M F → M !! v = None → f ∈ F →
  (∀ p' g, pl_ok p' (<[v := f]> M) (F ∖ {[f]}) →
    Q true (set_words (page_words v g ∪ words h) (set_pages p' h))) →
  (∀ p', pl_ok p' M F → Q false (set_pages p' h)) → wp (map_at v f) Q h.
Proof.
  intros Hok Hv Hf Ht Hn. destruct (pl_map v f _ _ _ Hok Hv Hf) as (b & p' & Hrun & Hb).
  unfold map_at. wp_step. eapply wp_in_pages; [done|]. wp_step.
  apply wp_when; intros ->; [apply wp_modify|]; apply wp_ret; [by apply Ht|by apply Hn].
Qed.

Lemma wp_unmap_at v f M F (Q : unit → heap P → Prop) h :
  pl_ok (pages h) M F → M !! v = Some f →
  (∀ p', pl_ok p' (delete v M) ({[f]} ∪ F) →
    Q () (set_words (drop_page v (words h)) (set_pages p' h))) → wp (unmap_at v) Q h.
Proof.
  intros Hok Hv HQ. destruct (pl_unmap v f _ _ _ Hok Hv) as (p' & Hrun & Hok').
  unfold unmap_at. wp_step. eapply wp_in_pages; [done|]. wp_step. by apply HQ.
Qed.

(** A page at the end of the heap, or nothing. *)
Lemma wp_heap_map_page A M (Q : Z → heap P → Prop) h :
  hinv h A M →
  (∀ p' g f, pl_ok p' (<[heap_next h := f]> M) ∅ → heap_next h + PAGE < 2 ^ 64 →
    Q (heap_next h) (set_words (page_words (heap_next h) g ∪ words h)
      (set_heap_next (heap_next h + PAGE) (set_pages p' h)))) →
  (∀ p', pl_ok p' M ∅ → Q 0 (set_pages p' h)) → wp heap_map_page Q h.
Proof.
  intros [Hinv Hend Hok Hmap Hdir] Hyes Hno. unfold heap_map_page. wp_step. apply wp_get.
  pose proof (hi_next _ _ _ _ Hinv) as (Hmod & Hlo & Hhi).
  destruct (Z.leb_spec (heap_end h) (heap_next h)) as [Hge|Hlt].
  { wp_step. specialize (Hno _ Hok). by destruct h. }
  rewrite Hend in Hlt. unfold HEAP_START, HEAP_SIZE in Hlt.
  assert (heap_next h + PAGE < 2 ^ 64) as Hb by (unfold PAGE; lia).
  assert (heap_next h +! PAGE = heap_next h + PAGE) as Hadd.
  { unfold u64. rewrite Z.mod_small; [done|]. unfold PAGE, HEAP_START in *. lia. }
  wp_step. destruct (pl_alloc _ _ _ Hok) as (f & p1 & Hrun & [[-> Hok1]|(Hf & _ & Hok1)]).
  { eapply wp_in_pages; [done|]. rewrite Z.eqb_refl. wp_step. by apply Hno. }
  eapply wp_in_pages; [done|]. rewrite (proj2 (Z.eqb_neq f 0)) by done. wp_steps. rewrite Hadd.
  assert (M !! heap_next h = None) as HM.
  { destruct (M !! heap_next h) as [x|] eqn:E; [|done]. specialize (Hmap _ _ E). lia. }
  eapply (wp_map_at _ f M ({[f]} ∪ ∅)); [done|done|set_solver| |].
  - intros p2 g Hok2. wp_step. apply (Hyes p2 g f); [|done].
    by replace (({[f]} ∪ ∅) ∖ {[f]}) with (∅ : gset Z) in Hok2 by set_solver.
  - intros p2 Hok2. destruct (pl_free f _ _ _ Hok2) as (p3 & Hrun3 & Hok3); [set_solver|].
    wp_step. eapply wp_in_pages; [done|]. wp_steps. cbn.
    assert (heap_next h + PAGE -! PAGE = heap_next h) as ->.
    { unfold u64. rewrite Z.mod_small; unfold HEAP_START, PAGE in *; lia. }
    replace (({[f]} ∪ ∅) ∖ {[f]}) with (∅ : gset Z) in Hok3 by set_solver.
    specialize (Hno p3 Hok3). by destruct h.
Qed.

(** ** New slabs *)

Lemma insert_mono (m : gmap Z Z) a v x : is_Some (m !! x) → is_Some (<[a := v]> m !! x).
Proof.
  intros Hx. destruct (decide (x = a)) as [->|]; [rewrite lookup_insert_eq; by eexists|].
  by rewrite lookup_insert_ne.
Qed.

Lemma chunk_count_real i : real_bin i → 1 ≤ chunk_count i ≤ 127 ∧
  chunk_count i * bsize i ≤ 4072 < (chunk_count i + 1) * bsize i.
Proof.
  intros [H1 H2]. do 8 (destruct i as [|i]; [try lia; by vm_compute|]). lia.
Qed.

(** What filling the chunks from number [k] on gives. *)
Record filled (m m' : gmap Z Z) (i : nat) (p : Z) (l' : list Z) : Prop := {
  fd_len : Z.of_nat (length l') = chunk_count i;
  fd_grid : ∀ c, c ∈ l' → chunk_at p i c;
  fd_free : ∃ f, m' !! (p + 16) = Some f ∧ seg id m' f l' 0;
  fd_same : ∀ a, a ≠ p + 16 → ¬ (p + 24 ≤ a < p + PAGE) → m' !! a = m !! a;
  fd_mono : ∀ a, is_Some (m !! a) → is_Some (m' !! a);
}.

Lemma wp_fill_chunks fuel i p k l f (Q : Z → heap P → Prop) h :
  real_bin i → p `mod` 8 = 0 → 0 < p → 0 ≤ k ≤ chunk_count i → chunk_count i - k ≤ Z.of_nat fuel →
  (∀ j, 0 ≤ j < 512 → is_Some (words h !! (p + 8 * j))) →
  words h !! (p + 16) = Some f → seg id (words h) f l 0 → Z.of_nat (length l) = k →
  (∀ c, c ∈ l → ∃ j, 0 ≤ j < k ∧ c = p + slab_header_size + j * bsize i) →
  (∀ m' l', filled (words h) m' i p l' → Q (chunk_count i) (set_words m' h)) →
  wp (fill_chunks fuel p (p + slab_header_size + k * bsize i)
    (PAGE - slab_header_size - k * bsize i) (bsize i) k) Q h.
Proof.
  intros Hi Hp8 Hp0. destruct (bsize_real i Hi) as (Hb & Hb8 & _).
  destruct (chunk_count_real i Hi) as [Hcc Hfit].
  revert k l f h. induction fuel as [|fuel IH]; intros k l f h Hk Hfuel Hmap Hf Hs Hlen Hgrid HQ.
  - assert (k = chunk_count i) as -> by lia. cbn [fill_chunks].
    replace (_ <? bsize i) with true by (symmetry; apply Z.ltb_lt; unfold PAGE, slab_header_size; lia).
    wp_step. replace h with (set_words (words h) h) by (by destruct h). apply (HQ _ l).
    split; [done| |by exists f|done|done]. intros c Hc. destruct (Hgrid c Hc) as (j & Hj & ->). by exists j.
  - cbn [fill_chunks].
    destruct (Z.ltb_spec (PAGE - slab_header_size - k * bsize i) (bsize i)) as [Hdone|Hmore].
    { assert (k = chunk_count i) as ->.
      { unfold PAGE, slab_header_size in Hdone. destruct (decide (k < chunk_count i)); [nia|lia]. }
      wp_step. replace h with (set_words (words h) h) by (by destruct h). apply (HQ _ l).
      split; [done| |by exists f|done|done]. intros c Hc. destruct (Hgrid c Hc) as (j & Hj & ->). by exists j. }
    assert (k < chunk_count i) as Hkc.
    { unfold PAGE, slab_header_size in Hmore. destruct (decide (k < chunk_count i)); [done|nia]. }
    set (c := p + slab_header_size + k * bsize i).
    assert (chunk_at p i c) as Hc by (exists k; split; [lia|done]).
    destruct (chunk_in_page _ _ _ Hi Hc) as (Hc1 & Hc2 & Hc8). specialize (Hc8 Hp8). unfold PAGE in Hc2.
    assert (is_Some (words h !! c)) as Hcm.
    { replace c with (p + 8 * ((c - p) / 8)).
      - apply Hmap. split; [apply Z.div_pos; lia|apply Z.div_lt_upper_bound; lia].
      - rewrite <-Z.divide_div_mul_exact, Z.mul_comm, Z.div_mul; [lia|lia|lia|].
        apply Z.mod_divide; [lia|]. rewrite Zminus_mod, Hc8, Hp8. done. }
    wp_step. eapply wp_rd64; [done|]. wp_step. apply wp_wr64; [done|]. wp_step.
    apply wp_wr64; [cbn; apply insert_mono; by eexists|]. cbn.
    assert (c ∉ l) as Hcl.
    { intros (j & Hj & E)%Hgrid. unfold c in E. nia. }
    assert (u16 (k + 1) = k + 1) as -> by (unfold u16; rewrite Z.mod_small; lia).
    replace (c + bsize i) with (p + slab_header_size + (k + 1) * bsize i) by (unfold c; lia).
    replace (PAGE - slab_header_size - k * bsize i - bsize i)
      with (PAGE - slab_header_size - (k + 1) * bsize i) by lia.
    apply (IH (k + 1) (c :: l) c); cbn; try lia.
    + intros j Hj. apply insert_mono, insert_mono. auto.
    + by rewrite lookup_insert_eq.
    + split; [done|]. split; [lia|]. exists f. rewrite lookup_insert_ne, lookup_insert_eq by lia.
      split; [done|]. apply seg_upd_out; [apply seg_upd_out; done|].
      intros (j & Hj & E)%Hgrid. unfold slab_header_size in E. nia.
    + intros x [->|Hx]%elem_of_cons; [exists k; split; [lia|done]|].
      destruct (Hgrid x Hx) as (j & Hj & ->). exists j. split; [lia|done].
    + intros m' l' [F1 F2 F3 F4 F5]. apply (HQ m' l'). split; [done|done|done| |].
      * intros a Ha16 Ha. rewrite F4, lookup_insert_ne, lookup_insert_ne by (unfold PAGE in *; lia). done.
      * intros a Ha. apply F5, insert_mono, insert_mono, Ha.
Qed.

Lemma heap_next_facts h A M : hinv h A M →
  heap_next h `mod` 8 = 0 ∧ 0 < heap_next h ∧ HEAP_START ≤ heap_next h.
Proof.
  intros Hv. pose proof (hi_next _ _ _ _ (hv_inv _ _ _ Hv)) as (Hmod & Hlo & Hhi).
  unfold HEAP_START, PAGE in *. split; [|lia].
  pose proof (Z.div_mod (heap_next h) 4096). rewrite Hmod in *.
  replace (heap_next h) with (8 * (512 * (heap_next h / 4096))) by lia.
  rewrite Z.mul_comm, Z.mod_mul; lia.
Qed.

Lemma wp_slab_create i A M (Q : Z → heap P → Prop) h :
  let p := heap_next h in
  hinv h A M → real_bin i →
  (∀ p', pl_ok p' M ∅ → Q 0 (set_pages p' h)) →
  (∀ p' f m' l st, pl_ok p' (<[p := f]> M) ∅ → p + PAGE < 2 ^ 64 →
    (∀ a, HEAP_START ≤ a < p → m' !! a = words h !! a) → is_Some (m' !! p) →
    slab_ok m' i p l → Z.of_nat (length l) = chunk_count i →
    Q p (set_stats st (set_words m' (set_heap_next (p + PAGE) (set_pages p' h))))) →
  wp (slab_create (Z.of_nat i)) Q h.
Proof.
  intros p Hv Hi Hno Hyes. destruct (heap_next_facts _ _ _ Hv) as (Hp8 & Hp0 & Hps).
  destruct (bsize_real i Hi) as (Hb & _ & Hsz). unfold slab_create. wp_step.
  eapply wp_heap_map_page; [done| |].
  2: { intros p' Hok. rewrite Z.eqb_refl. wp_step. by apply Hno. }
  intros p' g f Hok Hlt. fold p. rewrite (proj2 (Z.eqb_neq p 0)) by (unfold p; lia).
  set (m0 := page_words p g ∪ words h).
  assert (∀ j, 0 ≤ j < 512 → is_Some (m0 !! (p + 8 * j))) as Hm0.
  { intros j Hj. unfold m0. rewrite page_words_lookup by done. by eexists. }
  assert (∀ a, HEAP_START ≤ a < p → m0 !! a = words h !! a) as Hlow
    by (intros a Ha; apply page_words_out; lia).
  clearbody m0.
  assert (is_Some (m0 !! p) ∧ is_Some (m0 !! (p + 8)) ∧ is_Some (m0 !! (p + 16))) as (M0 & M8 & M16).
  { split_and!; [replace p with (p + 8 * 0) at 1 by lia|change 8 with (8 * 1) at 1|change 16 with (8 * 2)];
      apply Hm0; lia. }
  wp_step. apply wp_wr64; [done|]. cbn. destruct M8 as [w8 M8].
  wp_step. eapply wp_rd64; [cbn; rewrite lookup_insert_ne by lia; exact M8|].
  wp_step. apply wp_wr64; [cbn; apply insert_mono; by eexists|]. cbn.
  wp_step. apply wp_wr64; [cbn; by apply insert_mono, insert_mono|]. cbn.
  wp_step. eapply wp_rd64; [cbn; rewrite lookup_insert_ne, lookup_insert_eq by lia; done|].
  wp_step. apply wp_wr64; [cbn; apply insert_mono, insert_mono, insert_mono; by eexists|]. cbn.
  wp_step. rewrite Nat2Z.id. eapply wp_deref; [exact Hsz|]. cbn beta.
  wp_step. set (h1 := set_words _ _).
  replace (p + slab_header_size) with (p + slab_header_size + 0 * bsize i) by lia.
  match goal with |- wp (fill_chunks _ _ _ ?av _ _) _ _ =>
    replace av with (PAGE - slab_header_size - 0 * bsize i) by done end.
  destruct (chunk_count_real i Hi) as [Hcc _].
  eapply (wp_fill_chunks _ i p 0 [] 0); [done|done|done|lia| | | |done|done|by intros c ?%elem_of_nil|].
  { unfold PAGE, slab_header_size. lia. }
  { intros j Hj. cbn. apply insert_mono, insert_mono, insert_mono, insert_mono. auto. }
  { cbn. rewrite lookup_insert_ne by lia. by rewrite lookup_insert_eq. }
  intros m1 l [F1 F2 F3 F4 F5]. cbn in F4, F5.
  wp_step. eapply wp_rd64.
  { cbn. rewrite F4 by lia. by rewrite lookup_insert_eq. }
  wp_step. apply wp_wr64; [cbn; apply F5; rewrite lookup_insert_eq; by eexists|].
  wp_step. apply wp_modify. wp_step. unfold h1.
  apply (Hyes p' f _ l); [done|done| | | |done].
  - intros a Ha. cbn. rewrite lookup_insert_ne by lia. rewrite F4 by (unfold PAGE; lia).
    rewrite !lookup_insert_ne by lia. by apply Hlow.
  - cbn. apply insert_mono, F5, insert_mono, insert_mono, insert_mono, insert_mono. done.
  - split; [|eexists; rewrite lookup_insert_eq; split; [done|]| |done].
    + intros k Hk. apply insert_mono, F5, insert_mono, insert_mono, insert_mono, insert_mono. auto.
    + rewrite field16_put by done. rewrite F1. unfold u16. rewrite Z.mod_small; lia.
    + destruct F3 as (fl & Hfl & Hs). exists fl. rewrite lookup_insert_ne by lia. split; [done|].
      apply seg_upd_out; [done|]. intros Hin. destruct (chunk_in_page _ _ _ Hi (F2 _ Hin)). lia.
Qed.

(** A new slab, put in front of its bin. *)
Lemma wp_new_slab {B} i A M ps (k0 : HM B) (k : Z → HM B) (Q : B → heap P → Prop) h :
  hinv h A M → real_bin i → ah_slabs A !! i = Some ps →
  (∀ h', hinv h' A M → wp k0 Q h') →
  (∀ h' M' p l, hinv h' (AHeap (<[i := p :: ps]> (ah_slabs A)) (<[p := l]> (ah_free A)) (ah_live A)
      (ah_data A)) M' →
    bins h' !! i = Some p → l ≠ [] → wp (k p) Q h') →
  wp (slab ← slab_create (Z.of_nat i);
      if slab =? 0 then k0 else push_slab (Z.of_nat i) slab;; k slab) Q h.
Proof.
  intros Hv Hi Hps Hk0 Hk. destruct (heap_next_facts _ _ _ Hv) as (Hp8 & Hp0 & Hps').
  pose proof Hv as [Hinv Hend Hok Hmap Hdir]. destruct (hi_len _ _ _ _ Hinv) as [Hlb Hls].
  destruct (lookup_lt_is_Some_2 (bins h) i) as [head Hhead].
  { rewrite Hlb. destruct Hi. lia. }
  wp_step. eapply wp_slab_create; [done|done| |].
  { intros p' Hok'. rewrite Z.eqb_refl. apply Hk0. by split. }
  intros p' f m' l st Hok' Hlt Hsame Hm' Hsk Hlen.
  rewrite (proj2 (Z.eqb_neq (heap_next h) 0)) by lia.
  wp_step. unfold push_slab. wp_step. apply wp_get. cbn. rewrite Nat2Z.id. wp_step.
  eapply wp_deref; [done|]. cbn beta. wp_step. apply wp_wr64; [done|]. apply wp_modify. cbn.
  destruct (chunk_count_real i Hi) as [Hcc _].
  eapply (Hk _ (<[heap_next h := f]> M) _ l).
  - split; cbn; [|done|done| |].
    + eapply (heap_inv_add_slab _ _ (words h)); [done|done| |done|done|done|by rewrite lookup_insert_eq|].
      * intros a Ha. rewrite lookup_insert_ne by lia. by apply Hsame.
      * eapply slab_ok_frame; [done|intros a; apply insert_mono|by rewrite lookup_insert_ne by lia..|].
        intros c Hc. destruct (chunk_in_page _ _ _ Hi (sk_grid _ _ _ _ Hsk c Hc)).
        by rewrite lookup_insert_ne by lia.
    + intros v x [[<- _]|[_ Hx]]%lookup_insert_Some; unfold PAGE; [lia|]. specialize (Hmap _ _ Hx). lia.
    + intros c n sz Hl k' Hk'. destruct (Hdir _ _ _ Hl k' Hk') as [x Hx]. specialize (Hmap _ _ Hx).
      rewrite lookup_insert_ne by lia. by exists x.
  - cbn. apply list_lookup_insert_eq. by apply lookup_lt_Some in Hhead.
  - intros ->. cbn in Hlen. lia.
Qed.

(** ** Taking a chunk *)

Lemma free_length m i p fl : real_bin i → slab_ok m i p fl → Z.of_nat (length fl) ≤ chunk_count i.
Proof.
  intros Hi [_ _ (f & _ & Hs) Hg]. apply seg_nodup in Hs.
  set (grid := (λ k, p + slab_header_size + k * bsize i) <$> seqZ 0 (chunk_count i)).
  assert (fl ⊆+ grid) as Hsub.
  { apply NoDup_submseteq; [done|]. intros c Hc. destruct (Hg c Hc) as (k & Hk & ->).
    apply list_elem_of_fmap. exists k. split; [done|]. by apply elem_of_seqZ. }
  apply submseteq_length in Hsub. unfold grid in Hsub.
  rewrite length_fmap, length_seqZ in Hsub. destruct (chunk_count_real i Hi). lia.
Qed.

(** The state after a chunk [c] has left its free list, before it is used. *)
Record taken (h : heap P) (A : aheap) (M : gmap Z Z) (i : nat) (c : Z) : Prop := {
  tk_inv : hinv h A M;
  tk_slab : ∃ ps p fl, ah_slabs A !! i = Some ps ∧ p ∈ ps ∧ chunk_at p i c ∧
    ah_free A !! p = Some fl ∧ c ∉ fl;
  tk_live : ah_live A !! c = None;
}.

Lemma hinv_words m A' h A M :
  hinv h A M → heap_inv (bins h) (heap_next h) m A' →
  (∀ c n sz, ah_live A' !! c = Some (BDirect n sz) → ah_live A !! c = Some (BDirect n sz)) →
  hinv (set_words m h) A' M.
Proof. intros [V1 V2 V3 V4 V5] Hi Hl. split; cbn; try done. eauto. Qed.

Lemma wp_pop_chunk i A M ps p c fl (Q : Z → heap P → Prop) h :
  hinv h A M → ah_slabs A !! i = Some ps → p ∈ ps → ah_free A !! p = Some (c :: fl) →
  (∀ h', taken h' (AHeap (ah_slabs A) (<[p := fl]> (ah_free A)) (ah_live A) (ah_data A)) M i c → Q c h') →
  wp (pop_chunk p) Q h.
Proof.
  intros Hv Hi Hp Hfl HQ. pose proof (hv_inv _ _ _ Hv) as Hinv.
  destruct (hi_slab _ _ _ _ Hinv _ _ _ Hi Hp) as (Ri & Hin & fl' & Hfl' & Hsk).
  assert (fl' = c :: fl) as -> by congruence.
  pose proof (free_length _ _ _ _ Ri Hsk) as Hlen. destruct (chunk_count_real i Ri) as [Hcc _].
  pose proof (sk_grid _ _ _ _ Hsk c ltac:(left)) as Hc.
  destruct (chunk_in_page _ _ _ Ri Hc) as (Hc1 & Hc2 & _). pose proof (bsize_real i Ri) as (Hb & _).
  destruct (sk_count _ _ _ _ Hsk) as (w & Hw & Hcnt).
  destruct (sk_free _ _ _ _ Hsk) as (f & Hf & Hs). pose proof (seg_nodup _ _ _ _ Hs) as Hnd.
  cbn in Hs. destruct Hs as (-> & Hc0 & n & Hn & Hs). unfold id in Hs.
  apply NoDup_cons in Hnd as [Hcfl Hnd].
  unfold pop_chunk. wp_step. eapply wp_rd64; [done|]. wp_step. eapply wp_rd64; [done|].
  wp_step. apply wp_wr64; [by eexists|]. wp_step.
  eapply wp_rd64; [cbn; rewrite lookup_insert_ne by lia; done|].
  wp_step. apply wp_wr64; [cbn; apply insert_mono; by eexists|]. wp_step. cbn.
  assert (slab_ok (<[p + 8:=put16 32 (field16 32 w - 1) w]> (<[p + 16:=n]> (words h))) i p fl) as Hsk'.
  { destruct Hsk as [K1 _ _ K4]. split.
    - intros k Hk. apply insert_mono, insert_mono. auto.
    - eexists. rewrite lookup_insert_eq. split; [done|]. rewrite field16_put by done.
      rewrite Hcnt. cbn [length] in *. unfold u16. rewrite Z.mod_small; lia.
    - exists n. rewrite lookup_insert_ne, lookup_insert_eq by lia. split; [done|].
      apply seg_upd_out; [apply seg_upd_out; [done|]|];
        (intros Hin'; destruct (chunk_in_page _ _ _ Ri (K4 _ (list_elem_of_further _ _ _ Hin'))); lia).
    - intros x Hx. apply K4. by right. }
  assert (ah_live A !! c = None) as Hcl.
  { destruct (ah_live A !! c) as [b|] eqn:E; [|done].
    destruct (live_chunk Hinv i ps p c b Hi Hp Hc E) as [sz ->].
    destruct (hi_live_slab _ _ _ _ Hinv _ _ _ _ E) as (_ & _ & _ & _ & Hnf).
    destruct (Hnf _ Hfl). left. }
  apply HQ. split; [|exists ps, p, fl; cbn; by rewrite lookup_insert_eq|done].
  apply (hinv_words _ _ (set_words (words h) h) A M); [by destruct h| |done]. cbn.
  eapply (heap_inv_chunk _ _ (words h) _ A i ps p (c :: fl) fl c); try done.
  - intros a H8 H16 _. by rewrite !lookup_insert_ne.
  - intros a Ha. by apply insert_mono, insert_mono.
  - intros x Hx. left. by right.
  - intros b. by rewrite Hcl.
  - intros a v Ha. split; [done|]. by eapply (data_not_in_chunk Hinv i ps p).
Qed.

Lemma wp_slab_alloc i A M (Q : Z → heap P → Prop) h :
  hinv h A M → real_bin i →
  (∀ h', hinv h' A M → Q 0 h') →
  (∀ h' A' M' c, taken h' A' M' i c → ah_live A' = ah_live A → ah_data A' = ah_data A → Q c h') →
  wp (slab_alloc (Z.of_nat i)) Q h.
Proof.
  intros Hv Hi Hno Hyes. pose proof (hv_inv _ _ _ Hv) as Hinv.
  destruct (hi_len _ _ _ _ Hinv) as [Hlb Hls].
  destruct (lookup_lt_is_Some_2 (bins h) i) as [head Hhead]; [rewrite Hlb; destruct Hi; lia|].
  destruct (lookup_lt_is_Some_2 (ah_slabs A) i) as [ps Hps]; [rewrite Hls; destruct Hi; lia|].
  pose proof (hi_bins _ _ _ _ Hinv _ _ _ Hps Hhead) as Hs.
  (* from a state whose first slab has a free chunk *)
  assert (∀ h' A' M' p qs l, hinv h' A' M' → ah_slabs A' !! i = Some (p :: qs) →
    ah_free A' !! p = Some l → l ≠ [] → ah_live A' = ah_live A → ah_data A' = ah_data A →
    wp (pop_chunk p) Q h') as Hpop.
  { intros h' A' M' p qs l Hv' Hps' Hl Hne Hlive Hdata. destruct l as [|c l]; [done|].
    eapply wp_pop_chunk; [done|done|by left|done|]. intros h'' Ht. by eapply Hyes. }
  unfold slab_alloc. wp_step. apply wp_get. rewrite Nat2Z.id. wp_step.
  eapply wp_deref; [done|]. wp_step. destruct ps as [|p ps].
  - cbn in Hs. subst head. rewrite Z.eqb_refl.
    eapply (wp_new_slab i A M []); [done|done|done| |].
    + intros h' Hv'. wp_step. cbn [negb]. wp_step. by apply Hno.
    + intros h' M' p l Hv' Hb Hl. wp_step. cbn [negb]. wp_step. apply wp_get. wp_step.
      eapply wp_deref; [done|]. cbn beta. pose proof (hv_inv _ _ _ Hv') as Hinv'.
      destruct (hi_slab _ _ _ _ Hinv' i [p] p) as (_ & _ & l' & Hl' & Hsk').
      { cbn. apply list_lookup_insert_eq. by apply lookup_lt_Some in Hps. }
      { left. }
      cbn in Hl'. rewrite lookup_insert_eq in Hl'. simplify_eq.
      destruct (sk_count _ _ _ _ Hsk') as (w & Hw & Hcnt).
      wp_step. eapply wp_rd64; [done|]. rewrite Hcnt.
      rewrite (proj2 (Z.eqb_neq _ 0)) by (destruct l'; [done|cbn; lia]).
      eapply (Hpop _ _ _ _ []); [done|cbn; apply list_lookup_insert_eq; by apply lookup_lt_Some in Hps|
        cbn; by rewrite lookup_insert_eq|done|done|done].
  - cbn in Hs. destruct Hs as (-> & Hp0 & _). rewrite (proj2 (Z.eqb_neq p 0)) by done.
    wp_step. cbn [negb]. wp_step. apply wp_get. wp_step. eapply wp_deref; [done|].
    destruct (hi_slab _ _ _ _ Hinv i (p :: ps) p Hps ltac:(left)) as (_ & _ & l & Hl & Hsk).
    destruct (sk_count _ _ _ _ Hsk) as (w & Hw & Hcnt).
    wp_step. eapply wp_rd64; [done|]. rewrite Hcnt.
    destruct (Z.eqb_spec (Z.of_nat (length l)) 0) as [H0'|Hne].
    + eapply (wp_new_slab i A M (p :: ps)); [done|done|done|intros h' Hv'; wp_step; by apply Hno|].
      intros h' M' q l' Hv' Hb Hl'.
      eapply (Hpop _ _ _ _ (p :: ps)); [done|cbn; apply list_lookup_insert_eq; by apply lookup_lt_Some in Hps|
        cbn; by rewrite lookup_insert_eq|done|done|done].
    + eapply (Hpop h A M p ps l); try done. intros ->. done.
Qed.
End run.
