(* ===== verification/HeapBlocks.v ===== *)
(** * Blocks: kmalloc and kfree

    Each finishes, keeps the invariant and adds or removes exactly one block. *)

From S2P Require Import Prelude Bits Links Heap HeapSpec HeapRun.

(** ** Sizes *)

(** The sizes the theorems speak of: the request plus its header must not
    wrap, and the number of pages must fit the 16 bits of the header. *)
Definition good_size (size : Z) : Prop := 0 < size < 2 ^ 28 - 2 ^ 13.

Ltac pick_bin := split; [done|]; split; [unfold real_bin; lia|unfold bsize; cbn; lia].

Lemma bin_for_size_cases size : good_size size →
  (bin_for_size size = -1 ∧ 2024 < size) ∨
  ∃ i, bin_for_size size = Z.of_nat i ∧ real_bin i ∧ size + alloc_header_size ≤ bsize i.
Proof.
  intros Hs. unfold good_size in Hs. unfold bin_for_size, alloc_header_size.
  rewrite u64_small by lia. cbn [first_bin bin_sizes].
  destruct (Z.leb_spec (size + 24) 16); [lia|].
  destruct (Z.leb_spec (size + 24) 32); [right; exists 1%nat; pick_bin|].
  destruct (Z.leb_spec (size + 24) 64); [right; exists 2%nat; pick_bin|].
  destruct (Z.leb_spec (size + 24) 128); [right; exists 3%nat; pick_bin|].
  destruct (Z.leb_spec (size + 24) 256); [right; exists 4%nat; pick_bin|].
  destruct (Z.leb_spec (size + 24) 512); [right; exists 5%nat; pick_bin|].
  destruct (Z.leb_spec (size + 24) 1024); [right; exists 6%nat; pick_bin|].
  destruct (Z.leb_spec (size + 24) 2048); [right; exists 7%nat; pick_bin|].
  left. split; [done|lia].
Qed.

Lemma direct_pages_count size : good_size size →
  let n := align_up (size +! alloc_header_size) PAGE / PAGE in
  0 < n < 2 ^ 16 ∧ size + alloc_header_size ≤ n * PAGE < size + alloc_header_size + PAGE.
Proof.
  intros Hs. unfold good_size, align_up, alloc_header_size, PAGE in *.
  change (4096 -! 1) with (2 ^ 12 - 1).
  rewrite (u64_small (size + 24)), (u64_small (size + 24 + 4096)) by lia.
  rewrite (u64_small (size + 24 + 4096 - 1)), land_align_mask by lia.
  change (2 ^ 12) with 4096. rewrite Z.div_mul by lia.
  pose proof (Z.div_mod (size + 24 + 4096 - 1) 4096 ltac:(lia)).
  pose proof (Z.mod_pos_bound (size + 24 + 4096 - 1) 4096 ltac:(lia)). lia.
Qed.

Section blocks.
Context {P : Type} `{PageLaws P}.
Abbreviation HM := (prog (heap P)).

Lemma hinv_ext h h' A M :
  hinv h A M → bins h' = bins h → heap_next h' = heap_next h → heap_end h' = heap_end h →
  words h' = words h → pages h' = pages h → hinv h' A M.
Proof. intros [V1 V2 V3 V4 V5] E1 E2 E3 E4 E5. split; by rewrite ?E1, ?E2, ?E3, ?E4, ?E5. Qed.

Lemma wp_on_stats f (Q : unit → heap P → Prop) h :
  Q () (set_stats (f (stats h)) h) → wp (on_stats f) Q h.
Proof. intros HQ. by apply wp_modify. Qed.

Lemma wp_write_header a bin magic size base (Q : unit → heap P → Prop) h :
  is_Some (words h !! a) → is_Some (words h !! (a + 8)) → is_Some (words h !! (a + 16)) →
  (∀ m', (∀ x, x ≠ a → x ≠ a + 8 → x ≠ a + 16 → m' !! x = words h !! x) →
    (∀ x, is_Some (words h !! x) → is_Some (m' !! x)) →
    m' !! a = Some (u16 bin + Z.shiftl magic 16) → m' !! (a + 8) = Some size →
    Q () (set_words m' h)) →
  wp (write_header a bin magic size base) Q h.
Proof.
  intros H0' H8 H16 HQ. unfold write_header.
  wp_step. apply wp_wr64; [done|]. wp_step. apply wp_wr64; [cbn; by apply insert_mono|].
  apply wp_wr64; [cbn; by apply insert_mono, insert_mono|]. cbn.
  apply HQ.
  - intros x Hx Hx8 Hx16. by rewrite !lookup_insert_ne.
  - intros x Hx. by apply insert_mono, insert_mono, insert_mono.
  - rewrite lookup_insert_ne, lookup_insert_ne by lia. by rewrite lookup_insert_eq.
  - rewrite lookup_insert_ne by lia. by rewrite lookup_insert_eq.
Qed.

Lemma multiple_of_8 lo x : lo `mod` 8 = 0 → x `mod` 8 = 0 → x = lo + 8 * ((x - lo) / 8).
Proof.
  intros Hlo Hx. rewrite <-Z_div_exact_full_2; [lia|lia|]. by rewrite Zminus_mod, Hx, Hlo.
Qed.

Lemma page_mod_8 p : p `mod` PAGE = 0 → p `mod` 8 = 0.
Proof.
  unfold PAGE. intros Hp. rewrite (Z.div_mod p 4096), Hp, Z.add_0_r by lia.
  replace (4096 * (p / 4096)) with (512 * (p / 4096) * 8) by lia. by apply Z.mod_mul.
Qed.

(** The words of a chunk are mapped. *)
Lemma chunk_mapped m next i p fl c k :
  in_heap next p PAGE → real_bin i → slab_ok m i p fl → chunk_at p i c →
  0 ≤ k → 8 * k < bsize i → is_Some (m !! (c + 8 * k)).
Proof.
  intros (Hmod & _ & _) Hi Hsk Hc Hk Hlt. pose proof (page_mod_8 p Hmod) as Hp8.
  destruct (chunk_in_page _ _ _ Hi Hc) as (H1 & H2 & H8). specialize (H8 Hp8). unfold PAGE in H2.
  rewrite (multiple_of_8 p (c + 8 * k)); [|done|].
  - apply Hsk. split; [apply Z.div_pos; lia|apply Z.div_lt_upper_bound; lia].
  - rewrite Z.add_mod, H8, Z.mul_comm, Z.mod_mul by lia. done.
Qed.

(** A taken chunk becomes a block. *)
Lemma wp_use_chunk A M i c size (Q : Z → heap P → Prop) h :
  taken h A M i c → real_bin i → 0 < size → size + alloc_header_size ≤ bsize i →
  (∀ h' p, hinv h' (AHeap (ah_slabs A) (ah_free A) (<[c := BSlab i p size]> (ah_live A))
      (ah_data A)) M →
    Q (c + alloc_header_size) h') →
  wp (write_header c (Z.of_nat i) MAGIC_ALLOC size 0;; on_stats (count_alloc size);;
      mret (c + alloc_header_size)) Q h.
Proof.
  intros [Hv (ps & p & fl & Hps & Hp & Hc & Hfl & Hcfl) Hcl] Hi Hs0 Hsz HQ.
  pose proof (hv_inv _ _ _ Hv) as Hinv. pose proof (bsize_real i Hi) as (Hb & _).
  destruct (hi_slab _ _ _ _ Hinv _ _ _ Hps Hp) as (_ & Hin & fl' & Hfl' & Hsk).
  assert (fl' = fl) as -> by congruence.
  pose proof (λ k, chunk_mapped _ _ _ _ _ _ k Hin Hi Hsk Hc) as Hmap.
  destruct (chunk_in_page _ _ _ Hi Hc) as (Hc1 & Hc2 & _).
  wp_step. eapply wp_write_header.
  { replace c with (c + 8 * 0) by lia. apply Hmap; lia. }
  { apply (Hmap 1); lia. }
  { apply (Hmap 2); lia. }
  intros m' Hout Hmono Hm0 Hm8. wp_step. apply wp_on_stats. wp_step. eapply (HQ _ p).
  eapply (hinv_ext (set_words m' h)); try done.
  assert (<[p := fl]> (ah_free A) = ah_free A) as Efr by (by apply insert_id).
  rewrite <-Efr. apply (hinv_words _ _ h A M); [done| |].
  - eapply (heap_inv_chunk _ _ (words h) _ A i ps p fl fl c); try done.
    + intros a _ _ Ha. apply Hout; lia.
    + eapply slab_ok_frame; [done|done|apply Hout; lia..|].
      intros x Hx. assert (x ≠ c) as Hxc by (intros ->; done).
      pose proof (chunk_sep _ _ _ _ Hi (sk_grid _ _ _ _ Hsk x Hx) Hc Hxc). apply Hout; lia.
    + by left.
    + intros c' Hne. cbn. by rewrite lookup_insert_ne.
    + intros b. cbn. rewrite lookup_insert_eq. intros [= <-]. split; [by eexists|]. split; [|done].
      destruct (field16_bin (Z.of_nat i) MAGIC_ALLOC) as [F0 F16]; [destruct Hi; lia|done|].
      split; [eexists; split; [done|]; by split|]. cbn. unfold alloc_header_size in *. split; [|lia].
      intros k Hk Hlt. by apply Hmono, Hmap.
    + intros a v Ha. split; [done|]. by eapply (data_not_in_chunk Hinv i ps p).
  - cbn. intros c' n sz [[<- ?]|[_ ?]]%lookup_insert_Some; done.
Qed.

(** ** Direct blocks *)

(** The frames number [i] to [i + k - 1] of a contiguous run. *)
Definition run_of (f i k : Z) : gset Z := list_to_set ((λ j, f + j * PAGE) <$> seqZ i k).

Lemma elem_of_run f i k x : x ∈ run_of f i k ↔ ∃ j, i ≤ j < i + k ∧ x = f + j * PAGE.
Proof.
  unfold run_of. rewrite elem_of_list_to_set, list_elem_of_fmap. setoid_rewrite elem_of_seqZ.
  naive_solver.
Qed.

Lemma run_next f i k : 0 < k → run_of f i k ∖ {[f + i * PAGE]} = run_of f (i + 1) (k - 1).
Proof.
  intros Hk. apply set_eq. intros x. rewrite elem_of_difference, elem_of_singleton, !elem_of_run. split.
  - intros [(j & Hj & ->) Hne]. exists j. split; [|done]. assert (j ≠ i) by congruence. lia.
  - intros (j & Hj & ->). split; [exists j; split; [lia|done]|]. unfold PAGE. lia.
Qed.

(** The tables when the pages number [j] to [i - 1] of a block are mapped. *)
Record mapped (M M' : gmap Z Z) (base f j i : Z) : Prop := {
  mp_new : ∀ x, j ≤ x < i → M' !! (base + x * PAGE) = Some (f + x * PAGE);
  mp_old : ∀ v, (∀ x, j ≤ x < i → v ≠ base + x * PAGE) → M' !! v = M !! v;
}.

Lemma mapped_none M base f j : mapped M M base f j j.
Proof. split; [lia|done]. Qed.

Lemma mapped_all M M' base f j : mapped M M' base f j j → M' = M.
Proof. intros [_ N2]. apply map_eq. intros v. apply N2. lia. Qed.

Lemma mapped_step M M' base f j i :
  j ≤ i → mapped M M' base f j i → mapped M (<[base + i * PAGE := f + i * PAGE]> M') base f j (i + 1).
Proof.
  intros Hi [N1 N2]. split.
  - intros x Hx. destruct (decide (x = i)) as [->|]; [by rewrite lookup_insert_eq|].
    rewrite lookup_insert_ne by (unfold PAGE; lia). apply N1. lia.
  - intros v Hv. rewrite lookup_insert_ne by (apply not_eq_sym, Hv; lia).
    apply N2. intros x Hx. apply Hv. lia.
Qed.

Lemma mapped_undo M M' base f j i :
  j < i → M !! (base + j * PAGE) = None → mapped M M' base f j i →
  mapped M (delete (base + j * PAGE) M') base f (j + 1) i.
Proof.
  intros Hi HM [N1 N2]. split.
  - intros x Hx. rewrite lookup_delete_ne by (unfold PAGE; lia). apply N1. lia.
  - intros v Hv. destruct (decide (v = base + j * PAGE)) as [->|Hne]; [by rewrite lookup_delete_eq|].
    rewrite lookup_delete_ne by done. apply N2. intros x Hx.
    destruct (decide (x = j)) as [->|]; [done|]. apply Hv. lia.
Qed.

(** The memory after the first [i] pages: mapped, and unchanged below. *)
Definition grown (m m' : gmap Z Z) (base i : Z) : Prop :=
  (∀ a, a < base → m' !! a = m !! a) ∧
  (∀ k, 0 ≤ k < 512 * i → is_Some (m' !! (base + 8 * k))).

Lemma grown_step m m' base i g : 0 ≤ i → grown m m' base i →
  grown m (page_words (base + i * PAGE) g ∪ m') base (i + 1).
Proof.
  intros Hi [G1 G2]. split.
  - intros a Ha. rewrite page_words_out by (unfold PAGE; lia). by apply G1.
  - intros k Hk. destruct (decide (k < 512 * i)).
    + rewrite page_words_out by (unfold PAGE; lia). apply G2. lia.
    + replace (base + 8 * k) with (base + i * PAGE + 8 * (k - 512 * i)) by (unfold PAGE; lia).
      rewrite page_words_lookup by lia. by eexists.
Qed.

Section direct.
Context (A : aheap) (M : gmap Z Z) (h0 : heap P).
Hypothesis Hv : hinv h0 A M.
Abbreviation base := (heap_next h0).

Lemma next_unmapped x : 0 ≤ x → M !! (base + x * PAGE) = None.
Proof.
  intros Hx. destruct (M !! (base + x * PAGE)) as [f|] eqn:E; [|done].
  apply (hv_map _ _ _ Hv) in E. unfold PAGE in E. lia.
Qed.

(** Undoing the mappings gives the state before, up to memory above the heap. *)
Lemma wp_undo k j i f F (Q : unit → heap P → Prop) nx : ∀ p' m' M',
  0 ≤ j → i = j + Z.of_nat k → mapped M M' base f j i → pl_ok p' M' F →
  (∀ a, a < base → m' !! a = words h0 !! a) →
  (∀ p'' m'', pl_ok p'' M (run_of f j (Z.of_nat k) ∪ F) → (∀ a, a < base → m'' !! a = words h0 !! a) →
    Q () (set_words m'' (set_heap_next nx (set_pages p'' h0)))) →
  wp (for_each (seqZ j (Z.of_nat k)) (λ x, unmap_at (base + x * PAGE))) Q
    (set_words m' (set_heap_next nx (set_pages p' h0))).
Proof.
  revert j F. induction k as [|k IH]; intros j F p' m' M' Hj Hi Hmp Hok Hm HQ.
  - assert (i = j) as -> by lia. apply mapped_all in Hmp as ->. cbn. apply wp_ret. apply HQ; [|done].
    by replace (run_of f j (Z.of_nat 0) ∪ F) with F by (unfold run_of; cbn; set_solver).
  - rewrite seqZ_cons by lia. replace (Z.pred (Z.of_nat (S k))) with (Z.of_nat k) by lia.
    replace (Z.succ j) with (j + 1) by lia. cbn [for_each]. wp_step.
    eapply wp_unmap_at; [done|apply (mp_new _ _ _ _ _ _ Hmp); lia|]. intros p'' Hok'. cbn.
    apply (IH (j + 1) ({[f + j * PAGE]} ∪ F) p'' _ (delete (base + j * PAGE) M')); [lia|lia| |done| |].
    + apply mapped_undo; [lia|by apply next_unmapped|done].
    + intros a Ha. rewrite drop_page_out by (unfold PAGE; lia). by apply Hm.
    + intros p3 m3 Hok3 Hm3. apply HQ; [|done].
      replace (run_of f j (Z.of_nat (S k)) ∪ F)
        with (run_of f (j + 1) (Z.of_nat k) ∪ ({[f + j * PAGE]} ∪ F)); [done|].
      rewrite (assoc_L (∪)). f_equal. apply set_eq. intros x.
      rewrite elem_of_union, elem_of_singleton, !elem_of_run. split.
      * intros [(y & Hy & ->)| ->]; [exists y; split; [lia|done]|exists j; split; [lia|done]].
      * intros (y & Hy & ->). destruct (decide (y = j)) as [->|]; [by right|left; exists y; split; [lia|done]].
Qed.

Lemma hinv_back p' m' :
  pl_ok p' M ∅ → (∀ a, a < base → m' !! a = words h0 !! a) →
  hinv (set_words m' (set_heap_next base (set_pages p' h0))) A M.
Proof.
  intros Hok Hm. destruct Hv as [V1 V2 V3 V4 V5]. split; cbn; try done.
  pose proof (hi_next _ _ _ _ V1) as (Hmod & Hlo & Hhi).
  eapply heap_inv_grow; [done|lia|done|done|]. intros a Ha. apply Hm. lia.
Qed.

Lemma wp_map_direct n f (Q : bool → heap P → Prop) k : ∀ i p' m' M',
  0 ≤ i → i + Z.of_nat k = n → base + n * PAGE < 2 ^ 64 →
  grown (words h0) m' base i → mapped M M' base f 0 i → pl_ok p' M' (run_of f i (Z.of_nat k)) →
  (∀ p'' m'' M'', grown (words h0) m'' base n → mapped M M'' base f 0 n → pl_ok p'' M'' ∅ →
    Q true (set_words m'' (set_heap_next (base + n * PAGE) (set_pages p'' h0)))) →
  (∀ h', hinv h' A M → Q false h') →
  wp (map_direct k i f n base) Q (set_words m' (set_heap_next (base + i * PAGE) (set_pages p' h0))).
Proof.
  induction k as [|k IH]; intros i p' m' M' Hi Hn Hlt Hg Hmp Hok Hyes Hno.
  - assert (i = n) as -> by lia. cbn. apply wp_ret. by apply (Hyes _ _ M').
  - pose proof (heap_next_facts _ _ _ Hv) as (_ & Hb0 & _). cbn [map_direct]. wp_step. apply wp_get. cbn. wp_step.
    apply wp_modify. cbn. rewrite u64_small by (unfold PAGE in *; lia).
    replace (base + i * PAGE + PAGE) with (base + (i + 1) * PAGE) by lia. wp_step.
    eapply (wp_map_at _ _ M' (run_of f i (Z.of_nat (S k)))); [done| | | |].
    + rewrite (mp_old _ _ _ _ _ _ Hmp); [by apply next_unmapped|]. unfold PAGE. lia.
    + apply elem_of_run. exists i. split; [lia|done].
    + intros p2 g Hok2. cbn. apply (IH (i + 1) p2 _ (<[base + i * PAGE := f + i * PAGE]> M')); [lia|lia|done| | | |done|done].
      * by apply grown_step.
      * by apply mapped_step.
      * rewrite run_next in Hok2 by lia. by replace (Z.of_nat k) with (Z.of_nat (S k) - 1) by lia.
    + intros p2 Hok2. cbn. wp_step. replace i with (Z.of_nat (Z.to_nat i)) at 1 by lia.
      eapply (wp_undo (Z.to_nat i) 0 i f _ _ _ p2 m' M'); [done|lia|done|done|apply Hg|].
      intros p3 m3 Hok3 Hm3. wp_step.
      destruct (pl_free_contiguous f n _ _ _ Hok3) as (p4 & Hrun & Hok4); [lia| |].
      { intros x. change (frames_from f n) with (run_of f 0 n). rewrite elem_of_union, !elem_of_run.
        intros (j & Hj & ->). destruct (decide (j < i)); [left|right]; exists j; split; [lia|done|lia|done]. }
      eapply wp_in_pages; [done|]. wp_step. apply wp_modify. apply wp_ret. apply Hno. cbn.
      refine (hinv_back p4 m3 _ Hm3).
      replace ((run_of f 0 (Z.of_nat (Z.to_nat i)) ∪ run_of f i (Z.of_nat (S k))) ∖ frames_from f n)
        with (∅ : gset Z) in Hok4; [done|].
      symmetry. apply set_eq. intros x. change (frames_from f n) with (run_of f 0 n).
      rewrite elem_of_difference, elem_of_union, !elem_of_run. split; [|by intros ?%elem_of_empty].
      intros [[(j & Hj & ->)|(j & Hj & ->)] Hnot]; exfalso; apply Hnot; exists j; (split; [lia|done]).
Qed.
End direct.

(** What an allocation gives: nothing, or a new block. *)
Definition allocated (A : aheap) (M : gmap Z Z) (size ptr : Z) (h' : heap P) : Prop :=
  (ptr = 0 ∧ hinv h' A M) ∨
  ∃ c b A' M', ptr = c + alloc_header_size ∧ ah_live A !! c = None ∧
    ah_live A' = <[c := b]> (ah_live A) ∧ ah_data A' = ah_data A ∧ block_size b = size ∧
    hinv h' A' M'.

Definition room (h : heap P) : Prop := heap_next h + 2 ^ 28 < 2 ^ 64.

Lemma wp_direct_alloc A M size h :
  hinv h A M → good_size size → room h → wp (direct_alloc size) (allocated A M size) h.
Proof.
  intros Hv Hs Hroom. destruct (direct_pages_count size Hs) as [Hn Hnsz].
  unfold direct_alloc. set (n := align_up (size +! alloc_header_size) PAGE / PAGE) in *. clearbody n.
  unfold good_size, room, alloc_header_size in *.
  assert (heap_next h + n * PAGE < 2 ^ 64) as Hlt by (unfold PAGE in *; lia).
  wp_step. destruct (pl_contiguous n _ _ _ (hv_pages _ _ _ Hv)) as (f & p1 & Hrun & Hf); [lia|].
  eapply wp_in_pages; [done|]. destruct Hf as [[-> Hok]|(Hf0 & _ & Hok)].
  { rewrite Z.eqb_refl. wp_step. left. split; [done|]. destruct Hv. by split. }
  rewrite (proj2 (Z.eqb_neq f 0)) by done. wp_step. apply wp_gets. cbn. wp_step.
  replace (set_pages p1 h) with
    (set_words (words h) (set_heap_next (heap_next h + 0 * PAGE) (set_pages p1 h)))
    by (rewrite Z.mul_0_l, Z.add_0_r; by destruct h).
  eapply (wp_map_direct A M h Hv n f _ (Z.to_nat n) 0 p1 _ M); [done|lia|done|split; [done|lia]|apply mapped_none| | |].
  { replace (Z.of_nat (Z.to_nat n)) with n by lia.
    by replace (run_of f 0 n) with (frames_from f n ∪ ∅ : gset Z) by (rewrite (right_id_L ∅ (∪)); done). }
  2: { intros h' Hv'. cbn [negb]. wp_step. left. done. }
  intros p2 m2 M2 [Hlow Hmap] Hmp Hok2. cbn [negb].
  wp_step. eapply wp_write_header.
  { cbn. replace (heap_next h) with (heap_next h + 8 * 0) by lia. apply Hmap. lia. }
  { apply (Hmap 1). lia. }
  { apply (Hmap 2). lia. }
  cbn. intros m3 Hout Hmono Hm0 Hm8. wp_step. apply wp_on_stats. wp_step. right.
  destruct (field16_bin n MAGIC_DIRECT) as [F0 F16]; [lia|done|].
  destruct (heap_inv_add_direct (bins h) (heap_next h) (words h) m3 A n size) as [Hfresh Hinv'];
    [apply Hv|lia|done| | |].
  { intros a Ha. rewrite Hout by lia. apply Hlow. lia. }
  { split; [eexists; split; [done|]; by split|]. cbn. unfold alloc_header_size. split; [|lia].
    intros k Hk Hkl. apply Hmono, Hmap. unfold PAGE in Hkl. lia. }
  exists (heap_next h), (BDirect n size). eexists _, M2. split; [done|]. split; [done|].
  split; [|split; [|split; [done|]]]; [| |].
  3: { split; cbn; [exact Hinv'|apply Hv|done| |].
    - intros v x Hx. destruct (decide (v < heap_next h + n * PAGE)); [done|].
      rewrite (mp_old _ _ _ _ _ _ Hmp) in Hx; [|unfold PAGE in *; lia].
      apply (hv_map _ _ _ Hv) in Hx. unfold PAGE in *. lia.
    - cbn. intros c k sz [[<- [= <- <-]]|[Hne Hl]]%lookup_insert_Some j Hj.
      + rewrite (mp_new _ _ _ _ _ _ Hmp) by lia. by eexists.
      + destruct (hv_direct _ _ _ Hv _ _ _ Hl j Hj) as [x Hx]. exists x.
        rewrite (mp_old _ _ _ _ _ _ Hmp); [done|]. apply (hv_map _ _ _ Hv) in Hx.
        intros y Hy. unfold PAGE in *. lia. }
  - done.
  - done.
Qed.

Lemma wp_kmalloc_unlocked A M size h :
  hinv h A M → good_size size → room h → wp (kmalloc_unlocked size) (allocated A M size) h.
Proof.
  intros Hv Hs Hroom.
  unfold kmalloc_unlocked. rewrite (proj2 (Z.eqb_neq size 0)) by (unfold good_size in Hs; lia).
  destruct (bin_for_size_cases size Hs) as [[-> _]|(i & -> & Hi & Hfit)].
  { by apply wp_direct_alloc. }
  rewrite (proj2 (Z.leb_le 0 (Z.of_nat i))) by lia. wp_step.
  eapply wp_slab_alloc; [done|done| |].
  { intros h' Hv'. rewrite Z.eqb_refl. wp_step. by left. }
  intros h' A' M' c Ht Hlive Hdata. pose proof Ht as [Hv' (ps & p & fl & Hps & Hp & Hc & _) Hcl].
  assert (c ≠ 0) as Hc0.
  { pose proof (region_in_heap (hv_inv _ _ _ Hv') _ _ (reg_chunk A' i ps p c Hps Hp Hc)) as (Hlo & _).
    unfold HEAP_START in Hlo. lia. }
  rewrite (proj2 (Z.eqb_neq c 0)) by done.
  eapply wp_use_chunk; [done|done|unfold good_size in Hs; lia|done|].
  intros h'' q Hv''. right. exists c, (BSlab i q size). eexists _, M'.
  split; [done|]. split; [by rewrite <-Hlive|].
  split; [|split; [|split; [|exact Hv'']]]; cbn; congruence.
Qed.

(** The interrupt flag is not part of what is proved of the heap. *)
Lemma allocated_ext A M size ptr b h :
  allocated A M size ptr h → allocated A M size ptr (set_if_flag b h).
Proof.
  intros [[? ?]|(c & b' & A' & M' & ? & ? & ? & ? & ? & ?)]; [left|right].
  - split; [done|]. by eapply (hinv_ext h).
  - exists c, b', A', M'. do 5 (split; [done|]). by eapply (hinv_ext h).
Qed.

Lemma wp_kmalloc A M size h :
  hinv h A M → good_size size → room h → wp (kmalloc size) (allocated A M size) h.
Proof.
  intros Hv Hs Hroom. unfold kmalloc, save_if, restore_if. wp_steps.
  eapply wp_mono; [apply wp_kmalloc_unlocked; [by eapply (hinv_ext h)|done|done]|].
  intros ptr h' Ha. wp_steps. by apply allocated_ext.
Qed.

(** ** Freeing *)

Lemma find_slab_run fuel s ps p raw (h : heap P) :
  seg id (words h) s ps 0 → p ∈ ps → (∀ q, q ∈ ps → q `mod` PAGE = 0) →
  p ≤ raw < p + PAGE → (length ps ≤ fuel)%nat → find_slab fuel s raw h = Done (p, h).
Proof.
  intros Hs Hp Hal Hraw. revert s fuel Hs. induction ps as [|q ps IH]; intros s fuel Hs Hf.
  { by apply elem_of_nil in Hp. }
  destruct Hs as (-> & Hq0 & n & Hn & Hs). destruct fuel as [|fuel]; cbn in Hf; [lia|].
  cbn [find_slab]. rewrite (proj2 (Z.eqb_neq q 0)) by done.
  destruct (decide (q = p)) as [->|Hne].
  - by rewrite (proj2 (Z.leb_le p raw)), (proj2 (Z.ltb_lt raw (p + PAGE))) by lia.
  - apply elem_of_cons in Hp as [->|Hp]; [done|].
    assert (q + PAGE ≤ p ∨ p + PAGE ≤ q) as Hap
      by (apply pages_apart; [apply Hal; left|apply Hal; by right|done]).
    assert ((q <=? raw) && (raw <? q + PAGE) = false) as ->.
    { apply andb_false_iff. rewrite Z.leb_gt, Z.ltb_ge. lia. }
    rewrite (run_bind _ _ h n h) by (unfold rd64, get, mbind, prog_bind; by rewrite Hn).
    apply IH; [done| |done|lia]. intros x Hx. apply Hal. by right.
Qed.

(** A block of a slab goes back to the free list of its slab. *)
Lemma wp_free_slab A M c i p sz w h :
  hinv h A M → ah_live A !! c = Some (BSlab i p sz) → words h !! c = Some w → field16 0 w = Z.of_nat i →
  wp (free_slab c w) (λ _ h', ∃ A', hinv h' A' M ∧ ah_live A' = delete c (ah_live A) ∧
    ah_data A' = forget c (bsize i) (ah_data A) ∧
    words h' !! c = words h !! (p + 16) ∧ words h' !! (c + 16) = words h !! (c + 16)) h.
Proof.
  intros Hv Hl Hw Hbin. pose proof (hv_inv _ _ _ Hv) as Hinv.
  destruct (hi_live_slab _ _ _ _ Hinv _ _ _ _ Hl) as (ps & Hps & Hp & Hc & Hnf).
  destruct (hi_slab _ _ _ _ Hinv _ _ _ Hps Hp) as (Ri & Hin & fl & Hfl & Hsk).
  destruct (hi_len _ _ _ _ Hinv) as [Hlb _].
  destruct (chunk_in_page _ _ _ Ri Hc) as (Hc1 & Hc2 & _). pose proof (bsize_real i Ri) as (Hb & _).
  destruct (lookup_lt_is_Some_2 (bins h) i) as [head Hhead]; [rewrite Hlb; destruct Ri; lia|].
  pose proof (hi_bins _ _ _ _ Hinv _ _ _ Hps Hhead) as Hseg.
  unfold free_slab. rewrite Hbin. rewrite (proj2 (Z.leb_gt BIN_COUNT (Z.of_nat i)))
    by (unfold BIN_COUNT; destruct Ri; lia).
  wp_step. apply wp_get. rewrite Nat2Z.id. wp_step. eapply wp_deref; [done|]. wp_step.
  eapply wp_of_run.
  { eapply (find_slab_run _ head ps p); [done|done| |lia|].
    - intros q Hq. by destruct (hi_slab _ _ _ _ Hinv _ _ _ Hps Hq) as (_ & (? & _) & _).
    - eapply seg_length; [done|]. by eapply seg_nodup. }
  assert (p ≠ 0) as Hp0 by (destruct Hin as (_ & Hlo & _); unfold HEAP_START in Hlo; lia).
  rewrite (proj2 (Z.eqb_neq p 0)) by done. cbn beta.
  destruct (sk_count _ _ _ _ Hsk) as (wc & Hwc & Hcnt). destruct (sk_free _ _ _ _ Hsk) as (f & Hf & Hs).
  destruct (hi_live _ _ _ _ Hinv _ _ Hl) as ((w' & Hw' & Hsz & _) & _ & _).
  pose proof (Hnf _ Hfl) as Hcfl.
  wp_step. unfold push_chunk. wp_step. eapply wp_rd64; [done|].
  wp_step. apply wp_wr64; [by eexists|]. cbn.
  wp_step. eapply wp_rd64; [cbn; rewrite lookup_insert_ne by lia; done|].
  wp_step. apply wp_wr64; [cbn; rewrite lookup_insert_eq; by eexists|]. cbn.
  wp_step. apply wp_wr64; [cbn; do 2 apply insert_mono; by eexists|]. cbn.
  wp_step. eapply wp_rd64; [cbn; rewrite !lookup_insert_ne by lia; done|].
  apply wp_wr64; [cbn; do 3 apply insert_mono; by eexists|]. cbn.
  wp_step. eapply wp_rd64; [cbn; rewrite !lookup_insert_ne by lia; done|]. apply wp_on_stats.
  match goal with |- ∃ A', hinv (set_stats _ (set_words ?m _)) _ _ ∧ _ => set (m' := m) end.
  exists (AHeap (ah_slabs A) (<[p := c :: fl]> (ah_free A)) (delete c (ah_live A))
    (forget c (bsize i) (ah_data A))).
  assert (∀ a, a ≠ p + 8 → a ≠ p + 16 → a ≠ c → m' !! a = words h !! a) as Hsame.
  { intros a H8 H16 Hac. unfold m'. by rewrite !lookup_insert_ne. }
  split; [|split; [done|split; [done|split; [|cbn; apply Hsame; lia]]]].
  2: { cbn. unfold m'. rewrite lookup_insert_ne, lookup_insert_ne, lookup_insert_eq by lia. done. }
  assert (∀ a, is_Some (words h !! a) → is_Some (m' !! a)) as Hmono.
  { intros a Ha. unfold m'. by do 4 apply insert_mono. }
  assert (slab_ok m' i p (c :: fl)) as Hsk'.
  { pose proof (free_length _ _ _ _ Ri Hsk) as Hlen. destruct (chunk_count_real i Ri) as [Hcc _].
    pose proof Hsk as [K1 _ _ K4]. split; [auto| | |].
    - eexists. split; [unfold m'; apply lookup_insert_eq|]. rewrite field16_put, Hcnt by done.
      cbn [length]. unfold u16. rewrite Z.mod_small; lia.
    - exists c. unfold m' at 1. rewrite lookup_insert_ne, lookup_insert_eq by lia. split; [done|].
      cbn. split; [done|]. split; [destruct Hin as (_ & Hlo & _); unfold HEAP_START in Hlo; lia|].
      exists f. unfold m' at 1. rewrite lookup_insert_ne, lookup_insert_ne, lookup_insert_eq by lia.
      split; [done|]. eapply seg_ext; [done|]. intros x Hx.
      pose proof (chunk_in_page _ _ _ Ri (K4 x Hx)). rewrite Hsame; [done|lia|lia|]. by intros ->.
    - intros x [->|Hx]%elem_of_cons; [done|]. by apply K4. }
  eapply (hinv_ext (set_words m' h)); try done. apply (hinv_words _ _ h A M); [done| |].
  - eapply (heap_inv_chunk _ _ (words h) _ A i ps p fl (c :: fl) c); try done.
    + intros a H8 H16 Ha. apply Hsame; lia.
    + intros x [->|Hx]%elem_of_cons; [by right|by left].
    + intros c' Hne. cbn. by rewrite lookup_delete_ne.
    + intros b. cbn. by rewrite lookup_delete_eq.
    + cbn. by intros a v Ha%forget_Some.
  - cbn. by intros c' n s [_ ?]%lookup_delete_Some.
Qed.

(** The pages of a direct block are unmapped and freed one by one. *)
Lemma wp_free_pages c n (h0 : heap P) (Q : unit → heap P → Prop) k : ∀ j p' m' M',
  0 ≤ j → j + Z.of_nat k = n → pl_ok p' M' ∅ →
  (∀ x, j ≤ x < n → is_Some (M' !! (c + x * PAGE))) →
  (∀ p'' m'' M'', pl_ok p'' M'' ∅ →
    (∀ a, ¬ (c ≤ a < c + n * PAGE) → m'' !! a = m' !! a) →
    (∀ v f, M'' !! v = Some f → M' !! v = Some f) →
    (∀ v, (∀ x, 0 ≤ x < n → v ≠ c + x * PAGE) → M'' !! v = M' !! v) →
    Q () (set_words m'' (set_pages p'' h0))) →
  wp (for_each (seqZ j (Z.of_nat k)) (λ i,
    phys ← in_pages (po_translate (c + i * PAGE));
    match phys with
    | None => panic "Heap: direct free translation failed"
    | Some phys => unmap_at (c + i * PAGE);; in_pages (po_free_page phys)
    end)) Q (set_words m' (set_pages p' h0)).
Proof.
  induction k as [|k IH]; intros j p' m' M' Hj Hn Hok Hmap HQ.
  - cbn. apply wp_ret. by eapply HQ.
  - rewrite seqZ_cons by lia. replace (Z.pred (Z.of_nat (S k))) with (Z.of_nat k) by lia.
    replace (Z.succ j) with (j + 1) by lia. cbn [for_each]. wp_step. wp_step.
    destruct (Hmap j) as [f Hf]; [lia|].
    eapply wp_in_pages; [by eapply pl_translate|]. cbv beta iota. wp_step.
    eapply wp_unmap_at; [done|done|]. intros p2 Hok2. cbn.
    destruct (pl_free f _ _ _ Hok2) as (p3 & Hrun & Hok3); [set_solver|].
    replace (({[f]} ∪ ∅) ∖ {[f]}) with (∅ : gset Z) in Hok3 by set_solver.
    eapply wp_in_pages; [done|]. cbn.
    apply (IH (j + 1) p3 _ (delete (c + j * PAGE) M')); [lia|lia|done| |].
    + intros x Hx. rewrite lookup_delete_ne by (unfold PAGE; lia). apply Hmap. lia.
    + intros p4 m4 M4 Hok4 Hm4 Hsub Hout. eapply (HQ p4 m4 M4); [done| | |].
      * intros a Ha. rewrite Hm4 by done. apply drop_page_out. unfold PAGE in *. lia.
      * intros v x Hx. apply Hsub in Hx. by apply lookup_delete_Some in Hx as [_ ?].
      * intros v Hv. rewrite Hout by done. apply lookup_delete_ne, not_eq_sym, Hv. lia.
Qed.

Lemma wp_free_direct A M c n sz w h :
  hinv h A M → ah_live A !! c = Some (BDirect n sz) → field16 0 w = n →
  wp (free_direct c w) (λ _ h', ∃ A' M', hinv h' A' M' ∧ ah_live A' = delete c (ah_live A) ∧
    ah_data A' = forget c (n * PAGE) (ah_data A)) h.
Proof.
  intros Hv Hl Hn. pose proof (hv_inv _ _ _ Hv) as Hinv.
  destruct (hi_live_direct _ _ _ _ Hinv _ _ _ Hl) as ((Hmod & Hlo & Hhi) & Hnb & _ & Hother).
  destruct (hi_live _ _ _ _ Hinv _ _ Hl) as ((w' & _ & Hsz & _) & _ & _).
  pose proof (hi_next _ _ _ _ Hinv) as (_ & _ & Hnx). unfold free_direct. rewrite Hn.
  assert (c &! ~! (PAGE - 1) = c) as ->.
  { unfold PAGE, HEAP_START in *. change (4096 - 1) with (2 ^ 12 - 1).
    rewrite land_align_mask by lia. change (2 ^ 12) with 4096.
    rewrite Z.mul_comm, <-Z_div_exact_full_2; [done|lia|done]. }
  wp_step. eapply wp_rd64; [done|]. wp_step.
  replace h with (set_words (words h) (set_pages (pages h) h)) by (by destruct h).
  replace n with (Z.of_nat (Z.to_nat n)) at 1 by lia.
  eapply (wp_free_pages c n h _ (Z.to_nat n) 0 _ _ M); [done|lia|apply Hv| |].
  { intros x Hx. apply (hv_direct _ _ _ Hv _ _ _ Hl). lia. }
  intros p2 m2 M2 Hok2 Hm2 Hsub Hout. apply wp_on_stats.
  exists (AHeap (ah_slabs A) (ah_free A) (delete c (ah_live A)) (forget c (n * PAGE) (ah_data A))), M2.
  split; [|done].
  split; cbn; [|apply Hv|done| |].
  - eapply heap_inv_remove_direct; [done|done|done].
  - intros v f Hf. apply Hsub in Hf. by eapply hv_map.
  - intros c' n' sz' [Hne Hl']%lookup_delete_Some k Hk.
    rewrite Hout; [by eapply hv_direct|]. intros x Hx.
    destruct (Hother _ _ _ Hl' (not_eq_sym Hne)); unfold PAGE in *; lia.
Qed.

(** What freeing the block at [c] leaves. *)
Definition freed (A : aheap) (c : Z) (b : block) (h' : heap P) : Prop :=
  ∃ A' M', hinv h' A' M' ∧ ah_live A' = delete c (ah_live A) ∧
    ah_data A' = forget c (block_len b) (ah_data A).

(** Which routine the header of a live block selects. *)
Lemma wp_kfree_header fuel A M c b (Q : unit → heap P → Prop) h :
  hinv h A M → ah_live A !! c = Some b →
  (∀ w, words h !! c = Some w →
    match b with
    | BSlab i _ _ => field16 0 w = Z.of_nat i → wp (free_slab c w) Q h
    | BDirect n _ => field16 0 w = n → wp (free_direct c w) Q h
    end) →
  wp (kfree_unlocked fuel (c + alloc_header_size)) Q h.
Proof.
  intros Hv Hl HQ. pose proof (hv_inv _ _ _ Hv) as Hinv.
  pose proof (region_in_heap Hinv _ _ (live_region Hinv _ _ Hl)) as (Hlo & Hhi & _).
  pose proof (hi_next _ _ _ _ Hinv) as (_ & _ & Hnx).
  destruct (hi_live _ _ _ _ Hinv _ _ Hl) as ((w & Hw & _ & Hkind) & _ & Hbs).
  specialize (HQ w Hw). unfold alloc_header_size, HEAP_START in *.
  destruct fuel as [|fuel]; cbn [kfree_unlocked];
    rewrite (proj2 (Z.eqb_neq (c + 24) 0)) by lia; unfold alloc_header_size;
    replace (c + 24 -! 24) with c by (rewrite u64_small; lia);
    wp_step; (eapply wp_rd64; [done|]); destruct b as [i p sz|n sz];
    destruct Hkind as [Hbin ->]; cbn [Z.eqb Pos.eqb];
    change (MAGIC_ALLOC =? MAGIC_FREE) with false; change (MAGIC_ALLOC =? MAGIC_ALIGNED) with false;
    change (MAGIC_ALLOC =? MAGIC_ALLOC) with true; change (MAGIC_DIRECT =? MAGIC_FREE) with false;
    change (MAGIC_DIRECT =? MAGIC_ALIGNED) with false; change (MAGIC_DIRECT =? MAGIC_ALLOC) with false;
    change (MAGIC_DIRECT =? MAGIC_DIRECT) with true; cbv iota; by apply HQ.
Qed.

Lemma wp_kfree_unlocked fuel A M c b h :
  hinv h A M → ah_live A !! c = Some b →
  wp (kfree_unlocked fuel (c + alloc_header_size)) (λ _, freed A c b) h.
Proof.
  intros Hv Hl. eapply wp_kfree_header; [done|done|]. intros w Hw. destruct b as [i p sz|n sz]; intros Hbin.
  - eapply wp_mono; [by eapply wp_free_slab|]. intros _ h' (A' & Hv' & Hl' & Hd' & _). by exists A', M.
  - by eapply wp_free_direct.
Qed.
End blocks.
