(* ===== verification/HeapUse.v ===== *)
(** * The heap's other operations

    Stores of the owners of blocks, clearing and copying, [krealloc] and
    [kmalloc_aligned], on top of [kmalloc] and [kfree]. *)

From S2P Require Import Prelude Bits Links Heap HeapSpec HeapRun HeapBlocks.

Definition with_data (A : aheap) (d : gmap Z Z) : aheap :=
  AHeap (ah_slabs A) (ah_free A) (ah_live A) d.

Lemma with_data_id A : with_data A (ah_data A) = A.
Proof. by destruct A. Qed.

Lemma seqZ_split n l i rest : seqZ 0 n = l ++ i :: rest → i = 0 + Z.of_nat (length l) ∧ Z.of_nat (length l) < n.
Proof.
  intros E. assert (seqZ 0 n !! length l = Some i) as Hi by (by rewrite E, list_lookup_middle).
  apply lookup_seqZ in Hi. lia.
Qed.

Lemma align_up_pow v k : 0 ≤ k < 64 → 0 ≤ v → v + 2 ^ k < 2 ^ 64 →
  v ≤ align_up v (2 ^ k) < v + 2 ^ k ∧ align_up v (2 ^ k) `mod` 2 ^ k = 0.
Proof.
  intros Hk Hv Hlt. assert (0 < 2 ^ k) by (apply Z.pow_pos_nonneg; lia).
  unfold align_up. rewrite (u64_small (v + 2 ^ k)), (u64_small (v + _ - 1)) by lia.
  rewrite (u64_small (2 ^ k - 1)) by lia. rewrite land_align_mask by lia.
  pose proof (Z.div_mod (v + 2 ^ k - 1) (2 ^ k) ltac:(lia)).
  pose proof (Z.mod_pos_bound (v + 2 ^ k - 1) (2 ^ k) ltac:(lia)).
  split; [lia|]. apply Z_mod_mult.
Qed.

Lemma pow_of_two k : 0 ≤ k < 64 → is_power_of_two (2 ^ k) = true.
Proof.
  intros Hk. assert (0 < 2 ^ k) by (apply Z.pow_pos_nonneg; lia).
  assert (2 ^ k < 2 ^ 64) by (apply Z.pow_lt_mono_r; lia).
  unfold is_power_of_two. rewrite (proj2 (Z.eqb_neq _ 0)) by lia. cbn [negb andb].
  rewrite u64_small by lia. replace (2 ^ k - 1) with (Z.ones k) by (rewrite Z.ones_equiv; lia).
  rewrite Z.land_ones, Z_mod_same_full by lia. done.
Qed.

Lemma multiple_mod_8 k x : 3 ≤ k → x `mod` 2 ^ k = 0 → x `mod` 8 = 0.
Proof.
  intros Hk Hx. assert (0 < 2 ^ k) by (apply Z.pow_pos_nonneg; lia).
  rewrite (Z.div_mod x (2 ^ k)), Hx, Z.add_0_r by lia.
  replace k with (3 + (k - 3)) at 1 by lia. rewrite Z.pow_add_r by lia. change (2 ^ 3) with 8.
  rewrite <-Z.mul_assoc, Z.mul_comm. apply Z_mod_mult.
Qed.

Section use.
Context {P : Type} `{PageLaws P}.
Abbreviation HM := (prog (heap P)).

(** Blocks are made of whole words. *)
Lemma live_words h A M c b : hinv h A M → ah_live A !! c = Some b →
  c `mod` 8 = 0 ∧ block_len b `mod` 8 = 0 ∧ HEAP_START ≤ c ∧ c + block_len b < 2 ^ 64.
Proof.
  intros Hv Hl. pose proof (hv_inv _ _ _ Hv) as Hinv.
  pose proof (region_in_heap Hinv _ _ (live_region Hinv _ _ Hl)) as (Hlo & Hhi & _).
  pose proof (hi_next _ _ _ _ Hinv) as (_ & _ & Hnx).
  assert (c `mod` 8 = 0 ∧ block_len b `mod` 8 = 0) as [? ?]; [|split_and!; [done|done|done|lia]].
  destruct b as [i p sz|n sz]; cbn [block_len].
  - destruct (hi_live_slab _ _ _ _ Hinv _ _ _ _ Hl) as (ps & Hps & Hp & (k & Hk & ->) & _).
    destruct (hi_slab _ _ _ _ Hinv _ _ _ Hps Hp) as (Ri & [Hmod _] & _).
    pose proof (page_mod_8 _ Hmod). pose proof (bsize_real i Ri) as (_ & Hb & _).
    split; [|done]. unfold slab_header_size.
    rewrite Z.add_mod, (Z.add_mod p 24), Z.mul_mod, H1, Hb, Z.mul_0_r by lia. done.
  - destruct (hi_live_direct _ _ _ _ Hinv _ _ _ Hl) as ((Hmod & _ & _) & _).
    split; [by apply page_mod_8|]. unfold PAGE. rewrite Z.mul_mod by lia. by rewrite Z.mul_0_r.
Qed.

Lemma live_mapped h A M c b a : hinv h A M → ah_live A !! c = Some b →
  c ≤ a < c + block_len b → a `mod` 8 = 0 → is_Some (words h !! a).
Proof.
  intros Hv Hl Ha Hm. destruct (live_words _ _ _ _ _ Hv Hl) as (Hc & _).
  destruct (hi_live _ _ _ _ (hv_inv _ _ _ Hv) _ _ Hl) as (_ & Hmap & _).
  rewrite (multiple_of_8 c a) in Ha |- * by done. apply Hmap; lia.
Qed.

(** The owner of a block stores a word. *)
Lemma wp_store A M c b a v (Q : unit → heap P → Prop) h :
  hinv h A M → ah_live A !! c = Some b → c + alloc_header_size ≤ a < c + block_len b →
  a `mod` 8 = 0 →
  (hinv (set_words (<[a := v]> (words h)) h) (with_data A (<[a := v]> (ah_data A))) M →
    Q () (set_words (<[a := v]> (words h)) h)) → wp (wr64 a v) Q h.
Proof.
  intros Hv Hl Ha Hm HQ.
  assert (is_Some (words h !! a)) as Hs.
  { eapply live_mapped; [done|done| |done]. unfold alloc_header_size in Ha. lia. }
  apply wp_wr64; [done|]. apply HQ. eapply hinv_words; [done| |done].
  by eapply heap_inv_store; [apply Hv|..].
Qed.

(** ** Clearing and copying *)

(** [k] words have been written from [dst] on, inside [n] bytes. *)
Record copied (h : heap P) (A : aheap) (M : gmap Z Z) (good : Z → Z → Prop) (dst n k : Z)
    (d : gmap Z Z) (h' : heap P) : Prop := {
  cp_inv : hinv h' (with_data A d) M;
  cp_data : ∀ x, ¬ (dst ≤ x < dst + n) → d !! x = ah_data A !! x;
  cp_words : ∀ x, ¬ (dst ≤ x < dst + n) → words h' !! x = words h !! x;
  cp_val : ∀ i, 0 ≤ i < k → ∃ v, d !! (dst + 8 * i) = Some v ∧ good i v;
}.

Section copy.
Context (h : heap P) (A : aheap) (M : gmap Z Z) (c : Z) (b : block) (good : Z → Z → Prop) (dst n : Z).
Context (Hl : ah_live A !! c = Some b) (Hlo : c + alloc_header_size ≤ dst)
  (Hhi : dst + n ≤ c + block_len b) (Hmod : dst `mod` 8 = 0).

Lemma copied_step k v d h' (Q : unit → heap P → Prop) :
  copied h A M good dst n k d h' → 0 ≤ k → 8 * k < n →
  (∀ d', copied h A M good dst n k d' (set_words (<[dst + 8 * k := v]> (words h')) h') →
    d' !! (dst + 8 * k) = Some v → Q () (set_words (<[dst + 8 * k := v]> (words h')) h')) →
  wp (wr64 (dst + 8 * k) v) Q h'.
Proof.
  intros [C1 C2 C3 C4] Hk Hkn HQ. unfold alloc_header_size in *.
  eapply (wp_store _ M c b _ _ _ _ C1 Hl); unfold alloc_header_size; [lia| |].
  { by rewrite (Z.mul_comm 8), Z_mod_plus_full. }
  intros Hv. apply (HQ (<[dst + 8 * k := v]> d)); [|apply lookup_insert_eq].
  split; cbn; [exact Hv|..].
  - intros x Hx. rewrite lookup_insert_ne by lia. auto.
  - intros x Hx. rewrite lookup_insert_ne by lia. auto.
  - intros i Hi. rewrite lookup_insert_ne by lia. auto.
Qed.

Lemma wp_copy_bytes (src : Z → HM Z) (Q : unit → heap P → Prop) :
  hinv h A M → 0 ≤ n →
  (∀ h' d i k, copied h A M good dst n k d h' → 0 ≤ i → 8 * i < n →
    wp (src (8 * i)) (λ v h'', h'' = h' ∧ good i v) h') →
  (∀ h' d, copied h A M good dst n (n / 8) d h' → Q () h') →
  wp (copy_bytes dst n src) Q h.
Proof.
  intros Hv Hn Hsrc HQ. unfold copy_bytes. wp_step.
  pose proof (Z.div_mod n 8 ltac:(lia)) as Hdm. pose proof (Z.mod_pos_bound n 8 ltac:(lia)) as Hb.
  apply (wp_for_each (λ l h', ∃ d, copied h A M good dst n (Z.of_nat (length l)) d h')).
  - exists (ah_data A). split; [by rewrite with_data_id|done|done|]. cbn. lia.
  - intros l i rest h' Hseq (d & Hc). apply seqZ_split in Hseq as (Hi & Hlen). rewrite Z.add_0_l in Hi.
    subst i. assert (8 * Z.of_nat (length l) < n) by lia.
    wp_step. eapply wp_mono; [eapply Hsrc; [done|lia|done]|]. intros v h'' [-> Hgood].
    eapply copied_step; [done|lia|done|]. intros d' [C1 C2 C3 C4] Hd'. exists d'.
    rewrite length_app. cbn. split; [done|done|done|]. intros j Hj.
    destruct (decide (j = Z.of_nat (length l))) as [->|]; [by eauto|]. apply C4. lia.
  - intros h' (d & Hc). rewrite length_seqZ, Z2Nat.id in Hc by (apply Z.div_pos; lia).
    apply wp_when; intros Hrem.
    2: by eapply HQ.
    assert (n - n `mod` 8 = 8 * (n / 8)) as -> by lia.
    apply negb_true_iff, Z.eqb_neq in Hrem.
    wp_step. eapply wp_mono; [eapply Hsrc; [done|apply Z.div_pos; lia|lia]|]. intros v h'' [-> _].
    wp_step. destruct (live_mapped h' _ M c b (dst + 8 * (n / 8)) (cp_inv _ _ _ _ _ _ _ _ _ Hc) Hl)
      as [old Hold].
    { unfold alloc_header_size in Hlo. lia. }
    { by rewrite (Z.mul_comm 8), Z_mod_plus_full. }
    eapply wp_rd64; [done|]. eapply copied_step; [done|apply Z.div_pos; lia|lia|].
    intros d' Hc' _. by eapply HQ.
Qed.
End copy.

(** A block whose contents are zero. *)
Definition zeroed (A : aheap) (M : gmap Z Z) (size ptr : Z) (h' : heap P) : Prop :=
  (ptr = 0 ∧ hinv h' A M) ∨
  ∃ c b A' M', ptr = c + alloc_header_size ∧ ah_live A !! c = None ∧
    ah_live A' = <[c := b]> (ah_live A) ∧ block_size b = size ∧ hinv h' A' M' ∧
    (∀ x, ¬ (ptr ≤ x < ptr + size) → ah_data A' !! x = ah_data A !! x) ∧
    (∀ i, 0 ≤ i < size / 8 → ah_data A' !! (ptr + 8 * i) = Some 0).

Lemma wp_kzalloc A M size h :
  hinv h A M → good_size size → room h → wp (kzalloc size) (zeroed A M size) h.
Proof.
  intros Hv Hs Hroom. unfold kzalloc. wp_step. eapply wp_mono; [by apply wp_kmalloc|].
  intros ptr h1 [[-> Hv1]|(c & b & A1 & M1 & -> & Hc & Hl & Hd & Hsz & Hv1)].
  { wp_step. by left. }
  assert (ah_live A1 !! c = Some b) as Hcb by (by rewrite Hl, lookup_insert_eq).
  destruct (live_words _ _ _ _ _ Hv1 Hcb) as (Hm & Hlen & Hlo & Hhi).
  destruct (hi_live _ _ _ _ (hv_inv _ _ _ Hv1) _ _ Hcb) as (_ & _ & Hbs).
  unfold HEAP_START, alloc_header_size, good_size in *.
  rewrite (proj2 (Z.eqb_neq _ 0)) by lia. cbn [negb]. wp_step. unfold when, memset_zero.
  eapply (wp_copy_bytes h1 A1 M1 c b (λ _ v, v = 0)); unfold alloc_header_size; [done|lia|lia| |done|lia|..].
  { rewrite Z.add_mod, Hm by lia. done. }
  { intros h' d i k Hcp Hi Hin. by wp_step. }
  intros h' d [C1 C2 C3 C4]. wp_step. right. exists c, b, (with_data A1 d), M1.
  do 3 (split; [done|]). split; [done|]. split; [done|]. cbn. split.
  - intros x Hx. rewrite C2 by done. by rewrite Hd.
  - intros i Hi. by destruct (C4 i Hi) as (v & ? & ->).
Qed.

(** ** Changing the size of a block *)

(** The header of a live block tells what the block can hold. *)
Definition header_of (b : block) (w : Z) : Prop :=
  match b with
  | BSlab i _ _ => field16 0 w = Z.of_nat i ∧ field16 16 w = MAGIC_ALLOC
  | BDirect n _ => field16 0 w = n ∧ field16 16 w = MAGIC_DIRECT
  end.

Lemma live_header h A M c b : hinv h A M → ah_live A !! c = Some b →
  ∃ w, words h !! c = Some w ∧ header_of b w.
Proof.
  intros Hv Hl. destruct (hi_live _ _ _ _ (hv_inv _ _ _ Hv) _ _ Hl) as ((w & Hw & _ & Hk) & _).
  by exists w.
Qed.

Definition capacity (b : block) : Z := block_len b - alloc_header_size.

Lemma capacity_direct h A M c n sz : hinv h A M → ah_live A !! c = Some (BDirect n sz) →
  n * PAGE -! alloc_header_size = capacity (BDirect n sz).
Proof.
  intros Hv Hl. destruct (hi_live_direct _ _ _ _ (hv_inv _ _ _ Hv) _ _ _ Hl) as (_ & Hn & _).
  unfold capacity, alloc_header_size, PAGE. cbn [block_len]. unfold PAGE. apply u64_small. lia.
Qed.

Lemma wp_usable h A M c i p sz (Q : Z → heap P → Prop) h' :
  hinv h A M → ah_live A !! c = Some (BSlab i p sz) → Q (capacity (BSlab i p sz)) h' →
  wp (usable (Z.of_nat i)) Q h'.
Proof.
  intros Hv Hl HQ. destruct (hi_live_slab _ _ _ _ (hv_inv _ _ _ Hv) _ _ _ _ Hl) as (ps & Hps & Hp & _).
  destruct (hi_slab _ _ _ _ (hv_inv _ _ _ Hv) _ _ _ Hps Hp) as (Ri & _).
  pose proof (bsize_real i Ri) as (Hb & _ & Hlook). unfold usable. wp_step.
  eapply wp_deref; [by rewrite Nat2Z.id|]. wp_step. unfold alloc_header_size.
  rewrite u64_small by lia. done.
Qed.

(** A block that holds the new size already. *)
Lemma hinv_resize h A M c b n : hinv h A M → ah_live A !! c = Some b → 0 < n ≤ capacity b →
  hinv (set_words (<[c + 8 := n]> (words h)) h)
    (AHeap (ah_slabs A) (ah_free A) (<[c := resize b n]> (ah_live A)) (ah_data A)) M.
Proof.
  intros Hv Hl Hn. pose proof (hv_inv _ _ _ Hv) as Hinv. unfold capacity, alloc_header_size in Hn.
  destruct (hi_live _ _ _ _ Hinv _ _ Hl) as ((w & Hw & Hsz & Hk) & Hmap & Hbs).
  assert (∀ y, is_Some (words h !! y) → is_Some (<[c + 8 := n]> (words h) !! y)) as Hmono
    by (intros y; apply insert_mono).
  destruct Hv as [V1 V2 V3 V4 V5]. split; cbn; [|done|done|done|].
  - eapply heap_inv_own; [done|done| |done| |].
    + intros y Hy. rewrite lookup_insert_ne; [done|lia].
    + split; [|split].
      * exists w. rewrite lookup_insert_ne, lookup_insert_eq by lia. by destruct b.
      * rewrite resize_len. auto.
      * rewrite resize_len. destruct b; cbn in *; unfold alloc_header_size; lia.
    + intros a v Ha. left. split; [done|]. rewrite lookup_insert_ne; [done|]. intros <-.
      destruct (hi_data _ _ _ _ Hinv _ _ Ha) as (_ & c' & b' & Hl' & Hr'). unfold alloc_header_size in Hr'.
      destruct (decide (c' = c)) as [->|Hne]; [lia|].
      pose proof (regions_disjoint Hinv _ _ _ _ (live_region Hinv _ _ Hl') (live_region Hinv _ _ Hl) Hne).
      lia.
  - intros c' k sz [[<- Hb]|[_ Hl']]%lookup_insert_Some; [|by eapply V5].
    destruct b; [done|]. injection Hb as <- <-. by eapply V5.
Qed.

Definition reallocated (A : aheap) (M : gmap Z Z) (c : Z) (b : block) (n ptr : Z) (h' : heap P) : Prop :=
  (ptr = 0 ∧ hinv h' A M) ∨
  ∃ c' b' A' M', ptr = c' + alloc_header_size ∧ (c' = c ∨ ah_live A !! c' = None) ∧
    ah_live A' = <[c' := b']> (delete c (ah_live A)) ∧ block_size b' = n ∧ hinv h' A' M' ∧
    (∀ x, ¬ (c' ≤ x < c' + block_len b') →
      ah_data A' !! x = forget c (block_len b) (ah_data A) !! x) ∧
    (∀ i v, 0 ≤ i → 8 * i + 8 ≤ n → 8 * i + 8 ≤ capacity b →
      ah_data A !! (c + alloc_header_size + 8 * i) = Some v → ah_data A' !! (ptr + 8 * i) = Some v).

(** The contents of one block go to another, and the first is freed. *)
Lemma wp_move A M c b c1 b1 h :
  hinv h A M → ah_live A !! c = Some b → ah_live A !! c1 = Some b1 → c1 ≠ c →
  capacity b ≤ capacity b1 →
  wp (memcpy (c1 + alloc_header_size) (c + alloc_header_size) (capacity b);;
      fuel ← free_fuel; kfree_unlocked fuel (c + alloc_header_size);;
      mret (c1 + alloc_header_size))
    (λ r h', r = c1 + alloc_header_size ∧ ∃ A' M', hinv h' A' M' ∧ ah_live A' = delete c (ah_live A) ∧
      (∀ x, ¬ (c1 ≤ x < c1 + block_len b1) →
        ah_data A' !! x = forget c (block_len b) (ah_data A) !! x) ∧
      (∀ i v, 0 ≤ i → 8 * i + 8 ≤ capacity b →
        ah_data A !! (c + alloc_header_size + 8 * i) = Some v →
        ah_data A' !! (c1 + alloc_header_size + 8 * i) = Some v)) h.
Proof.
  intros Hv Hl Hl1 Hne Hcap. pose proof (hv_inv _ _ _ Hv) as Hinv.
  pose proof (regions_disjoint Hinv _ _ _ _ (live_region Hinv _ _ Hl1) (live_region Hinv _ _ Hl) Hne) as Hdis.
  destruct (live_words _ _ _ _ _ Hv Hl1) as (Hm1 & _). destruct (live_words _ _ _ _ _ Hv Hl) as (Hm & _).
  destruct (hi_live _ _ _ _ Hinv _ _ Hl) as (_ & _ & Hbs).
  unfold capacity, alloc_header_size in *. wp_step. unfold memcpy.
  eapply (wp_copy_bytes h A M c1 b1 (λ i v, words h !! (c + 24 + 8 * i) = Some v));
    unfold alloc_header_size; [done|lia|lia| |done|lia|..].
  { rewrite Z.add_mod, Hm1 by lia. done. }
  { intros h' d i k [C1 C2 C3 C4] Hi Hin.
    destruct (live_mapped h' _ M c b (c + 24 + 8 * i) C1 Hl) as [v Hv']; [lia| |].
    { rewrite (Z.mul_comm 8), Z_mod_plus_full, Z.add_mod, Hm by lia. done. }
    eapply wp_rd64; [done|]. split; [done|]. rewrite <-Hv'. symmetry. apply C3. lia. }
  intros h' d [C1 C2 C3 C4]. unfold free_fuel. wp_steps.
  eapply wp_mono; [eapply (wp_kfree_unlocked _ _ _ c b); [exact C1|done]|].
  intros _ h2 (A2 & M2 & Hv2 & Hl2 & Hd2). wp_step. split; [done|]. exists A2, M2.
  split; [done|]. split; [done|]. rewrite Hd2. cbn. split.
  - intros x Hx. unfold forget. apply option_eq. intros v.
    rewrite !map_lookup_filter_Some. by rewrite C2 by lia.
  - intros i v Hi Hin Hdat. apply forget_Some. split; [|lia].
    destruct (C4 i) as (v' & -> & Hw).
    { pose proof (Z.div_mod (block_len b - 24) 8 ltac:(lia)).
      pose proof (Z.mod_pos_bound (block_len b - 24) 8 ltac:(lia)). lia. }
    destruct (hi_data _ _ _ _ Hinv _ _ Hdat) as (Hw' & _). congruence.
Qed.

(** What [krealloc] reads from the header: whether the new size fits, and how
    much there is to copy. *)
Lemma wp_fits h A M c b w n (Q : bool → heap P → Prop) h' :
  hinv h A M → ah_live A !! c = Some b → header_of b w → Q (n <=? capacity b) h' →
  wp (if field16 16 w =? MAGIC_DIRECT then mret (n <=? field16 0 w * PAGE -! alloc_header_size)
      else if field16 16 w =? MAGIC_ALLOC then u ← usable (field16 0 w); mret (n <=? u)
      else mret false) Q h'.
Proof.
  intros Hv Hl Hw HQ. destruct b as [i p sz|k sz]; destruct Hw as [-> ->].
  - change (MAGIC_ALLOC =? MAGIC_DIRECT) with false. rewrite Z.eqb_refl. wp_step.
    eapply wp_usable; [done|done|]. by wp_step.
  - rewrite Z.eqb_refl. wp_step. by rewrite (capacity_direct _ _ _ _ _ _ Hv Hl).
Qed.

Lemma wp_copy_size h A M c b w (Q : Z → heap P → Prop) h' :
  hinv h A M → ah_live A !! c = Some b → header_of b w → Q (capacity b) h' →
  wp (if field16 16 w =? MAGIC_DIRECT then mret (field16 0 w * PAGE -! alloc_header_size)
      else usable (field16 0 w)) Q h'.
Proof.
  intros Hv Hl Hw HQ. destruct b as [i p sz|k sz]; destruct Hw as [-> ->].
  - change (MAGIC_ALLOC =? MAGIC_DIRECT) with false. by eapply wp_usable.
  - rewrite Z.eqb_refl. wp_step. by rewrite (capacity_direct _ _ _ _ _ _ Hv Hl).
Qed.

Lemma wp_krealloc_unlocked A M c b n h :
  hinv h A M → ah_live A !! c = Some b → good_size n → room h →
  wp (krealloc_unlocked (c + alloc_header_size) n) (reallocated A M c b n) h.
Proof.
  intros Hv Hl Hn Hroom. destruct (live_words _ _ _ _ _ Hv Hl) as (_ & _ & Hlo & Hhi).
  destruct (hi_live _ _ _ _ (hv_inv _ _ _ Hv) _ _ Hl) as (_ & _ & Hbs).
  destruct (live_header _ _ _ _ _ Hv Hl) as (w & Hw & Hhd). unfold good_size in Hn.
  assert (c + alloc_header_size -! alloc_header_size = c) as Hraw.
  { unfold alloc_header_size, HEAP_START in *. rewrite u64_small; lia. }
  unfold krealloc_unlocked. rewrite Hraw, !(proj2 (Z.eqb_neq _ 0)) by (unfold alloc_header_size, HEAP_START in *; lia).
  wp_step. unfold free_fuel at 1. wp_step. cbn beta. wp_step. eapply wp_rd64; [done|]. wp_step. eapply wp_fits; [done|done|done|].
  destruct (Z.leb_spec n (capacity b)) as [Hle|Hgt].
  { wp_step. apply wp_wr64; [eapply live_mapped; [done|done|unfold alloc_header_size in *; lia|]|].
    { destruct (live_words _ _ _ _ _ Hv Hl) as (Hm & _). by rewrite Z.add_mod, Hm by lia. }
    wp_step. right. exists c, (resize b n). eexists _, M. split; [done|]. split; [by left|].
    split; [|split; [|split; [exact (hinv_resize h A M c b n Hv Hl ltac:(lia))|]]]; cbn.
    - by rewrite insert_delete_eq.
    - by destruct b.
    - rewrite resize_len. split; [|by eauto]. intros x Hx. apply option_eq. intros v.
      rewrite forget_Some. naive_solver. }
  wp_step. eapply wp_mono; [by apply wp_kmalloc_unlocked|].
  intros ptr h1 [[-> Hv1]|(c1 & b1 & A1 & M1 & -> & Hc1 & Hl1 & Hd1 & Hsz & Hv1)].
  { rewrite Z.eqb_refl. wp_step. by left. }
  assert (c1 ≠ c) as Hne by congruence.
  assert (ah_live A1 !! c = Some b) as Hcb by (by rewrite Hl1, lookup_insert_ne).
  assert (ah_live A1 !! c1 = Some b1) as Hcb1 by (by rewrite Hl1, lookup_insert_eq).
  destruct (live_words _ _ _ _ _ Hv1 Hcb1) as (_ & _ & Hlo1 & _).
  rewrite (proj2 (Z.eqb_neq _ 0)) by (unfold alloc_header_size, HEAP_START in *; lia).
  destruct (live_header _ _ _ _ _ Hv1 Hcb) as (w1 & Hw1 & Hhd1).
  destruct (hi_live _ _ _ _ (hv_inv _ _ _ Hv1) _ _ Hcb1) as (_ & _ & Hbs1).
  wp_step. eapply wp_rd64; [done|]. wp_step. eapply (wp_copy_size h1 A1 M1 c b w1); [done..|].
  rewrite (proj2 (Z.ltb_ge n (capacity b))) by lia.
  eapply wp_mono; [eapply (wp_move A1 M1 c b c1 b1); [done|done|done|done|unfold capacity in *; lia]|].
  intros r h2 (-> & A2 & M2 & Hv2 & Hl2 & Hout & Hin). right. exists c1, b1, A2, M2.
  split; [done|]. split; [by right|]. rewrite Hl2, Hl1, <-Hd1.
  split; [by rewrite delete_insert_ne|]. do 3 (split; [done|]). intros i v Hi _ Hi' Hv'. by apply Hin.
Qed.

Lemma reallocated_ext A M c b n ptr x h :
  reallocated A M c b n ptr h → reallocated A M c b n ptr (set_if_flag x h).
Proof.
  intros [[-> Hv']|(c' & b' & A' & M' & H1 & H2 & H3 & H4 & Hv' & H5)]; [left|right].
  - split; [done|]. by eapply (hinv_ext h).
  - exists c', b', A', M'. do 4 (split; [done|]). split; [|done]. by eapply (hinv_ext h).
Qed.

Lemma wp_krealloc A M c b n h :
  hinv h A M → ah_live A !! c = Some b → good_size n → room h →
  wp (krealloc (c + alloc_header_size) n) (reallocated A M c b n) h.
Proof.
  intros Hv Hl Hn Hroom. unfold krealloc, save_if, restore_if. wp_steps.
  eapply wp_mono; [eapply wp_krealloc_unlocked; [by eapply (hinv_ext h)|done|done|done]|].
  intros ptr h' Hr. wp_steps. by apply reallocated_ext.
Qed.

(** ** Aligned blocks *)

Lemma wp_past_header fuel al raw a (Q : Z → heap P → Prop) h :
  8 ≤ a → a `mod` 8 = 0 → 0 ≤ raw → raw + 16 + a < 2 ^ 64 →
  24 - 8 * Z.of_nat fuel ≤ al - raw → raw ≤ al ≤ raw + 16 + a → (al - raw) `mod` 8 = 0 →
  al `mod` a = 0 →
  (∀ r, raw + 24 ≤ r ≤ raw + 16 + a → r `mod` a = 0 → Q r h) →
  wp (past_header fuel al raw a) Q h.
Proof.
  intros Ha Ha8 Hraw Hlt. revert al. induction fuel as [|fuel IH]; intros al Hf Hal H8 Hmod HQ;
    cbn [past_header]; rewrite u64_small by lia; unfold alloc_header_size;
    (destruct (Z.leb_spec 24 (al - raw)); [wp_step; by apply HQ; [lia|]|]); [lia|].
  assert (al - raw ≤ 16) as Hle.
  { pose proof (Z.div_mod (al - raw) 8 ltac:(lia)). lia. }
  rewrite u64_small by lia. apply IH; [lia|lia| | |done].
  - replace (al + a - raw) with (al - raw + a) by lia. rewrite Z.add_mod, H8, Ha8 by lia. done.
  - rewrite Z.add_mod, Hmod, Z_mod_same_full by lia. apply Z.mod_0_l. lia.
Qed.

(** The header of an aligned block lies among the contents of the block it was
    cut from. *)
Definition aligned_header (A : aheap) (c ptr : Z) : Prop :=
  c + 2 * alloc_header_size ≤ ptr ∧
  (∃ w, ah_data A !! (ptr - alloc_header_size) = Some w ∧ field16 16 w = MAGIC_ALIGNED) ∧
  ah_data A !! (ptr - 8) = Some (c + alloc_header_size).

Definition aligned_block (A : aheap) (M : gmap Z Z) (size a ptr : Z) (h' : heap P) : Prop :=
  (ptr = 0 ∧ hinv h' A M) ∨
  ∃ c b A' M', ah_live A !! c = None ∧ ah_live A' = <[c := b]> (ah_live A) ∧ hinv h' A' M' ∧
    ptr `mod` a = 0 ∧ aligned_header A' c ptr ∧ ptr + size + 8 ≤ c + block_len b ∧
    (∀ x, ¬ (c ≤ x < c + block_len b) → ah_data A' !! x = ah_data A !! x).

Lemma wp_kmalloc_aligned A M size k h :
  hinv h A M → 3 ≤ k < 28 → 0 ≤ size → good_size (size + 2 ^ k + alloc_header_size) → room h →
  wp (kmalloc_aligned size (2 ^ k)) (aligned_block A M size (2 ^ k)) h.
Proof.
  intros Hv Hk Hs Hg Hroom. assert (2 ^ 3 ≤ 2 ^ k) as Hk8 by (apply Z.pow_le_mono_r; lia).
  change (2 ^ 3) with 8 in Hk8. assert (2 ^ k `mod` 8 = 0) as Ha8.
  { apply (multiple_mod_8 k); [lia|]. apply Z_mod_same_full. }
  pose proof Hg as Hg'. unfold good_size, alloc_header_size in Hg'.
  unfold kmalloc_aligned. rewrite (proj2 (Z.ltb_ge _ 8)) by lia. rewrite pow_of_two by lia. cbn [negb].
  rewrite (u64_small (size + 2 ^ k)), u64_small by (unfold alloc_header_size; lia).
  wp_step. eapply wp_mono; [by apply wp_kmalloc|].
  intros ptr h1 [[-> Hv1]|(c & b & A1 & M1 & -> & Hc & Hl & Hd & Hsz & Hv1)].
  { rewrite Z.eqb_refl. wp_step. by left. }
  assert (ah_live A1 !! c = Some b) as Hcb by (by rewrite Hl, lookup_insert_eq).
  destruct (live_words _ _ _ _ _ Hv1 Hcb) as (Hm & Hlen & Hlo & Hhi).
  destruct (hi_live _ _ _ _ (hv_inv _ _ _ Hv1) _ _ Hcb) as (_ & _ & Hbs). rewrite Hsz in Hbs.
  unfold HEAP_START, alloc_header_size in *. rewrite (proj2 (Z.eqb_neq _ 0)) by lia.
  assert ((c + 24) `mod` 8 = 0) as Hr8 by (rewrite Z.add_mod, Hm by lia; done).
  destruct (align_up_pow (c + 24) k) as [Hup Hupm]; [lia|lia|lia|].
  wp_step. apply wp_past_header; [lia|done|lia|lia|lia|lia| |done|].
  { rewrite Zminus_mod, Hr8, (multiple_mod_8 k _ ltac:(lia) Hupm) by lia. done. }
  intros r Hr Hrm. pose proof (multiple_mod_8 k _ ltac:(lia) Hrm) as Hr0.
  wp_step. unfold write_header, alloc_header_size.
  wp_step. eapply (wp_store A1 M1 c b); unfold alloc_header_size; [done|done|lia| |].
  { rewrite Zminus_mod, Hr0 by lia. done. }
  intros Hv2. wp_step. eapply (wp_store _ M1 c b); unfold alloc_header_size; [done|done|lia| |].
  { replace (r - 24 + 8) with (r - 16) by lia. rewrite Zminus_mod, Hr0 by lia. done. }
  intros Hv3. eapply (wp_store _ M1 c b); unfold alloc_header_size; [done|done|lia| |].
  { replace (r - 24 + 16) with (r - 8) by lia. rewrite Zminus_mod, Hr0 by lia. done. }
  intros Hv4. wp_step. right. exists c, b. eexists _, M1. split; [done|]. split; [|split; [exact Hv4|]].
  { done. }
  split; [done|]. cbn. split; [|split; [lia|]].
  - split; [unfold alloc_header_size; lia|]. split; cbn; unfold alloc_header_size.
    + eexists. rewrite !lookup_insert_ne, lookup_insert_eq by lia. split; [done|].
      by vm_compute.
    + replace (r - 24 + 16) with (r - 8) by lia. by rewrite lookup_insert_eq.
  - intros x Hx. by rewrite !lookup_insert_ne, Hd by lia.
Qed.

(** Freeing an aligned block frees the block it was cut from. *)
Lemma wp_kfree_unlocked_aligned fuel A M c b ptr h :
  hinv h A M → ah_live A !! c = Some b → aligned_header A c ptr → ptr `mod` 8 = 0 →
  ptr < c + block_len b → wp (kfree_unlocked (S fuel) ptr) (λ _, freed A c b) h.
Proof.
  intros Hv Hl (Hlow & (w & Hw & Hmag) & Hbase) Hm Hhi. pose proof (hv_inv _ _ _ Hv) as Hinv.
  destruct (live_words _ _ _ _ _ Hv Hl) as (_ & _ & Hlo & Hend).
  destruct (hi_data _ _ _ _ Hinv _ _ Hw) as (Hw' & _).
  destruct (hi_data _ _ _ _ Hinv _ _ Hbase) as (Hbase' & _).
  unfold alloc_header_size, HEAP_START in *. cbn [kfree_unlocked].
  rewrite (proj2 (Z.eqb_neq ptr 0)) by lia. unfold alloc_header_size.
  rewrite (u64_small (ptr - 24)) by lia. wp_step. eapply wp_rd64; [done|]. rewrite Hmag.
  change (MAGIC_ALIGNED =? MAGIC_FREE) with false. rewrite Z.eqb_refl. cbv iota. wp_step.
  eapply wp_rd64; [replace (ptr - 24 + 16) with (ptr - 8) by lia; done|]. wp_step.
  eapply (wp_store A M c b); unfold alloc_header_size; [done|done|lia| |].
  { rewrite Zminus_mod, Hm by lia. done. }
  intros Hv2. eapply wp_mono; [eapply (wp_kfree_unlocked _ _ M c b); [exact Hv2|done]|].
  intros _ h2 (A2 & M2 & Hv3 & Hl3 & Hd3). exists A2, M2. split; [done|].
  split; [done|]. rewrite Hd3. cbn. apply map_eq. intros x. apply option_eq. intros v.
  rewrite !forget_Some. split; intros [Hx Hnot]; (split; [|done]); revert Hx;
    rewrite lookup_insert_ne by lia; done.
Qed.

(** A block of either kind, [ptr] being what its owner holds. *)
Definition handle (A : aheap) (c : Z) (b : block) (ptr : Z) : Prop :=
  ptr = c + alloc_header_size ∨
  aligned_header A c ptr ∧ ptr `mod` 8 = 0 ∧ ptr < c + block_len b.

Lemma wp_free_handle A M c b ptr h :
  hinv h A M → ah_live A !! c = Some b → handle A c b ptr →
  wp (kfree_unlocked (size (words h)) ptr) (λ _, freed A c b) h.
Proof.
  intros Hv Hl Hh. destruct Hh as [->|(Hal & Hm & Hlt)].
  { by eapply wp_kfree_unlocked. }
  assert (∃ fuel, size (words h) = S fuel) as [fuel ->].
  { destruct (size (words h)) eqn:E; [|by eexists]. apply map_size_empty_inv in E.
    destruct Hal as (_ & (w & Hw & _) & _).
    destruct (hi_data _ _ _ _ (hv_inv _ _ _ Hv) _ _ Hw) as (Hw' & _). by rewrite E in Hw'. }
  by eapply wp_kfree_unlocked_aligned.
Qed.

Lemma wp_kfree_handle A M c b ptr h :
  hinv h A M → ah_live A !! c = Some b → handle A c b ptr →
  wp (kfree ptr) (λ _, freed A c b) h.
Proof.
  intros Hv Hl Hh. unfold kfree, save_if, restore_if, free_fuel. wp_steps.
  eapply wp_mono; [eapply (wp_free_handle A M c b ptr (set_if_flag false h)); [by eapply (hinv_ext h)|done|done]|].
  intros _ h' (A' & M' & Hv' & Hl'). wp_steps. exists A', M'. split; [|done].
  by eapply (hinv_ext h').
Qed.

(** [krealloc] to size 0 is [kfree], [krealloc] of [NULL] is [kmalloc]. *)
Lemma wp_krealloc_zero A M c b ptr h :
  hinv h A M → ah_live A !! c = Some b → handle A c b ptr → ptr ≠ 0 →
  wp (krealloc ptr 0) (λ r h', r = 0 ∧ freed A c b h') h.
Proof.
  intros Hv Hl Hh Hp. unfold krealloc, krealloc_unlocked, save_if, restore_if, free_fuel.
  rewrite (proj2 (Z.eqb_neq ptr 0)), Z.eqb_refl by done. wp_steps.
  eapply wp_mono; [eapply (wp_free_handle A M c b ptr (set_if_flag false h)); [by eapply (hinv_ext h)|done|done]|].
  intros _ h' (A' & M' & Hv' & Hl'). wp_steps. split; [done|]. exists A', M'. split; [|done].
  by eapply (hinv_ext h').
Qed.

Lemma krealloc_null n (h : heap P) : krealloc 0 n h = kmalloc n h.
Proof. done. Qed.
End use.
