(* ===== verification/HeapClient.v ===== *)
(** * The heap as its clients see it

    A client knows the blocks it holds and the words it has stored in them.
    [effect] is what a call means to it, given the call's result; every call
    of the heap keeps the client's view true. *)

From S2P Require Import Prelude Bits Links Heap HeapSpec HeapRun HeapBlocks HeapUse.

(** A block as handed out: its size, and the exponent of its alignment if it
    comes from [kmalloc_aligned]. *)
Record ablock := ABlock { ab_size : Z; ab_align : option Z }.

Record client := Client {
  cl_blocks : gmap Z ablock;
  cl_data : gmap Z Z;
}.

Inductive hop :=
| Kmalloc (size : Z)
| Kzalloc (size : Z)
| KmallocAligned (size k : Z)
| Krealloc (ptr size : Z)
| Kfree (ptr : Z)
| Store (ptr off v : Z)
| Load (ptr off : Z).

Definition zeros (p n : Z) : gmap Z Z := list_to_map ((λ i, (p + 8 * i, 0)) <$> seqZ 0 (n / 8)).
(** The first [n] bytes at [p], as words, moved to [r]. *)
Definition moved (p r n : Z) (d : gmap Z Z) : gmap Z Z :=
  list_to_map (omap (λ i, pair (r + 8 * i) <$> d !! (p + 8 * i)) (seqZ 0 (n / 8))).

Definition add (p : Z) (b : ablock) (d : gmap Z Z) (s : client) : client :=
  Client (<[p := b]> (cl_blocks s)) (d ∪ cl_data s).
Definition remove (p : Z) (s : client) : client :=
  match cl_blocks s !! p with
  | Some b => Client (delete p (cl_blocks s)) (forget p (ab_size b) (cl_data s))
  | None => s
  end.

(** A new block at [r], unless [r] is [NULL]. *)
Definition obtain (r : Z) (b : ablock) (d : gmap Z Z) (s : client) : client :=
  if r =? 0 then s else add r b d s.

Definition effect (op : hop) (r : Z) (s : client) : client :=
  match op with
  | Kmalloc n => obtain r (ABlock n None) ∅ s
  | Kzalloc n => obtain r (ABlock n None) (zeros r n) s
  | KmallocAligned n k => obtain r (ABlock n (Some k)) ∅ s
  | Krealloc p n =>
      if p =? 0 then obtain r (ABlock n None) ∅ s else
      if n =? 0 then remove p s else
      if r =? 0 then s else
      let old := from_option ab_size 0 (cl_blocks s !! p) in
      add r (ABlock n None) (moved p r (Z.min old n) (cl_data s)) (remove p s)
  | Kfree p => remove p s
  | Store p off v => Client (cl_blocks s) (<[p + off := v]> (cl_data s))
  | Load _ _ => s
  end.

Section client.
Context {P : Type} `{PageOps P}.

Definition run_hop (op : hop) : prog (heap P) Z :=
  match op with
  | Kmalloc n => kmalloc n
  | Kzalloc n => kzalloc n
  | KmallocAligned n k => kmalloc_aligned n (2 ^ k)
  | Krealloc p n => krealloc p n
  | Kfree p => kfree p;; mret 0
  | Store p off v => wr64 (p + off) v;; mret 0
  | Load p off => rd64 (p + off)
  end.

(** Aligned words inside a block. *)
Definition in_block (s : client) (p off : Z) : Prop :=
  ∃ b, cl_blocks s !! p = Some b ∧ 0 ≤ off ∧ off + 8 ≤ ab_size b ∧ off `mod` 8 = 0.

(** The calls a correct client makes. *)
Definition enabled (h : heap P) (s : client) (op : hop) : Prop :=
  match op with
  | Kmalloc n | Kzalloc n => good_size n ∧ room h
  | KmallocAligned n k =>
      3 ≤ k < 28 ∧ 0 ≤ n ∧ good_size (n + 2 ^ k + alloc_header_size) ∧ room h
  | Krealloc p n =>
      (p = 0 ∧ good_size n ∧ room h) ∨
      (p ≠ 0 ∧ n = 0 ∧ is_Some (cl_blocks s !! p)) ∨
      (p ≠ 0 ∧ good_size n ∧ room h ∧ ∃ sz, cl_blocks s !! p = Some (ABlock sz None))
  | Kfree p => p = 0 ∨ is_Some (cl_blocks s !! p)
  | Store p off _ | Load p off => in_block s p off
  end.

Inductive hreach (h0 : heap P) : heap P → client → Prop :=
| hreach_init h : heap_init true h0 = Done ((), h) → hreach h0 h (Client ∅ ∅)
| hreach_step h s op r h' :
    hreach h0 h s → enabled h s op → run_hop op h = Done (r, h') → hreach h0 h' (effect op r s).
End client.

(** ** The link between a client and the abstract heap *)

(** The block [b] at [p] lies in the live block [k] with header at [c]. *)
Record placed (A : aheap) (p : Z) (b : ablock) (c : Z) (k : block) : Prop := {
  pc_live : ah_live A !! c = Some k;
  pc_low : c + alloc_header_size ≤ p;
  pc_high : p + ab_size b ≤ c + block_len k ∧ p < c + block_len k;
  pc_kind : match ab_align b with
    | None => p = c + alloc_header_size ∧ block_size k = ab_size b
    | Some e => 3 ≤ e ∧ p `mod` 2 ^ e = 0 ∧ aligned_header A c p
    end;
}.

Record linked (s : client) (A : aheap) (own : Z → Z) : Prop := {
  lk_block : ∀ p b, cl_blocks s !! p = Some b → ∃ k, placed A p b (own p) k;
  lk_inj : ∀ p q b b', cl_blocks s !! p = Some b → cl_blocks s !! q = Some b' →
    own p = own q → p = q;
  lk_data : ∀ a v, cl_data s !! a = Some v → ah_data A !! a = Some v ∧
    ∃ p b, cl_blocks s !! p = Some b ∧ p ≤ a ∧ a + 8 ≤ p + ab_size b;
}.

Definition apart (A : aheap) : Prop :=
  ∀ c c' k k', ah_live A !! c = Some k → ah_live A !! c' = Some k' → c ≠ c' →
    c + block_len k ≤ c' ∨ c' + block_len k' ≤ c.

Definition moved_own (own : Z → Z) (p c : Z) : Z → Z := λ q, if decide (q = p) then c else own q.

(** Blocks whose own contents do not change stay placed. *)
Lemma placed_frame A A' p b c k :
  placed A p b c k → ah_live A' !! c = Some k →
  (∀ x, c + alloc_header_size ≤ x < p → ah_data A' !! x = ah_data A !! x) → placed A' p b c k.
Proof.
  intros [P1 P2 P3 P4] Hl Hd. split; [done..|]. destruct (ab_align b); [|done].
  destruct P4 as (? & ? & H1 & (w & Hw & Hm) & Hb). split; [done|]. split; [done|].
  unfold aligned_header, alloc_header_size in *. split; [done|]. split.
  - exists w. rewrite Hd by lia. done.
  - by rewrite Hd by lia.
Qed.

Lemma linked_add s A own A' c k p b d :
  linked s A own → apart A' → ah_live A !! c = None → ah_live A' = <[c := k]> (ah_live A) →
  (∀ x, ¬ (c ≤ x < c + block_len k) → ah_data A' !! x = ah_data A !! x) → placed A' p b c k →
  (∀ a v, d !! a = Some v → ah_data A' !! a = Some v ∧ p ≤ a ∧ a + 8 ≤ p + ab_size b) →
  linked (add p b d s) A' (moved_own own p c).
Proof.
  intros [L1 L2 L3] Hap Hc Hl Hd Hp Hnew. unfold moved_own.
  assert (∀ q b' k', placed A q b' (own q) k' → own q ≠ c ∧ ah_live A' !! own q = Some k' ∧
    (own q + block_len k' ≤ c ∨ c + block_len k ≤ own q)) as Hold.
  { intros q b' k' Hq. assert (own q ≠ c) as Hne.
    { intros E. pose proof (pc_live _ _ _ _ _ Hq) as Hlq. rewrite E in Hlq. congruence. }
    assert (ah_live A' !! own q = Some k') as Hlq by (rewrite Hl, lookup_insert_ne; [apply Hq|done]).
    split; [done|]. split; [done|]. by apply Hap; [..|apply Hp|]. }
  assert (∀ b', cl_blocks s !! p = Some b' → False) as Hfresh.
  { intros b' Hb. destruct (L1 p b' Hb) as [k' Hk]. destruct (Hold _ _ _ Hk) as (_ & _ & Hsep).
    destruct Hk as [_ K2 [_ K3] _]. destruct Hp as [_ Q2 [_ Q3] _]. unfold alloc_header_size in *. lia. }
  split; cbn.
  - intros q b' [[<- <-]|[Hne Hq]]%lookup_insert_Some; [exists k; by rewrite decide_True|].
    rewrite decide_False by done. destruct (L1 q b' Hq) as [k' Hk]. exists k'.
    destruct (Hold _ _ _ Hk) as (_ & Hlq & Hsep). eapply placed_frame; [done|done|].
    intros x Hx. destruct Hk as [_ K2 [_ K3] _]. unfold alloc_header_size in *. apply Hd. lia.
  - intros q q' b1 b2 [[<- <-]|[Hne Hq]]%lookup_insert_Some [[<- Hb]|[Hne' Hq']]%lookup_insert_Some; [done| | |].
    + rewrite decide_True, decide_False by done. intros E. destruct (L1 q' _ Hq') as [k' Hk].
      by destruct (Hold _ _ _ Hk) as (Hn & _).
    + rewrite decide_False, decide_True by done. intros E. destruct (L1 q _ Hq) as [k' Hk].
      by destruct (Hold _ _ _ Hk) as (Hn & _).
    + rewrite !decide_False by done. by eapply L2.
  - intros a v [Ha|[_ Ha]]%lookup_union_Some_raw.
    + destruct (Hnew a v Ha) as (? & ? & ?). split; [done|]. exists p, b. by rewrite lookup_insert_eq.
    + destruct (L3 a v Ha) as (Hda & q & b' & Hq & Hr1 & Hr2). destruct (L1 q b' Hq) as [k' Hk].
      destruct (Hold _ _ _ Hk) as (_ & _ & Hsep). destruct Hk as [_ K2 [K3 _] _]. split.
      * rewrite Hd; [done|]. unfold alloc_header_size in *. lia.
      * exists q, b'. rewrite lookup_insert_ne; [done|]. intros ->. by eapply Hfresh.
Qed.

Lemma linked_remove s A own A' p b k :
  linked s A own → apart A → cl_blocks s !! p = Some b → ah_live A !! own p = Some k →
  ah_live A' = delete (own p) (ah_live A) →
  ah_data A' = forget (own p) (block_len k) (ah_data A) → linked (remove p s) A' own.
Proof.
  intros [L1 L2 L3] Hap Hp Hk Hl Hd. unfold remove. rewrite Hp.
  assert (∀ q b' k', q ≠ p → cl_blocks s !! q = Some b' → placed A q b' (own q) k' →
    ah_live A' !! own q = Some k' ∧ (own q + block_len k' ≤ own p ∨ own p + block_len k ≤ own q)) as Hold.
  { intros q b' k' Hne Hq Hpl. assert (own q ≠ own p) as Hn by (intros E; by apply Hne, (L2 q p b' b)).
    split; [rewrite Hl, lookup_delete_ne by done; apply Hpl|]. by apply Hap; [apply Hpl|..]. }
  split; cbn.
  - intros q b' [Hne Hq]%lookup_delete_Some. destruct (L1 q b' Hq) as [k' Hpl]. exists k'.
    destruct (Hold q b' k') as [Hlq Hsep]; [done..|]. eapply placed_frame; [done|done|].
    intros x Hx. destruct Hpl as [_ K2 [_ K3] _]. apply option_eq. intros v.
    rewrite Hd, forget_Some. unfold alloc_header_size in *. split; [by intros [? _]|]. intros ?.
    split; [done|]. lia.
  - intros q q' b1 b2 [_ Hq]%lookup_delete_Some [_ Hq']%lookup_delete_Some. by eapply L2.
  - intros a v [Ha Hout]%forget_Some. destruct (L3 a v Ha) as (Hda & q & b' & Hq & Hr1 & Hr2).
    assert (q ≠ p) as Hne by (intros ->; simplify_eq; lia).
    destruct (L1 q b' Hq) as [k' Hpl]. destruct (Hold q b' k') as [Hlq Hsep]; [done..|].
    destruct Hpl as [_ K2 [K3 _] _]. split.
    + rewrite Hd. apply forget_Some. split; [done|]. unfold alloc_header_size in *. lia.
    + exists q, b'. by rewrite lookup_delete_ne.
Qed.

Lemma linked_store s A own p off b v :
  linked s A own → apart A → cl_blocks s !! p = Some b → 0 ≤ off → off + 8 ≤ ab_size b →
  linked (Client (cl_blocks s) (<[p + off := v]> (cl_data s)))
    (with_data A (<[p + off := v]> (ah_data A))) own.
Proof.
  intros [L1 L2 L3] Hap Hp H0 H8. destruct (L1 p b Hp) as [k [K1 K2 [K3 _] _]]. split; cbn; [|done|].
  - intros q b' Hq. destruct (L1 q b' Hq) as [k' Hk]. exists k'. pose proof Hk as [Q1 Q2 [_ Q3] _].
    eapply placed_frame; [done|done|]. intros x Hx. cbn. rewrite lookup_insert_ne; [done|].
    intros <-. unfold alloc_header_size in *. destruct (decide (own q = own p)) as [E|Hne].
    + assert (q = p) as -> by by eapply L2. lia.
    + destruct (Hap _ _ _ _ Q1 K1 Hne); lia.
  - intros a w [[<- <-]|[Hne Ha]]%lookup_insert_Some.
    + rewrite lookup_insert_eq. split; [done|]. exists p, b. split; [done|]. lia.
    + rewrite lookup_insert_ne by done. by apply L3.
Qed.

Lemma zeros_Some p n a v : zeros p n !! a = Some v → ∃ i, 0 ≤ i < n / 8 ∧ a = p + 8 * i ∧ v = 0.
Proof.
  unfold zeros. intros Ha%elem_of_list_to_map_2. apply list_elem_of_fmap in Ha as (i & [= -> ->] & Hi).
  apply elem_of_seqZ in Hi. exists i. split_and!; [lia|lia|done|done].
Qed.

Lemma moved_Some p r n d a v : moved p r n d !! a = Some v →
  ∃ i, 0 ≤ i < n / 8 ∧ a = r + 8 * i ∧ d !! (p + 8 * i) = Some v.
Proof.
  unfold moved. intros Ha%elem_of_list_to_map_2.
  apply list_elem_of_omap in Ha as (i & Hi & He). apply elem_of_seqZ in Hi.
  destruct (d !! (p + 8 * i)) as [w|] eqn:E; [|done]. cbn in He. injection He as <- <-.
  exists i. split_and!; [lia|lia|done|done].
Qed.

(** ** Every call keeps the client's view *)

Section sim.
Context {P : Type} `{PageLaws P}.

Definition sim (h : heap P) (s : client) : Prop := ∃ A M own, hinv h A M ∧ linked s A own.

Lemma hinv_apart h A M : hinv h A M → apart A.
Proof.
  intros Hv c c' k k' Hc Hc' Hne. pose proof (hv_inv _ _ _ Hv) as Hi.
  exact (regions_disjoint Hi _ _ _ _ (live_region Hi _ _ Hc) (live_region Hi _ _ Hc') Hne).
Qed.

Lemma placed_handle A p b c k : placed A p b c k → handle A c k p.
Proof.
  intros [_ _ [_ P3] P4]. destruct (ab_align b) as [e|]; [right|left; apply P4].
  destruct P4 as (He & Hm & Hh). split; [done|]. split; [by eapply multiple_mod_8|done].
Qed.

(** The block a successful allocation gives is placed. *)
Lemma placed_plain h A M c k n : hinv h A M → ah_live A !! c = Some k → block_size k = n →
  placed A (c + alloc_header_size) (ABlock n None) c k ∧ c + alloc_header_size ≠ 0.
Proof.
  intros Hv Hl Hn. destruct (live_words _ _ _ _ _ Hv Hl) as (_ & _ & Hlo & _).
  destruct (hi_live _ _ _ _ (hv_inv _ _ _ Hv) _ _ Hl) as (_ & _ & Hbs).
  unfold HEAP_START, alloc_header_size in *. split; [split; cbn; unfold alloc_header_size; [done|lia|lia|done]|lia].
Qed.

Lemma sim_allocated h A M own s n r h' : hinv h A M → linked s A own →
  allocated A M n r h' → sim h' (obtain r (ABlock n None) ∅ s).
Proof.
  intros Hv Hl [[-> Hv']|(c & k & A' & M' & -> & Hc & Hlv & Hd & Hsz & Hv')].
  { by exists A, M, own. }
  assert (ah_live A' !! c = Some k) as Hck by (by rewrite Hlv, lookup_insert_eq).
  destruct (placed_plain _ _ _ _ _ _ Hv' Hck Hsz) as [Hp Hne].
  exists A', M', (moved_own own (c + alloc_header_size) c). split; [done|].
  unfold obtain. rewrite (proj2 (Z.eqb_neq _ 0) Hne).
  eapply linked_add; [done|by eapply hinv_apart|done|done| |done|done].
  intros x _. by rewrite Hd.
Qed.

Lemma wp_hop_kzalloc h A M own s n : hinv h A M → linked s A own → good_size n → room h →
  wp (kzalloc n) (λ r h', sim h' (effect (Kzalloc n) r s)) h.
Proof.
  intros Hv Hl Hn Hroom. eapply wp_mono; [by apply wp_kzalloc|].
  intros r h' [[-> Hv']|(c & k & A' & M' & -> & Hc & Hlv & Hsz & Hv' & Hout & Hz)].
  { by exists A, M, own. }
  assert (ah_live A' !! c = Some k) as Hck by (by rewrite Hlv, lookup_insert_eq).
  destruct (placed_plain _ _ _ _ _ _ Hv' Hck Hsz) as [Hp Hne].
  exists A', M', (moved_own own (c + alloc_header_size) c). split; [done|].
  cbn. unfold obtain. rewrite (proj2 (Z.eqb_neq _ 0) Hne).
  eapply linked_add; [done|by eapply hinv_apart|done|done| |done|].
  - intros x Hx. apply Hout. destruct Hp as [_ _ [Hp _] _]. cbn in Hp. unfold alloc_header_size in *. lia.
  - intros a v (i & Hi & -> & ->)%zeros_Some. split; [by apply Hz|]. cbn.
    pose proof (Z.div_mod n 8 ltac:(lia)). pose proof (Z.mod_pos_bound n 8 ltac:(lia)). lia.
Qed.

Lemma wp_hop_aligned h A M own s n k : hinv h A M → linked s A own → enabled h s (KmallocAligned n k) →
  wp (kmalloc_aligned n (2 ^ k)) (λ r h', sim h' (effect (KmallocAligned n k) r s)) h.
Proof.
  intros Hv Hl (Hk & Hn & Hg & Hroom). eapply wp_mono; [by apply wp_kmalloc_aligned|].
  intros r h' [[-> Hv']|(c & b & A' & M' & Hc & Hlv & Hv' & Hm & Hal & Hfit & Hout)].
  { by exists A, M, own. }
  assert (ah_live A' !! c = Some b) as Hcb by (by rewrite Hlv, lookup_insert_eq).
  destruct (live_words _ _ _ _ _ Hv' Hcb) as (_ & _ & Hlo & _).
  pose proof (proj1 Hal) as Hr. exists A', M', (moved_own own r c). split; [done|].
  unfold HEAP_START, alloc_header_size in *. cbn. unfold obtain. rewrite (proj2 (Z.eqb_neq r 0)) by lia.
  eapply linked_add; [done|by eapply hinv_apart|done|done|done| |done].
  split; cbn; unfold alloc_header_size; [done|lia|lia|]. split; [lia|done].
Qed.

Lemma sim_freed A k own s p b (h' : heap P) : linked s A own → apart A → cl_blocks s !! p = Some b →
  ah_live A !! own p = Some k → freed A (own p) k h' → sim h' (remove p s).
Proof.
  intros Hl Hap Hp Hk (A' & M' & Hv' & Hlv & Hd). exists A', M', own. split; [done|].
  by eapply linked_remove.
Qed.

Lemma wp_hop_move h A M own s p sz n : hinv h A M → linked s A own → p ≠ 0 → good_size n → room h →
  cl_blocks s !! p = Some (ABlock sz None) →
  wp (krealloc p n) (λ r h', sim h' (effect (Krealloc p n) r s)) h.
Proof.
  intros Hv Hl Hp0 Hn Hroom Hp. destruct (lk_block _ _ _ Hl p _ Hp) as [k Hpl].
  pose proof Hpl as [K1 K2 K3 [Hpc Hsz]]. cbn in Hsz. rewrite Hpc at 1.
  eapply wp_mono; [by apply wp_krealloc|].
  cbn. rewrite (proj2 (Z.eqb_neq p 0) Hp0), (proj2 (Z.eqb_neq n 0)) by (unfold good_size in Hn; lia).
  intros r h' [[-> Hv']|(c' & k' & A' & M' & -> & Hc' & Hlv & Hsz' & Hv' & Hout & Hin)].
  { by exists A, M, own. }
  assert (ah_live A' !! c' = Some k') as Hck by (by rewrite Hlv, lookup_insert_eq).
  destruct (placed_plain _ _ _ _ _ _ Hv' Hck Hsz') as [Hpl' Hne].
  rewrite (proj2 (Z.eqb_neq _ 0) Hne), Hp. cbn.
  set (A0 := AHeap (ah_slabs A) (ah_free A) (delete (own p) (ah_live A))
    (forget (own p) (block_len k) (ah_data A))).
  exists A', M', (moved_own own (c' + alloc_header_size) c'). split; [done|].
  eapply (linked_add _ A0); [|by eapply hinv_apart| |done|done|done|].
  - by eapply linked_remove; [|eapply hinv_apart|..].
  - cbn. destruct Hc' as [->|Hc']; [by rewrite lookup_delete_eq|]. by apply lookup_delete_None; right.
  - intros a v (i & Hi & -> & Hdat)%moved_Some. cbn.
    pose proof (Z.div_mod (Z.min sz n) 8 ltac:(lia)). pose proof (Z.mod_pos_bound (Z.min sz n) 8 ltac:(lia)).
    split; [|lia]. apply Hin; [lia|lia| |].
    + cbn in K3. unfold capacity, alloc_header_size in *. lia.
    + rewrite <-Hpc. by apply (lk_data _ _ _ Hl).
Qed.

Lemma placed_word h A M p b c k off : hinv h A M → placed A p b c k →
  0 ≤ off → off + 8 ≤ ab_size b → off `mod` 8 = 0 →
  c + alloc_header_size ≤ p + off < c + block_len k ∧ (p + off) `mod` 8 = 0.
Proof.
  intros Hv Hpl Hz H8 Hm. destruct (live_words _ _ _ _ _ Hv (pc_live _ _ _ _ _ Hpl)) as (Hc & _).
  pose proof (placed_handle _ _ _ _ _ Hpl) as Hh. destruct Hpl as [_ K2 [K3 _] _]. split; [lia|].
  assert (p `mod` 8 = 0) as Hp.
  { destruct Hh as [->|(_ & ? & _)]; [|done]. unfold alloc_header_size. by rewrite Z.add_mod, Hc by lia. }
  by rewrite Z.add_mod, Hp, Hm by lia.
Qed.

Lemma wp_hop_store h A M own s p off v : hinv h A M → linked s A own → in_block s p off →
  wp (wr64 (p + off) v;; mret 0) (λ r h', sim h' (effect (Store p off v) r s)) h.
Proof.
  intros Hv Hl (b & Hb & Hz & H8 & Hm). destruct (lk_block _ _ _ Hl p _ Hb) as [k Hpl].
  destruct (placed_word _ _ _ _ _ _ _ _ Hv Hpl Hz H8 Hm) as [Hin Hmod].
  wp_step. eapply wp_store; [done|apply Hpl|done|done|]. intros Hv'. wp_step.
  eexists _, M, own. split; [exact Hv'|]. by eapply linked_store; [|eapply hinv_apart|..].
Qed.

Lemma wp_hop_free h A M own s p : hinv h A M → linked s A own → p = 0 ∨ is_Some (cl_blocks s !! p) →
  wp (kfree p;; mret 0) (λ r h', sim h' (remove p s)) h.
Proof.
  intros Hv Hl He. wp_step. destruct (decide (p = 0)) as [->|Hp].
  { unfold kfree, save_if, restore_if, free_fuel. wp_steps.
    assert (∀ fuel, kfree_unlocked (P:=P) fuel 0 = mret ()) as -> by (by intros []). wp_steps.
    assert (cl_blocks s !! 0 = None) as Hno.
    { destruct (cl_blocks s !! 0) as [b|] eqn:E; [|done]. destruct (lk_block _ _ _ Hl 0 b E) as [k Hk].
      destruct (live_words _ _ _ _ _ Hv (pc_live _ _ _ _ _ Hk)) as (_ & _ & Hlo & _).
      destruct Hk as [_ K2 _ _]. unfold HEAP_START, alloc_header_size in *. lia. }
    unfold remove. rewrite Hno. exists A, M, own. split; [by eapply (hinv_ext h)|done]. }
  destruct He as [?|[b Hb]]; [done|]. destruct (lk_block _ _ _ Hl p _ Hb) as [k Hpl].
  eapply wp_mono; [eapply wp_kfree_handle; [done|apply Hpl|by eapply placed_handle]|].
  intros [] h' Hf. wp_step. by eapply sim_freed; [|eapply hinv_apart| |apply Hpl|].
Qed.

Lemma wp_hop h s op : sim h s → enabled h s op →
  wp (run_hop op) (λ r h', sim h' (effect op r s)) h.
Proof.
  intros (A & M & own & Hv & Hl) He. pose proof (hinv_apart _ _ _ Hv) as Hap.
  destruct op as [n|n|n k|p n|p|p off v|p off]; cbn [run_hop].
  - destruct He. eapply wp_mono; [by apply wp_kmalloc|]. intros r h' Ha. by eapply sim_allocated.
  - destruct He. by eapply wp_hop_kzalloc.
  - by eapply wp_hop_aligned.
  - destruct He as [(-> & Hn & Hroom)|[(Hp & -> & [b Hb])|(Hp & Hn & Hroom & sz & Hb)]].
    + change (krealloc 0 n) with (kmalloc (P:=P) n).
      eapply wp_mono; [by apply wp_kmalloc|]. intros r h' Ha. by eapply sim_allocated.
    + destruct (lk_block _ _ _ Hl p _ Hb) as [k Hpl].
      eapply wp_mono; [eapply wp_krealloc_zero; [done|apply Hpl|by eapply placed_handle|done]|].
      intros r h' [-> Hf]. cbn. rewrite (proj2 (Z.eqb_neq p 0) Hp).
      by eapply sim_freed; [..|apply Hpl|].
    + by eapply wp_hop_move.
  - by eapply wp_hop_free.
  - by eapply wp_hop_store.
  - destruct He as (b & Hb & Hz & H8 & Hm). destruct (lk_block _ _ _ Hl p _ Hb) as [k Hpl].
    destruct (placed_word _ _ _ _ _ _ _ _ Hv Hpl Hz H8 Hm) as [Hin Hmod].
    destruct (live_mapped h A M (own p) k (p + off) Hv (pc_live _ _ _ _ _ Hpl)) as [w Hw].
    { unfold alloc_header_size in Hin. lia. }
    { done. }
    eapply wp_rd64; [done|]. by exists A, M, own.
Qed.
End sim.
