(* ===== verification/HeapPages.v ===== *)
(** * The heap on the kernel's page tables

    [PageOps] and [PageLaws] for the real thing: frames of the page allocator of
    [Pmm], mapped into the kernel address space by [vmm_map].  The frames behind
    the heap's pages are pairwise different, referenced once, and none of them
    holds a page table. *)

From S2P Require Import Prelude Bits Heap HeapRun.
From S2P Require Import Ram Pmm PmmSpec PmmContig PmmInit PmmProps Frames Vmm PageTable VmmSpec VmmMap.

(** The flags of the heap's mappings. *)
Definition heap_flags : Z := VMM_PRESENT |! VMM_WRITABLE |! VMM_NO_EXECUTE.

Section pages.
Context (b : boot_info) (off : Z) (Hoff : hhdm_response b = Some off).
#[local] Instance heap_frames : FrameAlloc pmm := pmm_frames b.
#[local] Instance heap_frames_laws : FrameAllocLaws pmm := pmm_frames_laws b off Hoff.
Implicit Types s : vmm pmm.

Definition kernel_pages : PageOps (vmm pmm) := {|
  po_alloc_page := in_frames (pmm_alloc_page b);
  po_alloc_contiguous n := in_frames (pmm_alloc_pages_contiguous n);
  po_free_page f := in_frames (pmm_free_page f);
  po_free_contiguous f n := in_frames (pmm_free_pages_contiguous f n);
  po_map v f := rc ← vmm_map (Some KernelSpace) v f heap_flags; mret (rc =? 0);
  po_unmap v := vmm_unmap (Some KernelSpace) v;; mret ();
  po_translate v := vmm_virt_to_phys (Some KernelSpace) v;
  po_word s a := Ram.rd64 (ram_of s) a;
|}.

Abbreviation kroot s := (kernel_space_pml4 s).

(** A frame of the heap: in use by it alone, and not a page table. *)
Definition own_frame s (f : Z) : Prop := other_frame s (kroot s) f ∧ fa_refs (frames s) f = 1.

Record pages_ok s (M : gmap Z Z) (F : gset Z) : Prop := {
  ko_inv : fa_inv (frames s);
  ko_space : space_ok s (kroot s);
  ko_leaf : ∀ v f, M !! v = Some f → page_ok v ∧
    leaf (ram_of s) (kroot s) v = Some (make_entry f heap_flags);
  ko_mapped : ∀ v f, M !! v = Some f → own_frame s f ∧ f ∉ F;
  ko_held : ∀ f, f ∈ F → own_frame s f;
  ko_inj : ∀ v v' f, M !! v = Some f → M !! v' = Some f → v = v';
}.

Lemma own_frame_ok s f : fa_inv (frames s) → own_frame s f → frame_ok f.
Proof. intros Hi [(Hu & _) _]. by apply (fa_used_page (frames s)). Qed.

(** A step of the allocator: frames of [F ∖ F'] may go, fresh ones may come. *)
Lemma pages_ok_frames s s' M F F' :
  pages_ok s M F → kroot s' = kroot s → fa_inv (frames s') → tables_same s s' (kroot s) →
  (∀ q, fa_used (frames s) q → (q ∈ F → q ∈ F') →
    fa_used (frames s') q ∧ fa_refs (frames s') q = fa_refs (frames s) q) →
  (∀ f, f ∈ F' → f ∈ F ∨
    ¬ fa_used (frames s) f ∧ fa_used (frames s') f ∧ fa_refs (frames s') f = 1) →
  pages_ok s' M F'.
Proof.
  intros [K1 K2 K3 K4 K5 K6] Hroot Hi Ht Hkeep Hnew.
  pose proof (table_at_same _ _ _ Ht) as Hat.
  assert (∀ f, own_frame s f → (f ∈ F → f ∈ F') → own_frame s' f) as Hown.
  { intros f [(Hu & Hp & Hno) Hr] HF. destruct (Hkeep f Hu HF) as [Hu' Hr'].
    split; [|congruence]. rewrite Hroot. split; [done|]. split; [done|].
    intros p Hpok. rewrite Hat by done. by apply Hno. }
  split; rewrite ?Hroot; [done| | | | |done].
  - destruct K2 as [R1 R2 R3]. split; [done| |].
    + intros p q t Hp Hq. rewrite !Hat by done. by apply R2.
    + intros p t Hp. rewrite Hat by done. intros Htab. pose proof (R3 p t Hp Htab) as Hu.
      apply Hkeep; [done|]. intros [(_ & _ & Hno) _]%K5. by destruct (Hno p Hp).
  - intros v f Hv. destruct (K3 v f Hv). split; [done|]. by rewrite (leaf_same _ _ _ _ Ht).
  - intros v f Hv. destruct (K4 v f Hv) as [Ho Hn]. split; [by apply Hown|].
    intros [?|(Hnu & _)]%Hnew; [done|]. by destruct Ho as [(? & _) _].
  - intros f Hf. destruct (Hnew f Hf) as [Hf'|(Hnu & Hu & Hr)]; [by apply Hown; [apply K5|]|].
    split; [|done]. rewrite Hroot. split; [done|]. split; [by eapply (fa_used_page (frames s'))|].
    intros p Hp. rewrite Hat by done. intros Htab. by apply Hnu, (so_used _ _ K2 p).
Qed.

Lemma ram_tables_same s s' root : ram_of s' = ram_of s → tables_same s s' root.
Proof. intros Hr t j _ _. by rewrite Hr. Qed.

Lemma alloc_page_law s M F : pages_ok s M F →
  ∃ f s', in_frames (pmm_alloc_page b) s = Done (f, s') ∧
    (f = 0 ∧ pages_ok s' M F ∨ f ≠ 0 ∧ (f ∉ F) ∧ pages_ok s' M ({[f]} ∪ F)).
Proof.
  intros Hok. destruct (proj1 (wp_run _ _ _) (wp_alloc s (ko_inv _ _ _ Hok))) as (f & s' & Hrun & Hpost).
  exists f, s'. split; [exact Hrun|]. destruct Hpost as [(-> & -> & _)|[Hf Ha]]; [by left|right].
  assert (f ∉ F) as HfF.
  { intros Hin. destruct (ko_held _ _ _ Hok f Hin) as [(Hu & _) _]. by apply (al_fresh _ _ _ Ha). }
  split; [done|]. split; [done|].
  destruct (al_rest _ _ _ Ha) as (Hroot & _).
  apply (pages_ok_frames s s' M F); [done|done|apply Ha| | |].
  - intros t j Ht Hj. apply (allocd_other f s s'); [done| |done|].
    + eapply table_frame_ok; [apply Hok|done].
    + eapply fresh_not_table; [apply Hok|apply Ha|done].
  - intros q Hq _. split; [apply (al_used _ _ _ Ha); by right|by apply (al_refs _ _ _ Ha)].
  - intros q [->%elem_of_singleton|Hq]%elem_of_union; [right|by left].
    split; [apply Ha|]. split; [apply (al_used _ _ _ Ha); by left|apply Ha].
Qed.

Lemma free_page_law s M F f : pages_ok s M F → f ∈ F →
  ∃ s', in_frames (pmm_free_page f) s = Done ((), s') ∧ pages_ok s' M (F ∖ {[f]}).
Proof.
  intros Hok Hf. destruct (ko_held _ _ _ Hok f Hf) as [(Hu & _) Hr].
  destruct (proj1 (wp_run _ _ _) (wp_free s f (ko_inv _ _ _ Hok) Hu ltac:(lia)))
    as ([] & s' & Hrun & Hi & Hram & Hused & Hrefs & _ & Hroot & _).
  exists s'. split; [exact Hrun|].
  apply (pages_ok_frames s s' M F); [done|done|done|by apply ram_tables_same| |].
  - intros q Hq HF. assert (q ≠ f) as Hne by (intros ->; by apply HF in Hf as [_ []%not_elem_of_singleton]%elem_of_difference).
    rewrite Hused, Hrefs, decide_False by done. by split_and!.
  - intros q [Hq _]%elem_of_difference. by left.
Qed.

(** ** Runs of frames *)

Lemma elem_of_frames f n x : x ∈ frames_from f n ↔ ∃ i, 0 ≤ i < n ∧ x = f + i * PAGE.
Proof.
  unfold frames_from. rewrite elem_of_list_to_set, list_elem_of_fmap.
  setoid_rewrite elem_of_seqZ. split; intros (i & ? & ?); exists i; split; [lia|done|done|lia].
Qed.

(** The run of frames at [start * PAGE] are the pages [start] and up. *)
Lemma elem_of_run_pages start n x : page_ok x →
  x ∈ frames_from (start * PMM_PAGE_SIZE) n ↔ start ≤ page_index x < start + n.
Proof.
  intros Hx. pose proof (page_ok_index x Hx) as Hpx. rewrite elem_of_frames.
  unfold PAGE, PMM_PAGE_SIZE in *. split.
  - intros (i & Hi & He). lia.
  - intros Hr. exists (page_index x - start). lia.
Qed.

Lemma frames_page_ok start n x : x ∈ frames_from (start * PMM_PAGE_SIZE) n → page_ok x.
Proof.
  intros (i & _ & ->)%elem_of_frames. unfold PAGE, PMM_PAGE_SIZE.
  replace (start * 4096 + i * 4096) with ((start + i) * PMM_PAGE_SIZE) by (unfold PMM_PAGE_SIZE; lia).
  apply page_ok_mul.
Qed.

Lemma alloc_contiguous_law n s M F : pages_ok s M F → 0 < n →
  ∃ f s', in_frames (pmm_alloc_pages_contiguous n) s = Done (f, s') ∧
    (f = 0 ∧ pages_ok s' M F ∨
     f ≠ 0 ∧ (frames_from f n ## F) ∧ pages_ok s' M (frames_from f n ∪ F)).
Proof.
  intros Hok Hn. destruct (ko_inv _ _ _ Hok) as [d Hi].
  destruct (alloc_contiguous_run d (frames s) n Hi Hn) as [(start & Hfree & _ & Hrun)|[_ Hrun]].
  2: { exists 0, s. split; [unfold in_frames, zoom; rewrite Hrun; by destruct s|by left]. }
  destruct (free_run_taken d (frames s) start n Hi ltac:(lia) Hfree) as (T1 & T2 & T3 & T4 & T5 & T6).
  set (fs := taken_run start n (frames s)) in *.
  exists (start * PMM_PAGE_SIZE), (with_frames fs s).
  split; [unfold in_frames, zoom; by rewrite Hrun|]. right.
  assert (∀ x, x ∈ frames_from (start * PMM_PAGE_SIZE) n →
    page_ok x ∧ is_page (frames s) (page_index x) ∧ used (frames s) (page_index x) = false ∧
    start ≤ page_index x < start + n) as Hrunp.
  { intros x Hx. pose proof (frames_page_ok _ _ _ Hx) as Hp. apply elem_of_run_pages in Hx; [|done].
    destruct Hfree as (F1 & F2 & F3). split; [done|]. split; [unfold is_page; lia|]. by split; [apply F3|]. }
  assert (∀ x, x ∈ frames_from (start * PMM_PAGE_SIZE) n → ¬ fa_used (frames s) x) as Hfresh.
  { intros x Hx (_ & _ & _ & Hu). destruct (Hrunp x Hx) as (_ & _ & Hu' & _). congruence. }
  split; [|split].
  - destruct Hfree as (F1 & F2 & F3). destruct (decide (start = 0)) as [->|]; [|unfold PMM_PAGE_SIZE; lia].
    assert (is_page (frames s) 0) as Hp0 by (unfold is_page; lia).
    destruct (inv_page0 _ _ Hi Hp0) as [Hu _]. rewrite F3 in Hu by lia. done.
  - intros x Hx HF. destruct (ko_held _ _ _ Hok x HF) as [(Hu & _) _]. by apply (Hfresh x).
  - apply (pages_ok_frames s _ M F); [done|done|by exists d|by apply ram_tables_same| |].
    + intros q (Hp & Hpg & Hm & Hu) _. split.
      * split; [done|]. split; [unfold is_page; cbn; by rewrite T2|]. cbn. rewrite T4, T5 by apply Hpg.
        split; [done|]. by rewrite Hu, orb_true_r.
      * cbn. rewrite T6 by done. rewrite decide_False; [done|]. intros Hr.
        destruct Hfree as (_ & _ & F3). rewrite F3 in Hu by done. done.
    + intros x [Hx|Hx]%elem_of_union; [right|by left]. split; [by apply Hfresh|].
      destruct (Hrunp x Hx) as (Hp & Hpg & Hu & Hr). split.
      * split; [done|]. split; [unfold is_page; cbn; by rewrite T2|]. cbn.
        rewrite T4, T5 by apply Hpg. split; [by eapply shape_free_managed; [apply Hi|..]|].
        by rewrite bool_decide_true.
      * cbn. rewrite T6 by done. by rewrite decide_True.
Qed.

Lemma free_contiguous_law f n s M F : pages_ok s M F → 0 < n → frames_from f n ⊆ F →
  ∃ s', in_frames (pmm_free_pages_contiguous f n) s = Done ((), s') ∧
    pages_ok s' M (F ∖ frames_from f n).
Proof.
  intros Hok Hn Hsub. destruct (ko_inv _ _ _ Hok) as [d Hi].
  assert (∀ x, x ∈ F → pmm_frame_used (frames s) x ∧ refc (frames s) (page_index x) = 1) as HF.
  { intros x Hx. by destruct (ko_held _ _ _ Hok x Hx) as [(Hu & _) Hr]. }
  assert (f ∈ F) as Hf0 by (apply Hsub, elem_of_frames; exists 0; lia).
  destruct (HF f Hf0) as [Hfu _]. pose proof (proj1 Hfu) as Hfp.
  pose proof (used_range d _ _ Hi Hfu) as Hfr. pose proof (page_ok_index f Hfp) as Hfi.
  assert (∀ k, page_index f ≤ k < page_index f + n →
    k * PMM_PAGE_SIZE ∈ frames_from f n) as Hin.
  { intros k Hk. rewrite Hfi. apply elem_of_run_pages; [apply page_ok_mul|]. by rewrite page_index_mul. }
  assert (∀ k, page_index f ≤ k < page_index f + n → is_page (frames s) k ∧
    freeable (frames s) k ∧ refc (frames s) k = 1) as Hfree.
  { intros k Hk. destruct (HF _ (Hsub _ (Hin k Hk))) as ((_ & Hpg & Hm & Hu) & Hr).
    rewrite page_index_mul in *. done. }
  destruct (pmm_free_pages_contiguous_run d (frames s) f n Hi ltac:(lia) ltac:(lia))
    as [(_ & fs & Hrun & T1 & T2 & T3 & T4 & T5 & T6)|[Hno _]].
  2: { destruct Hno. split; [|intros k Hk; by apply Hfree]. apply range_is_valid_true; [lia|].
       destruct (Hfree (page_index f)) as [Hp _]; [lia|].
       destruct (Hfree (page_index f + n - 1)) as [[_ Hl] _]; [lia|]. split; [done|]. split; [lia|].
       split; [done|lia]. }
  exists (with_frames fs s). split; [unfold in_frames, zoom; by rewrite Hrun|].
  apply (pages_ok_frames s _ M F); [done|done|by exists d|by apply ram_tables_same| |].
  2: { intros q [Hq _]%elem_of_difference. by left. }
  intros q (Hp & Hpg & Hm & Hu) HqF.
  assert (¬ (page_index f ≤ page_index q < page_index f + n)) as Hout.
  { intros Hr. apply Hin in Hr. rewrite <-(page_ok_index q Hp) in Hr.
    by destruct (proj1 (elem_of_difference _ _ _) (HqF (Hsub _ Hr))). }
  cbn. rewrite T6, decide_False by done. split; [|done]. split; [done|].
  split; [unfold is_page; by rewrite T2|]. rewrite T4, T5, decide_False by (done || apply Hpg). done.
Qed.

(** ** Mapping *)

Lemma heap_flags_present : has heap_flags VMM_PRESENT = true.
Proof. done. Qed.

(** Pages of the heap that the tables do not tell apart are the same page. *)
Lemma pages_path s M F v v' f f' : pages_ok s M F → M !! v = Some f → M !! v' = Some f' →
  va_path v = va_path v' → v = v'.
Proof.
  intros Hok Hv Hv' Hp. destruct (ko_leaf _ _ _ Hok _ _ Hv) as [_ Hl].
  destruct (ko_leaf _ _ _ Hok _ _ Hv') as [_ Hl']. rewrite (leaf_path _ _ _ _ Hp) in Hl.
  rewrite Hl in Hl'. injection Hl' as He. apply (f_equal entry_phys) in He.
  rewrite !entry_phys_make in He; [|eapply own_frame_ok; [apply Hok|by eapply ko_mapped]..].
  subst f'. by eapply ko_inj.
Qed.

(** A mapping operation: [pages_ok] follows from the leaves. *)
Lemma pages_ok_kept s s' M F M' F' :
  pages_ok s M F → kept (kroot s) s s' →
  (∀ v f, M' !! v = Some f → page_ok v ∧
    leaf (ram_of s') (kroot s) v = Some (make_entry f heap_flags)) →
  (∀ v f, M' !! v = Some f → own_frame s f ∧ f ∉ F') →
  (∀ f, f ∈ F' → own_frame s f) →
  (∀ v v' f, M' !! v = Some f → M' !! v' = Some f → v = v') →
  pages_ok s' M' F'.
Proof.
  intros Hok Hk Hl Hm HF Hinj.
  assert (kroot s' = kroot s) as Hroot by exact (kp_space _ _ _ Hk KernelSpace eq_refl).
  assert (∀ f, own_frame s f → own_frame s' f) as Hown.
  { intros f [Ho Hr]. split; [rewrite Hroot; by apply (kp_other _ _ _ Hk)|].
    rewrite (kp_refs _ _ _ Hk); [done|apply Ho]. }
  split; rewrite ?Hroot; [apply Hk|apply Hk|done| |auto|done].
  intros v f Hv. destruct (Hm v f Hv). auto.
Qed.

Lemma map_law v f s M F : pages_ok s M F → M !! v = None → f ∈ F →
  ∃ r s', (rc ← vmm_map (Some KernelSpace) v f heap_flags; mret (rc =? 0)) s = Done (r, s') ∧
    (if (r : bool) then pages_ok s' (<[v := f]> M) (F ∖ {[f]}) else pages_ok s' M F).
Proof.
  intros Hok HM Hf. pose proof (ko_held _ _ _ Hok f Hf) as Hown.
  pose proof (own_frame_ok _ _ (ko_inv _ _ _ Hok) Hown) as Hfok.
  destruct (page_aligned v) eqn:Hal.
  2: { exists false, s. split; [|done]. unfold vmm_map. by rewrite Hal. }
  apply page_aligned_ok in Hal.
  destruct (proj1 (wp_run _ _ _) (wp_vmm_map s KernelSpace (kroot s) v f heap_flags
    (ko_inv _ _ _ Hok) (ko_space _ _ _ Hok) eq_refl Hal Hfok heap_flags_present))
    as (rc & s' & Hrun & Hk & Hpost).
  exists (rc =? 0), s'. split; [by erewrite run_bind by exact Hrun|].
  assert ((∀ va, leaf (ram_of s') (kroot s) va = leaf (ram_of s) (kroot s) va) → pages_ok s' M F) as Hsame.
  { intros Hl. eapply pages_ok_kept; [done|done| |apply Hok..]. intros x g Hx.
    rewrite Hl. by apply (ko_leaf _ _ _ Hok). }
  destruct (leaf (ram_of s) (kroot s) v) as [e|] eqn:Hleaf.
  { destruct Hpost as [-> Hl]. by apply Hsame. }
  destruct Hpost as [(-> & _ & Hl)|(-> & _ & Hl)]; [|by apply Hsame]. cbn [Z.eqb].
  eapply pages_ok_kept; [done|done|..].
  - intros x g [[<- <-]|[Hne Hx]]%lookup_insert_Some.
    + split; [done|]. rewrite Hl. by rewrite decide_True.
    + destruct (ko_leaf _ _ _ Hok x g Hx) as [Hp Hlx]. split; [done|]. rewrite Hl, decide_False; [done|].
      intros Hpath. rewrite (leaf_path _ _ _ _ Hpath), Hlx in Hleaf. done.
  - intros x g [[<- <-]|[Hne Hx]]%lookup_insert_Some.
    + split; [done|]. by intros [_ []%not_elem_of_singleton]%elem_of_difference.
    + destruct (ko_mapped _ _ _ Hok x g Hx). split; [done|]. by intros [? _]%elem_of_difference.
  - intros g [Hg _]%elem_of_difference. by apply (ko_held _ _ _ Hok).
  - intros x y g [[<- <-]|[Hne Hx]]%lookup_insert_Some [[<- Hg]|[Hne' Hy]]%lookup_insert_Some.
    + done.
    + by destruct (ko_mapped _ _ _ Hok y f Hy).
    + subst g. by destruct (ko_mapped _ _ _ Hok x f Hx).
    + by eapply (ko_inj _ _ _ Hok).
Qed.

Lemma unmap_law v f s M F : pages_ok s M F → M !! v = Some f →
  ∃ s', (vmm_unmap (Some KernelSpace) v;; mret ()) s = Done ((), s') ∧
    pages_ok s' (delete v M) ({[f]} ∪ F).
Proof.
  intros Hok HM. destruct (ko_leaf _ _ _ Hok v f HM) as [Hp Hleaf].
  destruct (proj1 (wp_run _ _ _) (wp_vmm_unmap s KernelSpace (kroot s) v
    (ko_inv _ _ _ Hok) (ko_space _ _ _ Hok) eq_refl Hp)) as (rc & s' & Hrun & Hpost).
  unfold rewrite_post in Hpost. rewrite Hleaf in Hpost. destruct Hpost as (-> & Hk & _ & _ & Hl).
  exists s'. split; [by erewrite run_bind by exact Hrun|].
  eapply pages_ok_kept; [done|done|..].
  - intros x g [Hne Hx]%lookup_delete_Some. destruct (ko_leaf _ _ _ Hok x g Hx) as [Hpx Hlx].
    split; [done|]. rewrite Hl, decide_False; [done|]. intros Hpath.
    by apply Hne, (pages_path s M F v x f g).
  - intros x g [Hne Hx]%lookup_delete_Some. destruct (ko_mapped _ _ _ Hok x g Hx) as [? ?].
    split; [done|]. intros [->%elem_of_singleton|?]%elem_of_union; [|done].
    by apply Hne, (ko_inj _ _ _ Hok v x f).
  - intros g [->%elem_of_singleton|Hg]%elem_of_union; [by apply (ko_mapped _ _ _ Hok v)|].
    by apply (ko_held _ _ _ Hok).
  - intros x y g [_ Hx]%lookup_delete_Some [_ Hy]%lookup_delete_Some. by eapply (ko_inj _ _ _ Hok).
Qed.

Lemma translate_law v f s M F : pages_ok s M F → M !! v = Some f →
  vmm_virt_to_phys (Some KernelSpace) v s = Done (Some f, s).
Proof.
  intros Hok HM. destruct (ko_leaf _ _ _ Hok v f HM) as [Hp Hleaf].
  rewrite (vmm_virt_to_phys_run s KernelSpace (kroot s)) by done.
  unfold translate. rewrite Hleaf. cbn. rewrite entry_phys_make by
    (eapply own_frame_ok; [apply Hok|by eapply ko_mapped]).
  unfold page_ok in Hp. change PAGE_SIZE with 4096 in Hp. by rewrite Hp, Z.add_0_r.
Qed.

Definition kernel_pages_laws : @PageLaws (vmm pmm) kernel_pages.
Proof.
  refine (@Build_PageLaws (vmm pmm) kernel_pages pages_ok _ _ _ _ _ _ _).
  - exact alloc_page_law.
  - exact alloc_contiguous_law.
  - intros v f p M F. apply map_law.
  - intros v f p M F. apply unmap_law.
  - intros v f p M F. apply translate_law.
  - intros f p M F Hok Hf. by apply free_page_law.
  - intros f n p M F. apply free_contiguous_law.
Defined.
End pages.
