(* ===== verification/HeapProps.v ===== *)
(** * Properties of the kernel heap

    The heap on the kernel's own page allocator and page tables: no call of a
    correct client stops, clients see their own data, and a second [kfree] of a
    small block is not recognised as one. *)

From S2P Require Import Prelude Bits Links Ram Pmm PmmSpec PmmProps Frames Vmm VmmSpec VmmProps.
From S2P Require Import Heap HeapSpec HeapRun HeapBlocks HeapUse HeapClient HeapPages.

Section generic.
Context {P : Type} `{PageLaws P}.

(** ** After [heap_init] *)

Definition empty_aheap : aheap := AHeap (replicate 8 []) ∅ ∅ ∅.

Lemma heap_inv_init m : heap_inv (replicate 8 0) HEAP_START m empty_aheap.
Proof.
  assert (∀ i ps, replicate 8 [] !! i = Some ps → ps = ([] : list Z)) as Hnil.
  { intros i ps Hi. by apply lookup_replicate in Hi as [-> _]. }
  split; cbn.
  - done.
  - intros i ps b Hps Hb. apply (Hnil i) in Hps as ->. by apply (lookup_replicate 8 0) in Hb as [-> _].
  - intros i ps p Hps. apply (Hnil i) in Hps as ->. by intros ?%elem_of_nil.
  - intros i j ps qs p Hps. apply (Hnil i) in Hps as ->. by intros _ ?%elem_of_nil.
  - done.
  - done.
  - done.
  - done.
  - done.
Qed.

Lemma sim_init h0 h : pl_ok (pages h0) ∅ ∅ → heap_init true h0 = Done ((), h) → sim h (Client ∅ ∅).
Proof.
  intros Hok [= <-]. exists empty_aheap, ∅, id. split; [|done].
  split; cbn; [apply heap_inv_init|done|done|done|done].
Qed.

Lemma reach_sim h0 h s : pl_ok (pages h0) ∅ ∅ → hreach h0 h s → sim h s.
Proof.
  intros Hok Hr. induction Hr as [h Hi|h s op r h' Hr IH He Hrun]; [by eapply sim_init|].
  pose proof (wp_hop h s op IH He) as Hw. unfold wp in Hw. by rewrite Hrun in Hw.
Qed.

(** ** The interrupt flag *)








(** ** Freeing a small block twice *)

(** The address of a free chunk, read as a header. *)
Lemma link_header i p f : real_bin i → chunk_at p i f → p `mod` PAGE = 0 →
  HEAP_START ≤ p → p + PAGE ≤ HEAP_START + HEAP_SIZE →
  BIN_COUNT ≤ field16 0 f ∧ 0xa000 ≤ field16 16 f < 0xb000.
Proof.
  intros Ri Hc Hm Hlo Hhi. destruct (chunk_in_page _ _ _ Ri Hc) as (H1 & H2 & _).
  pose proof (bsize_real i Ri) as (Hb & _).
  rewrite !field16_div by lia. unfold PAGE, HEAP_START, HEAP_SIZE, BIN_COUNT in *.
  change (2 ^ 0) with 1. change (2 ^ 16) with 65536. rewrite Z.div_1_r.
  pose proof (Z.div_mod p 4096 ltac:(lia)). pose proof (Z.div_mod f 65536 ltac:(lia)).
  pose proof (Z.mod_pos_bound f 65536 ltac:(lia)).
  pose proof (Z.div_mod (f / 65536) 65536 ltac:(lia)).
  pose proof (Z.mod_pos_bound (f / 65536) 65536 ltac:(lia)). lia.
Qed.

(** What the second [kfree] does with a first word [f]. *)
Definition second_kfree (p f : Z) (h : heap P) : Prop :=
  field16 16 f ≠ MAGIC_FREE ∧
  if decide (field16 16 f = MAGIC_ALIGNED) then
    words h !! (p - 8) = Some 0 → ∃ h', kfree p h = Done ((), h') ∧
      words h' !! (p - alloc_header_size) = Some (put16 16 MAGIC_FREE f)
  else kfree p h = Stop (Panicked "Heap: invalid magic") ∨
    kfree p h = Stop (Panicked "Heap: corrupted alloc header").

Lemma kfree_run p (h : heap P) : kfree p h =
  match kfree_unlocked (size (words h)) p (set_if_flag false h) with
  | Done (_, h') => Done ((), set_if_flag (if_flag h) h')
  | Stop r => Stop r
  end.
Proof. done. Qed.
Lemma rd64_run a v (h : heap P) : words h !! a = Some v → rd64 a h = Done (v, h).
Proof. intros Hv. unfold rd64, mbind, prog_bind, get. by rewrite Hv. Qed.
Lemma wr64_run a v (h : heap P) : is_Some (words h !! a) →
  wr64 a v h = Done ((), set_words (<[a := v]> (words h)) h).
Proof. intros [w Hw]. unfold wr64. by erewrite run_bind by by apply rd64_run. Qed.

Lemma second_kfree_run p f h : alloc_header_size ≤ p < 2 ^ 64 → p ≠ 0 →
  words h !! (p - alloc_header_size) = Some f →
  (f = 0 ∨ BIN_COUNT ≤ field16 0 f ∧ 0xa000 ≤ field16 16 f < 0xb000) → second_kfree p f h.
Proof.
  intros Hp Hp0 Hw Hf. unfold second_kfree, alloc_header_size in *.
  assert (field16 16 f ≠ MAGIC_FREE ∧ field16 16 f ≠ MAGIC_DIRECT) as [Hnf Hnd].
  { destruct Hf as [->|[_ Hr]]; [done|]. unfold MAGIC_FREE, MAGIC_DIRECT. lia. }
  split; [done|].
  destruct (size (words h)) as [|fuel] eqn:Esz.
  { apply map_size_empty_inv in Esz. by rewrite Esz in Hw. }
  rewrite kfree_run, Esz. cbn [kfree_unlocked]. rewrite (proj2 (Z.eqb_neq p 0)) by done.
  unfold alloc_header_size. rewrite (u64_small (p - 24)) by lia.
  erewrite run_bind by (apply rd64_run; exact Hw).
  rewrite (proj2 (Z.eqb_neq _ _) Hnf). destruct (decide _) as [->|Hna].
  - intros H8. rewrite Z.eqb_refl. erewrite run_bind by
      (apply rd64_run; cbn; replace (p - 24 + 16) with (p - 8) by lia; exact H8).
    erewrite run_bind by (apply wr64_run; by eexists).
    destruct fuel as [|fuel]; cbn [kfree_unlocked]; rewrite Z.eqb_refl;
      (eexists; split; [done|]; cbn; apply lookup_insert_eq).
  - rewrite (proj2 (Z.eqb_neq _ _) Hna). destruct Hf as [->|[Hbin _]]; [by left|].
    rewrite (proj2 (Z.eqb_neq _ _) Hnd). destruct (Z.eqb_spec (field16 16 f) MAGIC_ALLOC); [right|by left].
    unfold free_slab. by rewrite (proj2 (Z.leb_le _ _) Hbin).
Qed.

(** Freeing a small block leaves the address of another chunk, or 0, where its
    header was. *)
Lemma wp_kfree_small A M c i q sz h :
  hinv h A M → ah_live A !! c = Some (BSlab i q sz) → heap_next h ≤ HEAP_START + HEAP_SIZE →
  wp (kfree (c + alloc_header_size)) (λ _ h', words h' !! (c + 16) = words h !! (c + 16) ∧
    ∃ f, words h' !! c = Some f ∧
      (f = 0 ∨ BIN_COUNT ≤ field16 0 f ∧ 0xa000 ≤ field16 16 f < 0xb000)) h.
Proof.
  intros Hv Hl Hnext. pose proof (hv_inv _ _ _ Hv) as Hinv.
  destruct (hi_live_slab _ _ _ _ Hinv _ _ _ _ Hl) as (ps & Hps & Hp & _).
  destruct (hi_slab _ _ _ _ Hinv _ _ _ Hps Hp) as (Ri & (Hm & Hlo & Hhi) & fl & Hfl & Hsk).
  destruct (sk_free _ _ _ _ Hsk) as (f & Hf & Hs).
  unfold kfree, save_if, restore_if, free_fuel. wp_steps.
  eapply (wp_kfree_header _ A M c (BSlab i q sz)); [by eapply (hinv_ext h)|done|]. intros w Hw Hbin.
  eapply wp_mono; [eapply (wp_free_slab A M c i q sz w (set_if_flag false h)); [by eapply (hinv_ext h)|done..]|].
  intros _ h' (_ & _ & _ & _ & Hc & Hc16). wp_steps. cbn in *. split; [done|]. exists f.
  rewrite Hc. split; [done|]. destruct fl as [|f' fl]; [left; by cbn in Hs|right].
  cbn in Hs. destruct Hs as [-> _]. eapply link_header; [done| |done|done|].
  - apply (sk_grid _ _ _ _ Hsk). by left.
  - unfold PAGE in *. lia.
Qed.
End generic.

(** ** The heap of the kernel *)

Section kernel.
Context (b : boot_info) (off : Z) (Hoff : hhdm_response b = Some off).
#[local] Instance heap_pages : PageOps (vmm pmm) := kernel_pages b.
#[local] Instance heap_pages_laws : PageLaws (vmm pmm) := kernel_pages_laws b off Hoff.



(** C35. A second [kfree] of a small block is not recognised as a double free.
    The mark [kfree] leaves in the header is overwritten at once by the link of
    the free list, so the check for it cannot fire; the second call panics about
    a wrong or corrupted header, or, when bits 16 to 31 of the link happen to be
    [MAGIC_ALIGNED], it returns as if all were well, having overwritten these
    bits of the link. *)
Theorem heap_double_free h0 h s p sz w :
  pages_ok b off Hoff (pages h0) ∅ ∅ → hreach h0 h s →
  cl_blocks s !! p = Some (ABlock sz None) →
  words h !! (p - alloc_header_size) = Some w → field16 16 w = MAGIC_ALLOC →
  heap_next h ≤ HEAP_START + HEAP_SIZE →
  ∃ h1 f, kfree p h = Done ((), h1) ∧ words h1 !! (p - alloc_header_size) = Some f ∧
    words h1 !! (p - 8) = words h !! (p - 8) ∧ second_kfree p f h1.
Proof.
  intros Hok Hr Hp Hw Hm Hnext. pose proof (reach_sim h0 h s Hok Hr) as (A & M & own & Hv & Hl).
  destruct (lk_block _ _ _ Hl p _ Hp) as [k [P1 P2 P3 [Hpc _]]].
  set (c := own p) in *. clearbody c. subst p.
  destruct (live_words _ _ _ _ _ Hv P1) as (_ & _ & Hlo & Hhi).
  destruct (live_header _ _ _ _ _ Hv P1) as (w' & Hw' & Hk).
  unfold HEAP_START, alloc_header_size in *. replace (c + 24 - 24) with c in * by lia.
  replace (c + 24 - 8) with (c + 16) by lia. assert (w' = w) as -> by congruence.
  destruct k as [i q sz'|n sz']; destruct Hk as [_ Hk]; [|rewrite Hm in Hk; done].
  destruct (proj1 (wp_run _ _ _) (wp_kfree_small A M c i q sz' h Hv P1 Hnext))
    as ([] & h1 & Hrun & H16 & f & Hf & Hbits).
  exists h1, f. split; [exact Hrun|]. split; [done|]. split; [done|].
  apply second_kfree_run; unfold alloc_header_size; [|lia|by replace (c + 24 - 24) with c by lia|done].
  destruct P3. lia.
Qed.
End kernel.

(** ** Witnesses *)

#[local] Instance demo_pages : PageOps (vmm pmm) := kernel_pages demo_boot.

Definition demo_h0 : heap (vmm pmm) :=
  Heap [] (HeapStats 0 0 0 0 0 0) 0 0 false ∅ true demo_vmm.
Definition demo_h1 : heap (vmm pmm) := state_of (heap_init true) demo_h0.
Definition demo_h2 : heap (vmm pmm) := state_of (kmalloc 40) demo_h1.
Definition demo_ptr : Z := 18446744072098942896.

Lemma demo_pages_ok : pages_ok demo_boot 0xffff800000000000 eq_refl (pages demo_h0) ∅ ∅.
Proof.
  destruct demo_vmm_ok as [Hok _]. split; [exact demo_vmm_inv|exact Hok|done..].
Qed.

Lemma demo_reach1 : hreach demo_h0 demo_h1 (Client ∅ ∅).
Proof. apply hreach_init. reflexivity. Qed.

Lemma demo_run : kmalloc 40 demo_h1 = Done (demo_ptr, demo_h2).
Proof.
  assert (value_of (kmalloc 40) demo_h1 = Some demo_ptr) as Hv by (vm_compute; reflexivity).
  unfold demo_h2, state_of. unfold value_of in Hv.
  destruct (kmalloc 40 demo_h1) as [[r h]|]; [|discriminate Hv]. injection Hv as ->. reflexivity.
Qed.

Lemma demo_enabled : enabled demo_h1 (Client ∅ ∅) (Kmalloc 40).
Proof. split; [split; lia|]. vm_compute. reflexivity. Qed.

Lemma demo_reach2 : hreach demo_h0 demo_h2 (Client {[demo_ptr := ABlock 40 None]} ∅).
Proof. exact (hreach_step _ _ _ (Kmalloc 40) _ _ demo_reach1 demo_enabled demo_run). Qed.



Lemma heap_double_free_witness : ∃ h1 f, kfree demo_ptr demo_h2 = Done ((), h1) ∧ second_kfree demo_ptr f h1.
Proof.
  destruct (heap_double_free demo_boot _ eq_refl demo_h0 demo_h2 _ demo_ptr 40
    (2 + Z.shiftl MAGIC_ALLOC 16) demo_pages_ok demo_reach2) as (h1 & f & Hrun & _ & _ & Hs).
  - reflexivity.
  - vm_compute. reflexivity.
  - reflexivity.
  - vm_compute. discriminate.
  - exists h1, f. split; [exact Hrun|exact Hs].
Defined.
