(* ===== verification/NetState.v ===== *)
(** * State of the network stack

    Packets are lists of bytes; a pointer into a packet is the list of the bytes
    from there to the end of the buffer, so that a read past the buffer has no
    result.  Multi-byte fields are read and written little-endian, as the
    machine does, and swapped explicitly where the code swaps them. *)

From S2P Require Import Prelude.

Definition ETH_TYPE_ARP : Z := 0x0806.
Definition ETH_TYPE_IPV4 : Z := 0x0800.
Definition ARP_OP_REQUEST : Z := 1.
Definition ARP_OP_REPLY : Z := 2.
Definition IP_PROTO_ICMP : Z := 1.
Definition IP_PROTO_TCP : Z := 6.
Definition IP_PROTO_UDP : Z := 17.
Definition ICMP_TYPE_ECHO_REPLY : Z := 0.
Definition ICMP_TYPE_ECHO_REQUEST : Z := 8.
Definition TCP_FLAG_FIN : Z := 0x01.
Definition TCP_FLAG_SYN : Z := 0x02.
Definition TCP_FLAG_RST : Z := 0x04.
Definition TCP_FLAG_PSH : Z := 0x08.
Definition TCP_FLAG_ACK : Z := 0x10.
Definition SOCKET_TYPE_UDP : Z := 1.
Definition SOCKET_TYPE_TCP : Z := 2.
Definition MAX_SOCKETS : nat := 64.
Definition TCP_STATE_CLOSED : Z := 0.
Definition TCP_STATE_LISTEN : Z := 1.
Definition TCP_STATE_SYN_SENT : Z := 2.
Definition TCP_STATE_SYN_RECEIVED : Z := 3.
Definition TCP_STATE_ESTABLISHED : Z := 4.
Definition TCP_STATE_FIN_WAIT_1 : Z := 5.
Definition TCP_STATE_FIN_WAIT_2 : Z := 6.
Definition TCP_STATE_CLOSE_WAIT : Z := 7.
Definition TCP_STATE_LAST_ACK : Z := 8.
Definition TCP_STATE_TIME_WAIT : Z := 9.

(** [struct socket]; a socket is known by its index in [socket_table]. *)
Record socket := Socket {
  s_valid : bool;
  s_domain : Z;
  s_type : Z;
  s_local_port : Z;
  s_remote_port : Z;
  s_remote_ip : list Z;
  s_rx_buf : list Z;  (** the bytes of the buffer, none if it is [NULL] *)
  s_rx_buf_size : Z;
  s_rx_read_ptr : Z;
  s_rx_write_ptr : Z;
  s_tcp_state : Z;
  s_snd_nxt : Z;
  s_rcv_nxt : Z;
  s_snd_una : Z;
  s_rtx_time : Z;
  s_rtx_count : Z;
  s_parent_listener : option nat;
  s_accept_queue : list (option nat);
  s_accept_count : Z;
  s_bound : bool;
  s_connected : bool;
  s_closed : bool;
  s_shutdown_read : bool;
  s_shutdown_write : bool;
  s_so_error : Z;
  s_so_reuseaddr : Z;
  s_peer : option nat;
}.

Definition set_s_valid (v : bool) (x : socket) : socket :=
  Socket v (s_domain x) (s_type x) (s_local_port x) (s_remote_port x)
    (s_remote_ip x) (s_rx_buf x) (s_rx_buf_size x) (s_rx_read_ptr x)
    (s_rx_write_ptr x) (s_tcp_state x) (s_snd_nxt x) (s_rcv_nxt x)
    (s_snd_una x) (s_rtx_time x) (s_rtx_count x) (s_parent_listener x)
    (s_accept_queue x) (s_accept_count x) (s_bound x) (s_connected x)
    (s_closed x) (s_shutdown_read x) (s_shutdown_write x) (s_so_error x)
    (s_so_reuseaddr x) (s_peer x).
Definition set_s_domain (v : Z) (x : socket) : socket :=
  Socket (s_valid x) v (s_type x) (s_local_port x) (s_remote_port x)
    (s_remote_ip x) (s_rx_buf x) (s_rx_buf_size x) (s_rx_read_ptr x)
    (s_rx_write_ptr x) (s_tcp_state x) (s_snd_nxt x) (s_rcv_nxt x)
    (s_snd_una x) (s_rtx_time x) (s_rtx_count x) (s_parent_listener x)
    (s_accept_queue x) (s_accept_count x) (s_bound x) (s_connected x)
    (s_closed x) (s_shutdown_read x) (s_shutdown_write x) (s_so_error x)
    (s_so_reuseaddr x) (s_peer x).
Definition set_s_type (v : Z) (x : socket) : socket :=
  Socket (s_valid x) (s_domain x) v (s_local_port x) (s_remote_port x)
    (s_remote_ip x) (s_rx_buf x) (s_rx_buf_size x) (s_rx_read_ptr x)
    (s_rx_write_ptr x) (s_tcp_state x) (s_snd_nxt x) (s_rcv_nxt x)
    (s_snd_una x) (s_rtx_time x) (s_rtx_count x) (s_parent_listener x)
    (s_accept_queue x) (s_accept_count x) (s_bound x) (s_connected x)
    (s_closed x) (s_shutdown_read x) (s_shutdown_write x) (s_so_error x)
    (s_so_reuseaddr x) (s_peer x).
Definition set_s_local_port (v : Z) (x : socket) : socket :=
  Socket (s_valid x) (s_domain x) (s_type x) v (s_remote_port x)
    (s_remote_ip x) (s_rx_buf x) (s_rx_buf_size x) (s_rx_read_ptr x)
    (s_rx_write_ptr x) (s_tcp_state x) (s_snd_nxt x) (s_rcv_nxt x)
    (s_snd_una x) (s_rtx_time x) (s_rtx_count x) (s_parent_listener x)
    (s_accept_queue x) (s_accept_count x) (s_bound x) (s_connected x)
    (s_closed x) (s_shutdown_read x) (s_shutdown_write x) (s_so_error x)
    (s_so_reuseaddr x) (s_peer x).
Definition set_s_remote_port (v : Z) (x : socket) : socket :=
  Socket (s_valid x) (s_domain x) (s_type x) (s_local_port x) v
    (s_remote_ip x) (s_rx_buf x) (s_rx_buf_size x) (s_rx_read_ptr x)
    (s_rx_write_ptr x) (s_tcp_state x) (s_snd_nxt x) (s_rcv_nxt x)
    (s_snd_una x) (s_rtx_time x) (s_rtx_count x) (s_parent_listener x)
    (s_accept_queue x) (s_accept_count x) (s_bound x) (s_connected x)
    (s_closed x) (s_shutdown_read x) (s_shutdown_write x) (s_so_error x)
    (s_so_reuseaddr x) (s_peer x).
Definition set_s_remote_ip (v : list Z) (x : socket) : socket :=
  Socket (s_valid x) (s_domain x) (s_type x) (s_local_port x)
    (s_remote_port x) v (s_rx_buf x) (s_rx_buf_size x) (s_rx_read_ptr x)
    (s_rx_write_ptr x) (s_tcp_state x) (s_snd_nxt x) (s_rcv_nxt x)
    (s_snd_una x) (s_rtx_time x) (s_rtx_count x) (s_parent_listener x)
    (s_accept_queue x) (s_accept_count x) (s_bound x) (s_connected x)
    (s_closed x) (s_shutdown_read x) (s_shutdown_write x) (s_so_error x)
    (s_so_reuseaddr x) (s_peer x).
Definition set_s_rx_buf (v : list Z) (x : socket) : socket :=
  Socket (s_valid x) (s_domain x) (s_type x) (s_local_port x)
    (s_remote_port x) (s_remote_ip x) v (s_rx_buf_size x) (s_rx_read_ptr x)
    (s_rx_write_ptr x) (s_tcp_state x) (s_snd_nxt x) (s_rcv_nxt x)
    (s_snd_una x) (s_rtx_time x) (s_rtx_count x) (s_parent_listener x)
    (s_accept_queue x) (s_accept_count x) (s_bound x) (s_connected x)
    (s_closed x) (s_shutdown_read x) (s_shutdown_write x) (s_so_error x)
    (s_so_reuseaddr x) (s_peer x).
Definition set_s_rx_buf_size (v : Z) (x : socket) : socket :=
  Socket (s_valid x) (s_domain x) (s_type x) (s_local_port x)
    (s_remote_port x) (s_remote_ip x) (s_rx_buf x) v (s_rx_read_ptr x)
    (s_rx_write_ptr x) (s_tcp_state x) (s_snd_nxt x) (s_rcv_nxt x)
    (s_snd_una x) (s_rtx_time x) (s_rtx_count x) (s_parent_listener x)
    (s_accept_queue x) (s_accept_count x) (s_bound x) (s_connected x)
    (s_closed x) (s_shutdown_read x) (s_shutdown_write x) (s_so_error x)
    (s_so_reuseaddr x) (s_peer x).
Definition set_s_rx_read_ptr (v : Z) (x : socket) : socket :=
  Socket (s_valid x) (s_domain x) (s_type x) (s_local_port x)
    (s_remote_port x) (s_remote_ip x) (s_rx_buf x) (s_rx_buf_size x) v
    (s_rx_write_ptr x) (s_tcp_state x) (s_snd_nxt x) (s_rcv_nxt x)
    (s_snd_una x) (s_rtx_time x) (s_rtx_count x) (s_parent_listener x)
    (s_accept_queue x) (s_accept_count x) (s_bound x) (s_connected x)
    (s_closed x) (s_shutdown_read x) (s_shutdown_write x) (s_so_error x)
    (s_so_reuseaddr x) (s_peer x).
Definition set_s_rx_write_ptr (v : Z) (x : socket) : socket :=
  Socket (s_valid x) (s_domain x) (s_type x) (s_local_port x)
    (s_remote_port x) (s_remote_ip x) (s_rx_buf x) (s_rx_buf_size x)
    (s_rx_read_ptr x) v (s_tcp_state x) (s_snd_nxt x) (s_rcv_nxt x)
    (s_snd_una x) (s_rtx_time x) (s_rtx_count x) (s_parent_listener x)
    (s_accept_queue x) (s_accept_count x) (s_bound x) (s_connected x)
    (s_closed x) (s_shutdown_read x) (s_shutdown_write x) (s_so_error x)
    (s_so_reuseaddr x) (s_peer x).
Definition set_s_tcp_state (v : Z) (x : socket) : socket :=
  Socket (s_valid x) (s_domain x) (s_type x) (s_local_port x)
    (s_remote_port x) (s_remote_ip x) (s_rx_buf x) (s_rx_buf_size x)
    (s_rx_read_ptr x) (s_rx_write_ptr x) v (s_snd_nxt x) (s_rcv_nxt x)
    (s_snd_una x) (s_rtx_time x) (s_rtx_count x) (s_parent_listener x)
    (s_accept_queue x) (s_accept_count x) (s_bound x) (s_connected x)
    (s_closed x) (s_shutdown_read x) (s_shutdown_write x) (s_so_error x)
    (s_so_reuseaddr x) (s_peer x).
Definition set_s_snd_nxt (v : Z) (x : socket) : socket :=
  Socket (s_valid x) (s_domain x) (s_type x) (s_local_port x)
    (s_remote_port x) (s_remote_ip x) (s_rx_buf x) (s_rx_buf_size x)
    (s_rx_read_ptr x) (s_rx_write_ptr x) (s_tcp_state x) v (s_rcv_nxt x)
    (s_snd_una x) (s_rtx_time x) (s_rtx_count x) (s_parent_listener x)
    (s_accept_queue x) (s_accept_count x) (s_bound x) (s_connected x)
    (s_closed x) (s_shutdown_read x) (s_shutdown_write x) (s_so_error x)
    (s_so_reuseaddr x) (s_peer x).
Definition set_s_rcv_nxt (v : Z) (x : socket) : socket :=
  Socket (s_valid x) (s_domain x) (s_type x) (s_local_port x)
    (s_remote_port x) (s_remote_ip x) (s_rx_buf x) (s_rx_buf_size x)
    (s_rx_read_ptr x) (s_rx_write_ptr x) (s_tcp_state x) (s_snd_nxt x) v
    (s_snd_una x) (s_rtx_time x) (s_rtx_count x) (s_parent_listener x)
    (s_accept_queue x) (s_accept_count x) (s_bound x) (s_connected x)
    (s_closed x) (s_shutdown_read x) (s_shutdown_write x) (s_so_error x)
    (s_so_reuseaddr x) (s_peer x).
Definition set_s_snd_una (v : Z) (x : socket) : socket :=
  Socket (s_valid x) (s_domain x) (s_type x) (s_local_port x)
    (s_remote_port x) (s_remote_ip x) (s_rx_buf x) (s_rx_buf_size x)
    (s_rx_read_ptr x) (s_rx_write_ptr x) (s_tcp_state x) (s_snd_nxt x)
    (s_rcv_nxt x) v (s_rtx_time x) (s_rtx_count x) (s_parent_listener x)
    (s_accept_queue x) (s_accept_count x) (s_bound x) (s_connected x)
    (s_closed x) (s_shutdown_read x) (s_shutdown_write x) (s_so_error x)
    (s_so_reuseaddr x) (s_peer x).
Definition set_s_rtx_time (v : Z) (x : socket) : socket :=
  Socket (s_valid x) (s_domain x) (s_type x) (s_local_port x)
    (s_remote_port x) (s_remote_ip x) (s_rx_buf x) (s_rx_buf_size x)
    (s_rx_read_ptr x) (s_rx_write_ptr x) (s_tcp_state x) (s_snd_nxt x)
    (s_rcv_nxt x) (s_snd_una x) v (s_rtx_count x) (s_parent_listener x)
    (s_accept_queue x) (s_accept_count x) (s_bound x) (s_connected x)
    (s_closed x) (s_shutdown_read x) (s_shutdown_write x) (s_so_error x)
    (s_so_reuseaddr x) (s_peer x).
Definition set_s_rtx_count (v : Z) (x : socket) : socket :=
  Socket (s_valid x) (s_domain x) (s_type x) (s_local_port x)
    (s_remote_port x) (s_remote_ip x) (s_rx_buf x) (s_rx_buf_size x)
    (s_rx_read_ptr x) (s_rx_write_ptr x) (s_tcp_state x) (s_snd_nxt x)
    (s_rcv_nxt x) (s_snd_una x) (s_rtx_time x) v (s_parent_listener x)
    (s_accept_queue x) (s_accept_count x) (s_bound x) (s_connected x)
    (s_closed x) (s_shutdown_read x) (s_shutdown_write x) (s_so_error x)
    (s_so_reuseaddr x) (s_peer x).
Definition set_s_parent_listener (v : option nat) (x : socket) : socket :=
  Socket (s_valid x) (s_domain x) (s_type x) (s_local_port x)
    (s_remote_port x) (s_remote_ip x) (s_rx_buf x) (s_rx_buf_size x)
    (s_rx_read_ptr x) (s_rx_write_ptr x) (s_tcp_state x) (s_snd_nxt x)
    (s_rcv_nxt x) (s_snd_una x) (s_rtx_time x) (s_rtx_count x) v
    (s_accept_queue x) (s_accept_count x) (s_bound x) (s_connected x)
    (s_closed x) (s_shutdown_read x) (s_shutdown_write x) (s_so_error x)
    (s_so_reuseaddr x) (s_peer x).
Definition set_s_accept_queue (v : list (option nat)) (x : socket) : socket :=
  Socket (s_valid x) (s_domain x) (s_type x) (s_local_port x)
    (s_remote_port x) (s_remote_ip x) (s_rx_buf x) (s_rx_buf_size x)
    (s_rx_read_ptr x) (s_rx_write_ptr x) (s_tcp_state x) (s_snd_nxt x)
    (s_rcv_nxt x) (s_snd_una x) (s_rtx_time x) (s_rtx_count x)
    (s_parent_listener x) v (s_accept_count x) (s_bound x) (s_connected x)
    (s_closed x) (s_shutdown_read x) (s_shutdown_write x) (s_so_error x)
    (s_so_reuseaddr x) (s_peer x).
Definition set_s_accept_count (v : Z) (x : socket) : socket :=
  Socket (s_valid x) (s_domain x) (s_type x) (s_local_port x)
    (s_remote_port x) (s_remote_ip x) (s_rx_buf x) (s_rx_buf_size x)
    (s_rx_read_ptr x) (s_rx_write_ptr x) (s_tcp_state x) (s_snd_nxt x)
    (s_rcv_nxt x) (s_snd_una x) (s_rtx_time x) (s_rtx_count x)
    (s_parent_listener x) (s_accept_queue x) v (s_bound x) (s_connected x)
    (s_closed x) (s_shutdown_read x) (s_shutdown_write x) (s_so_error x)
    (s_so_reuseaddr x) (s_peer x).
Definition set_s_bound (v : bool) (x : socket) : socket :=
  Socket (s_valid x) (s_domain x) (s_type x) (s_local_port x)
    (s_remote_port x) (s_remote_ip x) (s_rx_buf x) (s_rx_buf_size x)
    (s_rx_read_ptr x) (s_rx_write_ptr x) (s_tcp_state x) (s_snd_nxt x)
    (s_rcv_nxt x) (s_snd_una x) (s_rtx_time x) (s_rtx_count x)
    (s_parent_listener x) (s_accept_queue x) (s_accept_count x) v
    (s_connected x) (s_closed x) (s_shutdown_read x) (s_shutdown_write x)
    (s_so_error x) (s_so_reuseaddr x) (s_peer x).
Definition set_s_connected (v : bool) (x : socket) : socket :=
  Socket (s_valid x) (s_domain x) (s_type x) (s_local_port x)
    (s_remote_port x) (s_remote_ip x) (s_rx_buf x) (s_rx_buf_size x)
    (s_rx_read_ptr x) (s_rx_write_ptr x) (s_tcp_state x) (s_snd_nxt x)
    (s_rcv_nxt x) (s_snd_una x) (s_rtx_time x) (s_rtx_count x)
    (s_parent_listener x) (s_accept_queue x) (s_accept_count x) (s_bound x) v
    (s_closed x) (s_shutdown_read x) (s_shutdown_write x) (s_so_error x)
    (s_so_reuseaddr x) (s_peer x).
Definition set_s_closed (v : bool) (x : socket) : socket :=
  Socket (s_valid x) (s_domain x) (s_type x) (s_local_port x)
    (s_remote_port x) (s_remote_ip x) (s_rx_buf x) (s_rx_buf_size x)
    (s_rx_read_ptr x) (s_rx_write_ptr x) (s_tcp_state x) (s_snd_nxt x)
    (s_rcv_nxt x) (s_snd_una x) (s_rtx_time x) (s_rtx_count x)
    (s_parent_listener x) (s_accept_queue x) (s_accept_count x) (s_bound x)
    (s_connected x) v (s_shutdown_read x) (s_shutdown_write x) (s_so_error x)
    (s_so_reuseaddr x) (s_peer x).
Definition set_s_shutdown_read (v : bool) (x : socket) : socket :=
  Socket (s_valid x) (s_domain x) (s_type x) (s_local_port x)
    (s_remote_port x) (s_remote_ip x) (s_rx_buf x) (s_rx_buf_size x)
    (s_rx_read_ptr x) (s_rx_write_ptr x) (s_tcp_state x) (s_snd_nxt x)
    (s_rcv_nxt x) (s_snd_una x) (s_rtx_time x) (s_rtx_count x)
    (s_parent_listener x) (s_accept_queue x) (s_accept_count x) (s_bound x)
    (s_connected x) (s_closed x) v (s_shutdown_write x) (s_so_error x)
    (s_so_reuseaddr x) (s_peer x).
Definition set_s_shutdown_write (v : bool) (x : socket) : socket :=
  Socket (s_valid x) (s_domain x) (s_type x) (s_local_port x)
    (s_remote_port x) (s_remote_ip x) (s_rx_buf x) (s_rx_buf_size x)
    (s_rx_read_ptr x) (s_rx_write_ptr x) (s_tcp_state x) (s_snd_nxt x)
    (s_rcv_nxt x) (s_snd_una x) (s_rtx_time x) (s_rtx_count x)
    (s_parent_listener x) (s_accept_queue x) (s_accept_count x) (s_bound x)
    (s_connected x) (s_closed x) (s_shutdown_read x) v (s_so_error x)
    (s_so_reuseaddr x) (s_peer x).
Definition set_s_so_error (v : Z) (x : socket) : socket :=
  Socket (s_valid x) (s_domain x) (s_type x) (s_local_port x)
    (s_remote_port x) (s_remote_ip x) (s_rx_buf x) (s_rx_buf_size x)
    (s_rx_read_ptr x) (s_rx_write_ptr x) (s_tcp_state x) (s_snd_nxt x)
    (s_rcv_nxt x) (s_snd_una x) (s_rtx_time x) (s_rtx_count x)
    (s_parent_listener x) (s_accept_queue x) (s_accept_count x) (s_bound x)
    (s_connected x) (s_closed x) (s_shutdown_read x) (s_shutdown_write x) v
    (s_so_reuseaddr x) (s_peer x).
Definition set_s_so_reuseaddr (v : Z) (x : socket) : socket :=
  Socket (s_valid x) (s_domain x) (s_type x) (s_local_port x)
    (s_remote_port x) (s_remote_ip x) (s_rx_buf x) (s_rx_buf_size x)
    (s_rx_read_ptr x) (s_rx_write_ptr x) (s_tcp_state x) (s_snd_nxt x)
    (s_rcv_nxt x) (s_snd_una x) (s_rtx_time x) (s_rtx_count x)
    (s_parent_listener x) (s_accept_queue x) (s_accept_count x) (s_bound x)
    (s_connected x) (s_closed x) (s_shutdown_read x) (s_shutdown_write x)
    (s_so_error x) v (s_peer x).
Definition set_s_peer (v : option nat) (x : socket) : socket :=
  Socket (s_valid x) (s_domain x) (s_type x) (s_local_port x)
    (s_remote_port x) (s_remote_ip x) (s_rx_buf x) (s_rx_buf_size x)
    (s_rx_read_ptr x) (s_rx_write_ptr x) (s_tcp_state x) (s_snd_nxt x)
    (s_rcv_nxt x) (s_snd_una x) (s_rtx_time x) (s_rtx_count x)
    (s_parent_listener x) (s_accept_queue x) (s_accept_count x) (s_bound x)
    (s_connected x) (s_closed x) (s_shutdown_read x) (s_shutdown_write x)
    (s_so_error x) (s_so_reuseaddr x) v.

(** [struct arp_entry]. *)
Record arp_entry := ArpEntry {
  a_ip : list Z;
  a_mac : list Z;
  a_valid : bool;
}.

Definition set_a_ip (v : list Z) (x : arp_entry) : arp_entry :=
  ArpEntry v (a_mac x) (a_valid x).
Definition set_a_mac (v : list Z) (x : arp_entry) : arp_entry :=
  ArpEntry (a_ip x) v (a_valid x).
Definition set_a_valid (v : bool) (x : arp_entry) : arp_entry :=
  ArpEntry (a_ip x) (a_mac x) v.

(** Whom a [wait_queue_wake_all] or an [io_event_notify] wakes. *)
Inductive wake :=
| WakeSocket (i : nat)
| WakePollers.

(** What an entry of a process's [files] points to: a socket with the file's
    flags, another kind of file (with or without a [data] pointer in its
    node), or a [struct file] that has been freed. *)
Inductive fdesc :=
| FSocket (i : nat) (flags : Z)
| FOther (data : bool)
| FFreed.

(** The state of the network stack. *)
Record net := Net {
  socket_table : list socket;
  socket_table_lock : bool;
  arp_table : list arp_entry;
  ip_id : Z;
  my_mac : list Z;
  my_ip : list Z;
  next_ephemeral_port : Z;
  n_ticks : Z;  (** [pit_ticks()] *)
  n_if : bool;  (** the interrupt flag *)
  n_frames : list (list Z);  (** what was given to [virtio_net_send], oldest first *)
  n_wakes : list wake;
  n_kmalloc : list bool;  (** the answers of the coming [kmalloc] calls *)
  n_files : list (option fdesc);  (** [files] of the current process *)
}.

Definition set_socket_table (v : list socket) (x : net) : net :=
  Net v (socket_table_lock x) (arp_table x) (ip_id x) (my_mac x) (my_ip x)
    (next_ephemeral_port x) (n_ticks x) (n_if x) (n_frames x) (n_wakes x)
    (n_kmalloc x) (n_files x).
Definition set_socket_table_lock (v : bool) (x : net) : net :=
  Net (socket_table x) v (arp_table x) (ip_id x) (my_mac x) (my_ip x)
    (next_ephemeral_port x) (n_ticks x) (n_if x) (n_frames x) (n_wakes x)
    (n_kmalloc x) (n_files x).
Definition set_arp_table (v : list arp_entry) (x : net) : net :=
  Net (socket_table x) (socket_table_lock x) v (ip_id x) (my_mac x) (my_ip x)
    (next_ephemeral_port x) (n_ticks x) (n_if x) (n_frames x) (n_wakes x)
    (n_kmalloc x) (n_files x).
Definition set_ip_id (v : Z) (x : net) : net :=
  Net (socket_table x) (socket_table_lock x) (arp_table x) v (my_mac x)
    (my_ip x) (next_ephemeral_port x) (n_ticks x) (n_if x) (n_frames x)
    (n_wakes x) (n_kmalloc x) (n_files x).
Definition set_my_mac (v : list Z) (x : net) : net :=
  Net (socket_table x) (socket_table_lock x) (arp_table x) (ip_id x) v
    (my_ip x) (next_ephemeral_port x) (n_ticks x) (n_if x) (n_frames x)
    (n_wakes x) (n_kmalloc x) (n_files x).
Definition set_my_ip (v : list Z) (x : net) : net :=
  Net (socket_table x) (socket_table_lock x) (arp_table x) (ip_id x)
    (my_mac x) v (next_ephemeral_port x) (n_ticks x) (n_if x) (n_frames x)
    (n_wakes x) (n_kmalloc x) (n_files x).
Definition set_next_ephemeral_port (v : Z) (x : net) : net :=
  Net (socket_table x) (socket_table_lock x) (arp_table x) (ip_id x)
    (my_mac x) (my_ip x) v (n_ticks x) (n_if x) (n_frames x) (n_wakes x)
    (n_kmalloc x) (n_files x).
Definition set_n_ticks (v : Z) (x : net) : net :=
  Net (socket_table x) (socket_table_lock x) (arp_table x) (ip_id x)
    (my_mac x) (my_ip x) (next_ephemeral_port x) v (n_if x) (n_frames x)
    (n_wakes x) (n_kmalloc x) (n_files x).
Definition set_n_if (v : bool) (x : net) : net :=
  Net (socket_table x) (socket_table_lock x) (arp_table x) (ip_id x)
    (my_mac x) (my_ip x) (next_ephemeral_port x) (n_ticks x) v (n_frames x)
    (n_wakes x) (n_kmalloc x) (n_files x).
Definition set_n_frames (v : list (list Z)) (x : net) : net :=
  Net (socket_table x) (socket_table_lock x) (arp_table x) (ip_id x)
    (my_mac x) (my_ip x) (next_ephemeral_port x) (n_ticks x) (n_if x) v
    (n_wakes x) (n_kmalloc x) (n_files x).
Definition set_n_wakes (v : list wake) (x : net) : net :=
  Net (socket_table x) (socket_table_lock x) (arp_table x) (ip_id x)
    (my_mac x) (my_ip x) (next_ephemeral_port x) (n_ticks x) (n_if x)
    (n_frames x) v (n_kmalloc x) (n_files x).
Definition set_n_kmalloc (v : list bool) (x : net) : net :=
  Net (socket_table x) (socket_table_lock x) (arp_table x) (ip_id x)
    (my_mac x) (my_ip x) (next_ephemeral_port x) (n_ticks x) (n_if x)
    (n_frames x) (n_wakes x) v (n_files x).
Definition set_n_files (v : list (option fdesc)) (x : net) : net :=
  Net (socket_table x) (socket_table_lock x) (arp_table x) (ip_id x)
    (my_mac x) (my_ip x) (next_ephemeral_port x) (n_ticks x) (n_if x)
    (n_frames x) (n_wakes x) (n_kmalloc x) v.

Abbreviation NM := (prog net).

(** ** Bytes *)

Definition le16 (v : Z) : list Z := [v `mod` 256; (v / 256) `mod` 256].
Definition le32 (v : Z) : list Z :=
  [v `mod` 256; (v / 256) `mod` 256; (v / 65536) `mod` 256; (v / 16777216) `mod` 256].
Definition swap16 (v : Z) : Z := u16 (Z.lor (v <<! 8) (v >>! 8)).
Definition swap32 (v : Z) : Z :=
  Z.lor (Z.lor (Z.lor ((v &! 0xFF000000) >>! 24) ((v &! 0x00FF0000) >>! 8))
    ((v &! 0x0000FF00) <<! 8)) ((v &! 0x000000FF) <<! 24).

(** Reads relative to a pointer; outside the buffer they are undefined. *)
Definition rd8 (data : list Z) (off : nat) : NM Z := deref (data !! off).
Definition rd16 (data : list Z) (off : nat) : NM Z :=
  a ← rd8 data off; b ← rd8 data (off + 1); mret (a + 256 * b).
Definition rd32 (data : list Z) (off : nat) : NM Z :=
  a ← rd16 data off; b ← rd16 data (off + 2); mret (a + 65536 * b).
Definition rd_bytes (data : list Z) (off n : nat) : NM (list Z) :=
  if bool_decide (off + n ≤ length data)%nat then mret (take n (drop off data)) else undef.

(** A buffer of [size] bytes that is filled with [bytes] from its start. *)
Definition fill_buffer (size : Z) (bytes : list Z) : NM (list Z) :=
  if Z.of_nat (length bytes) <=? size then mret bytes else undef.

(** ** Sockets, the lock and the services the stack uses *)

Definition get_sock (i : nat) : NM socket := s ← get; deref (socket_table s !! i).
Definition upd_sock (i : nat) (f : socket → socket) : NM unit :=
  x ← get_sock i; modify (λ s, set_socket_table (<[i := f x]> (socket_table s)) s).

Definition wake_socket (i : nat) : NM unit :=
  modify (λ s, set_n_wakes (n_wakes s ++ [WakeSocket i]) s).
Definition io_notify : NM unit := modify (λ s, set_n_wakes (n_wakes s ++ [WakePollers]) s).

Definition kmalloc_answer : NM bool :=
  s ← get;
  modify (set_n_kmalloc (tail (n_kmalloc s)));;
  mret (default false (head (n_kmalloc s))).

(** [kmalloc(0)] is null. *)
Definition kmalloc_of (size : Z) : NM bool :=
  if size =? 0 then mret false else kmalloc_answer.

(** [spin_lock_irqsave(&socket_table_lock, &flags)]: the only holders are
    callers up the stack, with interrupts off, so a lock that is taken stays
    taken. *)
Definition table_lock_irqsave : NM bool :=
  s ← get;
  modify (set_n_if false);;
  if socket_table_lock s then spin else
  modify (set_socket_table_lock true);; mret (n_if s).
Definition table_unlock_irqrestore (flags : bool) : NM unit :=
  modify (λ s, set_n_if flags (set_socket_table_lock false s)).
