(* ===== verification/Net.v ===== *)
(** * The network protocols: net.c, eth.c, arp.c, ipv4.c, icmp.c, udp.c, tcp.c

    Receiving and sending call each other: a packet for this host is received
    by the call that sends it.  The protocols are given the sending routine as
    an argument; [net_ipv4_send] closes the recursion with fuel, one unit per
    loopback.  [others] is what the rest of the system does to the stack while
    the sender sleeps for an ARP reply. *)

From S2P Require Import Prelude NetState.

(** ** Checksum *)

Fixpoint sum_words (sum : Z) (b : list Z) : Z :=
  match b with
  | x :: y :: b => sum_words (u32 (sum + (x + 256 * y))) b
  | [x] => u32 (sum + x)
  | [] => sum
  end.

(** [while (sum >> 16)]; two rounds are enough for 32 bits. *)
Fixpoint fold_carry (fuel : nat) (sum : Z) : Z :=
  match fuel with
  | O => sum
  | S fuel =>
      if sum >>! 16 =? 0 then sum else fold_carry fuel ((sum &! 0xFFFF) + (sum >>! 16))
  end.

Definition ip_checksum (b : list Z) : Z := u16 (Z.lnot (fold_carry 3 (sum_words 0 b))).

(** ** Ethernet *)

Definition virtio_net_send (frame : list Z) : NM unit :=
  modify (λ s, set_n_frames (n_frames s ++ [frame]) s).

Definition net_eth_send (dest_mac : list Z) (type : Z) (payload : list Z) (len : Z) : NM unit :=
  if 1600 <? 14 + len then mret () else
  s ← get;
  p ← rd_bytes payload 0 (Z.to_nat len);
  virtio_net_send (dest_mac ++ my_mac s ++ le16 (swap16 type) ++ p).

(** ** ARP *)

Definition arp_matches (ip : list Z) (e : arp_entry) : bool := a_valid e && bool_decide (a_ip e = ip).

(** The index of the first entry that satisfies [p]. *)
Fixpoint find_index {A} (p : A → bool) (l : list A) : option nat :=
  match l with
  | [] => None
  | x :: l => if p x then Some O else S <$> find_index p l
  end.

Definition arp_cache_add (ip mac : list Z) : NM unit :=
  s ← get;
  let t := arp_table s in
  match find_index (arp_matches ip) t with
  | Some i => modify (set_arp_table (alter (set_a_mac mac) i t))
  | None =>
      let i := default O (find_index (λ e, negb (a_valid e)) t) in
      modify (set_arp_table (<[i := ArpEntry ip mac true]> t))
  end.

Definition arp_packet (hw proto op : Z) (sender_mac sender_ip target_mac target_ip : list Z) : list Z :=
  le16 hw ++ le16 proto ++ [6; 4] ++ le16 op ++ sender_mac ++ sender_ip ++ target_mac ++ target_ip.

Definition arp_resolve (ip : list Z) : NM (option (list Z)) :=
  if bool_decide (ip = [255; 255; 255; 255]) then mret (Some (replicate 6 0xFF)) else
  s ← get;
  match find_index (arp_matches ip) (arp_table s) with
  | Some i => mret (a_mac <$> arp_table s !! i)
  | None =>
      net_eth_send (replicate 6 0xFF) ETH_TYPE_ARP
        (arp_packet (swap16 1) (swap16 ETH_TYPE_IPV4) (swap16 ARP_OP_REQUEST)
          (my_mac s) (my_ip s) (replicate 6 0) ip) 28;;
      mret None
  end.

Definition net_arp_receive (data : list Z) (len : Z) : NM unit :=
  if len <? 28 then mret () else
  s ← get;
  op ← rd16 data 6;
  let opcode := swap16 op in
  if opcode =? ARP_OP_REQUEST then
    target_ip ← rd_bytes data 24 4;
    if bool_decide (target_ip = my_ip s) then
      sender_ip ← rd_bytes data 14 4;
      sender_mac ← rd_bytes data 8 6;
      arp_cache_add sender_ip sender_mac;;
      hw ← rd16 data 0;
      proto ← rd16 data 2;
      net_eth_send sender_mac ETH_TYPE_ARP
        (arp_packet hw proto (swap16 ARP_OP_REPLY) (my_mac s) (my_ip s) sender_mac sender_ip) 28
    else mret ()
  else if opcode =? ARP_OP_REPLY then
    target_ip ← rd_bytes data 24 4;
    if bool_decide (target_ip = my_ip s) then
      sender_ip ← rd_bytes data 14 4;
      sender_mac ← rd_bytes data 8 6;
      arp_cache_add sender_ip sender_mac
    else mret ()
  else mret ().

(** ** Protocols above IP

    [send dest proto payload len] is [net_ipv4_send]. *)

Section above.
Context (send : list Z → Z → list Z → Z → NM unit).

Definition net_icmp_receive (src_ip data : list Z) (len : Z) : NM unit :=
  if len <? 8 then mret () else
  type ← rd8 data 0;
  if type =? ICMP_TYPE_ECHO_REQUEST then
    if 1600 <? len then mret () else
    b ← rd_bytes data 0 (Z.to_nat len);
    let zeroed := ICMP_TYPE_ECHO_REPLY :: take 1 (drop 1 b) ++ [0; 0] ++ drop 4 b in
    let csum := ip_checksum zeroed in
    let reply := ICMP_TYPE_ECHO_REPLY :: take 1 (drop 1 b) ++ le16 csum ++ drop 4 b in
    send src_ip IP_PROTO_ICMP reply len
  else mret ().

(** *** The receive ring of a socket *)

Definition free_space (k : socket) : Z :=
  let w := u32 (s_rx_write_ptr k) in
  let r := u32 (s_rx_read_ptr k) in
  if r <=? w then u32 (s_rx_buf_size k - u32 (w - r)) else r - w.

(** [rx_buf[rx_write_ptr] = b; rx_write_ptr = (rx_write_ptr + 1) % rx_buf_size] *)
Definition ring_put (i : nat) (b : Z) : NM unit :=
  k ← get_sock i;
  deref (s_rx_buf k !! Z.to_nat (s_rx_write_ptr k));;
  upd_sock i (λ k, set_s_rx_write_ptr ((s_rx_write_ptr k + 1) `mod` s_rx_buf_size k)
    (set_s_rx_buf (<[Z.to_nat (s_rx_write_ptr k) := b]> (s_rx_buf k)) k)).

Definition ring_put_all (i : nat) (l : list Z) : NM unit := for_each l (ring_put i).

Definition udp_matches (port : Z) (k : socket) : bool :=
  s_valid k && (s_type k =? SOCKET_TYPE_UDP) && (s_local_port k =? port).

(** The lock is taken for the scan and the write. *)
Definition net_udp_receive (src_ip data : list Z) (len : Z) : NM unit :=
  if len <? 8 then mret () else
  dp ← rd16 data 2;
  sp ← rd16 data 0;
  ul ← rd16 data 4;
  let dest_port := swap16 dp in
  let src_port := swap16 sp in
  let udp_len := swap16 ul in
  if (len <? udp_len) || (udp_len <? 8) then mret () else
  let payload_len := udp_len - 8 in
  flags ← table_lock_irqsave;
  s ← get;
  match find_index (udp_matches dest_port) (socket_table s) with
  | None => mret ()
  | Some i =>
      k ← get_sock i;
      let total_write := 8 + payload_len in
      when (total_write + 1 <? free_space k)
        (ring_put_all i (take 4 src_ip ++ [src_port &! 0xFF; (src_port >>! 8) &! 0xFF;
           payload_len &! 0xFF; (payload_len >>! 8) &! 0xFF]);;
         payload ← rd_bytes data 8 (Z.to_nat payload_len);
         ring_put_all i payload;;
         wake_socket i;;
         io_notify)
  end;;
  table_unlock_irqrestore flags.

Definition net_udp_send (i : nat) (dest_ip : list Z) (dest_port : Z) (payload : list Z) (len : Z) : NM unit :=
  if 1600 <? 8 + len then mret () else
  k ← get_sock i;
  p ← rd_bytes payload 0 (Z.to_nat len);
  send dest_ip IP_PROTO_UDP
    (le16 (swap16 (s_local_port k)) ++ le16 (swap16 dest_port) ++ le16 (swap16 (8 + len)) ++ [0; 0] ++ p)
    (8 + len).

(** *** TCP *)

Definition has_flag (flags f : Z) : bool := negb (flags &! f =? 0).

Definition local_ip (dest : list Z) (s : net) : list Z :=
  if bool_decide (head dest = Some 127) then [127; 0; 0; 1] else my_ip s.

Definition tcp_header (k : socket) (flags csum : Z) : list Z :=
  le16 (swap16 (s_local_port k)) ++ le16 (swap16 (s_remote_port k)) ++
  le32 (swap32 (s_snd_nxt k)) ++ le32 (swap32 (s_rcv_nxt k)) ++
  [5 <<! 4; flags] ++ le16 (swap16 4096) ++ le16 csum ++ [0; 0].

Definition pseudo_header (k : socket) (tcp_len : Z) (s : net) : list Z :=
  local_ip (s_remote_ip k) s ++ s_remote_ip k ++ [0; IP_PROTO_TCP] ++ le16 (swap16 tcp_len).

(** The buffers have [tcp_len] bytes, a 16-bit number. *)
Definition net_tcp_send_segment (i : nat) (flags : Z) (payload : list Z) (len : Z) : NM unit :=
  let tcp_len := u16 (20 + len) in
  ok ← kmalloc_of tcp_len;
  if negb ok then mret () else
  k ← get_sock i;
  p ← rd_bytes payload 0 (Z.to_nat len);
  packet ← fill_buffer tcp_len (tcp_header k flags 0 ++ p);
  ok ← kmalloc_answer;
  s ← get;
  let csum := if (ok : bool) then ip_checksum (pseudo_header k tcp_len s ++ packet) else 0 in
  send (s_remote_ip k) IP_PROTO_TCP (tcp_header k flags csum ++ p) tcp_len;;
  when (has_flag flags (TCP_FLAG_SYN |! TCP_FLAG_FIN))
    (upd_sock i (λ k, set_s_snd_nxt (u32 (s_snd_nxt k + 1)) k));;
  upd_sock i (λ k, set_s_snd_nxt (u32 (s_snd_nxt k + len)) k);;
  when (has_flag flags (TCP_FLAG_SYN |! TCP_FLAG_FIN) || (0 <? len))
    (s ← get;
     upd_sock i (λ k, if s_rtx_time k =? 0
       then set_s_rtx_time (n_ticks s +! 100) (set_s_rtx_count 0 k) else k)).

(** An [ACK] without data. *)
Definition send_ack (i : nat) : NM unit := net_tcp_send_segment i TCP_FLAG_ACK [] 0.
Definition notify_socket (i : nat) : NM unit := wake_socket i;; io_notify.

(** The scan for the socket of a segment: [(sock, listener)]. *)
Fixpoint tcp_lookup (dest_port src_port : Z) (src_ip : list Z) (l : list socket) (i : nat)
    (listener : option nat) : option nat * option nat :=
  match l with
  | [] => (None, listener)
  | k :: l =>
      if s_valid k && (s_type k =? SOCKET_TYPE_TCP) && (s_local_port k =? dest_port) then
        if s_tcp_state k =? TCP_STATE_LISTEN then
          tcp_lookup dest_port src_port src_ip l (S i) (Some i)
        else if (s_remote_port k =? src_port) && bool_decide (s_remote_ip k = src_ip) then
          (Some i, listener)
        else tcp_lookup dest_port src_port src_ip l (S i) listener
      else tcp_lookup dest_port src_port src_ip l (S i) listener
  end.

(** The fields of a new connection; the others keep what the slot held. *)
Definition child_socket (listener : nat) (port src_port : Z) (src_ip : list Z) (seq : Z) (k : socket) : socket :=
  set_s_closed false (set_s_connected false (set_s_bound true (set_s_parent_listener (Some listener)
  (set_s_snd_una 1000 (set_s_rcv_nxt (u32 (seq + 1)) (set_s_snd_nxt 1000
  (set_s_tcp_state TCP_STATE_SYN_RECEIVED (set_s_rx_write_ptr 0 (set_s_rx_read_ptr 0
  (set_s_rx_buf (replicate (Z.to_nat 8192) 0) (set_s_rx_buf_size 8192 (set_s_remote_ip src_ip (set_s_remote_port src_port
  (set_s_local_port port (set_s_type SOCKET_TYPE_TCP (set_s_valid true k)))))))))))))))).

(** What a slot keeps of a connection whose buffer cannot be had. *)
Definition child_failed (port src_port : Z) (src_ip : list Z) (k : socket) : socket :=
  set_s_valid false (set_s_rx_buf [] (set_s_rx_buf_size 8192 (set_s_remote_ip src_ip (set_s_remote_port src_port
  (set_s_local_port port (set_s_type SOCKET_TYPE_TCP k)))))).

Definition tcp_accept_syn (listener : nat) (src_port : Z) (src_ip : list Z) (seq : Z) : NM unit :=
  l ← get_sock listener;
  if s_accept_count l <? 8 then
    s ← get;
    match find_index (λ k, negb (s_valid k)) (socket_table s) with
    | None => mret ()
    | Some i =>
        ok ← kmalloc_answer;
        if negb ok then upd_sock i (child_failed (s_local_port l) src_port src_ip) else
        upd_sock i (child_socket listener (s_local_port l) src_port src_ip seq);;
        net_tcp_send_segment i (TCP_FLAG_SYN |! TCP_FLAG_ACK) [] 0;;
        io_notify
    end
  else mret ().

(** [if (flags & TCP_FLAG_ACK)] before the state machine. *)
Definition tcp_note_ack (i : nat) (ack : Z) : NM unit :=
  s ← get;
  upd_sock i (λ k, if s_snd_una k <? ack then
    let k := set_s_snd_una ack k in
    set_s_rtx_count 0 (set_s_rtx_time (if s_snd_nxt k =? s_snd_una k then 0 else n_ticks s +! 100) k)
  else k).

(** The handshake states. *)
Definition tcp_handshake (i : nat) (flags seq ack : Z) : NM unit :=
  k ← get_sock i;
  if s_tcp_state k =? TCP_STATE_SYN_SENT then
    when (flags &! (TCP_FLAG_SYN |! TCP_FLAG_ACK) =? (TCP_FLAG_SYN |! TCP_FLAG_ACK))
      (upd_sock i (λ k, set_s_connected true (set_s_tcp_state TCP_STATE_ESTABLISHED
         (set_s_snd_una ack (set_s_rcv_nxt (u32 (seq + 1)) k))));;
       send_ack i;;
       notify_socket i)
  else if s_tcp_state k =? TCP_STATE_SYN_RECEIVED then
    when (has_flag flags TCP_FLAG_ACK)
      (upd_sock i (λ k, set_s_connected true (set_s_tcp_state TCP_STATE_ESTABLISHED (set_s_snd_una ack k)));;
       match s_parent_listener k with
       | None => mret ()
       | Some parent =>
           pk ← get_sock parent;
           when (s_accept_count pk <? 8)
             (deref (s_accept_queue pk !! Z.to_nat (s_accept_count pk));;
              upd_sock parent (λ p, set_s_accept_count (s_accept_count p + 1)
                (set_s_accept_queue (<[Z.to_nat (s_accept_count p) := Some i]> (s_accept_queue p)) p));;
              notify_socket parent)
       end)
  else mret ().

(** In-order data goes to the ring if it fits, old data is acknowledged again. *)
Definition tcp_data (i : nat) (seq : Z) (data : list Z) (off : nat) (payload_len : Z) : NM unit :=
  k ← get_sock i;
  if seq =? s_rcv_nxt k then
    when (payload_len + 1 <? free_space k)
      (payload ← rd_bytes data off (Z.to_nat payload_len);
       ring_put_all i payload;;
       upd_sock i (λ k, set_s_rcv_nxt (u32 (s_rcv_nxt k + payload_len)) k);;
       send_ack i;;
       notify_socket i)
  else when (seq <? s_rcv_nxt k) (send_ack i).

(** [rcv_nxt++], [ACK], the new state. *)
Definition tcp_fin (i : nat) (f : socket → socket) : NM unit :=
  upd_sock i (λ k, set_s_rcv_nxt (u32 (s_rcv_nxt k + 1)) k);;
  send_ack i;;
  upd_sock i f;;
  notify_socket i.

Definition tcp_transfer (i : nat) (flags seq ack : Z) (data : list Z) (off : nat) (payload_len : Z) : NM unit :=
  k ← get_sock i;
  let fin := has_flag flags TCP_FLAG_FIN in
  let acked := has_flag flags TCP_FLAG_ACK in
  if s_tcp_state k =? TCP_STATE_ESTABLISHED then
    when acked (upd_sock i (set_s_snd_una ack));;
    when (0 <? payload_len) (tcp_data i seq data off payload_len);;
    when fin (tcp_fin i (set_s_tcp_state TCP_STATE_CLOSE_WAIT))
  else if s_tcp_state k =? TCP_STATE_FIN_WAIT_1 then
    when acked (upd_sock i (λ k, set_s_tcp_state TCP_STATE_FIN_WAIT_2 (set_s_snd_una ack k)));;
    when fin (tcp_fin i (λ k, set_s_closed true (set_s_tcp_state TCP_STATE_TIME_WAIT k)))
  else if s_tcp_state k =? TCP_STATE_FIN_WAIT_2 then
    when fin (tcp_fin i (λ k, set_s_closed true (set_s_tcp_state TCP_STATE_TIME_WAIT k)))
  else if s_tcp_state k =? TCP_STATE_LAST_ACK then
    when acked
      (upd_sock i (λ k, set_s_closed true (set_s_tcp_state TCP_STATE_CLOSED (set_s_snd_una ack k)));;
       notify_socket i)
  else if s_tcp_state k =? TCP_STATE_TIME_WAIT then when fin (send_ack i)
  else mret ().

Definition tcp_segment (i : nat) (flags seq ack : Z) (data : list Z) (off : nat) (payload_len : Z) : NM unit :=
  if has_flag flags TCP_FLAG_RST then
    upd_sock i (λ k, set_s_closed true (set_s_so_error 111 (set_s_tcp_state TCP_STATE_CLOSED k)));;
    notify_socket i
  else
    when (has_flag flags TCP_FLAG_ACK) (tcp_note_ack i ack);;
    tcp_handshake i flags seq ack;;
    tcp_transfer i flags seq ack data off payload_len.

Definition net_tcp_receive (src_ip data : list Z) (len : Z) : NM unit :=
  if len <? 20 then mret () else
  sp ← rd16 data 0;
  dp ← rd16 data 2;
  sq ← rd32 data 4;
  ak ← rd32 data 8;
  doff ← rd8 data 12;
  flags ← rd8 data 13;
  let header_len := u8 ((doff >>! 4) * 4) in
  if len <? header_len then mret () else
  let payload_len := len - header_len in
  fl ← table_lock_irqsave;
  s ← get;
  match tcp_lookup (swap16 dp) (swap16 sp) src_ip (socket_table s) 0 None with
  | (None, Some listener) =>
      when (has_flag flags TCP_FLAG_SYN) (tcp_accept_syn listener (swap16 sp) src_ip (swap32 sq))
  | (None, None) => mret ()
  | (Some i, _) =>
      tcp_segment i flags (swap32 sq) (swap32 ak) data (Z.to_nat header_len) payload_len
  end;;
  table_unlock_irqrestore fl.

(** The retransmission timer of one socket. *)
Definition tcp_timer (i : nat) (now : Z) : NM unit :=
  k ← get_sock i;
  if negb (s_valid k && (s_type k =? SOCKET_TYPE_TCP)) then mret () else
  if negb (negb (s_rtx_time k =? 0) && (s_rtx_time k <=? now)) then mret () else
  if s_snd_una k <? s_snd_nxt k then
    (if s_tcp_state k =? TCP_STATE_SYN_SENT then
       upd_sock i (set_s_snd_nxt (s_snd_una k));;
       net_tcp_send_segment i TCP_FLAG_SYN [] 0;;
       upd_sock i (set_s_snd_nxt (s_snd_nxt k))
     else if (s_tcp_state k =? TCP_STATE_ESTABLISHED) || (s_tcp_state k =? TCP_STATE_CLOSE_WAIT) then
       send_ack i
     else if (s_tcp_state k =? TCP_STATE_FIN_WAIT_1) || (s_tcp_state k =? TCP_STATE_LAST_ACK) then
       upd_sock i (set_s_snd_nxt (s_snd_una k));;
       net_tcp_send_segment i (TCP_FLAG_FIN |! TCP_FLAG_ACK) [] 0;;
       upd_sock i (set_s_snd_nxt (s_snd_nxt k))
     else mret ());;
    upd_sock i (λ k, set_s_rtx_count (u32 (s_rtx_count k + 1)) k);;
    k ← get_sock i;
    if 8 <? s_rtx_count k then
      upd_sock i (λ k, set_s_rtx_time 0 (set_s_closed true (set_s_so_error 110 (set_s_tcp_state TCP_STATE_CLOSED k))));;
      notify_socket i
    else
      let backoff := 100 * (1 <<! (if 4 <? s_rtx_count k then 4 else s_rtx_count k)) in
      upd_sock i (set_s_rtx_time (now +! backoff))
  else upd_sock i (λ k, set_s_rtx_count 0 (set_s_rtx_time 0 k)).

Definition net_tcp_timer_tick : NM unit :=
  s ← get;
  fl ← table_lock_irqsave;
  for_each (seq 0 MAX_SOCKETS) (λ i, tcp_timer i (n_ticks s));;
  table_unlock_irqrestore fl.
End above.

(** ** IP *)

Section ip.
Context (others : net → net).

Definition net_ipv4_receive (send : list Z → Z → list Z → Z → NM unit) (data : list Z) (len : Z) : NM unit :=
  if len <? 20 then mret () else
  b0 ← rd8 data 0;
  let ihl := (b0 &! 0x0F) * 4 in
  if len <? ihl then mret () else
  s ← get;
  dest ← rd_bytes data 16 4;
  if negb (bool_decide (dest = my_ip s)) && negb (bool_decide (head dest = Some 127))
     && negb (bool_decide (dest !! 3%nat = Some 255)) then mret () else
  l ← rd16 data 2;
  proto ← rd8 data 9;
  src ← rd_bytes data 12 4;
  let payload := drop (Z.to_nat ihl) data in
  let payload_len := u16 (swap16 l - ihl) in
  if proto =? IP_PROTO_ICMP then net_icmp_receive send src payload payload_len
  else if proto =? IP_PROTO_UDP then net_udp_receive src payload payload_len
  else if proto =? IP_PROTO_TCP then net_tcp_receive send src payload payload_len
  else mret ().

Definition ipv4_header (ip_len id proto csum : Z) (src dest : list Z) : list Z :=
  [0x45; 0] ++ le16 (swap16 ip_len) ++ le16 (swap16 id) ++ [0; 0; 64; proto] ++ le16 csum ++ src ++ dest.

(** The search for the hardware address: [n] sleeps are left. *)
Fixpoint arp_wait (n : nat) (dest_ip : list Z) : NM (option (list Z)) :=
  mac ← arp_resolve dest_ip;
  match mac, n with
  | Some mac, _ => mret (Some mac)
  | None, O => mret None
  | None, S n => modify others;; arp_wait n dest_ip
  end.

(** Fuel counts the packets this host sends to itself from inside a receive. *)
Fixpoint net_ipv4_send (fuel : nat) (dest_ip : list Z) (proto : Z) (payload : list Z) (len : Z) : NM unit :=
  let ip_len := u16 (20 + len) in
  ok ← kmalloc_of ip_len;
  if negb ok then mret () else
  s ← get;
  let src := local_ip dest_ip s in
  let csum := ip_checksum (ipv4_header ip_len (ip_id s) proto 0 src dest_ip) in
  modify (set_ip_id (u16 (ip_id s + 1)));;
  p ← rd_bytes payload 0 (Z.to_nat len);
  packet ← fill_buffer ip_len (ipv4_header ip_len (ip_id s) proto csum src dest_ip ++ p);
  if bool_decide (head dest_ip = Some 127) || bool_decide (dest_ip = my_ip s) then
    match fuel with
    | O => spin
    | S fuel => net_ipv4_receive (net_ipv4_send fuel) packet ip_len
    end
  else
    mac ← arp_wait 5 dest_ip;
    match mac with
    | Some mac => net_eth_send mac ETH_TYPE_IPV4 packet ip_len
    | None => mret ()
    end.

(** A packet to this host is answered at most once. *)
Definition ipv4_send := net_ipv4_send 2.

Definition net_process_packet (data : list Z) (len : Z) : NM unit :=
  if len <? 14 then mret () else
  t ← rd16 data 12;
  let eth_type := swap16 t in
  let payload := drop 14 data in
  let payload_len := u16 (len - 14) in
  if eth_type =? ETH_TYPE_ARP then net_arp_receive payload payload_len
  else if eth_type =? ETH_TYPE_IPV4 then net_ipv4_receive ipv4_send payload payload_len
  else mret ().
End ip.
