(* ===== verification/SocketOps.v ===== *)
(** * Sockets: socket.c

    The file operations of a socket and the socket system calls.  What the user
    copies deliver and where the user's buffers lie are arguments.  A call that
    sleeps on a wait queue is given how often it will be woken; between two
    rounds [others] changes the state. *)

From S2P Require Import Prelude NetState Net.

Definition AF_UNIX : Z := 1.
Definition AF_INET : Z := 2.
Definition SOCK_STREAM : Z := 1.
Definition SOCK_DGRAM : Z := 2.
Definition SOL_SOCKET : Z := 1.
Definition SO_REUSEADDR : Z := 2.
Definition SO_TYPE : Z := 3.
Definition SO_ERROR : Z := 4.
Definition SO_ACCEPTCONN : Z := 30.
Definition SHUT_RD : Z := 0.
Definition SHUT_WR : Z := 1.
Definition SHUT_RDWR : Z := 2.
Definition O_RDWR : Z := 2.
Definition O_NONBLOCK : Z := 2048.
Definition MAX_FILES_PER_PROCESS : Z := 256.

(** [memset(sock, 0, sizeof( *sock))] *)
Definition zero_socket : socket :=
  Socket false 0 0 0 0 [0; 0; 0; 0] [] 0 0 0 0 0 0 0 0 0 None (replicate 8 None) 0
    false false false false false 0 0 None.

(** ** Readiness *)

Definition poll_in (k : socket) : bool :=
  let peer_closed := (s_domain k =? AF_UNIX) && bool_decide (s_peer k = None) in
  negb (s_rx_read_ptr k =? s_rx_write_ptr k) || s_shutdown_write k || s_closed k || peer_closed
  || ((s_type k =? SOCKET_TYPE_TCP) && (s_tcp_state k =? TCP_STATE_LISTEN) && (0 <? s_accept_count k)).
Definition poll_out (k : socket) : bool :=
  negb (s_shutdown_write k) && negb (s_closed k)
  && ((s_domain k =? AF_UNIX) || (s_type k =? SOCKET_TYPE_TCP) || s_connected k).
Definition poll_hup (k : socket) : bool :=
  let peer_closed := (s_domain k =? AF_UNIX) && bool_decide (s_peer k = None) in
  s_closed k || s_shutdown_read k || s_shutdown_write k || peer_closed.

(** The return value and [*revents]. *)
Definition socket_poll (i : nat) (events : Z) : NM (Z * option Z) :=
  k ← get_sock i;
  if negb (s_valid k) then mret (- EBADF, None) else
  let ready := (if has_flag events 1 && poll_in k then 1 else 0) |!
    (if has_flag events 4 && poll_out k then 4 else 0) |!
    (if has_flag events 8 && (s_closed k || negb (s_so_error k =? 0)) then 8 else 0) |!
    (if has_flag events 16 && poll_hup k then 16 else 0) in
  mret (if ready =? 0 then 0 else 1, Some ready).

(** ** Descriptors *)

Definition alloc_fd : NM (option nat) :=
  s ← get; mret (find_index (λ f, bool_decide (f = None)) (n_files s)).
Definition install_fd (fd i : nat) : NM unit :=
  modify (λ s, set_n_files (<[fd := Some (FSocket i O_RDWR)]> (n_files s)) s).

Definition file_at (fd : Z) (s : net) : option fdesc :=
  if (fd <? 0) || (MAX_FILES_PER_PROCESS <=? fd) then None else mjoin (n_files s !! Z.to_nat fd).

(** The check that bind, listen, accept, connect, sendto and recvfrom share:
    the node's [read] is [socket_read]; the socket and the file's flags. *)
Definition sock_of_fd (fd : Z) : NM (Z + nat * Z) :=
  s ← get;
  match file_at fd s with
  | None => mret (inl (- EBADF))
  | Some (FOther _) => mret (inl (- ENOTSOCK))
  | Some (FSocket i flags) =>
      k ← get_sock i;
      mret (if s_valid k then inr (i, flags) else inl (- EBADF))
  | Some FFreed => undef
  end.

(** [fd_socket] takes any [data] pointer for a socket's. *)
Definition fd_socket (fd : Z) : NM (Z + nat) :=
  s ← get;
  match file_at fd s with
  | None => mret (inl (- EBADF))
  | Some (FOther false) => mret (inl (- ENOTSOCK))
  | Some (FSocket i _) =>
      k ← get_sock i;
      mret (if s_valid k then inr i else inl (- EBADF))
  | Some (FOther true) | Some FFreed => undef
  end.

Definition socket_alloc_common (domain sock_type : Z) : NM (Z + nat * nat) :=
  fd ← alloc_fd;
  match fd with
  | None => mret (inl (- EMFILE))
  | Some fd =>
      fl ← table_lock_irqsave;
      s ← get;
      match find_index (λ k, negb (s_valid k)) (socket_table s) with
      | None => table_unlock_irqrestore fl;; mret (inl (- ENFILE))
      | Some i =>
          upd_sock i (λ _, set_s_type sock_type (set_s_domain domain (set_s_valid true zero_socket)));;
          table_unlock_irqrestore fl;;
          upd_sock i (set_s_rx_buf_size 8192);;
          ok ← kmalloc_answer;
          if negb ok then upd_sock i (set_s_valid false);; mret (inl (- ENOMEM)) else
          upd_sock i (set_s_rx_buf (replicate (Z.to_nat 8192) 0));;
          when (sock_type =? SOCKET_TYPE_TCP) (upd_sock i (set_s_tcp_state TCP_STATE_CLOSED));;
          node ← kmalloc_answer;
          if negb node then
            upd_sock i (λ k, set_s_valid false (set_s_rx_buf [] k));; mret (inl (- ENOMEM)) else
          file ← kmalloc_answer;
          if negb file then
            upd_sock i (λ k, set_s_valid false (set_s_rx_buf [] k));; mret (inl (- ENOMEM)) else
          install_fd fd i;;
          mret (inr (fd, i))
      end
  end.

(** ** Reading from the ring *)

Definition ring_get (i : nat) : NM Z :=
  k ← get_sock i;
  b ← deref (s_rx_buf k !! Z.to_nat (s_rx_read_ptr k));
  upd_sock i (set_s_rx_read_ptr ((s_rx_read_ptr k + 1) `mod` s_rx_buf_size k));;
  mret b.

Fixpoint ring_get_n (i n : nat) : NM (list Z) :=
  match n with
  | O => mret []
  | S n => b ← ring_get i; l ← ring_get_n i n; mret (b :: l)
  end.

(** [while (rx_read_ptr != rx_write_ptr && copied < count)] *)
Fixpoint ring_get_some (i n : nat) : NM (list Z) :=
  match n with
  | O => mret []
  | S n =>
      k ← get_sock i;
      if s_rx_read_ptr k =? s_rx_write_ptr k then mret [] else
      b ← ring_get i; l ← ring_get_some i n; mret (b :: l)
  end.

(** One datagram: source address, port, and the first [count] bytes; the rest
    is dropped. *)
Definition ring_get_datagram (i : nat) (count : Z) : NM (list Z * Z * list Z) :=
  ip ← ring_get_n i 4;
  p0 ← ring_get i;
  p1 ← ring_get i;
  let port := u16 (p0 |! (p1 <<! 8)) in
  l0 ← ring_get i;
  l1 ← ring_get i;
  let payload_len := u16 (l0 |! (l1 <<! 8)) in
  let to_copy := if payload_len <? count then payload_len else count in
  bytes ← ring_get_n i (Z.to_nat to_copy);
  when (to_copy <? payload_len)
    (upd_sock i (λ k, set_s_rx_read_ptr ((s_rx_read_ptr k + (payload_len - to_copy)) `mod` s_rx_buf_size k) k));;
  mret (ip, port, bytes).

Section ops.
Context (others : net → net).
Abbreviation send := (ipv4_send others).

(** ** UNIX socket pairs *)

(** [peer] takes as many bytes as fit; the rest is returned. *)
Fixpoint pair_push (peer : nat) (l : list Z) : NM (list Z) :=
  match l with
  | [] => mret []
  | b :: l' =>
      k ← get_sock peer;
      let next := (s_rx_write_ptr k + 1) `mod` s_rx_buf_size k in
      if next =? s_rx_read_ptr k then mret l else
      ring_put peer b;; pair_push peer l'
  end.

Fixpoint pair_send_loop (sleeps : nat) (peer : nat) (buf : list Z) (written : Z) (nonblock : bool) : NM Z :=
  rest ← pair_push peer buf;
  let written := written + Z.of_nat (length buf - length rest) in
  match rest with
  | [] => wake_socket peer;; io_notify;; mret written
  | _ =>
      if nonblock then mret (if 0 <? written then written else - EAGAIN) else
      match sleeps with
      | O => spin
      | S sleeps =>
          modify others;;
          p ← get_sock peer;
          if s_shutdown_read p || s_closed p then mret (if 0 <? written then written else - EPIPE) else
          pair_send_loop sleeps peer rest written nonblock
      end
  end.

Definition socket_pair_send (sleeps : nat) (i : nat) (buf : list Z) (nonblock : bool) : NM Z :=
  k ← get_sock i;
  match s_peer k with
  | None => mret (- EPIPE)
  | Some peer =>
      if s_shutdown_write k || s_closed k then mret (- EPIPE) else
      p ← get_sock peer;
      if s_shutdown_read p || s_closed p then mret (- EPIPE) else
      pair_send_loop sleeps peer buf 0 nonblock
  end.

(** Wait until there is something to read: an early result, or [None]. *)
Fixpoint pair_recv_wait (sleeps : nat) (i : nat) (nonblock : bool) : NM (option Z) :=
  k ← get_sock i;
  if negb (s_rx_read_ptr k =? s_rx_write_ptr k) then mret None else
  if s_shutdown_read k then mret (Some 0) else
  gone ← match s_peer k with
         | None => mret true
         | Some p => pk ← get_sock p; mret (s_shutdown_write pk || s_closed pk)
         end;
  if (gone : bool) then mret (Some 0) else
  if nonblock then mret (Some (- EAGAIN)) else
  match sleeps with
  | O => spin
  | S sleeps => modify others;; pair_recv_wait sleeps i nonblock
  end.

(** The result and the bytes that were copied. *)
Definition socket_pair_recv (sleeps : nat) (i : nat) (count : Z) (nonblock : bool) : NM (Z * list Z) :=
  r ← pair_recv_wait sleeps i nonblock;
  match r with
  | Some rc => mret (rc, [])
  | None =>
      bytes ← ring_get_some i (Z.to_nat count);
      k ← get_sock i;
      match s_peer k with Some p => wake_socket p | None => mret () end;;
      io_notify;;
      mret (Z.of_nat (length bytes), bytes)
  end.

(** ** The file operations *)

Fixpoint read_wait (sleeps : nat) (i : nat) : NM (option Z) :=
  k ← get_sock i;
  if negb (s_rx_read_ptr k =? s_rx_write_ptr k) then mret None else
  if s_shutdown_read k then mret (Some 0) else
  if (s_type k =? SOCKET_TYPE_TCP) && ((s_tcp_state k =? TCP_STATE_CLOSED)
     || (s_tcp_state k =? TCP_STATE_CLOSE_WAIT) || s_closed k || s_shutdown_write k)
  then mret (Some 0) else
  match sleeps with
  | O => spin
  | S sleeps => modify others;; read_wait sleeps i
  end.

Definition socket_read (sleeps : nat) (i : nat) (count file_flags : Z) : NM (Z * list Z) :=
  k ← get_sock i;
  if negb (s_valid k) then mret (- EBADF, []) else
  if s_domain k =? AF_UNIX then socket_pair_recv sleeps i count (has_flag file_flags O_NONBLOCK) else
  r ← read_wait sleeps i;
  match r with
  | Some rc => mret (rc, [])
  | None =>
      k ← get_sock i;
      if s_type k =? SOCKET_TYPE_TCP then
        bytes ← ring_get_some i (Z.to_nat count);
        mret (Z.of_nat (length bytes), bytes)
      else
        d ← ring_get_datagram i count;
        mret (Z.of_nat (length d.2), d.2)
  end.

(** The length of a segment or datagram is cut to 16 bits by the call. *)
Definition socket_write (sleeps : nat) (i : nat) (buf : list Z) (file_flags : Z) : NM Z :=
  k ← get_sock i;
  let count := Z.of_nat (length buf) in
  if negb (s_valid k) then mret (- EBADF) else
  if s_domain k =? AF_UNIX then socket_pair_send sleeps i buf (has_flag file_flags O_NONBLOCK) else
  if s_type k =? SOCKET_TYPE_TCP then
    if s_shutdown_write k then mret (- EPIPE) else
    if negb (s_tcp_state k =? TCP_STATE_ESTABLISHED) then mret (- ENOTCONN) else
    net_tcp_send_segment send i (TCP_FLAG_ACK |! TCP_FLAG_PSH) buf (u16 count);;
    mret (i32 count)
  else
    if negb (s_connected k) then mret (- EDESTADDRREQ) else
    net_udp_send send i (s_remote_ip k) (s_remote_port k) buf (u16 count);;
    mret (i32 count).

Fixpoint close_wait (n : nat) (i : nat) : NM unit :=
  k ← get_sock i;
  if s_tcp_state k =? TCP_STATE_CLOSED then mret () else
  match n with
  | O => mret ()
  | S n => modify others;; close_wait n i
  end.

(** [FIN] in the state the connection is in; [true] if one was sent. *)
Definition tcp_send_fin (i : nat) : NM bool :=
  k ← get_sock i;
  if (s_tcp_state k =? TCP_STATE_ESTABLISHED) || (s_tcp_state k =? TCP_STATE_SYN_RECEIVED) then
    upd_sock i (set_s_tcp_state TCP_STATE_FIN_WAIT_1);;
    net_tcp_send_segment send i (TCP_FLAG_FIN |! TCP_FLAG_ACK) [] 0;; mret true
  else if s_tcp_state k =? TCP_STATE_CLOSE_WAIT then
    upd_sock i (set_s_tcp_state TCP_STATE_LAST_ACK);;
    net_tcp_send_segment send i (TCP_FLAG_FIN |! TCP_FLAG_ACK) [] 0;; mret true
  else mret false.

Definition socket_close (i : nat) : NM Z :=
  k ← get_sock i;
  if negb (s_valid k) then mret (- EBADF) else
  upd_sock i (λ k, set_s_shutdown_write true (set_s_shutdown_read true (set_s_closed true k)));;
  wake_socket i;; io_notify;;
  match s_peer k with
  | Some p => upd_sock p (set_s_peer None);; wake_socket p;; io_notify
  | None => mret ()
  end;;
  when (s_type k =? SOCKET_TYPE_TCP)
    (sent ← tcp_send_fin i; when sent (close_wait 100 i));;
  upd_sock i (set_s_rx_buf []);;
  fl ← table_lock_irqsave;
  upd_sock i (set_s_valid false);;
  table_unlock_irqrestore fl;;
  mret 0.

(** ** System calls *)

Definition sys_socket (domain type : Z) : NM Z :=
  if negb (domain =? AF_INET) then mret (- EAFNOSUPPORT) else
  let t := type &! 0xf in
  if negb ((t =? SOCK_STREAM) || (t =? SOCK_DGRAM)) then mret (- EINVAL) else
  r ← socket_alloc_common domain (if t =? SOCK_STREAM then SOCKET_TYPE_TCP else SOCKET_TYPE_UDP);
  mret match r with inl e => e | inr (fd, _) => Z.of_nat fd end.

(** A [struct sockaddr_in] in user memory: whether the range passes
    [uaccess_ok], its length, and port and address if the copy succeeds. *)
Record user_addr := UserAddr {
  ua_ok : bool;
  ua_len : Z;
  ua_sin : option (Z * list Z);
}.

Definition with_fd (fd : Z) (f : nat → Z → NM Z) : NM Z :=
  r ← sock_of_fd fd;
  match r with inl e => mret e | inr (i, flags) => f i flags end.

Definition locked (m : NM unit) : NM unit :=
  fl ← table_lock_irqsave; m;; table_unlock_irqrestore fl.

Definition sys_bind (fd : Z) (addr : user_addr) : NM Z :=
  with_fd fd (λ i _,
    k ← get_sock i;
    if negb (s_domain k =? AF_INET) then mret (- EAFNOSUPPORT) else
    if negb (ua_ok addr) then mret (- EFAULT) else
    if ua_len addr <? 16 then mret (- EINVAL) else
    match ua_sin addr with
    | None => mret (- EFAULT)
    | Some (port, _) =>
        locked (upd_sock i (λ k, set_s_bound true (set_s_local_port (swap16 port) k)));;
        mret 0
    end).

Definition sys_listen (fd : Z) : NM Z :=
  with_fd fd (λ i _,
    k ← get_sock i;
    if negb (s_domain k =? AF_INET) then mret (- EAFNOSUPPORT) else
    if negb (s_type k =? SOCKET_TYPE_TCP) then mret (- EOPNOTSUPP) else
    locked (upd_sock i (set_s_tcp_state TCP_STATE_LISTEN));;
    mret 0).

(** The head of the accept queue; the others move up. *)
Definition shift_queue (k : socket) : socket :=
  let n := Z.to_nat (s_accept_count k) in
  set_s_accept_count (s_accept_count k - 1)
    (set_s_accept_queue (take (n - 1) (drop 1 (s_accept_queue k)) ++ drop (n - 1) (s_accept_queue k)) k).

Fixpoint accept_wait (sleeps : nat) (i : nat) : NM nat :=
  fl ← table_lock_irqsave;
  k ← get_sock i;
  if 0 <? s_accept_count k then
    child ← deref (mjoin (s_accept_queue k !! 0%nat));
    upd_sock i shift_queue;;
    table_unlock_irqrestore fl;;
    mret child
  else
    table_unlock_irqrestore fl;;
    match sleeps with
    | O => spin
    | S sleeps => modify others;; accept_wait sleeps i
    end.

(** [peer_ok]: the copies of the peer's address to the user succeed, or none
    was asked for.  When they fail the new file is closed and freed, but stays
    in [files]. *)
Definition sys_accept (sleeps : nat) (fd : Z) (args_ok peer_ok : bool) : NM Z :=
  with_fd fd (λ i _,
    k ← get_sock i;
    if negb (s_domain k =? AF_INET) then mret (- EAFNOSUPPORT) else
    if negb (s_type k =? SOCKET_TYPE_TCP) then mret (- EOPNOTSUPP) else
    if negb args_ok then mret (- EFAULT) else
    child ← accept_wait sleeps i;
    cfd ← alloc_fd;
    match cfd with
    | None => mret (- EMFILE)
    | Some cfd =>
        node ← kmalloc_answer;
        if negb node then mret (- ENOMEM) else
        file ← kmalloc_answer;
        if negb file then mret (- ENOMEM) else
        install_fd cfd child;;
        if peer_ok then mret (Z.of_nat cfd) else
        socket_close child;;
        modify (λ s, set_n_files (<[cfd := Some FFreed]> (n_files s)) s);;
        mret (- EFAULT)
    end).

Fixpoint connect_wait (sleeps : nat) (i : nat) : NM unit :=
  fl ← table_lock_irqsave;
  k ← get_sock i;
  table_unlock_irqrestore fl;;
  if s_tcp_state k =? TCP_STATE_ESTABLISHED then mret () else
  match sleeps with
  | O => spin
  | S sleeps => modify others;; connect_wait sleeps i
  end.

Definition bind_ephemeral (i : nat) : NM unit :=
  s ← get;
  let p := next_ephemeral_port s in
  upd_sock i (λ k, set_s_bound true (set_s_local_port p k));;
  let q := u16 (p + 1) in
  modify (set_next_ephemeral_port (if q =? 0 then 49152 else q)).

Definition sys_connect (sleeps : nat) (fd : Z) (addr : user_addr) : NM Z :=
  with_fd fd (λ i _,
    k ← get_sock i;
    if negb (s_domain k =? AF_INET) then mret (- EAFNOSUPPORT) else
    if negb (ua_ok addr) then mret (- EFAULT) else
    if ua_len addr <? 16 then mret (- EINVAL) else
    match ua_sin addr with
    | None => mret (- EFAULT)
    | Some (port, ip) =>
        upd_sock i (λ k, set_s_remote_ip ip (set_s_remote_port (swap16 port) k));;
        (if s_type k =? SOCKET_TYPE_TCP then
           when (negb (s_bound k)) (bind_ephemeral i);;
           locked (upd_sock i (λ k, set_s_rcv_nxt 0 (set_s_snd_nxt 1000
             (set_s_tcp_state TCP_STATE_SYN_SENT k))));;
           net_tcp_send_segment send i TCP_FLAG_SYN [] 0;;
           connect_wait sleeps i;;
           locked (upd_sock i (set_s_connected true))
         else locked (upd_sock i (set_s_connected true)));;
        io_notify;;
        mret 0
    end).

(** A buffer in user memory: whether the range passes [uaccess_ok], its length,
    and what copying its first bytes delivers. *)
Record user_buf := UserBuf {
  ub_ok : bool;
  ub_len : Z;
  ub_copy : Z → option (list Z);
}.

Definition with_copy (b : user_buf) (len : Z) (f : list Z → NM Z) : NM Z :=
  ok ← kmalloc_of len;
  if negb ok then mret (- ENOMEM) else
  match ub_copy b len with
  | None => mret (- EFAULT)
  | Some kbuf => f kbuf
  end.

(** [dest]: the address argument, if it is not null. *)
Definition sys_sendto (sleeps : nat) (fd : Z) (buf : user_buf) (dest : option user_addr) : NM Z :=
  with_fd fd (λ i flags,
    k ← get_sock i;
    if s_shutdown_write k then mret (- EPIPE) else
    if negb (ub_ok buf) then mret (- EFAULT) else
    if s_domain k =? AF_UNIX then
      if bool_decide (is_Some dest) then mret (- EISCONN) else
      with_copy buf (ub_len buf) (λ kbuf, socket_pair_send sleeps i kbuf (has_flag flags O_NONBLOCK))
    else
      let len := if 1400 <? ub_len buf then 1400 else ub_len buf in
      with_copy buf len (λ kbuf,
        let unaddressed :=
          if negb (s_connected k) then mret (- EDESTADDRREQ) else
          (if s_type k =? SOCKET_TYPE_TCP
           then net_tcp_send_segment send i (TCP_FLAG_ACK |! TCP_FLAG_PSH) kbuf (u16 len)
           else net_udp_send send i (s_remote_ip k) (s_remote_port k) kbuf (u16 len));;
          mret len in
        match dest with
        | None => unaddressed
        | Some a =>
            if ua_len a <? 16 then unaddressed else
            if negb (ua_ok a) then mret (- EFAULT) else
            match ua_sin a with
            | None => mret (- EFAULT)
            | Some (port, ip) =>
                if s_type k =? SOCKET_TYPE_TCP then mret (- EISCONN) else
                net_udp_send send i ip (swap16 port) kbuf (u16 len);;
                mret len
            end
        end)).

(** The wait of [recvfrom]; unlike [read] it does not look at the shutdown
    flags. *)
Fixpoint recv_wait (sleeps : nat) (i : nat) : NM bool :=
  k ← get_sock i;
  if negb (s_rx_read_ptr k =? s_rx_write_ptr k) then mret true else
  if (s_type k =? SOCKET_TYPE_TCP) && ((s_tcp_state k =? TCP_STATE_CLOSED)
     || (s_tcp_state k =? TCP_STATE_CLOSE_WAIT) || s_closed k)
  then mret false else
  match sleeps with
  | O => spin
  | S sleeps => modify others;; recv_wait sleeps i
  end.

(** What [recvfrom] does after its checks: the result, what it writes to the
    user's buffer, and the source [(port, address)] it reports.  [out_ok]: the
    copy to the buffer succeeds. *)
Definition recv_unix (sleeps : nat) (i : nat) (flags len : Z) (out_ok : bool) : NM (Z * list Z) :=
  ok ← kmalloc_of len;
  if negb ok then mret (- ENOMEM, []) else
  r ← socket_pair_recv sleeps i len (has_flag flags O_NONBLOCK);
  if (0 <? r.1) && negb out_ok then mret (- EFAULT, []) else
  io_notify;;
  mret r.

Definition recv_inet (sleeps : nat) (i : nat) (len : Z) (out_ok : bool) : NM (Z * list Z * option (Z * list Z)) :=
  ready ← recv_wait sleeps i;
  if negb ready then mret (0, [], None) else
  ok ← kmalloc_of len;
  if negb ok then mret (- ENOMEM, [], None) else
  k ← get_sock i;
  r ← (if s_type k =? SOCKET_TYPE_TCP then
         bytes ← ring_get_some i (Z.to_nat len); mret (bytes, None)
       else
         d ← ring_get_datagram i len; mret (d.2, Some (swap16 d.1.2, d.1.1)));
  if negb out_ok then mret (- EFAULT, [], r.2) else
  io_notify;;
  mret (Z.of_nat (length r.1), r.1, r.2).

(** [args_ok]: the buffer and the two pointers pass [uaccess_ok]. *)
Definition sys_recvfrom (sleeps : nat) (fd len : Z) (args_ok out_ok : bool)
    : NM (Z * list Z * option (Z * list Z)) :=
  r ← sock_of_fd fd;
  match r with
  | inl e => mret (e, [], None)
  | inr (i, flags) =>
      if negb args_ok then mret (- EFAULT, [], None) else
      k ← get_sock i;
      if s_domain k =? AF_UNIX then
        r ← recv_unix sleeps i flags len out_ok; mret (r.1, r.2, None)
      else recv_inet sleeps i len out_ok
  end.

(** [arg_ok]: the option's address and length pass the checks; [value]: what
    the copy delivers. *)
Definition sys_setsockopt (fd level optname : Z) (arg_ok : bool) (value : option Z) : NM Z :=
  r ← fd_socket fd;
  match r with
  | inl e => mret e
  | inr i =>
      if negb (level =? SOL_SOCKET) then mret (- ENOPROTOOPT) else
      if negb arg_ok then mret (- EINVAL) else
      match value with
      | None => mret (- EFAULT)
      | Some v =>
          if optname =? SO_REUSEADDR then
            upd_sock i (set_s_so_reuseaddr (if v =? 0 then 0 else 1));; mret 0
          else mret (- ENOPROTOOPT)
      end
  end.

(** The value of an option; reading the pending error clears it. *)
Definition socket_option (i : nat) (optname : Z) : NM (option Z) :=
  k ← get_sock i;
  if optname =? SO_REUSEADDR then mret (Some (s_so_reuseaddr k)) else
  if optname =? SO_TYPE then
    mret (Some (if s_type k =? SOCKET_TYPE_TCP then SOCK_STREAM else SOCK_DGRAM)) else
  if optname =? SO_ERROR then upd_sock i (set_s_so_error 0);; mret (Some (s_so_error k)) else
  if optname =? SO_ACCEPTCONN then
    mret (Some (if s_tcp_state k =? TCP_STATE_LISTEN then 1 else 0)) else
  mret None.

(** [koptlen]: the length the user passes, if it can be read. *)
Definition sys_getsockopt (fd level optname : Z) (args_ok : bool) (koptlen : option Z) (out_ok : bool)
    : NM (Z * option Z) :=
  r ← fd_socket fd;
  match r with
  | inl e => mret (e, None)
  | inr i =>
      if negb (level =? SOL_SOCKET) then mret (- ENOPROTOOPT, None) else
      if negb args_ok then mret (- EFAULT, None) else
      match koptlen with
      | None => mret (- EFAULT, None)
      | Some n =>
          if n <? 4 then mret (- EINVAL, None) else
          v ← socket_option i optname;
          mret match v with
               | None => (- ENOPROTOOPT, None)
               | Some v => if out_ok then (0, Some v) else (- EFAULT, None)
               end
      end
  end.

Definition shutdown_locked (i : nat) (how : Z) : NM unit :=
  when ((how =? SHUT_RD) || (how =? SHUT_RDWR)) (upd_sock i (set_s_shutdown_read true));;
  when ((how =? SHUT_WR) || (how =? SHUT_RDWR))
    (upd_sock i (set_s_shutdown_write true);;
     k ← get_sock i;
     match s_peer k with Some p => wake_socket p | None => mret () end;;
     when (s_type k =? SOCKET_TYPE_TCP) (_ ← tcp_send_fin i; mret ()));;
  wake_socket i.

Definition sys_shutdown (fd how : Z) : NM Z :=
  r ← fd_socket fd;
  match r with
  | inl e => mret e
  | inr i =>
      if negb ((how =? SHUT_RD) || (how =? SHUT_WR) || (how =? SHUT_RDWR)) then mret (- EINVAL) else
      k ← get_sock i;
      if negb (s_connected k) && negb (s_domain k =? AF_UNIX) && negb (s_tcp_state k =? TCP_STATE_LISTEN)
      then mret (- ENOTCONN) else
      locked (shutdown_locked i how);;
      mret 0
  end.

(** [files[fd] = 0; file_close(f)] for a socket nobody else has open. *)
Definition drop_fd (fd i : nat) : NM unit :=
  modify (λ s, set_n_files (<[fd := None]> (n_files s)) s);;
  socket_close i;; mret ().

Definition sys_socketpair (domain type : Z) (sv_null out_ok : bool) : NM (Z * option (nat * nat)) :=
  if negb (domain =? AF_UNIX) then mret (- EAFNOSUPPORT, None) else
  if negb (type &! 0xf =? SOCK_STREAM) then mret (- EOPNOTSUPP, None) else
  if sv_null then mret (- EFAULT, None) else
  r0 ← socket_alloc_common AF_UNIX SOCKET_TYPE_TCP;
  match r0 with
  | inl e => mret (e, None)
  | inr (fd0, i0) =>
      r1 ← socket_alloc_common AF_UNIX SOCKET_TYPE_TCP;
      match r1 with
      | inl e => drop_fd fd0 i0;; mret (e, None)
      | inr (fd1, i1) =>
          upd_sock i0 (set_s_connected true);;
          upd_sock i1 (set_s_connected true);;
          upd_sock i0 (set_s_peer (Some i1));;
          upd_sock i1 (set_s_peer (Some i0));;
          if out_ok then mret (0, Some (fd0, fd1)) else
          modify (λ s, set_n_files (<[fd1 := None]> (<[fd0 := None]> (n_files s))) s);;
          socket_close i0;; socket_close i1;;
          mret (- EFAULT, None)
      end
  end.
End ops.

(** ** Scattered messages *)

(** One element of the vector: whether its range passes [uaccess_ok], its
    length, what copying from it delivers, whether copying to it succeeds. *)
Record iovec := Iovec {
  iov_ok : bool;
  iov_len : Z;
  iov_copy : option (list Z);
  iov_out_ok : bool;
}.

(** [struct msghdr_linux] in user memory. *)
Record user_msg := UserMsg {
  um_ok : bool;  (** the header can be read *)
  um_iovlen : Z;
  um_control : bool;  (** [msg_control || msg_controllen] *)
  um_iov : option (list iovec);  (** the vector, if it can be read *)
  um_name : bool;  (** [msg_name != 0] *)
  um_namelen : Z;
  um_name_ok : bool;  (** the copy to [msg_name] succeeds *)
  um_out_ok : bool;  (** the copy back of the header succeeds *)
}.

Definition total_len (l : list iovec) : Z := foldl (λ t v, t +! iov_len v) 0 l.

(** Copy the elements one after the other into a buffer of [size] bytes. *)
Fixpoint gather (size : Z) (acc : list Z) (l : list iovec) : NM (option (list Z)) :=
  match l with
  | [] => mret (Some acc)
  | v :: l =>
      if iov_len v =? 0 then gather size acc l else
      if negb (iov_ok v) then mret None else
      if size <? Z.of_nat (length acc) + iov_len v then undef else
      match iov_copy v with
      | None => mret None
      | Some b => gather size (acc ++ b) l
      end
  end.

(** The chunks of [bytes] that reach the elements; [false] if a copy fails. *)
Fixpoint scatter (bytes : list Z) (l : list iovec) : list (list Z) * bool :=
  match bytes, l with
  | [], _ | _, [] => ([], true)
  | _, v :: l =>
      let chunk := Z.to_nat (Z.min (iov_len v) (Z.of_nat (length bytes))) in
      if bool_decide (0 < chunk)%nat && negb (iov_out_ok v) then ([], false) else
      let r := scatter (drop chunk bytes) l in
      (take chunk bytes :: r.1, r.2)
  end.

Section msg.
Context (others : net → net).
(** The [write] and [read] of a node that is not a socket. *)
Context (node_write : list Z → NM Z) (node_read : Z → NM (Z * list Z)).

(** The checks on the header and the vector, up to the buffer. *)
Definition with_vector {A} (err : Z → A) (fd : Z) (m : user_msg) (f : list iovec → NM A) : NM A :=
  if (fd <? 0) || (MAX_FILES_PER_PROCESS <=? fd) then mret (err (- EBADF)) else
  if negb (um_ok m) then mret (err (- EFAULT)) else
  if (um_iovlen m =? 0) || (64 <? um_iovlen m) then mret (err (- EINVAL)) else
  if um_control m then mret (err (- ENOTSUP)) else
  ok ← (if 16 <? um_iovlen m then kmalloc_answer else mret true);
  if negb ok then mret (err (- ENOMEM)) else
  match um_iov m with
  | None => mret (err (- EFAULT))
  | Some l =>
      ok ← kmalloc_answer;
      if negb ok then mret (err (- ENOMEM)) else f l
  end.

Definition buffer_size (l : list iovec) : Z := if total_len l =? 0 then 1 else total_len l.

(** [cur_flags] is the current task's [current_file_flags]. *)
Definition sys_sendmsg (sleeps : nat) (fd : Z) (m : user_msg) (cur_flags : Z) : NM Z :=
  with_vector id fd m (λ l,
    r ← gather (buffer_size l) [] l;
    match r with
    | None => mret (- EFAULT)
    | Some buf =>
        s ← get;
        match file_at fd s with
        | None => mret (- EBADF)
        | Some FFreed => undef
        | Some f =>
            if um_name m then mret (- EOPNOTSUPP) else
            match f with
            | FSocket i _ => socket_write others sleeps i buf cur_flags
            | _ => node_write buf
            end
        end
    end).

(** The result, the chunks, and the address family reported. *)
Definition sys_recvmsg (sleeps : nat) (fd : Z) (m : user_msg) (cur_flags : Z)
    : NM (Z * list (list Z) * option Z) :=
  with_vector (λ e, (e, [], None)) fd m (λ l,
    s ← get;
    match file_at fd s with
    | None => mret (- EBADF, [], None)
    | Some FFreed => undef
    | Some f =>
        r ← match f with
            | FSocket i _ => socket_read others sleeps i (total_len l) cur_flags
            | _ => node_read (total_len l)
            end;
        let out := if 0 <? r.1 then scatter r.2 l else ([], true) in
        let ret := if out.2 : bool then r.1 else - EFAULT in
        name ← (if (0 <=? ret) && um_name m && (16 <=? um_namelen m) then
                  match f with
                  | FSocket i _ => k ← get_sock i; mret (Some (s_domain k))
                  | _ => undef
                  end
                else mret None);
        let ret := if bool_decide (is_Some name) && negb (um_name_ok m) then - EFAULT else ret in
        let ret := if negb (um_out_ok m) && (0 <=? ret) then - EFAULT else ret in
        mret (ret, out.1, name)
    end).
End msg.
