(* ===== verification/NetRing.v ===== *)
(** * The receive ring of a socket as a queue of bytes *)

From S2P Require Import Prelude NetState Net SocketOps.

Record ring_ok (k : socket) : Prop := {
  ring_size : s_rx_buf_size k = 8192;
  ring_len : length (s_rx_buf k) = Z.to_nat 8192;
  ring_rd : 0 ≤ s_rx_read_ptr k < 8192;
  ring_wr : 0 ≤ s_rx_write_ptr k < 8192;
}.

Definition ring_count (k : socket) : Z := (s_rx_write_ptr k - s_rx_read_ptr k) `mod` 8192.

(** The bytes from the read pointer to the write pointer. *)
Definition ring_bytes (k : socket) : list Z :=
  (λ j, s_rx_buf k !!! Z.to_nat ((s_rx_read_ptr k + j) `mod` 8192)) <$> seqZ 0 (ring_count k).

Definition put (k : socket) (b : Z) : socket :=
  set_s_rx_write_ptr ((s_rx_write_ptr k + 1) `mod` s_rx_buf_size k)
    (set_s_rx_buf (<[Z.to_nat (s_rx_write_ptr k) := b]> (s_rx_buf k)) k).
Definition put_all (k : socket) (l : list Z) : socket := foldl put k l.
Definition skip (n : Z) (k : socket) : socket :=
  set_s_rx_read_ptr ((s_rx_read_ptr k + n) `mod` s_rx_buf_size k) k.

Lemma ring_count_range k : 0 ≤ ring_count k < 8192.
Proof. apply Z.mod_pos_bound. lia. Qed.

Lemma length_ring_bytes k : Z.of_nat (length (ring_bytes k)) = ring_count k.
Proof.
  unfold ring_bytes. rewrite length_fmap, length_seqZ.
  pose proof (ring_count_range k). lia.
Qed.

Lemma ring_count_case k : ring_ok k →
  ring_count k = if s_rx_read_ptr k <=? s_rx_write_ptr k
    then s_rx_write_ptr k - s_rx_read_ptr k
    else s_rx_write_ptr k - s_rx_read_ptr k + 8192.
Proof.
  intros [_ _ Hr Hw]. unfold ring_count.
  destruct (Z.leb_spec (s_rx_read_ptr k) (s_rx_write_ptr k)).
  - by rewrite Z.mod_small by lia.
  - symmetry. apply Z.mod_unique with (-1); lia.
Qed.

Lemma ring_empty k : ring_ok k → (s_rx_read_ptr k =? s_rx_write_ptr k) = bool_decide (ring_bytes k = []).
Proof.
  intros Hk. pose proof (length_ring_bytes k) as Hl. rewrite (ring_count_case k Hk) in Hl.
  destruct Hk as [_ _ Hr Hw].
  destruct (Z.eqb_spec (s_rx_read_ptr k) (s_rx_write_ptr k)) as [He|He].
  - rewrite bool_decide_true; [done|]. apply nil_length_inv.
    rewrite He, Z.leb_refl in Hl. lia.
  - rewrite bool_decide_false; [done|]. intros Hn. rewrite Hn in Hl. cbn in Hl.
    destruct (Z.leb_spec (s_rx_read_ptr k) (s_rx_write_ptr k)); lia.
Qed.

Lemma free_space_eq k : ring_ok k → free_space k = 8192 - ring_count k.
Proof.
  intros Hk. rewrite (ring_count_case k Hk). destruct Hk as [Hs _ Hr Hw].
  unfold free_space, u32. rewrite Hs, !(Z.mod_small (s_rx_write_ptr k)), !(Z.mod_small (s_rx_read_ptr k)) by lia.
  destruct (Z.leb_spec (s_rx_read_ptr k) (s_rx_write_ptr k)); [|lia].
  rewrite (Z.mod_small (s_rx_write_ptr k - _)) by lia. rewrite Z.mod_small; lia.
Qed.

(** ** Adding at the end *)

Lemma put_ok k b : ring_ok k → ring_ok (put k b).
Proof.
  intros [Hs Hl Hr Hw]. split; cbn; try done.
  - by rewrite length_insert.
  - rewrite Hs. apply Z.mod_pos_bound. lia.
Qed.

Lemma put_all_ok l k : ring_ok k → ring_ok (put_all k l).
Proof. revert k. induction l as [|b l IH]; intros k Hk; [done|]. by apply IH, put_ok. Qed.

Lemma count_put k b : ring_ok k → ring_count k + 1 < 8192 → ring_count (put k b) = ring_count k + 1.
Proof.
  intros [Hs _ Hr Hw] Hroom. unfold ring_count in *. cbn. rewrite Hs.
  rewrite Zminus_mod_idemp_l.
  replace (s_rx_write_ptr k + 1 - s_rx_read_ptr k)
    with (s_rx_write_ptr k - s_rx_read_ptr k + 1) by lia.
  rewrite <-Zplus_mod_idemp_l. rewrite Z.mod_small; [done|].
  split; [|done]. pose proof (Z.mod_pos_bound (s_rx_write_ptr k - s_rx_read_ptr k) 8192). lia.
Qed.

(** The place of the [j]-th byte differs from the write pointer's. *)
Lemma ring_slot_ne k j : ring_ok k → 0 ≤ j < ring_count k →
  Z.to_nat (s_rx_write_ptr k) ≠ Z.to_nat ((s_rx_read_ptr k + j) `mod` 8192).
Proof.
  intros Hk Hj. rewrite (ring_count_case k Hk) in Hj. destruct Hk as [Hs _ Hr Hw].
  pose proof (Z.mod_pos_bound (s_rx_read_ptr k + j) 8192) as Hm.
  intros He. apply Z2Nat.inj in He; [|lia..].
  pose proof (Z.div_mod (s_rx_read_ptr k + j) 8192) as Hd.
  destruct (Z.leb_spec (s_rx_read_ptr k) (s_rx_write_ptr k)); nia.
Qed.

Lemma bytes_put k b : ring_ok k → ring_count k + 1 < 8192 → ring_bytes (put k b) = ring_bytes k ++ [b].
Proof.
  intros Hk Hroom. unfold ring_bytes. rewrite (count_put k b Hk Hroom).
  pose proof (ring_count_range k) as Hc. destruct (ring_wr k Hk) as [Hw0 Hw1].
  rewrite seqZ_app, fmap_app by lia. f_equal.
  - apply list_fmap_ext. intros n j Hj. apply lookup_seqZ in Hj as [-> Hj]. cbn.
    rewrite list_lookup_total_insert_ne; [done|]. apply ring_slot_ne; [done|lia].
  - rewrite seqZ_cons by lia. rewrite fmap_cons, Z.add_0_l. f_equal. cbn.
    replace ((s_rx_read_ptr k + ring_count k) `mod` 8192) with (s_rx_write_ptr k).
    + rewrite list_lookup_total_insert_eq; [done|]. rewrite (ring_len k Hk). lia.
    + unfold ring_count. rewrite Zplus_mod_idemp_r.
      replace (s_rx_read_ptr k + (s_rx_write_ptr k - s_rx_read_ptr k)) with (s_rx_write_ptr k) by lia.
      by rewrite Z.mod_small.
Qed.

Lemma bytes_put_all l k : ring_ok k → ring_count k + Z.of_nat (length l) < 8192 →
  ring_bytes (put_all k l) = ring_bytes k ++ l.
Proof.
  revert k. induction l as [|b l IH]; intros k Hk Hroom; cbn in *; [by rewrite app_nil_r|].
  unfold put_all in IH. rewrite IH.
  - rewrite bytes_put by (done || lia). by rewrite <-app_assoc.
  - by apply put_ok.
  - rewrite count_put by (done || lia). lia.
Qed.

(** ** Taking from the front *)

Lemma skip_ok n k : ring_ok k → ring_ok (skip n k).
Proof.
  intros [Hs Hl Hr Hw]. split; cbn; try done. rewrite Hs. apply Z.mod_pos_bound. lia.
Qed.

Lemma count_skip n k : ring_ok k → 0 ≤ n ≤ ring_count k → ring_count (skip n k) = ring_count k - n.
Proof.
  intros [Hs _ Hr Hw] Hn. pose proof (ring_count_range k) as Hc. unfold ring_count in *. cbn.
  rewrite Hs, Zminus_mod_idemp_r.
  replace (s_rx_write_ptr k - (s_rx_read_ptr k + n)) with (s_rx_write_ptr k - s_rx_read_ptr k - n) by lia.
  rewrite <-Zminus_mod_idemp_l. rewrite Z.mod_small; lia.
Qed.

Lemma bytes_skip n k : ring_ok k → 0 ≤ n ≤ ring_count k →
  ring_bytes (skip n k) = drop (Z.to_nat n) (ring_bytes k).
Proof.
  intros Hk Hn. unfold ring_bytes at 2.
  replace (ring_count k) with (n + (ring_count k - n)) by lia.
  rewrite seqZ_app, fmap_app by lia.
  rewrite drop_app_length' by (rewrite length_fmap, length_seqZ; lia).
  unfold ring_bytes. rewrite (count_skip n k Hk Hn).
  rewrite (Z.add_comm 0 n), <-fmap_add_seqZ, <-list_fmap_compose.
  apply list_fmap_ext. intros j z _. cbn.
  rewrite (ring_size k Hk), Zplus_mod_idemp_l. do 3 f_equal. lia.
Qed.

Lemma head_ring k b l : ring_ok k → ring_bytes k = b :: l →
  s_rx_buf k !! Z.to_nat (s_rx_read_ptr k) = Some b.
Proof.
  intros Hk Hb. pose proof (length_ring_bytes k) as Hl. rewrite Hb in Hl. cbn in Hl.
  unfold ring_bytes in Hb. rewrite seqZ_cons in Hb by lia. cbn in Hb. injection Hb as Hb _.
  destruct (ring_rd k Hk). rewrite Z.add_0_r, Z.mod_small in Hb by lia.
  rewrite list_lookup_lookup_total_lt by (rewrite (ring_len k Hk); lia). congruence.
Qed.
