(* ===== verification/NetSpec.v ===== *)
(** * Invariant of the network stack, and sending

    What every routine of the stack keeps: well-formed sockets and tables, and
    frames with this host's address.  TCP sockets talk to other hosts only; the
    loopback case is treated apart. *)

From S2P Require Import Prelude Bits NetState Net SocketOps NetRing.

Record nonlocal (ip a : list Z) : Prop := {
  nonlocal_len : length a = 4%nat;
  nonlocal_loop : head a ≠ Some 127;
  nonlocal_own : a ≠ ip;
}.

Record sock_ok (ip : list Z) (k : socket) : Prop := {
  sk_ring : s_valid k = true → ring_ok k;
  sk_remote : s_type k = SOCKET_TYPE_TCP → nonlocal ip (s_remote_ip k);
  sk_addr : length (s_remote_ip k) = 4%nat;
  sk_queue : length (s_accept_queue k) = 8%nat;
  sk_count : 0 ≤ s_accept_count k ≤ 8;
  sk_filled : ∀ j, (j < Z.to_nat (s_accept_count k))%nat →
    ∃ c, s_accept_queue k !! j = Some (Some c) ∧ (c < MAX_SOCKETS)%nat;
  sk_parent : ∀ p, s_parent_listener k = Some p → (p < MAX_SOCKETS)%nat;
  sk_peer : ∀ p, s_peer k = Some p → (p < MAX_SOCKETS)%nat;
}.

(** A frame that may leave the host. *)
Record frame_ok (mac : list Z) (f : list Z) : Prop := {
  frame_len : (14 ≤ length f ≤ 1600)%nat;
  frame_src : take 6 (drop 6 f) = mac;
}.

Record net_ok (ip mac : list Z) (lk fl : bool) (s : net) : Prop := {
  no_table : length (socket_table s) = MAX_SOCKETS;
  no_socks : Forall (sock_ok ip) (socket_table s);
  no_lock : socket_table_lock s = lk;
  no_if : n_if s = fl;
  no_ip : my_ip s = ip;
  no_mac : my_mac s = mac;
  no_ip_len : length ip = 4%nat;
  no_ip_any : ip ≠ [0; 0; 0; 0];
  no_mac_len : length mac = 6%nat;
  no_arp : Forall (λ e, length (a_mac e) = 6%nat) (arp_table s);
  no_frames : Forall (frame_ok mac) (n_frames s);
  no_files : ∀ fd i g, n_files s !! fd = Some (Some (FSocket i g)) → (i < MAX_SOCKETS)%nat;
}.

Lemma net_ok_sock ip mac lk fl s i k :
  net_ok ip mac lk fl s → socket_table s !! i = Some k → sock_ok ip k ∧ (i < MAX_SOCKETS)%nat.
Proof.
  intros Hs Hk. split.
  - by eapply Forall_lookup_1; [apply Hs|].
  - rewrite <-(no_table _ _ _ _ _ Hs). by eapply lookup_lt_Some.
Qed.

Lemma net_ok_lookup ip mac lk fl s i :
  net_ok ip mac lk fl s → (i < MAX_SOCKETS)%nat → ∃ k, socket_table s !! i = Some k.
Proof. intros Hs Hi. apply lookup_lt_is_Some. by rewrite (no_table _ _ _ _ _ Hs). Qed.

Lemma net_ok_insert ip mac lk fl s i k :
  net_ok ip mac lk fl s → sock_ok ip k →
  net_ok ip mac lk fl (set_socket_table (<[i := k]> (socket_table s)) s).
Proof.
  intros [] Hk. split; cbn; try done.
  - by rewrite length_insert.
  - by apply Forall_insert.
Qed.

Lemma net_ok_lens ip mac lk fl s :
  net_ok ip mac lk fl s → length (my_ip s) = 4%nat ∧ length (my_mac s) = 6%nat.
Proof. intros []. split; congruence. Qed.

Lemma length_arp_packet hw proto op smac sip tmac tip :
  length smac = 6%nat → length sip = 4%nat → length tmac = 6%nat → length tip = 4%nat →
  length (arp_packet hw proto op smac sip tmac tip) = 28%nat.
Proof. intros. unfold arp_packet. rewrite !length_app. cbn. lia. Qed.

(** ** Reading packets *)

Definition word16 (data : list Z) (off : nat) : Z := data !!! off + 256 * data !!! (off + 1)%nat.
Definition word32 (data : list Z) (off : nat) : Z := word16 data off + 65536 * word16 data (off + 2).

Lemma wp_rd8 data off (Q : Z → net → Prop) s :
  (off < length data)%nat → Q (data !!! off) s → wp (rd8 data off) Q s.
Proof. intros Hl HQ. eapply wp_deref; [by apply list_lookup_lookup_total_lt|done]. Qed.

Lemma wp_rd16 data off (Q : Z → net → Prop) s :
  (off + 1 < length data)%nat → Q (word16 data off) s → wp (rd16 data off) Q s.
Proof. intros Hl HQ. apply wp_bind, wp_rd8; [lia|]. apply wp_bind, wp_rd8; [lia|]. by apply wp_ret. Qed.

Lemma wp_rd32 data off (Q : Z → net → Prop) s :
  (off + 3 < length data)%nat → Q (word32 data off) s → wp (rd32 data off) Q s.
Proof. intros Hl HQ. apply wp_bind, wp_rd16; [lia|]. apply wp_bind, wp_rd16; [lia|]. by apply wp_ret. Qed.

Lemma wp_rd_bytes data off n (Q : list Z → net → Prop) s :
  (off + n ≤ length data)%nat → Q (take n (drop off data)) s → wp (rd_bytes data off n) Q s.
Proof. intros Hl HQ. unfold rd_bytes. by rewrite bool_decide_true. Qed.

Lemma length_take_drop (n off : nat) (data : list Z) :
  (off + n ≤ length data)%nat → length (take n (drop off data)) = n.
Proof. intros. rewrite length_take, length_drop. lia. Qed.

Lemma swap16_range v : 0 ≤ swap16 v < 65536.
Proof. apply u16_bound. Qed.

(** ** Sockets *)

Lemma wp_get_sock i k (Q : socket → net → Prop) s :
  socket_table s !! i = Some k → Q k s → wp (get_sock i) Q s.
Proof. intros Hk HQ. apply wp_bind, wp_get. by eapply wp_deref. Qed.

Lemma wp_upd_sock i k f (Q : unit → net → Prop) s :
  socket_table s !! i = Some k → Q () (set_socket_table (<[i := f k]> (socket_table s)) s) →
  wp (upd_sock i f) Q s.
Proof. intros Hk HQ. apply wp_bind. by eapply wp_get_sock. Qed.

Section stack.
Context (ip mac : list Z) (others : net → net).
(** How a sleep without the lock may change the table. *)
Context (R : list socket → list socket → Prop) `{!PreOrder R}.
Abbreviation ok := (net_ok ip mac).

(** From [s] to [s']: the invariant holds, and the table is what it was, up to
    what other tasks did while nobody held the lock. *)
Definition after (lk fl : bool) (s s' : net) : Prop :=
  ok lk fl s' ∧ if lk then socket_table s' = socket_table s else R (socket_table s) (socket_table s').

Lemma after_refl lk fl s : ok lk fl s → after lk fl s s.
Proof. split; [done|]. by destruct lk. Qed.

Lemma after_trans lk fl s1 s2 s3 : after lk fl s1 s2 → after lk fl s2 s3 → after lk fl s1 s3.
Proof. intros [_ H1] [? H2]. split; [done|]. destruct lk; [congruence | by etransitivity]. Qed.

(** A change outside the socket table. *)
Lemma after_aside lk fl s0 s s' : after lk fl s0 s →
  socket_table s' = socket_table s → socket_table_lock s' = socket_table_lock s → n_if s' = n_if s →
  my_ip s' = my_ip s → my_mac s' = my_mac s → n_files s' = n_files s →
  Forall (λ e, length (a_mac e) = 6%nat) (arp_table s') → Forall (frame_ok mac) (n_frames s') →
  after lk fl s0 s'.
Proof.
  intros [[] Ht] E1 E2 E3 E4 E5 E6 Ha Hf. split; [split; try congruence|]; by rewrite ?E1, ?E6.
Qed.

Lemma after_same lk fl s0 s s' : after lk fl s0 s →
  socket_table s' = socket_table s → socket_table_lock s' = socket_table_lock s → n_if s' = n_if s →
  my_ip s' = my_ip s → my_mac s' = my_mac s → n_files s' = n_files s →
  arp_table s' = arp_table s → n_frames s' = n_frames s → after lk fl s0 s'.
Proof. intros Hs ?????? Ha Hf. pose proof Hs as [[] _]. eapply after_aside; eauto; congruence. Qed.

Ltac aside := eapply after_same; [eassumption|done..].

Context (Hothers : ∀ lk fl s, ok lk fl s → after lk fl s (others s)).

(** [m] leaves the table alone. *)
Definition aside {A} (m : NM A) (P : A → Prop) : Prop :=
  ∀ lk fl s0 s (Q : A → net → Prop), after lk fl s0 s →
    (∀ a s', P a → after lk fl s0 s' → Q a s') → wp m Q s.

Lemma aside_kmalloc n : aside (kmalloc_of n) (λ _, True).
Proof.
  intros lk fl s0 s Q Hs HQ. unfold kmalloc_of. wp_steps; apply HQ; try done. aside.
Qed.

Lemma aside_kmalloc_answer : aside kmalloc_answer (λ _, True).
Proof. intros lk fl s0 s Q Hs HQ. unfold kmalloc_answer. wp_steps. apply HQ; [done|]. aside. Qed.

Lemma aside_wake i : aside (wake_socket i) (λ _, True).
Proof. intros lk fl s0 s Q Hs HQ. apply wp_modify, HQ; [done|]. aside. Qed.

Lemma aside_notify : aside io_notify (λ _, True).
Proof. intros lk fl s0 s Q Hs HQ. apply wp_modify, HQ; [done|]. aside. Qed.

Lemma aside_eth_send dest type payload len : length dest = 6%nat →
  (Z.to_nat len ≤ length payload)%nat → aside (net_eth_send dest type payload len) (λ _, True).
Proof.
  intros Hd Hl lk fl s0 s Q Hs HQ. unfold net_eth_send. wp_steps.
  { by apply HQ. }
  apply wp_rd_bytes; [lia|]. apply wp_modify, HQ; [done|].
  pose proof (proj1 Hs) as Hok.
  eapply after_aside; [done|try done..].
  - apply (no_arp _ _ _ _ _ Hok).
  - cbn [n_frames set_n_frames]. apply Forall_app. split; [apply (no_frames _ _ _ _ _ Hok)|]. apply Forall_singleton. split.
    + rewrite !length_app, length_take_drop by lia. cbn.
      rewrite (no_mac _ _ _ _ _ Hok), (no_mac_len _ _ _ _ _ Hok). lia.
    + rewrite drop_app_length' by done. rewrite (no_mac _ _ _ _ _ Hok).
      rewrite take_app_length'; [done|]. by rewrite (no_mac_len _ _ _ _ _ Hok).
Qed.

Lemma find_index_lookup {A} (p : A → bool) l i :
  find_index p l = Some i → ∃ x, l !! i = Some x ∧ p x = true.
Proof.
  revert i. induction l as [|x l IH]; intros i; cbn; [done|].
  destruct (p x) eqn:Hp; [intros [= <-]; eauto|].
  destruct (find_index p l) as [j|]; [|done]. intros [= <-]. by apply IH.
Qed.

Lemma aside_arp_resolve dest : length dest = 4%nat →
  aside (arp_resolve dest) (λ m, ∀ a, m = Some a → length a = 6%nat).
Proof.
  intros Hd lk fl s0 s Q Hs HQ. unfold arp_resolve. wp_steps.
  - apply HQ; [|done]. by intros a [= <-].
  - apply HQ; [|done]. intros a Ha. apply fmap_Some in Ha as (e&He&->).
    eapply (Forall_lookup_1 _ _ _ _ (no_arp _ _ _ _ _ (proj1 Hs)) He).
  - apply aside_eth_send with lk fl s0; try done.
    + destruct (net_ok_lens _ _ _ _ _ (proj1 Hs)). rewrite length_arp_packet by done. lia.
    + intros [] s' _ Hs'. apply wp_ret. by apply HQ.
Qed.

Lemma aside_others : aside (modify others) (λ _, True).
Proof.
  intros lk fl s0 s Q Hs HQ. apply wp_modify, HQ; [done|].
  eapply after_trans; [done|]. apply Hothers, Hs.
Qed.

Lemma aside_arp_wait n dest : length dest = 4%nat →
  aside (arp_wait others n dest) (λ m, ∀ a, m = Some a → length a = 6%nat).
Proof.
  intros Hd. induction n as [|n IH]; intros lk fl s0 s Q Hs HQ; cbn [arp_wait]; apply wp_bind;
    apply (aside_arp_resolve dest Hd) with lk fl s0; try done; intros m s' Hm Hs'; destruct m as [m|].
  1-3: by apply wp_ret, HQ.
  apply wp_bind, aside_others with lk fl s0; [done|]. intros [] s'' _ Hs''. by eapply IH.
Qed.

Lemma length_ipv4_header len id proto csum src dest :
  length src = 4%nat → length dest = 4%nat → length (ipv4_header len id proto csum src dest) = 20%nat.
Proof. intros H1 H2. unfold ipv4_header. rewrite !length_app. cbn. lia. Qed.

Lemma wp_fill_buffer size bytes (Q : list Z → net → Prop) s :
  Z.of_nat (length bytes) ≤ size → Q bytes s → wp (fill_buffer size bytes) Q s.
Proof. intros Hl HQ. unfold fill_buffer. by rewrite (proj2 (Z.leb_le _ _) Hl). Qed.

(** Sending to another host. *)
Lemma aside_ipv4_send fuel dest proto payload len :
  nonlocal ip dest → 0 ≤ len ≤ 65515 → (Z.to_nat len ≤ length payload)%nat →
  aside (net_ipv4_send others fuel dest proto payload len) (λ _, True).
Proof.
  intros [Hd Hloop Hown] Hlen Hpay lk fl s0 s Q Hs HQ. destruct fuel; cbn [net_ipv4_send];
    apply wp_bind; apply aside_kmalloc with lk fl s0; try done; clear s Hs; intros [] s _ Hs;
    try by apply wp_ret, HQ.
  all: pose proof (proj1 Hs) as []; cbn [negb]; apply wp_bind, wp_get.
  all: apply wp_bind, wp_modify, wp_bind, wp_rd_bytes; [lia|].
  all: assert (Hsrc : length (local_ip dest s) = 4%nat) by (unfold local_ip; case_bool_decide; [done|congruence]).
  all: apply wp_bind, wp_fill_buffer;
    [rewrite length_app, length_ipv4_header, length_take_drop, u16_small by (done || lia); lia|].
  all: rewrite (bool_decide_false _ Hloop), bool_decide_false by congruence; cbn [orb].
  all: apply wp_bind, (aside_arp_wait 5 dest Hd) with lk fl s0; [aside|]; intros [m|] s' Hm Hs';
    [|by apply wp_ret, HQ].
  all: apply aside_eth_send with lk fl s0; [by apply Hm| |done|intros [] s'' _ Hs''; by apply HQ].
  all: rewrite length_app, length_ipv4_header, length_take_drop, u16_small by (done || lia); lia.
Qed.
End stack.
