(* ===== verification/NetRecv.v ===== *)
(** * Receiving: what a segment or a datagram may do to the sockets

    [rx_step] is the specification: the ways one received packet may change one
    socket.  The receiving routines finish without an invalid access, keep the
    invariant, and change every open socket by such steps only. *)

From stdpp Require Import relations.
From S2P Require Import Prelude Bits NetState Net SocketOps NetRing NetSpec.

(** What the receiver uses of a packet. *)
Record segment := Segment {
  sg_proto : Z;
  sg_ip : list Z;
  sg_sport : Z;
  sg_dport : Z;
  sg_seq : Z;
  sg_payload : list Z;
}.

(** Identity and ring of a socket. *)
Definition shut (k : socket) := (s_shutdown_read k, s_shutdown_write k).
Definition rx_id (k : socket) :=
  (s_valid k, s_type k, s_domain k, (s_local_port k, s_remote_port k, s_remote_ip k), shut k).
Definition rx_view (k : socket) :=
  (rx_id k, (s_rx_buf k, s_rx_buf_size k, s_rx_read_ptr k, s_rx_write_ptr k)).

Lemma ring_ok_view k k' : rx_view k' = rx_view k → ring_ok k → ring_ok k'.
Proof. intros [= ???????????] []. split; congruence. Qed.

Lemma ring_count_view k k' : rx_view k' = rx_view k → ring_count k' = ring_count k.
Proof. intros [= ???????? ?? E1 E2]. unfold ring_count. by rewrite E1, E2. Qed.

Lemma ring_bytes_view k k' : rx_view k' = rx_view k → ring_bytes k' = ring_bytes k.
Proof.
  intros Hv. unfold ring_bytes. rewrite (ring_count_view _ _ Hv).
  injection Hv as ???????? E1 _ E2 _. by rewrite E1, E2.
Qed.

(** The indices a socket holds. *)
Definition links (k : socket) :=
  (s_accept_queue k, s_accept_count k, s_parent_listener k, s_peer k).

Lemma sock_ok_view ip k k' : rx_view k' = rx_view k → links k' = links k → sock_ok ip k → sock_ok ip k'.
Proof.
  intros Hv [= Hq Hc Hp Hpeer] [Hr Hn Ha Hl Hb Hfill Hpar Hpr]. pose proof (ring_ok_view _ _ Hv) as Hring.
  injection Hv as E1 E2 _ _ _ E3 _ _ _ _ _ _.
  split; rewrite ?E1, ?E2, ?E3, ?Hq, ?Hc, ?Hp, ?Hpeer; try done.
  intros Hv. by apply Hring, Hr.
Qed.

(** The segment is addressed to the connection of the socket. *)
Definition addressed (σ : segment) (k : socket) : Prop :=
  s_local_port k = sg_dport σ ∧ s_remote_port k = sg_sport σ ∧ s_remote_ip k = sg_ip σ.

(** Changes of state that do not concern the data. *)
Definition calm (a b : Z) : Prop :=
  b = a ∨ (a = TCP_STATE_SYN_RECEIVED ∧ b = TCP_STATE_ESTABLISHED)
  ∨ b = TCP_STATE_CLOSED ∨ b = TCP_STATE_FIN_WAIT_2.

(** A datagram as it is kept in the ring. *)
Definition datagram (ip : list Z) (port : Z) (payload : list Z) : list Z :=
  take 4 ip ++ [port &! 0xFF; (port >>! 8) &! 0xFF;
    Z.of_nat (length payload) &! 0xFF; (Z.of_nat (length payload) >>! 8) &! 0xFF] ++ payload.

Inductive rx_step (σ : segment) (k k' : socket) : Prop :=
| rx_control : rx_view k' = rx_view k → s_rcv_nxt k' = s_rcv_nxt k →
    calm (s_tcp_state k) (s_tcp_state k') → rx_step σ k k'
| rx_open : rx_view k' = rx_view k → s_tcp_state k = TCP_STATE_SYN_SENT →
    s_rcv_nxt k' = u32 (sg_seq σ + 1) → s_tcp_state k' = TCP_STATE_ESTABLISHED → rx_step σ k k'
| rx_deliver : sg_proto σ = IP_PROTO_TCP → s_type k = SOCKET_TYPE_TCP → addressed σ k → s_tcp_state k = TCP_STATE_ESTABLISHED →
    s_rcv_nxt k = sg_seq σ → ring_count k + Z.of_nat (length (sg_payload σ)) < 8191 →
    k' = set_s_rcv_nxt (u32 (s_rcv_nxt k + Z.of_nat (length (sg_payload σ)))) (put_all k (sg_payload σ)) →
    rx_step σ k k'
| rx_fin : rx_view k' = rx_view k → s_rcv_nxt k' = u32 (s_rcv_nxt k + 1) →
    s_tcp_state k' = TCP_STATE_CLOSE_WAIT ∨ s_tcp_state k' = TCP_STATE_TIME_WAIT → rx_step σ k k'
| rx_datagram : s_type k = SOCKET_TYPE_UDP → s_local_port k = sg_dport σ →
    ring_count k + Z.of_nat (length (datagram (sg_ip σ) (sg_sport σ) (sg_payload σ))) < 8191 →
    k' = put_all k (datagram (sg_ip σ) (sg_sport σ) (sg_payload σ)) → rx_step σ k k'.

(** Every open socket of [t] is in [t'], changed by steps; in a free slot too
    the shutdown flags stay as they were. *)
Definition moves (σ : segment) (t t' : list socket) : Prop :=
  ∀ j k, t !! j = Some k →
    ∃ k', t' !! j = Some k' ∧ shut k' = shut k ∧ (s_valid k = true → rtc (rx_step σ) k k').

(** Putting bytes into the ring changes the buffer and the write pointer. *)
Lemma put_all_eq l k : ∃ w b, put_all k l = set_s_rx_write_ptr w (set_s_rx_buf b k).
Proof.
  revert k. induction l as [|x l IH]; intros k; cbn.
  - exists (s_rx_write_ptr k), (s_rx_buf k). by destruct k.
  - destruct (IH (put k x)) as (w&b&Heq). exists w, b.
    unfold put_all in Heq. rewrite Heq. by destruct k.
Qed.

Lemma put_all_id k l : rx_id (put_all k l) = rx_id k.
Proof. by destruct (put_all_eq l k) as (w&b&->). Qed.

Lemma rx_steps_id σ k k' : rtc (rx_step σ) k k' → rx_id k' = rx_id k.
Proof.
  induction 1 as [|k k1 k2 Hst _ IH]; [done|]. rewrite IH.
  destruct Hst as [Hv|Hv|?????? ->|Hv|??? ->]; try exact (f_equal fst Hv).
  - apply (put_all_id k).
  - apply put_all_id.
Qed.

Lemma rx_steps_valid σ k k' : rtc (rx_step σ) k k' → s_valid k' = s_valid k.
Proof. intros Hs. by injection (rx_steps_id _ _ _ Hs). Qed.
Lemma rx_steps_type σ k k' : rtc (rx_step σ) k k' → s_type k' = s_type k.
Proof. intros Hs. by injection (rx_steps_id _ _ _ Hs). Qed.

Lemma rx_steps_shut σ k k' : rtc (rx_step σ) k k' → shut k' = shut k.
Proof. intros Hs. unfold shut. by injection (rx_steps_id _ _ _ Hs) as _ _ _ _ _ _ -> ->. Qed.

Lemma moves_refl σ t : moves σ t t.
Proof. intros j k Hk. by exists k. Qed.

Lemma moves_trans σ t1 t2 t3 : moves σ t1 t2 → moves σ t2 t3 → moves σ t1 t3.
Proof.
  intros H1 H2 j k Hk. destruct (H1 j k Hk) as (k2&Hk2&He2&Hs2).
  destruct (H2 j k2 Hk2) as (k3&Hk3&He3&Hs3). exists k3. split; [done|]. split; [congruence|].
  intros Hv. etransitivity; [by apply Hs2|]. apply Hs3. by rewrite (rx_steps_valid _ _ _ (Hs2 Hv)).
Qed.

Lemma moves_insert σ t i k k' :
  t !! i = Some k → shut k' = shut k → (s_valid k = true → rtc (rx_step σ) k k') →
  moves σ t (<[i := k']> t).
Proof.
  intros Hk He Hs j x Hx. destruct (decide (j = i)) as [->|Hne].
  - rewrite Hk in Hx. injection Hx as <-. exists k'. split; [|done].
    apply list_lookup_insert_eq. by eapply lookup_lt_Some.
  - exists x. by rewrite list_lookup_insert_ne.
Qed.

(** Nobody else changes the table: the lock is held, or other tasks do not. *)
Class Settled (R : list socket → list socket → Prop) (lk : bool) : Prop :=
  settled : lk = true ∨ ∀ t t', R t t' → t' = t.
#[export] Instance settled_locked R : Settled R true.
Proof. by left. Qed.
#[export] Instance settled_eq lk : Settled eq lk.
Proof. by right. Qed.

Section recv.
Context (ip mac : list Z) (others : net → net).
Context (R : list socket → list socket → Prop) `{!PreOrder R}.
Context (Hothers : ∀ lk fl s, net_ok ip mac lk fl s → after ip mac R lk fl s (others s)).
Context (σ : segment) (t0 : list socket) (lk fl : bool) `{!Settled R lk}.
Abbreviation ok := (net_ok ip mac).
Abbreviation aside := (aside ip mac R).

(** The table has moved from [t0], with socket [i] at [k];
    since then it has become [k1]. *)
Definition pend (i : nat) (k k1 : socket) (s : net) : Prop :=
  ok lk fl s ∧ ∃ t, socket_table s = <[i := k1]> t ∧ t !! i = Some k ∧ moves σ t0 t.

Lemma pend_start i k s : ok lk fl s → moves σ t0 (socket_table s) → socket_table s !! i = Some k →
  pend i k k s.
Proof. intros Hs Hm Hk. split; [done|]. exists (socket_table s). by rewrite list_insert_id. Qed.

Lemma pend_done i k k1 s : pend i k k1 s → shut k1 = shut k → (s_valid k = true → rtc (rx_step σ) k k1) →
  ok lk fl s ∧ moves σ t0 (socket_table s).
Proof.
  intros (Hs&t&Ht&Hk&Hm) He Hr. split; [done|]. rewrite Ht. eapply moves_trans; [done|].
  by eapply moves_insert.
Qed.

Lemma pend_done_steps i k k1 s : pend i k k1 s → rtc (rx_step σ) k k1 →
  ok lk fl s ∧ moves σ t0 (socket_table s).
Proof. intros Hp Hr. eapply pend_done; [done|by eapply rx_steps_shut|done]. Qed.

Lemma pend_sock i k k1 s : pend i k k1 s → socket_table s !! i = Some k1 ∧ sock_ok ip k1.
Proof.
  intros (Hs&t&Ht&Hk&Hm). assert (Hi : socket_table s !! i = Some k1).
  { rewrite Ht. apply list_lookup_insert_eq. by eapply lookup_lt_Some. }
  split; [done|]. by eapply net_ok_sock.
Qed.

Lemma wp_pend_get i k k1 (Q : socket → net → Prop) s :
  pend i k k1 s → (sock_ok ip k1 → Q k1 s) → wp (get_sock i) Q s.
Proof. intros Hp HQ. destruct (pend_sock _ _ _ _ Hp). eapply wp_get_sock; [done|]. by apply HQ. Qed.

Lemma wp_pend_upd i k k1 f (Q : unit → net → Prop) s :
  pend i k k1 s → (sock_ok ip k1 → sock_ok ip (f k1)) →
  (∀ s', pend i k (f k1) s' → Q () s') → wp (upd_sock i f) Q s.
Proof.
  intros Hp Hf HQ. destruct (pend_sock _ _ _ _ Hp) as [Hi Hk1]. eapply wp_upd_sock; [done|].
  apply HQ. destruct Hp as (Hs&t&Ht&Hk&Hm). split; [by apply net_ok_insert, Hf|].
  exists t. cbn. by rewrite Ht, list_insert_insert_eq.
Qed.

Lemma wp_pend_aside {A} i k k1 (m : NM A) P (Q : A → net → Prop) s :
  aside m P → pend i k k1 s → (∀ a s', P a → pend i k k1 s' → Q a s') → wp m Q s.
Proof.
  intros Hm [Hs Ht] HQ. apply Hm with lk fl s; [by apply after_refl|].
  intros a s' Ha [Hs' Ht']. apply HQ; [done|]. split; [done|].
  assert (Het : socket_table s' = socket_table s); [|by rewrite Het].
  destruct lk; [done|]. destruct (settled (R := R)) as [?|Heq]; [done|by apply Heq].
Qed.

(** ** Sending a segment *)

Context (fuel : nat).
Abbreviation send := (net_ipv4_send others fuel).

(** What sending changes of a socket. *)
Definition sent (k k' : socket) : Prop :=
  ∃ n r c, k' = set_s_rtx_count c (set_s_rtx_time r (set_s_snd_nxt n k)).

Lemma sent_refl k : sent k k.
Proof. exists (s_snd_nxt k), (s_rtx_time k), (s_rtx_count k). by destruct k. Qed.

Lemma sent_nxt n k k' : sent k k' → sent k (set_s_snd_nxt n k').
Proof. intros (?&r&c&->). exists n, r, c. by destruct k. Qed.

Lemma sent_rtx r c k k' : sent k k' → sent k (set_s_rtx_time r (set_s_rtx_count c k')).
Proof. intros (n&?&?&->). exists n, r, c. by destruct k. Qed.

Lemma sent_ok k k' : sent k k' → sock_ok ip k → sock_ok ip k'.
Proof. intros (?&?&?&->). by apply sock_ok_view. Qed.

Lemma sent_step k k' : sent k k' → rx_step σ k k'.
Proof. intros (?&?&?&->). apply rx_control; cbn; try done. by left. Qed.

Lemma length_tcp_header k flags csum : length (tcp_header k flags csum) = 20%nat.
Proof. done. Qed.

Lemma wp_pend_send i k k1 flags payload len (Q : unit → net → Prop) s :
  pend i k k1 s → s_type k1 = SOCKET_TYPE_TCP → 0 ≤ len ≤ 65495 → (Z.to_nat len ≤ length payload)%nat →
  (∀ s' k2, sent k1 k2 → pend i k k2 s' → Q () s') →
  wp (net_tcp_send_segment send i flags payload len) Q s.
Proof.
  intros Hp Hty Hlen Hpay HQ. unfold net_tcp_send_segment.
  apply wp_bind. eapply wp_pend_aside; [apply aside_kmalloc|exact Hp|]. clear s Hp. intros ok1 s _ Hp.
  destruct ok1; cbn [negb]; [|apply wp_ret; eapply HQ; [apply sent_refl|done]].
  apply wp_bind. eapply wp_pend_get; [done|]. intros Hk1.
  apply wp_bind, wp_rd_bytes; [lia|].
  apply wp_bind, wp_fill_buffer;
    [rewrite length_app, length_tcp_header, length_take_drop, u16_small by lia; lia|].
  apply wp_bind. eapply wp_pend_aside; [apply aside_kmalloc_answer|exact Hp|]. clear s Hp. intros ok2 s _ Hp.
  apply wp_bind, wp_get. apply wp_bind. eapply wp_pend_aside; [|exact Hp|].
  { apply aside_ipv4_send; [done..|by apply (sk_remote _ _ Hk1)|rewrite u16_small; lia|].
    rewrite length_app, length_tcp_header, length_take_drop, u16_small by lia. lia. }
  clear s Hp ok2. intros [] s _ Hp. pose proof (sent_refl k1) as Hs. 
  assert (Hmid : ∀ n, (∀ s k2, sent k1 k2 → pend i k k2 s → wp n Q s) → wp (when
    (has_flag flags (TCP_FLAG_SYN |! TCP_FLAG_FIN))
    (upd_sock i (λ k, set_s_snd_nxt (u32 (s_snd_nxt k + 1)) k));; n) Q s).
  { intros n Hn. apply wp_bind, wp_when; intros _; [|by eapply Hn].
    eapply wp_pend_upd; [done|by apply sock_ok_view|]. intros s' Hp'.
    eapply Hn; [|done]. by apply sent_nxt. }
  apply Hmid. clear s Hp Hs Hmid. intros s k2 Hs Hp.
  apply wp_bind. eapply wp_pend_upd; [done|by apply sock_ok_view|]. clear s Hp. intros s Hp.
  apply wp_when; intros _; [|eapply HQ; [|done]; by apply sent_nxt].
  apply wp_bind, wp_get. eapply wp_pend_upd; [done| |].
  { case_match; [by apply sock_ok_view|done]. }
  intros s' Hp'. eapply HQ; [|done]. case_match; [by apply sent_rtx, sent_nxt | by apply sent_nxt].
Qed.

(** ** Handlers of one socket *)

(** With socket [i] at [k1], [m] finishes with a socket that satisfies [P]. *)
Definition rx_to (i : nat) (k1 : socket) (m : NM unit) (P : socket → Prop) : Prop :=
  ∀ k s (Q : unit → net → Prop), pend i k k1 s →
    (∀ s' k2, P k2 → pend i k k2 s' → Q () s') → wp m Q s.

(** [m] takes the socket some steps on. *)
Definition rx_at (i : nat) (k1 : socket) (m : NM unit) : Prop := rx_to i k1 m (rtc (rx_step σ) k1).

Lemma rx_to_mono i k1 m (P P' : socket → Prop) : rx_to i k1 m P → (∀ k2, P k2 → P' k2) → rx_to i k1 m P'.
Proof. intros Hm HP k s Q Hp HQ. eapply Hm; [done|]. intros s' k2 H2. by apply HQ, HP. Qed.

Lemma rx_to_bind i k1 m1 m2 P P' :
  rx_to i k1 m1 P → (∀ k2, P k2 → rx_to i k2 m2 P') → rx_to i k1 (m1;; m2) P'.
Proof.
  intros H1 H2 k s Q Hp HQ. apply wp_bind. eapply H1; [done|]. intros s' k2 Hr Hp'. by eapply H2.
Qed.

(** Neither identity, ring, [rcv_nxt] nor state change. *)
Record quiet (k k' : socket) : Prop := {
  quiet_view : rx_view k' = rx_view k;
  quiet_nxt : s_rcv_nxt k' = s_rcv_nxt k;
  quiet_state : s_tcp_state k' = s_tcp_state k;
}.

Lemma quiet_trans k1 k2 k3 : quiet k1 k2 → quiet k2 k3 → quiet k1 k3.
Proof. intros [] []. split; congruence. Qed.

Lemma quiet_step k k' : quiet k k' → rx_step σ k k'.
Proof. intros []. apply rx_control; [done..|]. by left. Qed.

Lemma sent_quiet k k' : sent k k' → quiet k k'.
Proof. by intros (?&?&?&->). Qed.

(** The socket is the one the segment is for. *)
Record target (k : socket) : Prop := {
  tg_proto : sg_proto σ = IP_PROTO_TCP;
  tg_valid : s_valid k = true;
  tg_type : s_type k = SOCKET_TYPE_TCP;
  tg_addressed : addressed σ k;
}.

Lemma target_id k k' : rx_id k' = rx_id k → target k → target k'.
Proof.
  intros [= E1 E2 _ E3 E4 E5 _ _] [Hpr Hv Ht (A1&A2&A3)]. split; [congruence..|].
  split; [congruence|]. split; congruence.
Qed.

Lemma target_steps k k' : rtc (rx_step σ) k k' → target k → target k'.
Proof. intros Hs. by apply target_id, (rx_steps_id σ). Qed.

Lemma rx_ret i k1 : rx_at i k1 (mret ()).
Proof. intros k s Q Hp HQ. apply wp_ret. by eapply HQ. Qed.

Lemma rx_bind i k1 m1 m2 : rx_at i k1 m1 → (∀ k2, rtc (rx_step σ) k1 k2 → rx_at i k2 m2) →
  rx_at i k1 (m1;; m2).
Proof.
  intros H1 H2 k s Q Hp HQ. apply wp_bind. eapply H1; [done|]. intros s' k2 Hr Hp'.
  eapply H2; [done..|]. intros s'' k3 Hr3. apply HQ. by etransitivity.
Qed.

Lemma rx_when i k1 b m : (b = true → rx_at i k1 m) → rx_at i k1 (when b m).
Proof. destruct b; intros H; [by apply H|]. apply rx_ret. Qed.

Lemma rx_get i k1 f : (sock_ok ip k1 → rx_at i k1 (f k1)) → rx_at i k1 (k ← get_sock i; f k).
Proof.
  intros H k s Q Hp HQ. apply wp_bind. eapply wp_pend_get; [done|]. intros Hk. by apply (H Hk k).
Qed.

Lemma rx_state i k1 f : (∀ s, rx_at i k1 (f s)) → rx_at i k1 (s ← get; f s).
Proof. intros H k s Q Hp HQ. apply wp_bind, wp_get. by apply (H s k). Qed.

Lemma rx_upd i k1 f : (sock_ok ip k1 → sock_ok ip (f k1)) → rtc (rx_step σ) k1 (f k1) →
  rx_at i k1 (upd_sock i f).
Proof.
  intros Hf Hr k s Q Hp HQ. eapply wp_pend_upd; [done..|]. intros s' Hp'. by eapply HQ.
Qed.

(** An update that keeps identity, ring and [rcv_nxt]. *)
Lemma rx_upd_control i k1 f : rx_view (f k1) = rx_view k1 → s_rcv_nxt (f k1) = s_rcv_nxt k1 →
  links (f k1) = links k1 → calm (s_tcp_state k1) (s_tcp_state (f k1)) →
  rx_at i k1 (upd_sock i f).
Proof. intros. apply rx_upd; [by apply sock_ok_view|]. by apply rtc_once, rx_control. Qed.

Lemma rx_aside i k1 m : aside m (λ _, True) → rx_at i k1 m.
Proof. intros Hm k s Q Hp HQ. eapply wp_pend_aside; [done..|]. intros [] s' _ Hp'. by eapply HQ. Qed.

Lemma rx_send i k1 flags : s_type k1 = SOCKET_TYPE_TCP →
  rx_at i k1 (net_tcp_send_segment send i flags [] 0).
Proof.
  intros Ht k s Q Hp HQ. eapply wp_pend_send; [done..| |]; [cbn; lia|]. intros s' k2 Hs Hp'.
  eapply HQ; [|done]. by apply rtc_once, sent_step.
Qed.

Lemma rx_notify i j k1 : rx_at i k1 (notify_socket j).
Proof. apply rx_bind; [apply rx_aside, aside_wake|]. intros k2 _. apply rx_aside, aside_notify. Qed.

Lemma calm_refl a : calm a a.
Proof. by left. Qed.

Lemma rx_note_ack i k1 ack : rx_at i k1 (tcp_note_ack i ack).
Proof.
  apply rx_state. intros s. apply rx_upd_control; cbn; try (by case_match).
  case_match; apply calm_refl.
Qed.

Lemma queue_ok i k : sock_ok ip k → s_accept_count k < 8 → (i < MAX_SOCKETS)%nat →
  sock_ok ip (set_s_accept_count (s_accept_count k + 1)
    (set_s_accept_queue (<[Z.to_nat (s_accept_count k) := Some i]> (s_accept_queue k)) k)).
Proof.
  intros [Hr Hn Ha Hl Hb Hfill Hpar Hpr] Hc Hi.
  split; cbn [set_s_accept_count set_s_accept_queue s_valid s_type s_remote_ip s_accept_queue s_accept_count
    s_parent_listener s_peer]; try done; [|by rewrite length_insert|lia|].
  - intros Hv. eapply ring_ok_view; [|by apply Hr]. done.
  - intros j Hj. destruct (decide (j = Z.to_nat (s_accept_count k))) as [->|Hne].
    + exists i. rewrite list_lookup_insert_eq by lia. done.
    + rewrite list_lookup_insert_ne by done. apply Hfill. lia.
Qed.

(** A connection enters the queue of its listener. *)
Lemma rx_queue i k1 p : (p < MAX_SOCKETS)%nat →
  rx_at i k1 (pk ← get_sock p;
    when (s_accept_count pk <? 8)
      (deref (s_accept_queue pk !! Z.to_nat (s_accept_count pk));;
       upd_sock p (λ p, set_s_accept_count (s_accept_count p + 1)
         (set_s_accept_queue (<[Z.to_nat (s_accept_count p) := Some i]> (s_accept_queue p)) p));;
       notify_socket p)).
Proof.
  intros Hpl k s Q Hp HQ. pose proof Hp as (Hs&t&Ht&Hk&Hm).
  destruct (net_ok_lookup _ _ _ _ _ p Hs Hpl) as [pk Hpk].
  destruct (net_ok_sock _ _ _ _ _ _ _ Hs Hpk) as [Hok _].
  apply wp_bind. eapply wp_get_sock; [done|]. apply wp_when; [|intros _; by eapply HQ].
  intros Hc%Z.ltb_lt. destruct (sk_count _ _ Hok) as [Hc0 _].
  destruct (lookup_lt_is_Some_2 (s_accept_queue pk) (Z.to_nat (s_accept_count pk))) as [q Hq].
  { rewrite (sk_queue _ _ Hok). lia. }
  apply wp_bind. eapply wp_deref; [done|]. apply wp_bind. eapply wp_upd_sock; [done|].
  set (pk' := set_s_accept_count _ _).
  assert (Hst : rx_step σ pk pk') by (apply rx_control; cbn; try done; apply calm_refl).
  assert (Hok' : sock_ok ip pk').
  { apply queue_ok; [done..|]. by destruct (net_ok_sock _ _ _ _ _ _ _ Hs (proj1 (pend_sock _ _ _ _ Hp))). }
  destruct (decide (p = i)) as [->|Hne].
  - destruct (pend_sock _ _ _ _ Hp) as [Hi _]. rewrite Hpk in Hi. injection Hi as ->.
    eapply (rx_notify i i pk' k); [|intros s' k2 Hr; apply HQ; by eapply rtc_l].
    split; [by apply net_ok_insert|]. exists t. cbn. by rewrite Ht, list_insert_insert_eq.
  - eapply (rx_notify i p k1 k); [|done].
    split; [by apply net_ok_insert|]. exists (<[p := pk']> t). cbn. rewrite Ht.
    rewrite Ht, list_lookup_insert_ne in Hpk by done.
    split; [by apply list_insert_insert_ne|]. rewrite list_lookup_insert_ne by done.
    split; [done|]. eapply moves_trans; [done|]. eapply moves_insert; [done..|]. intros _. by apply rtc_once.
Qed.

Lemma rx_handshake i k1 flags ack : target k1 → rx_at i k1 (tcp_handshake send i flags (sg_seq σ) ack).
Proof.
  intros Hk. unfold tcp_handshake. apply rx_get. intros Hok.
  destruct (s_tcp_state k1 =? TCP_STATE_SYN_SENT) eqn:Hst; [apply Z.eqb_eq in Hst|clear Hst;
    destruct (s_tcp_state k1 =? TCP_STATE_SYN_RECEIVED) eqn:Hst; [apply Z.eqb_eq in Hst|apply rx_ret]].
  - apply rx_when. intros _. apply rx_bind.
    + apply rx_upd; [by apply sock_ok_view|]. by apply rtc_once, rx_open.
    + intros k2 Hr. apply rx_bind; [apply rx_send, (target_steps _ _ Hr Hk)|].
      intros k3 _. apply rx_notify.
  - apply rx_when. intros _. apply rx_bind.
    + apply rx_upd_control; try done. right. left. by rewrite Hst.
    + intros k2 _. destruct (s_parent_listener k1) as [p|] eqn:Hpar; [|apply rx_ret].
      apply rx_queue. by apply (sk_parent _ _ Hok).
Qed.

(** ** Data *)

Lemma put_sock_ok k b : s_valid k = true → sock_ok ip k → sock_ok ip (put k b).
Proof. intros Hv [Hr]. split; try done. intros _. by apply put_ok, Hr. Qed.

Lemma wp_pend_put_all i k l k1 (Q : unit → net → Prop) s :
  pend i k k1 s → s_valid k1 = true → (∀ s', pend i k (put_all k1 l) s' → Q () s') →
  wp (ring_put_all i l) Q s.
Proof.
  revert k1 s. induction l as [|b l IH]; intros k1 s Hp Hv HQ; cbn; [by apply wp_ret, HQ|].
  apply wp_bind. unfold ring_put. apply wp_bind. eapply wp_pend_get; [done|]. intros Hk.
  destruct (sk_ring _ _ Hk Hv) as [_ Hl _ Hw].
  destruct (lookup_lt_is_Some_2 (s_rx_buf k1) (Z.to_nat (s_rx_write_ptr k1))) as [x Hx]; [lia|].
  apply wp_bind. eapply wp_deref; [done|].
  eapply wp_pend_upd; [done|by apply (put_sock_ok k1 b)|]. intros s' Hp'. by eapply IH.
Qed.

(** The socket with the segment's data. *)
Definition delivered (k : socket) : socket :=
  set_s_rcv_nxt (u32 (s_rcv_nxt k + Z.of_nat (length (sg_payload σ)))) (put_all k (sg_payload σ)).

Lemma rx_answer i k1 : s_type k1 = SOCKET_TYPE_TCP →
  rx_to i k1 (send_ack send i;; notify_socket i) (quiet k1).
Proof.
  intros Hty k s Q Hp HQ. apply wp_bind. eapply wp_pend_send; [done..| |]; [cbn; lia|].
  intros s1 k2 Hs2 Hp2. apply wp_bind. eapply wp_pend_aside; [apply aside_wake|exact Hp2|].
  intros [] s3 _ Hp3. eapply wp_pend_aside; [apply aside_notify|exact Hp3|].
  intros [] s4 _ Hp4. eapply HQ; [|done]. by apply sent_quiet.
Qed.

(** In-order data that fits is delivered and acknowledged. *)
Lemma rx_data_in_order i k1 data off len : target k1 → 0 < len → (off + Z.to_nat len ≤ length data)%nat →
  sg_payload σ = take (Z.to_nat len) (drop off data) → s_rcv_nxt k1 = sg_seq σ →
  ring_count k1 + len < 8191 →
  rx_to i k1 (tcp_data send i (sg_seq σ) data off len) (quiet (delivered k1)).
Proof.
  intros Hk Hlen Hoff Hpay Hseq Hroom k s Q Hp HQ. unfold tcp_data.
  assert (Hll : Z.of_nat (length (sg_payload σ)) = len) by (rewrite Hpay, length_take_drop by done; lia).
  apply wp_bind. eapply wp_pend_get; [done|]. intros Hok. rewrite Hseq, Z.eqb_refl.
  rewrite (free_space_eq k1) by apply (sk_ring _ _ Hok), Hk.
  rewrite (proj2 (Z.ltb_lt _ _)) by lia. cbn [when].
  apply wp_bind, wp_rd_bytes; [done|]. rewrite <-Hpay.
  apply wp_bind. eapply wp_pend_put_all; [done|apply Hk|]. clear s Hp. intros s Hp.
  apply wp_bind. eapply wp_pend_upd; [done|by apply sock_ok_view|]. clear s Hp. intros s Hp.
  eapply rx_answer; [|exact Hp|].
  - destruct (put_all_eq (sg_payload σ) k1) as (w&b&->). apply Hk.
  - intros s' k2 Hq. apply HQ. eapply quiet_trans; [|done]. unfold delivered. rewrite Hll.
    by destruct (put_all_eq (sg_payload σ) k1) as (w&b&->).
Qed.

Lemma rx_data i k1 data off len : target k1 → 0 < len → (off + Z.to_nat len ≤ length data)%nat →
  s_tcp_state k1 = TCP_STATE_ESTABLISHED → sg_payload σ = take (Z.to_nat len) (drop off data) →
  rx_at i k1 (tcp_data send i (sg_seq σ) data off len).
Proof.
  intros Hk Hlen Hoff Hst Hpay.
  assert (Hll : Z.of_nat (length (sg_payload σ)) = len) by (rewrite Hpay, length_take_drop by done; lia).
  destruct (decide (s_rcv_nxt k1 = sg_seq σ ∧ ring_count k1 + len < 8191)) as [[Hseq Hroom]|Hn].
  - eapply rx_to_mono; [by apply rx_data_in_order|]. intros k2 Hq.
    eapply rtc_l; [|by apply rtc_once, quiet_step]. apply rx_deliver; try done; [apply Hk..|]. by rewrite Hll.
  - unfold tcp_data. apply rx_get. intros Hok. destruct (Z.eqb_spec (sg_seq σ) (s_rcv_nxt k1)) as [Heq|].
    + rewrite free_space_eq by apply (sk_ring _ _ Hok), Hk. apply rx_when.
      intros Hroom%Z.ltb_lt. destruct Hn. split; [done|lia].
    + apply rx_when. intros _. apply rx_send, Hk.
Qed.

Lemma rx_fin_step i k1 f : target k1 →
  (∀ k, rx_view (f k) = rx_view k) → (∀ k, s_rcv_nxt (f k) = s_rcv_nxt k) →
  (∀ k, links (f k) = links k) →
  (∀ k, s_tcp_state (f k) = TCP_STATE_CLOSE_WAIT ∨ s_tcp_state (f k) = TCP_STATE_TIME_WAIT) →
  rx_at i k1 (tcp_fin send i f).
Proof.
  intros Hk Hv Hn Hl Hst k s Q Hp HQ. unfold tcp_fin.
  apply wp_bind. eapply wp_pend_upd; [done|by apply sock_ok_view|]. clear s Hp. intros s Hp.
  apply wp_bind. eapply wp_pend_send; [done|apply Hk|lia|cbn; lia|].
  clear s Hp. intros s k2 (n&r&c&->) Hp.
  apply wp_bind. eapply wp_pend_upd; [done|by apply sock_ok_view|]. clear s Hp. intros s Hp.
  eapply rx_notify; [exact Hp|]. intros s' k2 Hr. apply HQ. eapply rtc_l; [|done].
  apply rx_fin; [by rewrite Hv|by rewrite Hn|apply Hst].
Qed.

(** A conditional update whose outcome the rest depends on. *)
Lemma rx_when_upd i k1 (b : bool) f m : let k2 := if b then f k1 else k1 in
  (b = true → rx_view (f k1) = rx_view k1) → s_rcv_nxt (f k1) = s_rcv_nxt k1 →
  links (f k1) = links k1 → calm (s_tcp_state k1) (s_tcp_state (f k1)) →
  rx_at i k2 m → rx_at i k1 (when b (upd_sock i f);; m).
Proof.
  intros k2 Hv Hn Hl Hst Hm k s Q Hpend HQ. subst k2. destruct b; cbn [when].
  - apply wp_bind. eapply wp_pend_upd; [done|by apply sock_ok_view; auto|]. clear s Hpend. intros s Hpend.
    eapply Hm; [done|]. intros s' k2 Hr. apply HQ. eapply rtc_l; [|done]. apply rx_control; auto.
  - apply wp_bind, wp_ret. by eapply Hm.
Qed.

Lemma rx_transfer i k1 flags ack data off len : target k1 → 0 ≤ len →
  (off + Z.to_nat len ≤ length data)%nat → sg_payload σ = take (Z.to_nat len) (drop off data) →
  rx_at i k1 (tcp_transfer send i flags (sg_seq σ) ack data off len).
Proof.
  intros Hk Hlen Hoff Hpay. unfold tcp_transfer. apply rx_get. intros Hok.
  destruct (s_tcp_state k1 =? TCP_STATE_ESTABLISHED) eqn:Hst.
  { apply Z.eqb_eq in Hst. apply rx_when_upd; try done; [apply calm_refl|].
    set (k2 := if has_flag flags TCP_FLAG_ACK then set_s_snd_una ack k1 else k1).
    assert (Hk2 : target k2) by (unfold k2; case_match; [by destruct Hk|done]).
    assert (Hst2 : s_tcp_state k2 = TCP_STATE_ESTABLISHED) by (unfold k2; by case_match).
    apply rx_bind; [apply rx_when; intros ?%Z.ltb_lt; by apply rx_data|].
    intros k3 Hr. apply rx_when. intros _. apply rx_fin_step; try done; [by eapply target_steps|by left]. }
  destruct (s_tcp_state k1 =? TCP_STATE_FIN_WAIT_1) eqn:Hst1.
  { apply rx_when_upd; try done; [by do 3 right|]. apply rx_when. intros _.
    apply rx_fin_step; try done; [|by right]. case_match; [by destruct Hk|done]. }
  destruct (s_tcp_state k1 =? TCP_STATE_FIN_WAIT_2) eqn:Hst2.
  { apply rx_when. intros _. apply rx_fin_step; try done. by right. }
  destruct (s_tcp_state k1 =? TCP_STATE_LAST_ACK) eqn:Hst3.
  { apply rx_when. intros _. apply rx_bind; [|intros k2 _; apply rx_notify].
    apply rx_upd_control; try done. by do 2 right; left. }
  destruct (s_tcp_state k1 =? TCP_STATE_TIME_WAIT); [|apply rx_ret].
  apply rx_when. intros _. apply rx_send, Hk.
Qed.

Lemma rx_segment i k1 flags ack data off len : target k1 → 0 ≤ len →
  (off + Z.to_nat len ≤ length data)%nat → sg_payload σ = take (Z.to_nat len) (drop off data) →
  rx_at i k1 (tcp_segment send i flags (sg_seq σ) ack data off len).
Proof.
  intros Hk Hlen Hoff Hpay. unfold tcp_segment. destruct (has_flag flags TCP_FLAG_RST).
  - apply rx_bind; [|intros k2 _; apply rx_notify]. apply rx_upd_control; try done. by do 2 right; left.
  - apply rx_bind; [apply rx_when; intros _; apply rx_note_ack|]. intros k2 Hr2.
    pose proof (target_steps _ _ Hr2 Hk) as Hk2.
    apply rx_bind; [by apply rx_handshake|]. intros k3 Hr3.
    apply rx_transfer; try done. by apply (target_steps _ _ Hr3).
Qed.

(** An established connection takes the data of an in-order segment that
    carries neither [RST] nor [FIN]. *)
Lemma rx_segment_in_order i k1 flags ack data off len : target k1 → 0 < len →
  (off + Z.to_nat len ≤ length data)%nat → sg_payload σ = take (Z.to_nat len) (drop off data) →
  s_tcp_state k1 = TCP_STATE_ESTABLISHED → s_rcv_nxt k1 = sg_seq σ → ring_count k1 + len < 8191 →
  has_flag flags TCP_FLAG_RST = false → has_flag flags TCP_FLAG_FIN = false →
  rx_to i k1 (tcp_segment send i flags (sg_seq σ) ack data off len)
    (λ k2, ∃ ka, quiet k1 ka ∧ quiet (delivered ka) k2).
Proof.
  intros Hk Hlen Hoff Hpay Hst Hseq Hroom Hrst Hfin. unfold tcp_segment. rewrite Hrst.
  eapply rx_to_bind with (quiet k1).
  { destruct (has_flag flags TCP_FLAG_ACK); cbn [when]; [|by intros k s Q Hp HQ; apply wp_ret; eapply HQ].
    intros k s Q Hp HQ. apply wp_bind, wp_get. eapply wp_pend_upd; [done| |].
    - intros Hok. case_match; [|done]. by eapply sock_ok_view; [..|exact Hok].
    - intros s' Hp'. eapply HQ; [|done]. by case_match. }
  intros ka Hqa. eapply rx_to_bind with (λ k2, k2 = ka).
  { intros k s Q Hp HQ. unfold tcp_handshake. apply wp_bind. eapply wp_pend_get; [done|]. intros _.
    rewrite (quiet_state _ _ Hqa), Hst. cbn. by eapply HQ. }
  intros _ ->. intros k s Q Hp HQ. unfold tcp_transfer. apply wp_bind. eapply wp_pend_get; [done|]. intros Hok.
  rewrite (quiet_state _ _ Hqa), Hst, Z.eqb_refl, Hfin, (proj2 (Z.ltb_lt _ _) Hlen).
  set (kb := if has_flag flags TCP_FLAG_ACK then set_s_snd_una ack ka else ka).
  assert (Hqb : quiet k1 kb) by (eapply quiet_trans; [done|]; unfold kb; by case_match).
  apply wp_bind. eapply (rx_to_mono i ka _ (λ k2, k2 = kb) (λ k2, k2 = kb)); [|done|exact Hp|].
  { unfold kb. destruct (has_flag flags TCP_FLAG_ACK); cbn [when].
    - intros k' s' Q' Hp' HQ'. eapply wp_pend_upd; [done|by apply sock_ok_view|]. intros s2 Hp2. by eapply HQ'.
    - intros k' s' Q' Hp' HQ'. apply wp_ret. by eapply HQ'. }
  clear s Hp. intros s _ -> Hp. cbn [when]. apply wp_bind.
  eapply (rx_data_in_order i kb); [| | | | | |exact Hp|]; try done.
  - eapply target_id; [|exact Hk]. exact (f_equal fst (quiet_view _ _ Hqb)).
  - by rewrite (quiet_nxt _ _ Hqb).
  - by rewrite (ring_count_view _ _ (quiet_view _ _ Hqb)).
  - intros s' k2 Hq2 Hp2. apply wp_ret. eapply HQ; [|done]. by exists kb.
Qed.
End recv.
