(* ===== verification/NetInput.v ===== *)
(** * The input path: from a frame to the sockets

    An honest frame is one whose IP header gives a length that fits what was
    received, and that comes from another host.  Processing it finishes without
    an invalid access and without taking the table lock twice. *)

From stdpp Require Import relations.
From S2P Require Import Prelude Bits NetState Net SocketOps NetRing NetSpec NetRecv.

(** What the headers say. *)
Definition tcp_header_len (data : list Z) : Z := u8 ((data !!! 12%nat >>! 4) * 4).
Definition tcp_seg (src data : list Z) (len : Z) : segment :=
  Segment IP_PROTO_TCP src (swap16 (word16 data 0)) (swap16 (word16 data 2)) (swap32 (word32 data 4))
    (take (Z.to_nat (len - tcp_header_len data)) (drop (Z.to_nat (tcp_header_len data)) data)).
Definition udp_seg (src data : list Z) : segment :=
  Segment IP_PROTO_UDP src (swap16 (word16 data 0)) (swap16 (word16 data 2)) 0
    (take (Z.to_nat (swap16 (word16 data 4) - 8)) (drop 8 data)).
Definition ip_header_len (data : list Z) : Z := (data !!! 0%nat &! 0x0F) * 4.
Definition ip_total_len (data : list Z) : Z := swap16 (word16 data 2).
Definition ip_src (data : list Z) : list Z := take 4 (drop 12 data).
Definition ip_seg (data : list Z) : segment :=
  let p := drop (Z.to_nat (ip_header_len data)) data in
  if data !!! 9%nat =? IP_PROTO_UDP then udp_seg (ip_src data) p
  else tcp_seg (ip_src data) p (ip_total_len data - ip_header_len data).

Record honest (ip data : list Z) (len : Z) : Prop := {
  honest_len : 0 ≤ ip_header_len data ≤ ip_total_len data;
  honest_total : ip_total_len data ≤ len;
  honest_src : nonlocal ip (ip_src data);
}.

Lemma wp_table_lock ip mac fl s (Q : bool → net → Prop) : net_ok ip mac false fl s →
  (∀ s', net_ok ip mac true false s' → socket_table s' = socket_table s → Q fl s') →
  wp table_lock_irqsave Q s.
Proof.
  intros [] HQ. unfold table_lock_irqsave. apply wp_bind, wp_get, wp_bind, wp_modify.
  rewrite no_lock. apply wp_bind, wp_modify, wp_ret. rewrite no_if. apply HQ; [|done]. by split.
Qed.

Lemma wp_table_unlock ip mac fl fl' s (Q : unit → net → Prop) : net_ok ip mac true fl' s →
  (∀ s', net_ok ip mac false fl s' → socket_table s' = socket_table s → Q () s') →
  wp (table_unlock_irqrestore fl) Q s.
Proof. intros [] HQ. apply wp_modify, HQ; [|done]. by split. Qed.

(** A socket found by the scan. *)
Lemma tcp_lookup_found dp sp src l off lst :
  match tcp_lookup dp sp src l off lst with
  | (Some i, _) => ∃ k, (off ≤ i)%nat ∧ l !! (i - off)%nat = Some k ∧ s_valid k = true ∧
      s_type k = SOCKET_TYPE_TCP ∧ s_local_port k = dp ∧ s_remote_port k = sp ∧ s_remote_ip k = src
  | (None, Some i) => lst = Some i ∨ (off ≤ i < off + length l)%nat
  | (None, None) => True
  end.
Proof.
  revert off lst. induction l as [|k l IH]; intros off lst; cbn [tcp_lookup].
  { destruct lst; [by left|done]. }
  assert (Hnext : ∀ lst', lst' = lst ∨ lst' = Some off →
    match tcp_lookup dp sp src l (S off) lst' with
    | (Some i, _) => ∃ x, (off ≤ i)%nat ∧ (k :: l) !! (i - off)%nat = Some x ∧ s_valid x = true ∧
        s_type x = SOCKET_TYPE_TCP ∧ s_local_port x = dp ∧ s_remote_port x = sp ∧ s_remote_ip x = src
    | (None, Some i) => lst = Some i ∨ (off ≤ i < off + length (k :: l))%nat
    | (None, None) => True
    end).
  { intros lst' Hlst. specialize (IH (S off) lst').
    destruct (tcp_lookup dp sp src l (S off) lst') as [[i|] [j|]]; try done.
    - destruct IH as (x&Hi&Hx&?). exists x. split; [lia|]. split; [|done].
      replace (i - off)%nat with (S (i - S off)) by lia. done.
    - destruct IH as (x&Hi&Hx&?). exists x. split; [lia|]. split; [|done].
      replace (i - off)%nat with (S (i - S off)) by lia. done.
    - cbn. destruct IH as [->|?]; [destruct Hlst as [<-|[= ->]]; [by left|right; lia] | right; lia]. }
  destruct (s_valid k) eqn:Hv; cbn [andb]; [|by apply Hnext; left].
  destruct (Z.eqb_spec (s_type k) SOCKET_TYPE_TCP); cbn [andb]; [|by apply Hnext; left].
  destruct (Z.eqb_spec (s_local_port k) dp); [|by apply Hnext; left].
  destruct (s_tcp_state k =? TCP_STATE_LISTEN); [by apply Hnext; right|].
  destruct (Z.eqb_spec (s_remote_port k) sp); cbn [andb]; [|by apply Hnext; left].
  case_bool_decide; [|by apply Hnext; left].
  exists k. rewrite Nat.sub_diag. done.
Qed.

Section input.
Context (ip mac : list Z) (others : net → net).
Context (R : list socket → list socket → Prop) `{!PreOrder R}.
Context (Hothers : ∀ lk fl s, net_ok ip mac lk fl s → after ip mac R lk fl s (others s)).
Context (fuel : nat).
Abbreviation ok := (net_ok ip mac).
Abbreviation send := (net_ipv4_send others fuel).

Lemma child_ok l port sp src seq k : (l < MAX_SOCKETS)%nat → nonlocal ip src → sock_ok ip k →
  sock_ok ip (child_socket l port sp src seq k).
Proof.
  intros Hl Hsrc []. split; try done; [apply Hsrc|]. by intros p [= <-].
Qed.

Lemma wp_accept_syn σ fl l sp seq s : ok true fl s → (l < MAX_SOCKETS)%nat → nonlocal ip (sg_ip σ) →
  wp (tcp_accept_syn send l sp (sg_ip σ) seq) (λ _ s', ok true fl s' ∧ moves σ (socket_table s) (socket_table s')) s.
Proof.
  intros Hs Hl Hsrc. unfold tcp_accept_syn. destruct (net_ok_lookup _ _ _ _ _ l Hs Hl) as [lk Hlk].
  apply wp_bind. eapply wp_get_sock; [done|]. pose proof (moves_refl σ (socket_table s)) as Href.
  destruct (s_accept_count lk <? 8); [|by apply wp_ret].
  apply wp_bind, wp_get. destruct (find_index _ _) as [i|] eqn:Hi; [|by apply wp_ret].
  destruct (find_index_lookup _ _ _ Hi) as (k&Hk&Hv). apply negb_true_iff in Hv.
  assert (Hp : pend ip mac σ (socket_table s) true fl i k k s) by by apply pend_start.
  apply wp_bind. eapply (wp_pend_aside ip mac R _ _ true _); [apply aside_kmalloc_answer|exact Hp|].
  clear Hp. intros [] s1 _ Hp; cbn [negb].
  - apply wp_bind. eapply wp_pend_upd; [done|by apply child_ok|]. clear s1 Hp. intros s1 Hp.
    apply wp_bind. eapply (wp_pend_send ip mac others R Hothers _ _ true _); [done..| | |]; [lia|cbn; lia|]. clear s1 Hp. intros s1 k2 (?&?&?&->) Hp.
    eapply (wp_pend_aside ip mac R _ _ true _); [apply aside_notify|exact Hp|]. intros [] s2 _ Hp2.
    eapply pend_done; [done..|]. by rewrite Hv.
  - eapply wp_pend_upd; [done| |intros s2 Hp2; eapply pend_done; [done..|]; by rewrite Hv].
    intros []. split; try done. apply Hsrc.
Qed.

Lemma wp_tcp_receive fl src data len s : ok false fl s → (Z.to_nat len ≤ length data)%nat → nonlocal ip src →
  wp (net_tcp_receive send src data len)
    (λ _ s', ok false fl s' ∧ moves (tcp_seg src data len) (socket_table s) (socket_table s')) s.
Proof.
  intros Hs Hlen Hsrc. set (σ := tcp_seg src data len). unfold net_tcp_receive.
  pose proof (moves_refl σ (socket_table s)) as Href.
  destruct (Z.ltb_spec len 20) as [|Hl]; [by apply wp_ret|].
  do 2 (apply wp_bind, wp_rd16; [lia|]). do 2 (apply wp_bind, wp_rd32; [lia|]).
  do 2 (apply wp_bind, wp_rd8; [lia|]). fold (tcp_header_len data).
  assert (0 ≤ tcp_header_len data) by (apply Z.mod_pos_bound; lia).
  destruct (Z.ltb_spec len (tcp_header_len data)) as [|Hh]; [by apply wp_ret|].
  apply wp_bind. eapply wp_table_lock; [done|]. intros s1 Hs1 Ht1. apply wp_bind, wp_get.
  rewrite <-Ht1 in Href |- *. apply wp_bind.
  apply (wp_mono _ (λ _ s', ok true false s' ∧ moves σ (socket_table s1) (socket_table s'))).
  2: { intros [] s2 [Hs2 Hm]. eapply wp_table_unlock; [done|]. intros s3 Hs3 Ht3. by rewrite Ht3. }
  pose proof (tcp_lookup_found (swap16 (word16 data 2)) (swap16 (word16 data 0)) src (socket_table s1) 0 None) as Hf.
  destruct (tcp_lookup _ _ _ _ _ _) as [[i|] lst].
  - destruct Hf as (k&_&Hk&Hv&Hty&Hp). rewrite Nat.sub_0_r in Hk.
    eapply (rx_segment ip mac others R Hothers σ (socket_table s1) true false fuel i k); [|lia|lia|done| |].
    + split; [done..|]. exact Hp.
    + by apply pend_start.
    + intros s' k2 Hr Hpend. by eapply pend_done_steps.
  - destruct lst as [l|]; [|by apply wp_ret]. destruct Hf as [|Hf]; [done|].
    apply wp_when; [|done]. intros _. apply (wp_accept_syn σ); [done| |done].
    rewrite (no_table _ _ _ _ _ Hs1) in Hf. lia.
Qed.

Lemma put_all_app k a b : put_all k (a ++ b) = put_all (put_all k a) b.
Proof. apply foldl_app. Qed.

Lemma wp_store_datagram σ src data ul t0 i k s :
  sg_payload σ = take (Z.to_nat (ul - 8)) (drop 8 data) → Z.of_nat (length (sg_payload σ)) = ul - 8 →
  (8 + Z.to_nat (ul - 8) ≤ length data)%nat → s_valid k = true →
  pend ip mac σ t0 true false i k k s →
  wp (ring_put_all i (take 4 src ++ [sg_sport σ &! 0xFF; (sg_sport σ >>! 8) &! 0xFF;
        (ul - 8) &! 0xFF; ((ul - 8) >>! 8) &! 0xFF]);;
      payload ← rd_bytes data 8 (Z.to_nat (ul - 8));
      ring_put_all i payload;; wake_socket i;; io_notify)
    (λ _ s', pend ip mac σ t0 true false i k (put_all k (datagram src (sg_sport σ) (sg_payload σ))) s') s.
Proof.
  intros Hpay Hpl Hl Hv Hp. apply wp_bind. eapply wp_pend_put_all; [done..|]. intros s2 Hp2.
  apply wp_bind, wp_rd_bytes; [lia|]. rewrite <-Hpay. apply wp_bind.
  eapply wp_pend_put_all; [done|by injection (put_all_id k (take 4 src ++ [sg_sport σ &! 0xFF;
    (sg_sport σ >>! 8) &! 0xFF; (ul - 8) &! 0xFF; ((ul - 8) >>! 8) &! 0xFF])) as ->|].
  intros s3 Hp3. rewrite <-put_all_app, <-app_assoc, <-Hpl in Hp3.
  apply wp_bind. eapply (wp_pend_aside ip mac R _ _ true _); [apply aside_wake|exact Hp3|]. intros [] s4 _ Hp4.
  eapply (wp_pend_aside ip mac R _ _ true _); [apply aside_notify|exact Hp4|]. by intros [] s5 _ Hp5.
Qed.

(** The first open datagram socket on the port takes the datagram, if it fits. *)
Definition udp_stored (src data : list Z) (len : Z) (t t' : list socket) : Prop :=
  ∀ i k, 8 ≤ swap16 (word16 data 4) ≤ len →
    find_index (udp_matches (swap16 (word16 data 2))) t = Some i → t !! i = Some k →
    ring_count k + swap16 (word16 data 4) < 8191 →
    t' !! i = Some (put_all k (datagram src (sg_sport (udp_seg src data)) (sg_payload (udp_seg src data)))).

Lemma wp_udp_receive fl src data len s : ok false fl s → (Z.to_nat len ≤ length data)%nat →
  length src = 4%nat →
  wp (net_udp_receive src data len)
    (λ _ s', ok false fl s' ∧ moves (udp_seg src data) (socket_table s) (socket_table s')
      ∧ udp_stored src data len (socket_table s) (socket_table s')) s.
Proof.
  intros Hs Hlen Hsrc. set (σ := udp_seg src data). unfold net_udp_receive.
  pose proof (moves_refl σ (socket_table s)) as Href.
  destruct (Z.ltb_spec len 8) as [|Hl]; [apply wp_ret; do 2 (split; [done|]); intros i k Hc; lia|].
  do 3 (apply wp_bind, wp_rd16; [lia|]).
  destruct (Z.ltb_spec len (swap16 (word16 data 4))) as [|Hu]; [apply wp_ret; do 2 (split; [done|]); intros i k Hc; lia|].
  destruct (Z.ltb_spec (swap16 (word16 data 4)) 8) as [|Hu8]; [apply wp_ret; do 2 (split; [done|]); intros i k Hc; lia|].
  set (ul := swap16 (word16 data 4)) in *. cbn [orb].
  apply wp_bind. eapply wp_table_lock; [done|]. intros s1 Hs1 Ht1. apply wp_bind, wp_get.
  rewrite <-Ht1 in Href |- *. apply wp_bind.
  apply (wp_mono _ (λ _ s', ok true false s' ∧ moves σ (socket_table s1) (socket_table s')
    ∧ udp_stored src data len (socket_table s1) (socket_table s'))).
  2: { intros [] s2 (Hs2&Hm). eapply wp_table_unlock; [done|]. intros s3 Hs3 Ht3. by rewrite Ht3. }
  destruct (find_index _ _) as [i|] eqn:Hi; [|apply wp_ret; do 2 (split; [done|]); intros i k _; congruence].
  destruct (find_index_lookup _ _ _ Hi) as (k&Hk&Hv).
  apply andb_prop in Hv as [[Hv Hty]%andb_prop Hport]. apply Z.eqb_eq in Hty, Hport.
  destruct (net_ok_sock _ _ _ _ _ _ _ Hs1 Hk) as [Hok _]. pose proof (sk_ring _ _ Hok Hv) as Hring.
  apply wp_bind. eapply wp_get_sock; [done|]. rewrite (free_space_eq k Hring).
  apply wp_when.
  2: { intros Hroom%Z.ltb_ge. do 2 (split; [done|]). intros i' k' _ Hi' Hk' Hr.
       rewrite Hi in Hi'. injection Hi' as <-. rewrite Hk in Hk'. injection Hk' as <-. fold ul in Hr. lia. }
  intros Hroom%Z.ltb_lt.
  assert (Hpl : Z.of_nat (length (sg_payload σ)) = ul - 8)
    by (unfold σ, udp_seg; cbn [sg_payload]; rewrite length_take_drop by lia; lia).
  apply (wp_mono _ (λ _ s', pend ip mac σ (socket_table s1) true false i k
    (put_all k (datagram src (sg_sport σ) (sg_payload σ))) s')).
  - apply (wp_store_datagram σ src data ul); try done; [lia|by apply pend_start].
  - intros [] s' Hp. pose proof (proj1 (pend_sock _ _ _ _ _ _ _ _ _ _ Hp)) as Hi'.
    assert (Hd : ok true false s' ∧ moves σ (socket_table s1) (socket_table s')).
    { eapply pend_done_steps; [done|]. apply rtc_once. apply rx_datagram; [done..| |done].
      unfold datagram. rewrite !length_app, length_take. cbn [length]. unfold σ at 1. cbn [sg_ip udp_seg].
      rewrite Hsrc. lia. }
    destruct Hd as [Hs' Hm]. do 2 (split; [done|]). intros i2 k2 _ Hi2 Hk2 _.
    rewrite Hi in Hi2. injection Hi2 as <-. rewrite Hk in Hk2. by injection Hk2 as <-.
Qed.

Lemma wp_icmp_receive fl src data len s : ok false fl s → (Z.to_nat len ≤ length data)%nat → nonlocal ip src →
  wp (net_icmp_receive send src data len) (λ _ s', after ip mac R false fl s s') s.
Proof.
  intros Hs Hlen Hsrc. unfold net_icmp_receive. pose proof (after_refl ip mac R false fl s Hs) as Href.
  destruct (Z.ltb_spec len 8) as [|Hl]; [by apply wp_ret|].
  apply wp_bind, wp_rd8; [lia|]. destruct (_ =? _); [|by apply wp_ret].
  destruct (Z.ltb_spec 1600 len) as [|Hl2]; [by apply wp_ret|].
  apply wp_bind, wp_rd_bytes; [lia|]. set (b := take (Z.to_nat len) (drop 0 data)).
  assert (Hb : length b = Z.to_nat len) by (apply length_take_drop; lia).
  eapply (aside_ipv4_send ip mac others R Hothers); [done|lia| |done|done].
  cbn [length]. rewrite !length_app, !length_take, !length_drop, Hb. cbn [length le16]. lia.
Qed.

Lemma arp_cache_ok fl s t a m : after ip mac R false fl s t → length m = 6%nat →
  wp (arp_cache_add a m) (λ _ s', after ip mac R false fl s s') t.
Proof.
  intros Hs Hm. pose proof (proj1 Hs) as Hok. pose proof (no_arp _ _ _ _ _ Hok) as Harp.
  unfold arp_cache_add. apply wp_bind, wp_get.
  destruct (find_index _ _) as [i|]; apply wp_modify; (eapply after_aside; [done|try done..]); cbn.
  2, 4: apply (no_frames _ _ _ _ _ Hok).
  - apply Forall_alter; [done|]. by intros.
  - by apply Forall_insert.
Qed.

Lemma wp_arp_receive fl data len s : ok false fl s → (Z.to_nat len ≤ length data)%nat →
  wp (net_arp_receive data len) (λ _ s', after ip mac R false fl s s') s.
Proof.
  intros Hs Hlen. unfold net_arp_receive. pose proof (after_refl ip mac R false fl s Hs) as Href.
  destruct (Z.ltb_spec len 28) as [|Hl]; [by apply wp_ret|].
  apply wp_bind, wp_get, wp_bind, wp_rd16; [lia|].
  destruct (_ =? ARP_OP_REQUEST); [|destruct (_ =? ARP_OP_REPLY); [|by apply wp_ret]].
  all: apply wp_bind, wp_rd_bytes; [lia|]; case_bool_decide; [|by apply wp_ret].
  all: do 2 (apply wp_bind, wp_rd_bytes; [lia|]).
  all: assert (H6 : length (take 6 (drop 8 data)) = 6%nat) by (apply length_take_drop; lia).
  - apply wp_bind. eapply wp_mono; [by apply arp_cache_ok|]. intros [] s1 Hs1.
    do 2 (apply wp_bind, wp_rd16; [lia|]).
    eapply (aside_eth_send ip mac R); [done| |done|by intros [] s2 _ Hs2].
    destruct (net_ok_lens _ _ _ _ _ Hs). rewrite length_arp_packet; [lia|done..|].
    apply length_take_drop. lia.
  - by apply arp_cache_ok.
Qed.

(** What one frame does: the invariant stays, and the table moves by the steps
    of its segment, or the only changes are those of other tasks. *)
Definition processed (σ : segment) (fl : bool) (s s' : net) : Prop :=
  ok false fl s' ∧ (moves σ (socket_table s) (socket_table s') ∨ R (socket_table s) (socket_table s')).

Lemma processed_refl σ fl s : ok false fl s → processed σ fl s s.
Proof. split; [done|]. left. apply moves_refl. Qed.

Lemma wp_ipv4_receive fl data len s : ok false fl s → (Z.to_nat len ≤ length data)%nat →
  (20 ≤ len → honest ip data len) →
  wp (net_ipv4_receive send data len) (λ _ s', processed (ip_seg data) fl s s') s.
Proof.
  intros Hs Hlen Hhon. unfold net_ipv4_receive. pose proof (processed_refl (ip_seg data) fl s Hs) as Href.
  destruct (Z.ltb_spec len 20) as [|Hl]; [by apply wp_ret|]. destruct (Hhon Hl) as [Hih Htot Hsrc].
  apply wp_bind, wp_rd8; [lia|]. fold (ip_header_len data).
  destruct (Z.ltb_spec len (ip_header_len data)) as [|Hh]; [by apply wp_ret|].
  apply wp_bind, wp_get, wp_bind, wp_rd_bytes; [lia|]. case_match; [by apply wp_ret|].
  apply wp_bind, wp_rd16; [lia|]. apply wp_bind, wp_rd8; [lia|].
  apply wp_bind, wp_rd_bytes; [lia|]. fold (ip_total_len data) (ip_src data).
  assert (Htl : ip_total_len data < 65536) by apply swap16_range.
  rewrite u16_small by lia. set (p := drop _ data).
  assert (Hp : (Z.to_nat (ip_total_len data - ip_header_len data) ≤ length p)%nat)
    by (unfold p; rewrite length_drop; lia).
  pose proof (nonlocal_len _ _ Hsrc) as H4.
  destruct (data !!! 9%nat =? IP_PROTO_ICMP) eqn:H1.
  { eapply wp_mono; [by apply wp_icmp_receive|]. intros [] s' [Hs' HR]. split; [done|]. by right. }
  unfold processed, ip_seg. fold p. destruct (data !!! 9%nat =? IP_PROTO_UDP).
  { eapply wp_mono; [by apply wp_udp_receive|]. intros [] s' (Hs'&Hm&_). split; [done|]. by left. }
  destruct (data !!! 9%nat =? IP_PROTO_TCP); [|apply wp_ret; split; [done|]; left; apply moves_refl].
  eapply wp_mono; [by apply wp_tcp_receive|]. intros [] s' [Hs' Hm]. split; [done|]. by left.
Qed.

(** ** The timer *)

Lemma rx_timer σ t0 i k1 now : rx_at ip mac σ t0 true false i k1 (tcp_timer send i now).
Proof.
  unfold tcp_timer. apply rx_get. intros Hok.
  destruct (s_valid k1) eqn:Hv; cbn [andb negb]; [|apply rx_ret].
  destruct (Z.eqb_spec (s_type k1) SOCKET_TYPE_TCP) as [Hty|]; cbn [negb]; [|apply rx_ret].
  case_match; [apply rx_ret|]. case_match; [|apply rx_upd_control; try done; apply calm_refl].
  assert (Hnxt : ∀ f n m, rx_at ip mac σ t0 true false i k1
    (upd_sock i (set_s_snd_nxt n);; net_tcp_send_segment send i f [] 0;; upd_sock i (set_s_snd_nxt m))).
  { intros f n m. apply rx_bind; [apply rx_upd_control; try done; apply calm_refl|]. intros k2 Hr2.
    apply rx_bind; [|intros k3 _; apply rx_upd_control; try done; apply calm_refl].
    apply (rx_send ip mac others R Hothers _ _ true _). by rewrite (rx_steps_type _ _ _ Hr2). }
  apply rx_bind.
  { case_match; [apply Hnxt|]. case_match; [by apply (rx_send ip mac others R Hothers _ _ true _)|].
    case_match; [apply Hnxt | apply rx_ret]. }
  intros k2 _. apply rx_bind; [apply rx_upd_control; try done; apply calm_refl|].
  intros k3 _. apply rx_get. intros _. case_match; [|apply rx_upd_control; try done; apply calm_refl].
  apply rx_bind; [|intros k4 _; apply (rx_notify ip mac R _ _ true _)].
  apply rx_upd_control; try done. by do 2 right; left.
Qed.

Lemma wp_timer_tick σ fl s : ok false fl s →
  wp (net_tcp_timer_tick send) (λ _ s', ok false fl s' ∧ moves σ (socket_table s) (socket_table s')) s.
Proof.
  intros Hs. unfold net_tcp_timer_tick. apply wp_bind, wp_get, wp_bind. eapply wp_table_lock; [done|].
  intros s1 Hs1 Ht1. rewrite <-Ht1. apply wp_bind.
  apply (wp_for_each (λ _ s', ok true false s' ∧ moves σ (socket_table s1) (socket_table s'))).
  - split; [done|apply moves_refl].
  - intros d i rest s2 Hl [Hs2 Hm]. assert (Hi : (i < MAX_SOCKETS)%nat).
    { apply (elem_of_seq 0 MAX_SOCKETS i). rewrite Hl. set_solver. }
    destruct (net_ok_lookup _ _ _ _ _ i Hs2 Hi) as [k Hk].
    eapply (rx_timer σ (socket_table s1) i k); [by apply pend_start|].
    intros s3 k2 Hr Hp. by eapply pend_done_steps.
  - intros s2 [Hs2 Hm]. eapply wp_table_unlock; [done|]. intros s3 Hs3 Ht3. by rewrite Ht3.
Qed.
End input.

(** ** Frames *)

Section frames.
Context (ip mac : list Z) (others : net → net).
Context (R : list socket → list socket → Prop) `{!PreOrder R}.
Context (Hothers : ∀ lk fl s, net_ok ip mac lk fl s → after ip mac R lk fl s (others s)).

(** The IP packet of the frame is honest, if it has one. *)
Definition honest_frame (data : list Z) : Prop :=
  swap16 (word16 data 12) = ETH_TYPE_IPV4 → (34 ≤ length data)%nat →
  honest ip (drop 14 data) (Z.of_nat (length data) - 14).

Lemma wp_process_packet fl data s : net_ok ip mac false fl s → Z.of_nat (length data) < 65536 →
  honest_frame data →
  wp (net_process_packet others data (Z.of_nat (length data)))
    (λ _ s', processed ip mac R (ip_seg (drop 14 data)) fl s s') s.
Proof.
  intros Hs Hlen Hhon. unfold net_process_packet.
  destruct (Z.ltb_spec (Z.of_nat (length data)) 14); [by apply wp_ret, processed_refl|].
  apply wp_bind, wp_rd16; [lia|]. rewrite u16_small by lia.
  assert (Hd : (Z.to_nat (Z.of_nat (length data) - 14) ≤ length (drop 14 data))%nat)
    by (rewrite length_drop; lia).
  destruct (_ =? ETH_TYPE_ARP) eqn:H1.
  { eapply wp_mono; [by apply (wp_arp_receive ip mac R)|]. intros [] s' [Hs' HR]. split; [done|]. by right. }
  destruct (Z.eqb_spec (swap16 (word16 data 12)) ETH_TYPE_IPV4) as [H2|];
    [|by apply wp_ret, processed_refl].
  apply (wp_ipv4_receive ip mac others R Hothers); [done..|]. intros Hl. apply Hhon; [done|]. lia.
Qed.
End frames.
