(* ===== verification/NetStream.v ===== *)
(** * Reading sockets, and the stream of a TCP connection

    Frames that carry pieces of one byte stream arrive in any order, more than
    once or not at all, mixed with other traffic, timer ticks and reads.  What
    the reader has got, followed by what waits in the ring, is a prefix of the
    stream. *)

From stdpp Require Import relations.
From S2P Require Import Prelude Bits NetState Net SocketOps NetRing NetSpec NetRecv NetInput.

Definition with_sock (i : nat) (k : socket) (s : net) : net :=
  set_socket_table (<[i := k]> (socket_table s)) s.

Lemma with_sock_twice i k k' s : with_sock i k' (with_sock i k s) = with_sock i k' s.
Proof. unfold with_sock. cbn. by rewrite list_insert_insert_eq. Qed.

Lemma with_sock_id i k s : socket_table s !! i = Some k → with_sock i k s = s.
Proof. intros Hk. unfold with_sock. rewrite list_insert_id by done. by destruct s. Qed.

Lemma with_sock_lookup i k s : (i < length (socket_table s))%nat →
  socket_table (with_sock i k s) !! i = Some k.
Proof. apply list_lookup_insert_eq. Qed.

(** ** Taking bytes from the ring *)

Lemma skip_0 k : ring_ok k → skip 0 k = k.
Proof.
  intros [Hs _ Hr _]. unfold skip. rewrite Z.add_0_r, Hs, Z.mod_small by done. by destruct k.
Qed.

Lemma skip_skip m n k : ring_ok k → skip n (skip m k) = skip (m + n) k.
Proof.
  intros [Hs _ _ _]. unfold skip. cbn. rewrite Hs, Zplus_mod_idemp_l.
  replace (s_rx_read_ptr k + m + n) with (s_rx_read_ptr k + (m + n)) by lia. by destruct k.
Qed.

Lemma wp_ring_get i k b l (Q : Z → net → Prop) s : socket_table s !! i = Some k → ring_ok k →
  ring_bytes k = b :: l → Q b (with_sock i (skip 1 k) s) → wp (ring_get i) Q s.
Proof.
  intros Hk Hr Hb HQ. unfold ring_get. apply wp_bind. eapply wp_get_sock; [done|].
  apply wp_bind. eapply wp_deref; [by eapply head_ring|].
  apply wp_bind. eapply wp_upd_sock; [done|]. by apply wp_ret.
Qed.

Lemma ring_bytes_cons_skip k b l : ring_ok k → ring_bytes k = b :: l → ring_bytes (skip 1 k) = l.
Proof.
  intros Hr Hb. rewrite bytes_skip by (done || (rewrite <-length_ring_bytes, Hb; cbn; lia)).
  by rewrite Hb.
Qed.

Lemma wp_ring_get_n i n k (Q : list Z → net → Prop) s : socket_table s !! i = Some k → ring_ok k →
  (n ≤ length (ring_bytes k))%nat →
  Q (take n (ring_bytes k)) (with_sock i (skip (Z.of_nat n) k) s) → wp (ring_get_n i n) Q s.
Proof.
  revert k s Q. induction n as [|n IH]; intros k s Q Hk Hr Hn HQ; cbn [ring_get_n].
  { apply wp_ret. by rewrite skip_0, with_sock_id in HQ. }
  destruct (ring_bytes k) as [|b l] eqn:Hb; cbn in Hn; [lia|].
  apply wp_bind. eapply wp_ring_get; [done..|].
  pose proof (ring_bytes_cons_skip _ _ _ Hr Hb) as Hl.
  apply wp_bind, (IH (skip 1 k)); [|by apply skip_ok|rewrite Hl; lia|].
  { apply with_sock_lookup. by eapply lookup_lt_Some. }
  apply wp_ret. rewrite Hl, with_sock_twice, skip_skip by done.
  by replace (1 + Z.of_nat n) with (Z.of_nat (S n)) by lia.
Qed.

Lemma wp_ring_get_some i n k (Q : list Z → net → Prop) s : socket_table s !! i = Some k → ring_ok k →
  Q (take n (ring_bytes k)) (with_sock i (skip (Z.of_nat (n `min` length (ring_bytes k))) k) s) →
  wp (ring_get_some i n) Q s.
Proof.
  revert k s Q. induction n as [|n IH]; intros k s Q Hk Hr HQ; cbn [ring_get_some].
  { apply wp_ret. by rewrite Nat.min_0_l, skip_0, with_sock_id in HQ. }
  apply wp_bind. eapply wp_get_sock; [done|]. rewrite (ring_empty k Hr).
  destruct (ring_bytes k) as [|b l] eqn:Hb.
  { rewrite bool_decide_true by done. apply wp_ret. cbn in HQ. by rewrite skip_0, with_sock_id in HQ. }
  rewrite bool_decide_false by done. apply wp_bind. eapply wp_ring_get; [done..|].
  pose proof (ring_bytes_cons_skip _ _ _ Hr Hb) as Hl.
  apply wp_bind, (IH (skip 1 k)); [|by apply skip_ok|].
  { apply with_sock_lookup. by eapply lookup_lt_Some. }
  apply wp_ret. rewrite Hl, with_sock_twice, skip_skip by done. cbn in HQ.
  by replace (1 + Z.of_nat (n `min` length l)) with (Z.of_nat (S (n `min` length l))) by lia.
Qed.

(** ** Streams *)

Section stream.
Context (str : list Z) (base : Z).

(** [got] has been read from the connection; the rest of the received prefix
    waits in the ring. *)
Record streaming (got : list Z) (k : socket) : Prop := {
  st_valid : s_valid k = true;
  st_type : s_type k = SOCKET_TYPE_TCP;
  st_domain : s_domain k ≠ AF_UNIX;
  st_not_opening : s_tcp_state k ≠ TCP_STATE_SYN_SENT;
  st_bytes : ∃ n, (n ≤ length str)%nat ∧ got ++ ring_bytes k = take n str ∧
    (s_tcp_state k = TCP_STATE_SYN_RECEIVED ∨ s_tcp_state k = TCP_STATE_ESTABLISHED →
     s_rcv_nxt k = u32 (base + Z.of_nat n));
}.

(** The segment carries a piece of the stream, if it is for this connection. *)
Definition carries (σ : segment) (k : socket) : Prop :=
  sg_proto σ = IP_PROTO_TCP → addressed σ k → ∀ n, (n ≤ length str)%nat → sg_seq σ = u32 (base + Z.of_nat n) →
    sg_payload σ `prefix_of` drop n str.

Lemma carries_id σ k k' : rx_id k' = rx_id k → carries σ k → carries σ k'.
Proof.
  intros [= ??? E1 E2 E3 ??] Hc Hpr (A1&A2&A3). apply Hc; [done|]. split; [congruence|]. split; congruence.
Qed.

Lemma rx_step_ring σ k k' : rx_step σ k k' → ring_ok k → ring_ok k'.
Proof.
  intros [Hv|Hv|?????? ->|Hv|??? ->] Hr; try by eapply ring_ok_view.
  - eapply ring_ok_view; [|by apply put_all_ok]. done.
  - by apply put_all_ok.
Qed.

Lemma streaming_step σ got k k' :
  rx_step σ k k' → ring_ok k → carries σ k → streaming got k → streaming got k'.
Proof.
  intros Hst Hr Hc [Hv Ht Hd Ho (n&Hn&Hb&Hx)].
  assert (Hid : rx_id k' = rx_id k) by by apply (rx_steps_id σ), rtc_once.
  injection Hid as E1 E2 E3 _ _ _ _ _.
  destruct Hst as [Hview Hnxt Hcalm|_ Hs _ _|Hpr _ Ha Hs Hseq Hroom Hk'|Hview Hnxt Hs|Hu].
  - split; [congruence..| |].
    + destruct Hcalm as [->|[[_ ->]|[->| ->]]]; done.
    + exists n. rewrite (ring_bytes_view _ _ Hview), Hnxt. do 2 (split; [done|]).
      intros Hs. apply Hx. destruct Hcalm as [E|[[E _]|[E|E]]]; rewrite E in *; [done|by left| |];
        by destruct Hs.
  - done.
  - destruct (Hc Hpr Ha n Hn) as [rest Hrest]; [rewrite <-Hseq; apply Hx; by right|].
    assert (Hbytes : ring_bytes k' = ring_bytes k ++ sg_payload σ).
    { rewrite Hk', <-bytes_put_all by (done || lia). by apply ring_bytes_view. }
    assert (Hstate : s_tcp_state k' = TCP_STATE_ESTABLISHED).
    { rewrite Hk'. by destruct (put_all_eq (sg_payload σ) k) as (w&b&->). }
    assert (Hlen : length (drop n str) = (length (sg_payload σ) + length rest)%nat)
      by by rewrite Hrest, length_app.
    rewrite length_drop in Hlen.
    split; [congruence..|by rewrite Hstate|].
    exists (n + length (sg_payload σ))%nat. split; [lia|]. split.
    + rewrite Hbytes, app_assoc, Hb, <-take_take_drop. f_equal. by rewrite Hrest, take_app_length.
    + intros _. rewrite Hk'. cbn. rewrite Hx by by right. unfold u32. rewrite Zplus_mod_idemp_l. f_equal. lia.
  - split; [congruence..| |]; [by destruct Hs as [-> | ->]|].
    exists n. rewrite (ring_bytes_view _ _ Hview). do 2 (split; [done|]).
    intros [E|E]; rewrite E in Hs; by destruct Hs.
  - by rewrite Ht in Hu.
Qed.

Lemma streaming_steps σ got k k' :
  rtc (rx_step σ) k k' → ring_ok k → carries σ k → streaming got k → streaming got k' ∧ ring_ok k'.
Proof.
  induction 1 as [|k k1 k2 Hst _ IH]; [done|]. intros Hr Hc Hk. apply IH.
  - by eapply rx_step_ring.
  - eapply carries_id; [|done]. by apply (rx_steps_id σ), rtc_once.
  - by eapply streaming_step.
Qed.

(** The reader takes [n] bytes. *)
Lemma streaming_read got k n : ring_ok k → (n ≤ length (ring_bytes k))%nat → streaming got k →
  streaming (got ++ take n (ring_bytes k)) (skip (Z.of_nat n) k).
Proof.
  intros Hr Hn [Hv Ht Hd Ho (m&Hm&Hb&Hx)]. split; try done. exists m. split; [done|]. split; [|done].
  rewrite bytes_skip by (done || (rewrite <-length_ring_bytes; lia)).
  by rewrite Nat2Z.id, <-app_assoc, take_drop.
Qed.
End stream.
