(* ===== verification/NetFrames.v ===== *)
(** * Headers, and what a packet to this host leads to

    The header this host builds is read back by this host.  A TCP segment that
    is sent to the own address while the table lock is held never returns. *)

From stdpp Require Import relations.
From S2P Require Import Prelude Bits NetState Net SocketOps NetRing NetSpec NetRecv NetInput NetStream.

Lemma swap16_eq v : 0 ≤ v < 65536 → swap16 v = v `mod` 256 * 256 + v / 256.
Proof.
  intros Hv. unfold swap16. rewrite Z.shiftl_mul_pow2, Z.shiftr_div_pow2 by done.
  pose proof (Z.div_mod v 256) as Hd. pose proof (Z.mod_pos_bound v 256) as Hm.
  pose proof (Z.div_pos v 256) as Hp.
  rewrite u64_small, lor_disjoint by (change (2 ^ 8) with 256; lia). change (2 ^ 8) with 256.
  unfold u16. symmetry. apply Z.mod_unique with (v / 256); lia.
Qed.

Lemma swap16_twice v : 0 ≤ v < 65536 → swap16 (swap16 v) = v.
Proof.
  intros Hv. rewrite (swap16_eq (swap16 v)) by apply swap16_range. rewrite swap16_eq by done.
  pose proof (Z.div_mod v 256) as Hd. pose proof (Z.mod_pos_bound v 256) as Hm.
  assert (0 ≤ v / 256 < 256) by (split; [apply Z.div_pos; lia|apply Z.div_lt_upper_bound; lia]).
  rewrite <-(Z.mod_unique (v `mod` 256 * 256 + v / 256) 256 (v `mod` 256) (v / 256)) by lia.
  rewrite <-(Z.div_unique (v `mod` 256 * 256 + v / 256) 256 (v `mod` 256) (v / 256)) by lia. lia.
Qed.

Lemma le16_word v : 0 ≤ v < 65536 → v `mod` 256 + 256 * ((v / 256) `mod` 256) = v.
Proof.
  intros Hv. rewrite (Z.mod_small (v / 256)).
  - pose proof (Z.div_mod v 256). lia.
  - split; [apply Z.div_pos; lia|apply Z.div_lt_upper_bound; lia].
Qed.

(** ** Routines that stop *)

Lemma stop_bind {S A B} (m : prog S A) (k : A → prog S B) r s :
  wp m (λ a s', k a s' = Stop r) s → (m ≫= k) s = Stop r.
Proof. unfold wp, mbind, prog_bind. by destruct (m s) as [[]|]. Qed.

Lemma stop_first {S A B} (m : prog S A) (k : A → prog S B) r s :
  m s = Stop r → (m ≫= k) s = Stop r.
Proof. unfold mbind, prog_bind. by intros ->. Qed.

(** ** Headers *)

(** An IP packet as this host builds it. *)
Section built.
Context (len id proto csum : Z) (src dest p : list Z).
Context (Hlen : 0 ≤ len < 65536) (Hsrc : length src = 4%nat) (Hdest : length dest = 4%nat).
Abbreviation packet := (ipv4_header len id proto csum src dest ++ p).

Lemma built_fields : ip_header_len packet = 20 ∧ ip_total_len packet = len ∧ ip_src packet = src ∧
  take 4 (drop 16 packet) = dest ∧ packet !!! 9%nat = proto ∧ drop 20 packet = p.
Proof.
  destruct src as [|s0 [|s1 [|s2 [|s3 [|]]]]]; try done.
  destruct dest as [|d0 [|d1 [|d2 [|d3 [|]]]]]; try done.
  split; [done|]. split; [|done]. unfold ip_total_len.
  replace (word16 _ 2) with (swap16 len `mod` 256 + 256 * ((swap16 len / 256) `mod` 256)) by done.
  rewrite le16_word by apply swap16_range. by apply swap16_twice.
Qed.
End built.

(** The dispatch of a packet that is for this host. *)
Definition ip_dispatch (send : list Z → Z → list Z → Z → NM unit) (data : list Z) : NM unit :=
  let payload := drop (Z.to_nat (ip_header_len data)) data in
  let len := u16 (ip_total_len data - ip_header_len data) in
  if data !!! 9%nat =? IP_PROTO_ICMP then net_icmp_receive send (ip_src data) payload len
  else if data !!! 9%nat =? IP_PROTO_UDP then net_udp_receive (ip_src data) payload len
  else if data !!! 9%nat =? IP_PROTO_TCP then net_tcp_receive send (ip_src data) payload len
  else mret ().

Lemma ipv4_receive_run send data len s :
  20 ≤ len → (Z.to_nat len ≤ length data)%nat → 0 ≤ ip_header_len data ≤ len →
  (take 4 (drop 16 data) = my_ip s ∨ head (take 4 (drop 16 data)) = Some 127) →
  net_ipv4_receive send data len s = ip_dispatch send data s.
Proof.
  intros Hl Hlen Hih Hdest. unfold net_ipv4_receive.
  rewrite (proj2 (Z.ltb_ge len 20)) by lia.
  assert (Hrd8 : ∀ off, (off < length data)%nat → rd8 data off s = Done (data !!! off, s)).
  { intros off Ho. by apply wp_eq, wp_rd8. }
  assert (Hrdb : ∀ off n, (off + n ≤ length data)%nat → rd_bytes data off n s = Done (take n (drop off data), s)).
  { intros off n Ho. by apply wp_eq, wp_rd_bytes. }
  rewrite (run_bind _ _ _ _ _ (Hrd8 0%nat ltac:(lia))). fold (ip_header_len data).
  rewrite (proj2 (Z.ltb_ge len (ip_header_len data))) by lia.
  rewrite (run_bind get _ s s s eq_refl), (run_bind _ _ _ _ _ (Hrdb 16%nat 4%nat ltac:(lia))).
  replace (negb _ && negb _ && negb _) with false.
  2: { destruct Hdest as [Hd|Hd]; rewrite (bool_decide_true _ Hd); cbn; [done|].
       by rewrite andb_false_r. }
  assert (Hrd16 : rd16 data 2 s = Done (word16 data 2, s)) by (apply wp_eq, wp_rd16; [lia|done]).
  rewrite (run_bind _ _ _ _ _ Hrd16), (run_bind _ _ _ _ _ (Hrd8 9%nat ltac:(lia))).
  by rewrite (run_bind _ _ _ _ _ (Hrdb 12%nat 4%nat ltac:(lia))).
Qed.

(** With the lock taken a segment is never received. *)
Lemma tcp_receive_spins send src data len s :
  20 ≤ len → (Z.to_nat len ≤ length data)%nat → tcp_header_len data ≤ len → socket_table_lock s = true →
  net_tcp_receive send src data len s = Stop Spinning.
Proof.
  intros Hl Hlen Hh Hlock. unfold net_tcp_receive. rewrite (proj2 (Z.ltb_ge len 20)) by lia.
  do 2 (apply stop_bind, wp_rd16; [lia|]). do 2 (apply stop_bind, wp_rd32; [lia|]).
  do 2 (apply stop_bind, wp_rd8; [lia|]). fold (tcp_header_len data).
  rewrite (proj2 (Z.ltb_ge len (tcp_header_len data))) by lia.
  apply stop_first. unfold table_lock_irqsave, mbind, prog_bind, get, modify. by rewrite Hlock.
Qed.

(** An address that reaches this host without the network. *)
Definition local_address (ip a : list Z) : Prop := head a = Some 127 ∨ a = ip.

Section loopback.
Context (others : net → net).

Lemma length_local_ip dest s : length (my_ip s) = 4%nat → length (local_ip dest s) = 4%nat.
Proof. intros H. unfold local_ip. by case_bool_decide. Qed.

(** With a free page for the packet and the lock taken, a segment to the own
    address never returns from [net_ipv4_send]. *)
Lemma ipv4_send_spins fuel dest k flags csum p len ks s :
  length (my_ip s) = 4%nat → length dest = 4%nat → local_address (my_ip s) dest →
  len = 20 + Z.of_nat (length p) → len ≤ 65515 →
  n_kmalloc s = true :: ks → socket_table_lock s = true →
  net_ipv4_send others (S fuel) dest IP_PROTO_TCP (tcp_header k flags csum ++ p) len s = Stop Spinning.
Proof.
  intros Hip Hd Hloc Hlen Hmax Hk Hlock. cbn [net_ipv4_send].
  pose proof (length_local_ip dest s Hip) as Hsrc.
  assert (Hp : length (tcp_header k flags csum ++ p) = Z.to_nat len)
    by (rewrite length_app, length_tcp_header; lia).
  rewrite u16_small by lia. apply stop_bind. unfold kmalloc_of. rewrite (proj2 (Z.eqb_neq (20 + len) 0)) by lia.
  unfold kmalloc_answer. apply wp_bind, wp_get, wp_bind, wp_modify, wp_ret. rewrite Hk. cbn [head default from_option id negb tail].
  apply stop_bind, wp_get. change (local_ip dest (set_n_kmalloc ks s)) with (local_ip dest s).
  apply stop_bind, wp_modify, stop_bind, wp_rd_bytes; [lia|].
  rewrite drop_0, take_ge by lia. apply stop_bind, wp_fill_buffer.
  { rewrite length_app, length_ipv4_header, Hp by done. lia. }
  replace (bool_decide _ || bool_decide _) with true.
  2: { symmetry. apply orb_true_iff. rewrite !bool_decide_eq_true. destruct Hloc as [|Hloc]; [by left|by right]. }
  set (csum' := ip_checksum _).
  destruct (built_fields (20 + len) (ip_id (set_n_kmalloc ks s)) IP_PROTO_TCP csum' (local_ip dest s) dest
    (tcp_header k flags csum ++ p)) as (F1&F2&F3&F4&F5&F6); [lia|done..|].
  rewrite ipv4_receive_run; rewrite ?F1, ?F2, ?F3, ?F4; try done; [|lia| |lia|].
  - unfold ip_dispatch. rewrite F1, F2, F3, F5. cbn [Z.eqb IP_PROTO_TCP IP_PROTO_ICMP IP_PROTO_UDP Pos.eqb].
    change (Z.to_nat 20) with 20%nat. rewrite F6. apply tcp_receive_spins; try done; rewrite ?u16_small; try lia.
    change (tcp_header_len _) with 20. lia.
  - rewrite length_app, length_ipv4_header, Hp by done. lia.
  - cbn. destruct Hloc as [Hloc| ->]; [by right|by left].
Qed.
End loopback.

(** ** Frames with a TCP segment for this host *)

Record tcp_frame (ip data : list Z) : Prop := {
  tf_len : (34 ≤ length data)%nat ∧ Z.of_nat (length data) < 65536;
  tf_type : swap16 (word16 data 12) = ETH_TYPE_IPV4;
  tf_ihl : 0 ≤ ip_header_len (drop 14 data) ≤ ip_total_len (drop 14 data);
  tf_total : ip_total_len (drop 14 data) ≤ Z.of_nat (length data) - 14;
  tf_dest : take 4 (drop 16 (drop 14 data)) = ip;
  tf_proto : drop 14 data !!! 9%nat = IP_PROTO_TCP;
}.

(** The segment in the frame: its bytes and their number. *)
Definition frame_tcp (data : list Z) : list Z :=
  drop (Z.to_nat (ip_header_len (drop 14 data))) (drop 14 data).
Definition frame_tcp_len (data : list Z) : Z :=
  ip_total_len (drop 14 data) - ip_header_len (drop 14 data).

Lemma frame_tcp_fits ip data : tcp_frame ip data →
  (Z.to_nat (frame_tcp_len data) ≤ length (frame_tcp data))%nat.
Proof.
  intros [[Hl Hmax] _ Hih Htot _ _]. unfold frame_tcp, frame_tcp_len. rewrite !length_drop. lia.
Qed.

Lemma process_tcp_frame others data s : tcp_frame (my_ip s) data →
  net_process_packet others data (Z.of_nat (length data)) s =
  net_tcp_receive (ipv4_send others) (ip_src (drop 14 data)) (frame_tcp data) (frame_tcp_len data) s.
Proof.
  intros [[Hl Hmax] Hty Hih Htot Hdest Hproto]. unfold net_process_packet.
  rewrite (proj2 (Z.ltb_ge (Z.of_nat (length data)) 14)) by lia.
  assert (Hrd : rd16 data 12 s = Done (word16 data 12, s)) by (apply wp_eq, wp_rd16; [lia|done]).
  rewrite (run_bind _ _ _ _ _ Hrd), Hty, u16_small by lia.
  cbn [Z.eqb ETH_TYPE_IPV4 ETH_TYPE_ARP Pos.eqb].
  assert (Hd : length (drop 14 data) = (length data - 14)%nat) by apply length_drop.
  rewrite ipv4_receive_run by (lia || by left).
  unfold ip_dispatch. rewrite Hproto. cbn [Z.eqb IP_PROTO_TCP IP_PROTO_ICMP IP_PROTO_UDP Pos.eqb].
  rewrite u16_small; [done|]. pose proof (swap16_range (word16 (drop 14 data) 2)). unfold ip_total_len in *. lia.
Qed.

(** In-order data reaches the ring of its connection. *)
Section delivery.
Context (ip mac : list Z) (others : net → net).
Context (R : list socket → list socket → Prop) `{!PreOrder R}.
Context (Hothers : ∀ lk fl s, net_ok ip mac lk fl s → after ip mac R lk fl s (others s)).

Lemma wp_tcp_in_order fuel fl src data len s i lst k : let σ := tcp_seg src data len in
  net_ok ip mac false fl s → (Z.to_nat len ≤ length data)%nat → 20 ≤ len →
  tcp_header_len data < len → tcp_lookup (sg_dport σ) (sg_sport σ) src (socket_table s) 0 None = (Some i, lst) →
  socket_table s !! i = Some k → s_tcp_state k = TCP_STATE_ESTABLISHED → s_rcv_nxt k = sg_seq σ →
  ring_count k + Z.of_nat (length (sg_payload σ)) < 8191 →
  has_flag (data !!! 13%nat) TCP_FLAG_RST = false → has_flag (data !!! 13%nat) TCP_FLAG_FIN = false →
  wp (net_tcp_receive (net_ipv4_send others fuel) src data len)
    (λ _ s', net_ok ip mac false fl s' ∧ ∃ k', socket_table s' !! i = Some k' ∧
      ring_bytes k' = ring_bytes k ++ sg_payload σ ∧
      s_rcv_nxt k' = u32 (s_rcv_nxt k + Z.of_nat (length (sg_payload σ))) ∧
      s_tcp_state k' = TCP_STATE_ESTABLISHED) s.
Proof.
  intros σ Hs Hlen Hl Hh Hlook Hk Hst Hseq Hroom Hrst Hfin. unfold net_tcp_receive.
  rewrite (proj2 (Z.ltb_ge len 20)) by lia.
  do 2 (apply wp_bind, wp_rd16; [lia|]). do 2 (apply wp_bind, wp_rd32; [lia|]).
  do 2 (apply wp_bind, wp_rd8; [lia|]). fold (tcp_header_len data).
  assert (0 ≤ tcp_header_len data) by (apply Z.mod_pos_bound; lia).
  rewrite (proj2 (Z.ltb_ge len (tcp_header_len data))) by lia.
  assert (Hpl : Z.of_nat (length (sg_payload σ)) = len - tcp_header_len data)
    by (unfold σ; cbn [sg_payload tcp_seg]; rewrite length_take_drop by lia; lia).
  apply wp_bind. eapply wp_table_lock; [done|]. intros s1 Hs1 Ht1. apply wp_bind, wp_get, wp_bind.
  rewrite <-Ht1 in Hlook, Hk.
  change (swap16 (word16 data 2)) with (sg_dport σ). change (swap16 (word16 data 0)) with (sg_sport σ).
  rewrite Hlook.
  pose proof (tcp_lookup_found (sg_dport σ) (sg_sport σ) src (socket_table s1) 0 None) as Hf.
  rewrite Hlook in Hf. destruct Hf as (k'&_&Hk'&Hv&Hty&Hp). rewrite Nat.sub_0_r, Hk in Hk'. injection Hk' as <-.
  destruct (net_ok_sock _ _ _ _ _ _ _ Hs1 Hk) as [Hok _]. pose proof (sk_ring _ _ Hok Hv) as Hring.
  eapply (rx_segment_in_order ip mac others R Hothers σ (socket_table s1) true false fuel i k); try done; try lia.
  - apply pend_start; [done|apply moves_refl|done].
  - intros s2 k2 (ka&Hqa&Hq2) Hpend. pose proof (proj1 (pend_sock _ _ _ _ _ _ _ _ _ _ Hpend)) as Hi2.
    eapply wp_table_unlock; [apply Hpend|]. intros s3 Hs3 Ht3. split; [done|]. exists k2. rewrite Ht3. split; [done|].
    assert (Hcnt : ring_count ka = ring_count k) by (apply ring_count_view, Hqa).
    split; [|split].
    + rewrite (ring_bytes_view _ _ (quiet_view _ _ Hq2)), <-(ring_bytes_view _ _ (quiet_view _ _ Hqa)).
      rewrite <-bytes_put_all; [by apply ring_bytes_view| |lia]. eapply ring_ok_view; [apply Hqa|done].
    + rewrite (quiet_nxt _ _ Hq2). unfold delivered. cbn. by rewrite (quiet_nxt _ _ Hqa).
    + rewrite (quiet_state _ _ Hq2). unfold delivered.
      destruct (put_all_eq (sg_payload σ) ka) as (w&b&->). cbn. by rewrite (quiet_state _ _ Hqa).
Qed.
End delivery.

(** ** Deadlock *)

Lemma send_segment_spins others fuel i k flags ks s :
  socket_table s !! i = Some k → length (my_ip s) = 4%nat → length (s_remote_ip k) = 4%nat →
  local_address (my_ip s) (s_remote_ip k) → n_kmalloc s = true :: true :: true :: ks →
  socket_table_lock s = true →
  net_tcp_send_segment (net_ipv4_send others (S fuel)) i flags [] 0 s = Stop Spinning.
Proof.
  intros Hk Hip Hr Hloc Hm Hlock. unfold net_tcp_send_segment, kmalloc_of, kmalloc_answer.
  apply stop_bind. cbn [u16 Z.add Z.eqb]. apply wp_bind, wp_get, wp_bind, wp_modify, wp_ret. rewrite Hm.
  cbn [head default from_option id negb tail].
  apply stop_bind. eapply wp_get_sock; [done|]. apply stop_bind, wp_rd_bytes; [cbn; lia|].
  apply stop_bind, wp_fill_buffer; [rewrite length_app, length_tcp_header; by vm_compute|].
  apply stop_bind, wp_bind, wp_get, wp_bind, wp_modify, wp_ret. cbn [n_kmalloc set_n_kmalloc head default from_option id tail].
  apply stop_bind, wp_get. apply stop_first. by apply ipv4_send_spins with ks.
Qed.
