(* ===== verification/NetCalls.v ===== *)
(** * The socket calls keep the invariant of the stack *)

From stdpp Require Import relations.
From S2P Require Import Prelude Bits NetState Net SocketOps NetRing NetSpec NetRecv NetInput NetStream NetFrames.

Section calls.
Context (ip mac : list Z) (others : net → net).
Context (R : list socket → list socket → Prop) `{!PreOrder R}.
Context (Hothers : ∀ lk fl s, net_ok ip mac lk fl s → after ip mac R lk fl s (others s)).
Abbreviation ok := (net_ok ip mac).
Abbreviation send := (ipv4_send others).

(** [m] finishes, upholds the invariant, and its result satisfies [P]. *)
Definition upholds {A} (lk fl : bool) (m : NM A) (P : A → Prop) : Prop :=
  ∀ s (Q : A → net → Prop), ok lk fl s → (∀ a s', P a → ok lk fl s' → Q a s') → wp m Q s.

Lemma upholds_aside {A} lk fl (m : NM A) P : aside ip mac R m P → upholds lk fl m P.
Proof.
  intros Hm s Q Hs HQ. apply Hm with lk fl s; [by apply after_refl|].
  intros a s' Ha [Hs' _]. by apply HQ.
Qed.

Lemma upholds_ret {A} lk fl (a : A) (P : A → Prop) : P a → upholds lk fl (mret a) P.
Proof. intros Ha s Q Hs HQ. apply wp_ret. by apply HQ. Qed.

Lemma upholds_bind {A B} lk fl (m : NM A) (f : A → NM B) P P' :
  upholds lk fl m P → (∀ a, P a → upholds lk fl (f a) P') → upholds lk fl (m ≫= f) P'.
Proof. intros Hm Hf s Q Hs HQ. apply wp_bind, Hm; [done|]. intros a s' Ha Hs'. by apply (Hf a Ha). Qed.

Lemma upholds_mono {A} lk fl (m : NM A) (P P' : A → Prop) :
  upholds lk fl m P → (∀ a, P a → P' a) → upholds lk fl m P'.
Proof. intros Hm HP s Q Hs HQ. apply Hm; [done|]. intros a s' Ha. apply HQ. by apply HP. Qed.

Lemma upholds_get lk fl : upholds lk fl get (ok lk fl).
Proof. intros s Q Hs HQ. apply wp_get. by apply HQ. Qed.

Lemma upholds_get_sock lk fl i : (i < MAX_SOCKETS)%nat → upholds lk fl (get_sock i) (sock_ok ip).
Proof.
  intros Hi s Q Hs HQ. destruct (net_ok_lookup _ _ _ _ _ i Hs Hi) as [k Hk].
  eapply wp_get_sock; [done|]. apply HQ; [|done]. by apply (net_ok_sock _ _ _ _ _ _ _ Hs Hk).
Qed.

Lemma upholds_upd lk fl i f : (i < MAX_SOCKETS)%nat → (∀ k, sock_ok ip k → sock_ok ip (f k)) →
  upholds lk fl (upd_sock i f) (λ _, True).
Proof.
  intros Hi Hf s Q Hs HQ. destruct (net_ok_lookup _ _ _ _ _ i Hs Hi) as [k Hk].
  eapply wp_upd_sock; [done|]. apply HQ; [done|]. apply net_ok_insert; [done|].
  apply Hf. by apply (net_ok_sock _ _ _ _ _ _ _ Hs Hk).
Qed.

(** Fields the invariant does not speak of. *)
Definition core (k : socket) :=
  (s_valid k, s_type k, s_remote_ip k, (s_rx_buf k, s_rx_buf_size k, s_rx_read_ptr k, s_rx_write_ptr k), links k).

Lemma sock_ok_core k k' : core k' = core k → sock_ok ip k → sock_ok ip k'.
Proof.
  intros [= E1 E2 E3 E4 E5 E6 E7 E8 E9 E10 E11] [H1 H2 Ha H3 H4 H5 H6 H7].
  split; rewrite ?E1, ?E2, ?E3, ?E8, ?E9, ?E10, ?E11; try done.
  intros Hv. destruct (H1 Hv). split; congruence.
Qed.

Lemma upholds_upd_view lk fl i f : (i < MAX_SOCKETS)%nat → (∀ k, core (f k) = core k) →
  upholds lk fl (upd_sock i f) (λ _, True).
Proof. intros Hi Hf. apply upholds_upd; [done|]. intros k. by apply sock_ok_core. Qed.

Lemma upholds_when lk fl (b : bool) m : upholds lk fl m (λ _, True) → upholds lk fl (when b m) (λ _, True).
Proof. intros Hm. destruct b; [done|]. by apply upholds_ret. Qed.

Lemma upholds_locked fl m : upholds true false m (λ _, True) → upholds false fl (locked m) (λ _, True).
Proof.
  intros Hm s Q Hs HQ. unfold locked. apply wp_bind. eapply wp_table_lock; [done|]. intros s1 Hs1 _.
  apply wp_bind, Hm; [done|]. intros [] s2 _ Hs2. eapply wp_table_unlock; [done|].
  intros s3 Hs3 _. by apply HQ.
Qed.

(** The socket of a descriptor. *)
Lemma file_at_ok lk fl s fd i g : ok lk fl s → file_at fd s = Some (FSocket i g) → (i < MAX_SOCKETS)%nat.
Proof.
  intros Hs. unfold file_at. case_match; [done|].
  destruct (n_files s !! Z.to_nat fd) as [[f|]|] eqn:Hf; cbn; try done.
  intros [= ->]. by eapply no_files.
Qed.

(** The entry of the descriptor is not a dangling one. *)
Definition fd_sane (fd : Z) (s : net) : Prop := file_at fd s ≠ Some FFreed.
(** ... nor does it belong to another kind of file with data. *)
Definition fd_is_socket (fd : Z) (s : net) : Prop := fd_sane fd s ∧ file_at fd s ≠ Some (FOther true).

Lemma wp_sock_of_fd lk fl fd s (Q : Z + nat * Z → net → Prop) : ok lk fl s → fd_sane fd s →
  (∀ e, Q (inl e) s) →
  (∀ i g k, file_at fd s = Some (FSocket i g) → socket_table s !! i = Some k → s_valid k = true →
    (i < MAX_SOCKETS)%nat → Q (inr (i, g)) s) →
  wp (sock_of_fd fd) Q s.
Proof.
  intros Hs Hfd He HQ. unfold sock_of_fd. apply wp_bind, wp_get. unfold fd_sane in Hfd.
  destruct (file_at fd s) as [[i g|b|]|] eqn:Hf; try done; [|by apply wp_ret|by apply wp_ret].
  pose proof (file_at_ok _ _ _ _ _ _ Hs Hf) as Hi. destruct (net_ok_lookup _ _ _ _ _ i Hs Hi) as [k Hk].
  apply wp_bind. eapply wp_get_sock; [done|]. apply wp_ret. destruct (s_valid k) eqn:Hv; [|done].
  by eapply HQ.
Qed.

Lemma wp_fd_socket lk fl fd s (Q : Z + nat → net → Prop) : ok lk fl s → fd_is_socket fd s →
  (∀ e, Q (inl e) s) →
  (∀ i k, socket_table s !! i = Some k → s_valid k = true → (i < MAX_SOCKETS)%nat → Q (inr i) s) →
  wp (fd_socket fd) Q s.
Proof.
  intros Hs [Hsane Hfd] He HQ. unfold fd_socket. apply wp_bind, wp_get. unfold fd_sane in Hsane.
  destruct (file_at fd s) as [[i g|[]|]|] eqn:Hf; try done; [|by apply wp_ret|by apply wp_ret].
  pose proof (file_at_ok _ _ _ _ _ _ Hs Hf) as Hi. destruct (net_ok_lookup _ _ _ _ _ i Hs Hi) as [k Hk].
  apply wp_bind. eapply wp_get_sock; [done|]. apply wp_ret. destruct (s_valid k) eqn:Hv; [|done].
  by eapply HQ.
Qed.

(** ** Calls that change one socket *)

Lemma wp_bind_call fl fd addr s : ok false fl s → fd_sane fd s →
  wp (sys_bind fd addr) (λ _ s', ok false fl s') s.
Proof.
  intros Hs Hfd. unfold sys_bind, with_fd. apply wp_bind. eapply wp_sock_of_fd; [done..|by intros; apply wp_ret|].
  intros i g k _ Hk Hv Hi. eapply (upholds_bind false fl _ _ _ (λ _, True)); [by apply upholds_get_sock| |done|done].
  intros k' _. do 3 (case_match; [by apply upholds_ret|]). destruct (ua_sin addr) as [[port a]|]; [|by apply upholds_ret].
  eapply upholds_bind; [apply upholds_locked, upholds_upd_view; done|]. intros [] _. by apply upholds_ret.
Qed.

Lemma wp_listen_call fl fd s : ok false fl s → fd_sane fd s →
  wp (sys_listen fd) (λ _ s', ok false fl s') s.
Proof.
  intros Hs Hfd. unfold sys_listen, with_fd. apply wp_bind. eapply wp_sock_of_fd; [done..|by intros; apply wp_ret|].
  intros i g k _ Hk Hv Hi. eapply (upholds_bind false fl _ _ _ (λ _, True)); [by apply upholds_get_sock| |done|done].
  intros k' _. do 2 (case_match; [by apply upholds_ret|]).
  eapply upholds_bind; [apply upholds_locked, upholds_upd_view; done|]. intros [] _. by apply upholds_ret.
Qed.

Lemma wp_setsockopt_call fl fd level opt aok v s : ok false fl s → fd_is_socket fd s →
  wp (sys_setsockopt fd level opt aok v) (λ _ s', ok false fl s') s.
Proof.
  intros Hs Hfd. unfold sys_setsockopt. apply wp_bind. eapply wp_fd_socket; [done..|by intros; apply wp_ret|].
  intros i k Hk Hv Hi. do 2 (case_match; [by apply wp_ret|]). destruct v; [|by apply wp_ret].
  case_match; [|by apply wp_ret].
  eapply (upholds_bind false fl _ _ _ (λ _, True)); [by apply upholds_upd_view| |done|done].
  intros [] _. by apply upholds_ret.
Qed.

Lemma wp_getsockopt_call fl fd level opt aok n ook s : ok false fl s → fd_is_socket fd s →
  wp (sys_getsockopt fd level opt aok n ook) (λ _ s', ok false fl s') s.
Proof.
  intros Hs Hfd. unfold sys_getsockopt. apply wp_bind. eapply wp_fd_socket; [done..|by intros; apply wp_ret|].
  intros i k Hk Hv Hi. do 2 (case_match; [by apply wp_ret|]). destruct n as [n|]; [|by apply wp_ret].
  case_match; [by apply wp_ret|].
  eapply (upholds_bind false fl _ _ (λ _, True) (λ _, True)); [| |done|done].
  - unfold socket_option. eapply upholds_bind; [by apply upholds_get_sock|]. intros k' _.
    do 2 (case_match; [by apply upholds_ret|]). case_match.
    + eapply upholds_bind; [by apply upholds_upd_view|]. intros [] _. by apply upholds_ret.
    + case_match; by apply upholds_ret.
  - intros v _. by apply upholds_ret.
Qed.

(** ** Calls that send *)

Lemma wp_kmalloc_of lk fl n (Q : bool → net → Prop) s : ok lk fl s →
  (∀ b s', ok lk fl s' → socket_table s' = socket_table s → Q b s') → wp (kmalloc_of n) Q s.
Proof.
  intros Hs HQ. unfold kmalloc_of, kmalloc_answer. wp_steps; apply HQ; try done. by destruct Hs.
Qed.

Lemma wp_send_segment lk fl i k flags payload len (Q : unit → net → Prop) s : ok lk fl s →
  socket_table s !! i = Some k → s_type k = SOCKET_TYPE_TCP → 0 ≤ len ≤ 65495 →
  (Z.to_nat len ≤ length payload)%nat → (∀ s', ok lk fl s' → Q () s') →
  wp (net_tcp_send_segment send i flags payload len) Q s.
Proof.
  intros Hs Hk Hty Hlen Hpay HQ. destruct (net_ok_sock _ _ _ _ _ _ _ Hs Hk) as [Hok Hi].
  unfold net_tcp_send_segment. apply wp_bind. eapply wp_kmalloc_of; [done|]. intros [] s1 Hs1 Ht1; [|by apply wp_ret, HQ].
  cbn [negb]. apply wp_bind. eapply wp_get_sock; [by rewrite Ht1|]. apply wp_bind, wp_rd_bytes; [lia|].
  apply wp_bind, wp_fill_buffer;
    [rewrite length_app, length_tcp_header, length_take_drop, u16_small by lia; lia|].
  eapply (upholds_bind lk fl _ _ (λ _, True) (λ _, True)); [by apply upholds_aside, aside_kmalloc_answer| |done|by intros [] s'; auto].
  intros ok2 _. eapply upholds_bind; [apply upholds_get|]. intros s2 _.
  eapply upholds_bind; [eapply upholds_aside, (aside_ipv4_send ip mac others R Hothers)|].
  { by apply (sk_remote _ _ Hok). }
  { rewrite u16_small; lia. }
  { rewrite length_app, length_tcp_header, length_take_drop, u16_small by lia. lia. }
  intros [] _. eapply upholds_bind; [by apply upholds_when, upholds_upd_view|]. intros [] _.
  eapply upholds_bind; [by apply upholds_upd_view|]. intros [] _. apply upholds_when.
  eapply upholds_bind; [apply upholds_get|]. intros s3 _. apply upholds_upd_view; [done|..]; intros k'; by case_match.
Qed.

Lemma wp_tcp_send_fin lk fl i k (Q : bool → net → Prop) s : ok lk fl s →
  socket_table s !! i = Some k → s_type k = SOCKET_TYPE_TCP → (∀ b s', ok lk fl s' → Q b s') →
  wp (tcp_send_fin others i) Q s.
Proof.
  intros Hs Hk Hty HQ. destruct (net_ok_sock _ _ _ _ _ _ _ Hs Hk) as [Hok Hi].
  assert (Hfin : ∀ st, wp (upd_sock i (set_s_tcp_state st);;
    net_tcp_send_segment send i (TCP_FLAG_FIN |! TCP_FLAG_ACK) [] 0;; mret true) Q s).
  { intros st. apply wp_bind. eapply wp_upd_sock; [done|]. apply wp_bind.
    eapply wp_send_segment with (k := set_s_tcp_state st k); [| |done|lia|cbn; lia|].
    - apply net_ok_insert; [done|]. by eapply sock_ok_view; [..|exact Hok].
    - cbn. apply list_lookup_insert_eq. by eapply lookup_lt_Some.
    - intros s' Hs'. by apply wp_ret, HQ. }
  unfold tcp_send_fin. apply wp_bind. eapply wp_get_sock; [done|].
  case_match; [apply Hfin|]. case_match; [apply Hfin|]. by apply wp_ret, HQ.
Qed.

Lemma wp_shutdown_locked fl i k how s (Q : unit → net → Prop) : ok true fl s →
  socket_table s !! i = Some k → (∀ s', ok true fl s' → Q () s') →
  wp (shutdown_locked others i how) Q s.
Proof.
  intros Hs Hk HQ. destruct (net_ok_sock _ _ _ _ _ _ _ Hs Hk) as [_ Hi]. unfold shutdown_locked.
  eapply (upholds_bind true fl _ _ (λ _, True) (λ _, True)); [by apply upholds_when, upholds_upd_view| |done|by intros [] s'; auto].
  intros [] _. eapply upholds_bind; [apply upholds_when|intros [] _; apply upholds_aside, aside_wake].
  eapply upholds_bind; [by apply upholds_upd_view|]. intros [] _. clear s Hs Hk k Q HQ. intros s Q Hs HQ.
  destruct (net_ok_lookup _ _ _ _ _ i Hs Hi) as [k Hk].
  apply wp_bind. eapply wp_get_sock; [done|]. apply wp_bind.
  assert (Hfin : ∀ t, ok true fl t → socket_table t = socket_table s →
    wp (when (s_type k =? SOCKET_TYPE_TCP) (_ ← tcp_send_fin others i; mret ())) Q t).
  { intros t Ht Het. apply wp_when; [|intros _; by apply HQ]. intros Hty%Z.eqb_eq. apply wp_bind.
    eapply wp_tcp_send_fin; [done|by rewrite Het|done|]. intros b s' Hs'. by apply wp_ret, HQ. }
  destruct (s_peer k) as [p|]; [|by apply wp_ret, Hfin].
  apply wp_modify, Hfin; [|done]. by destruct Hs.
Qed.

Lemma wp_shutdown_call fl fd how s : ok false fl s → fd_is_socket fd s →
  wp (sys_shutdown others fd how) (λ _ s', ok false fl s') s.
Proof.
  intros Hs Hfd. unfold sys_shutdown. apply wp_bind. eapply wp_fd_socket; [done..|by intros; apply wp_ret|].
  intros i k Hk Hv Hi. case_match; [by apply wp_ret|]. apply wp_bind. eapply wp_get_sock; [done|].
  case_match; [by apply wp_ret|]. apply wp_bind. unfold locked. apply wp_bind. eapply wp_table_lock; [done|].
  intros s1 Hs1 Ht1. apply wp_bind. eapply wp_shutdown_locked; [done|by rewrite Ht1|]. intros s2 Hs2.
  eapply wp_table_unlock; [done|]. intros s3 Hs3 _. by apply wp_ret.
Qed.

(** A datagram to this host is received by the call that sends it. *)
Lemma wp_ipv4_send_local fuel dest p len (Q : unit → net → Prop) fl s : ok false fl s →
  local_address ip dest → length dest = 4%nat → 0 ≤ len ≤ 65515 → (Z.to_nat len ≤ length p)%nat →
  (∀ s', ok false fl s' → Q () s') →
  wp (net_ipv4_send others (S fuel) dest IP_PROTO_UDP p len) Q s.
Proof.
  intros Hs Hloc Hd Hlen Hp HQ. cbn [net_ipv4_send]. rewrite u16_small by lia.
  apply wp_bind. eapply wp_kmalloc_of; [done|]. intros [] s1 Hs1 _; [|by apply wp_ret, HQ].
  cbn [negb]. apply wp_bind, wp_get, wp_bind, wp_modify, wp_bind, wp_rd_bytes; [lia|].
  destruct (net_ok_lens _ _ _ _ _ Hs1) as [Hipl _]. pose proof (length_local_ip dest s1 Hipl) as Hsrc.
  set (b := take _ (drop 0 p)). assert (Hb : length b = Z.to_nat len) by (apply length_take_drop; lia).
  apply wp_bind, wp_fill_buffer; [rewrite length_app, length_ipv4_header, Hb by done; lia|].
  pose proof (no_ip _ _ _ _ _ Hs1) as Hip.
  replace (bool_decide _ || bool_decide _) with true.
  2: { symmetry. apply orb_true_iff. rewrite !bool_decide_eq_true, Hip. destruct Hloc; [by left|by right]. }
  set (csum := ip_checksum _). set (s2 := set_ip_id _ s1).
  assert (Hs2 : ok false fl s2) by by destruct Hs1.
  destruct (built_fields (20 + len) (ip_id s1) IP_PROTO_UDP csum (local_ip dest s1) dest b)
    as (F1&F2&F3&F4&F5&F6); [lia|done..|].
  unfold wp. rewrite ipv4_receive_run; rewrite ?F1, ?F2, ?F4; try lia.
  2: { rewrite length_app, length_ipv4_header, Hb by done. lia. }
  2: { change (my_ip s2) with (my_ip s1). rewrite Hip. destruct Hloc as [Hloc| ->]; [by right|by left]. }
  unfold ip_dispatch. rewrite F1, F2, F3, F5. change (Z.to_nat 20) with 20%nat. rewrite F6.
  cbn [Z.eqb IP_PROTO_ICMP IP_PROTO_UDP Pos.eqb].
  eapply wp_mono; [apply (wp_udp_receive ip mac R fl _ b); [done| |done]|].
  - rewrite u16_small; lia.
  - intros [] s' [Hs' _]. by apply HQ.
Qed.

Lemma wp_udp_send fl i dest port payload len (Q : unit → net → Prop) s : ok false fl s →
  (i < MAX_SOCKETS)%nat → length dest = 4%nat → 0 ≤ len → (Z.to_nat len ≤ length payload)%nat →
  (∀ s', ok false fl s' → Q () s') → wp (net_udp_send send i dest port payload len) Q s.
Proof.
  intros Hs Hi Hd Hlen Hpay HQ. unfold net_udp_send.
  destruct (Z.ltb_spec 1600 (8 + len)); [by apply wp_ret, HQ|].
  destruct (net_ok_lookup _ _ _ _ _ i Hs Hi) as [k Hk]. apply wp_bind. eapply wp_get_sock; [done|].
  apply wp_bind, wp_rd_bytes; [lia|]. set (p := _ ++ _).
  assert (Hp : length p = Z.to_nat (8 + len)).
  { unfold p. rewrite !length_app, length_take_drop by lia. cbn [length le16]. lia. }
  destruct (decide (head dest = Some 127 ∨ dest = ip)) as [Hloc|Hn].
  - apply (wp_ipv4_send_local 1) with fl; try done; lia.
  - eapply (upholds_aside false fl _ _ (aside_ipv4_send ip mac others R Hothers 2 dest IP_PROTO_UDP p (8 + len) _ _ _)); [done|].
    intros [] s' _. apply HQ.
    Unshelve.
    + split; [done|..]; intros ?; apply Hn; [by left|by right].
    + lia.
    + lia.
Qed.

(** ** Calls that read *)

Lemma skip_sock_ok n k : s_valid k = true → sock_ok ip k → sock_ok ip (skip n k).
Proof. intros Hv [Hr]. split; try done. intros _. by apply skip_ok, Hr. Qed.

Lemma wp_ring_get_any lk fl i k (Q : Z → net → Prop) s : ok lk fl s → socket_table s !! i = Some k →
  s_valid k = true →
  (∀ b s', ok lk fl s' → socket_table s' !! i = Some (skip 1 k) → Q b s') → wp (ring_get i) Q s.
Proof.
  intros Hs Hk Hv HQ. destruct (net_ok_sock _ _ _ _ _ _ _ Hs Hk) as [Hok Hi].
  destruct (sk_ring _ _ Hok Hv) as [Hsz Hl Hrd Hwr].
  unfold ring_get. apply wp_bind. eapply wp_get_sock; [done|].
  destruct (lookup_lt_is_Some_2 (s_rx_buf k) (Z.to_nat (s_rx_read_ptr k))) as [b Hb]; [lia|].
  apply wp_bind. eapply wp_deref; [done|]. apply wp_bind. eapply wp_upd_sock; [done|]. apply wp_ret.
  apply HQ.
  - apply net_ok_insert; [done|]. by apply (skip_sock_ok 1).
  - apply list_lookup_insert_eq. by eapply lookup_lt_Some.
Qed.

Lemma wp_ring_get_n_any lk fl i n k (Q : list Z → net → Prop) s : ok lk fl s →
  socket_table s !! i = Some k → s_valid k = true →
  (∀ l s' k', ok lk fl s' → socket_table s' !! i = Some k' → s_valid k' = true → Q l s') →
  wp (ring_get_n i n) Q s.
Proof.
  revert k s Q. induction n as [|n IH]; intros k s Q Hs Hk Hv HQ; cbn [ring_get_n]; [by apply wp_ret; eapply HQ|].
  apply wp_bind. eapply wp_ring_get_any; [done..|]. intros b s1 Hs1 Hk1.
  apply wp_bind. eapply IH; [done..|]. intros l s2 k2 Hs2 Hk2 Hv2. apply wp_ret. by eapply HQ.
Qed.

Lemma wp_ring_get_some_any lk fl i n k (Q : list Z → net → Prop) s : ok lk fl s →
  socket_table s !! i = Some k → s_valid k = true → (∀ l s', ok lk fl s' → Q l s') →
  wp (ring_get_some i n) Q s.
Proof.
  revert k s Q. induction n as [|n IH]; intros k s Q Hs Hk Hv HQ; cbn [ring_get_some]; [by apply wp_ret, HQ|].
  apply wp_bind. eapply wp_get_sock; [done|]. case_match; [by apply wp_ret, HQ|].
  apply wp_bind. eapply wp_ring_get_any; [done..|]. intros b s1 Hs1 Hk1.
  apply wp_bind. eapply IH; [done..|]. intros l s2 Hs2. by apply wp_ret, HQ.
Qed.

Lemma wp_get_datagram_any lk fl i n k (Q : list Z * Z * list Z → net → Prop) s : ok lk fl s →
  socket_table s !! i = Some k → s_valid k = true → (∀ d s', ok lk fl s' → Q d s') →
  wp (ring_get_datagram i n) Q s.
Proof.
  intros Hs Hk Hv HQ. unfold ring_get_datagram.
  apply wp_bind. eapply wp_ring_get_n_any; [done..|]. clear k s Hs Hk Hv. intros a s k Hs Hk Hv.
  do 4 (apply wp_bind; eapply wp_ring_get_any; [eassumption..|]; clear Hs Hk; intros ? ? Hs Hk).
  apply wp_bind. eapply wp_ring_get_n_any; [done..|]. intros l s5 k5 Hs5 Hk5 Hv5.
  destruct (net_ok_sock _ _ _ _ _ _ _ Hs5 Hk5) as [Hok5 _].
  apply wp_bind, wp_when; intros _; [|by apply wp_ret, HQ].
  eapply wp_upd_sock; [done|]. apply wp_ret, HQ. apply net_ok_insert; [done|]. by apply skip_sock_ok.
Qed.

(** There is something to read, or the end of the stream. *)
Definition recv_ready (k : socket) : Prop :=
  s_rx_read_ptr k ≠ s_rx_write_ptr k ∨
  s_type k = SOCKET_TYPE_TCP ∧
    (s_tcp_state k = TCP_STATE_CLOSED ∨ s_tcp_state k = TCP_STATE_CLOSE_WAIT ∨ s_closed k = true).

Lemma wp_recv_wait sleeps i k (Q : bool → net → Prop) s : socket_table s !! i = Some k → recv_ready k →
  (∀ b, Q b s) → wp (recv_wait others sleeps i) Q s.
Proof.
  intros Hk Hr HQ. destruct sleeps; cbn [recv_wait]; apply wp_bind; (eapply wp_get_sock; [done|]);
    (destruct (Z.eqb_spec (s_rx_read_ptr k) (s_rx_write_ptr k)) as [He|]; cbn [negb]; [|by apply wp_ret]).
  all: destruct Hr as [?|[-> Hr]]; [done|]; rewrite Z.eqb_refl; cbn [andb].
  all: replace (_ || _ || _) with true; [by apply wp_ret|]; symmetry.
  all: destruct Hr as [-> | [-> | ->]]; rewrite ?orb_true_r; done.
Qed.

Lemma wp_recv_inet fl sleeps i k len out s : ok false fl s → socket_table s !! i = Some k →
  s_valid k = true → recv_ready k → wp (recv_inet others sleeps i len out) (λ _ s', ok false fl s') s.
Proof.
  intros Hs Hk Hv Hr. unfold recv_inet. apply wp_bind. eapply wp_recv_wait; [done..|].
  intros [] ; [|by apply wp_ret]. cbn [negb].
  apply wp_bind. eapply wp_kmalloc_of; [done|]. intros [] s1 Hs1 Ht1; [|by apply wp_ret]. cbn [negb].
  assert (Hk1 : socket_table s1 !! i = Some k) by by rewrite Ht1.
  apply wp_bind. eapply wp_get_sock; [done|]. apply wp_bind.
  assert (Hend : ∀ (r : list Z * option (Z * list Z)) s2, ok false fl s2 →
    wp (if negb out then mret (- EFAULT, [], r.2) else
        io_notify;; mret (Z.of_nat (length r.1), r.1, r.2))
      (λ _ s', ok false fl s') s2).
  { intros r s2 Hs2. destruct out; cbn [negb]; [|by apply wp_ret].
    apply wp_bind, wp_modify, wp_ret. by destruct Hs2. }
  destruct (s_type k =? SOCKET_TYPE_TCP); apply wp_bind.
  - eapply wp_ring_get_some_any; [done..|]. intros l s2 Hs2. by apply wp_ret, Hend.
  - eapply wp_get_datagram_any; [done..|]. intros d s2 Hs2. by apply wp_ret, Hend.
Qed.

(** The socket of [fd], if it is one, is an IP socket that can be read. *)
Definition fd_ready (fd : Z) (s : net) : Prop :=
  ∀ i g k, file_at fd s = Some (FSocket i g) → socket_table s !! i = Some k → s_valid k = true →
    s_domain k ≠ AF_UNIX ∧ recv_ready k.

Lemma wp_recvfrom_call fl sleeps fd len aok ook s : ok false fl s → fd_sane fd s → fd_ready fd s →
  wp (sys_recvfrom others sleeps fd len aok ook) (λ _ s', ok false fl s') s.
Proof.
  intros Hs Hfd Hr. unfold sys_recvfrom. apply wp_bind. eapply wp_sock_of_fd; [done..|by intros; apply wp_ret|].
  intros i g k Hf Hk Hv Hi. destruct aok; cbn [negb]; [|by apply wp_ret].
  apply wp_bind. eapply wp_get_sock; [done|]. destruct (Hr i g k Hf Hk Hv) as [Hd Hrr].
  rewrite (proj2 (Z.eqb_neq _ _) Hd). by eapply wp_recv_inet.
Qed.

(** ** Sending *)

(** What the user passes is well formed: bytes of the announced length. *)
Definition buf_sane (b : user_buf) : Prop :=
  0 ≤ ub_len b ∧ ∀ n l, ub_copy b n = Some l → Z.of_nat (length l) = n.
Definition addr_sane (a : user_addr) : Prop := ∀ p l, ua_sin a = Some (p, l) → length l = 4%nat.
Definition fd_inet (fd : Z) (s : net) : Prop :=
  ∀ i g k, file_at fd s = Some (FSocket i g) → socket_table s !! i = Some k → s_valid k = true →
    s_domain k ≠ AF_UNIX.

Lemma wp_with_copy fl b len f s : ok false fl s →
  (∀ l s', ub_copy b len = Some l → ok false fl s' → socket_table s' = socket_table s →
    wp (f l) (λ _ s', ok false fl s') s') → wp (with_copy b len f) (λ _ s', ok false fl s') s.
Proof.
  intros Hs Hf. unfold with_copy. apply wp_bind. eapply wp_kmalloc_of; [done|].
  intros [] s1 Hs1 Ht1; [|by apply wp_ret]. cbn [negb].
  destruct (ub_copy b len) as [l|] eqn:Hl; [by apply Hf | by apply wp_ret].
Qed.

Lemma wp_sendto_call fl sleeps fd b dest s : ok false fl s → fd_sane fd s → fd_inet fd s →
  buf_sane b → (∀ a, dest = Some a → addr_sane a) →
  wp (sys_sendto others sleeps fd b dest) (λ _ s', ok false fl s') s.
Proof.
  intros Hs Hfd Hin [Hb0 Hb] Ha. unfold sys_sendto, with_fd. apply wp_bind.
  eapply wp_sock_of_fd; [done..|by intros; apply wp_ret|]. intros i g k Hf Hk Hv Hi.
  pose proof (Hin i g k Hf Hk Hv) as Hd.
  pose proof (sk_addr _ _ (proj1 (net_ok_sock _ _ _ _ _ _ _ Hs Hk))) as Hrem.
  apply wp_bind. eapply wp_get_sock; [done|]. do 2 (case_match; [by apply wp_ret|]).
  rewrite (proj2 (Z.eqb_neq _ _) Hd). set (len := if 1400 <? ub_len b then _ else _).
  assert (Hlen : 0 ≤ len ≤ 1400) by (unfold len; destruct (Z.ltb_spec 1400 (ub_len b)); lia).
  apply wp_with_copy; [done|]. intros l s1 Hl Hs1 Ht1. pose proof (Hb _ _ Hl) as Hll.
  rewrite u16_small by lia.
  assert (Hk1 : socket_table s1 !! i = Some k) by by rewrite Ht1.
  assert (Hudp : ∀ a p, length a = 4%nat →
    wp (net_udp_send send i a p l len;; mret len) (λ _ s', ok false fl s') s1).
  { intros a p Hal. apply wp_bind. eapply wp_udp_send; [done..|lia|lia|]. intros s' Hs'. by apply wp_ret. }
  set (un := if negb (s_connected k) then _ else _).
  assert (Hun : wp un (λ _ s', ok false fl s') s1).
  { unfold un. case_match; [by apply wp_ret|]. destruct (Z.eqb_spec (s_type k) SOCKET_TYPE_TCP); [|by apply Hudp].
    apply wp_bind. eapply wp_send_segment; [done..|lia|lia|]. intros s' Hs'. by apply wp_ret. }
  destruct dest as [a|]; [|exact Hun]. case_match; [exact Hun|]. case_match; [by apply wp_ret|].
  destruct (ua_sin a) as [[port da]|] eqn:Hsin; [|by apply wp_ret]. case_match; [by apply wp_ret|].
  apply Hudp. by eapply Ha.
Qed.
End calls.
