(* ===== verification/NetLife.v ===== *)
(** * Sockets come and go: socket, socketpair, accept, connect, close *)

From stdpp Require Import relations.
From S2P Require Import Prelude Bits NetState Net SocketOps NetRing NetSpec NetRecv NetInput NetStream NetFrames NetCalls.

Section life.
Context (ip mac : list Z) (others : net → net).
Context (R : list socket → list socket → Prop) `{!PreOrder R}.
Context (Hothers : ∀ lk fl s, net_ok ip mac lk fl s → after ip mac R lk fl s (others s)).
Abbreviation ok := (net_ok ip mac).

(** The invariant holds but for socket [i], which is [k]. *)
Definition hole (lk fl : bool) (i : nat) (k : socket) (s : net) : Prop :=
  socket_table s !! i = Some k ∧ (∃ k0, sock_ok ip k0) ∧
  ∀ k', sock_ok ip k' → ok lk fl (with_sock i k' s).

Lemma hole_open lk fl i k s : ok lk fl s → socket_table s !! i = Some k → hole lk fl i k s.
Proof.
  intros Hs Hk. destruct (net_ok_sock _ _ _ _ _ _ _ Hs Hk). split; [done|]. split; [by exists k|].
  intros k' Hk'. by apply net_ok_insert.
Qed.

Lemma hole_close lk fl i k s : hole lk fl i k s → sock_ok ip k → ok lk fl s.
Proof. intros (Hk&_&Hs) Hok. rewrite <-(with_sock_id i k s Hk). by apply Hs. Qed.

Lemma wp_hole_upd lk fl i k f (Q : unit → net → Prop) s : hole lk fl i k s →
  (∀ s', hole lk fl i (f k) s' → Q () s') → wp (upd_sock i f) Q s.
Proof.
  intros (Hk&Hz&Hs) HQ. eapply wp_upd_sock; [done|]. fold (with_sock i (f k) s). apply HQ. split; [|split; [done|]].
  - apply with_sock_lookup. by eapply lookup_lt_Some.
  - intros k' Hk'. rewrite with_sock_twice. by apply Hs.
Qed.

Lemma wp_hole_kmalloc lk fl i k (Q : bool → net → Prop) s : hole lk fl i k s →
  (∀ b s', hole lk fl i k s' → Q b s') → wp kmalloc_answer Q s.
Proof.
  intros (Hk&Hz&Hs) HQ. unfold kmalloc_answer. apply wp_bind, wp_get, wp_bind, wp_modify, wp_ret.
  apply HQ. do 2 (split; [done|]). intros k' Hk'. by destruct (Hs k' Hk').
Qed.

Lemma wp_hole_lock fl i k (Q : bool → net → Prop) s : hole false fl i k s →
  (∀ s', hole true false i k s' → Q fl s') → wp table_lock_irqsave Q s.
Proof.
  intros (Hk&[k0 Hk0]&Hs) HQ. destruct (Hs k0 Hk0) as [_ _ Hl Hf _ _ _ _ _ _ _ _]. cbn in Hl, Hf.
  unfold table_lock_irqsave. apply wp_bind, wp_get, wp_bind, wp_modify. rewrite Hl.
  apply wp_bind, wp_modify, wp_ret. rewrite Hf. apply HQ. split; [done|]. split; [by exists k0|].
  intros k' Hk'. by destruct (Hs k' Hk').
Qed.

Lemma wp_hole_unlock fl fl' i k (Q : unit → net → Prop) s : hole true fl' i k s →
  (∀ s', hole false fl i k s' → Q () s') → wp (table_unlock_irqrestore fl) Q s.
Proof.
  intros (Hk&Hz&Hs) HQ. apply wp_modify, HQ. do 2 (split; [done|]). intros k' Hk'. by destruct (Hs k' Hk').
Qed.

(** ** Allocation *)

(** A socket that is not open and has no buffer. *)
Lemma closed_ok k : sock_ok ip k → sock_ok ip (set_s_valid false (set_s_rx_buf [] k)).
Proof. intros []. by split. Qed.

(** A new socket, with or without a buffer. *)
Lemma fresh_ok : ip ≠ [0; 0; 0; 0] → ∀ k, links k = links zero_socket →
  s_remote_ip k = [0; 0; 0; 0] → (s_valid k = true → ring_ok k) → sock_ok ip k.
Proof.
  intros Hip k [= L1 L2 L3 L4] L5 L6. split; rewrite ?L1, ?L2, ?L3, ?L4, ?L5; try done.
  intros j Hj. cbn in Hj. lia.
Qed.

Lemma net_ok_files lk fl s fd i g : ok lk fl s → (i < MAX_SOCKETS)%nat →
  ok lk fl (set_n_files (<[fd := Some (FSocket i g)]> (n_files s)) s).
Proof.
  intros [] Hi. split; try done. cbn. intros fd' i' g' Hl.
  destruct (decide (fd' = fd)) as [->|Hne].
  - assert (fd < length (n_files s))%nat by (apply lookup_lt_Some in Hl; by rewrite length_insert in Hl).
    rewrite list_lookup_insert_eq in Hl by done. by injection Hl as <- <-.
  - rewrite list_lookup_insert_ne in Hl by done. by eapply no_files.
Qed.

Lemma net_ok_files_other lk fl s fd f : ok lk fl s → (∀ i g, f ≠ Some (FSocket i g)) →
  ok lk fl (set_n_files (<[fd := f]> (n_files s)) s).
Proof.
  intros [] Hf. split; try done. cbn. intros fd' i' g' Hl.
  destruct (decide (fd' = fd)) as [->|Hne].
  - assert (fd < length (n_files s))%nat by (apply lookup_lt_Some in Hl; by rewrite length_insert in Hl).
    rewrite list_lookup_insert_eq in Hl by done. injection Hl as Hl. by destruct (Hf i' g').
  - rewrite list_lookup_insert_ne in Hl by done. by eapply no_files.
Qed.

Lemma upholds_alloc_tail fl fd i type : (i < MAX_SOCKETS)%nat → upholds ip mac false fl
  (when (type =? SOCKET_TYPE_TCP) (upd_sock i (set_s_tcp_state TCP_STATE_CLOSED));;
   node ← kmalloc_answer;
   if negb node then upd_sock i (λ k, set_s_valid false (set_s_rx_buf [] k));; mret (inl (- ENOMEM)) else
   file ← kmalloc_answer;
   if negb file then upd_sock i (λ k, set_s_valid false (set_s_rx_buf [] k));; mret (inl (- ENOMEM)) else
   install_fd fd i;; mret (inr (fd, i))) (λ r, r = inl (- ENOMEM) ∨ r = inr (fd, i)).
Proof.
  intros Hi. assert (Hfail : upholds ip mac false fl
    (upd_sock i (λ k, set_s_valid false (set_s_rx_buf [] k));; mret (inl (- ENOMEM)))
    (λ r : Z + nat * nat, r = inl (- ENOMEM) ∨ r = inr (fd, i))).
  { eapply upholds_bind; [apply upholds_upd; [done|apply closed_ok]|]. intros [] _. apply upholds_ret. by left. }
  eapply upholds_bind; [by apply upholds_when, upholds_upd_view|]. intros [] _.
  do 2 (eapply upholds_bind; [apply (upholds_aside ip mac R), aside_kmalloc_answer|]; intros [] _; cbn [negb]; [|exact Hfail]).
  intros t Q' Ht HQ'. apply wp_bind, wp_modify, wp_ret, HQ'; [by right|]. by apply net_ok_files.
Qed.

Lemma wp_alloc_common fl domain type s (Q : Z + nat * nat → net → Prop) : ok false fl s →
  (∀ e s', ok false fl s' → Q (inl e) s') →
  (∀ fd i s', ok false fl s' → (i < MAX_SOCKETS)%nat → Q (inr (fd, i)) s') →
  wp (socket_alloc_common domain type) Q s.
Proof.
  intros Hs He HQ. unfold socket_alloc_common. apply wp_bind. unfold alloc_fd. apply wp_bind, wp_get, wp_ret.
  destruct (find_index _ (n_files s)) as [fd|]; [|by apply wp_ret, He].
  apply wp_bind. eapply wp_table_lock; [done|]. intros s1 Hs1 Ht1. apply wp_bind, wp_get.
  destruct (find_index _ (socket_table s1)) as [i|] eqn:Hi.
  2: { apply wp_bind. eapply wp_table_unlock; [done|]. intros s2 Hs2 _. by apply wp_ret, He. }
  destruct (find_index_lookup _ _ _ Hi) as (k&Hk&_).
  destruct (net_ok_sock _ _ _ _ _ _ _ Hs1 Hk) as [_ Hlt].
  pose proof (fresh_ok (no_ip_any _ _ _ _ _ Hs)) as Hfr.
  apply wp_bind. eapply wp_hole_upd; [by apply hole_open|]. clear s1 Hs1 Ht1 Hk Hi. intros s1 Hh.
  apply wp_bind. eapply wp_hole_unlock; [done|]. clear s1 Hh. intros s1 Hh.
  apply wp_bind. eapply wp_hole_upd; [done|]. clear s1 Hh. intros s1 Hh.
  apply wp_bind. eapply wp_hole_kmalloc; [done|]. clear s1 Hh. intros [] s1 Hh; cbn [negb].
  2: { apply wp_bind. eapply wp_hole_upd; [done|]. intros s2 Hh2. apply wp_ret, He.
       eapply hole_close; [done|]. by apply Hfr. }
  apply wp_bind. eapply wp_hole_upd; [done|]. clear s1 Hh. intros s1 Hh.
  eassert (Hs1 : ok false fl s1).
  { eapply hole_close; [done|]. apply Hfr; [done..|]. by split. }
  destruct Hh as [Hk _].
  eapply upholds_alloc_tail; [done..|]. intros r s2 [-> | ->] Hs2; [by apply He | by apply HQ].
Qed.

Lemma wp_socket_call fl domain type s : ok false fl s →
  wp (sys_socket domain type) (λ _ s', ok false fl s') s.
Proof.
  intros Hs. unfold sys_socket. do 2 (case_match; [by apply wp_ret|]).
  apply wp_bind. eapply wp_alloc_common; [done|..]; intros; by apply wp_ret.
Qed.

(** ** Closing *)

Lemma unpeer_ok k : sock_ok ip k → sock_ok ip (set_s_peer None k).
Proof. intros [Hr]. split; try done. intros Hv. by destruct (Hr Hv). Qed.

(** Marking a socket closed and telling its peer. *)
Lemma wp_mark_closed {A} fl i k (Q : A → net → Prop) (m : NM A) s : ok false fl s → socket_table s !! i = Some k →
  (∀ s' k', ok false fl s' → socket_table s' !! i = Some k' → s_type k' = s_type k →
    shut k' = (true, true) → wp m Q s') →
  wp (upd_sock i (λ k, set_s_shutdown_write true (set_s_shutdown_read true (set_s_closed true k)));;
      wake_socket i;; io_notify;;
      match s_peer k with
      | Some p => upd_sock p (set_s_peer None);; wake_socket p;; io_notify
      | None => mret ()
      end;; m) Q s.
Proof.
  intros Hs Hk HQ. destruct (net_ok_sock _ _ _ _ _ _ _ Hs Hk) as [Hok Hi].
  apply wp_bind. eapply wp_upd_sock; [done|]. set (k1 := set_s_shutdown_write _ _).
  assert (Hs1 : ok false fl (with_sock i k1 s)) by (apply net_ok_insert; [done|]; by apply (sock_ok_core ip k)).
  assert (Hk1 : socket_table (with_sock i k1 s) !! i = Some k1)
    by (apply with_sock_lookup; by eapply lookup_lt_Some).
  fold (with_sock i k1 s). generalize dependent (with_sock i k1 s). clear s Hs Hk. intros s Hs Hk.
  apply wp_bind, wp_modify, wp_bind, wp_modify. set (s2 := set_n_wakes _ _).
  assert (Hs2 : ok false fl s2) by by destruct Hs.
  assert (Hk2 : socket_table s2 !! i = Some k1) by done. generalize dependent s2. clear s Hs Hk. intros s Hs Hk.
  destruct (s_peer k) as [p|] eqn:Hp; [|by apply wp_bind, wp_ret, (HQ _ k1)].
  pose proof (sk_peer _ _ Hok p Hp) as Hpi. destruct (net_ok_lookup _ _ _ _ _ p Hs Hpi) as [pk Hpk].
  apply wp_bind, wp_bind. eapply wp_upd_sock; [done|]. apply wp_bind, wp_modify, wp_modify.
  destruct (net_ok_sock _ _ _ _ _ _ _ Hs Hpk) as [Hpok _].
  assert (Hs3 : ok false fl (with_sock p (set_s_peer None pk) s)) by by apply net_ok_insert, unpeer_ok.
  destruct (decide (p = i)) as [->|Hne].
  - rewrite Hk in Hpk. injection Hpk as <-. apply (HQ _ (set_s_peer None k1)); [by destruct Hs3| |done..].
    cbn. apply list_lookup_insert_eq. by eapply lookup_lt_Some.
  - apply (HQ _ k1); [by destruct Hs3| |done..]. cbn. by rewrite list_lookup_insert_ne.
Qed.

Lemma upholds_close_wait fl n i : (i < MAX_SOCKETS)%nat → upholds ip mac false fl (close_wait others n i) (λ _, True).
Proof.
  intros Hi. induction n as [|n IH]; cbn [close_wait].
  all: eapply upholds_bind; [by apply upholds_get_sock|]; intros k _; case_match; [by apply upholds_ret|].
  - by apply upholds_ret.
  - eapply upholds_bind; [by apply (upholds_aside ip mac R), aside_others|]. intros [] _. exact IH.
Qed.

Lemma wp_socket_close fl i s (Q : Z → net → Prop) : ok false fl s → (i < MAX_SOCKETS)%nat →
  (∀ r s', ok false fl s' → Q r s') → wp (socket_close others i) Q s.
Proof.
  intros Hs Hi HQ. unfold socket_close. destruct (net_ok_lookup _ _ _ _ _ i Hs Hi) as [k Hk].
  apply wp_bind. eapply wp_get_sock; [done|]. case_match; [by apply wp_ret, HQ|].
  eapply wp_mark_closed; [done..|]. clear s Hs Hk. intros s k' Hs Hk Hty _.
  assert (Htail : upholds ip mac false fl
    (upd_sock i (set_s_rx_buf []);; fl ← table_lock_irqsave; upd_sock i (set_s_valid false);;
     table_unlock_irqrestore fl;; mret 0) (λ _, True)).
  { clear s Hs Hk Hty Q HQ k k' H. intros s Q Hs HQ. destruct (net_ok_lookup _ _ _ _ _ i Hs Hi) as [k Hk].
    destruct (net_ok_sock _ _ _ _ _ _ _ Hs Hk) as [Hok _].
    apply wp_bind. eapply wp_hole_upd; [by apply hole_open|]. intros s1 Hh1.
    apply wp_bind. eapply wp_hole_lock; [done|]. intros s2 Hh2.
    apply wp_bind. eapply wp_hole_upd; [done|]. intros s3 Hh3.
    apply wp_bind. eapply wp_hole_unlock; [done|]. intros s4 Hh4. apply wp_ret, HQ; [done|].
    eapply hole_close; [done|]. by apply closed_ok. }
  apply wp_bind, wp_when; [|intros _; apply Htail; [done|]; intros r s' _; apply HQ].
  intros Ht%Z.eqb_eq. apply wp_bind. eapply (wp_tcp_send_fin ip mac others R Hothers); [done..|congruence|].
  intros b s1 Hs1.
  eapply (upholds_when ip mac false fl b); [by apply upholds_close_wait|done|]. intros [] s2 _ Hs2.
  apply Htail; [done|]. intros r s' _. apply HQ.
Qed.

(** ** Accepting *)

Lemma shift_queue_ok k : 0 < s_accept_count k → sock_ok ip k → sock_ok ip (shift_queue k).
Proof.
  intros Hc [Hr Hn Ha Hl Hb Hfill Hpar Hpr]. unfold shift_queue.
  assert (Hq : length (take (Z.to_nat (s_accept_count k) - 1) (drop 1 (s_accept_queue k)))
    = (Z.to_nat (s_accept_count k) - 1)%nat) by (rewrite length_take, length_drop; lia).
  split; cbn [set_s_accept_count set_s_accept_queue s_valid s_type s_remote_ip s_accept_queue s_accept_count
    s_parent_listener s_peer]; try done.
  - intros Hv. by destruct (Hr Hv).
  - rewrite length_app, Hq, length_drop. lia.
  - lia.
  - intros j Hj. rewrite lookup_app_l by lia. rewrite lookup_take_lt, lookup_drop by lia. apply Hfill. lia.
Qed.

Lemma wp_accept_wait fl sleeps i k (Q : nat → net → Prop) s : ok false fl s →
  socket_table s !! i = Some k → 0 < s_accept_count k →
  (∀ c s', (c < MAX_SOCKETS)%nat → ok false fl s' → Q c s') → wp (accept_wait others sleeps i) Q s.
Proof.
  intros Hs Hk Hc HQ. destruct (net_ok_sock _ _ _ _ _ _ _ Hs Hk) as [Hok Hi].
  destruct (sk_filled _ _ Hok 0) as (c&Hq&Hlt); [lia|].
  destruct sleeps; cbn [accept_wait]; apply wp_bind; (eapply wp_table_lock; [done|]); intros s1 Hs1 Ht1;
    apply wp_bind; (eapply wp_get_sock; [by rewrite Ht1|]); rewrite (proj2 (Z.ltb_lt _ _) Hc);
    apply wp_bind; (eapply (wp_deref _ c); [by rewrite Hq|]); apply wp_bind;
    (eapply wp_upd_sock; [by rewrite Ht1|]); apply wp_bind;
    (eapply wp_table_unlock; [by apply net_ok_insert, shift_queue_ok|]); intros s2 Hs2 _; apply wp_ret; by apply HQ.
Qed.

(** The socket of [fd], if it listens, has a connection waiting. *)
Definition fd_pending (fd : Z) (s : net) : Prop :=
  ∀ i g k, file_at fd s = Some (FSocket i g) → socket_table s !! i = Some k → s_valid k = true →
    0 < s_accept_count k.

Lemma wp_accept_call fl sleeps fd aok s : ok false fl s → fd_sane fd s → fd_pending fd s →
  wp (sys_accept others sleeps fd aok true) (λ _ s', ok false fl s') s.
Proof.
  intros Hs Hfd Hp. unfold sys_accept, with_fd. apply wp_bind.
  eapply wp_sock_of_fd; [done..|by intros; apply wp_ret|]. intros i g k Hf Hk Hv Hi.
  apply wp_bind. eapply wp_get_sock; [done|]. do 3 (case_match; [by apply wp_ret|]).
  apply wp_bind. eapply wp_accept_wait; [done..|by eapply Hp|]. intros c s1 Hc Hs1.
  apply wp_bind. unfold alloc_fd. apply wp_bind, wp_get, wp_ret.
  destruct (find_index _ _) as [cfd|]; [|by apply wp_ret].
  eapply (upholds_bind ip mac false fl _ _ (λ _, True) (λ _, True));
    [apply (upholds_aside ip mac R), aside_kmalloc_answer| |done|done].
  intros [] _; cbn [negb]; [|by apply upholds_ret].
  eapply upholds_bind; [apply (upholds_aside ip mac R), aside_kmalloc_answer|].
  intros [] _; cbn [negb]; [|by apply upholds_ret].
  intros t Q Ht HQ. apply wp_bind, wp_modify, wp_ret, HQ; [done|]. by apply net_ok_files.
Qed.

(** ** Connecting a datagram socket *)

Definition fd_datagram (fd : Z) (s : net) : Prop :=
  ∀ i g k, file_at fd s = Some (FSocket i g) → socket_table s !! i = Some k → s_valid k = true →
    s_type k ≠ SOCKET_TYPE_TCP.

Lemma wp_connect_call fl sleeps fd a s : ok false fl s → fd_sane fd s → fd_datagram fd s → addr_sane a →
  wp (sys_connect others sleeps fd a) (λ _ s', ok false fl s') s.
Proof.
  intros Hs Hfd Hd Ha. unfold sys_connect, with_fd. apply wp_bind.
  eapply wp_sock_of_fd; [done..|by intros; apply wp_ret|]. intros i g k Hf Hk Hv Hi.
  pose proof (Hd i g k Hf Hk Hv) as Hty. destruct (net_ok_sock _ _ _ _ _ _ _ Hs Hk) as [Hok _].
  apply wp_bind. eapply wp_get_sock; [done|]. do 3 (case_match; [by apply wp_ret|]).
  destruct (ua_sin a) as [[port l]|] eqn:Hsin; [|by apply wp_ret]. pose proof (Ha _ _ Hsin) as Hl.
  apply wp_bind. eapply wp_upd_sock; [done|]. rewrite (proj2 (Z.eqb_neq _ _) Hty).
  eapply (upholds_bind ip mac false fl _ _ (λ _, True) (λ _, True));
    [by apply upholds_locked, upholds_upd_view| | |done].
  - intros [] _. eapply upholds_bind; [apply (upholds_aside ip mac R), aside_notify|]. intros [] _. by apply upholds_ret.
  - apply net_ok_insert; [done|]. destruct Hok as [Hr]. split; try done. intros Hv'. by destruct (Hr Hv').
Qed.

(** ** Pairs *)

Lemma peer_ok p k : (p < MAX_SOCKETS)%nat → sock_ok ip k → sock_ok ip (set_s_peer (Some p) k).
Proof. intros Hp [Hr]. split; try done; [|by intros ? [= <-]]. intros Hv. by destruct (Hr Hv). Qed.

Lemma wp_socketpair_call fl domain type null ook s : ok false fl s →
  wp (sys_socketpair others domain type null ook) (λ _ s', ok false fl s') s.
Proof.
  intros Hs. unfold sys_socketpair. do 3 (case_match; [by apply wp_ret|]).
  apply wp_bind. eapply wp_alloc_common; [done|by intros; apply wp_ret|]. intros fd0 i0 s1 Hs1 Hi0.
  apply wp_bind. eapply wp_alloc_common; [done|..].
  - intros e s2 Hs2. apply wp_bind. unfold drop_fd. apply wp_bind, wp_modify, wp_bind.
    eapply wp_socket_close; [by apply net_ok_files_other|done|]. intros r s3 Hs3. apply wp_ret. by apply wp_ret.
  - intros fd1 i1 s2 Hs2 Hi1.
    eapply (upholds_bind ip mac false fl _ _ (λ _, True) (λ _, True)); [by apply upholds_upd_view| |done|done].
    intros [] _. eapply upholds_bind; [by apply upholds_upd_view|]. intros [] _.
    eapply upholds_bind; [apply upholds_upd; [done|]; intros k; by apply peer_ok|]. intros [] _.
    eapply upholds_bind; [apply upholds_upd; [done|]; intros k; by apply peer_ok|]. intros [] _.
    destruct ook; [by apply upholds_ret|]. intros t Q Ht HQ. apply wp_bind, wp_modify, wp_bind.
    eapply wp_socket_close; [|done|]; [|intros r s3 Hs3; apply wp_bind; eapply wp_socket_close; [done..|]].
    + apply (net_ok_files_other _ _ (set_n_files _ t)); [|done]. by apply net_ok_files_other.
    + intros r' s4 Hs4. apply wp_ret. by apply HQ.
Qed.
End life.
