(* ===== verification/NetQueue.v ===== *)
(** * Datagram sockets: the ring as a queue of datagrams *)

From stdpp Require Import relations.
From S2P Require Import Prelude Bits NetState Net SocketOps NetRing NetSpec NetRecv NetInput NetStream NetFrames NetCalls.

(** Source address, source port, payload. *)
Definition dgram : Type := list Z * Z * list Z.

Definition encode (d : dgram) : list Z := datagram d.1.1 d.1.2 d.2.
Definition encode_all (q : list dgram) : list Z := concat (encode <$> q).

Record dgram_ok (d : dgram) : Prop := {
  dg_addr : length d.1.1 = 4%nat;
  dg_port : 0 ≤ d.1.2 < 65536;
  dg_len : Z.of_nat (length d.2) < 65536;
}.

Lemma bytes_of_16 v : 0 ≤ v < 65536 → u16 ((v &! 0xFF) |! (((v >>! 8) &! 0xFF) <<! 8)) = v.
Proof.
  intros Hv. change 0xFF with (2 ^ 8 - 1). rewrite !land_low_mask, Z.shiftr_div_pow2 by done.
  change (2 ^ 8) with 256. assert (0 ≤ v / 256 < 256).
  { split; [apply Z.div_pos; lia|apply Z.div_lt_upper_bound; lia]. }
  pose proof (Z.mod_pos_bound v 256). pose proof (Z.div_mod v 256).
  rewrite (Z.mod_small (v / 256)), Z.shiftl_mul_pow2, u64_small by lia.
  rewrite Z.lor_comm.
  rewrite (lor_disjoint (v / 256) (v `mod` 256) 8) by (change (2 ^ 8) with 256; lia).
  change (2 ^ 8) with 256. rewrite u16_small; lia.
Qed.

Lemma length_encode d : dgram_ok d → length (encode d) = (8 + length d.2)%nat.
Proof.
  intros [Ha _ _]. unfold encode, datagram. rewrite !length_app, length_take, Ha. cbn. lia.
Qed.

(** One byte more, with what is left. *)
Lemma wp_ring_next i k b l (Q : Z → net → Prop) s : socket_table s !! i = Some k → ring_ok k →
  ring_bytes k = b :: l →
  (∀ s' k', k' = skip 1 k → s' = with_sock i k' s → socket_table s' !! i = Some k' → ring_ok k' →
    ring_bytes k' = l → Q b s') → wp (ring_get i) Q s.
Proof.
  intros Hk Hr Hb HQ. eapply wp_ring_get; [done..|]. eapply HQ; [done..| |by apply skip_ok|].
  - apply with_sock_lookup. by eapply lookup_lt_Some.
  - by eapply ring_bytes_cons_skip.
Qed.

Lemma wp_ring_next_n i n k (Q : list Z → net → Prop) s : socket_table s !! i = Some k → ring_ok k →
  (n ≤ length (ring_bytes k))%nat →
  (∀ s' k', k' = skip (Z.of_nat n) k → s' = with_sock i k' s → socket_table s' !! i = Some k' → ring_ok k' →
    ring_bytes k' = drop n (ring_bytes k) → Q (take n (ring_bytes k)) s') → wp (ring_get_n i n) Q s.
Proof.
  intros Hk Hr Hn HQ. eapply wp_ring_get_n; [done..|]. eapply HQ; [done..| |by apply skip_ok|].
  - apply with_sock_lookup. by eapply lookup_lt_Some.
  - rewrite bytes_skip, Nat2Z.id by (done || (rewrite <-length_ring_bytes; lia)). done.
Qed.

(** Reading takes the first datagram, and all of it. *)
Lemma wp_get_datagram i k d rest count (Q : dgram → net → Prop) s : socket_table s !! i = Some k → ring_ok k →
  dgram_ok d → ring_bytes k = encode d ++ rest → 0 ≤ count →
  (∀ s' k', socket_table s' = <[i := k']> (socket_table s) → s' = with_sock i k' s →
    ring_ok k' → rx_id k' = rx_id k → ring_bytes k' = rest →
    Q (d.1, take (Z.to_nat count) d.2) s') →
  wp (ring_get_datagram i count) Q s.
Proof.
  destruct d as [[a p] l]. intros Hk Hr [Ha Hp Hl] Hb Hc HQ. cbn [fst snd] in *.
  unfold encode, datagram in Hb. cbn [fst snd] in Hb. rewrite take_ge, <-!app_assoc in Hb by lia.
  unfold ring_get_datagram. apply wp_bind. eapply (wp_ring_next_n i 4); [done..|by rewrite Hb, length_app, Ha; lia|].
  intros s1 k1 Ek1 Es1 Hk1 Hr1 Hb1. rewrite Hb in Hb1 |- *. rewrite take_app_length' by done.
  rewrite drop_app_length' in Hb1 by done. cbn [app] in Hb1.
  apply wp_bind. eapply wp_ring_next; [done..|]. intros s2 k2 Ek2 Es2 Hk2 Hr2 Hb2.
  apply wp_bind. eapply wp_ring_next; [done..|]. intros s3 k3 Ek3 Es3 Hk3 Hr3 Hb3.
  apply wp_bind. eapply wp_ring_next; [done..|]. intros s4 k4 Ek4 Es4 Hk4 Hr4 Hb4.
  apply wp_bind. eapply wp_ring_next; [done..|]. intros s5 k5 Ek5 Es5 Hk5 Hr5 Hb5.
  rewrite !bytes_of_16 by lia.
  assert (Es : ∀ k', with_sock i k' s5 = with_sock i k' s).
  { intros k'. rewrite Es5, Es4, Es3, Es2, Es1, !with_sock_twice. done. }
  set (n := if Z.of_nat (length l) <? count then Z.of_nat (length l) else count).
  assert (Hn : 0 ≤ n ≤ Z.of_nat (length l)) by (unfold n; destruct (Z.ltb_spec (Z.of_nat (length l)) count); lia).
  assert (Htake : take (Z.to_nat n) l = take (Z.to_nat count) l).
  { unfold n. destruct (Z.ltb_spec (Z.of_nat (length l)) count); [|done]. rewrite !take_ge; [done|lia..]. }
  apply wp_bind. eapply wp_ring_next_n; [done..|rewrite Hb5, length_app; lia|].
  intros s6 k6 Ek6 Es6 Hk6 Hr6 Hb6. rewrite Hb5 in Hb6 |- *. rewrite take_app_le by lia.
  rewrite Htake. rewrite drop_app_le in Hb6 by lia.
  assert (Hid : rx_id k6 = rx_id k) by (rewrite Ek6, Ek5, Ek4, Ek3, Ek2, Ek1; done).
  assert (Hcount : ring_count k6 = Z.of_nat (length l) - n + Z.of_nat (length rest)).
  { rewrite <-length_ring_bytes, Hb6, length_app, length_drop. lia. }
  apply wp_bind, wp_when; intros Hw; apply wp_ret || eapply wp_upd_sock; try done.
  - apply wp_ret. fold (skip (Z.of_nat (length l) - n) k6). fold (with_sock i (skip (Z.of_nat (length l) - n) k6) s6).
    rewrite Es6, with_sock_twice, Es. apply (HQ _ (skip (Z.of_nat (length l) - n) k6)); [done..|by apply skip_ok|done|].
    rewrite bytes_skip, Hb6, drop_app_length' by (done || lia || (rewrite length_drop; lia)). done.
  - apply Z.ltb_ge in Hw. apply (HQ _ k6); [by rewrite Es6, Es|by rewrite Es6, Es|done..|].
    rewrite Hb6, drop_ge by lia. done.
Qed.

(** [recvfrom] on a datagram socket. *)
Lemma wp_recvfrom_datagram others sleeps fd g len i k d rest ks (Q : Z * list Z * option (Z * list Z) → net → Prop) s :
  file_at fd s = Some (FSocket i g) → socket_table s !! i = Some k → s_valid k = true →
  s_type k = SOCKET_TYPE_UDP → s_domain k ≠ AF_UNIX → ring_ok k → dgram_ok d →
  ring_bytes k = encode d ++ rest → 0 < len → n_kmalloc s = true :: ks →
  (∀ s' k', socket_table s' = <[i := k']> (socket_table s) → ring_ok k' → rx_id k' = rx_id k →
    ring_bytes k' = rest →
    Q (Z.of_nat (length (take (Z.to_nat len) d.2)), take (Z.to_nat len) d.2, Some (swap16 d.1.2, d.1.1)) s') →
  wp (sys_recvfrom others sleeps fd len true true) Q s.
Proof.
  intros Hf Hk Hv Hty Hdom Hr Hd Hb Hlen Hm HQ. unfold sys_recvfrom, sock_of_fd.
  apply wp_bind, wp_bind, wp_get. rewrite Hf. apply wp_bind. eapply wp_get_sock; [done|]. apply wp_ret.
  rewrite Hv. cbn [negb]. apply wp_bind. eapply wp_get_sock; [done|].
  rewrite (proj2 (Z.eqb_neq _ _) Hdom). unfold recv_inet. apply wp_bind.
  assert (Hne : (s_rx_read_ptr k =? s_rx_write_ptr k) = false).
  { rewrite (ring_empty k Hr), bool_decide_false; [done|]. rewrite Hb. intros He%app_nil.
    destruct He as [He _]. apply (f_equal length) in He. rewrite length_encode in He by done. cbn in He. lia. }
  assert (Hwait : ∀ Q' : bool → net → Prop, Q' true s → wp (recv_wait others sleeps i) Q' s).
  { intros Q' HQ'. destruct sleeps; cbn [recv_wait]; apply wp_bind; (eapply wp_get_sock; [done|]);
      rewrite Hne; by apply wp_ret. }
  apply Hwait. cbn [negb]. apply wp_bind. unfold kmalloc_of, kmalloc_answer.
  rewrite (proj2 (Z.eqb_neq len 0)) by lia.
  apply wp_bind, wp_get, wp_bind, wp_modify, wp_ret. rewrite Hm. cbn [head default from_option id negb tail].
  apply wp_bind. eapply wp_get_sock; [done|]. rewrite Hty.
  change (SOCKET_TYPE_UDP =? SOCKET_TYPE_TCP) with false. cbv iota. apply wp_bind, wp_bind.
  eapply wp_get_datagram; [done..|lia|]. intros s' k' Ht _ Hr' Hid Hb'. apply wp_ret.
  apply wp_bind, wp_modify, wp_ret. cbn [fst snd]. by eapply HQ.
Qed.
