(* ===== verification/NetSystem.v ===== *)
(** * The network stack as a system

    Frames from the wire, timer ticks and socket calls, one after the other.
    [enabled] says when a call is within what the stack can take: lengths in the
    IP header that fit the frame, no segment from or to the own address, calls
    that do not have to wait, descriptors that are not dangling. *)

From stdpp Require Import relations.
From S2P Require Import Prelude Bits NetState Net SocketOps NetRing NetSpec NetRecv NetInput NetStream NetFrames NetCalls NetLife.

Inductive ncall :=
| NFrame (data : list Z)
| NTick
| NSocket (domain type : Z)
| NBind (fd : Z) (addr : user_addr)
| NListen (fd : Z)
| NConnect (fd : Z) (addr : user_addr)
| NAccept (fd : Z) (args_ok : bool)
| NSendto (fd : Z) (buf : user_buf) (dest : option user_addr)
| NRecvfrom (fd len : Z) (args_ok out_ok : bool)
| NSetsockopt (fd level optname : Z) (arg_ok : bool) (value : option Z)
| NGetsockopt (fd level optname : Z) (args_ok : bool) (len : option Z) (out_ok : bool)
| NShutdown (fd how : Z)
| NSocketpair (domain type : Z) (null out_ok : bool)
| NClose (fd i : nat).

Definition ignore {A} (m : NM A) : NM unit := _ ← m; mret ().

(** No call may sleep for data: the number of wake-ups is 0. *)
Definition run_ncall (others : net → net) (c : ncall) : NM unit :=
  match c with
  | NFrame data => net_process_packet others data (Z.of_nat (length data))
  | NTick => net_tcp_timer_tick (ipv4_send others)
  | NSocket d t => ignore (sys_socket d t)
  | NBind fd a => ignore (sys_bind fd a)
  | NListen fd => ignore (sys_listen fd)
  | NConnect fd a => ignore (sys_connect others 0 fd a)
  | NAccept fd ok => ignore (sys_accept others 0 fd ok true)
  | NSendto fd b d => ignore (sys_sendto others 0 fd b d)
  | NRecvfrom fd len ok out => ignore (sys_recvfrom others 0 fd len ok out)
  | NSetsockopt fd l o ok v => ignore (sys_setsockopt fd l o ok v)
  | NGetsockopt fd l o ok n out => ignore (sys_getsockopt fd l o ok n out)
  | NShutdown fd how => ignore (sys_shutdown others fd how)
  | NSocketpair d t null out => ignore (sys_socketpair others d t null out)
  | NClose fd i => drop_fd others fd i
  end.

Definition enabled (ip : list Z) (c : ncall) (s : net) : Prop :=
  match c with
  | NFrame data => Z.of_nat (length data) < 65536 ∧ honest_frame ip data
  | NTick | NSocket _ _ | NSocketpair _ _ _ _ => True
  | NBind fd _ | NListen fd => fd_sane fd s
  | NConnect fd a => fd_sane fd s ∧ fd_datagram fd s ∧ addr_sane a
  | NAccept fd _ => fd_sane fd s ∧ fd_pending fd s
  | NSendto fd b d => fd_sane fd s ∧ fd_inet fd s ∧ buf_sane b ∧ ∀ a, d = Some a → addr_sane a
  | NRecvfrom fd _ _ _ => fd_sane fd s ∧ fd_ready fd s
  | NSetsockopt fd _ _ _ _ | NGetsockopt fd _ _ _ _ _ | NShutdown fd _ => fd_is_socket fd s
  | NClose fd i => (i < MAX_SOCKETS)%nat
  end.

(** The rest of the system keeps the invariant, and the lock protects the
    table. *)
Definition others_ok (ip mac : list Z) (others : net → net) : Prop :=
  ∀ lk fl s, net_ok ip mac lk fl s →
    net_ok ip mac lk fl (others s) ∧ (lk = true → socket_table (others s) = socket_table s).

(** The states calls lead to. *)
Inductive nreach (ip : list Z) (others : net → net) (s0 : net) : net → Prop :=
| nreach_start : nreach ip others s0 s0
| nreach_call s c s' : nreach ip others s0 s → enabled ip c s →
    run_ncall others c s = Done ((), s') → nreach ip others s0 s'.

Definition any_table (t t' : list socket) : Prop := True.
#[export] Instance any_table_preorder : PreOrder any_table.
Proof. by split. Qed.

Lemma others_after ip mac others : others_ok ip mac others →
  ∀ lk fl s, net_ok ip mac lk fl s → after ip mac any_table lk fl s (others s).
Proof. intros Ho lk fl s Hs. destruct (Ho lk fl s Hs) as [Hs' Ht]. split; [done|]. destruct lk; [by apply Ht|done]. Qed.

Section system.
Context (ip mac : list Z) (others : net → net) (Ho : others_ok ip mac others).

Lemma wp_ignore {A} (m : NM A) fl s : wp m (λ _ s', net_ok ip mac false fl s') s →
  wp (ignore m) (λ _ s', net_ok ip mac false fl s') s.
Proof. intros Hm. apply wp_bind. eapply wp_mono; [done|]. intros a s' Hs'. by apply wp_ret. Qed.

Lemma wp_ncall fl c s : net_ok ip mac false fl s → enabled ip c s →
  wp (run_ncall others c) (λ _ s', net_ok ip mac false fl s') s.
Proof.
  pose proof (others_after _ _ _ Ho) as Hx. intros Hs He. destruct c; cbn [run_ncall enabled] in *.
  - destruct He. eapply wp_mono; [by eapply (wp_process_packet ip mac others any_table Hx)|]. by intros [] s' [Hs' _].
  - eapply wp_mono; [by apply (wp_timer_tick ip mac others any_table Hx 2 (Segment 0 [] 0 0 0 []))|].
    by intros [] s' [Hs' _].
  - by apply wp_ignore, (wp_socket_call ip mac any_table).
  - by apply wp_ignore, wp_bind_call.
  - by apply wp_ignore, wp_listen_call.
  - destruct He as (?&?&?). by apply wp_ignore, (wp_connect_call ip mac others any_table).
  - destruct He as (?&?). by apply wp_ignore, (wp_accept_call ip mac others any_table).
  - destruct He as (?&?&?&?). by apply wp_ignore, (wp_sendto_call ip mac others any_table Hx).
  - destruct He as (?&?). by apply wp_ignore, (wp_recvfrom_call ip mac others).
  - by apply wp_ignore, wp_setsockopt_call.
  - by apply wp_ignore, wp_getsockopt_call.
  - by apply wp_ignore, (wp_shutdown_call ip mac others any_table Hx).
  - by apply wp_ignore, (wp_socketpair_call ip mac others any_table Hx).
  - unfold drop_fd. apply wp_bind, wp_modify, wp_bind.
    eapply (wp_socket_close ip mac others any_table Hx); [by apply net_ok_files_other|done|].
    intros r s' Hs'. by apply wp_ret.
Qed.

Lemma nreach_ok fl s0 s : net_ok ip mac false fl s0 → nreach ip others s0 s → net_ok ip mac false fl s.
Proof.
  intros H0. induction 1 as [|s c s' _ IH He Hrun]; [done|].
  pose proof (wp_ncall fl c s IH He) as Hw. unfold wp in Hw. by rewrite Hrun in Hw.
Qed.
End system.

(** ** One connection *)

(** What happens to a connection on socket [i] while its reader collects
    [got]: frames that carry pieces of the stream or do not concern it, ticks,
    and reads. *)
Inductive stream_run (ip : list Z) (others : net → net) (i : nat) (str : list Z) (base : Z) (s0 : net)
    : net → list Z → Prop :=
| sr_start : stream_run ip others i str base s0 s0 []
| sr_frame s got data s' : stream_run ip others i str base s0 s got →
    Z.of_nat (length data) < 65536 → honest_frame ip data →
    (∀ k, socket_table s !! i = Some k → carries str base (ip_seg (drop 14 data)) k) →
    net_process_packet others data (Z.of_nat (length data)) s = Done ((), s') →
    stream_run ip others i str base s0 s' got
| sr_tick s got s' : stream_run ip others i str base s0 s got →
    net_tcp_timer_tick (ipv4_send others) s = Done ((), s') → stream_run ip others i str base s0 s' got
| sr_read s got sleeps count flags r bytes s' : stream_run ip others i str base s0 s got →
    socket_read others sleeps i count flags s = Done ((r, bytes), s') →
    stream_run ip others i str base s0 s' (got ++ bytes).

(** The rest of the system leaves the socket table alone. *)
Definition others_quiet (ip mac : list Z) (others : net → net) : Prop :=
  ∀ lk fl s, net_ok ip mac lk fl s →
    net_ok ip mac lk fl (others s) ∧ socket_table (others s) = socket_table s.

Lemma bind_inv {S A B} (m : prog S A) (f : A → prog S B) s b s' :
  (m ≫= f) s = Done (b, s') → ∃ a s1, m s = Done (a, s1) ∧ f a s1 = Done (b, s').
Proof. unfold mbind, prog_bind. destruct (m s) as [[a s1]|]; [eauto|done]. Qed.

Lemma get_sock_inv i s k s' : get_sock i s = Done (k, s') → socket_table s !! i = Some k ∧ s' = s.
Proof.
  unfold get_sock, mbind, prog_bind, get, deref. destruct (socket_table s !! i); [|done]. by intros [= -> ->].
Qed.

Section connection.
Context (ip mac : list Z) (others : net → net) (Ho : others_quiet ip mac others).

Lemma quiet_after lk fl s : net_ok ip mac lk fl s → after ip mac eq lk fl s (others s).
Proof. intros Hs. destruct (Ho lk fl s Hs) as [Hs' Ht]. split; [done|]. destruct lk; by rewrite Ht. Qed.

Lemma read_wait_inv fl sleeps i s r s' : net_ok ip mac false fl s →
  read_wait others sleeps i s = Done (r, s') → net_ok ip mac false fl s' ∧ socket_table s' = socket_table s.
Proof.
  revert s. induction sleeps as [|n IH]; intros s Hs Hrun; cbn [read_wait] in Hrun;
    apply bind_inv in Hrun as (k&s1&[_ ->]%get_sock_inv&Hrun);
    repeat (case_match; [by injection Hrun as _ <-|]).
  - done.
  - apply bind_inv in Hrun as ([]&s1&[= <-]&Hrun). destruct (Ho false fl s Hs) as [Hs1 Ht1].
    rewrite <-Ht1. by apply IH.
Qed.

Lemma stream_read str base fl got i k sleeps count flags r bytes s s' : net_ok ip mac false fl s →
  socket_table s !! i = Some k → streaming str base got k →
  socket_read others sleeps i count flags s = Done ((r, bytes), s') →
  net_ok ip mac false fl s' ∧ ∃ k', socket_table s' !! i = Some k' ∧ streaming str base (got ++ bytes) k'.
Proof.
  intros Hs Hk Hst Hrun. unfold socket_read in Hrun.
  apply bind_inv in Hrun as (k0&s1&[Hk0 ->]%get_sock_inv&Hrun). rewrite Hk in Hk0. injection Hk0 as <-.
  rewrite (st_valid _ _ _ _ Hst), (proj2 (Z.eqb_neq _ _) (st_domain _ _ _ _ Hst)) in Hrun. cbn [negb] in Hrun.
  apply bind_inv in Hrun as (w&s1&Hw&Hrun). destruct (read_wait_inv _ _ _ _ _ _ Hs Hw) as [Hs1 Ht1].
  rewrite <-Ht1 in Hk. clear s Hs Ht1 Hw. rename s1 into s, Hs1 into Hs.
  destruct w as [rc|].
  { injection Hrun as _ <- <-. split; [done|]. exists k. by rewrite app_nil_r. }
  apply bind_inv in Hrun as (k0&s1&[Hk0 ->]%get_sock_inv&Hrun). rewrite Hk in Hk0. injection Hk0 as <-.
  rewrite (st_type _ _ _ _ Hst), Z.eqb_refl in Hrun.
  destruct (net_ok_sock _ _ _ _ _ _ _ Hs Hk) as [Hok Hi].
  pose proof (st_valid _ _ _ _ Hst) as Hv. pose proof (sk_ring _ _ Hok Hv) as Hring.
  apply bind_inv in Hrun as (l&s1&Hl&[= _ -> ->]).
  set (n := (Z.to_nat count `min` length (ring_bytes k))%nat).
  assert (Hget : ring_get_some i (Z.to_nat count) s =
    Done (take (Z.to_nat count) (ring_bytes k), with_sock i (skip (Z.of_nat n) k) s))
    by by apply wp_eq, (wp_ring_get_some i (Z.to_nat count) k).
  rewrite Hl in Hget. injection Hget as -> ->. split.
  - apply net_ok_insert; [done|]. by apply skip_sock_ok.
  - exists (skip (Z.of_nat n) k). split; [apply with_sock_lookup; by eapply lookup_lt_Some|].
    replace (take (Z.to_nat count) (ring_bytes k)) with (take n (ring_bytes k)).
    + apply streaming_read; [done|lia|done].
    + unfold n. destruct (Nat.le_ge_cases (Z.to_nat count) (length (ring_bytes k))).
      * by rewrite Nat.min_l.
      * rewrite Nat.min_r, !take_ge; [done|lia..].
Qed.

Lemma moves_streaming str base σ fl got i k s s' : net_ok ip mac false fl s →
  socket_table s !! i = Some k → streaming str base got k → carries str base σ k →
  moves σ (socket_table s) (socket_table s') →
  ∃ k', socket_table s' !! i = Some k' ∧ streaming str base got k'.
Proof.
  intros Hs Hk Hst Hc Hm. destruct (Hm i k Hk) as (k'&Hk'&_&Hr). exists k'. split; [done|].
  pose proof (st_valid _ _ _ _ Hst) as Hv. destruct (net_ok_sock _ _ _ _ _ _ _ Hs Hk) as [Hok _].
  apply (streaming_steps _ _ σ _ k); try done; [by apply Hr|by apply (sk_ring _ _ Hok)].
Qed.

Lemma stream_run_inv str base fl i s0 k0 s got : net_ok ip mac false fl s0 →
  socket_table s0 !! i = Some k0 → streaming str base [] k0 → stream_run ip others i str base s0 s got →
  net_ok ip mac false fl s ∧ ∃ k, socket_table s !! i = Some k ∧ streaming str base got k.
Proof.
  intros H0 Hk0 Hst0. induction 1 as [|s got data s' _ IH Hl Hh Hc Hrun|s got s' _ IH Hrun|s got sl c f r b s' _ IH Hrun].
  - eauto.
  - destruct IH as (Hs&k&Hk&Hst).
    pose proof (wp_process_packet ip mac others eq quiet_after fl data s Hs Hl Hh) as Hw.
    unfold wp in Hw. rewrite Hrun in Hw. destruct Hw as [Hs' [Hm|He]].
    + split; [done|]. eapply moves_streaming; [exact Hs|done..|by apply Hc|done].
    + split; [done|]. rewrite <-He. eauto.
  - destruct IH as (Hs&k&Hk&Hst).
    pose proof (wp_timer_tick ip mac others eq quiet_after 2 (Segment 0 [] 0 0 0 []) fl s Hs) as Hw.
    unfold wp in Hw. unfold ipv4_send in Hrun. rewrite Hrun in Hw. destruct Hw as [Hs' Hm].
    split; [done|]. by eapply moves_streaming; [exact Hs|..|exact Hm].
  - destruct IH as (Hs&k&Hk&Hst). by eapply stream_read.
Qed.

(** ** A slot that is used again *)

Lemma wp_fin_quiet fl i k (Q : bool → net → Prop) s : net_ok ip mac false fl s →
  socket_table s !! i = Some k → s_type k = SOCKET_TYPE_TCP →
  (∀ b s' k', net_ok ip mac false fl s' → socket_table s' !! i = Some k' → shut k' = shut k → Q b s') →
  wp (tcp_send_fin others i) Q s.
Proof.
  intros Hs Hk Hty HQ. set (σ := Segment 0 [] 0 0 0 []).
  assert (Hfin : ∀ st, wp (upd_sock i (set_s_tcp_state st);;
    net_tcp_send_segment (ipv4_send others) i (TCP_FLAG_FIN |! TCP_FLAG_ACK) [] 0;; mret true) Q s).
  { intros st. apply wp_bind.
    assert (Hp : pend ip mac σ (socket_table s) false fl i k k s) by (by apply pend_start; [|apply moves_refl|]).
    eapply wp_pend_upd; [done|by apply sock_ok_view|]. intros s1 Hp1. apply wp_bind.
    eapply (wp_pend_send ip mac others eq quiet_after _ _ false _); [done|done|lia|cbn; lia|].
    intros s2 k2 (?&?&?&->) Hp2. apply wp_ret. eapply HQ; [apply Hp2|apply (pend_sock _ _ _ _ _ _ _ _ _ _ Hp2)|done]. }
  unfold tcp_send_fin. apply wp_bind. eapply wp_get_sock; [done|].
  case_match; [apply Hfin|]. case_match; [apply Hfin|]. by apply wp_ret; eapply HQ.
Qed.

Lemma wp_close_wait_quiet fl n i (Q : unit → net → Prop) s : net_ok ip mac false fl s → (i < MAX_SOCKETS)%nat →
  (∀ s', net_ok ip mac false fl s' → socket_table s' = socket_table s → Q () s') →
  wp (close_wait others n i) Q s.
Proof.
  revert s. induction n as [|n IH]; intros s Hs Hi HQ; cbn [close_wait];
    destruct (net_ok_lookup _ _ _ _ _ i Hs Hi) as [k Hk]; apply wp_bind;
    (eapply wp_get_sock; [done|]); (case_match; [by apply wp_ret, HQ|]); [by apply wp_ret, HQ|].
  destruct (Ho false fl s Hs) as [Hs1 Ht1]. apply wp_bind, wp_modify, IH; [done..|].
  intros s' Hs' Ht'. apply HQ; [done|congruence].
Qed.

(** A closed socket keeps its shutdown flags in the free slot. *)
Lemma wp_close_shut fl i k s : net_ok ip mac false fl s → socket_table s !! i = Some k → s_valid k = true →
  wp (socket_close others i) (λ _ s', net_ok ip mac false fl s' ∧
    ∃ k', socket_table s' !! i = Some k' ∧ shut k' = (true, true)) s.
Proof.
  intros Hs Hk Hv. destruct (net_ok_sock _ _ _ _ _ _ _ Hs Hk) as [_ Hi].
  unfold socket_close. apply wp_bind. eapply wp_get_sock; [done|]. rewrite Hv. cbn [negb].
  eapply wp_mark_closed; [done..|]. clear s Hs Hk. intros s k1 Hs Hk Hty Hsh.
  assert (Htail : ∀ s k1, net_ok ip mac false fl s → socket_table s !! i = Some k1 → shut k1 = (true, true) →
    wp (upd_sock i (set_s_rx_buf []);; fl ← table_lock_irqsave; upd_sock i (set_s_valid false);;
     table_unlock_irqrestore fl;; mret 0) (λ _ s', net_ok ip mac false fl s' ∧
    ∃ k', socket_table s' !! i = Some k' ∧ shut k' = (true, true)) s).
  { clear s k1 Hs Hk Hty Hsh. intros s k1 Hs Hk Hsh. destruct (net_ok_sock _ _ _ _ _ _ _ Hs Hk) as [Hok _].
    apply wp_bind. eapply wp_hole_upd; [by apply hole_open|]. intros s1 Hh1.
    apply wp_bind. eapply wp_hole_lock; [done|]. intros s2 Hh2.
    apply wp_bind. eapply wp_hole_upd; [done|]. intros s3 Hh3.
    apply wp_bind. eapply wp_hole_unlock; [done|]. intros s4 Hh4. apply wp_ret. split.
    - eapply hole_close; [done|]. by apply closed_ok.
    - eexists. split; [apply Hh4|]. done. }
  apply wp_bind, wp_when; [|intros _; by eapply Htail].
  intros Ht%Z.eqb_eq. apply wp_bind. eapply wp_fin_quiet; [done..|congruence|]. intros b s2 k2 Hs2 Hk2 Hsh2.
  apply wp_when; [|intros _; eapply Htail; [done..|congruence]].
  intros _. eapply wp_close_wait_quiet; [done..|]. intros s3 Hs3 Ht3. eapply Htail; [done|by rewrite Ht3|congruence].
Qed.

(** Frames and ticks. *)
Inductive rx_run : net → net → Prop :=
| rr_done s : rx_run s s
| rr_frame s data s1 s2 : Z.of_nat (length data) < 65536 → honest_frame ip data →
    net_process_packet others data (Z.of_nat (length data)) s = Done ((), s1) → rx_run s1 s2 → rx_run s s2
| rr_tick s s1 s2 : net_tcp_timer_tick (ipv4_send others) s = Done ((), s1) → rx_run s1 s2 → rx_run s s2.

Lemma rx_run_shut fl s s' i k : net_ok ip mac false fl s → rx_run s s' → socket_table s !! i = Some k →
  net_ok ip mac false fl s' ∧ ∃ k', socket_table s' !! i = Some k' ∧ shut k' = shut k.
Proof.
  intros Hs Hr. revert Hs k. induction Hr as [s|s data s1 s2 Hl Hh Hrun _ IH|s s1 s2 Hrun _ IH]; intros Hs k Hk.
  - eauto.
  - pose proof (wp_process_packet ip mac others eq quiet_after fl data s Hs Hl Hh) as Hw.
    unfold wp in Hw. rewrite Hrun in Hw. destruct Hw as [Hs1 [Hm|He]].
    + destruct (Hm i k Hk) as (k1&Hk1&He1&_). rewrite <-He1. by apply IH.
    + rewrite He in Hk. by apply IH.
  - pose proof (wp_timer_tick ip mac others eq quiet_after 2 (Segment 0 [] 0 0 0 []) fl s Hs) as Hw.
    unfold wp in Hw. unfold ipv4_send in Hrun. rewrite Hrun in Hw. destruct Hw as [Hs1 Hm].
    destruct (Hm i k Hk) as (k1&Hk1&He1&_). rewrite <-He1. by apply IH.
Qed.
End connection.
