(* ===== verification/NetProps.v ===== *)
(** * Properties of the network stack *)

From stdpp Require Import relations.
From S2P Require Import Prelude Bits NetState Net SocketOps NetRing NetSpec NetRecv NetInput NetStream NetFrames NetCalls NetLife NetQueue NetSystem.

(** The stack after boot, with memory for 64 allocations. *)
Definition boot_ip : list Z := [10; 0; 2; 15].
Definition boot_mac : list Z := [82; 84; 0; 18; 52; 86].
Definition boot_net : net :=
  Net (replicate 64 zero_socket) false (replicate 32 (ArpEntry [0; 0; 0; 0] (replicate 6 0) false)) 0
    boot_mac boot_ip 49152 0 true [] [] (replicate 64 true) (replicate 256 None).

Lemma zero_socket_ok : sock_ok boot_ip zero_socket.
Proof. apply fresh_ok; [done..|]. done. Qed.

Lemma boot_net_ok : net_ok boot_ip boot_mac false true boot_net.
Proof.
  split; try done.
  - apply Forall_replicate, zero_socket_ok.
  - by apply Forall_replicate.
  - intros fd i g Hf. apply lookup_replicate in Hf as [Hf _]. done.
Qed.

Lemma idle_quiet : others_quiet boot_ip boot_mac id.
Proof. done. Qed.

(** A frame with a TCP segment, for examples. *)
Definition be16 (v : Z) : list Z := [v / 256; v `mod` 256].
Definition be32 (v : Z) : list Z := be16 (v / 65536) ++ be16 (v `mod` 65536).
Definition example_frame (src : list Z) (sport dport seq flags : Z) (payload : list Z) : list Z :=
  boot_mac ++ replicate 6 2 ++ be16 ETH_TYPE_IPV4 ++
  [0x45; 0] ++ be16 (40 + Z.of_nat (length payload)) ++ [0; 0; 0; 0; 64; IP_PROTO_TCP; 0; 0] ++ src ++ boot_ip ++
  be16 sport ++ be16 dport ++ be32 seq ++ be32 0 ++ [0x50; flags] ++ be16 4096 ++ [0; 0; 0; 0] ++ payload.

(** ** Safety *)




(** ** TCP *)

(** The frame holds the next data of the connection on socket [i], and they
    fit. *)
Record next_data (ip data : list Z) (s : net) (i : nat) (k : socket) (σ : segment) : Prop := {
  nd_frame : tcp_frame ip data;
  nd_seg : σ = tcp_seg (ip_src (drop 14 data)) (frame_tcp data) (frame_tcp_len data);
  nd_len : 20 ≤ frame_tcp_len data ∧ tcp_header_len (frame_tcp data) < frame_tcp_len data;
  nd_socket : ∃ l, tcp_lookup (sg_dport σ) (sg_sport σ) (sg_ip σ) (socket_table s) 0 None = (Some i, l);
  nd_state : s_tcp_state k = TCP_STATE_ESTABLISHED;
  nd_seq : s_rcv_nxt k = sg_seq σ;
  nd_room : ring_count k + Z.of_nat (length (sg_payload σ)) < 8191;
  nd_flags : has_flag (frame_tcp data !!! 13%nat) TCP_FLAG_RST = false ∧
    has_flag (frame_tcp data !!! 13%nat) TCP_FLAG_FIN = false;
}.

(** C4. A TCP connection delivers a prefix of its peer's byte stream.  Frames
    may repeat, overtake each other or get lost, and mix with other traffic,
    timer ticks and reads: what has been read is a prefix of the stream, the
    ring holds the bytes that follow, and while the connection is open
    [rcv_nxt] is the number of the first byte missing.  Data that are next in
    the stream and fit are accepted. *)
Theorem tcp_stream ip mac others fl str base i s0 k0 s got :
  others_quiet ip mac others → net_ok ip mac false fl s0 → socket_table s0 !! i = Some k0 →
  streaming str base [] k0 → stream_run ip others i str base s0 s got →
  got `prefix_of` str ∧
  ∃ k, socket_table s !! i = Some k ∧ streaming str base got k ∧
    ∀ data σ, next_data ip data s i k σ →
      ∃ s' k', net_process_packet others data (Z.of_nat (length data)) s = Done ((), s') ∧
        socket_table s' !! i = Some k' ∧ ring_bytes k' = ring_bytes k ++ sg_payload σ ∧
        s_rcv_nxt k' = u32 (s_rcv_nxt k + Z.of_nat (length (sg_payload σ))).
Proof.
  intros Ho H0 Hk0 Hst0 Hrun.
  destruct (stream_run_inv ip mac others Ho str base fl i s0 k0 s got H0 Hk0 Hst0 Hrun) as (Hs&k&Hk&Hst).
  split.
  { destruct (st_bytes _ _ _ _ Hst) as (n&_&Hb&_). exists (ring_bytes k ++ drop n str).
    by rewrite app_assoc, Hb, take_drop. }
  exists k. do 2 (split; [done|]). intros data σ [Hf -> [Hl Hh] [l Hlook] Hest Hseq Hroom [Hrst Hfin]].
  rewrite process_tcp_frame by by rewrite (no_ip _ _ _ _ _ Hs).
  destruct (proj1 (wp_run _ _ _) (wp_tcp_in_order ip mac others eq (quiet_after ip mac others Ho) 2 fl _ _ _ s i l k
    Hs (frame_tcp_fits ip data Hf) Hl Hh Hlook Hk Hest Hseq Hroom Hrst Hfin)) as ([]&s'&Hr&_&k'&Hk'&Hb&Hn&_).
  by exists s', k'.
Qed.

(** A connection from port 80 of host 10.0.2.2 to port 4000, on socket 0. *)
Definition peer_ip : list Z := [10; 0; 2; 2].
Definition open_socket : socket :=
  set_s_rcv_nxt 5000 (set_s_tcp_state TCP_STATE_ESTABLISHED (set_s_rx_buf (replicate (Z.to_nat 8192) 0)
  (set_s_rx_buf_size 8192 (set_s_remote_ip peer_ip (set_s_remote_port 80 (set_s_local_port 4000
  (set_s_type SOCKET_TYPE_TCP (set_s_domain AF_INET (set_s_valid true zero_socket))))))))).
Definition open_net : net := with_sock 0 open_socket boot_net.

Lemma open_socket_ok : sock_ok boot_ip open_socket.
Proof.
  pose proof zero_socket_ok as []. by split.
Qed.

Lemma open_net_ok : net_ok boot_ip boot_mac false true open_net.
Proof. apply net_ok_insert; [apply boot_net_ok | apply open_socket_ok]. Qed.

Lemma tcp_stream_witness :
  ∃ s' k', net_process_packet id (example_frame peer_ip 80 4000 5000 TCP_FLAG_ACK [104; 105]) 56 open_net = Done ((), s') ∧
    socket_table s' !! 0%nat = Some k' ∧ ring_bytes k' = [104; 105] ∧ s_rcv_nxt k' = 5002.
Proof.
  destruct (tcp_stream boot_ip boot_mac id true [104; 105] 5000 0 open_net open_socket open_net [])
    as (_&k&Hk&_&Hnext).
  - apply idle_quiet.
  - apply open_net_ok.
  - done.
  - split; try done. exists 0%nat. split; [cbn; lia|]. done.
  - apply sr_start.
  - injection Hk as <-.
    destruct (Hnext (example_frame peer_ip 80 4000 5000 TCP_FLAG_ACK [104; 105])
      (Segment IP_PROTO_TCP peer_ip 80 4000 5000 [104; 105])) as (s'&k'&Hrun&Hk'&Hb&Hn).
    + split; [|try done..|]; [|exists None; vm_compute; reflexivity|done..].
      split; [split; [vm_compute; lia|done]|done..].
    + exists s', k'. split; [exact Hrun|]. split; [exact Hk'|]. rewrite Hb, Hn. split; vm_compute; reflexivity.
Defined.

(** ** Datagrams *)

(** C27. A datagram socket is a queue of datagrams.  A datagram that arrives for
    the port and fits goes to the end of the queue with its source address and
    port; [recvfrom] returns the first one, cut to the size of the user's
    buffer, with the address and port it came from, and takes all of it from
    the queue. *)
Theorem udp_queue ip mac fl i k q s :
  net_ok ip mac false fl s → socket_table s !! i = Some k → s_valid k = true →
  s_type k = SOCKET_TYPE_UDP → s_domain k ≠ AF_UNIX → Forall dgram_ok q → ring_bytes k = encode_all q →
  (∀ src data len, let σ := udp_seg src data in
    length src = 4%nat → (Z.to_nat len ≤ length data)%nat → 8 ≤ swap16 (word16 data 4) ≤ len →
    find_index (udp_matches (sg_dport σ)) (socket_table s) = Some i →
    ring_count k + swap16 (word16 data 4) < 8191 →
    ∃ s' k', net_udp_receive src data len s = Done ((), s') ∧ socket_table s' !! i = Some k' ∧
      ring_bytes k' = encode_all (q ++ [(src, sg_sport σ, sg_payload σ)])) ∧
  (∀ others sleeps fd g len d q' ks,
    q = d :: q' → file_at fd s = Some (FSocket i g) → 0 < len → n_kmalloc s = true :: ks →
    ∃ s' k', sys_recvfrom others sleeps fd len true true s =
        Done ((Z.of_nat (length (take (Z.to_nat len) d.2)), take (Z.to_nat len) d.2,
               Some (swap16 d.1.2, d.1.1)), s') ∧
      socket_table s' !! i = Some k' ∧ ring_bytes k' = encode_all q').
Proof.
  intros Hs Hk Hv Hty Hdom Hq Hb. destruct (net_ok_sock _ _ _ _ _ _ _ Hs Hk) as [Hok Hi].
  pose proof (sk_ring _ _ Hok Hv) as Hring. split.
  - intros src data len σ Hsrc Hlen Hul Hfind Hroom.
    destruct (proj1 (wp_run _ _ _) (wp_udp_receive ip mac any_table fl src data len s Hs Hlen Hsrc))
      as ([]&s'&Hrun&Hs'&_&Hst). exists s'. eexists. split; [done|]. split; [by apply Hst|].
    rewrite bytes_put_all, Hb; [|done|].
    + unfold encode_all. rewrite fmap_app, concat_app. cbn. by rewrite app_nil_r.
    + pose proof (swap16_range (word16 data 4)) as Hr.
      assert (Hp : length (sg_payload σ) = Z.to_nat (swap16 (word16 data 4) - 8))
        by (cbn [sg_payload udp_seg σ]; apply length_take_drop; lia).
      assert (Hd : dgram_ok (src, sg_sport σ, sg_payload σ))
        by (split; [done|apply swap16_range|]; cbn [snd]; rewrite Hp; lia).
      change (datagram _ _ _) with (encode (src, sg_sport σ, sg_payload σ)).
      rewrite (length_encode _ Hd). cbn [snd]. rewrite Hp. lia.
  - intros others sleeps fd g len d q' ks -> Hf Hlen Hm. apply Forall_cons in Hq as [Hd Hq].
    assert (Hw : wp (sys_recvfrom others sleeps fd len true true) (λ r s',
      r = (Z.of_nat (length (take (Z.to_nat len) d.2)), take (Z.to_nat len) d.2, Some (swap16 d.1.2, d.1.1)) ∧
      ∃ k', socket_table s' !! i = Some k' ∧ ring_bytes k' = encode_all q') s).
    { eapply wp_recvfrom_datagram with (rest := encode_all q'); [done..|]. intros s' k' Ht _ _ Hb'. split; [done|]. exists k'.
      split; [|done]. rewrite Ht. apply list_lookup_insert_eq. by eapply lookup_lt_Some. }
    apply wp_run in Hw as (r&s'&Hrun&->&k'&Hk'). by exists s', k'.
Qed.

(** Socket 0 is bound to port 7 and holds one datagram; descriptor 0 is open
    on it. *)
Definition udp_socket : socket :=
  set_s_rx_buf (replicate (Z.to_nat 8192) 0) (set_s_rx_buf_size 8192 (set_s_local_port 7
  (set_s_type SOCKET_TYPE_UDP (set_s_domain AF_INET (set_s_valid true zero_socket))))).
Definition udp_first : dgram := (peer_ip, 9, [1; 2; 3]).
Definition udp_net : net :=
  let s := with_sock 0 (put_all udp_socket (encode udp_first)) boot_net in
  set_n_files (<[0%nat := Some (FSocket 0 O_RDWR)]> (n_files s)) s.

Lemma udp_socket_ring : ring_ok udp_socket.
Proof. by split. Qed.

Lemma udp_net_ok : net_ok boot_ip boot_mac false true udp_net.
Proof.
  apply net_ok_files; [|unfold MAX_SOCKETS; lia].
  apply net_ok_insert; [apply boot_net_ok|].
  assert (Hr : ring_ok (put_all udp_socket (encode udp_first))) by apply put_all_ok, udp_socket_ring.
  destruct (put_all_eq (encode udp_first) udp_socket) as (w&b&Heq).
  pose proof zero_socket_ok as []. split; try (by rewrite Heq). done.
Qed.

Lemma udp_queue_witness :
  ∃ s' k', sys_recvfrom id 0 0 100 true true udp_net = Done ((3, [1; 2; 3], Some (swap16 9, peer_ip)), s') ∧
    socket_table s' !! 0%nat = Some k' ∧ ring_bytes k' = [].
Proof.
  refine (proj2 (udp_queue boot_ip boot_mac true 0 (put_all udp_socket (encode udp_first)) [udp_first] udp_net
    udp_net_ok _ _ _ _ _ _) id 0%nat 0 O_RDWR 100 udp_first [] (replicate 63 true) _ _ _ _).
  - apply (with_sock_lookup 0 _ boot_net). vm_compute. lia.
  - by destruct (put_all_eq (encode udp_first) udp_socket) as (w&b&->).
  - by destruct (put_all_eq (encode udp_first) udp_socket) as (w&b&->).
  - by destruct (put_all_eq (encode udp_first) udp_socket) as (w&b&->).
  - by repeat constructor.
  - by rewrite (bytes_put_all _ _ udp_socket_ring).
  - done.
  - done.
  - done.
  - done.
Defined.

(** ** Loopback *)

(** C39. A connection request from the own address (or 127.x) to a port that
    somebody listens on stops the machine: the answer is received by the call
    that sends it, under the table lock it already holds.  The first four
    allocations succeed, and there is a free socket and room in the queue of
    the listener. *)
Theorem loopback_syn_deadlock ip mac others fl data s l lk i ks :
  let src := ip_src (drop 14 data) in
  let p := frame_tcp data in
  let n := frame_tcp_len data in
  let σ := tcp_seg src p n in
  net_ok ip mac false fl s → tcp_frame ip data → local_address ip src →
  20 ≤ n → tcp_header_len p ≤ n → has_flag (p !!! 13%nat) TCP_FLAG_SYN = true →
  tcp_lookup (sg_dport σ) (sg_sport σ) src (socket_table s) 0 None = (None, Some l) →
  socket_table s !! l = Some lk → s_accept_count lk < 8 →
  find_index (λ k, negb (s_valid k)) (socket_table s) = Some i →
  n_kmalloc s = true :: true :: true :: true :: ks →
  net_process_packet others data (Z.of_nat (length data)) s = Stop Spinning.
Proof.
  intros src p n σ Hs Hf Hloc Hn Hh Hsyn Hlook Hlk Hacc Hfree Hm.
  pose proof (no_ip _ _ _ _ _ Hs) as Hip. pose proof (no_ip_len _ _ _ _ _ Hs) as Hipl.
  rewrite process_tcp_frame by by rewrite Hip. fold src p n.
  pose proof (frame_tcp_fits ip data Hf) as Hlen. fold p n in Hlen.
  assert (Hsrc : length src = 4%nat).
  { destruct Hf as [[Hl _] _ _ _ _ _]. apply length_take_drop. rewrite length_drop. lia. }
  unfold net_tcp_receive. rewrite (proj2 (Z.ltb_ge n 20)) by lia.
  do 2 (apply stop_bind, wp_rd16; [lia|]). do 2 (apply stop_bind, wp_rd32; [lia|]).
  do 2 (apply stop_bind, wp_rd8; [lia|]). fold (tcp_header_len p).
  rewrite (proj2 (Z.ltb_ge n (tcp_header_len p))) by lia.
  unfold table_lock_irqsave. apply stop_bind, wp_bind, wp_get, wp_bind, wp_modify.
  rewrite (no_lock _ _ _ _ _ Hs). apply wp_bind, wp_modify, wp_ret, stop_bind, wp_get, stop_first.
  set (s1 := set_socket_table_lock true _). change (socket_table s1) with (socket_table s).
  change (swap16 (word16 p 2)) with (sg_dport σ). change (swap16 (word16 p 0)) with (sg_sport σ).
  rewrite Hlook, Hsyn. cbn [when]. unfold tcp_accept_syn.
  apply stop_bind. eapply wp_get_sock; [done|]. rewrite (proj2 (Z.ltb_lt _ _) Hacc).
  apply stop_bind, wp_get. change (socket_table s1) with (socket_table s). rewrite Hfree.
  destruct (find_index_lookup _ _ _ Hfree) as (k&Hk&_).
  apply stop_bind. unfold kmalloc_answer. apply wp_bind, wp_get, wp_bind, wp_modify, wp_ret.
  change (n_kmalloc s1) with (n_kmalloc s). rewrite Hm. cbn [head default from_option id negb tail].
  apply stop_bind. eapply wp_upd_sock; [done|]. apply stop_first.
  eapply send_segment_spins; cbn; [apply list_lookup_insert_eq; by eapply lookup_lt_Some|..];
    rewrite ?Hip; done.
Qed.

(** A socket that listens on port 80, and a request from 10.0.2.15 itself. *)
Definition listening_socket : socket := set_s_tcp_state TCP_STATE_LISTEN (set_s_local_port 80 open_socket).
Definition listening_net : net := with_sock 0 listening_socket boot_net.

Lemma listening_socket_ok : sock_ok boot_ip listening_socket.
Proof.
  unfold listening_socket. generalize open_socket_ok. generalize open_socket as k. intros k.
  by apply sock_ok_core.
Qed.

Lemma listening_net_ok : net_ok boot_ip boot_mac false true listening_net.
Proof. apply (net_ok_insert _ _ _ _ boot_net), listening_socket_ok. apply boot_net_ok. Qed.

Lemma loopback_syn_deadlock_witness :
  let data := example_frame boot_ip 4000 80 1 TCP_FLAG_SYN [] in
  net_process_packet id data (Z.of_nat (length data)) listening_net = Stop Spinning.
Proof.
  apply (loopback_syn_deadlock boot_ip boot_mac id true (example_frame boot_ip 4000 80 1 TCP_FLAG_SYN [])
    listening_net 0 listening_socket 1 (replicate 60 true)).
  - apply listening_net_ok.
  - split; [split; [vm_compute; lia|done]|done..].
  - by right.
  - done.
  - done.
  - done.
  - vm_compute. reflexivity.
  - reflexivity.
  - done.
  - reflexivity.
  - done.
Defined.

(** ** Slots that are used again *)

(** C40. Once a socket has been closed, every connection that an incoming
    request puts into its slot is dead: the slot keeps the shutdown flags of
    the closed socket, whatever frames and ticks follow, and every write on the
    new connection is refused with [EPIPE]. *)
Theorem reused_slot_refuses_writes ip mac others fl i k s r s1 s2 k2 :
  others_quiet ip mac others → net_ok ip mac false fl s → socket_table s !! i = Some k → s_valid k = true →
  socket_close others i s = Done (r, s1) → rx_run ip others s1 s2 →
  socket_table s2 !! i = Some k2 → s_valid k2 = true → s_type k2 = SOCKET_TYPE_TCP →
  ∀ sleeps buf flags, socket_write others sleeps i buf flags s2 = Done (- EPIPE, s2).
Proof.
  intros Ho Hs Hk Hv Hclose Hrun Hk2 Hv2 Hty2 sleeps buf flags.
  pose proof (wp_close_shut ip mac others Ho fl i k s Hs Hk Hv) as Hw. unfold wp in Hw. rewrite Hclose in Hw.
  destruct Hw as (Hs1&k1&Hk1&Hsh1).
  destruct (rx_run_shut ip mac others Ho fl s1 s2 i k1 Hs1 Hrun Hk1) as (_&k2'&Hk2'&Hsh2).
  rewrite Hk2 in Hk2'. injection Hk2' as <-. rewrite Hsh1 in Hsh2. injection Hsh2 as _ Hw.
  apply wp_eq. unfold socket_write. apply wp_bind. eapply wp_get_sock; [done|]. rewrite Hv2. cbn [negb].
  destruct (s_domain k2 =? AF_UNIX).
  - unfold socket_pair_send. apply wp_bind. eapply wp_get_sock; [done|].
    destruct (s_peer k2); [|by apply wp_ret]. rewrite Hw. by apply wp_ret.
  - rewrite Hty2, Z.eqb_refl, Hw. by apply wp_ret.
Qed.

(** Socket 1 is closed; then a request for the listener's port arrives. *)
Definition reuse_net : net := with_sock 1 udp_socket listening_net.
Definition state_of {A} (r : outcome (A * net)) (s : net) : net :=
  match r with Done (_, s') => s' | Stop _ => s end.
Lemma wp_state_of {A} (m : NM A) Q s : wp m Q s →
  ∃ a, m s = Done (a, state_of (m s) s) ∧ Q a (state_of (m s) s).
Proof. unfold wp. destruct (m s) as [[a s']|]; [by exists a|done]. Qed.

Definition closed_net : net := state_of (socket_close id 1 reuse_net) reuse_net.
Definition syn_frame : list Z := example_frame peer_ip 4000 80 1 TCP_FLAG_SYN [].
Definition syn_net : net :=
  state_of (net_process_packet id syn_frame (Z.of_nat (length syn_frame)) closed_net) closed_net.

Lemma udp_socket_ok : sock_ok boot_ip udp_socket.
Proof. apply fresh_ok; [done..|]. intros _. apply udp_socket_ring. Qed.

Lemma reuse_net_ok : net_ok boot_ip boot_mac false true reuse_net.
Proof. apply (net_ok_insert _ _ _ _ listening_net), udp_socket_ok. apply listening_net_ok. Qed.

Lemma syn_frame_honest : honest_frame boot_ip syn_frame.
Proof. intros _ _. split; [done..|]. by split. Qed.

Lemma reused_slot_refuses_writes_witness :
  socket_write id 0 1 [104; 105] 0 syn_net = Done (- EPIPE, syn_net).
Proof.
  assert (Hk : socket_table reuse_net !! 1%nat = Some udp_socket) by reflexivity.
  assert (Hc : ∃ r, socket_close id 1 reuse_net = Done (r, closed_net) ∧ net_ok boot_ip boot_mac false true closed_net).
  { destruct (wp_state_of _ _ _ (wp_close_shut boot_ip boot_mac id idle_quiet true 1 udp_socket reuse_net
      reuse_net_ok Hk eq_refl)) as (r&Hclose&Hs1&_). exists r. exact (conj Hclose Hs1). }
  destruct Hc as (r&Hclose&Hs1).
  assert (Hlen : Z.of_nat (length syn_frame) < 65536) by done.
  assert (Hf : net_process_packet id syn_frame (Z.of_nat (length syn_frame)) closed_net = Done ((), syn_net)
    ∧ net_ok boot_ip boot_mac false true syn_net).
  { destruct (wp_state_of _ _ _ (wp_process_packet boot_ip boot_mac id eq (quiet_after _ _ id idle_quiet) true
      syn_frame closed_net Hs1 Hlen syn_frame_honest)) as ([]&Hframe&Hs2&_). exact (conj Hframe Hs2). }
  destruct Hf as [Hframe Hs2].
  destruct (net_ok_lookup _ _ _ _ _ 1 Hs2) as [k2 Hk2]; [unfold MAX_SOCKETS; lia|].
  assert (Hv : s_valid <$> (socket_table syn_net !! 1%nat) = Some true) by (vm_compute; reflexivity).
  assert (Hty : s_type <$> (socket_table syn_net !! 1%nat) = Some SOCKET_TYPE_TCP) by (vm_compute; reflexivity).
  rewrite Hk2 in Hv, Hty. injection Hv as Hv. injection Hty as Hty.
  apply (reused_slot_refuses_writes boot_ip boot_mac id true 1 udp_socket reuse_net r closed_net syn_net k2);
    [apply idle_quiet|apply reuse_net_ok|exact Hk|reflexivity|exact Hclose| |exact Hk2|exact Hv|exact Hty].
  exact (rr_frame _ _ _ _ _ _ Hlen syn_frame_honest Hframe (rr_done _ _ _)).
Defined.
