(* ===== verification/Spinlock.v ===== *)
(** * Spin locks: spinlock.c

    Several processors use one lock.  Each atomic instruction of [spin_lock],
    [spin_trylock] and [spin_unlock] on the lock is one step of one processor,
    and the steps of the processors interleave in any order. *)

From stdpp Require Import relations.
From S2P Require Import Prelude.














(** ** Invariant *)








(** ** Properties *)



