(* ===== verification/Tty.v ===== *)
(** * The terminal: tty.c and the serial port

    The console terminal: its ring of input characters, the line discipline,
    reading, and the requests of [ioctl].  Wait queues, signals and user memory
    are those of the scheduler and of the page tables; [read_wq] and [io_event]
    are the addresses of the two wait queues.  A [char] is signed.  Sending a
    byte waits until the port is ready; the port is taken to become ready. *)

From S2P Require Import Prelude Bits Ram Frames Vmm Uaccess Links SchedState Sched WaitQueue Signal.

Definition TTY_BUF_SIZE : Z := 4096.
Definition ISIG : Z := 0x0001.
Definition ICANON : Z := 0x0002.
Definition ECHO : Z := 0x0008.
Definition ICRNL : Z := 0x0100.
Definition SIGINT : Z := 2.
Definition SIGTSTP : Z := 20.

(** ** State *)

Record winsize := Winsize {
  ws_row : Z;
  ws_col : Z;
  ws_xpixel : Z;
  ws_ypixel : Z;
}.

(** [c_pad] are the three bytes that fill the structure to 52. *)
Record termios := Termios {
  c_iflag : Z;
  c_oflag : Z;
  c_cflag : Z;
  c_lflag : Z;
  c_line : Z;
  c_cc : list Z;
  c_pad : list Z;
}.
Definition cc (t : termios) (i : nat) : Z := nth i (c_cc t) 0.

(** [struct tty_device] without the wait queue, and the two static counters. *)
Record tty_device := TtyDevice {
  ibuf : list Z;
  tty_head : Z;
  tty_tail : Z;
  tty_winsize : winsize;
  tty_termios : termios;
  fg_pgid : Z;
  tty_sid : Z;
  tty_lock : bool;
  commit_count : Z;
  canon_len : Z;
}.

Definition set_ibuf x (d : tty_device) := TtyDevice x (tty_head d) (tty_tail d) (tty_winsize d) (tty_termios d)
  (fg_pgid d) (tty_sid d) (tty_lock d) (commit_count d) (canon_len d).
Definition set_head x (d : tty_device) := TtyDevice (ibuf d) x (tty_tail d) (tty_winsize d) (tty_termios d)
  (fg_pgid d) (tty_sid d) (tty_lock d) (commit_count d) (canon_len d).
Definition set_tail x (d : tty_device) := TtyDevice (ibuf d) (tty_head d) x (tty_winsize d) (tty_termios d)
  (fg_pgid d) (tty_sid d) (tty_lock d) (commit_count d) (canon_len d).
Definition set_winsize x (d : tty_device) := TtyDevice (ibuf d) (tty_head d) (tty_tail d) x (tty_termios d)
  (fg_pgid d) (tty_sid d) (tty_lock d) (commit_count d) (canon_len d).
Definition set_termios x (d : tty_device) := TtyDevice (ibuf d) (tty_head d) (tty_tail d) (tty_winsize d) x
  (fg_pgid d) (tty_sid d) (tty_lock d) (commit_count d) (canon_len d).
Definition set_fg_pgid x (d : tty_device) := TtyDevice (ibuf d) (tty_head d) (tty_tail d) (tty_winsize d) (tty_termios d)
  x (tty_sid d) (tty_lock d) (commit_count d) (canon_len d).
Definition set_tty_lock x (d : tty_device) := TtyDevice (ibuf d) (tty_head d) (tty_tail d) (tty_winsize d) (tty_termios d)
  (fg_pgid d) (tty_sid d) x (commit_count d) (canon_len d).
Definition set_commit x (d : tty_device) := TtyDevice (ibuf d) (tty_head d) (tty_tail d) (tty_winsize d) (tty_termios d)
  (fg_pgid d) (tty_sid d) (tty_lock d) x (canon_len d).
Definition set_canon x (d : tty_device) := TtyDevice (ibuf d) (tty_head d) (tty_tail d) (tty_winsize d) (tty_termios d)
  (fg_pgid d) (tty_sid d) (tty_lock d) (commit_count d) x.

(** The serial port: [initialized], and what was written to its registers. *)
Record serial := Serial {
  se_initialized : bool;
  se_out : list (Z * Z);
}.

Record tty_sys (S : Type) := TtySys {
  console_tty : tty_device;
  ts_sched : sched;
  ts_vm : vmm S;
  ts_serial : serial;
}.
Arguments TtySys {_}.
Arguments console_tty {_}.
Arguments ts_sched {_}.
Arguments ts_vm {_}.
Arguments ts_serial {_}.

(** What [tty_driver_read] does: it returns the characters, or sleeps and goes
    on at the [while] it is in. *)
Inductive read_kont :=
  | InLine (flags : bool) (count : Z)
  | InRaw (flags : bool) (min_chars count : Z).
Inductive read_result :=
  | Copied (chars : list Z)
  | Asleep (k : read_kont).

(** ** The structures as bytes *)

Definition le_bytes (n : nat) (x : Z) : list Z := (λ i, (x >>! (8 * Z.of_nat i)) &! 0xff) <$> seq 0 n.
Fixpoint of_le (bytes : list Z) : Z :=
  match bytes with
  | [] => 0
  | b :: bytes => b + 256 * of_le bytes
  end.

Definition winsize_bytes (w : winsize) : list Z :=
  le_bytes 2 (ws_row w) ++ le_bytes 2 (ws_col w) ++ le_bytes 2 (ws_xpixel w) ++ le_bytes 2 (ws_ypixel w).
Definition bytes_winsize (b : list Z) : winsize :=
  Winsize (of_le (take 2 b)) (of_le (take 2 (drop 2 b))) (of_le (take 2 (drop 4 b))) (of_le (take 2 (drop 6 b))).
Definition termios_bytes (t : termios) : list Z :=
  le_bytes 4 (c_iflag t) ++ le_bytes 4 (c_oflag t) ++ le_bytes 4 (c_cflag t) ++ le_bytes 4 (c_lflag t)
  ++ [c_line t] ++ c_cc t ++ c_pad t.
Definition bytes_termios (b : list Z) : termios :=
  Termios (of_le (take 4 b)) (of_le (take 4 (drop 4 b))) (of_le (take 4 (drop 8 b))) (of_le (take 4 (drop 12 b)))
    (nth 16 b 0) (take 32 (drop 17 b)) (drop 49 b).

Section tty.
Context {S : Type} `{FrameAlloc S} (read_wq io_event : Z).
Abbreviation TM := (prog (tty_sys S)).

Definition in_sched {A} (m : SM A) : TM A :=
  zoom ts_sched (λ k s, TtySys (console_tty s) k (ts_vm s) (ts_serial s)) m.
Definition in_vmm {A} (m : prog (vmm S) A) : TM A :=
  zoom ts_vm (λ v s, TtySys (console_tty s) (ts_sched s) v (ts_serial s)) m.
Definition device : TM tty_device := gets console_tty.
Definition upd_tty (f : tty_device → tty_device) : TM unit :=
  modify (λ s, TtySys (f (console_tty s)) (ts_sched s) (ts_vm s) (ts_serial s)).

(** ** The serial port *)

Definition COM1_PORT : Z := 0x3F8.
Definition outb (port value : Z) : TM unit :=
  modify (λ s, TtySys (console_tty s) (ts_sched s) (ts_vm s)
    (Serial (se_initialized (ts_serial s)) (se_out (ts_serial s) ++ [(port, u8 value)]))).

Definition serial_init : TM unit :=
  outb (COM1_PORT + 1) 0x00;;
  outb (COM1_PORT + 3) 0x80;;
  outb (COM1_PORT + 0) 0x03;;
  outb (COM1_PORT + 1) 0x01;;
  outb (COM1_PORT + 3) 0x03;;
  outb (COM1_PORT + 2) 0xC7;;
  outb (COM1_PORT + 4) 0x0B;;
  modify (λ s, TtySys (console_tty s) (ts_sched s) (ts_vm s) (Serial true (se_out (ts_serial s)))).

Definition serial_write_char (ch : Z) : TM unit :=
  s ← get;
  when (se_initialized (ts_serial s))
    (when (ch =? 10) (outb COM1_PORT 13);; outb COM1_PORT ch).
Definition serial_write_string (text : list Z) : TM unit := for_each text serial_write_char.

(** ** The lock *)

Definition lock_irqsave : TM bool :=
  flags ← in_sched save_interrupts_and_disable;
  d ← device;
  if tty_lock d then spin else upd_tty (set_tty_lock true);; mret flags.
Definition unlock_irqrestore (flags : bool) : TM unit :=
  upd_tty (set_tty_lock false);; in_sched (restore_interrupts flags).

(** ** The driver *)

Definition tty_init : TM unit :=
  upd_tty (λ _, TtyDevice (replicate (Z.to_nat TTY_BUF_SIZE) 0) 0 0 (Winsize 24 80 0 0)
    (Termios 0x500 0x5 0xBF 0x8A3B 0 (<[0%nat := 3]> (<[4%nat := 4]> (<[6%nat := 1]> (replicate 32 0)))) [0; 0; 0])
    0 0 false 0 0);;
  in_sched (wait_queue_init read_wq).

Definition tty_driver_write (buf : list Z) : TM Z :=
  for_each buf serial_write_char;; mret (i32 (Z.of_nat (length buf))).

Definition wake_readers : TM unit := in_sched (wait_queue_wake_all read_wq);; in_sched (io_event_notify io_event).

(** A key that sends a signal. *)
Definition tty_signal (key sig : Z) : TM unit :=
  d ← device;
  when (has (c_lflag (tty_termios d)) ECHO)
    (serial_write_char 94;; serial_write_char key;; serial_write_char 10);;
  if negb (fg_pgid d =? 0) then in_sched (task_send_signal_pgid (fg_pgid d) sig) else
  k ← gets ts_sched;
  if current_task k =? 0 then mret () else
  t ← in_sched (rd (current_task k));
  when (negb (t_process t =? 0)) (in_sched (task_send_signal (current_task k) sig)).

Definition tty_echo (ch : Z) : TM unit :=
  d ← device; when (has (c_lflag (tty_termios d)) ECHO) (serial_write_char ch).

(** The character goes to the ring, if there is room. *)
Definition tty_put (ch : Z) : TM bool :=
  d ← device;
  let next_head := u32 (tty_head d + 1) `mod` TTY_BUF_SIZE in
  if next_head =? tty_tail d then mret false else
  _ ← deref (ibuf d !! Z.to_nat (tty_head d));
  upd_tty (set_ibuf (<[Z.to_nat (tty_head d) := ch]> (ibuf d)));;
  upd_tty (set_head next_head);;
  mret true.
Definition tty_get : TM Z :=
  d ← device;
  ch ← deref (ibuf d !! Z.to_nat (tty_tail d));
  upd_tty (set_tail (u32 (tty_tail d + 1) `mod` TTY_BUF_SIZE));;
  mret ch.

(** Erasing and [Ctrl-D] return without giving the lock back. *)
Definition tty_erase : TM unit :=
  d ← device;
  when (0 <? canon_len d)
    (upd_tty (set_head (if 0 <? tty_head d then tty_head d - 1 else TTY_BUF_SIZE - 1));;
     upd_tty (set_canon (canon_len d - 1));;
     when (has (c_lflag (tty_termios d)) ECHO)
       (serial_write_char 8;; serial_write_char 32;; serial_write_char 8)).
Definition tty_commit : TM unit :=
  d ← device;
  upd_tty (set_canon 0);; upd_tty (set_commit (u32 (commit_count d + 1)));; wake_readers.

Definition tty_input_char (ch : Z) : TM unit :=
  flags ← lock_irqsave;
  d ← device;
  let t := tty_termios d in
  if has (c_lflag t) ISIG && (ch =? cc t 0) then tty_signal 67 SIGINT;; unlock_irqrestore flags else
  if has (c_lflag t) ISIG && (ch =? 26) then tty_signal 90 SIGTSTP;; unlock_irqrestore flags else
  if has (c_lflag t) ICANON then
    if (ch =? 127) || (ch =? 8) then tty_erase else
    if ch =? cc t 4 then tty_commit else
    let ch := if (ch =? 13) && has (c_iflag t) ICRNL then 10 else ch in
    tty_echo ch;;
    stored ← tty_put ch;
    when stored
      (if ch =? 10 then tty_commit
       else d ← device; upd_tty (set_canon (u32 (canon_len d + 1))));;
    unlock_irqrestore flags
  else
    tty_echo ch;;
    stored ← tty_put ch;
    when stored wake_readers;;
    unlock_irqrestore flags.

(** The serial interrupt: every byte the port holds is a character. *)
Definition serial_irq (received : list Z) : TM unit :=
  s ← get;
  when (se_initialized (ts_serial s)) (for_each received (λ b, tty_input_char (i8 b))).

(** The two copy loops; at most [n] characters are left to copy. *)
Fixpoint copy_line (n : nat) : TM (list Z) :=
  match n with
  | O => mret []
  | Datatypes.S n =>
      d ← device;
      if tty_head d =? tty_tail d then mret [] else
      ch ← tty_get;
      if ch =? 10 then
        d ← device;
        when (0 <? commit_count d) (upd_tty (set_commit (commit_count d - 1)));;
        mret [ch]
      else rest ← copy_line n; mret (ch :: rest)
  end.
Fixpoint copy_raw (n : nat) : TM (list Z) :=
  match n with
  | O => mret []
  | Datatypes.S n =>
      d ← device;
      if tty_head d =? tty_tail d then mret [] else
      ch ← tty_get; rest ← copy_raw n; mret (ch :: rest)
  end.

(** Without a current task [wait_queue_sleep_locked] returns at once, and the
    [while] turns for ever. *)
Definition sleep_reader (k : read_kont) : TM read_result :=
  s ← get;
  if current_task (ts_sched s) =? 0 then spin else
  in_sched (wait_queue_sleep_locked_enter read_wq);; mret (Asleep k).

Definition read_line (flags : bool) (count : Z) : TM read_result :=
  d ← device;
  if commit_count d =? 0 then sleep_reader (InLine flags count) else
  chars ← copy_line (Z.to_nat count);
  d ← device;
  when (bool_decide (chars = []) && (0 <? commit_count d)) (upd_tty (set_commit (commit_count d - 1)));;
  unlock_irqrestore flags;;
  mret (Copied chars).

Definition read_raw (flags : bool) (min_chars count : Z) : TM read_result :=
  d ← device;
  if u32 (tty_head d - tty_tail d + TTY_BUF_SIZE) `mod` TTY_BUF_SIZE <? min_chars
  then sleep_reader (InRaw flags min_chars count) else
  chars ← copy_raw (Z.to_nat count);
  unlock_irqrestore flags;;
  mret (Copied chars).

Definition read_go (k : read_kont) : TM read_result :=
  match k with
  | InLine flags count => read_line flags count
  | InRaw flags min_chars count => read_raw flags min_chars count
  end.

Definition tty_driver_read (count : Z) : TM read_result :=
  if count =? 0 then mret (Copied []) else
  flags ← lock_irqsave;
  d ← device;
  let t := tty_termios d in
  if has (c_lflag t) ICANON then read_line flags count
  else read_raw flags (if 0 <? cc t 6 then cc t 6 else 1) count.
(** The task is back from [schedule]. *)
Definition tty_driver_read_return (self : Z) (k : read_kont) : TM read_result :=
  in_sched (wait_queue_sleep_locked_return self);; read_go k.

Definition tty_has_input : TM bool :=
  flags ← lock_irqsave;
  d ← device;
  let r := if has (c_lflag (tty_termios d)) ICANON then negb (commit_count d =? 0)
           else negb (tty_head d =? tty_tail d) in
  unlock_irqrestore flags;;
  mret r.

(** ** Requests *)

Definition give_user (cur : option cur_process) (argp : Z) (bytes : list Z) : TM Z :=
  r ← in_vmm (copy_to_user cur argp (Some bytes));
  mret (if negb (r =? 0) then - EFAULT else 0).
Definition take_user (cur : option cur_process) (argp len : Z) (store : list Z → TM unit) : TM Z :=
  r ← in_vmm (copy_from_user cur true argp len);
  match r with
  | None => mret (- EFAULT)
  | Some bytes => store bytes;; mret 0
  end.

Definition tty_ioctl (cur : option cur_process) (req argp : Z) : TM Z :=
  d ← device;
  if req =? 0x5413 then give_user cur argp (winsize_bytes (tty_winsize d)) else
  if req =? 0x5414 then take_user cur argp 8 (λ b, upd_tty (set_winsize (bytes_winsize b))) else
  if req =? 0x5401 then give_user cur argp (termios_bytes (tty_termios d)) else
  if (req =? 0x5402) || (req =? 0x5403) || (req =? 0x5404)
  then take_user cur argp 52 (λ b, upd_tty (set_termios (bytes_termios b))) else
  if req =? 0x540F then give_user cur argp (le_bytes 4 (fg_pgid d)) else
  if req =? 0x5410 then take_user cur argp 4 (λ b, upd_tty (set_fg_pgid (of_le b))) else
  mret (- EINVAL).
End tty.
