(* ===== verification/TtySpec.v ===== *)
(** * The line discipline of the terminal

    The ring of the terminal as a list of characters, and the operations in
    canonical mode as operations on this list. *)

From S2P Require Import Prelude Bits Ram Frames Vmm Uaccess Links SchedState Sched WaitQueue Signal.
From S2P Require Import SchedSpec SchedRun WaitSpec SchedInv SchedSystem Tty.

(** ** The characters in the ring *)

Record ring_rep (d : tty_device) (q : list Z) : Prop := {
  rr_size : length (ibuf d) = Z.to_nat TTY_BUF_SIZE;
  rr_room : Z.of_nat (length q) < TTY_BUF_SIZE;
  rr_tail : 0 ≤ tty_tail d < TTY_BUF_SIZE;
  rr_head : tty_head d = (tty_tail d + Z.of_nat (length q)) `mod` TTY_BUF_SIZE;
  rr_chars : ∀ i x, q !! i = Some x →
    ibuf d !! Z.to_nat ((tty_tail d + Z.of_nat i) `mod` TTY_BUF_SIZE) = Some x;
}.

Lemma ring_mod x y : 0 ≤ x < TTY_BUF_SIZE → 0 ≤ y < TTY_BUF_SIZE →
  (x + y) `mod` TTY_BUF_SIZE = if x + y <? TTY_BUF_SIZE then x + y else x + y - TTY_BUF_SIZE.
Proof.
  unfold TTY_BUF_SIZE. intros Hx Hy. destruct (Z.ltb_spec (x + y) 4096).
  - apply Z.mod_small. lia.
  - symmetry. apply (Z.mod_unique _ _ 1); lia.
Qed.

Lemma ring_next x : 0 ≤ x < TTY_BUF_SIZE → u32 (x + 1) `mod` TTY_BUF_SIZE = (x + 1) `mod` TTY_BUF_SIZE.
Proof. unfold TTY_BUF_SIZE. intros Hx. by rewrite u32_small by lia. Qed.

Lemma ring_head_bound d q : ring_rep d q → 0 ≤ tty_head d < TTY_BUF_SIZE.
Proof. intros Hr. rewrite (rr_head _ _ Hr). by apply Z.mod_pos_bound. Qed.

Lemma tty_ring_empty d q : ring_rep d q → tty_head d = tty_tail d ↔ q = [].
Proof.
  intros [_ Hroom Ht Hh _]. rewrite Hh, ring_mod by lia. split.
  - intros He. destruct q as [|c q]; [done|]. cbn [length] in *. destruct (Z.ltb_spec (tty_tail d + Z.of_nat (S (length q))) TTY_BUF_SIZE); lia.
  - intros ->. cbn. rewrite Z.add_0_r. destruct (Z.ltb_spec (tty_tail d) TTY_BUF_SIZE); lia.
Qed.

(** The slot after the last character is the first one exactly when the ring
    is full. *)
Lemma ring_full d q : ring_rep d q →
  u32 (tty_head d + 1) `mod` TTY_BUF_SIZE = tty_tail d ↔ Z.of_nat (length q) = TTY_BUF_SIZE - 1.
Proof.
  intros Hr. pose proof (ring_head_bound _ _ Hr) as Hb. destruct Hr as [_ Hroom Ht Hh _].
  rewrite ring_next by done. rewrite Hh, ring_mod in Hb by lia. rewrite Hh, (ring_mod (tty_tail d)) by lia.
  rewrite ring_mod by (unfold TTY_BUF_SIZE in *; lia).
  unfold TTY_BUF_SIZE in *. destruct (Z.ltb_spec (tty_tail d + Z.of_nat (length q)) 4096);
    [destruct (Z.ltb_spec (tty_tail d + Z.of_nat (length q) + 1) 4096)|
     destruct (Z.ltb_spec (tty_tail d + Z.of_nat (length q) - 4096 + 1) 4096)]; lia.
Qed.

Lemma ring_push d q ch : ring_rep d q → Z.of_nat (length q) < TTY_BUF_SIZE - 1 →
  ring_rep (set_head (u32 (tty_head d + 1) `mod` TTY_BUF_SIZE)
    (set_ibuf (<[Z.to_nat (tty_head d) := ch]> (ibuf d)) d)) (q ++ [ch]).
Proof.
  intros Hr Hlt. pose proof (ring_head_bound _ _ Hr) as Hb. destruct Hr as [Hs Hroom Ht Hh Hc].
  split; cbn [ibuf tty_tail tty_head set_head set_ibuf].
  - by rewrite length_insert.
  - rewrite length_app. cbn. lia.
  - done.
  - rewrite ring_next by done. rewrite Hh, Zplus_mod_idemp_l, length_app. cbn. f_equal. lia.
  - intros i x Hi. destruct (decide (i < length q)%nat) as [Hlt'|Hge].
    + rewrite lookup_app_l in Hi by done. rewrite list_lookup_insert_ne; [by apply Hc|].
      rewrite Hh. intros He. apply Z2Nat.inj in He; [|apply Z.mod_pos_bound; done..].
      rewrite !ring_mod in He by lia.
      destruct (Z.ltb_spec (tty_tail d + Z.of_nat (length q)) TTY_BUF_SIZE), (Z.ltb_spec (tty_tail d + Z.of_nat i) TTY_BUF_SIZE); lia.
    + rewrite lookup_app_r in Hi by lia. apply list_lookup_singleton_Some in Hi as [Hi ->].
      replace (Z.of_nat i) with (Z.of_nat (length q)) by lia. rewrite <-Hh.
      apply list_lookup_insert_eq. unfold TTY_BUF_SIZE in *. lia.
Qed.

Lemma ring_pop d c q : ring_rep d (c :: q) →
  ibuf d !! Z.to_nat (tty_tail d) = Some c ∧
  ring_rep (set_tail (u32 (tty_tail d + 1) `mod` TTY_BUF_SIZE) d) q.
Proof.
  intros [Hs Hroom Ht Hh Hc]. split.
  - pose proof (Hc 0%nat c eq_refl) as H0. rewrite Z.add_0_r, Z.mod_small in H0 by done. done.
  - cbn [length] in *. rewrite ring_next by done.
    split; cbn [ibuf tty_tail tty_head set_tail]; [done|lia|by apply Z.mod_pos_bound| |].
    + rewrite Hh, Zplus_mod_idemp_l. f_equal. lia.
    + intros i x Hi. rewrite Zplus_mod_idemp_l. rewrite <-(Hc (S i) x Hi). do 2 f_equal. f_equal. lia.
Qed.

(** ** Lines *)

Definition newlines (q : list Z) : Z := Z.of_nat (length (filter (λ c, c = 10) q)).
(** The characters of the line that is not complete. *)
Definition open_len (q : list Z) : Z := foldl (λ n c, if c =? 10 then 0 else n + 1) 0 q.

(** At most [n] characters, up to the end of the line. *)
Fixpoint take_line (n : nat) (q : list Z) : list Z * list Z :=
  match n, q with
  | S n, c :: q => if c =? 10 then ([c], q) else let '(l, q) := take_line n q in (c :: l, q)
  | _, _ => ([], q)
  end.

Lemma newlines_snoc q c : newlines (q ++ [c]) = newlines q + (if c =? 10 then 1 else 0).
Proof.
  unfold newlines. rewrite filter_app, length_app, filter_cons. case_decide as Hc; cbn.
  - subst. cbn. lia.
  - rewrite (proj2 (Z.eqb_neq c 10)) by done. lia.
Qed.
Lemma newlines_cons c q : newlines (c :: q) = (if c =? 10 then 1 else 0) + newlines q.
Proof.
  unfold newlines. rewrite filter_cons. case_decide as Hc.
  - subst. cbn. lia.
  - by rewrite (proj2 (Z.eqb_neq c 10)) by done.
Qed.
Lemma newlines_bound q : 0 ≤ newlines q ≤ Z.of_nat (length q).
Proof. unfold newlines. pose proof (length_filter (λ c, c = 10) q). lia. Qed.

Lemma open_len_snoc q c : open_len (q ++ [c]) = if c =? 10 then 0 else open_len q + 1.
Proof. unfold open_len. by rewrite foldl_app. Qed.
Lemma open_len_bound q : 0 ≤ open_len q ≤ Z.of_nat (length q).
Proof.
  induction q as [|c q IH] using rev_ind; [done|]. rewrite open_len_snoc, length_app. cbn.
  destruct (c =? 10); lia.
Qed.
(** What is before the last newline does not matter. *)
Lemma open_len_start q m n : 0 < newlines q →
  foldl (λ n c, if c =? 10 then 0 else n + 1) m q = foldl (λ n c, if c =? 10 then 0 else n + 1) n q.
Proof.
  revert m n. induction q as [|c q IH]; intros m n Hn; [done|]. rewrite newlines_cons in Hn. cbn.
  destruct (c =? 10); [done|]. by apply IH.
Qed.
Lemma open_len_cons c q : c = 10 ∨ 0 < newlines q → open_len (c :: q) = open_len q.
Proof.
  unfold open_len. cbn. destruct (Z.eqb_spec c 10) as [->|Hc]; [done|]. intros [|Hn]; [done|]. by apply open_len_start.
Qed.

(** ** The structures of the requests *)

Lemma le_bytes_S n x : 0 ≤ x → le_bytes (S n) x = x `mod` 256 :: le_bytes n (x / 256).
Proof.
  intros Hx. unfold le_bytes. cbn [seq fmap list_fmap]. f_equal.
  - cbn. change 0xff with (2 ^ 8 - 1). by rewrite land_low_mask.
  - rewrite <-fmap_S_seq, <-list_fmap_compose. apply list_fmap_ext. intros i k _. unfold compose.
    replace (x / 256) with (x >>! 8) by by rewrite Z.shiftr_div_pow2. rewrite Z.shiftr_shiftr by lia. f_equal. f_equal. lia.
Qed.
Lemma of_le_bytes n x : 0 ≤ x < 256 ^ Z.of_nat n → of_le (le_bytes n x) = x.
Proof.
  revert x. induction n as [|n IH]; intros x Hx; [cbn in *; lia|]. rewrite le_bytes_S by lia. cbn [of_le].
  rewrite Nat2Z.inj_succ, Z.pow_succ_r in Hx by lia.
  rewrite IH by (split; [apply Z.div_pos; lia|apply Z.div_lt_upper_bound; lia]). pose proof (Z.div_mod x 256). lia.
Qed.

(** [TIOCGWINSZ] and [TCGETS] give what [TIOCSWINSZ] and [TCSETS] took. *)
Lemma winsize_roundtrip w : 0 ≤ ws_row w < 2 ^ 16 → 0 ≤ ws_col w < 2 ^ 16 → 0 ≤ ws_xpixel w < 2 ^ 16 →
  0 ≤ ws_ypixel w < 2 ^ 16 → bytes_winsize (winsize_bytes w) = w.
Proof.
  destruct w as [a b c d]. intros Ha Hb Hc Hd. unfold bytes_winsize, winsize_bytes.
  cbn [ws_row ws_col ws_xpixel ws_ypixel] in *. f_equal; by apply (of_le_bytes 2).
Qed.
Lemma termios_roundtrip t : 0 ≤ c_iflag t < 2 ^ 32 → 0 ≤ c_oflag t < 2 ^ 32 → 0 ≤ c_cflag t < 2 ^ 32 →
  0 ≤ c_lflag t < 2 ^ 32 → length (c_cc t) = 32%nat → bytes_termios (termios_bytes t) = t.
Proof.
  destruct t as [a b c d l cs p]. intros Ha Hb Hc Hd Hl. unfold bytes_termios, termios_bytes.
  cbn [c_iflag c_oflag c_cflag c_lflag c_line c_cc c_pad] in *. f_equal; [by apply (of_le_bytes 4)..| |].
  - change (take 32 (cs ++ p) = cs). by rewrite take_app_length'.
  - change (drop 32 (cs ++ p) = p). by rewrite drop_app_length'.
Qed.

(** ** Canonical mode *)

Section tty.
Context {S : Type} `{FrameAlloc S} (read_wq io_event : Z) (Qs : gset Z) (t : termios).
Context (Hrq : read_wq ∈ Qs) (Hio : io_event ∈ Qs) (Hcanon : has (c_lflag t) ICANON = true).
Implicit Types s : tty_sys S.

(** The lock is free, the counters agree with the ring. *)
Record tty_ok s (q : list Z) : Prop := {
  to_sched : ∃ ks a, good Qs ks (ts_sched s) a;
  to_lock : tty_lock (console_tty s) = false;
  to_mode : tty_termios (console_tty s) = t;
  to_ring : ring_rep (console_tty s) q;
  to_commit : commit_count (console_tty s) = newlines q;
  to_canon : canon_len (console_tty s) = open_len q;
}.

(** The same while the lock is held. *)
Record tty_held s (q : list Z) (commit canon : Z) : Prop := {
  th_sched : ∃ ks a, good Qs ks (ts_sched s) a;
  th_lock : tty_lock (console_tty s) = true;
  th_mode : tty_termios (console_tty s) = t;
  th_ring : ring_rep (console_tty s) q;
  th_commit : commit_count (console_tty s) = commit;
  th_canon : canon_len (console_tty s) = canon;
}.

Lemma good_set_if ks k a b : good Qs ks k a → good Qs ks (set_cpu (set_r_if b (cpu k)) k) a.
Proof. intros [Hr Hi Hd Ht Ho]. split; [by apply rep_set_if|done..]. Qed.

Lemma wp_in_sched {A} (m : SM A) (Q : A → tty_sys S → Prop) s :
  wp m (λ x k, Q x (TtySys (console_tty s) k (ts_vm s) (ts_serial s))) (ts_sched s) → wp (in_sched m) Q s.
Proof. intros Hm. exact (wp_zoom ts_sched (λ k s, TtySys (console_tty s) k (ts_vm s) (ts_serial s)) m Q s Hm). Qed.

Lemma wp_tty_lock q (Q : bool → tty_sys S → Prop) s : tty_ok s q →
  (∀ b s', tty_held s' q (newlines q) (open_len q) → Q b s') → wp lock_irqsave Q s.
Proof.
  intros [(ks&a&Hg) Hl Hm Hr Hc Hn] HQ. unfold lock_irqsave. apply wp_bind, wp_in_sched, wp_save_if, wp_bind, wp_gets.
  cbn. rewrite Hl. apply wp_bind, wp_modify, wp_ret, HQ. split; try done.
  - exists ks, a. by apply good_set_if.
  - by destruct Hr.
Qed.

Lemma wp_tty_unlock flags q (Q : unit → tty_sys S → Prop) s : tty_held s q (newlines q) (open_len q) →
  (∀ s', tty_ok s' q → Q () s') → wp (unlock_irqrestore flags) Q s.
Proof.
  intros [(ks&a&Hg) Hl Hm Hr Hc Hn] HQ. apply wp_bind, wp_modify, wp_in_sched, wp_restore_if, HQ. split; try done.
  - exists ks, a. by apply good_set_if.
  - by destruct Hr.
Qed.

(** Writing to the port only changes the port. *)
Lemma wp_serial_write_char ch q c n (Q : unit → tty_sys S → Prop) s : tty_held s q c n →
  (∀ s', tty_held s' q c n → Q () s') → wp (serial_write_char ch) Q s.
Proof.
  intros Hh HQ. apply wp_bind, wp_get, wp_when; intros _; [|by apply HQ].
  assert (Hout : ∀ p v s, tty_held s q c n → wp (outb p v) (λ _ s', tty_held s' q c n) s) by (intros p v s0 []; by split).
  apply wp_bind, wp_when; intros _.
  - eapply wp_mono; [by apply Hout|]. intros [] s1 H1. eapply wp_mono; [by apply Hout|]. intros [] s2 H2. by apply HQ.
  - eapply wp_mono; [by apply Hout|]. intros [] s2 H2. by apply HQ.
Qed.

Lemma wp_tty_echo ch q c n (Q : unit → tty_sys S → Prop) s : tty_held s q c n →
  (∀ s', tty_held s' q c n → Q () s') → wp (tty_echo ch) Q s.
Proof.
  intros Hh HQ. apply wp_bind, wp_gets, wp_when; intros _; [|by apply HQ]. by eapply wp_serial_write_char.
Qed.

Lemma wp_wake_readers q c n (Q : unit → tty_sys S → Prop) s : tty_held s q c n →
  (∀ s', tty_held s' q c n → Q () s') → wp (wake_readers read_wq io_event) Q s.
Proof.
  intros [(ks&a&Hg) Hl Hm Hr Hc Hn] HQ. apply wp_bind, wp_in_sched.
  eapply wp_mono; [by eapply good_wake_all|]. intros [] k1 [a1 Hg1]. apply wp_in_sched. cbn.
  eapply wp_mono; [by eapply good_wake_all|]. intros [] k2 [a2 Hg2]. apply HQ. split; try done. by exists ks, a2.
Qed.

Lemma wp_tty_put ch q c n (Q : bool → tty_sys S → Prop) s : tty_held s q c n →
  (Z.of_nat (length q) = TTY_BUF_SIZE - 1 → Q false s) →
  (Z.of_nat (length q) < TTY_BUF_SIZE - 1 → ∀ s', tty_held s' (q ++ [ch]) c n → Q true s') →
  wp (tty_put ch) Q s.
Proof.
  intros Hh Hfull Hok. pose proof Hh as [Hg Hl Hm Hr Hc Hn]. apply wp_bind, wp_gets. cbv zeta.
  destruct (Z.eqb_spec (u32 (tty_head (console_tty s) + 1) `mod` TTY_BUF_SIZE) (tty_tail (console_tty s))) as [He|He].
  - apply wp_ret, Hfull. by apply (ring_full _ _ Hr) in He.
  - assert (Hlt : Z.of_nat (length q) < TTY_BUF_SIZE - 1).
    { pose proof (rr_room _ _ Hr). destruct (decide (Z.of_nat (length q) = TTY_BUF_SIZE - 1)) as [Hx|]; [|lia].
      by apply (ring_full _ _ Hr) in Hx. }
    destruct (lookup_lt_is_Some_2 (ibuf (console_tty s)) (Z.to_nat (tty_head (console_tty s)))) as [x Hx].
    { rewrite (rr_size _ _ Hr). pose proof (ring_head_bound _ _ Hr). lia. }
    apply wp_bind. eapply wp_deref; [done|]. apply wp_bind, wp_modify, wp_bind, wp_modify, wp_ret, (Hok Hlt).
    split; try done. by apply ring_push.
Qed.

Lemma wp_tty_commit q c n (Q : unit → tty_sys S → Prop) s : tty_held s q c n →
  (∀ s', tty_held s' q (u32 (c + 1)) 0 → Q () s') → wp (tty_commit read_wq io_event) Q s.
Proof.
  intros [Hg Hl Hm Hr Hc Hn] HQ. apply wp_bind, wp_gets, wp_bind, wp_modify, wp_bind, wp_modify.
  eapply wp_wake_readers; [|exact HQ]. split; try done; [by destruct Hr|]. cbn. by rewrite Hc.
Qed.

(** ** The operations *)

(** A key that is neither a signal nor an editing key. *)
Definition ordinary (ch : Z) : Prop :=
  (has (c_lflag t) ISIG = true → ch ≠ cc t 0 ∧ ch ≠ 26) ∧ ch ≠ 127 ∧ ch ≠ 8 ∧ ch ≠ cc t 4.
#[global] Instance ordinary_dec ch : Decision (ordinary ch).
Proof. unfold ordinary. apply _. Defined.
(** What the key stands for. *)
Definition typed (ch : Z) : Z := if (ch =? 13) && has (c_iflag t) ICRNL then 10 else ch.

(** The ring after the key; a full ring drops it. *)
Definition press (ch : Z) (q : list Z) : list Z :=
  if Z.of_nat (length q) <? TTY_BUF_SIZE - 1 then q ++ [typed ch] else q.

Lemma wp_tty_input ch q s : tty_ok s q → ordinary ch →
  wp (tty_input_char read_wq io_event ch) (λ _ s', tty_ok s' (press ch q)) s.
Proof.
  intros Hs (Hsig&Ho1&Ho2&Ho3). unfold tty_input_char. apply wp_bind. eapply wp_tty_lock; [done|]. intros flags s1 H1.
  apply wp_bind, wp_gets. rewrite (th_mode _ _ _ _ H1). cbv zeta.
  assert (Hnosig : ∀ k, k = cc t 0 ∨ k = 26 → has (c_lflag t) ISIG && (ch =? k) = false).
  { intros k Hk. destruct (has (c_lflag t) ISIG); [|done]. destruct (Hsig eq_refl). apply Z.eqb_neq. by destruct Hk as [-> | ->]. }
  rewrite !Hnosig by tauto. rewrite Hcanon, (proj2 (Z.eqb_neq ch 127)), (proj2 (Z.eqb_neq ch 8)), (proj2 (Z.eqb_neq ch (cc t 4))) by done.
  cbn [orb]. fold (typed ch). apply wp_bind. eapply wp_tty_echo; [done|]. intros s2 H2.
  apply wp_bind. eapply wp_tty_put; [done| |]; unfold press.
  - intros Hfull. rewrite Hfull, Z.ltb_irrefl. apply wp_bind, wp_when; [done|]. intros _. by eapply wp_tty_unlock.
  - intros Hlt s3 H3. rewrite (proj2 (Z.ltb_lt _ _)) by done. apply wp_bind, wp_when; [|done]. intros _.
    pose proof (newlines_bound q) as Hnb. pose proof (open_len_bound q) as Hob. unfold TTY_BUF_SIZE in *.
    assert (Hend : ∀ c n s', tty_held s' (q ++ [typed ch]) c n → c = newlines (q ++ [typed ch]) → n = open_len (q ++ [typed ch]) →
      wp (unlock_irqrestore flags) (λ _ s', tty_ok s' (q ++ [typed ch])) s').
    { intros c n s' Hh -> ->. by eapply wp_tty_unlock. }
    destruct (typed ch =? 10) eqn:Hc.
    + eapply wp_tty_commit; [done|]. intros s4 H4. eapply Hend; [done|..].
      * rewrite newlines_snoc, Hc, u32_small by lia. done.
      * by rewrite open_len_snoc, Hc.
    + apply wp_bind, wp_gets, wp_modify. eapply (Hend (newlines q)); [|by rewrite newlines_snoc, Hc, Z.add_0_r|by rewrite open_len_snoc, Hc].
      destruct H3 as [Hg Hl Hm Hr Hcm Hn]. split; try done; [by destruct Hr|]. cbn. rewrite Hn, u32_small by lia. done.
Qed.

Lemma wp_copy_line k q n s : tty_held s q (newlines q) n → 0 < newlines q → n = open_len q →
  wp (copy_line k) (λ l s', ∃ q', take_line k q = (l, q') ∧ tty_held s' q' (newlines q') (open_len q')) s.
Proof.
  revert q s. induction k as [|k IH]; intros q s Hh Hn Hopen.
  { apply wp_ret. exists q. by subst. }
  cbn [copy_line take_line]. pose proof Hh as [Hg Hl Hm Hr Hc Ho]. apply wp_bind, wp_gets.
  destruct q as [|ch q]; [done|].
  assert (Hne : tty_head (console_tty s) ≠ tty_tail (console_tty s)) by (intros Hx; by apply (tty_ring_empty _ _ Hr) in Hx).
  rewrite (proj2 (Z.eqb_neq _ _)) by done. destruct (ring_pop _ _ _ Hr) as [Hch Hr'].
  apply wp_bind. unfold tty_get. apply wp_bind, wp_gets, wp_bind. eapply wp_deref; [done|]. apply wp_bind, wp_modify, wp_ret.
  rewrite newlines_cons in *. destruct (Z.eqb_spec ch 10) as [->|Hnc].
  - apply wp_bind, wp_gets. pose proof (newlines_bound q). apply wp_bind. cbn. rewrite Hc.
    rewrite (proj2 (Z.ltb_lt 0 _)) by lia. apply wp_modify, wp_ret. exists q. split; [done|].
    rewrite open_len_cons in Hopen by by left. split; try done; [by destruct Hr'|cbn; lia|cbn; congruence].
  - apply wp_bind. eapply wp_mono; [apply (IH q)|].
    + split; try done.
    + lia.
    + rewrite open_len_cons in Hopen by (right; lia). done.
    + intros l s' (q'&Ht&Hh'). apply wp_ret. exists q'. by rewrite Ht.
Qed.

(** A read takes the first line, or the part of it that fits. *)
Lemma wp_tty_read count q s : tty_ok s q → 0 < count → 0 < newlines q →
  wp (tty_driver_read read_wq count) (λ r s', ∃ l q', take_line (Z.to_nat count) q = (l, q') ∧ r = Copied l ∧ tty_ok s' q') s.
Proof.
  intros Hs Hcount Hn. unfold tty_driver_read. rewrite (proj2 (Z.eqb_neq count 0)) by lia.
  apply wp_bind. eapply wp_tty_lock; [done|]. intros flags s1 H1. apply wp_bind, wp_gets. rewrite (th_mode _ _ _ _ H1). cbv zeta.
  rewrite Hcanon. unfold read_line. apply wp_bind, wp_gets. rewrite (th_commit _ _ _ _ H1), (proj2 (Z.eqb_neq _ 0)) by lia.
  apply wp_bind. eapply wp_mono; [by eapply wp_copy_line|]. intros l s2 (q'&Ht&H2). apply wp_bind, wp_gets, wp_bind.
  assert (Hl : l ≠ []).
  { destruct (Z.to_nat count) eqn:Hk; [lia|]. destruct q as [|c q]; [done|]. cbn in Ht. destruct (c =? 10); [congruence|].
    destruct (take_line _ q). congruence. }
  rewrite bool_decide_eq_false_2 by done. cbn [andb]. apply wp_when; [done|]. intros _.
  apply wp_bind. eapply wp_tty_unlock; [done|]. intros s3 H3. apply wp_ret. by exists l, q'.
Qed.

Lemma wp_tty_has_input q s : tty_ok s q →
  wp tty_has_input (λ b s', b = negb (newlines q =? 0) ∧ tty_ok s' q) s.
Proof.
  intros Hs. apply wp_bind. eapply wp_tty_lock; [done|]. intros flags s1 H1. apply wp_bind, wp_gets.
  rewrite (th_mode _ _ _ _ H1), Hcanon, (th_commit _ _ _ _ H1). apply wp_bind. eapply wp_tty_unlock; [done|].
  intros s2 H2. by apply wp_ret.
Qed.
End tty.
