(* ===== verification/TtyProps.v ===== *)
(** * Properties of the terminal. *)

From S2P Require Import Prelude Bits Ram Pmm PmmSpec PmmInit PmmProps Frames Vmm Uaccess VmmProps Links SchedState Sched WaitQueue Signal.
From S2P Require Import SchedSpec SchedRun WaitSpec SchedInv SchedSystem SchedProps Tty TtySpec.

(** ** Keys, reads and polls *)



Section props.
Context {S : Type} `{FrameAlloc S} (read_wq io_event : Z) (Qs : gset Z) (t : termios).
Implicit Types s : tty_sys S.
Abbreviation tty_ok := (tty_ok Qs t).


Section canonical.
Context (Hrq : read_wq ∈ Qs) (Hio : io_event ∈ Qs) (Hcanon : has (c_lflag t) ICANON = true).


End canonical.


(** ** A whole line *)

Lemma wp_for_each_app {A} (l l' : list A) (f : A → prog (tty_sys S) unit) (Q : unit → tty_sys S → Prop) s :
  wp (for_each l f) (λ _, wp (for_each l' f) Q) s → wp (for_each (l ++ l') f) Q s.
Proof.
  revert s. induction l as [|x l IH]; intros s; [done|]. cbn [app for_each]. unfold wp, mbind, prog_bind.
  destruct (f x s) as [[[] s1]|]; [|done]. apply IH.
Qed.

Lemma take_line_whole l n : (length l < n)%nat → (∀ c, c ∈ l → c ≠ 10) → take_line n (l ++ [10]) = (l ++ [10], []).
Proof.
  revert n. induction l as [|c l IH]; intros [|n] Hn Hl; cbn in Hn; [lia|done|lia|]. cbn.
  rewrite (proj2 (Z.eqb_neq c 10)) by (apply Hl; by left). rewrite IH; [done|lia|]. intros x Hx. apply Hl. by right.
Qed.

Lemma newlines_line l : (∀ c, c ∈ l → c ≠ 10) → newlines (l ++ [10]) = 1.
Proof.
  intros Hl. rewrite newlines_snoc. cbn. unfold newlines. destruct (filter (λ c, c = 10) l) as [|c r] eqn:Hf; [done|].
  assert (Hc : c ∈ filter (λ c, c = 10) l) by (rewrite Hf; by left). apply list_elem_of_filter in Hc as [-> Hc].
  by destruct (Hl 10 Hc).
Qed.

(** Characters of a line: they fit in seven bits and mean themselves. *)
Definition plain (c : Z) : Prop := 0 ≤ c < 128 ∧ ordinary t c ∧ c ≠ 10 ∧ c ≠ 13.

Lemma wp_keys l q s : read_wq ∈ Qs → io_event ∈ Qs → has (c_lflag t) ICANON = true →
  tty_ok s q → Forall plain l → Z.of_nat (length q + length l) < TTY_BUF_SIZE →
  wp (for_each l (λ b, tty_input_char read_wq io_event (i8 b))) (λ _ s', tty_ok s' (q ++ l)) s.
Proof.
  intros Hrq Hio Hcanon Hs Hl Hlen.
  apply (wp_for_each (λ d s', tty_ok s' (q ++ d))); [by rewrite app_nil_r| |done].
  intros d c rest s' -> Hs'. apply Forall_app in Hl as [_ Hc]. apply Forall_cons_1 in Hc as [(Hb&Ho&H10&H13) _].
  assert (Hi8 : i8 c = c) by (unfold i8; rewrite Z.mod_small; lia). rewrite Hi8.
  eapply wp_mono; [by eapply wp_tty_input|]. intros [] s2 H2.
  assert (Hp : press t c (q ++ d) = (q ++ d) ++ [c]).
  { unfold press, typed. rewrite (proj2 (Z.eqb_neq c 13)) by done. cbn [andb].
    rewrite (proj2 (Z.ltb_lt _ _)); [done|]. rewrite length_app in *. cbn [length] in *. lia. }
  rewrite Hp, <-app_assoc in H2. done.
Qed.

(** C24. A line of up to 4094 characters typed on an idle terminal and ended with
    the return key is delivered by one read, whole and with a newline, and
    leaves the terminal empty. *)
Theorem tty_line_delivered l count s :
  read_wq ∈ Qs → io_event ∈ Qs → has (c_lflag t) ICANON = true →
  has (c_iflag t) ICRNL = true → ordinary t 13 → se_initialized (ts_serial s) = true →
  tty_ok s [] → Forall plain l → Z.of_nat (length l) < TTY_BUF_SIZE - 1 → Z.of_nat (length l) < count →
  ∃ s1 s2, serial_irq read_wq io_event (l ++ [13]) s = Done ((), s1) ∧
    tty_driver_read read_wq count s1 = Done (Copied (l ++ [10]), s2) ∧ tty_ok s2 [].
Proof.
  intros Hrq Hio Hcanon Hicrnl H13 Hser Hs Hl Hlen Hcount.
  assert (Hno : ∀ c, c ∈ l → c ≠ 10) by (intros c Hc; by eapply Forall_forall in Hl as (_&_&?&_)).
  assert (Hwp : wp (serial_irq read_wq io_event (l ++ [13])) (λ _ s', tty_ok s' (l ++ [10])) s).
  { apply wp_bind, wp_get, wp_when; [|congruence]. intros _. apply wp_for_each_app.
    eapply wp_mono; [apply (wp_keys l []); [done..|cbn; lia]|]. intros [] s1 H1. cbn [for_each]. apply wp_bind.
    change (i8 13) with 13. eapply wp_mono; [by eapply wp_tty_input|]. intros [] s2 H2. apply wp_ret.
    unfold press, typed in H2. rewrite Hicrnl in H2. cbn [Z.eqb andb app] in H2.
    by rewrite (proj2 (Z.ltb_lt _ _)) in H2 by lia. }
  apply wp_run in Hwp as ([]&s1&Hrun1&H1).
  destruct (proj1 (wp_run _ _ _) (wp_tty_read read_wq Qs t Hcanon count (l ++ [10]) s1 H1 ltac:(lia)
    ltac:(rewrite newlines_line by done; lia))) as (r&s2&Hrun2&l'&q'&Ht&->&H2).
  rewrite take_line_whole in Ht by (done || lia). injection Ht as <- <-. by exists s1, s2.
Qed.

(** ** The lock *)

(** Every later operation turns for ever. *)
Definition stuck s : Prop :=
  (∀ ch, tty_input_char read_wq io_event ch s = Stop Spinning) ∧
  (∀ count, count ≠ 0 → tty_driver_read read_wq count s = Stop Spinning) ∧
  tty_has_input s = Stop Spinning.

Lemma locked_stuck s : tty_lock (console_tty s) = true → stuck s.
Proof.
  intros Hl. assert (Hspin : lock_irqsave s = Stop Spinning).
  { destruct s as [d k v p]. cbn in Hl. unfold lock_irqsave, in_sched, save_interrupts_and_disable, zoom, mbind, prog_bind. cbn. by rewrite Hl. }
  split_and!.
  - intros ch. unfold tty_input_char, mbind, prog_bind. by rewrite Hspin.
  - intros count Hc. unfold tty_driver_read. rewrite (proj2 (Z.eqb_neq count 0)) by done. unfold mbind, prog_bind. by rewrite Hspin.
  - unfold tty_has_input, mbind, prog_bind. by rewrite Hspin.
Qed.

Lemma wp_char_device ch s : wp (serial_write_char ch) (λ _ s', console_tty s' = console_tty s) s.
Proof. unfold serial_write_char, outb, when, wp, mbind, prog_bind. cbn. by destruct (se_initialized _), (ch =? 10). Qed.

Lemma wp_tty_erase s : tty_lock (console_tty s) = true → wp tty_erase (λ _ s', tty_lock (console_tty s') = true) s.
Proof.
  intros Hl. apply wp_bind, wp_gets, wp_when; intros _; [|done].
  apply wp_bind, wp_modify, wp_bind, wp_modify, wp_when; intros _; [|done].
  apply wp_bind. eapply wp_mono; [apply wp_char_device|]. intros [] s1 H1.
  apply wp_bind. eapply wp_mono; [apply wp_char_device|]. intros [] s2 H2.
  eapply wp_mono; [apply wp_char_device|]. intros [] s3 H3. by rewrite H3, H2, H1.
Qed.

(** With interrupts off, [wait_queue_sleep] is the sleep of a reader. *)
Lemma wp_sleep_locked ks k a q : good Qs ks k a → q ∈ Qs → ks !! current_task k = None → current_task k ≠ idle_task k →
  r_if (cpu k) = false → wp (wait_queue_sleep_locked_enter q) (λ _ _, True) k.
Proof.
  intros Hg Hq Hk Hi Hif. pose proof (good_sleep Qs ks k a Hg q Hq Hk Hi) as Hwp.
  destruct (good_current _ _ _ _ Hg) as (Hcur&Hc0&_). destruct (good_queue _ _ _ _ _ Hg Hq) as (_&_&Hq0).
  assert (Hsame : set_cpu (set_r_if false (cpu k)) k = k) by (rewrite <-Hif at 1; apply set_if_same).
  unfold wp, wait_queue_sleep_enter, save_interrupts_and_disable, set_if, gets, modify, mbind, prog_bind in Hwp.
  cbv beta iota in Hwp. rewrite Hcur, (proj2 (Z.eqb_neq q 0)), (proj2 (Z.eqb_neq _ 0)) in Hwp by done.
  cbn [orb mret prog_ret] in Hwp. rewrite Hsame in Hwp.
  unfold wp. by destruct (wait_queue_sleep_locked_enter q k) as [[[] k']|].
Qed.

(** C21. Three paths leave the terminal locked for ever: the erase key, the
    end-of-file key, and a read that has to wait for a line, which sleeps with
    the lock.  Every later key, read and poll spins on the lock, so that the
    sleeping reader is never woken. *)
Theorem tty_lock_lost ks a q s :
  read_wq ∈ Qs → io_event ∈ Qs → has (c_lflag t) ICANON = true →
  tty_ok s q → good Qs ks (ts_sched s) a →
  ks !! current_task (ts_sched s) = None → current_task (ts_sched s) ≠ idle_task (ts_sched s) →
  (∀ ch, ch = 127 ∨ ch = 8 ∨ ch = cc t 4 → (has (c_lflag t) ISIG = true → ch ≠ cc t 0 ∧ ch ≠ 26) →
     ∃ s', tty_input_char read_wq io_event ch s = Done ((), s') ∧ stuck s') ∧
  (∀ count, count ≠ 0 → newlines q = 0 →
     ∃ k s', tty_driver_read read_wq count s = Done (Asleep k, s') ∧ stuck s').
Proof.
  intros Hrq Hio Hcanon Hs Hg Hk Hidle. split.
  - intros ch Hch Hsig. enough (Hwp : wp (tty_input_char read_wq io_event ch) (λ _ s', tty_lock (console_tty s') = true) s).
    { apply wp_run in Hwp as ([]&s'&Hrun&Hl). exists s'. split; [done|]. by apply locked_stuck. }
    unfold tty_input_char. apply wp_bind. eapply wp_tty_lock; [done|]. intros flags s1 H1.
    apply wp_bind, wp_gets. rewrite (th_mode _ _ _ _ _ _ H1). cbv zeta.
    assert (Hnosig : ∀ k, k = cc t 0 ∨ k = 26 → has (c_lflag t) ISIG && (ch =? k) = false).
    { intros k Hk'. destruct (has (c_lflag t) ISIG); [|done]. destruct (Hsig eq_refl). apply Z.eqb_neq. by destruct Hk' as [-> | ->]. }
    rewrite !Hnosig by tauto. rewrite Hcanon. destruct ((ch =? 127) || (ch =? 8)) eqn:Her.
    + apply wp_tty_erase, H1.
    + apply orb_false_iff in Her as [Hn1%Z.eqb_neq Hn2%Z.eqb_neq]. assert (ch = cc t 4) as -> by tauto.
      rewrite Z.eqb_refl. eapply wp_tty_commit; [exact Hrq|exact Hio|done|]. intros s2 Hh2. apply Hh2.
  - intros count Hc Hn.
    enough (Hwp : wp (tty_driver_read read_wq count) (λ r s', (∃ k, r = Asleep k) ∧ tty_lock (console_tty s') = true) s).
    { apply wp_run in Hwp as (r&s'&Hrun&[k ->]&Hl). exists k, s'. split; [done|]. by apply locked_stuck. }
    unfold tty_driver_read. rewrite (proj2 (Z.eqb_neq count 0)) by done. apply wp_bind. unfold lock_irqsave.
    apply wp_bind, wp_in_sched, wp_save_if, wp_bind, wp_gets. cbn. rewrite (to_lock _ _ _ _ Hs).
    apply wp_bind, wp_modify, wp_ret, wp_bind, wp_gets. cbn. rewrite (to_mode _ _ _ _ Hs), Hcanon.
    unfold read_line. apply wp_bind, wp_gets. cbn. rewrite (to_commit _ _ _ _ Hs), Hn. cbn.
    destruct (good_current _ _ _ _ Hg) as (Hcur&Hc0&_). apply wp_bind, wp_get. cbn. rewrite Hcur, (proj2 (Z.eqb_neq _ 0)) by done.
    apply wp_bind, wp_in_sched. cbn. eapply wp_mono; [eapply wp_sleep_locked; [by apply good_set_if|done..]|].
    intros [] k' _. apply wp_ret. split; [by eexists|done].
Qed.
End props.

(** ** A terminal after start *)

#[local] Existing Instance demo_frames.

Definition tty_script : list kop := [ThreadCreate 64 8192 "a" 16 7 0; Yield].
Definition tty_boot : sys := end_of tty_script.
Definition console0 : tty_device :=
  console_tty (VmmProps.state_of (tty_init 2) (TtySys (TtyDevice [] 0 0 (Winsize 0 0 0 0) (Termios 0 0 0 0 0 [] []) 0 0 false 0 0)
    (sy_sched tty_boot) demo_vmm (Serial true []))).
Definition tty0 : tty_sys pmm := TtySys console0 (sy_sched tty_boot) demo_vmm (Serial true []).

Lemma tty_boot_good : (∃ a, good queues0 (sy_in tty_boot) (sy_sched tty_boot) a) ∧
  sy_in tty_boot !! current_task (sy_sched tty_boot) = None ∧
  current_task (sy_sched tty_boot) ≠ idle_task (sy_sched tty_boot).
Proof.
  split_and!; [|vm_compute; reflexivity|vm_compute; congruence].
  apply (reach_ok queues0 5 tty_boot), reach_end. vm_compute. reflexivity.
Qed.

Lemma console0_eq : console0 = TtyDevice (replicate 4096 0) 0 0 (Winsize 24 80 0 0)
  (Termios 0x500 0x5 0xBF 0x8A3B 0 (<[0%nat := 3]> (<[4%nat := 4]> (<[6%nat := 1]> (replicate 32 0)))) [0; 0; 0])
  0 0 false 0 0.
Proof. vm_compute. reflexivity. Qed.

Definition termios0 : termios := tty_termios console0.

Lemma tty0_ok : tty_ok queues0 termios0 tty0 [].
Proof.
  split; cbn [console_tty tty0 ts_sched]; [|by rewrite console0_eq|done| |by rewrite console0_eq|by rewrite console0_eq].
  - destruct tty_boot_good as ([a Hg]&_). by exists (sy_in tty_boot), a.
  - rewrite console0_eq. split; cbn [ibuf tty_head tty_tail]; [apply length_replicate|done|done|done|].
    intros i x Hi. by rewrite lookup_nil in Hi.
Qed.


Lemma tty_line_delivered_witness :
  ∃ s1 s2, serial_irq 2 3 [104; 105; 13] tty0 = Done ((), s1) ∧
    tty_driver_read 2 10 s1 = Done (Copied [104; 105; 10], s2).
Proof.
  destruct (tty_line_delivered 2 3 queues0 termios0 [104; 105] 10 tty0) as (s1&s2&Hr1&Hr2&_).
  - apply (bool_decide_unpack _). vm_compute. exact I.
  - apply (bool_decide_unpack _). vm_compute. exact I.
  - vm_compute. reflexivity.
  - vm_compute. reflexivity.
  - apply (bool_decide_unpack _). vm_compute. exact I.
  - reflexivity.
  - exact tty0_ok.
  - repeat constructor; try lia; vm_compute; congruence.
  - vm_compute. reflexivity.
  - vm_compute. reflexivity.
  - exists s1, s2. split; [exact Hr1|exact Hr2].
Defined.

Lemma tty_lock_lost_witness :
  (∃ s', tty_input_char 2 3 127 tty0 = Done ((), s') ∧ tty_has_input s' = Stop Spinning) ∧
  ∃ k s', tty_driver_read 2 10 tty0 = Done (Asleep k, s') ∧ tty_input_char 2 3 104 s' = Stop Spinning.
Proof.
  destruct tty_boot_good as ([a Hg]&Hk&Hi).
  destruct (tty_lock_lost 2 3 queues0 termios0 (sy_in tty_boot) a [] tty0) as [Hkey Hread].
  - apply (bool_decide_unpack _). vm_compute. exact I.
  - apply (bool_decide_unpack _). vm_compute. exact I.
  - vm_compute. reflexivity.
  - exact tty0_ok.
  - exact Hg.
  - exact Hk.
  - exact Hi.
  - split.
    + destruct (Hkey 127) as (s'&Hrun&_&_&Hs); [left; reflexivity|intros _; split; vm_compute; congruence|].
      exists s'. split; [exact Hrun|exact Hs].
    + destruct (Hread 10) as (k&s'&Hrun&Hs&_); [lia|reflexivity|]. exists k, s'. split; [exact Hrun|apply Hs].
Defined.
